(* ===== verification/_CoqProject ===== *)
-Q . S2P
Prelude.v
Errno.v
GoLib.v
SafeMap.v
HostDate.v
Utils.v
Storage.v
StorageFacts.v
Vars.v
DeployConfig.v
Topology.v
TopologyMerge.v
TopologyTyped.v
TopologySamples.v
TopologyParse.v
TopologyGaps.v
TopologyDiff.v
ItemSet.v
Hosts.v
HostsFacts.v
Shell.v
Components.v
Tasks.v
TasksFacts.v
Steps.v
Cli.v
CliConfig.v
Session.v
Monitor.v
Playbook.v
PlaybookFacts.v
Checker.v
ClusterCmd.v
CheckerFacts.v
Deploy.v
DeployFacts.v
ServiceCmd.v
ServiceEnv.v
Services.v
ClientCfg.v
EnvChecks.v
ServicesFacts.v
EnvChecksFacts.v
ServiceContracts.v
ConfigSync.v
ConfigSyncFacts.v
MonitorTasks.v
MonitorCmd.v
MonitorFacts.v
TextTable.v
StatusTable.v
StatusTableFacts.v
StatusCmd.v
ConfigCmd.v
ClientStatus.v
RemoteCmd.v
Mds.v
Table.v
Flags.v
Rpc.v
Operator.v
OperatorFacts.v
MdsSample.v
FsCmd.v
DirWalk.v
DirWalkFacts.v
DirWalkEnds.v
DirOps.v
DirSummaryFacts.v
DirCmd.v
FsCmdFacts.v
DirCmdFacts.v
ComponentCmd.v
NfsCmd.v
LocalCmd.v
Download.v
Upgrade.v
Float64.v
Stats.v
StatsFacts.v
