(* ===== verification/Prelude.v ===== *)
(** * dingocli, the deployment tool of dingofs: a verification development

    The program reads a hosts file and a topology file, turns them into a list of
    deploy configurations - one per service instance -, checks them, and runs playbooks,
    which are groups of tasks on the hosts over ssh.  Clusters, hosts and containers are
    kept in a database.  A separate part installs binary components from a repository.
    Another part is a client of the metadata service of dingofs: file systems, directories,
    quotas and caches, by requests over gRPC.
    This development models those parts as functions and step systems
    and proves what they promise.

    ** Parts, files and sources (paths under src/)

    - Prelude.v: results of Go calls ([res]), loops with early return ([fold_res]),
      the iteration order of Go maps ([MapOrder]), machine integers, list lemmas and
      the hint database [godb].
    - GoLib.v: the strings, path and strconv functions the sources call, and the
      values of [interface{}] ([val]) with their type assertions.
    - Errno.v (internal/errno/errno.go): the declared error codes, the registry, and
      the clue methods over a store of shared objects.
    - Utils.v (internal/utils: string.go, common.go, quota_utils.go).
    - SafeMap.v (internal/utils/map.go, setServiceStatus and its like): the map the tasks
      share, as a system of goroutines; HostDate.v (task/task/checker/date.go): the dates
      of the hosts, kept in it.
    - Storage.v, StorageFacts.v (internal/storage: sql.go, storage.go): the tables and the
      operations, and a specification [spec_step] of them over maps.
    - Vars.v (pkg/variable/variables.go): [Register], [Build], [resolve], [Rendering]
      and the specification [denotes].
    - DeployConfig.v (internal/configure/topology: dc.go, dc_item.go, dc_get.go,
      context.go): the configuration of one instance, every item with its default,
      every getter, the project layout.
    - Topology.v (topology: dc.go, variables.go, topology.go): building a
      configuration, the service and cluster variables, [merge] and [ParseTopology].
      TopologyMerge.v, TopologyTyped.v, TopologyParse.v and TopologyGaps.v hold its
      theorems, TopologySamples.v the topologies the examples use.
    - TopologyDiff.v (topology/diff.go): the difference of two topologies.
    - ItemSet.v (internal/configure/common/item_set.go): typed items.
    - Hosts.v, HostsFacts.v (internal/configure/hosts: hosts.go, hc_get.go, hc_item.go):
      the hosts file and the selection of hosts by labels.
    - Components.v (internal/component): installed components.
    - Tasks.v, TasksFacts.v (internal/task/task/task.go, internal/tasks: tasks.go,
      monitor.go, internal/task/context): a task, the monitor, and the goroutines of
      [Tasks.Execute] as a small-step system [next].
    - Cli.v (cli/cli/cli.go): the context of a command, which joins hosts and topology.
    - Session.v (cli/cli/cli.go, cli/dingocli.go, cli/command/audit.go,
      internal/tools/upgrade/upgrade.go): what a command starts from, its audit - also when it
      ends the process ([command_end]) -, and the comparison of versions.
    - Monitor.v (internal/configure/monitor.go): the configuration of the monitor stack.
    - Playbook.v, PlaybookFacts.v (internal/playbook: factory.go, playbook.go, configs.go):
      the steps of a playbook, the tasks they make and how they run.
    - ClusterCmd.v (cli/command/cluster: add.go, remove.go, rename.go, checkout.go, list.go),
      Deploy.v, DeployFacts.v (deploy.go, precheck.go), ServiceCmd.v (start.go, stop.go,
      restart.go, clean.go, upgrade.go, status.go): the cluster commands.
    - Shell.v (pkg/module): rendering a command, its sudo and become prefixes, running it on
      a machine ([Machine]), connecting; Steps.v (internal/task/step): the steps tasks are
      made of and the variables they leave in the register of a task.
    - ServiceEnv.v, Services.v (internal/task/task/common: create_container.go,
      start_service.go, stop_service.go, restart_service.go, clean_service.go, pull_image.go,
      check_service.go, create_meta_table.go, sync_java_opts.go, service_status.go): what the
      container of a service is created with, and the tasks on it in a [World] of machines,
      database and memory.  ServicesFacts.v: the laws of such worlds ([WorldLaws],
      [EngineLaws]) and what the steps do under them; ServiceContracts.v: the contracts of
      the tasks, and a small container engine [Sim] on which they are evaluated.
    - ConfigSync.v, ConfigSyncFacts.v (internal/task/step/file.go, task/common/sync_config.go):
      writing the configuration files of a service.
    - Checker.v, CheckerFacts.v (internal/task/task/checker: topology.go, common.go;
      cli/command/cluster/precheck.go, cli/command/config/commit.go): the topology check.
    - EnvChecks.v, EnvChecksFacts.v (task/task/checker: ssh.go, permission.go, kernel.go,
      network.go, service.go, date.go): the tasks of the other checks, and what their success
      says of the machines.
    - CliConfig.v (internal/configure/dingocli/dingocli.go): the tool's configuration.
      ClientCfg.v (internal/configure/client.go): the configuration of a client.
    - MonitorTasks.v (task/task/monitor), MonitorCmd.v (cli/command/monitor), MonitorFacts.v:
      the tasks and the commands of the monitor stack and their contracts.
    - TextTable.v (internal/tui: common/tui.go, common/prompt.go, hosts.go, audit.go,
      clusters.go): tables as text, and prompts.  StatusTable.v, StatusTableFacts.v
      (tui/service/status.go, cli/command/cluster/status.go): the tables of the statuses.
      StatusCmd.v (cli/command/cluster/status.go): the command, also for a second cluster.
    - Mds.v (internal/common: mds_router.go, mds_meta.go, fs_meta.go): the messages of the
      metadata service and the routers from inodes to servers.  Table.v (internal/table,
      utils/pb_utils.go, quota_utils.go): what is shown.  Flags.v (internal/utils/fs_config.go):
      the flags of the commands, their declaration and their values.
    - Rpc.v (internal/rpc: client.go, pool.go, mds.go, cachegroup.go, status.go, utils.go): the
      pool of connections, requests and their retries; Operator.v (rpc/operator.go, utils.go):
      the operations made of them, OperatorFacts.v their properties; MdsSample.v: a small
      metadata service on which the theorems are evaluated.
    - DirWalk.v: the goroutines that walk a directory tree, as a small-step system over
      trees of calls, for any program at an entry and at the end of a directory;
      DirWalkFacts.v, DirWalkEnds.v: its invariants, its measure, its progress.  DirOps.v
      (rpc/operator.go, fs/subpath/delete.go): its two instances, [GetDirSummarySize] and
      [deleteDirectoryAndData]; DirSummaryFacts.v: the size of a directory.
    - FsCmd.v, FsCmdFacts.v (cli/command/fs: create.go, delete.go, list.go, query.go,
      mountpoint.go; mds/status.go; cache/group, cache/member): the commands that are one
      request.  DirCmd.v, DirCmdFacts.v (fs/quota, fs/config, fs/subpath, fs/usage.go): the
      commands on directories, quotas and usages.
    - ConfigCmd.v (cli/command/config, cli/command/hosts): committing, comparing and showing
      topologies and hosts.  ComponentCmd.v (cli/command/component): the commands on
      components.  ClientStatus.v (task/common/client_status.go, tui/client/status.go): the
      statuses of clients and their table.
    - RemoteCmd.v (cli/command: exec.go, enter.go, ssh.go, playbook.go; internal/tools/ssh.go):
      the commands that start ssh; the goroutines of playbook as a step relation [pb_step].
    - NfsCmd.v (cli/command/nfs, internal/utils/nfs.go): the exports of nfs-ganesha.  LocalCmd.v
      (cli/command/fs: mount.go, umount.go, warmup; mds/start.go, mds/meta.go, cache/start.go;
      internal/utils: file.go, fs.go, mountpoint.go): processes and files of this machine.
      Download.v (utils/file.go): fetching files; Upgrade.v (tools/upgrade/upgrade.go,
      cli/command/cmd.go): upgrading the tool.
    - Stats.v, StatsFacts.v (cli/command/fs/stats/mountpoint.go): the live statistics of a mount
      point, over the binary64 numbers of Float64.v.

    How they interact: [Cli.ParseTopologyData] runs [Hosts.ParseHosts], turns the result
    into a [Context] and calls [Topology.ParseTopology], which merges the layers of
    configuration, builds each [DeployConfig] through [Vars] and the item set of
    DeployConfig.v, and adds the variables that refer to other services.
    [Checker.CheckTopology] reads the configurations through their getters and the hosts
    through [Cli].  The steps of the check, like every other step, are run by
    [Tasks.task_Execute] under the system of Tasks.v.  A command starts with
    [Session.init], which reads the database of Storage.v; it parses the topology, makes a
    playbook (Deploy.v, ServiceCmd.v) and runs it with [Playbook.Run], whose steps are runs
    of [Tasks.next].  The constructors of Services.v and ConfigSync.v make the tasks: they
    look the container of the service up in the database and chain the steps of Steps.v,
    which run the commands of Shell.v on the host of the service.  A file system command
    reads its flags (Flags.v), initialises the router, finds the server of an inode
    ([GetEndPoint]) and sends its requests through [GetRpcResponse]; the quota commands
    run the walk of DirWalk.v between two requests.

    ** How the code is represented

    - A call returns a value, an error or a run-time panic: [Ok], [Err], [Panic].  A
      failed type assertion, a nil dereference and an index out of range are [Panic].
    - A Go struct changed through a pointer is a record passed on explicitly.  Where
      aliasing matters it is explicit: the objects of Errno.v, the context that the
      deploy configurations share, the map of [merge], the world of Tasks.v, the heap of
      SafeMap.v, the step lists that an upgrade shortens in place ([stepVars]).
    - A constructor of a task acts on the world and returns a task ([eff]); the variables
      that the steps of a task share are entries of its register, under their names.
    - An operation of the database takes the tables to a result and the tables ([M]); a
      command that runs playbooks is a relation between worlds, for the runs interleave.
    - A loop over a map goes through [range], some permutation of its entries; the
      theorems hold for every [MapOrder] and the examples use [canonical_order].
    - An error carries the declared object it points to; the text of its clue is
      modelled in Errno.v only.
    - An [int] is a [Z]; products and sums that can leave 64 bits are wrapped.
    - A request with all its retries is one action of a walk; the package variables
      ([RpcState]: pool, cache, router) and the world are its state.  A command with a walk
      is a relation, for its goroutines interleave.
    - Strings are byte strings.  [strings.ToLower] and the name conversions are modelled
      on ASCII.

    ** Parameters

    What is not in the sources is a parameter: reading YAML and ini files ([parse],
    [parse_hosts]), the uuid generator, the hash library, MD5, the operating system
    ([OS]), ssh connections and the effect of a step ([SSH], [Step]), the ids of progress
    bars ([bar_id]), the database driver ([Driver]: failing statements, the clock, the order
    of rows), sorting of equal elements ([SliceSort]), the task constructors of a playbook
    ([new_task]), the shell of a machine, its files and the ssh library ([Machine]), the
    answers of the container engine (class [EngineLaws], whose instance [sim_engine] is a
    concrete engine), the enumerations and texts of the generated messages ([Proto],
    [Texts]), dialling and the generated client ([Grpc], [MDSServiceClient]), the values of
    the configuration file and the environment ([Viper]), the iteration order of maps with
    integer keys ([ZMapOrder]), sorting ([LessSort]), the longest common prefix of texts and
    the colours of the terminal, the embedded scripts, downloads, URL joining and file writes
    of the component manager ([World]), the file system, processes, system calls and the
    passing of time of this machine ([LocalOS], [Processes], [TempFiles], the exit code of an
    error), the HTTP client ([Net]), hexadecimal floating-point literals and
    the conversion of numbers out of the range of [uint64].

    ** Fuel

    [resolve] of Vars.v recurses without a bound in the code, so it takes [fuel] and
    returns [None] for a run that is still going.  [Build_refines_denotes] shows that it
    returns for every large enough fuel exactly when every variable denotes a value, and
    [Build_diverges_on_cycle] that no fuel is enough on a cycle.  In Topology.v the
    parameter [stack] is that fuel: running out of it is the stack overflow that ends
    the program, a [Panic]; the theorems hold for every [stack], and 20 is enough for the
    examples, whose variables refer to each other less deeply.
    [dial_loop] of Shell.v has [dial_fuel], one more than the number of attempts
    ([NewSSHClient_spec]).
    [TrimSuffixRepeat] returns within one round more than the length of its text.
    [path_loop] of Operator.v has one round per byte of the path, which is enough, for
    every round drops a component.  [path_up] follows parents that a server names, which
    the code does without a bound: its [fuel] counts levels, and running out of it is
    [None].  The walk of a directory has no fuel: [GetDirectorySizeAndInodes_returns]
    bounds every run on a tree.
    [wait_ready] and [warmup_query] of LocalCmd.v poll once a second, without a bound in the
    code; [None] is a command that is still waiting.  [mount_ready] and [warmup_query_first]
    say when they return, [mount_never] that a mount may wait for ever.  [show_ready] of
    RemoteCmd.v has one round more than there are results, which is enough ([received_ok]).
    [stats_loop] of Stats.v has one unit of fuel per second; [stats_end] says how many are
    enough, for the intervals and times its bounds [max_interval] and [max_tick] name.
    [drive] of TasksFacts.v is only a scheduler for examples: [Tasks_Execute_returns]
    bounds every run of the system.

    ** The theorems

    - Types and invariants: [ParseTopology_wf], [Build_getters_total], [ParseHosts_valid],
      [components_invariant], [ItemSet_Build_roundtrip].
    - The metadata service: [router_routes], [GetRpcResponse_attempts], [isIpAddrValid_spec];
      the walk of a directory - [GetDirSummarySize_goroutines],
      [GetDirectorySizeAndInodes_returns] -; the commands - [commands_no_panic],
      [quota_set_records_usage], [quota_check_repairs], [fs_quota_check_repairs].
    - What operations compute: [ParseTopology_expands], [merge_spec], [merge_again],
      [renderVariables_spec], [Rendering_spec], [DiffTopology_exact], [Filter_selects],
      [InstallComponent_activates], [GetLatest_greatest], [ParseDingoCliConfig_spec],
      [CheckTopology_accepts], [topology_hosts_known], [task_Execute_spec].
    - Refinement and independence of iteration orders: [Build_refines_denotes],
      [Build_order_independent].
    - The database: [storage_refines], [storage_errors], [storage_reads].
    - Concurrency: [workers_bounded], [Tasks_Execute_result], [Tasks_Execute_returns],
      [bars_show_results], [statuses_recorded].
    - Playbooks and commands: [Run_spec], [Run_returns], [createTasks_deploy],
      [deploy_starts_all], [genDeployPlaybook_spec], [upgrade_restarts],
      [clean_items_spec], [service_commands_select], [remove_safe], [checkout_spec],
      [add_spec], [init_loads], [Execute_audited], [ParseMonitorInfo_services],
      [parsePrometheusTarget_spec], [DiffMonitor_exact], [checkDate_spec].
    - The environment: [port_check_passes], [reachable_check_passes], [firewall_check_passes],
      [permission_check_passes], [kernel_version_check]; the configuration of a client:
      [NewClientConfig_accepts], [NewClientConfig_options].
    - The monitor stack: [monitor_created], [monitor_reaches_running], [monitor_cleaned],
      [monitor_plans], [monitor_deploy_stores], [monitor_commit], [fetch_uid_ends].
    - Tables: [FixedFormat_table], [table_rectangular], [one_line_per_entry],
      [merged_status_spec], [status_columns], [FormatStatus_text], [FormatClientStatus_text].
    - Commands of this machine: [config_commit], [hosts_commit], [hosts_list],
      [install_all], [uninstall_spec], [use_spec], [next_export_id_fresh], [umount_succeeds],
      [ready_binary_executable], [mount_ready], [warmup_query_first], [download_stores],
      [GetRemoteFileContent_ok], [client_status_set], [NewDingoCli_starts],
      [runStatus_ends], [with_cluster_fresh].
    - Live statistics: [header_aligned], [columns_match], [line_aligned], [scale_u64_spec],
      [formatU64_width], [stats_end], [stats_fatal]; the upgrade: [upgrade_runs].
    - The playbook command: [playbook_in_order], [receiver_in_order], [pb_exit_shown], [pb_progress],
      [pb_terminates]; the words of its processes: [ssh_words].
    - Services: [create_service], [start_reaches_running], [create_then_start],
      [stop_stops], [clean_forgets], [status_of_service], [NewSSHClient_spec].
    - Configuration files: [sync_file_lines], [mds_options_written].
    - Bounds: [GetQuotaValue_capacity], [instance_ids_distinct].
    - Where the code fails or does not do what it means to: [precheck_panics],
      [three_hosts_on_one_machine], [duplicate_service_ids_accepted],
      [ParseTopology_without_mds_panics], [getBool_other_kind_panics],
      [Build_diverges_on_cycle], [DiffTopology_reports_no_change],
      [instance_ids_collide], [IsValidAddress_spec], [clue_last_writer],
      [duplicate_codes], [codes_follow_sections],
      [date_lost], [remove_active_cluster], [checkout_other_case], [DiffMonitor_unstable],
      [deploy_etcd_does_nothing], [second_upgrade_starts_twice], [scripts_never_fail],
      [long_line_ends_file], [unset_value_is_cut], [store_without_raft_dir],
      [store_variables_twice], [spaced_option_lost], [two_lines_of_one_parent],
      [fatal_not_finished], [subpath_create_needs_entry], [delete_failure_panics],
      [init_failure_depends_on_order], [no_buckets_panics], [GetEndPoint_unrouted_panics],
      [format_read_under_empty_key], [untyped_default_panics],
      [kernel_version_carries], [numeric_kind_panics], [second_monitor_upgrade],
      [prettyClue_newlines], [update_all_needs_newer], [update_all_stops],
      [use_without_version_fails], [add_without_server], [unreadable_exports], [mount_never],
      [warmup_add_ignores_query], [warmup_outside], [download_not_found],
      [receiver_stalls], [pb_exit_loses_result], [pb_copy_fails], [with_cluster_result],
      [short_interval_panics], [wide_values], [cpu_without_colours].

    ** Not modelled

    Terminal output but for tables, prompts and statistics, logging, shell completion, the
    trees of sub-commands with their help, the database drivers, the statements of an old
    migration of tables, which nothing runs, two unused copies of internal/tasks, and the
    steps Stat and Scp, which nothing uses.  A panic inside a step ends the process: [crash] is the world it leaves, and no theorem is
    about what follows. *)

From stdpp Require Export base list strings gmap sets sorting.
From Stdlib Require Export ZArith Lia.

(** * Results of Go calls *)

(** A Go call ends with a value, with an [error], or with a run-time panic
    (nil dereference, failed type assertion, index out of range, division by
    zero).  [E] is the type of errors. *)
Inductive res (E A : Type) : Type :=
| Ok (a : A)
| Err (e : E)
| Panic.

Arguments Ok {E A} _.
Arguments Err {E A} _.
Arguments Panic {E A}.

#[export] Instance res_ret {E} : MRet (res E) := λ A a, Ok a.
#[export] Instance res_bind {E} : MBind (res E) := λ A B f m,
  match m with Ok a => f a | Err e => Err e | Panic => Panic end.
#[export] Instance res_fmap {E} : FMap (res E) := λ A B f m,
  match m with Ok a => Ok (f a) | Err e => Err e | Panic => Panic end.

#[export] Instance res_eq_dec {E A} `{EqDecision E, EqDecision A} : EqDecision (res E A).
Proof. solve_decision. Defined.

Definition is_Ok {E A} (r : res E A) : bool := match r with Ok _ => true | _ => false end.

Definition res_get {E A} (d : A) (r : res E A) : A := match r with Ok a => a | _ => d end.

Lemma res_get_Ok {E A} (d : A) (r : res E A) : is_Ok r = true → r = Ok (res_get d r).
Proof. by destruct r. Qed.

Lemma bind_Ok {E A B} (m : res E A) (f : A → res E B) b :
  m ≫= f = Ok b ↔ ∃ a, m = Ok a ∧ f a = Ok b.
Proof. destruct m; naive_solver. Qed.

Lemma bind_Err {E A B} (m : res E A) (f : A → res E B) e :
  m ≫= f = Err e ↔ m = Err e ∨ ∃ a, m = Ok a ∧ f a = Err e.
Proof. destruct m; naive_solver. Qed.

(** [go_ok] opens every [m ≫= f = Ok b] hypothesis into its two halves. *)
Ltac go_ok :=
  repeat match goal with
  | H : _ ≫= _ = Ok _ |- _ =>
      let a := fresh "a" in let H1 := fresh "Hr" in let H2 := fresh "Hk" in
      apply bind_Ok in H as (a & H1 & H2)
  | H : Ok _ = Ok _ |- _ => injection H as H; subst
  | H : mret _ = Ok _ |- _ => injection H as H; subst
  end.

(** A call that also acts on a world [W]. *)
Definition eff (E W A : Type) : Type := W → W * res E A.
#[export] Instance eff_ret {E W} : MRet (eff E W) := λ A a w, (w, Ok a).
#[export] Instance eff_bind {E W} : MBind (eff E W) := λ A B f m w,
  match m w with
  | (w, Ok a) => f a w
  | (w, Err e) => (w, Err e)
  | (w, Panic) => (w, Panic)
  end.
Definition pure_eff {E W A} (r : res E A) : eff E W A := λ w, (w, r).

Lemma eff_bind_Ok {E W A B} (m : eff E W A) (f : A → eff E W B) w w' b :
  (m ≫= f) w = (w', Ok b) ↔ ∃ w1 a, m w = (w1, Ok a) ∧ f a w1 = (w', Ok b).
Proof. unfold mbind, eff_bind. destruct (m w) as [w1 [a|e|]]; naive_solver. Qed.

Lemma eff_assoc {E W A B C} (m : eff E W A) (f : A → eff E W B) (g : B → eff E W C) w :
  ((m ≫= f) ≫= g) w = (m ≫= λ a, f a ≫= g) w.
Proof. unfold mbind, eff_bind. by destruct (m w) as [w1 [a|e|]]. Qed.

(** The loop with effects that returns on the first error. *)
Fixpoint fold_eff {E W A S} (f : S → A → eff E W S) (l : list A) (s : S) : eff E W S :=
  match l with
  | [] => mret s
  | a :: l' => s' ← f s a; fold_eff f l' s'
  end.
Fixpoint map_eff {E W A B} (f : A → eff E W B) (l : list A) : eff E W (list B) :=
  match l with
  | [] => mret []
  | a :: l' => b ← f a; bs ← map_eff f l'; mret (b :: bs)
  end.

(** Monadic left fold: the Go loop that returns on the first error. *)
Fixpoint fold_res {E A S} (f : S → A → res E S) (l : list A) (s : S) : res E S :=
  match l with
  | [] => Ok s
  | a :: l' => s' ← f s a; fold_res f l' s'
  end.

Lemma fold_res_app {E A S} (f : S → A → res E S) l1 l2 s :
  fold_res f (l1 ++ l2) s = (s' ← fold_res f l1 s; fold_res f l2 s').
Proof.
  revert s; induction l1 as [|a l1 IH]; intros s; simpl; [done|].
  destruct (f s a); simpl; auto.
Qed.

(** A property preserved by each iteration is preserved by the loop. *)
Lemma fold_res_inv {E A S} (P : S → Prop) (f : S → A → res E S) l s s' :
  (∀ s a s', a ∈ l → P s → f s a = Ok s' → P s') →
  P s → fold_res f l s = Ok s' → P s'.
Proof.
  revert s; induction l as [|a l IH]; intros s Hstep Hs; simpl.
  - intros [= <-]; done.
  - intros (s1 & H1 & H2)%bind_Ok.
    eapply (IH s1); [|eapply Hstep; [left|done..]|done].
    intros; eapply Hstep; eauto. by right.
Qed.

(** An invariant indexed by the part of the list already processed. *)
Lemma fold_res_ind {E A S} (P : list A → S → Prop) (f : S → A → res E S) l s s' :
  P [] s →
  (∀ pre a s s', P pre s → f s a = Ok s' → P (pre ++ [a]) s') →
  fold_res f l s = Ok s' → P l s'.
Proof.
  intros H0 Hstep.
  assert (∀ pre s, P pre s → fold_res f l s = Ok s' → P (pre ++ l) s') as Hgen.
  { clear s H0. induction l as [|a l IH]; intros pre s Hpre; simpl.
    - intros [= <-]. by rewrite app_nil_r.
    - intros (s1 & H1 & H2)%bind_Ok.
      rewrite (assoc_L (++) pre [a] l : pre ++ a :: l = (pre ++ [a]) ++ l).
      eauto. }
  apply (Hgen [] s H0).
Qed.

(** The Go loop that appends the result of a call per element. *)
Fixpoint map_res {E A B} (f : A → res E B) (l : list A) : res E (list B) :=
  match l with
  | [] => Ok []
  | a :: l' => b ← f a; bs ← map_res f l'; Ok (b :: bs)
  end.

Lemma map_res_Ok {E A B} (f : A → res E B) l bs :
  map_res f l = Ok bs ↔ Forall2 (λ a b, f a = Ok b) l bs.
Proof.
  revert bs; induction l as [|a l IH]; intros bs; simpl.
  - split; [by intros [= <-]|]. by intros ->%Forall2_nil_inv_l.
  - rewrite bind_Ok. setoid_rewrite bind_Ok. setoid_rewrite IH. split.
    + intros (b & Hb & bs' & Hl & [= <-]). by constructor.
    + intros (b & bs' & Hb & Hl & ->)%Forall2_cons_inv_l. eauto.
Qed.

Lemma map_res_pure {E A B} (f : A → res E B) (g : A → B) l :
  (∀ a, a ∈ l → f a = Ok (g a)) → map_res f l = Ok (g <$> l).
Proof.
  intros Hf. apply map_res_Ok, Forall2_fmap_r. apply Forall_Forall2_diag, Forall_forall. done.
Qed.

(** * Iteration over Go maps *)

(** Go iterates over a map in an unspecified order.  A development that ranges
    over a map takes the order as an argument: [range m] is some permutation of
    the entries.  The theorems hold for every [MapOrder]. *)
Class MapOrder := {
  range : ∀ {V : Type}, gmap string V → list (string * V);
  range_perm : ∀ {V} (m : gmap string V), range m ≡ₚ map_to_list m;
}.

(** The order used to evaluate examples. *)
Definition canonical_order : MapOrder := {|
  range := λ V m, map_to_list m;
  range_perm := λ V m, reflexivity (map_to_list m);
|}.

(** The reverse order, to compare with. *)
Program Definition reverse_order : MapOrder := {|
  range := λ V m, reverse (map_to_list m);
|}.
Next Obligation. intros V m. apply reverse_Permutation. Qed.

Section range.
Context `{MapOrder}.

Lemma elem_of_range {V} (m : gmap string V) k v :
  (k, v) ∈ range m ↔ m !! k = Some v.
Proof. by rewrite range_perm, elem_of_map_to_list. Qed.

Lemma NoDup_range_fst {V} (m : gmap string V) : NoDup (range m).*1.
Proof. rewrite range_perm. apply NoDup_fst_map_to_list. Qed.

Lemma NoDup_range {V} (m : gmap string V) : NoDup (range m).
Proof. rewrite range_perm. apply NoDup_map_to_list. Qed.

Lemma list_to_map_range {V} (m : gmap string V) :
  list_to_map (range m) = m.
Proof.
  rewrite <-(list_to_map_to_list m) at 2.
  apply list_to_map_proper; [apply NoDup_range_fst | apply range_perm].
Qed.
End range.

(** A loop that only stores into distinct keys does not depend on the order. *)
Lemma foldl_insert_range {V W} (f : string → V → option W) (l : list (string * V))
    (acc : gmap string W) k :
  NoDup l.*1 →
  foldl (λ m '(k, v), match f k v with Some w => <[k := w]> m | None => m end) acc l !! k
  = match (list_to_map l : gmap string V) !! k with
    | Some v => match f k v with Some w => Some w | None => acc !! k end
    | None => acc !! k
    end.
Proof.
  revert acc; induction l as [|[k' v'] l IH]; intros acc; simpl.
  { by rewrite lookup_empty. }
  rewrite NoDup_cons. intros [Hk' Hnd]. rewrite IH by done.
  destruct (decide (k = k')) as [->|Hne].
  - rewrite lookup_insert_eq.
    rewrite (not_elem_of_list_to_map_1 l k') by done.
    destruct (f k' v'); [by rewrite lookup_insert_eq|done].
  - rewrite (lookup_insert_ne _ k' k) by done.
    destruct (list_to_map l !! k) as [v|].
    + destruct (f k v); [done|]. destruct (f k' v'); [by rewrite lookup_insert_ne|done].
    + destruct (f k' v'); [by rewrite lookup_insert_ne|done].
Qed.

(** A loop over entries with distinct keys in which an iteration reads and writes
    only its own key of the state [c]: [g k v o] is what the iteration leaves at
    [k] when [o] was there. *)
Section keyed.
Context {E V W : Type}.
Context (f : gmap string W → string * V → res E (gmap string W)).
Context (g : string → V → option W → res E (option W)).
Context (Hf : ∀ c k v, f c (k, v) = (o ← g k v (c !! k); Ok (partial_alter (λ _, o) k c))).

Lemma fold_keyed_Ok (l : list (string * V)) (c c' : gmap string W) :
  NoDup l.*1 →
  fold_res f l c = Ok c' ↔
  ∀ k, match (list_to_map l : gmap string V) !! k with
       | None => c' !! k = c !! k
       | Some v => g k v (c !! k) = Ok (c' !! k)
       end.
Proof using Hf.
  revert c; induction l as [|[k v] l IH]; intros c; simpl.
  { intros _. split; [intros [= ->] k; by rewrite lookup_empty|].
    intros H. f_equal. symmetry. apply map_eq. intros k. specialize (H k).
    by rewrite lookup_empty in H. }
  rewrite NoDup_cons. intros [Hk Hnd]. rewrite Hf.
  pose proof (not_elem_of_list_to_map_1 (M := gmap string) l k Hk) as Hlk.
  destruct (g k v (c !! k)) as [o|e|] eqn:Hg; simpl.
  - rewrite (IH _ Hnd). split; intros H k'; specialize (H k');
      destruct (decide (k' = k)) as [->|Hne];
      rewrite ?Hlk, ?lookup_insert_eq, ?(lookup_insert_ne _ _ _ _ (not_eq_sym Hne)) in *;
      rewrite ?lookup_partial_alter_eq, ?(lookup_partial_alter_ne _ _ _ _ (not_eq_sym Hne)) in *;
      try done; congruence.
  - split; [done|]. intros H. specialize (H k). rewrite lookup_insert_eq in H. congruence.
  - split; [done|]. intros H. specialize (H k). rewrite lookup_insert_eq in H. congruence.
Qed.

Lemma fold_keyed_not_Ok (l : list (string * V)) (c : gmap string W) r :
  NoDup l.*1 → fold_res f l c = r → (∀ c', r ≠ Ok c') →
  ∃ k v, (k, v) ∈ l ∧ match g k v (c !! k), r with
                      | Err e, Err e' => e = e'
                      | Panic, Panic => True
                      | _, _ => False
                      end.
Proof using Hf.
  revert c; induction l as [|[k v] l IH]; intros c; simpl.
  { intros _ <- H. by destruct (H c). }
  rewrite NoDup_cons. intros [Hk Hnd]. rewrite Hf.
  destruct (g k v (c !! k)) as [o|e|] eqn:Hg; simpl.
  - intros Hr Hno. destruct (IH _ Hnd Hr Hno) as (k' & v' & Hin & Hm).
    exists k', v'. split; [by right|]. rewrite lookup_partial_alter_ne in Hm; [done|].
    intros ->. apply Hk. by apply (list_elem_of_fmap_2 fst) in Hin.
  - intros <- _. exists k, v. rewrite Hg. split; [left|done].
  - intros <- _. exists k, v. rewrite Hg. split; [left|done].
Qed.

Context `{MapOrder}.

Lemma range_keyed_Ok (m : gmap string V) (c c' : gmap string W) :
  fold_res f (range m) c = Ok c' ↔
  ∀ k, match m !! k with
       | None => c' !! k = c !! k
       | Some v => g k v (c !! k) = Ok (c' !! k)
       end.
Proof using Hf.
  rewrite fold_keyed_Ok by apply NoDup_range_fst. by rewrite list_to_map_range.
Qed.

Lemma range_keyed_not_Ok (m : gmap string V) (c : gmap string W) r :
  fold_res f (range m) c = r → (∀ c', r ≠ Ok c') →
  ∃ k v, m !! k = Some v ∧ match g k v (c !! k), r with
                           | Err e, Err e' => e = e'
                           | Panic, Panic => True
                           | _, _ => False
                           end.
Proof using Hf.
  intros Hr Hno. destruct (fold_keyed_not_Ok _ _ _ (NoDup_range_fst m) Hr Hno) as (k & v & Hin & ?).
  exists k, v. split; [by apply elem_of_range|done].
Qed.
End keyed.

(** * Machine integers *)

Definition MaxInt64 : Z := 9223372036854775807.
Definition MinInt64 : Z := -9223372036854775808.

Definition in_int64 (z : Z) : Prop := (MinInt64 ≤ z ≤ MaxInt64)%Z.
Definition in_int64b (z : Z) : bool := (MinInt64 <=? z)%Z && (z <=? MaxInt64)%Z.

(** Two's complement wrap-around of Go's [int] and [int64] (64-bit targets). *)
Definition wrap64 (z : Z) : Z := ((z + 2 ^ 63) mod 2 ^ 64 - 2 ^ 63)%Z.
Definition wrapu64 (z : Z) : Z := (z mod 2 ^ 64)%Z.
Definition wrapu32 (z : Z) : Z := (z mod 2 ^ 32)%Z.

Lemma in_int64b_spec z : in_int64b z = true ↔ in_int64 z.
Proof. unfold in_int64b, in_int64. rewrite andb_true_iff, !Z.leb_le. done. Qed.

Lemma wrap64_id z : in_int64 z → wrap64 z = z.
Proof.
  unfold in_int64, wrap64, MinInt64, MaxInt64. intros Hz.
  rewrite Z.mod_small; lia.
Qed.

Lemma wrap64_in z : in_int64 (wrap64 z).
Proof.
  unfold in_int64, wrap64, MinInt64, MaxInt64.
  pose proof (Z.mod_pos_bound (z + 2 ^ 63) (2 ^ 64)). lia.
Qed.

(** * Lists *)

Lemma NoDup_fmap_inj {A B} (f : A → B) (l : list A) :
  NoDup (f <$> l) → ∀ x y, x ∈ l → y ∈ l → f x = f y → x = y.
Proof.
  induction l as [|a l IH]; simpl; [set_solver|].
  rewrite NoDup_cons, list_elem_of_fmap. intros [Hni Hnd] x y.
  rewrite !elem_of_cons. naive_solver.
Qed.

Lemma elem_of_concat {A} (x : A) (ls : list (list A)) :
  x ∈ concat ls ↔ ∃ l, l ∈ ls ∧ x ∈ l.
Proof. rewrite list_elem_of_In, in_concat. setoid_rewrite list_elem_of_In. done. Qed.

Lemma imap_pair_snd {A} (l : list A) : (imap pair l).*2 = l.
Proof.
  apply list_eq. intros i. rewrite list_lookup_fmap, list_lookup_imap.
  by destruct (l !! i).
Qed.

(** First element satisfying a test, as the loops that [return] inside. *)
Fixpoint find_first {A} (p : A → bool) (l : list A) : option A :=
  match l with
  | [] => None
  | a :: l' => if p a then Some a else find_first p l'
  end.

Lemma find_first_Some {A} (p : A → bool) l a :
  find_first p l = Some a → a ∈ l ∧ p a = true.
Proof.
  induction l as [|b l IH]; simpl; [done|].
  rewrite elem_of_cons. destruct (p b) eqn:Hb; [intros [= <-]; auto|].
  intros [??]%IH. auto.
Qed.

Lemma find_first_None {A} (p : A → bool) l :
  find_first p l = None ↔ ∀ a, a ∈ l → p a = false.
Proof.
  induction l as [|b l IH]; simpl.
  { split; [|done]. intros _ a Ha. by apply elem_of_nil in Ha. }
  setoid_rewrite elem_of_cons. destruct (p b) eqn:Hb; rewrite ?IH.
  - split; [done|]. intros H. rewrite (H b) in Hb; auto. done.
  - split; [intros H a [->|?]; auto | auto].
Qed.

(** String concatenation computes on constructors in this development. *)
#[global] Arguments String.append : simpl nomatch.

Create HintDb godb.
#[export] Hint Resolve wrap64_in : godb.
#[export] Hint Rewrite @lookup_insert_eq @lookup_empty @lookup_delete_eq : godb.
