(* ===== verification/Errno.v ===== *)
(** Error codes (src/internal/errno/errno.go).

    An [ErrorCode] of the program is a pointer to a mutable object: [E], [S] and
    [F] overwrite its clue in place and return the same pointer, [FD] allocates a
    new object.  The first part models the objects, the global registry [elist]
    and those methods over an explicit store.  The second part is the table of
    declared codes.  Elsewhere in the development an error value stands for the
    pointer it is and carries the declared object, whose clue is empty: which
    error is returned is modelled, the text of its clue only here. *)

From S2P Require Import Prelude.
Local Open Scope Z_scope.

Record ErrorCode : Type := mkErrorCode {
  Code : Z;
  Description : string;
  Clue : string;
}.

#[export] Instance ErrorCode_eq_dec : EqDecision ErrorCode.
Proof. solve_decision. Defined.

(** An error of the program: an error code, or a plain [error] value with its
    text. *)
Inductive error : Type :=
| ECode (e : ErrorCode)
| EText (msg : string).

#[export] Instance error_eq_dec : EqDecision error.
Proof. solve_decision. Defined.

(** ** Objects, registry and clue methods *)

(** The objects allocated so far (a pointer is a position) and the pointers
    registered in [elist]. *)
Record Store : Type := mkStore {
  objects : list ErrorCode;
  elist : list nat;
}.

Definition empty_store : Store := {| objects := []; elist := [] |}.

(** [EC] allocates an object and registers it. *)
Definition EC_object (code : Z) (description : string) : ErrorCode :=
  {| Code := code; Description := description; Clue := EmptyString |}.

Definition EC (st : Store) (code : Z) (description : string) : Store * nat :=
  let p := length (objects st) in
  ({| objects := objects st ++ [EC_object code description];
      elist := elist st ++ [p] |}, p).

Definition set_clue (c : string) (e : ErrorCode) : ErrorCode :=
  {| Code := Code e; Description := Description e; Clue := c |}.

(** [e.S(clue)]; [e.E(err)] passes [err.Error()] and [e.F(format, a...)] the
    formatted text.  The pointer returned is the receiver. *)
Definition S_clue (st : Store) (p : nat) (clue : string) : Store * nat :=
  ({| objects := alter (set_clue clue) p (objects st); elist := elist st |}, p).
Definition E_clue (st : Store) (p : nat) (err_text : string) : Store * nat :=
  ({| objects := alter (set_clue err_text) p (objects st); elist := elist st |}, p).
Definition F_clue (st : Store) (p : nat) (formatted : string) : Store * nat :=
  ({| objects := alter (set_clue formatted) p (objects st); elist := elist st |}, p).

(** [e.FD(format, s...)] copies code and description into a fresh, unregistered
    object and extends the description with the formatted text ([format] is
    appended to the old description after a space before formatting). *)
Definition FD (sprintf : string → string) (st : Store) (p : nat) (format : string)
    : option (Store * nat) :=
  e ← objects st !! p;
  let q := length (objects st) in
  Some ({| objects := objects st ++
             [EC_object (Code e) (sprintf (Description e +:+ " " +:+ format))];
           elist := elist st |}, q).

Definition GetCode (st : Store) (p : nat) : option Z := Code <$> objects st !! p.
Definition GetDescription (st : Store) (p : nat) : option string :=
  Description <$> objects st !! p.
Definition GetClue (st : Store) (p : nat) : option string := Clue <$> objects st !! p.

Definition CODE_CANCEL_OPERATION : Z := 900000.

(** [e.Error()]: the cancel code prints nothing; [prompt] is the text template of
    the terminal front end. *)
Definition Error_text (prompt : Z → string → string → string → string)
    (gLogpath : string) (e : ErrorCode) : string :=
  if Code e =? CODE_CANCEL_OPERATION then EmptyString
  else prompt (Code e) (Description e) (Clue e) gLogpath.

(** [List()]: the number of distinct codes it prints, and the codes it reports
    as duplicates. *)
Definition code_count (es : list ErrorCode) : gmap Z nat :=
  foldl (λ count e, <[Code e := S (default 0%nat (count !! Code e))]> count) ∅ es.
Definition List_total (es : list ErrorCode) : nat := size (code_count es).
Definition List_duplicates (es : list ErrorCode) : list Z :=
  (filter (λ p, (1 < p.2)%nat) (map_to_list (code_count es))).*1.

(** ** The declared codes *)

Definition dquote : string := String (Ascii.ascii_of_nat 34) EmptyString.

(** Section 000: OK. *)
Definition ERR_OK : ErrorCode := EC_object 0 "success".
Definition ERR_GET_USER_HOME_DIR_FAILED : ErrorCode := EC_object 1 "get user home dir failed".
Definition ERR_CREATE_DINGOADM_SUBDIRECTORY_FAILED : ErrorCode := EC_object 2 "create dingocli subdirectory failed".
Definition ERR_INIT_LOGGER_FAILED : ErrorCode := EC_object 3 "init logger failed".

(** Section 100: database/SQL (init failed). *)
Definition ERR_INIT_SQL_DATABASE_FAILED : ErrorCode := EC_object 100000 "init SQLite database failed".

(** Section 110: database/SQL (execute SQL statement: hosts table). *)
Definition ERR_GET_HOSTS_FAILED : ErrorCode := EC_object 110000 "execute SQL failed which get hosts".
Definition ERR_UPDATE_HOSTS_FAILED : ErrorCode := EC_object 110001 "execute SQL failed which update hosts".

(** Section 111: database/SQL (execute SQL statement: clusters table). *)
Definition ERR_INSERT_CLUSTER_FAILED : ErrorCode := EC_object 111000 "execute SQL failed which insert cluster".
Definition ERR_GET_CURRENT_CLUSTER_FAILED : ErrorCode := EC_object 111001 "execute SQL failed which get current cluster".
Definition ERR_GET_CLUSTER_BY_NAME_FAILED : ErrorCode := EC_object 111002 "execute SQL failed which get cluster by name".
Definition ERR_GET_ALL_CLUSTERS_FAILED : ErrorCode := EC_object 111003 "execute SQL failed which get all clusters".
Definition ERR_CHECKOUT_CLUSTER_FAILED : ErrorCode := EC_object 111004 "execute SQL failed which checkout cluster".
Definition ERR_DELETE_CLUSTER_FAILED : ErrorCode := EC_object 111005 "execute SQL failed which delete cluster".
Definition ERR_UPDATE_CLUSTER_TOPOLOGY_FAILED : ErrorCode := EC_object 111006 "execute SQL failed which update cluster topology".
Definition ERR_UPDATE_CLUSTER_POOL_FAILED : ErrorCode := EC_object 111007 "execute SQL failed which update cluster pool".
Definition ERR_RENAME_CLUSTER_FAILED : ErrorCode := EC_object 111008 "execute SQL failed which rename cluster".

(** Section 112: database/SQL (execute SQL statement: containers table). *)
Definition ERR_INSERT_SERVICE_CONTAINER_ID_FAILED : ErrorCode := EC_object 112000 "execute SQL failed which insert service container id".
Definition ERR_SET_SERVICE_CONTAINER_ID_FAILED : ErrorCode := EC_object 112001 "execute SQL failed which set service container id".
Definition ERR_GET_SERVICE_CONTAINER_ID_FAILED : ErrorCode := EC_object 112002 "execute SQL failed which get service container id".
Definition ERR_GET_ALL_SERVICES_CONTAINER_ID_FAILED : ErrorCode := EC_object 112003 "execute SQL failed which get all services container id".

(** Section 113: database/SQL (execute SQL statement: clients table). *)
Definition ERR_INSERT_CLIENT_FAILED : ErrorCode := EC_object 113000 "execute SQL failed which insert client".
Definition ERR_GET_CLIENT_CONTAINER_ID_FAILED : ErrorCode := EC_object 113001 "execute SQL failed which get client container id".
Definition ERR_GET_CLIENT_BY_ID_FAILED : ErrorCode := EC_object 113002 "execute SQL failed which get client by id".
Definition ERR_GET_ALL_CLIENTS_FAILED : ErrorCode := EC_object 113003 "execute SQL failed which get all clients".
Definition ERR_DELETE_CLIENT_FAILED : ErrorCode := EC_object 113004 "execute SQL failed which delete client".
Definition ERR_SET_CLIENT_AUX_INFO_FAILED : ErrorCode := EC_object 113005 "execute SQL failed which set client aux info".

(** Section 114: database/SQL (execute SQL statement: playground table). *)
Definition ERR_INSERT_PLAYGROUND_FAILED : ErrorCode := EC_object 114000 "execute SQL failed which insert playground".
Definition ERR_GET_ALL_PLAYGROUND_FAILED : ErrorCode := EC_object 114001 "execute SQL failed which get all playgrounds".
Definition ERR_GET_PLAYGROUND_BY_NAME_FAILED : ErrorCode := EC_object 114002 "execute SQL failed which get playground by name".
Definition ERR_DELETE_PLAYGROUND_FAILED : ErrorCode := EC_object 114003 "execute SQL failed which delete playground".

(** Section 115: database/SQL (execute SQL statement: audit table). *)
Definition ERR_GET_AUDIT_LOGS_FAILE : ErrorCode := EC_object 115000 "execute SQL failed which get audit logs".

(** Section 116: database/SQL (execute SQL statement: any table). *)
Definition ERR_INSERT_CLIENT_CONFIG_FAILED : ErrorCode := EC_object 116000 "execute SQL failed which insert client config".
Definition ERR_SELECT_CLIENT_CONFIG_FAILED : ErrorCode := EC_object 116001 "execute SQL failed which select client config".
Definition ERR_DELETE_CLIENT_CONFIG_FAILED : ErrorCode := EC_object 116002 "execute SQL failed which delete client config".

(** Section 117: database/SQL (execute SQL statement: monitor table). *)
Definition ERR_GET_MONITOR_FAILED : ErrorCode := EC_object 117000 "execute SQL failed while get monitor".
Definition ERR_REPLACE_MONITOR_FAILED : ErrorCode := EC_object 117001 "execute SQL failed while replace monitor".
Definition ERR_UPDATE_MONITOR_FAILED : ErrorCode := EC_object 117002 "execute SQL failed while update monitor".

(** Section 210: command options (cluster). *)
Definition ERR_ID_NOT_FOUND : ErrorCode := EC_object 210000 "id not found".
Definition ERR_UNSUPPORT_DINGOFS_ROLE : ErrorCode := EC_object 210002 "unsupport dingofs role (etcd/mds/metaserver/coordinator/store/mdsv2/executor)".
Definition ERR_UNSUPPORT_SKIPPED_SERVICE_ROLE : ErrorCode := EC_object 210003 "unsupport skipped service role".
Definition ERR_UNSUPPORT_SKIPPED_CHECK_ITEM : ErrorCode := EC_object 210004 "unsupport skipped check item".
Definition ERR_UNSUPPORT_CLEAN_ITEM : ErrorCode := EC_object 210005 "unsupport clean item".
Definition ERR_NO_SERVICES_MATCHED : ErrorCode := EC_object 210006 "no services matched".
Definition ERR_UNSUPPORT_DINGODB_ROLE : ErrorCode := EC_object 210007 "unsupport dingodb role (coordinator/store/executor/document/index/diskann/proxy/web)".
Definition ERR_UNSUPPORT_DINGOSTORE_ROLE : ErrorCode := EC_object 210008 "unsupport dingo-store role (coordinator/store/document/index/diskann)".
Definition ERR_INVALID_DISK_TYPE : ErrorCode := EC_object 210007 "poolset disk type must be lowercase and can only be one of ssd, hdd and nvme".

(** Section 220: commad options (client common). *)
Definition ERR_UNSUPPORT_CLIENT_KIND : ErrorCode := EC_object 220000 "unsupport client kind".

(** Section 221: command options (client/bs). *)
Definition ERR_INVALID_VOLUME_FORMAT : ErrorCode := EC_object 221000 "invalid volume format".
Definition ERR_ROOT_VOLUME_USER_NOT_ALLOWED : ErrorCode := EC_object 221001 "root as volume user is not allowed".
Definition ERR_VOLUME_NAME_MUST_START_WITH_SLASH_PREFIX : ErrorCode := EC_object 221002 ("volume name must start with " +:+ dquote +:+ "/" +:+ dquote +:+ " prefix").
Definition ERR_VOLUME_SIZE_MUST_END_WITH_GiB_SUFFIX : ErrorCode := EC_object 221003 ("volume size must end with " +:+ dquote +:+ "GiB" +:+ dquote +:+ " suffix").
Definition ERR_VOLUME_SIZE_REQUIRES_POSITIVE_INTEGER : ErrorCode := EC_object 221004 "volume size requires a positive integer".
Definition ERR_VOLUME_SIZE_MUST_BE_MULTIPLE_OF_10_GiB : ErrorCode := EC_object 221005 "volume size must be a multiple of 10GiB, like 10GiB, 20GiB, 30GiB...".
Definition ERR_CLIENT_CONFIGURE_FILE_NOT_EXIST : ErrorCode := EC_object 221006 "client configure file not exist".
Definition ERR_NO_CLIENT_MATCHED : ErrorCode := EC_object 221007 "no client matched".
Definition ERR_VOLUME_NAME_CAN_NOT_CONTAIN_UNDERSCORE : ErrorCode := EC_object 221008 ("volume name can't contain " +:+ dquote +:+ "_" +:+ dquote +:+ " symbol").
Definition ERR_VOLUME_BLOCKSIZE_MUST_END_WITH_BYTE_SUFFIX : ErrorCode := EC_object 201009 ("volume block size must end with " +:+ dquote +:+ "B" +:+ dquote +:+ " suffix").
Definition ERR_VOLUME_BLOCKSIZE_REQUIRES_POSITIVE_INTEGER : ErrorCode := EC_object 221010 "volume block size requires a positive integer".
Definition ERR_VOLUME_BLOCKSIZE_BE_MULTIPLE_OF_512 : ErrorCode := EC_object 221011 "volume block size be a multiple of 512B, like 1KiB, 2KiB, 3KiB...".

(** Section 222: command options (client/fs). *)
Definition ERR_FS_MOUNTPOINT_REQUIRE_ABSOLUTE_PATH : ErrorCode := EC_object 222000 "mount point must be an absolute path".

(** Section 301: configure (common: invalid configure value). *)
Definition ERR_UNSUPPORT_CONFIGURE_VALUE_TYPE : ErrorCode := EC_object 301000 "unsupport configure value type".
Definition ERR_CONFIGURE_VALUE_REQUIRES_BOOL : ErrorCode := EC_object 301002 "configure value requires bool".
Definition ERR_CONFIGURE_VALUE_REQUIRES_INTEGER : ErrorCode := EC_object 301003 "configure value requires integer".
Definition ERR_CONFIGURE_VALUE_REQUIRES_NON_EMPTY_STRING : ErrorCode := EC_object 301004 "configure value requires non-empty string".
Definition ERR_CONFIGURE_VALUE_REQUIRES_POSITIVE_INTEGER : ErrorCode := EC_object 301005 "configure value requires positive integer".
Definition ERR_CONFIGURE_VALUE_REQUIRES_STRING_SLICE : ErrorCode := EC_object 301006 "configure value requires string array".
Definition ERR_CONFIGURE_VALUE_REQUIRES_MAP : ErrorCode := EC_object 301007 "configure value requires map".
Definition ERR_UNSUPPORT_VARIABLE_VALUE_TYPE : ErrorCode := EC_object 301100 "unsupport variable value type".
Definition ERR_INVALID_VARIABLE_VALUE : ErrorCode := EC_object 301101 "invalid variable value".

(** Section 310: configure (dingocli.cfg: parse failed). *)
Definition ERR_PARSE_DINGOADM_CONFIGURE_FAILED : ErrorCode := EC_object 310000 "parse dingocli configure failed".

(** Section 311: configure (dingocli.cfg: invalid configure value). *)
Definition ERR_UNSUPPORT_DINGOADM_LOG_LEVEL : ErrorCode := EC_object 311000 "unsupport dingocli log level".
Definition ERR_UNSUPPORT_DINGOADM_CONFIGURE_ITEM : ErrorCode := EC_object 311001 "unsupport dingocli configure item".
Definition ERR_UNSUPPORT_DINGOADM_DATABASE_URL : ErrorCode := EC_object 311002 "unsupport dingocli database url".

(** Section 320: configure (hosts.yaml: parse failed). *)
Definition ERR_HOSTS_FILE_NOT_FOUND : ErrorCode := EC_object 320000 "hosts file not found".
Definition ERR_READ_HOSTS_FILE_FAILED : ErrorCode := EC_object 320001 "read hosts file failed".
Definition ERR_EMPTY_HOSTS : ErrorCode := EC_object 320002 "hosts is empty".
Definition ERR_PARSE_HOSTS_FAILED : ErrorCode := EC_object 320003 "parse hosts failed".

(** Section 321: configure (hosts.yaml: invalid configure value). *)
Definition ERR_UNSUPPORT_HOSTS_CONFIGURE_ITEM : ErrorCode := EC_object 321000 "unsupport hosts configure item".
Definition ERR_HOST_FIELD_MISSING : ErrorCode := EC_object 321001 "host field missing".
Definition ERR_HOSTNAME_FIELD_MISSING : ErrorCode := EC_object 321002 "hostname field missing".
Definition ERR_HOSTS_SSH_PORT_EXCEED_MAX_PORT_NUMBER : ErrorCode := EC_object 321003 "ssh_port exceed max port number".
Definition ERR_PRIVATE_KEY_FILE_REQUIRE_ABSOLUTE_PATH : ErrorCode := EC_object 321004 "SSH private key file needs to be an absolute path".
Definition ERR_PRIVATE_KEY_FILE_NOT_EXIST : ErrorCode := EC_object 321005 "SSH private key file not exist".
Definition ERR_PRIVATE_KEY_FILE_REQUIRE_600_PERMISSIONS : ErrorCode := EC_object 321006 "SSH private key file require 600 permissions".
Definition ERR_DUPLICATE_HOST : ErrorCode := EC_object 321007 "host is duplicate".
Definition ERR_HOSTNAME_REQUIRES_VALID_IP_ADDRESS : ErrorCode := EC_object 321008 "hostname requires valid IP address".

(** Section 322: configure (monitor.yaml: parse failed). *)
Definition ERR_PARSE_MONITOR_CONFIGURE_FAILED : ErrorCode := EC_object 322000 "parse monitor configure failed".
Definition ERR_READ_MONITOR_FILE_FAILED : ErrorCode := EC_object 322001 "read monitor file failed".
Definition ERR_PARSE_PROMETHEUS_TARGET_FAILED : ErrorCode := EC_object 322002 "parse prometheus targets failed".

(** Section 330: configure (topology.yaml: parse failed). *)
Definition ERR_TOPOLOGY_FILE_NOT_FOUND : ErrorCode := EC_object 330000 "topology file not found".
Definition ERR_READ_TOPOLOGY_FILE_FAILED : ErrorCode := EC_object 330001 "read topology file failed".
Definition ERR_EMPTY_CLUSTER_TOPOLOGY : ErrorCode := EC_object 330002 "cluster topology is empty".
Definition ERR_PARSE_TOPOLOGY_FAILED : ErrorCode := EC_object 330003 "parse topology failed".
Definition ERR_REGISTER_VARIABLE_FAILED : ErrorCode := EC_object 330004 "register variable failed".
Definition ERR_RESOLVE_VARIABLE_FAILED : ErrorCode := EC_object 330005 "resolve variable failed".
Definition ERR_SET_VARIABLE_VALUE_FAILED : ErrorCode := EC_object 330006 "set variable value failed".
Definition ERR_RENDERING_VARIABLE_FAILED : ErrorCode := EC_object 330007 "rendering variable failed".
Definition ERR_CREATE_HASH_FOR_TOPOLOGY_FAILED : ErrorCode := EC_object 330008 "create hash for topology failed".

(** Section 331: configure (topology.yaml: invalid configure value). *)
Definition ERR_UNSUPPORT_CLUSTER_KIND : ErrorCode := EC_object 331000 "unsupport cluster kind".
Definition ERR_NO_SERVICES_IN_TOPOLOGY : ErrorCode := EC_object 331001 "no services in topology".
Definition ERR_INSTANCES_REQUIRES_POSITIVE_INTEGER : ErrorCode := EC_object 331002 "instances requires a positive integer".
Definition ERR_INVALID_VARIABLE_SECTION : ErrorCode := EC_object 331003 "invalid variable section".
Definition ERR_DUPLICATE_SERVICE_ID : ErrorCode := EC_object 331004 "service id is duplicate".

(** Section 332: configure (topology.yaml: update topology). *)
Definition ERR_DELETE_SERVICE_WHILE_COMMIT_TOPOLOGY_IS_DENIED : ErrorCode := EC_object 332000 "delete service while commit topology is denied".
Definition ERR_ADD_SERVICE_WHILE_COMMIT_TOPOLOGY_IS_DENIED : ErrorCode := EC_object 332001 "add service while commit topology is denied".
Definition ERR_DELETE_SERVICE_WHILE_SCALE_OUT_CLUSTER_IS_DENIED : ErrorCode := EC_object 332002 "delete service while scale out cluster is denied".
Definition ERR_NO_SERVICES_FOR_SCALE_OUT_CLUSTER : ErrorCode := EC_object 332003 "no service for scale out cluster".
Definition ERR_REQUIRE_SAME_ROLE_SERVICES_FOR_SCALE_OUT_CLUSTER : ErrorCode := EC_object 332004 "require same role services for scale out cluster".
Definition ERR_CHUNKSERVER_REQUIRES_3_HOSTS_WHILE_SCALE_OUT : ErrorCode := EC_object 332005 "chunkserver requires at least 3 new hosts to distrubute zones while scale out".
Definition ERR_METASERVER_REQUIRES_3_HOSTS_WHILE_SCALE_OUT : ErrorCode := EC_object 332006 "metaserver requires at least 3 new hosts to distrubute zones while scale out".
Definition ERR_ADD_SERVICE_WHILE_MIGRATING_IS_DENIED : ErrorCode := EC_object 332007 "add service while migrating is denied".
Definition ERR_DELETE_SERVICE_WHILE_MIGRATING_IS_DENIED : ErrorCode := EC_object 332008 "delete service while migrating is denied".
Definition ERR_NO_SERVICES_FOR_MIGRATING : ErrorCode := EC_object 332009 "no service for migrating".
Definition ERR_REQUIRE_SAME_ROLE_SERVICES_FOR_MIGRATING : ErrorCode := EC_object 332010 "require same role services for migrating".
Definition ERR_REQUIRE_WHOLE_HOST_SERVICES_FOR_MIGRATING : ErrorCode := EC_object 332011 "require whole host services for migrating".

(** Section 340: configure (format.yaml: parse failed). *)
Definition ERR_FORMAT_CONFIGURE_FILE_NOT_EXIST : ErrorCode := EC_object 340000 "format configure file not exits".
Definition ERR_PARSE_FORMAT_CONFIGURE_FAILED : ErrorCode := EC_object 340001 "parse format configure failed".

(** Section 341: configure (format.yaml: invalid configure value). *)
Definition ERR_INVALID_DISK_FORMAT : ErrorCode := EC_object 341000 "invalid disk format".
Definition ERR_INVALID_DEVICE : ErrorCode := EC_object 341001 "invalid device".
Definition ERR_MOUNT_POINT_REQUIRE_ABSOLUTE_PATH : ErrorCode := EC_object 341002 "mount point must be an absolute path".
Definition ERR_FORMAT_PERCENT_REQUIRES_INTERGET : ErrorCode := EC_object 341003 "format percentage requires an integer".
Definition ERR_FORMAT_PERCENT_MUST_BE_BETWEEN_1_AND_100 : ErrorCode := EC_object 341004 "format percentage must be between 1 and 100".
Definition ERR_INVALID_BLOCK_SIZE : ErrorCode := EC_object 341005 "invalid block size, support 512,4096".

(** Section 350: configure (client.yaml: parse failed). *)
Definition ERR_PARSE_CLIENT_CONFIGURE_FAILED : ErrorCode := EC_object 350000 "parse client configure failed".
Definition ERR_RESOLVE_CLIENT_VARIABLE_FAILED : ErrorCode := EC_object 350001 "resolve client variable failed".

(** Section 351: configure (client.yaml: invalid configure value). *)
Definition ERR_UNSUPPORT_CLIENT_CONFIGURE_KIND : ErrorCode := EC_object 351000 "unsupport client configure kind".
Definition ERR_UNSUPPORT_CLIENT_CONFIGURE_VALUE_TYPE : ErrorCode := EC_object 351001 "unsupport client configure value type".
Definition ERR_REQUIRE_DINGOFS_KIND_CLIENT_CONFIGURE_FILE : ErrorCode := EC_object 351003 "require dingofs kind client configure file".
Definition ERR_INVALID_CLUSTER_LISTEN_MDS_ADDRESS : ErrorCode := EC_object 351004 "invalid cluster MDS listen address".

(** Section 360: configure (gateway.yaml: parse failed). *)
Definition ERR_PARSE_GATEWAY_CONFIGURE_FAILED : ErrorCode := EC_object 360000 "parse client configure failed".
Definition ERR_GATEWAY_MDSADDR_EMPTY : ErrorCode := EC_object 360001 "dingofs mdsaddr is empty".

(** Section 400: common (hosts). *)
Definition ERR_HOST_NOT_FOUND : ErrorCode := EC_object 400000 "host not found".

(** Section 410: common (services command). *)
Definition ERR_NO_CLUSTER_SPECIFIED : ErrorCode := EC_object 410001 "no cluster specified".
Definition ERR_NO_DISK_FOR_FORMATTING : ErrorCode := EC_object 410002 "no host/disk for formating".
Definition ERR_GET_DEVICE_UUID_FAILED : ErrorCode := EC_object 410003 "get device uuid failed".
Definition ERR_NOT_A_BLOCK_DEVICE : ErrorCode := EC_object 410004 "not a block device".
Definition ERR_INVALID_UUID : ErrorCode := EC_object 410005 "invalid device uuid".
Definition ERR_NO_SERVICES_FOR_PRECHECK : ErrorCode := EC_object 410006 "no services for precheck".
Definition ERR_NO_SERVICES_FOR_DEPLOY : ErrorCode := EC_object 410007 "no services for deploy".
Definition ERR_SERVICE_CONTAINER_ID_NOT_FOUND : ErrorCode := EC_object 410008 "service container id not found".
Definition ERR_CLUSTER_ALREADY_EXIST : ErrorCode := EC_object 410009 "cluster already exist".
Definition ERR_CLUSTER_NOT_FOUND : ErrorCode := EC_object 410010 "cluster not found".
Definition ERR_ACTIVE_SERVICE_IN_CLUSTER : ErrorCode := EC_object 410011 "please clean all services before remove cluster".
Definition ERR_UNSUPPORT_CONFIG_TYPE : ErrorCode := EC_object 410012 "unsupport config type".
Definition ERR_UNKNOWN_TASK_TYPE : ErrorCode := EC_object 410013 "unknown task type".
Definition ERR_CONTAINER_ALREADT_REMOVED : ErrorCode := EC_object 410014 "container already removed".
Definition ERR_CONTAINER_IS_ABNORMAL : ErrorCode := EC_object 410015 "container is abnormal".
Definition ERR_DECODE_CLUSTER_POOL_JSON_FAILED : ErrorCode := EC_object 410016 "decode cluster pool json to string failed".
Definition ERR_WAIT_MDS_ELECTION_SUCCESS_TIMEOUT : ErrorCode := EC_object 410017 "wait mds election success timeout".
Definition ERR_WAIT_ALL_CHUNKSERVERS_ONLINE_TIMEOUT : ErrorCode := EC_object 410018 "wait all chunkservers online timeout".
Definition ERR_CREATE_LOGICAL_POOL_FAILED : ErrorCode := EC_object 410019 "create logical pool failed".
Definition ERR_INVALID_DEVICE_USAGE : ErrorCode := EC_object 410020 "invalid device usage".
Definition ERR_ENCRYPT_FILE_FAILED : ErrorCode := EC_object 410021 "encrypt file failed".
Definition ERR_CLIENT_ID_NOT_FOUND : ErrorCode := EC_object 410022 "client id not found".
Definition ERR_ENABLE_ETCD_AUTH_FAILED : ErrorCode := EC_object 410023 "enable etcd auth failed".

(** Section 430: common (dingofs client). *)
Definition ERR_FS_PATH_ALREADY_MOUNTED : ErrorCode := EC_object 430000 "path already mounted".
Definition ERR_CREATE_FILESYSTEM_FAILED : ErrorCode := EC_object 430001 "create filesystem failed".
Definition ERR_MOUNT_FILESYSTEM_FAILED : ErrorCode := EC_object 430002 "mount filesystem failed".
Definition ERR_UMOUNT_FILESYSTEM_FAILED : ErrorCode := EC_object 430003 "umount filesystem failed".
Definition ERR_ENCODE_INFO_TO_JSON_FAILED : ErrorCode := EC_object 420004 "encode info to json failed".

(** Section 440: common (polarfs). *)
Definition ERR_GET_OS_REELASE_FAILED : ErrorCode := EC_object 440000 "get os release failed".
Definition ERR_UNSUPPORT_LINUX_OS_REELASE : ErrorCode := EC_object 440001 "unsupport linux os release".
Definition ERR_INSTALL_PFSD_PACKAGE_FAILED : ErrorCode := EC_object 440002 "install pfsd package failed".

(** Section 450: common (playground). *)
Definition ERR_PLAYGROUND_NOT_FOUND : ErrorCode := EC_object 450000 "playground not found".

(** Section 500: checker (topology/s3). *)
Definition ERR_INVALID_S3_ACCESS_KEY : ErrorCode := EC_object 500000 "invalid S3 access key".
Definition ERR_INVALID_S3_SECRET_KEY : ErrorCode := EC_object 500001 "invalid S3 secret key".
Definition ERR_INVALID_S3_ADDRESS : ErrorCode := EC_object 500002 "invalid S3 address".
Definition ERR_INVALID_S3_BUCKET_NAME : ErrorCode := EC_object 500003 "invalid S3 bucket name".

(** Section 501: checker (topology/directory). *)
Definition ERR_DIRECTORY_REQUIRE_ABSOLUTE_PATH : ErrorCode := EC_object 501000 "directory must be an absolute path".
Definition ERR_DATA_DIRECTORY_ALREADY_IN_USE : ErrorCode := EC_object 501001 "data directory already in use".

(** Section 502: checker (topology/address). *)
Definition ERR_DUPLICATE_LISTEN_ADDRESS : ErrorCode := EC_object 502000 "listen address is duplicate".

(** Section 503: checker (topology/service). *)
Definition ERR_ETCD_REQUIRES_3_SERVICES : ErrorCode := EC_object 503000 "etcd requires at least 3 services".
Definition ERR_MDS_REQUIRES_3_SERVICES : ErrorCode := EC_object 503001 "mds requires at least 3 services".
Definition ERR_CHUNKSERVER_REQUIRES_3_SERVICES : ErrorCode := EC_object 503002 "chunkserver requires at least 3 services".
Definition ERR_SNAPSHOTCLONE_REQUIRES_3_SERVICES : ErrorCode := EC_object 503003 "snapshotclone requires at least 3 services".
Definition ERR_METASERVER_REQUIRES_3_SERVICES : ErrorCode := EC_object 503004 "metaserver requires at least 3 services".
Definition ERR_ETCD_REQUIRES_3_HOSTS : ErrorCode := EC_object 503005 "etcd requires at least 3 hosts for deploy".
Definition ERR_MDS_REQUIRES_3_HOSTS : ErrorCode := EC_object 503006 "mds requires at least 3 hosts for deploy".
Definition ERR_CHUNKSERVER_REQUIRES_3_HOSTS : ErrorCode := EC_object 503007 "chunkserver requires at least 3 hosts to distrubute zones".
Definition ERR_SNAPSHOTCLONE_REQUIRES_3_HOSTS : ErrorCode := EC_object 503008 "snapshotclone requires at least 3 hosts for deploy".
Definition ERR_METASERVER_REQUIRES_3_HOSTS : ErrorCode := EC_object 503009 "metaserver requires at least 3 hosts to distrubute zones".
Definition ERR_COORDINATOR_REQUIRES_3_SERVICES : ErrorCode := EC_object 503010 "coordinator requires at least 3 services".
Definition ERR_STORE_REQUIRES_3_SERVICES : ErrorCode := EC_object 503011 "store requires at least 3 services".

(** Section 510: checker (ssh). *)
Definition ERR_SSH_CONNECT_FAILED : ErrorCode := EC_object 510000 "SSH connect failed".

(** Section 520: checker (permission). *)
Definition ERR_USER_NOT_FOUND : ErrorCode := EC_object 520000 "user not found".
Definition ERR_HOSTNAME_NOT_RESOLVED : ErrorCode := EC_object 520001 "hostname not resolved".
Definition ERR_CREATE_DIRECOTRY_PERMISSION_DENIED : ErrorCode := EC_object 520002 "create direcotry permission denied".
Definition ERR_EXECUTE_CONTAINER_ENGINE_COMMAND_PERMISSION_DENIED : ErrorCode := EC_object 520003 "execute docker/podman command permission denied".

(** Section 530: checker (kernel). *)
Definition ERR_UNRECOGNIZED_KERNEL_VERSION : ErrorCode := EC_object 530000 "unrecognized kernel version".
Definition ERR_RENAMEAT_NOT_SUPPORTED_IN_CURRENT_KERNEL : ErrorCode := EC_object 530001 "renameat() not supported in current kernel version".
Definition ERR_KERNEL_NBD_MODULE_NOT_LOADED : ErrorCode := EC_object 530002 "kernel nbd module not loaded".
Definition ERR_KERNEL_FUSE_MODULE_NOT_LOADED : ErrorCode := EC_object 530003 "kernel fuse module not loaded".

(** Section 540: checker (network). *)
Definition ERR_PORT_ALREADY_IN_USE : ErrorCode := EC_object 540000 "port is already in use".
Definition ERR_DESTINATION_UNREACHABLE : ErrorCode := EC_object 540001 "destination unreachable".
Definition ERR_CONNET_MOCK_SERVICE_ADDRESS_FAILED : ErrorCode := EC_object 540002 "try to connect mock service listen address failed".

(** Section 550: checker (date). *)
Definition ERR_INVALID_DATE_FORMAT : ErrorCode := EC_object 550000 "invalid date format".
Definition ERR_HOST_TIME_DIFFERENCE_OVER_30_SECONDS : ErrorCode := EC_object 550001 "host time difference over 30 seconds".

(** Section 560: checker (service). *)
Definition ERR_CHUNKFILE_POOL_NOT_EXIST : ErrorCode := EC_object 560000 "there is no chunkfile pool in data directory".

(** Section 570: checker (client). *)
Definition ERR_INVALID_DINGOFS_CLIENT_S3_ACCESS_KEY : ErrorCode := EC_object 570000 "invalid dingofs client S3 access key".
Definition ERR_INVALID_DINGOFS_CLIENT_S3_SECRET_KEY : ErrorCode := EC_object 570001 "invalid dingofs client S3 secret key".
Definition ERR_INVALID_DINGOFS_CLIENT_S3_ADDRESS : ErrorCode := EC_object 570002 "invalid dingofs client S3 address".
Definition ERR_INVALID_DINGOFS_CLIENT_S3_BUCKET_NAME : ErrorCode := EC_object 570003 "invalid dingofs client S3 bucket name".

(** Section 590: checker (others). *)
Definition ERR_CONTAINER_ENGINE_NOT_INSTALLED : ErrorCode := EC_object 590000 "container engine docker/podman not installed".
Definition ERR_DOCKER_DAEMON_IS_NOT_RUNNING : ErrorCode := EC_object 590001 "docker daemon is not running".
Definition ERR_NO_SPACE_LEFT_ON_DEVICE : ErrorCode := EC_object 590002 "no space left on device".

(** Section 600: exeute task (common). *)
Definition ERR_EXECUTE_COMMAND_TIMED_OUT : ErrorCode := EC_object 600000 "execute command timed out".
Definition ERR_READ_FILE_FAILED : ErrorCode := EC_object 600001 "read file failed".
Definition ERR_WRITE_FILE_FAILED : ErrorCode := EC_object 600002 "write file failed".
Definition ERR_BUILD_REGEX_FAILED : ErrorCode := EC_object 600003 "build regex failed".
Definition ERR_BUILD_TEMPLATE_FAILED : ErrorCode := EC_object 600004 "build template failed".

(** Section 610: exeute task (ssh command). *)
Definition ERR_DOWNLOAD_FILE_FROM_REMOTE_BY_SSH_FAILED : ErrorCode := EC_object 610000 "download file from remote by ssh failed".
Definition ERR_UPLOAD_FILE_TO_REMOTE_BY_SSH_FAILED : ErrorCode := EC_object 610001 "upload file to remote by ssh failed".
Definition ERR_CONNECT_REMOTE_HOST_WITH_INTERACT_BY_SSH_FAILED : ErrorCode := EC_object 610002 "connect remote host with interact by ssh failed".

(** Section 620: execute task (shell command). *)
Definition ERR_EDIT_FILE_FAILED : ErrorCode := EC_object 620000 "edit file failed (sed)".
Definition ERR_LIST_DIRECTORY_CONTENTS_FAILED : ErrorCode := EC_object 620001 "list directory contents failed (ls)".
Definition ERR_CREATE_DIRECTORY_FAILED : ErrorCode := EC_object 620002 "create directory failed (mkdir)".
Definition ERR_REMOVE_FILES_OR_DIRECTORIES_FAILED : ErrorCode := EC_object 620003 "remove files or directories failed (rm)".
Definition ERR_RENAME_FILE_OR_DIRECTORY_FAILED : ErrorCode := EC_object 620004 "rename file or directory failed (mv)".
Definition ERR_COPY_FILES_AND_DIRECTORIES_FAILED : ErrorCode := EC_object 620005 "copy files and directories failed (cp)".
Definition ERR_CHANGE_FILE_MODE_FAILED : ErrorCode := EC_object 620006 "change file mode failed (chmod)".
Definition ERR_GET_FILE_STATUS_FAILED : ErrorCode := EC_object 620007 "get file status failed (stat)".
Definition ERR_CONCATENATE_FILE_FAILED : ErrorCode := EC_object 620008 "concatenate file failed (cat)".
Definition ERR_BUILD_A_LINUX_FILE_SYSTEM_FAILED : ErrorCode := EC_object 620009 "build a Linux file system failed (mkfs)".
Definition ERR_MOUNT_A_FILESYSTEM_FAILED : ErrorCode := EC_object 620010 "mount a filesystem failed (mount)".
Definition ERR_UNMOUNT_FILE_SYSTEMS_FAILED : ErrorCode := EC_object 620011 "unmount file systems failed (umount)".
Definition ERR_FIND_WHICH_PROCESS_USING_FILE_FAILED : ErrorCode := EC_object 620012 "find which process is using file failed (fuser)".
Definition ERR_GET_DISK_SPACE_USAGE_FAILED : ErrorCode := EC_object 620013 "get disk space usage failed (df)".
Definition ERR_LIST_BLOCK_DEVICES_FAILED : ErrorCode := EC_object 620014 "list block devices failed (lsblk)".
Definition ERR_GET_CONNECTION_INFORMATION_FAILED : ErrorCode := EC_object 620015 "get connection information failed (ss)".
Definition ERR_SEND_ICMP_ECHO_REQUEST_TO_HOST_FAILED : ErrorCode := EC_object 620016 "send ICMP ECHO_REQUEST to host failed (ping)".
Definition ERR_TRANSFERRING_DATA_FROM_OR_TO_SERVER_FAILED : ErrorCode := EC_object 620017 "transferring data from or to a server (curl)".
Definition ERR_GET_SYSTEM_TIME_FAILED : ErrorCode := EC_object 620018 "get system time failed (date)".
Definition ERR_GET_SYSTEM_INFORMATION_FAILED : ErrorCode := EC_object 620019 "get system information failed (uname)".
Definition ERR_GET_KERNEL_MODULE_INFO_FAILED : ErrorCode := EC_object 620020 "get kernel module information failed (modinfo)".
Definition ERR_ADD_MODUDLE_FROM_LINUX_KERNEL_FAILED : ErrorCode := EC_object 620021 "add module from linux kernel failed (modprobe)".
Definition ERR_GET_HOSTNAME_FAILED : ErrorCode := EC_object 620022 "get hostname failed (hostname)".
Definition ERR_STORES_AND_EXTRACTS_FILES_FAILED : ErrorCode := EC_object 620023 "stores and extracts files failed (tar)".
Definition ERR_INSTALL_OR_REMOVE_DEBIAN_PACKAGE_FAILED : ErrorCode := EC_object 620024 "install or remove debian package failed (dpkg)".
Definition ERR_INSTALL_OR_REMOVE_RPM_PACKAGE_FAILED : ErrorCode := EC_object 620025 "install or remove rpm package failed (rpm)".
Definition ERR_SECURE_COPY_FILE_TO_REMOTE_FAILED : ErrorCode := EC_object 620026 "secure copy file to remote failed (scp)".
Definition ERR_GET_BLOCK_DEVICE_UUID_FAILED : ErrorCode := EC_object 620027 "get block device uuid failed (blkid)".
Definition ERR_RESERVE_FILESYSTEM_BLOCKS_FAILED : ErrorCode := EC_object 620028 "reserve filesystem blocks (tune2fs)".
Definition ERR_RUN_SCRIPT_FAILED : ErrorCode := EC_object 620998 "run script failed (bash script.sh)".
Definition ERR_RUN_A_BASH_COMMAND_FAILED : ErrorCode := EC_object 620999 "run a bash command failed (bash -c)".

(** Section 630: execute task (docker/podman command). *)
Definition ERR_GET_CONTAINER_ENGINE_INFO_FAILED : ErrorCode := EC_object 630000 "get container engine info failed".
Definition ERR_PULL_IMAGE_FAILED : ErrorCode := EC_object 630001 "pull image failed".
Definition ERR_CREATE_CONTAINER_FAILED : ErrorCode := EC_object 630002 "create container failed".
Definition ERR_START_CONTAINER_FAILED : ErrorCode := EC_object 630003 "start container failed".
Definition ERR_STOP_CONTAINER_FAILED : ErrorCode := EC_object 630004 "stop container failed".
Definition ERR_RESTART_CONTAINER_FAILED : ErrorCode := EC_object 630005 "restart container failed".
Definition ERR_WAIT_CONTAINER_STOP_FAILED : ErrorCode := EC_object 630006 "wait container stop failed".
Definition ERR_REMOVE_CONTAINER_FAILED : ErrorCode := EC_object 630007 "remove container failed".
Definition ERR_LIST_CONTAINERS_FAILED : ErrorCode := EC_object 630008 "list containers failed".
Definition ERR_RUN_COMMAND_IN_CONTAINER_FAILED : ErrorCode := EC_object 630009 "run a command in container failed".
Definition ERR_COPY_FROM_CONTAINER_FAILED : ErrorCode := EC_object 630010 "copy file from container failed".
Definition ERR_COPY_INTO_CONTAINER_FAILED : ErrorCode := EC_object 630011 "copy file into container failed".
Definition ERR_INSPECT_CONTAINER_FAILED : ErrorCode := EC_object 630012 "get container low-level information failed".
Definition ERR_GET_CONTAINER_LOGS_FAILED : ErrorCode := EC_object 630013 "get container logs failed".
Definition ERR_UPDATE_CONTAINER_FAILED : ErrorCode := EC_object 630014 "update container failed".
Definition ERR_CONTAINER_NOT_EXISTED : ErrorCode := EC_object 630015 "container not existed".

(** Section 640: gateway (dingofs gateway). *)
Definition ERR_NO_HOST_FOR_GATEWAY : ErrorCode := EC_object 640000 "no host found".
Definition ERR_START_GATEWAY_FAILED : ErrorCode := EC_object 640001 "start s3 gateway failed".

(** Section 650: mdsv2. *)
Definition ERR_CREATE_META_TABLE_FAILED : ErrorCode := EC_object 650000 "create meta table failed".

(** Section 660: rpc. *)
Definition ERR_RPC_FAILED : ErrorCode := EC_object 660000 "rpc request to mds cluster failed".

(** Section 690: execuetr task (others). *)
Definition ERR_START_CRONTAB_IN_CONTAINER_FAILED : ErrorCode := EC_object 690000 "start crontab in container failed".

(** Section 900: others. *)
Definition ERR_CANCEL_OPERATION : ErrorCode := EC_object CODE_CANCEL_OPERATION "cancel operation".

(** Section 999. *)
Definition ERR_UNKNOWN : ErrorCode := EC_object 999999 "unknown error".

(** The declarations grouped by the section comment they stand under, in
    source order. *)
Definition sections_db : list (Z * list ErrorCode) := [
  (0, [ERR_OK; ERR_GET_USER_HOME_DIR_FAILED; ERR_CREATE_DINGOADM_SUBDIRECTORY_FAILED; ERR_INIT_LOGGER_FAILED]);
  (100, [ERR_INIT_SQL_DATABASE_FAILED]);
  (110, [ERR_GET_HOSTS_FAILED; ERR_UPDATE_HOSTS_FAILED]);
  (111, [ERR_INSERT_CLUSTER_FAILED; ERR_GET_CURRENT_CLUSTER_FAILED; ERR_GET_CLUSTER_BY_NAME_FAILED; ERR_GET_ALL_CLUSTERS_FAILED; ERR_CHECKOUT_CLUSTER_FAILED; ERR_DELETE_CLUSTER_FAILED; ERR_UPDATE_CLUSTER_TOPOLOGY_FAILED; ERR_UPDATE_CLUSTER_POOL_FAILED; ERR_RENAME_CLUSTER_FAILED]);
  (112, [ERR_INSERT_SERVICE_CONTAINER_ID_FAILED; ERR_SET_SERVICE_CONTAINER_ID_FAILED; ERR_GET_SERVICE_CONTAINER_ID_FAILED; ERR_GET_ALL_SERVICES_CONTAINER_ID_FAILED]);
  (113, [ERR_INSERT_CLIENT_FAILED; ERR_GET_CLIENT_CONTAINER_ID_FAILED; ERR_GET_CLIENT_BY_ID_FAILED; ERR_GET_ALL_CLIENTS_FAILED; ERR_DELETE_CLIENT_FAILED; ERR_SET_CLIENT_AUX_INFO_FAILED]);
  (114, [ERR_INSERT_PLAYGROUND_FAILED; ERR_GET_ALL_PLAYGROUND_FAILED; ERR_GET_PLAYGROUND_BY_NAME_FAILED; ERR_DELETE_PLAYGROUND_FAILED]);
  (115, [ERR_GET_AUDIT_LOGS_FAILE]);
  (116, [ERR_INSERT_CLIENT_CONFIG_FAILED; ERR_SELECT_CLIENT_CONFIG_FAILED; ERR_DELETE_CLIENT_CONFIG_FAILED]);
  (117, [ERR_GET_MONITOR_FAILED; ERR_REPLACE_MONITOR_FAILED; ERR_UPDATE_MONITOR_FAILED])
].
Definition sections_options : list (Z * list ErrorCode) := [
  (210, [ERR_ID_NOT_FOUND; ERR_UNSUPPORT_DINGOFS_ROLE; ERR_UNSUPPORT_SKIPPED_SERVICE_ROLE; ERR_UNSUPPORT_SKIPPED_CHECK_ITEM; ERR_UNSUPPORT_CLEAN_ITEM; ERR_NO_SERVICES_MATCHED; ERR_UNSUPPORT_DINGODB_ROLE; ERR_UNSUPPORT_DINGOSTORE_ROLE; ERR_INVALID_DISK_TYPE]);
  (220, [ERR_UNSUPPORT_CLIENT_KIND]);
  (221, [ERR_INVALID_VOLUME_FORMAT; ERR_ROOT_VOLUME_USER_NOT_ALLOWED; ERR_VOLUME_NAME_MUST_START_WITH_SLASH_PREFIX; ERR_VOLUME_SIZE_MUST_END_WITH_GiB_SUFFIX; ERR_VOLUME_SIZE_REQUIRES_POSITIVE_INTEGER; ERR_VOLUME_SIZE_MUST_BE_MULTIPLE_OF_10_GiB; ERR_CLIENT_CONFIGURE_FILE_NOT_EXIST; ERR_NO_CLIENT_MATCHED; ERR_VOLUME_NAME_CAN_NOT_CONTAIN_UNDERSCORE; ERR_VOLUME_BLOCKSIZE_MUST_END_WITH_BYTE_SUFFIX; ERR_VOLUME_BLOCKSIZE_REQUIRES_POSITIVE_INTEGER; ERR_VOLUME_BLOCKSIZE_BE_MULTIPLE_OF_512]);
  (222, [ERR_FS_MOUNTPOINT_REQUIRE_ABSOLUTE_PATH])
].
Definition sections_configure : list (Z * list ErrorCode) := [
  (301, [ERR_UNSUPPORT_CONFIGURE_VALUE_TYPE; ERR_CONFIGURE_VALUE_REQUIRES_BOOL; ERR_CONFIGURE_VALUE_REQUIRES_INTEGER; ERR_CONFIGURE_VALUE_REQUIRES_NON_EMPTY_STRING; ERR_CONFIGURE_VALUE_REQUIRES_POSITIVE_INTEGER; ERR_CONFIGURE_VALUE_REQUIRES_STRING_SLICE; ERR_CONFIGURE_VALUE_REQUIRES_MAP; ERR_UNSUPPORT_VARIABLE_VALUE_TYPE; ERR_INVALID_VARIABLE_VALUE]);
  (310, [ERR_PARSE_DINGOADM_CONFIGURE_FAILED]);
  (311, [ERR_UNSUPPORT_DINGOADM_LOG_LEVEL; ERR_UNSUPPORT_DINGOADM_CONFIGURE_ITEM; ERR_UNSUPPORT_DINGOADM_DATABASE_URL]);
  (320, [ERR_HOSTS_FILE_NOT_FOUND; ERR_READ_HOSTS_FILE_FAILED; ERR_EMPTY_HOSTS; ERR_PARSE_HOSTS_FAILED]);
  (321, [ERR_UNSUPPORT_HOSTS_CONFIGURE_ITEM; ERR_HOST_FIELD_MISSING; ERR_HOSTNAME_FIELD_MISSING; ERR_HOSTS_SSH_PORT_EXCEED_MAX_PORT_NUMBER; ERR_PRIVATE_KEY_FILE_REQUIRE_ABSOLUTE_PATH; ERR_PRIVATE_KEY_FILE_NOT_EXIST; ERR_PRIVATE_KEY_FILE_REQUIRE_600_PERMISSIONS; ERR_DUPLICATE_HOST; ERR_HOSTNAME_REQUIRES_VALID_IP_ADDRESS]);
  (322, [ERR_PARSE_MONITOR_CONFIGURE_FAILED; ERR_READ_MONITOR_FILE_FAILED; ERR_PARSE_PROMETHEUS_TARGET_FAILED]);
  (330, [ERR_TOPOLOGY_FILE_NOT_FOUND; ERR_READ_TOPOLOGY_FILE_FAILED; ERR_EMPTY_CLUSTER_TOPOLOGY; ERR_PARSE_TOPOLOGY_FAILED; ERR_REGISTER_VARIABLE_FAILED; ERR_RESOLVE_VARIABLE_FAILED; ERR_SET_VARIABLE_VALUE_FAILED; ERR_RENDERING_VARIABLE_FAILED; ERR_CREATE_HASH_FOR_TOPOLOGY_FAILED]);
  (331, [ERR_UNSUPPORT_CLUSTER_KIND; ERR_NO_SERVICES_IN_TOPOLOGY; ERR_INSTANCES_REQUIRES_POSITIVE_INTEGER; ERR_INVALID_VARIABLE_SECTION; ERR_DUPLICATE_SERVICE_ID]);
  (332, [ERR_DELETE_SERVICE_WHILE_COMMIT_TOPOLOGY_IS_DENIED; ERR_ADD_SERVICE_WHILE_COMMIT_TOPOLOGY_IS_DENIED; ERR_DELETE_SERVICE_WHILE_SCALE_OUT_CLUSTER_IS_DENIED; ERR_NO_SERVICES_FOR_SCALE_OUT_CLUSTER; ERR_REQUIRE_SAME_ROLE_SERVICES_FOR_SCALE_OUT_CLUSTER; ERR_CHUNKSERVER_REQUIRES_3_HOSTS_WHILE_SCALE_OUT; ERR_METASERVER_REQUIRES_3_HOSTS_WHILE_SCALE_OUT; ERR_ADD_SERVICE_WHILE_MIGRATING_IS_DENIED; ERR_DELETE_SERVICE_WHILE_MIGRATING_IS_DENIED; ERR_NO_SERVICES_FOR_MIGRATING; ERR_REQUIRE_SAME_ROLE_SERVICES_FOR_MIGRATING; ERR_REQUIRE_WHOLE_HOST_SERVICES_FOR_MIGRATING]);
  (340, [ERR_FORMAT_CONFIGURE_FILE_NOT_EXIST; ERR_PARSE_FORMAT_CONFIGURE_FAILED]);
  (341, [ERR_INVALID_DISK_FORMAT; ERR_INVALID_DEVICE; ERR_MOUNT_POINT_REQUIRE_ABSOLUTE_PATH; ERR_FORMAT_PERCENT_REQUIRES_INTERGET; ERR_FORMAT_PERCENT_MUST_BE_BETWEEN_1_AND_100; ERR_INVALID_BLOCK_SIZE]);
  (350, [ERR_PARSE_CLIENT_CONFIGURE_FAILED; ERR_RESOLVE_CLIENT_VARIABLE_FAILED]);
  (351, [ERR_UNSUPPORT_CLIENT_CONFIGURE_KIND; ERR_UNSUPPORT_CLIENT_CONFIGURE_VALUE_TYPE; ERR_REQUIRE_DINGOFS_KIND_CLIENT_CONFIGURE_FILE; ERR_INVALID_CLUSTER_LISTEN_MDS_ADDRESS]);
  (360, [ERR_PARSE_GATEWAY_CONFIGURE_FAILED; ERR_GATEWAY_MDSADDR_EMPTY])
].
Definition sections_common : list (Z * list ErrorCode) := [
  (400, [ERR_HOST_NOT_FOUND]);
  (410, [ERR_NO_CLUSTER_SPECIFIED; ERR_NO_DISK_FOR_FORMATTING; ERR_GET_DEVICE_UUID_FAILED; ERR_NOT_A_BLOCK_DEVICE; ERR_INVALID_UUID; ERR_NO_SERVICES_FOR_PRECHECK; ERR_NO_SERVICES_FOR_DEPLOY; ERR_SERVICE_CONTAINER_ID_NOT_FOUND; ERR_CLUSTER_ALREADY_EXIST; ERR_CLUSTER_NOT_FOUND; ERR_ACTIVE_SERVICE_IN_CLUSTER; ERR_UNSUPPORT_CONFIG_TYPE; ERR_UNKNOWN_TASK_TYPE; ERR_CONTAINER_ALREADT_REMOVED; ERR_CONTAINER_IS_ABNORMAL; ERR_DECODE_CLUSTER_POOL_JSON_FAILED; ERR_WAIT_MDS_ELECTION_SUCCESS_TIMEOUT; ERR_WAIT_ALL_CHUNKSERVERS_ONLINE_TIMEOUT; ERR_CREATE_LOGICAL_POOL_FAILED; ERR_INVALID_DEVICE_USAGE; ERR_ENCRYPT_FILE_FAILED; ERR_CLIENT_ID_NOT_FOUND; ERR_ENABLE_ETCD_AUTH_FAILED]);
  (430, [ERR_FS_PATH_ALREADY_MOUNTED; ERR_CREATE_FILESYSTEM_FAILED; ERR_MOUNT_FILESYSTEM_FAILED; ERR_UMOUNT_FILESYSTEM_FAILED; ERR_ENCODE_INFO_TO_JSON_FAILED]);
  (440, [ERR_GET_OS_REELASE_FAILED; ERR_UNSUPPORT_LINUX_OS_REELASE; ERR_INSTALL_PFSD_PACKAGE_FAILED]);
  (450, [ERR_PLAYGROUND_NOT_FOUND])
].
Definition sections_checker : list (Z * list ErrorCode) := [
  (500, [ERR_INVALID_S3_ACCESS_KEY; ERR_INVALID_S3_SECRET_KEY; ERR_INVALID_S3_ADDRESS; ERR_INVALID_S3_BUCKET_NAME]);
  (501, [ERR_DIRECTORY_REQUIRE_ABSOLUTE_PATH; ERR_DATA_DIRECTORY_ALREADY_IN_USE]);
  (502, [ERR_DUPLICATE_LISTEN_ADDRESS]);
  (503, [ERR_ETCD_REQUIRES_3_SERVICES; ERR_MDS_REQUIRES_3_SERVICES; ERR_CHUNKSERVER_REQUIRES_3_SERVICES; ERR_SNAPSHOTCLONE_REQUIRES_3_SERVICES; ERR_METASERVER_REQUIRES_3_SERVICES; ERR_ETCD_REQUIRES_3_HOSTS; ERR_MDS_REQUIRES_3_HOSTS; ERR_CHUNKSERVER_REQUIRES_3_HOSTS; ERR_SNAPSHOTCLONE_REQUIRES_3_HOSTS; ERR_METASERVER_REQUIRES_3_HOSTS; ERR_COORDINATOR_REQUIRES_3_SERVICES; ERR_STORE_REQUIRES_3_SERVICES]);
  (510, [ERR_SSH_CONNECT_FAILED]);
  (520, [ERR_USER_NOT_FOUND; ERR_HOSTNAME_NOT_RESOLVED; ERR_CREATE_DIRECOTRY_PERMISSION_DENIED; ERR_EXECUTE_CONTAINER_ENGINE_COMMAND_PERMISSION_DENIED]);
  (530, [ERR_UNRECOGNIZED_KERNEL_VERSION; ERR_RENAMEAT_NOT_SUPPORTED_IN_CURRENT_KERNEL; ERR_KERNEL_NBD_MODULE_NOT_LOADED; ERR_KERNEL_FUSE_MODULE_NOT_LOADED]);
  (540, [ERR_PORT_ALREADY_IN_USE; ERR_DESTINATION_UNREACHABLE; ERR_CONNET_MOCK_SERVICE_ADDRESS_FAILED]);
  (550, [ERR_INVALID_DATE_FORMAT; ERR_HOST_TIME_DIFFERENCE_OVER_30_SECONDS]);
  (560, [ERR_CHUNKFILE_POOL_NOT_EXIST]);
  (570, [ERR_INVALID_DINGOFS_CLIENT_S3_ACCESS_KEY; ERR_INVALID_DINGOFS_CLIENT_S3_SECRET_KEY; ERR_INVALID_DINGOFS_CLIENT_S3_ADDRESS; ERR_INVALID_DINGOFS_CLIENT_S3_BUCKET_NAME]);
  (590, [ERR_CONTAINER_ENGINE_NOT_INSTALLED; ERR_DOCKER_DAEMON_IS_NOT_RUNNING; ERR_NO_SPACE_LEFT_ON_DEVICE])
].
Definition sections_task : list (Z * list ErrorCode) := [
  (600, [ERR_EXECUTE_COMMAND_TIMED_OUT; ERR_READ_FILE_FAILED; ERR_WRITE_FILE_FAILED; ERR_BUILD_REGEX_FAILED; ERR_BUILD_TEMPLATE_FAILED]);
  (610, [ERR_DOWNLOAD_FILE_FROM_REMOTE_BY_SSH_FAILED; ERR_UPLOAD_FILE_TO_REMOTE_BY_SSH_FAILED; ERR_CONNECT_REMOTE_HOST_WITH_INTERACT_BY_SSH_FAILED]);
  (620, [ERR_EDIT_FILE_FAILED; ERR_LIST_DIRECTORY_CONTENTS_FAILED; ERR_CREATE_DIRECTORY_FAILED; ERR_REMOVE_FILES_OR_DIRECTORIES_FAILED; ERR_RENAME_FILE_OR_DIRECTORY_FAILED; ERR_COPY_FILES_AND_DIRECTORIES_FAILED; ERR_CHANGE_FILE_MODE_FAILED; ERR_GET_FILE_STATUS_FAILED; ERR_CONCATENATE_FILE_FAILED; ERR_BUILD_A_LINUX_FILE_SYSTEM_FAILED; ERR_MOUNT_A_FILESYSTEM_FAILED; ERR_UNMOUNT_FILE_SYSTEMS_FAILED; ERR_FIND_WHICH_PROCESS_USING_FILE_FAILED; ERR_GET_DISK_SPACE_USAGE_FAILED; ERR_LIST_BLOCK_DEVICES_FAILED; ERR_GET_CONNECTION_INFORMATION_FAILED; ERR_SEND_ICMP_ECHO_REQUEST_TO_HOST_FAILED; ERR_TRANSFERRING_DATA_FROM_OR_TO_SERVER_FAILED; ERR_GET_SYSTEM_TIME_FAILED; ERR_GET_SYSTEM_INFORMATION_FAILED; ERR_GET_KERNEL_MODULE_INFO_FAILED; ERR_ADD_MODUDLE_FROM_LINUX_KERNEL_FAILED; ERR_GET_HOSTNAME_FAILED; ERR_STORES_AND_EXTRACTS_FILES_FAILED; ERR_INSTALL_OR_REMOVE_DEBIAN_PACKAGE_FAILED; ERR_INSTALL_OR_REMOVE_RPM_PACKAGE_FAILED; ERR_SECURE_COPY_FILE_TO_REMOTE_FAILED; ERR_GET_BLOCK_DEVICE_UUID_FAILED; ERR_RESERVE_FILESYSTEM_BLOCKS_FAILED; ERR_RUN_SCRIPT_FAILED; ERR_RUN_A_BASH_COMMAND_FAILED]);
  (630, [ERR_GET_CONTAINER_ENGINE_INFO_FAILED; ERR_PULL_IMAGE_FAILED; ERR_CREATE_CONTAINER_FAILED; ERR_START_CONTAINER_FAILED; ERR_STOP_CONTAINER_FAILED; ERR_RESTART_CONTAINER_FAILED; ERR_WAIT_CONTAINER_STOP_FAILED; ERR_REMOVE_CONTAINER_FAILED; ERR_LIST_CONTAINERS_FAILED; ERR_RUN_COMMAND_IN_CONTAINER_FAILED; ERR_COPY_FROM_CONTAINER_FAILED; ERR_COPY_INTO_CONTAINER_FAILED; ERR_INSPECT_CONTAINER_FAILED; ERR_GET_CONTAINER_LOGS_FAILED; ERR_UPDATE_CONTAINER_FAILED; ERR_CONTAINER_NOT_EXISTED]);
  (640, [ERR_NO_HOST_FOR_GATEWAY; ERR_START_GATEWAY_FAILED]);
  (650, [ERR_CREATE_META_TABLE_FAILED]);
  (660, [ERR_RPC_FAILED]);
  (690, [ERR_START_CRONTAB_IN_CONTAINER_FAILED]);
  (900, [ERR_CANCEL_OPERATION]);
  (999, [ERR_UNKNOWN])
].
Definition sections : list (Z * list ErrorCode) :=
  sections_db ++ sections_options ++ sections_configure ++ sections_common ++ sections_checker ++ sections_task.

Definition declared : list ErrorCode := concat (sections.*2).

(** The store after package initialisation: one [EC] per declaration. *)
Definition init_store : Store :=
  foldl (λ st e, (EC st (Code e) (Description e)).1) empty_store declared.

(** ** Facts about stores *)

Lemma objects_init_gen es st :
  Forall (λ e, Clue e = EmptyString) es →
  objects (foldl (λ st e, (EC st (Code e) (Description e)).1) st es) = objects st ++ es.
Proof.
  revert st; induction es as [|e es IH]; intros st; simpl.
  { by rewrite app_nil_r. }
  intros [He Hes]%Forall_cons. rewrite IH by done. simpl. rewrite <-(assoc_L (++)). simpl.
  destruct e as [c d cl]; simpl in *. by subst.
Qed.

Lemma elist_init_gen es st :
  elist (foldl (λ st e, (EC st (Code e) (Description e)).1) st es)
  = elist st ++ seq (length (objects st)) (length es).
Proof.
  revert st; induction es as [|e es IH]; intros st; simpl.
  { by rewrite app_nil_r. }
  rewrite IH. simpl. rewrite length_app. simpl.
  rewrite <-(assoc_L (++)). simpl. by rewrite Nat.add_1_r.
Qed.

Lemma declared_clean : Forall (λ e, Clue e = EmptyString) declared.
Proof. refine (bool_decide_unpack (Forall _ _) _). vm_compute. done. Qed.

Lemma clue_keeps_code c p (l : list ErrorCode) r :
  Code <$> alter (set_clue c) p l !! r = Code <$> l !! r.
Proof. rewrite list_lookup_alter. case_decide; subst; by destruct (l !! r). Qed.

Lemma clue_keeps_description c p (l : list ErrorCode) r :
  Description <$> alter (set_clue c) p l !! r = Description <$> l !! r.
Proof. rewrite list_lookup_alter. case_decide; subst; by destruct (l !! r). Qed.

(** Package initialisation registers every declared code, in source order,
    with an empty clue, and two registered pointers with the same code and the
    same description are the same pointer: comparing errors by pointer, as
    [errors.Is] does on this type, is comparing code and description. *)
Theorem registry_pointer_identity :
  objects init_store = declared ∧
  elist init_store = seq 0 (length declared) ∧
  ∀ p q, p ∈ elist init_store → q ∈ elist init_store →
    GetCode init_store p = GetCode init_store q →
    GetDescription init_store p = GetDescription init_store q → p = q.
Proof.
  assert (objects init_store = declared) as Hobj
    by (unfold init_store; by rewrite objects_init_gen by apply declared_clean).
  assert (elist init_store = seq 0 (length declared)) as Hel
    by (unfold init_store; by rewrite elist_init_gen).
  split; [done|]. split; [done|].
  unfold GetCode, GetDescription. rewrite Hel, Hobj.
  intros p q Hp%elem_of_seq Hq%elem_of_seq Hc Hd.
  assert (NoDup ((λ e, (Code e, Description e)) <$> declared)) as Hnd.
  { refine (bool_decide_unpack (NoDup _) _). vm_compute. done. }
  destruct (lookup_lt_is_Some_2 declared p) as [e He]; [lia|].
  destruct (lookup_lt_is_Some_2 declared q) as [e' He']; [lia|].
  rewrite He, He' in Hc, Hd. injection Hc as Hc. injection Hd as Hd.
  apply (NoDup_lookup _ p q (Code e, Description e) Hnd); rewrite list_lookup_fmap.
  - by rewrite He.
  - rewrite He'. by rewrite Hc, Hd.
Qed.

(** The codes are not unique: [List] reports exactly one duplicate, 210007,
    declared for the DingoDB role error and for the disk type error. *)
Theorem duplicate_codes :
  List_duplicates declared = [210007] ∧
  List_total declared = (length declared - 1)%nat ∧
  filter (λ e, Code e = 210007) declared
  = [ERR_UNSUPPORT_DINGODB_ROLE; ERR_INVALID_DISK_TYPE].
Proof. vm_compute. done. Qed.

(** The code of every declaration starts with the number of the section
    comment it stands under, with two exceptions: the volume block size error of
    section 221 has code 201009 and the JSON error of section 430 code 420004. *)
Theorem codes_follow_sections :
  filter (λ p : Z * ErrorCode, Code p.2 `div` 1000 ≠ p.1)
    (flat_map (λ '(s, es), map (λ e, (s, e)) es) sections)
  = [(221, ERR_VOLUME_BLOCKSIZE_MUST_END_WITH_BYTE_SUFFIX);
     (430, ERR_ENCODE_INFO_TO_JSON_FAILED)].
Proof. vm_compute. done. Qed.

(** The clue belongs to the shared object.  After two errors were built from
    pointers [p] and [q], the holder of [p] reads the clue of the second one when
    [p = q], and its own otherwise; codes, descriptions and the registry never
    change. *)
Theorem clue_last_writer (st : Store) (p q : nat) (c1 c2 : string) :
  (p < length (objects st))%nat →
  let st1 := (F_clue st p c1).1 in
  let st2 := (F_clue st1 q c2).1 in
  GetClue st2 p = Some (if decide (p = q) then c2 else c1) ∧
  elist st2 = elist st ∧
  ∀ r, GetCode st2 r = GetCode st r ∧ GetDescription st2 r = GetDescription st r.
Proof.
  intros Hp st1 st2. destruct (lookup_lt_is_Some_2 _ _ Hp) as [e He].
  unfold GetClue, GetCode, GetDescription, st2, st1, F_clue; simpl.
  split; [|split; [done|]].
  - case_decide as Hpq.
    + subst. rewrite !list_lookup_alter_eq, He. reflexivity.
    + rewrite list_lookup_alter_ne by done. rewrite list_lookup_alter_eq, He. reflexivity.
  - intros r. by rewrite !clue_keeps_code, !clue_keeps_description.
Qed.

Lemma clue_last_writer_witness :
  GetClue (F_clue (F_clue init_store 5 "a").1 5 "b").1 5 = Some "b"%string.
Proof.
  destruct (clue_last_writer init_store 5 5 "a" "b") as [H _].
  - vm_compute. lia.
  - exact H.
Defined.
