(* ===== verification/GoLib.v ===== *)
(** The parts of the Go language and standard library the modelled code uses:
    byte strings ([strings], [path]), number and boolean conversion ([strconv],
    the [%d] and [%02d] verbs) and the dynamically typed values of
    [interface{}].  Go strings are byte strings; they are modelled by [string],
    whose characters are bytes. *)

From S2P Require Import Prelude.
From stdpp Require Import pretty.
From Stdlib Require Import Ascii.

Declare Scope go_scope.
Delimit Scope go_scope with go.

(** * strings *)

(** [strings.HasPrefix] and [strings.TrimPrefix]. *)
Fixpoint strip_prefix (p s : string) : option string :=
  match p, s with
  | EmptyString, _ => Some s
  | String a p', String b s' => if decide (a = b) then strip_prefix p' s' else None
  | String _ _, EmptyString => None
  end.
Definition HasPrefix (s p : string) : bool :=
  match strip_prefix p s with Some _ => true | None => false end.
Definition TrimPrefix (s p : string) : string := default s (strip_prefix p s).

(** [strings.HasSuffix] and [strings.TrimSuffix]. *)
Fixpoint strip_suffix (s suf : string) : option string :=
  if decide (s = suf) then Some EmptyString else
  match s with
  | EmptyString => None
  | String a s' => String a <$> strip_suffix s' suf
  end.
Definition HasSuffix (s suf : string) : bool :=
  match strip_suffix s suf with Some _ => true | None => false end.
Definition TrimSuffix (s suf : string) : string := default s (strip_suffix s suf).

(** [strings.Contains]. *)
Fixpoint StrContains (s sub : string) : bool :=
  HasPrefix s sub || match s with EmptyString => false | String _ s' => StrContains s' sub end.

(** [strings.Split] with a one-byte separator: never empty. *)
Fixpoint Split (s : string) (sep : ascii) : list string :=
  match s with
  | EmptyString => [EmptyString]
  | String a s' =>
      if decide (a = sep) then EmptyString :: Split s' sep else
      match Split s' sep with
      | w :: ws => String a w :: ws
      | [] => [String a EmptyString]
      end
  end.

(** [strings.Join]. *)
Fixpoint Join (l : list string) (sep : string) : string :=
  match l with
  | [] => EmptyString
  | [w] => w
  | w :: ws => w +:+ sep +:+ Join ws sep
  end.

(** The UTF-8 encodings of the code points of [unicode.IsSpace]. *)
Definition byte (n : nat) : ascii := ascii_of_nat n.
Definition bytes (l : list nat) : string := foldr (λ n s, String (byte n) s) EmptyString l.
Definition space_encodings : list string :=
  bytes <$> ([[9]; [10]; [11]; [12]; [13]; [32]; [194; 133]; [194; 160]; [225; 154; 128];
   [226; 128; 168]; [226; 128; 169]; [226; 128; 175]; [226; 129; 159]; [227; 128; 128]]
   ++ ((λ n, [226; 128; n]) <$> seq 128 11)).

Fixpoint trim_with (strip : string → string → option string) (fuel : nat) (s : string)
    : string :=
  match fuel with
  | 0 => s
  | S fuel =>
      match omap (λ e, strip e s) space_encodings with
      | s' :: _ => trim_with strip fuel s'
      | [] => s
      end
  end.

(** [strings.TrimSpace]; the length of the string bounds the number of strips. *)
Definition TrimSpace (s : string) : string :=
  let l := trim_with strip_prefix (String.length s) s in
  trim_with (λ e s, strip_suffix s e) (String.length l) l.

(** [strings.ToLower] on ASCII letters (the keys it is applied to are ASCII). *)
Definition lower_byte (a : ascii) : ascii :=
  let n := nat_of_ascii a in
  if (65 <=? n) && (n <=? 90) then ascii_of_nat (n + 32) else a.
Fixpoint ToLower (s : string) : string :=
  match s with
  | EmptyString => EmptyString
  | String a s' => String (lower_byte a) (ToLower s')
  end.

(** Concatenation of a list of strings. *)
Definition sconcat (l : list string) : string := foldr String.app EmptyString l.

(** * path *)

Definition slash : ascii := "/"%char.

(** One component of [path.Clean] on the stack of kept components (innermost
    first). *)
Definition clean_step (rooted : bool) (stack : list string) (c : string) : list string :=
  if decide (c = "" ∨ c = ".") then stack else
  if decide (c = "..") then
    match stack with
    | top :: rest => if decide (top = "..") then c :: stack else rest
    | [] => if rooted then [] else [c]
    end
  else c :: stack.

Definition path_Clean (p : string) : string :=
  let rooted := HasPrefix p "/" in
  let body := Join (reverse (foldl (clean_step rooted) [] (Split p slash))) "/" in
  if rooted then "/" +:+ body else if decide (body = "") then "." else body.

Definition path_Join (elems : list string) : string :=
  let l := filter (λ e, e ≠ EmptyString) elems in
  match l with [] => EmptyString | _ => path_Clean (Join l "/") end.

(** * strconv *)

Definition Itoa (z : Z) : string := pretty z.
#[global] Arguments Itoa : simpl never.

Definition digit_of (a : ascii) : option Z :=
  let n := nat_of_ascii a in
  if (48 <=? n) && (n <=? 57) then Some (Z.of_nat (n - 48)) else None.

Fixpoint parse_digits (acc : Z) (s : string) : option Z :=
  match s with
  | EmptyString => Some acc
  | String a s' => d ← digit_of a; parse_digits (acc * 10 + d)%Z s'
  end.

Definition parse_unsigned (s : string) : option Z :=
  match s with EmptyString => None | _ => parse_digits 0 s end.

(** [strconv.Atoi]: an optional sign, decimal digits, the range of [int]. *)
Definition Atoi (s : string) : option Z :=
  z ← match s with
      | String "-" s' => Z.opp <$> parse_unsigned s'
      | String "+" s' => parse_unsigned s'
      | _ => parse_unsigned s
      end;
  if in_int64b z then Some z else None.

(** [strconv.ParseUint(s, 10, bits)]. *)
Definition ParseUint (bits : Z) (s : string) : option Z :=
  z ← parse_unsigned s; if (z <? 2 ^ bits)%Z then Some z else None.

(** [strconv.ParseBool] and [strconv.FormatBool]. *)
Definition ParseBool (s : string) : option bool :=
  if decide (s ∈ ["1"; "t"; "T"; "true"; "TRUE"; "True"]) then Some true else
  if decide (s ∈ ["0"; "f"; "F"; "false"; "FALSE"; "False"]) then Some false else None.
Definition FormatBool (b : bool) : string := if b then "true" else "false".

(** [fmt.Sprintf("%02d", n)]: zero padded to width two, the sign counted. *)
Definition pad2 (n : Z) : string :=
  let s := Itoa n in
  if String.length s <? 2 then "0" +:+ s else s.

(** * interface{} *)

(** The dynamic types the program stores in [interface{}] values.  [VFloat],
    [VInt64] and [VOther] stand for values it only passes along or rejects. *)
Inductive val : Type :=
| VNil
| VBool (b : bool)
| VString (s : string)
| VInt (z : Z)
| VInt64 (z : Z)
| VFloat (text : string)
| VStrings (l : list string)
| VSlice (l : list val)
| VMap (m : gmap string val)
| VOther (tag : string).

#[export] Instance val_eq_dec : EqDecision val.
Proof.
  refine (fix go (x y : val) : Decision (x = y) :=
    let _ : EqDecision val := @go in
    match x, y with
    | VNil, VNil => left eq_refl
    | VBool a, VBool b => cast_if (decide (a = b))
    | VString a, VString b => cast_if (decide (a = b))
    | VInt a, VInt b => cast_if (decide (a = b))
    | VInt64 a, VInt64 b => cast_if (decide (a = b))
    | VFloat a, VFloat b => cast_if (decide (a = b))
    | VStrings a, VStrings b => cast_if (decide (a = b))
    | VSlice a, VSlice b => cast_if (decide (a = b))
    | VMap a, VMap b => cast_if (decide (a = b))
    | VOther a, VOther b => cast_if (decide (a = b))
    | _, _ => right _
    end); repeat match goal with r : EqDecision val |- _ => clear r end; clear go;
    abstract congruence.
Defined.

(** Size of a value: the measure behind [val_ind_nested]. *)
Fixpoint val_size (v : val) : nat :=
  match v with
  | VSlice l => S (foldr (λ x n, val_size x + n) 0 l)
  | VMap m => S (map_fold (λ _ x n, val_size x + n) 0 m)
  | _ => 1
  end.

Lemma val_size_map (m : gmap string val) k x :
  m !! k = Some x → val_size x < val_size (VMap m).
Proof.
  intros Hk. simpl. rewrite <-(insert_delete_id m k x) by done.
  rewrite map_fold_insert_L; [lia | | by rewrite lookup_delete_eq].
  intros. lia.
Qed.

Lemma val_size_slice (l : list val) x : x ∈ l → val_size x < val_size (VSlice l).
Proof.
  intros Hx. simpl. induction l as [|y l IH]; simpl; [by apply elem_of_nil in Hx|].
  apply elem_of_cons in Hx as [->|Hx]; [lia|]. specialize (IH Hx). lia.
Qed.

(** Induction on values, going through nested maps. *)
Lemma val_ind_nested (P : val → Prop) :
  (∀ v, (∀ m, v ≠ VMap m) → P v) →
  (∀ m, map_Forall (λ _, P) m → P (VMap m)) → ∀ v, P v.
Proof.
  intros Hbase Hmap v.
  remember (val_size v) as n eqn:Hn. revert v Hn.
  induction (Nat.lt_wf_0 n) as [n _ IH]. intros v ->.
  destruct v; try (apply Hbase; discriminate).
  apply Hmap. intros k x Hk. eapply IH; [|done]. by eapply val_size_map.
Qed.

(** Failed and successful type assertions [v.(string)], [v.(int)], [v.(bool)],
    [v.(map[string]interface{})]. *)
Definition assert_string {E} (v : val) : res E string :=
  match v with VString s => Ok s | _ => Panic end.
Definition assert_int {E} (v : val) : res E Z :=
  match v with VInt z => Ok z | _ => Panic end.
Definition assert_bool {E} (v : val) : res E bool :=
  match v with VBool b => Ok b | _ => Panic end.
Definition assert_map {E} (v : val) : res E (gmap string val) :=
  match v with VMap m => Ok m | _ => Panic end.
Definition assert_strings {E} (v : val) : res E (list string) :=
  match v with VStrings l => Ok l | _ => Panic end.

(** [v == nil]; a missing map entry reads as [nil]. *)
Definition is_nil (v : val) : bool := match v with VNil => true | _ => false end.
Definition map_get (m : gmap string val) (k : string) : val := default VNil (m !! k).

(** * Lemmas *)

Lemma app_nil_r_string s : s +:+ "" = s.
Proof. induction s as [|a s IH]; simpl; [done|]. by f_equal. Qed.

Lemma app_assoc_string s1 s2 s3 : (s1 +:+ s2) +:+ s3 = s1 +:+ (s2 +:+ s3).
Proof. induction s1 as [|a s1 IH]; simpl; [done|]. by f_equal. Qed.

Lemma length_app_string s1 s2 :
  String.length (s1 +:+ s2) = String.length s1 + String.length s2.
Proof. induction s1; simpl; auto. Qed.

Lemma sconcat_cons w l : sconcat (w :: l) = w +:+ sconcat l.
Proof. done. Qed.

Lemma sconcat_app l1 l2 : sconcat (l1 ++ l2) = sconcat l1 +:+ sconcat l2.
Proof.
  induction l1 as [|w l1 IH]; simpl; [done|]. by rewrite IH, app_assoc_string.
Qed.

Lemma strip_prefix_Some p s r : strip_prefix p s = Some r ↔ s = p +:+ r.
Proof.
  revert s; induction p as [|a p IH]; intros [|b s]; simpl; try naive_solver.
  case_decide; subst; [rewrite IH|]; naive_solver.
Qed.

Lemma strip_suffix_Some s suf r : strip_suffix s suf = Some r ↔ s = r +:+ suf.
Proof.
  revert r; induction s as [|a s IH]; intros r; simpl.
  - case_decide as H; subst.
    + destruct r; simpl; naive_solver.
    + split; [done|]. destruct r; simpl; naive_solver.
  - case_decide as H; subst.
    + split; [by intros [= <-]|].
      destruct r as [|b r]; simpl; [done|]. intros Hr.
      apply (f_equal String.length) in Hr. simpl in Hr.
      rewrite length_app_string in Hr. simpl in Hr. lia.
    + destruct r as [|b r]; simpl.
      * split; [|done]. by destruct (strip_suffix s suf).
      * rewrite fmap_Some. setoid_rewrite IH. naive_solver.
Qed.

Lemma HasPrefix_spec s p : HasPrefix s p = true ↔ ∃ r, s = p +:+ r.
Proof.
  unfold HasPrefix. destruct (strip_prefix p s) as [r|] eqn:H.
  - apply strip_prefix_Some in H. naive_solver.
  - split; [done|]. intros [r Hr%strip_prefix_Some]. congruence.
Qed.

Lemma HasSuffix_spec s suf : HasSuffix s suf = true ↔ ∃ r, s = r +:+ suf.
Proof.
  unfold HasSuffix. destruct (strip_suffix s suf) as [r|] eqn:H.
  - apply strip_suffix_Some in H. naive_solver.
  - split; [done|]. intros [r Hr%strip_suffix_Some]. congruence.
Qed.

(** Joining what [Split] produced gives the string back. *)
Lemma Join_Split s sep : Join (Split s sep) (String sep EmptyString) = s.
Proof.
  induction s as [|a s IH]; simpl; [done|].
  destruct (Split s sep) as [|w ws] eqn:Hs.
  { destruct s; simpl in Hs; [done|]. repeat case_match; done. }
  destruct (decide (a = sep)) as [->|_].
  - rewrite <-IH. done.
  - rewrite <-IH. by destruct ws.
Qed.

(** ** Decimal numbers *)

Lemma digit_of_pretty_char x :
  (x < 10)%N → digit_of (pretty_N_char x) = Some (Z.of_N x).
Proof.
  intros Hx. unfold pretty_N_char.
  destruct x as [|[[[p|p|]|[p|p|]|]|[[p|p|]|[p|p|]|]|]]; try reflexivity; try lia.
  all: destruct p; try lia; reflexivity.
Qed.

(** Scanning the digits [pretty] prints gives the number, before any suffix. *)
Lemma parse_digits_pretty_go (x : N) acc s :
  (0 < x)%N → ∃ k : Z, (0 ≤ k)%Z ∧
  parse_digits acc (pretty_N_go x s) = parse_digits (acc * k + Z.of_N x) s.
Proof.
  revert s acc. induction (N.lt_wf_0 x) as [x _ IH]. intros s acc Hx.
  rewrite pretty_N_go_step by done.
  destruct (decide (x < 10)%N) as [Hsm|Hbig].
  - rewrite (N.div_small x 10), (N.mod_small x 10), pretty_N_go_0 by done.
    exists 10%Z. split; [lia|]. simpl. by rewrite digit_of_pretty_char.
  - assert (x mod 10 < 10)%N as Hmod by (apply N.mod_lt; lia).
    destruct (IH (x / 10)%N) with (s := String (pretty_N_char (x mod 10)) s) (acc := acc)
      as (k & Hk & ->).
    { apply N.div_lt; lia. }
    { apply N.div_str_pos. lia. }
    exists (k * 10)%Z. split; [lia|]. simpl.
    rewrite digit_of_pretty_char by done. simpl. f_equal.
    rewrite N2Z.inj_mod, N2Z.inj_div.
    pose proof (Z.div_mod (Z.of_N x) 10). lia.
Qed.

Lemma parse_unsigned_pretty (x : N) : parse_unsigned (pretty x) = Some (Z.of_N x).
Proof.
  unfold pretty, pretty_N. case_decide as Hx; [by subst|].
  destruct (parse_digits_pretty_go x 0 "") as (k & _ & H); [lia|].
  assert (pretty_N_go x "" ≠ "") as Hne.
  { rewrite pretty_N_go_step by lia. intros Hc.
    assert (∀ y s, s ≠ "" → pretty_N_go y s ≠ "") as Hgen.
    { clear. intros y. induction (N.lt_wf_0 y) as [y _ IH]. intros s Hs.
      destruct (decide (y = 0)%N) as [->|]; [by rewrite pretty_N_go_0|].
      rewrite pretty_N_go_step by lia. apply IH; [apply N.div_lt; lia|done]. }
    by eapply Hgen in Hc. }
  unfold parse_unsigned. destruct (pretty_N_go x "") eqn:E; [done|].
  rewrite H. simpl. done.
Qed.

Lemma pretty_N_not_sign (x : N) a s : pretty x = String a s → digit_of a ≠ None.
Proof.
  intros Hx Ha. pose proof (parse_unsigned_pretty x) as H. rewrite Hx in H.
  simpl in H. by rewrite Ha in H.
Qed.

Lemma Atoi_unsigned s z :
  parse_unsigned s = Some z → (∀ a s', s = String a s' → digit_of a ≠ None) →
  Atoi s = if in_int64b z then Some z else None.
Proof.
  intros Hp Hd. unfold Atoi. destruct s as [|a s']; [done|].
  assert (digit_of a ≠ None) as Ha by by eapply Hd.
  destruct (decide (a = "-"%char)) as [->|]; [done|].
  destruct (decide (a = "+"%char)) as [->|]; [done|].
  assert (match a with "-"%char => Z.opp <$> parse_unsigned s'
          | "+"%char => parse_unsigned s' | _ => parse_unsigned (String a s') end
          = parse_unsigned (String a s')) as Hm.
  { destruct a as [[] [] [] [] [] [] [] []]; done. }
  by rewrite Hm, Hp.
Qed.

(** Printing and parsing an [int]: [Atoi] inverts [Itoa] on the 64-bit range and
    rejects everything outside it. *)
Lemma Atoi_Itoa z : Atoi (Itoa z) = if in_int64b z then Some z else None.
Proof.
  unfold Itoa. destruct z as [|p|p].
  - done.
  - change (pretty (Zpos p)) with (pretty (Npos p)).
    apply (Atoi_unsigned _ (Zpos p)).
    + by rewrite parse_unsigned_pretty.
    + intros a s' Hs. by apply pretty_N_not_sign in Hs.
  - change (pretty (Zneg p)) with ("-" +:+ pretty (Npos p)).
    unfold Atoi. simpl. by rewrite parse_unsigned_pretty.
Qed.

Lemma Atoi_in_range s z : Atoi s = Some z → in_int64 z.
Proof.
  unfold Atoi. intros (z' & _ & H)%bind_Some.
  destruct (in_int64b z') eqn:E; [|done]. injection H as <-. by apply in_int64b_spec.
Qed.

Lemma Itoa_ne_empty z : Itoa z ≠ "".
Proof.
  intros Hz. unfold Itoa in Hz. destruct z as [|p|p]; try done.
  change (pretty (Zpos p)) with (pretty (Npos p)) in Hz.
  pose proof (parse_unsigned_pretty (Npos p)) as H. by rewrite Hz in H.
Qed.

Lemma Itoa_inj z1 z2 : Itoa z1 = Itoa z2 → z1 = z2.
Proof. apply (inj pretty). Qed.

Lemma ParseBool_FormatBool b : ParseBool (FormatBool b) = Some b.
Proof. by destruct b. Qed.

#[export] Hint Rewrite Atoi_Itoa ParseBool_FormatBool app_nil_r_string : godb.
