(* ===== verification/SafeMap.v ===== *)
(** The shared map of a command and the goroutines that use it (src/internal/utils/map.go).

    [SafeMap] has a read-write lock and a flag that says that a transaction is open; [Get]
    and [Set] go past the lock while it is set.  The values kept in the map are maps
    themselves, shared by reference: they live in a heap.  A goroutine is a program of
    such calls; [tstep] is one atomic action of it, and a system of goroutines
    interleaves them.  A reader of the flag or of the map without the lock is a data race
    in Go; here it sees the value of that moment. *)

From S2P Require Import Prelude Errno GoLib.

Section SafeMap.
Context {V : Type}.

Record SafeMap : Type := mkSafeMap {
  wlocked : bool; readers : nat (* the RWMutex *);
  Map : gmap string nat;
  transaction : bool;
}.
Definition NewSafeMap : SafeMap := mkSafeMap false 0 ∅ false.

(** The map and the objects its values point to. *)
Record World : Type := mkWorld { sm : SafeMap; heap : list (gmap string V) }.

(** What a goroutine does: read a key, allocate a map, store an entry of a map, write a
    key, run a callback in a transaction. *)
Inductive cmd : Type :=
| Done
| Get (k : string) (f : option nat → cmd)
| New (f : nat → cmd)
| Put (l : nat) (id : string) (v : V) (c : cmd)
| Set_ (k : string) (l : nat) (c : cmd)
| TX (callback : cmd) (c : cmd).

(** Where a goroutine is inside a call. *)
Inductive pc : Type :=
| Run (c : cmd)
| GetDirect (k : string) (f : option nat → cmd)
| GetLock (k : string) (f : option nat → cmd)
| GetRead (k : string) (f : option nat → cmd)
| GetUnlock (o : option nat) (f : option nat → cmd)
| SetDirect (k : string) (l : nat) (c : cmd)
| SetLock (k : string) (l : nat) (c : cmd)
| SetWrite (k : string) (l : nat) (c : cmd)
| SetUnlock (c : cmd)
| TxLock (callback c : cmd)
| TxBegin (callback c : cmd)
| InTx (p : pc) (c : cmd)
| TxUnlock (c : cmd).

Definition with_lock (w : World) (b : bool) (n : nat) : World :=
  mkWorld (mkSafeMap b n (Map (sm w)) (transaction (sm w))) (heap w).
Definition with_tx (w : World) (b : bool) : World :=
  mkWorld (mkSafeMap (wlocked (sm w)) (readers (sm w)) (Map (sm w)) b) (heap w).
Definition with_key (w : World) (k : string) (l : nat) : World :=
  mkWorld (mkSafeMap (wlocked (sm w)) (readers (sm w)) (<[k := l]> (Map (sm w))) (transaction (sm w)))
    (heap w).
Definition with_heap (w : World) (h : list (gmap string V)) : World := mkWorld (sm w) h.

(** One action of a goroutine; [None] when it is done or waits for the lock. *)
Fixpoint tstep (w : World) (p : pc) : option (World * pc) :=
  let free := negb (wlocked (sm w)) && (readers (sm w) =? 0) in
  match p with
  | Run Done => None
  | Run (Get k f) => Some (w, if transaction (sm w) then GetDirect k f else GetLock k f)
  | Run (New f) => Some (with_heap w (heap w ++ [∅]), Run (f (length (heap w))))
  | Run (Put l id v c) => Some (with_heap w (alter (insert id v) l (heap w)), Run c)
  | Run (Set_ k l c) => Some (w, if transaction (sm w) then SetDirect k l c else SetLock k l c)
  | Run (TX b c) => Some (w, TxLock b c)
  | GetDirect k f => Some (w, Run (f (Map (sm w) !! k)))
  | GetLock k f => if wlocked (sm w) then None
                   else Some (with_lock w false (S (readers (sm w))), GetRead k f)
  | GetRead k f => Some (w, GetUnlock (Map (sm w) !! k) f)
  | GetUnlock o f => Some (with_lock w (wlocked (sm w)) (readers (sm w) - 1), Run (f o))
  | SetDirect k l c => Some (with_key w k l, Run c)
  | SetLock k l c => if free then Some (with_lock w true 0, SetWrite k l c) else None
  | SetWrite k l c => Some (with_key w k l, SetUnlock c)
  | SetUnlock c => Some (with_lock w false (readers (sm w)), Run c)
  | TxLock b c => if free then Some (with_lock w true 0, TxBegin b c) else None
  | TxBegin b c => Some (with_tx w true, InTx (Run b) c)
  | InTx (Run Done) c => Some (with_tx w false, TxUnlock c)
  | InTx p c => '(w', p') ← tstep w p; Some (w', InTx p' c)
  | TxUnlock c => Some (with_lock w false (readers (sm w)), Run c)
  end.

(** A system of goroutines; the scheduler picks the one that moves. *)
Definition sys : Type := World * list pc.
Definition sstep (i : nat) (s : sys) : option sys :=
  p ← s.2 !! i;
  '(w', p') ← tstep s.1 p;
  Some (w', <[i := p']> s.2).
Definition step (s s' : sys) : Prop := ∃ i, sstep i s = Some s'.
Fixpoint schedule (is_ : list nat) (s : sys) : option sys :=
  match is_ with [] => Some s | i :: is_ => s' ← sstep i s; schedule is_ s' end.

Definition start (w : World) (cs : list cmd) : sys := (w, Run <$> cs).
Definition all_done (s : sys) : Prop := Forall (λ p, p = Run Done) s.2.

(** What a key holds. *)
Definition read (k : string) (w : World) : gmap string V :=
  match Map (sm w) !! k with Some l => default ∅ (heap w !! l) | None => ∅ end.

(** [setServiceStatus], [setClientStatus] and [setMonitorStatus]: the callback allocates a
    map, takes the one of the key if there is one, and stores the status. *)
Definition record (k id : string) (v : V) : cmd :=
  New (λ m, Get k (λ o, let m := default m o in Put m id v (Set_ k m Done))).
Definition setStatus (k : string) (e : string * V) : cmd := TX (record k e.1 e.2) Done.

(** [newIfNil] and the end of [step2Post]: the same calls outside a transaction. *)
Definition setHostDate (k : string) (e : string * V) : cmd :=
  Get k (λ o, match o with
              | Some m => Put m e.1 e.2 (Set_ k m Done)
              | None => New (λ m, Put m e.1 e.2 (Set_ k m Done))
              end).
End SafeMap.
Arguments World : clear implicits.
Arguments cmd : clear implicits.
Arguments pc : clear implicits.
Arguments sys : clear implicits.

(** ** Transactions *)

Section transactions.
Context {V : Type}.

(** The data of a world, and what a callback does to it when nobody interferes. *)
Definition data : Type := gmap string nat * list (gmap string V).
Definition data_of (w : World V) : data := (Map (sm w), heap w).
Fixpoint bexec (c : cmd V) (d : data) : data :=
  match c with
  | Done | TX _ _ => d
  | Get k f => bexec (f (d.1 !! k)) d
  | New f => bexec (f (length d.2)) (d.1, d.2 ++ [∅])
  | Put l id v c => bexec c (d.1, alter (insert id v) l d.2)
  | Set_ k l c => bexec c (<[k := l]> d.1, d.2)
  end.

(** Callbacks without transactions inside that take at most [n] actions. *)
Fixpoint cost (c : cmd V) (n : nat) : Prop :=
  match c with
  | Done => True
  | Get k f => 2 ≤ n ∧ ∀ o, cost (f o) (n - 2)
  | New f => 1 ≤ n ∧ ∀ l, cost (f l) (n - 1)
  | Put l id v c => 1 ≤ n ∧ cost c (n - 1)
  | Set_ k l c => 2 ≤ n ∧ cost c (n - 2)
  | TX _ _ => False
  end.

(** The positions inside a callback: the bound on what is left, and its effect. *)
Definition inner (p : pc V) (n : nat) : Prop :=
  match p with
  | Run c => cost c n
  | GetDirect k f => 1 ≤ n ∧ ∀ o, cost (f o) (n - 1)
  | SetDirect k l c => 1 ≤ n ∧ cost c (n - 1)
  | _ => False
  end.
Definition fin (p : pc V) (d : data) : data :=
  match p with
  | Run c => bexec c d
  | GetDirect k f => bexec (f (d.1 !! k)) d
  | SetDirect k l c => bexec c (<[k := l]> d.1, d.2)
  | _ => d
  end.

(** A goroutine that only runs transactions: its position, the callbacks it has not
    finished, and a bound on its actions. *)
Definition thread : Type := pc V * list (cmd V) * nat.

Inductive idle : thread → Prop :=
| idle_done : idle (Run Done, [], 0)
| idle_run b k c bs n : cost b k → idle (Run c, bs, n) → idle (Run (TX b c), b :: bs, k + 5 + n)
| idle_wait b k c bs n : cost b k → idle (Run c, bs, n) → idle (TxLock b c, b :: bs, k + 4 + n).

(** The goroutine that holds the lock, with the data [d0] it found. *)
Inductive holds (w : World V) (d0 : data) : thread → Prop :=
| holds_begin b k c bs n :
    cost b k → idle (Run c, bs, n) → transaction (sm w) = false → data_of w = d0 →
    holds w d0 (TxBegin b c, b :: bs, k + 3 + n)
| holds_in p k b c bs n :
    inner p k → idle (Run c, bs, n) → transaction (sm w) = true → fin p (data_of w) = bexec b d0 →
    holds w d0 (InTx p c, b :: bs, k + 2 + n)
| holds_end c bs n :
    idle (Run c, bs, n) → transaction (sm w) = false → data_of w = d0 →
    holds w d0 (TxUnlock c, bs, 1 + n).

(** The states of such a system: [hist] are the callbacks that finished, in the order in
    which they had the lock. *)
Inductive inv (d : data) (hist : list (cmd V)) : sys V → list thread → Prop :=
| inv_free w ts :
    readers (sm w) = 0 → wlocked (sm w) = false → transaction (sm w) = false →
    data_of w = foldl (λ d c, bexec c d) d hist → Forall idle ts →
    inv d hist (w, (λ t, t.1.1) <$> ts) ts
| inv_held w l t r :
    readers (sm w) = 0 → wlocked (sm w) = true → Forall idle l → Forall idle r →
    holds w (foldl (λ d c, bexec c d) d hist) t →
    inv d hist (w, (λ t, t.1.1) <$> l ++ t :: r) (l ++ t :: r).

Definition todo (ts : list thread) : list (cmd V) := concat ((λ t, t.1.2) <$> ts).
Definition bound (ts : list thread) : nat := sum_list_with snd ts.

(** *** One action *)

Lemma idle_step w p bs n w' p' :
  idle (p, bs, n) → readers (sm w) = 0 → transaction (sm w) = false →
  tstep w p = Some (w', p') →
  ∃ n', n' < n ∧
    ((w' = w ∧ idle (p', bs, n')) ∨
     (wlocked (sm w) = false ∧ w' = with_lock w true 0 ∧ holds w' (data_of w) (p', bs, n'))).
Proof.
  intros Hi Hr Ht. inversion Hi; subst; simpl; [done|..].
  - intros [= <- <-]. exists (k + 4 + n0). split; [lia|]. left. split; [done|]. by constructor.
  - destruct (wlocked (sm w)) eqn:Hl; simpl; [done|]. rewrite Hr. simpl. intros [= <- <-].
    exists (k + 3 + n0). split; [lia|]. right. split_and!; [done..|]. by constructor.
Qed.

(** An idle goroutine only waits while another one holds the lock. *)
Lemma idle_step_held w p bs n w' p' :
  idle (p, bs, n) → wlocked (sm w) = true → tstep w p = Some (w', p') →
  w' = w ∧ ∃ n', n' < n ∧ idle (p', bs, n').
Proof.
  intros Hi Hl. inversion Hi; subst; simpl; [done|..].
  - intros [= <- <-]. split; [done|]. exists (k + 4 + n0). split; [lia|]. by constructor.
  - rewrite Hl. done.
Qed.

Lemma inner_step w p k w' p' :
  inner p k → transaction (sm w) = true → p ≠ Run Done → tstep w p = Some (w', p') →
  ∃ k', k' < k ∧ inner p' k' ∧ fin p' (data_of w') = fin p (data_of w) ∧
    readers (sm w') = readers (sm w) ∧ wlocked (sm w') = wlocked (sm w) ∧ transaction (sm w') = true.
Proof.
  intros Hi Ht Hne. destruct p as [[| | | | |]| | | | | | | | | | | |]; simpl in *; try done; rewrite ?Ht.
  - intros [= <- <-]. exists (k - 1). destruct Hi as [? Hc]. split_and!; simpl; try done; try lia.
    split; [lia|]. intros o. by replace (k - 1 - 1) with (k - 2) by lia.
  - intros [= <- <-]. exists (k - 1). destruct Hi as [? Hc]. split_and!; simpl; auto; lia.
  - intros [= <- <-]. exists (k - 1). destruct Hi as [? Hc]. split_and!; simpl; auto; lia.
  - intros [= <- <-]. exists (k - 1). destruct Hi as [? Hc]. split_and!; simpl; try done; try lia.
    split; [lia|]. by replace (k - 1 - 1) with (k - 2) by lia.
  - intros [= <- <-]. exists (k - 1). destruct Hi as [? Hc]. split_and!; simpl; auto; lia.
  - intros [= <- <-]. exists (k - 1). destruct Hi as [? Hc]. split_and!; simpl; auto; lia.
Qed.

Lemma inner_moves w p k : inner p k → p ≠ Run Done → transaction (sm w) = true → is_Some (tstep w p).
Proof. intros Hi Hne Ht. destruct p as [[]| | | | | | | | | | | |]; simpl in *; eauto; done. Qed.

Lemma tstep_InTx (w : World V) (p : pc V) c :
  p ≠ Run Done → tstep w (InTx p c) = ('(w', p') ← tstep w p; Some (w', InTx p' c)).
Proof. destruct p as [[]| | | | | | | | | | | |]; done. Qed.

(** An action of the goroutine with the lock: it goes on, its callback has finished, or it
    gives the lock back. *)
Lemma holds_step w d0 p bs n w' p' :
  holds w d0 (p, bs, n) → readers (sm w) = 0 → wlocked (sm w) = true →
  tstep w p = Some (w', p') →
  ∃ n', n' < n ∧ readers (sm w') = 0 ∧
    ((wlocked (sm w') = true ∧ holds w' d0 (p', bs, n')) ∨
     (wlocked (sm w') = true ∧ ∃ b bs', bs = b :: bs' ∧ holds w' (bexec b d0) (p', bs', n')) ∨
     (wlocked (sm w') = false ∧ transaction (sm w') = false ∧ data_of w' = d0 ∧ idle (p', bs, n'))).
Proof.
  intros Hh Hr Hl. inversion Hh as [b k c bs0 n0 Hc Hi Ht Hd|q k b c bs0 n0 Hq Hi Ht Hd|c bs0 n0 Hi Ht Hd]; subst.
  - simpl. intros [= <- <-]. exists (k + 2 + n0). split; [lia|]. split; [done|]. left.
    split; [done|]. by constructor.
  - destruct q as [[|k' f|f|l id v c'|k' l c'|b' c']| | | | | | | | | | | |] eqn:Hq';
      try (exfalso; exact Hq).
    { simpl. intros [= <- <-]. exists (1 + n0). split; [lia|]. split; [done|]. right. left.
      split; [done|]. exists b, bs0. split; [done|]. by constructor. }
    all: rewrite tstep_InTx by done; intros ([w1 p1] & Hs & [= <- <-])%bind_Some;
      eapply inner_step in Hs as (k1 & Hk & Hi' & Hf & Hr' & Hl' & Ht'); [|done..];
      exists (k1 + 2 + n0); split; [lia|]; split; [congruence|]; left;
      (split; [congruence|]); constructor; [done..|]; by rewrite Hf.
  - simpl. intros [= <- <-]. exists n0. split; [lia|]. split; [done|]. right. right. done.
Qed.
(** *** One action of the system *)

Definition pcs (ts : list thread) : list (pc V) := (λ t, t.1.1) <$> ts.

Lemma lookup_pcs ts i p :
  pcs ts !! i = Some p → ∃ bs n l r, ts = l ++ (p, bs, n) :: r ∧ i = length l.
Proof.
  intros (((p' & bs) & n) & -> & Ht)%list_lookup_fmap_Some.
  apply list_elem_of_split_length in Ht as (l & r & -> & ->). eauto 6.
Qed.

Lemma insert_pcs l r p bs n q bs' n' :
  <[length l := q]> (pcs (l ++ (p, bs, n) :: r)) = pcs (l ++ (q, bs', n') :: r).
Proof.
  unfold pcs. rewrite !fmap_app, !fmap_cons. simpl.
  assert (length l = length ((λ t : thread, t.1.1) <$> l)) as -> by by rewrite length_fmap.
  rewrite insert_app_r_alt by done. by rewrite Nat.sub_diag.
Qed.

Lemma todo_app l r : todo (l ++ r) = todo l ++ todo r.
Proof. unfold todo. by rewrite fmap_app, concat_app. Qed.
Lemma bound_app l r : bound (l ++ r) = bound l + bound r.
Proof. unfold bound. by rewrite sum_list_with_app. Qed.

(** Two lists with a common element are cut at the same place, or one before the other. *)
Lemma cut {A} (l1 r1 l2 r2 : list A) x y :
  l1 ++ x :: r1 = l2 ++ y :: r2 →
  (l1 = l2 ∧ x = y ∧ r1 = r2) ∨
  (∃ m, l2 = l1 ++ x :: m ∧ r1 = m ++ y :: r2) ∨
  (∃ m, l1 = l2 ++ y :: m ∧ r2 = m ++ x :: r1).
Proof.
  revert l2; induction l1 as [|a l1 IH]; intros [|b l2]; simpl; intros [= -> H].
  - auto.
  - right. left. eauto.
  - right. right. eauto.
  - destruct (IH _ H) as [(-> & -> & ->)|[(m & -> & ->)|(m & -> & ->)]]; [auto| |].
    + right. left. eauto.
    + right. right. eauto.
Qed.

Lemma inv_step d hist s ts i s' :
  inv d hist s ts → sstep i s = Some s' →
  ∃ hist' ts', inv d hist' s' ts' ∧ hist' ++ todo ts' ≡ₚ hist ++ todo ts ∧ bound ts' < bound ts.
Proof.
  intros Hinv (p & Hp & ([w' p'] & Hs & [= <-])%bind_Some)%bind_Some.
  destruct Hinv as [w ts Hr Hl Ht Hd Hts|w l t r Hr Hl Hidl Hidr Hh]; simpl in *;
    apply lookup_pcs in Hp as (bs & n & l' & r' & Heq & ->).
  - subst ts. apply Forall_app in Hts as [Hl' [Hi Hr']%Forall_cons].
    destruct (idle_step _ _ _ _ _ _ Hi Hr Ht Hs) as (n' & Hn & [[-> Hi']|(_ & -> & Hh)]);
      exists hist, (l' ++ (p', bs, n') :: r');
      rewrite (insert_pcs _ _ _ _ _ _ bs n'), !todo_app, !bound_app; unfold todo, bound; simpl;
      (split; [|split; [done|lia]]).
    + apply inv_free; try done. by apply Forall_app; split; [|constructor].
    + apply inv_held; try done. by rewrite <-Hd.
  - destruct (cut _ _ _ _ _ _ Heq) as [(-> & -> & ->)|[(m & -> & ->)|(m & -> & ->)]].
    + destruct (holds_step _ _ _ _ _ _ _ Hh Hr Hl Hs)
        as (n' & Hn & Hr' & [[Hl' Hh']|[(Hl' & b & bs' & -> & Hh')|(Hl' & Ht' & Hd' & Hi')]]).
      * exists hist, (l' ++ (p', bs, n') :: r').
        rewrite (insert_pcs _ _ _ _ _ _ bs n'), !todo_app, !bound_app. unfold todo, bound. simpl.
        split; [by apply inv_held|split; [done|lia]].
      * exists (hist ++ [b]), (l' ++ (p', bs', n') :: r').
        rewrite (insert_pcs _ _ _ _ _ _ bs' n'), !todo_app, !bound_app. unfold todo, bound. simpl.
        split; [apply inv_held; try done; by rewrite foldl_snoc|split; [|lia]]. solve_Permutation.
      * exists hist, (l' ++ (p', bs, n') :: r').
        rewrite (insert_pcs _ _ _ _ _ _ bs n'), !todo_app, !bound_app. unfold todo, bound. simpl.
        split; [|split; [done|lia]]. apply inv_free; try done. by apply Forall_app; split; [|constructor].
    + rewrite Heq. apply Forall_app in Hidr as [Hm [Hi Hr']%Forall_cons].
      destruct (idle_step_held _ _ _ _ _ _ Hi Hl Hs) as (-> & n' & Hn & Hi').
      exists hist, ((l ++ t :: m) ++ (p', bs, n') :: r').
      rewrite (insert_pcs _ _ _ _ _ _ bs n'), !todo_app, !bound_app. unfold todo, bound. simpl.
      split; [|split; [done|lia]]. rewrite <-!app_assoc.
      apply (inv_held _ _ w l t (m ++ (p', bs, n') :: r')); try done.
      by apply Forall_app; split; [|constructor].
    + apply Forall_app in Hidl as [Hl' [Hi Hm]%Forall_cons].
      destruct (idle_step_held _ _ _ _ _ _ Hi Hl Hs) as (-> & n' & Hn & Hi').
      rewrite <-app_assoc. simpl. exists hist, (l' ++ (p', bs, n') :: m ++ t :: r).
      rewrite (insert_pcs _ _ _ _ _ _ bs n'), !todo_app, !bound_app. unfold todo, bound. simpl.
      split; [|split; [done|lia]].
      change (l' ++ (p', bs, n') :: m ++ t :: r) with (l' ++ ((p', bs, n') :: m) ++ t :: r).
      rewrite app_assoc. apply (inv_held _ _ w (l' ++ (p', bs, n') :: m) t r); try done.
      by apply Forall_app; split; [|constructor].
Qed.
(** *** Runs *)

Lemma pcs_lookup l p bs n r : pcs (l ++ (p, bs, n) :: r) !! length l = Some p.
Proof.
  unfold pcs. rewrite fmap_app, fmap_cons, list_lookup_middle; [done|]. by rewrite length_fmap.
Qed.

#[local] Instance is_done_dec (p : pc V) : Decision (p = Run Done).
Proof. destruct p as [[]| | | | | | | | | | | |]; first [left; reflexivity|right; discriminate]. Defined.
#[local] Instance all_done_dec (s : sys V) : Decision (all_done s).
Proof. unfold all_done. apply _. Defined.

(** Some goroutine can move until all are done. *)
Lemma inv_progress d hist s ts :
  inv d hist s ts → ¬ all_done s → ∃ i, is_Some (sstep i s).
Proof.
  intros Hinv Hnd.
  assert (∀ w l p bs n r, is_Some (tstep w p) → ∃ i, is_Some (sstep i (w, pcs (l ++ (p, bs, n) :: r)))) as Hmove.
  { intros w l p bs n r [[w' p'] Hs]. exists (length l). unfold sstep. cbn [snd fst].
    rewrite pcs_lookup. simpl. rewrite Hs. eauto. }
  destruct Hinv as [w ts Hr Hl Ht Hd Hts|w l [[p bs] n] r Hr Hl Hidl Hidr Hh].
  - assert (¬ Forall (λ t : thread, t.1.1 = Run Done) ts) as Hex.
    { intros Hf. apply Hnd. unfold all_done. simpl. by apply Forall_fmap. }
    apply not_Forall_Exists in Hex; [|apply _].
    apply Exists_exists in Hex as ([[p bs] n] & Hin & Hne). apply list_elem_of_split in Hin as (l & r & ->).
    apply Forall_app in Hts as [_ [Hi _]%Forall_cons]. apply Hmove.
    inversion Hi; subst; simpl in *; [done|eauto|]. rewrite Hl, Hr. simpl. eauto.
  - apply Hmove.
    inversion Hh as [b k c bs0 n0 Hc Hi Ht Hd|q k b c bs0 n0 Hq Hi Ht Hd|c bs0 n0 Hi Ht Hd]; subst;
      [simpl; eauto| |simpl; eauto].
    destruct q as [[| | | | |]| | | | | | | | | | | |] eqn:Hq'; try (exfalso; exact Hq); [simpl; eauto|..];
      (rewrite tstep_InTx by done; edestruct (inner_moves w) as [[w' p'] Hs];
        [exact Hq|done|done|rewrite Hs; simpl; eauto]).
Qed.

Lemma schedule_inv d all is_ s ts hist s' :
  inv d hist s ts → hist ++ todo ts ≡ₚ all → schedule is_ s = Some s' →
  ∃ hist' ts', inv d hist' s' ts' ∧ hist' ++ todo ts' ≡ₚ all ∧ length is_ + bound ts' ≤ bound ts.
Proof.
  revert s ts hist; induction is_ as [|i is_ IH]; intros s ts hist Hinv Hall; simpl.
  { intros [= <-]. exists hist, ts. split_and!; [done..|lia]. }
  intros (s1 & Hs & Hrest)%bind_Some.
  destruct (inv_step _ _ _ _ _ _ Hinv Hs) as (hist1 & ts1 & Hinv1 & Hall1 & Hb).
  destruct (IH s1 ts1 hist1) as (hist' & ts' & ? & ? & ?); [done|by rewrite Hall1|done|].
  exists hist', ts'. split_and!; [done..|lia].
Qed.

Lemma schedule_app is1 is2 (s : sys V) :
  schedule (is1 ++ is2) s = (s' ← schedule is1 s; schedule is2 s').
Proof.
  revert s; induction is1 as [|i is1 IH]; intros s; [done|]. simpl.
  destruct (sstep i s); simpl; auto.
Qed.

(** Every run can be completed. *)
Lemma inv_completes d hist s ts :
  inv d hist s ts → ∃ is_ s', schedule is_ s = Some s' ∧ all_done s'.
Proof.
  remember (bound ts) as b eqn:Hb. revert hist s ts Hb.
  induction (lt_wf b) as [b _ IH]. intros hist s ts -> Hinv.
  destruct (decide (all_done s)) as [Hf|Hf]; [by exists [], s|].
  - destruct (inv_progress _ _ _ _ Hinv Hf) as (i & s1 & Hs).
    destruct (inv_step _ _ _ _ _ _ Hinv Hs) as (hist1 & ts1 & Hinv1 & _ & Hlt).
    destruct (IH _ Hlt hist1 s1 ts1 eq_refl Hinv1) as (is_ & s' & Hsch & Hd).
    exists (i :: is_), s'. simpl. rewrite Hs. done.
Qed.

(** When all are done, the callbacks ran one after the other. *)
Lemma inv_done d hist s ts :
  inv d hist s ts → all_done s → data_of s.1 = foldl (λ d c, bexec c d) d hist ∧ todo ts = [].
Proof.
  intros Hinv Hdone. destruct Hinv as [w ts Hr Hl Ht Hd Hts|w l [[p bs] n] r Hr Hl Hidl Hidr Hh]; simpl in *.
  - split; [done|]. unfold all_done in Hdone. simpl in Hdone. apply Forall_fmap in Hdone.
    unfold todo. clear Hd. induction ts as [|[[p bs] n] ts IH]; [done|]. simpl.
    apply Forall_cons in Hdone as [Hp Hdone], Hts as [Hi Hts]. simpl in Hp. subst p.
    inversion Hi; subst. by apply IH.
  - exfalso. unfold all_done in Hdone. simpl in Hdone. rewrite fmap_app in Hdone.
    apply Forall_app in Hdone as [_ [Hp _]%Forall_cons]. simpl in Hp. subst p. by inversion Hh.
Qed.
End transactions.

(** ** Statuses *)

Section statuses.
Context {V : Type}.

Definition dread (k : string) (d : data) : gmap string V :=
  match d.1 !! k with Some l => default ∅ (d.2 !! l) | None => ∅ end.
Definition data_ok (k : string) (d : data (V := V)) : Prop := ∀ l, d.1 !! k = Some l → l < length d.2.

Lemma record_cost k id v : cost (V := V) (record k id v) 6.
Proof. simpl. repeat split; intros; lia. Qed.

Lemma bexec_record k id v d :
  data_ok k d →
  data_ok k (bexec (record k id v) d) ∧
  dread k (bexec (record k id v) d) = <[id := v]> (dread k d).
Proof.
  intros Hd. unfold dread, data_ok. simpl. rewrite lookup_insert_eq.
  destruct (d.1 !! k) as [l|] eqn:E; simpl.
  - specialize (Hd l E). split; [intros l' [= <-]; rewrite length_alter, length_app; lia|].
    rewrite list_lookup_alter_eq, lookup_app_l by done.
    destruct (lookup_lt_is_Some_2 d.2 l Hd) as [m ->]. done.
  - split; [intros l' [= <-]; rewrite length_alter, length_app; simpl; lia|].
    rewrite list_lookup_alter_eq, lookup_app_r, Nat.sub_diag by done. done.
Qed.

Lemma fold_record k es d :
  data_ok k d →
  dread k (foldl (λ d c, bexec c d) d ((λ e, record k e.1 e.2) <$> es))
  = foldl (λ m e, <[e.1 := e.2]> m) (dread k d) es.
Proof.
  revert d; induction es as [|[id v] es IH]; intros d Hd; [done|].
  destruct (bexec_record k id v d Hd) as [Hd' Hr]. cbn [fmap list_fmap foldl fst snd].
  rewrite (IH _ Hd'), Hr. done.
Qed.

Lemma fold_insert_map (es : list (string * V)) (m : gmap string V) :
  NoDup es.*1 → foldl (λ m e, <[e.1 := e.2]> m) m es = list_to_map es ∪ m.
Proof.
  revert m; induction es as [|[id v] es IH]; intros m; simpl; [by rewrite (left_id_L ∅ _)|].
  intros [Hni Hnd]%NoDup_cons. rewrite IH by done.
  assert ((list_to_map es : gmap string V) !! id = None) as Hn by by apply not_elem_of_list_to_map_1.
  by rewrite <-insert_union_r, <-insert_union_l.
Qed.

Lemma start_inv (w : World V) k es :
  readers (sm w) = 0 → wlocked (sm w) = false → transaction (sm w) = false →
  ∃ ts, inv (data_of w) [] (start w (setStatus k <$> es)) ts ∧
    todo ts = (λ e, record k e.1 e.2) <$> es ∧ bound ts = 11 * length es.
Proof.
  intros Hr Hl Ht.
  set (t := λ e : string * V, (Run (setStatus k e), [record k e.1 e.2], 11) : thread).
  exists (t <$> es). split_and!.
  - unfold start. assert (Run <$> (setStatus k <$> es) = (λ t : thread, t.1.1) <$> (t <$> es)) as ->.
    { rewrite <-!list_fmap_compose. done. }
    apply inv_free; try done. apply Forall_fmap, Forall_forall. intros e _.
    apply (idle_run _ 6 _ [] 0); [apply record_cost|constructor].
  - unfold todo. induction es as [|e es IH]; [done|]. simpl. f_equal. exact IH.
  - unfold bound. induction es as [|e es IH]; [done|]. cbn [fmap list_fmap sum_list_with length].
    change (list_fmap _ _ t es) with (t <$> es). rewrite IH. unfold t. cbn [snd]. lia.
Qed.
End statuses.

(** ** Theorems *)

(** C8: goroutines that each record a status in a transaction, as the status tasks do
    under the concurrency of Tasks.v, each under an id of its own, starting when nobody
    reads the map, holds its lock or is in a transaction.  Whatever the scheduler did so far: at most eleven
    actions per goroutine were taken, some goroutine can move unless all are done, the run
    can be completed, and once all are done the key holds every status, next to what it
    held before. *)
Theorem statuses_recorded {V} (w : World V) (k : string) (es : list (string * V)) (is_ : list nat) (s : sys V) :
  readers (sm w) = 0 → wlocked (sm w) = false → transaction (sm w) = false →
  (∀ l, Map (sm w) !! k = Some l → l < length (heap w)) → NoDup es.*1 →
  schedule is_ (start w (setStatus k <$> es)) = Some s →
  length is_ ≤ 11 * length es ∧
  (¬ all_done s → ∃ i, is_Some (sstep i s)) ∧
  (∃ more s', schedule (is_ ++ more) (start w (setStatus k <$> es)) = Some s' ∧ all_done s') ∧
  (all_done s → read k s.1 = list_to_map es ∪ read k w).
Proof.
  intros Hr Hl Ht Hk Hnd Hs.
  destruct (start_inv w k es Hr Hl Ht) as (ts & Hinv & Htodo & Hb).
  destruct (schedule_inv _ _ _ _ _ _ _ Hinv (reflexivity _) Hs) as (hist & ts' & Hinv' & Hperm & Hlen).
  split_and!.
  - lia.
  - by apply inv_progress with (1 := Hinv').
  - destruct (inv_completes _ _ _ _ Hinv') as (more & s' & Hmore & Hdone).
    exists more, s'. by rewrite schedule_app, Hs.
  - intros Hdone. destruct (inv_done _ _ _ _ Hinv' Hdone) as [Hd Hnil].
    rewrite Hnil, app_nil_r, Htodo in Hperm. simpl in Hperm.
    destruct (Permutation_map_inv _ _ Hperm) as (es' & -> & Hes).
    change (read k s.1) with (dread k (data_of s.1)). rewrite Hd.
    change (read k w) with (dread k (data_of w)).
    assert (NoDup es'.*1) as Hnd' by exact (proj1 (NoDup_Permutation_proper _ _ (fmap_Permutation fst _ _ Hes)) Hnd).
    etrans; [apply fold_record; exact Hk|]. rewrite fold_insert_map by done.
    f_equal. by apply list_to_map_proper.
Qed.

(** Two goroutines whose calls interleave. *)
Definition two_statuses : list (string * nat) := [("svc1", 1); ("svc2", 2)].
Definition empty_world : World nat := mkWorld NewSafeMap [].
Definition interleaved : list nat := [1; 0] ++ repeat 1 10 ++ repeat 0 10.

Lemma statuses_recorded_witness :
  ∃ s, schedule interleaved (start empty_world (setStatus "status" <$> two_statuses)) = Some s ∧
       all_done s ∧ read "status" s.1 = list_to_map two_statuses ∪ ∅.
Proof.
  destruct (schedule interleaved (start empty_world (setStatus "status" <$> two_statuses))) as [s|] eqn:E.
  2: { exfalso. vm_compute in E. discriminate E. }
  exists s. split; [reflexivity|].
  assert (all_done s) as Hd.
  { assert (∃ s', schedule interleaved (start empty_world (setStatus "status" <$> two_statuses)) = Some s' ∧
              all_done s') as (s' & E' & H').
    { eexists. split; [vm_compute; reflexivity|]. repeat constructor. }
    rewrite E in E'. injection E' as ->. exact H'. }
  split; [exact Hd|].
  refine (proj2 (proj2 (proj2 (statuses_recorded empty_world "status" two_statuses interleaved s
    eq_refl eq_refl eq_refl _ _ E))) Hd).
  - intros l Hl. vm_compute in Hl. discriminate Hl.
  - apply (bool_decide_unpack _). vm_compute. exact I.
Defined.
