(* ===== verification/HostDate.v ===== *)
(** The check of the hosts' clocks (src/internal/task/task/checker/date.go): one goroutine
    per host reads the date of its host into the shared map, then one task compares them. *)

From S2P Require Import Prelude Errno GoLib SafeMap.

Definition MAX_TIME_DIFFERENCE : Z := 15.
Definition KEY_ALL_HOST_DATE : string := "ALL_HOST_DATE".

Record Time : Type := mkTime { tm_host : string; tm_time : Z }.

(** What the date of a host, as printed by [date +%s], makes the task do. *)
Definition step2Post (host out : string) : res error (cmd Time) :=
  if decide (out = "") then Err (ECode ERR_INVALID_DATE_FORMAT)
  else match Atoi out with
       | None => Err (ECode ERR_INVALID_DATE_FORMAT)
       | Some time => Ok (setHostDate KEY_ALL_HOST_DATE (host, mkTime host time))
       end.

(** The loop over the dates: the least and the greatest, with 0 for none yet. *)
Definition minmax (acc : Z * Z) (t : Time) : Z * Z :=
  let '(mn, mx) := acc in
  (if (mn =? 0)%Z || (tm_time t <? mn)%Z then tm_time t else mn,
   if (mx =? 0)%Z || (mx <? tm_time t)%Z then tm_time t else mx).

Definition checkDate `{MapOrder} (m : gmap string Time) : res error unit :=
  let '(mn, mx) := foldl minmax (0, 0)%Z (range m).*2 in
  if (MAX_TIME_DIFFERENCE <? mx - mn)%Z then Err (ECode ERR_HOST_TIME_DIFFERENCE_OVER_30_SECONDS)
  else Ok tt.

(** ** The comparison *)

Lemma minmax_bounds ts mn mx :
  (0 < mn ≤ mx)%Z → Forall (λ t, 0 < tm_time t)%Z ts →
  let '(a, b) := foldl minmax (mn, mx) ts in
  (0 < a ≤ b)%Z ∧ Forall (λ z, a ≤ z ≤ b)%Z (mn :: mx :: (tm_time <$> ts)) ∧
  a ∈ mn :: (tm_time <$> ts) ∧ b ∈ mx :: (tm_time <$> ts).
Proof.
  revert mn mx; induction ts as [|t ts IH]; intros mn mx Hm; simpl.
  - intros _. split_and!; [lia..| |left|left]. repeat constructor; lia.
  - intros [Ht Hts]%Forall_cons.
    set (mn' := if (mn =? 0)%Z || (tm_time t <? mn)%Z then tm_time t else mn).
    set (mx' := if (mx =? 0)%Z || (mx <? tm_time t)%Z then tm_time t else mx).
    assert (0 < mn' ≤ mn ∧ mn' ≤ tm_time t ∧ (mn' = mn ∨ mn' = tm_time t))%Z as (Hn & Hn' & En).
    { unfold mn'. destruct (Z.eqb_spec mn 0), (Z.ltb_spec (tm_time t) mn); simpl; lia. }
    assert (mx ≤ mx' ∧ tm_time t ≤ mx' ∧ (mx' = mx ∨ mx' = tm_time t))%Z as (Hx & Hx' & Ex).
    { unfold mx'. destruct (Z.eqb_spec mx 0), (Z.ltb_spec mx (tm_time t)); simpl; lia. }
    specialize (IH mn' mx' ltac:(lia) Hts). destruct (foldl minmax (mn', mx') ts) as [a b].
    destruct IH as (Hab & [? [? Hall]%Forall_cons]%Forall_cons & Ha & Hb).
    split; [done|]. split; [repeat constructor; try lia; done|].
    set_solver.
Qed.

(** The shared object is the one stored in the map. *)
Definition dates (w : World Time) : gmap string Time := read KEY_ALL_HOST_DATE w.
Definition no_dates : World Time := mkWorld NewSafeMap [].

(** Two hosts whose clocks are 1000 seconds apart. *)
Definition two_hosts : list (string * Time) :=
  [("a", mkTime "a" 1000000); ("b", mkTime "b" 1001000)].
Definition date_tasks (l : list (string * Time)) : sys Time :=
  start no_dates (setHostDate KEY_ALL_HOST_DATE <$> l).
(** Both read the key before one of them has set it. *)
Definition both_read : list nat := repeat 0 4 ++ repeat 1 4 ++ repeat 0 6 ++ repeat 1 6.
(** One after the other. *)
Definition in_turn : list nat := repeat 0 10 ++ repeat 1 9.

Lemma elem_of_range_values `{MapOrder} (m : gmap string Time) t :
  t ∈ (range m).*2 ↔ ∃ h, m !! h = Some t.
Proof.
  rewrite (range_perm m). rewrite list_elem_of_fmap. split.
  - intros ([h t'] & -> & Hin). exists h. by apply elem_of_map_to_list.
  - intros (h & Hh). exists (h, t). split; [done|]. by apply elem_of_map_to_list.
Qed.

(** ** Theorems *)

(** For dates after the epoch the check accepts exactly when no two of the dates
    that were recorded are more than [MAX_TIME_DIFFERENCE] seconds apart, whatever the
    order in which the map is iterated. *)
Theorem checkDate_spec (o : MapOrder) (m : gmap string Time) :
  (∀ h t, m !! h = Some t → 0 < tm_time t)%Z →
  checkDate m =
  match decide (Forall (λ e, Forall (λ e', tm_time e'.2 - tm_time e.2 ≤ MAX_TIME_DIFFERENCE)%Z
                                (map_to_list m)) (map_to_list m)) with
  | left _ => Ok tt
  | right _ => Err (ECode ERR_HOST_TIME_DIFFERENCE_OVER_30_SECONDS)
  end.
Proof.
  intros Hpos. unfold checkDate, MAX_TIME_DIFFERENCE.
  assert (∀ P : Time → Prop, Forall (λ e, P e.2) (map_to_list m) ↔ Forall P (range m).*2) as Hall.
  { intros P. rewrite Forall_fmap, (range_perm m). done. }
  assert (Forall (λ t, 0 < tm_time t)%Z (range m).*2) as Hp.
  { apply Forall_forall. intros t (h & Hh)%elem_of_range_values. eauto. }
  assert (∀ ts, ts = (range m).*2 → Forall (λ e : string * Time,
     Forall (λ e', tm_time e'.2 - tm_time e.2 ≤ 15)%Z (map_to_list m)) (map_to_list m)
     ↔ Forall (λ t, Forall (λ t', tm_time t' - tm_time t ≤ 15)%Z ts) ts) as Hiff.
  { intros ts ->. rewrite <-Hall. apply Forall_iff. intros e. by rewrite <-Hall. }
  destruct (range m).*2 as [|t ts] eqn:E.
  { simpl. case_decide as Hd; [done|]. exfalso. apply Hd, (Hiff [] eq_refl). constructor. }
  apply Forall_cons in Hp as [Ht Hts]. cbn [foldl].
  assert (minmax (0, 0)%Z t = (tm_time t, tm_time t)) as -> by done.
  pose proof (minmax_bounds ts (tm_time t) (tm_time t) ltac:(lia) Hts) as Hb.
  destruct (foldl minmax _ ts) as [a b]. destruct Hb as (Hab & Hin & Ha & Hb).
  apply Forall_cons in Hin as [_ Hin]. change (Forall (λ z, a ≤ z ≤ b)%Z (tm_time <$> t :: ts)) in Hin.
  change (a ∈ tm_time <$> t :: ts) in Ha. change (b ∈ tm_time <$> t :: ts) in Hb.
  apply list_elem_of_fmap in Ha as (ta & -> & Ha), Hb as (tb & -> & Hb).
  rewrite Forall_fmap, Forall_forall in Hin. unfold compose in Hin.
  destruct (Z.ltb_spec 15 (tm_time tb - tm_time ta)); case_decide as Hd; try done; exfalso.
  - apply (Hiff _ eq_refl) in Hd. rewrite Forall_forall in Hd. specialize (Hd _ Ha).
    rewrite Forall_forall in Hd. specialize (Hd _ Hb). simpl in Hd. lia.
  - apply Hd, (Hiff _ eq_refl). apply Forall_forall. intros x Hx. apply Forall_forall. intros y Hy.
    pose proof (Hin x Hx). pose proof (Hin y Hy). simpl in *. lia.
Qed.

Lemma checkDate_spec_witness :
  let m := list_to_map two_hosts : gmap string Time in
  (∀ h t, m !! h = Some t → 0 < tm_time t)%Z ∧
  @checkDate canonical_order m = Err (ECode ERR_HOST_TIME_DIFFERENCE_OVER_30_SECONDS).
Proof.
  intros m. assert (∀ h t, m !! h = Some t → 0 < tm_time t)%Z as Hm.
  { intros h t Hl. unfold m in Hl. simpl in Hl.
    apply lookup_insert_Some in Hl as [[_ <-]|[_ Hl]]; [done|].
    apply lookup_insert_Some in Hl as [[_ <-]|[_ Hl]]; done. }
  split; [exact Hm|]. etransitivity; [exact (checkDate_spec canonical_order m Hm)|]. vm_compute. reflexivity.
Defined.

(** The dates are recorded without a transaction.  When the tasks of two hosts read
    the key before one of them has set it, each stores a map of its own: every task ends
    well, one date is lost, and the check accepts clocks that are 1000 seconds apart; one
    task after the other, it refuses them. *)
Theorem date_lost (o : MapOrder) :
  (∃ s, schedule both_read (date_tasks two_hosts) = Some s ∧ all_done s ∧
        dates s.1 = {[ "b" := mkTime "b" 1001000 ]} ∧ checkDate (dates s.1) = Ok tt) ∧
  (∃ s, schedule in_turn (date_tasks two_hosts) = Some s ∧ all_done s ∧
        dates s.1 = list_to_map two_hosts ∧
        checkDate (dates s.1) = Err (ECode ERR_HOST_TIME_DIFFERENCE_OVER_30_SECONDS)).
Proof.
  split.
  - eexists. split; [vm_compute; reflexivity|]. split; [repeat constructor|].
    assert (∀ m : gmap string Time, m = {[ "b" := mkTime "b" 1001000 ]} →
              m = {[ "b" := mkTime "b" 1001000 ]} ∧ checkDate m = Ok tt) as Hm.
    { intros m ->. split; [done|]. unfold checkDate.
      assert (range ({[ "b" := mkTime "b" 1001000 ]} : gmap string Time) = [("b", mkTime "b" 1001000)]) as ->.
      { apply Permutation_singleton_r. rewrite range_perm. by rewrite map_to_list_singleton. }
      done. }
    apply Hm. by vm_compute.
  - eexists. split; [vm_compute; reflexivity|]. split; [repeat constructor|].
    assert (∀ m : gmap string Time, m = list_to_map two_hosts →
              m = list_to_map two_hosts ∧
              checkDate m = Err (ECode ERR_HOST_TIME_DIFFERENCE_OVER_30_SECONDS)) as Hm.
    { intros m ->. split; [done|]. unfold checkDate.
      assert (range (list_to_map two_hosts : gmap string Time) ≡ₚ two_hosts) as Hp.
      { rewrite range_perm. apply map_to_list_to_map. vm_compute. repeat constructor; set_solver. }
      symmetry in Hp. apply Permutation_length_2_inv in Hp as [-> | ->]; done. }
    apply Hm. by vm_compute.
Qed.
