(* ===== verification/Utils.v ===== *)
(** General helpers (src/internal/utils: common.go, string.go, quota_utils.go).

    Pairs [(value, ok)] are options.  Text formatting of third-party packages
    ([humanize.Comma], [color.RedString]) is a parameter. *)

From S2P Require Import Prelude Errno GoLib.
From Stdlib Require Import Ascii.

(** * Dynamic types (common.go) *)

Definition Type_ (v : val) : string :=
  match v with
  | VBool _ => "bool"
  | VString _ => "string"
  | VInt _ => "int"
  | VInt64 _ => "int64"
  | VMap _ => "string_interface_map"
  | _ => "unknown"
  end.

Definition IsBool (v : val) : bool := bool_decide (Type_ v = "bool").
Definition IsString (v : val) : bool := bool_decide (Type_ v = "string").
Definition IsInt (v : val) : bool := bool_decide (Type_ v = "int").
Definition IsInt64 (v : val) : bool := bool_decide (Type_ v = "int64").
Definition IsStringAnyMap (v : val) : bool := bool_decide (Type_ v = "string_interface_map").

Definition All2Str (v : val) : option string :=
  if IsString v then match v with VString s => Some s | _ => None end
  else if IsInt v then match v with VInt z => Some (Itoa z) | _ => None end
  else if IsBool v then match v with VBool b => Some (FormatBool b) | _ => None end
  else None.

(** [Atoa] ignores the failure and returns the zero value. *)
Definition Atoa (v : val) : string := default EmptyString (All2Str v).

Definition Str2Int (s : string) : option Z := Atoi s.
Definition Str2Bool (s : string) : option bool := ParseBool s.
Definition IsTrueStr (s : string) : bool :=
  match Str2Bool s with Some v => v | None => false end.

(** * Strings and lists (common.go) *)

(** The loop stops when the suffix is gone; an empty suffix never goes away, which
    shows as [None] for every fuel. *)
Fixpoint TrimSuffixRepeat (fuel : nat) (s suffix : string) : option string :=
  match fuel with
  | 0 => None
  | S fuel =>
      if HasSuffix s suffix then TrimSuffixRepeat fuel (TrimSuffix s suffix) suffix
      else Some s
  end.

Definition Min {E} (nums : list Z) : res E Z :=
  match nums with
  | [] => Panic
  | n0 :: _ => Ok (foldl (λ ret num, if (num <? ret)%Z then num else ret) n0 nums)
  end.

Fixpoint copy_val (v : val) : val :=
  match v with
  | VMap m => VMap (map_fold (λ key value dest, <[key := copy_val value]> dest) ∅ m)
  | _ => v
  end.
Definition copy (src dest : gmap string val) : gmap string val :=
  map_fold (λ key value dest, <[key := copy_val value]> dest) dest src.
Definition DeepCopy (src : gmap string val) : gmap string val := copy src ∅.

Definition Choose (ok : bool) (first second : string) : string :=
  if ok then first else second.

Definition Slice2Map (s : list string) : gmap string bool :=
  foldl (λ m item, <[item := true]> m) ∅ s.
(** [m[k]] on a [map[string]bool]: a missing key reads as [false]. *)
Definition in_map (m : gmap string bool) (k : string) : bool := default false (m !! k).

Definition Locate (s : list string) : gmap string nat :=
  foldl (λ m '(i, item), <[item := i]> m) ∅ (imap pair s).

Definition Contains (list_ : list string) (str : string) : bool :=
  existsb (λ v, bool_decide (TrimSpace v = TrimSpace str)) list_.
Definition ContainsList (list_ strs : list string) : bool :=
  forallb (λ str, Contains list_ str) strs.
Definition Existed (list_ strs : list string) : bool :=
  existsb (λ str, Contains list_ str) strs.
Definition Filter (list_ : list string) (filterFunc : string → bool) : list string :=
  filter (λ item, filterFunc item = true) list_.

(** ** [IsValidAddress]: the regular expression
    [^(((25[0-5]|2[0-4][0-9]|[01]?[0-9][0-9]?)(\.|$)){4})]. *)

Definition digit_between (lo hi : nat) (a : ascii) : bool :=
  let n := nat_of_ascii a in (48 + lo <=? n) && (n <=? 48 + hi).

(** The rests of [s] after one optional / mandatory byte of a class. *)
Definition one (p : ascii → bool) (s : string) : list string :=
  match s with String a s' => if p a then [s'] else [] | EmptyString => [] end.
Definition opt (p : ascii → bool) (s : string) : list string := one p s ++ [s].

Definition octet_rests (s : string) : list string :=
  flat_map (one (digit_between 0 5)) (flat_map (one (digit_between 5 5)) (one (digit_between 2 2) s))
  ++ flat_map (one (digit_between 0 9)) (flat_map (one (digit_between 0 4)) (one (digit_between 2 2) s))
  ++ flat_map (opt (digit_between 0 9)) (flat_map (one (digit_between 0 9)) (opt (digit_between 0 1) s)).

Fixpoint match_groups (n : nat) (s : string) : bool :=
  match n with
  | 0 => true
  | S n =>
      existsb (λ r,
        match r with
        | EmptyString => match_groups n EmptyString
        | String a r' => bool_decide (a = "."%char) && match_groups n r'
        end) (octet_rests s)
  end.

Definition IsValidAddress (address : string) : bool := match_groups 4 address.

(** * string.go *)

Definition IsDigit (a : ascii) : bool := digit_between 0 9 a.
Definition IsUpper (a : ascii) : bool :=
  let n := nat_of_ascii a in (65 <=? n) && (n <=? 90).
Definition IsAlpha (a : ascii) : bool :=
  let n := nat_of_ascii a in ((97 <=? n) && (n <=? 122)) || IsUpper a.

(** The loop over the bytes; [prev] is [src[i-1]] ([None] at [i = 0]) and [ret] the
    reversed output. *)
Fixpoint underscored (prev : option ascii) (ret : list ascii) (src : string) : list ascii :=
  match src with
  | EmptyString => ret
  | String c src' =>
      let last_is a := match ret with x :: _ => bool_decide (x = a) | [] => false end in
      let ret' :=
        if IsAlpha c then
          if nat_of_ascii c <? 97 then
            let ret1 :=
              match prev with
              | Some p => if negb (IsUpper p) && negb (last_is "-"%char)
                          then "_"%char :: ret else ret
              | None => ret
              end in
            lower_byte c :: ret1
          else c :: ret
        else if IsDigit c then c :: ret
        else if match ret with [] => true | _ => negb (last_is "_"%char) end
             then "_"%char :: ret
        else ret in
      underscored (Some c) ret' src'
  end.
Definition ToUnderscoredName (src : string) : string :=
  Stdlib.Strings.String.string_of_list_ascii (reverse (underscored None [] src)).

Definition StringList2Uint64List (strList : list string) : option (list Z) :=
  mapM (ParseUint 64) strList.
Definition StringList2Uint32List (strList : list string) : option (list Z) :=
  mapM (ParseUint 32) strList.

Definition Ternary (cond : bool) (trueVal falseVal : string) : string :=
  if cond then trueVal else falseVal.

(** [RemoveDuplicates] returns the keys of a set in map order. *)
Definition RemoveDuplicates `{MapOrder} (strs : list string) : list string :=
  (range (Slice2Map strs)).*1.

(** * quota_utils.go *)

Section quota.
Variables (Comma : Z → string) (RedString : string → string).

Definition CheckQuota (capacity usedBytes maxInodes usedInodes realUsedBytes
    realUsedInodes : Z) : list string * bool :=
  let capacityStr := if (capacity =? MaxInt64)%Z then "unlimited" else Comma capacity in
  let usedStr := Comma usedBytes in
  let realUsedStr := Comma realUsedBytes in
  let checkResult := if (usedBytes =? realUsedBytes)%Z then true else false in
  let result := [capacityStr; usedStr; realUsedStr] in
  let maxInodesStr := if (maxInodes =? MaxInt64)%Z then "unlimited" else Comma maxInodes in
  let inodeUsedStr := Comma usedInodes in
  let realUsedInodesStr := Comma realUsedInodes in
  let checkResult := if (usedInodes =? realUsedInodes)%Z then checkResult else false in
  let result := result ++ [maxInodesStr; inodeUsedStr; realUsedInodesStr] in
  let result := result ++ [if checkResult then "success" else RedString "failed"] in
  (result, checkResult).
End quota.

(** A command line flag: not changed, or changed with the outcome of
    [GetUint64]. *)
Definition flag : Type := option (res error Z).

Definition GetQuotaValue (capacity inodes : flag) : res error (Z * Z) :=
  match capacity, inodes with
  | None, None => Err (EText "capacity or inodes is required")
  | _, _ =>
      maxBytes ← match capacity with
                 | Some g => c ← g;
                     Ok (wrap64 (wrap64 (wrap64 (wrap64 c * 1024) * 1024) * 1024))
                 | None => Ok 0%Z
                 end;
      maxInodes ← match inodes with
                  | Some g => i ← g; Ok (wrap64 i)
                  | None => Ok 0%Z
                  end;
      let maxBytes := if (maxBytes =? 0)%Z then MaxInt64 else maxBytes in
      let maxInodes := if (maxInodes =? 0)%Z then MaxInt64 else maxInodes in
      Ok (maxBytes, maxInodes)
  end.

(** * Lemmas *)

Lemma All2Str_VString s : All2Str (VString s) = Some s.
Proof. done. Qed.

Lemma All2Str_VMap m : All2Str (VMap m) = None.
Proof. done. Qed.

Lemma All2Str_Some v w :
  All2Str v = Some w ↔
  (∃ s, v = VString s ∧ w = s) ∨ (∃ z, v = VInt z ∧ w = Itoa z)
  ∨ (∃ b, v = VBool b ∧ w = FormatBool b).
Proof.
  split.
  - destruct v; cbn; intros [= <-]; eauto 10.
  - intros [(?&->&->)|[(?&->&->)|(?&->&->)]]; done.
Qed.

Lemma lookup_Slice2Map_gen (s : list string) (m : gmap string bool) k :
  foldl (λ m item, <[item := true]> m) m s !! k
  = if bool_decide (k ∈ s) then Some true else m !! k.
Proof.
  revert m; induction s as [|a s IH]; intros m; simpl; [done|].
  rewrite IH. destruct (decide (k = a)) as [->|Hne].
  - rewrite lookup_insert_eq, (bool_decide_eq_true_2 (a ∈ a :: s)) by (by apply elem_of_cons; left).
    by case_bool_decide.
  - rewrite lookup_insert_ne by done.
    by rewrite (bool_decide_ext (k ∈ a :: s) (k ∈ s)) by (rewrite elem_of_cons; tauto).
Qed.

Lemma in_Slice2Map s k : in_map (Slice2Map s) k = bool_decide (k ∈ s).
Proof.
  unfold in_map, Slice2Map. rewrite lookup_Slice2Map_gen.
  case_bool_decide; [done|]. by rewrite lookup_empty.
Qed.

Lemma lookup_copy_gen src dest k :
  copy src dest !! k = match src !! k with
                       | Some v => Some (copy_val v) | None => dest !! k end.
Proof.
  unfold copy. revert k. induction src as [|k' v' m Hk' IH] using map_ind; intros k.
  - by rewrite map_fold_empty, lookup_empty.
  - rewrite map_fold_insert_L by (try done; intros; by apply insert_insert_ne).
    destruct (decide (k = k')) as [->|].
    + by rewrite !lookup_insert_eq.
    + by rewrite !lookup_insert_ne, IH by done.
Qed.

Lemma copy_val_id v : copy_val v = v.
Proof.
  induction v as [v Hv|m IH] using val_ind_nested.
  - destruct v; try done. by destruct (Hv m).
  - simpl. f_equal. apply map_eq. intros k.
    change (copy m ∅ !! k = m !! k). rewrite lookup_copy_gen.
    destruct (m !! k) as [x|] eqn:Hk; [|by rewrite lookup_empty].
    f_equal. by apply (IH k).
Qed.

(** A deep copy is equal to the original, whatever is nested in it. *)
Lemma DeepCopy_id src : DeepCopy src = src.
Proof.
  apply map_eq. intros k. unfold DeepCopy. rewrite lookup_copy_gen.
  destruct (src !! k); [by rewrite copy_val_id | by rewrite lookup_empty].
Qed.

(** ** Addresses *)

(** One decimal octet: one to three digits, value at most 255. *)
Definition octet (w : string) : Prop :=
  1 ≤ String.length w ≤ 3 ∧ ∃ n, parse_unsigned w = Some n ∧ (n ≤ 255)%Z.

(** What an accepted address looks like: four octets separated by dots, then the
    end of the text or a dot and anything. *)
Definition address_shape (s : string) : Prop :=
  ∃ a b c d rest, octet a ∧ octet b ∧ octet c ∧ octet d ∧
    s = a +:+ "." +:+ b +:+ "." +:+ c +:+ "." +:+ d +:+ rest ∧
    (rest = "" ∨ ∃ rest', rest = "." +:+ rest').

Lemma digit_between_spec lo hi a :
  hi ≤ 9 → digit_between lo hi a = true ↔
  ∃ d, digit_of a = Some (Z.of_nat d) ∧ lo ≤ d ≤ hi.
Proof.
  intros Hhi. unfold digit_between, digit_of. rewrite andb_true_iff, !Nat.leb_le.
  destruct ((48 <=? nat_of_ascii a) && (nat_of_ascii a <=? 57)) eqn:E.
  - apply andb_true_iff in E as [E1%Nat.leb_le E2%Nat.leb_le]. split.
    + intros [??]. exists (nat_of_ascii a - 48). split; [done|lia].
    + intros (d & [= Hd] & ?). lia.
  - apply andb_false_iff in E. rewrite !Nat.leb_gt in E. split; [lia|]. by intros (? & ? & _).
Qed.

Lemma elem_of_one p s r : r ∈ one p s ↔ ∃ a, s = String a r ∧ p a = true.
Proof.
  destruct s as [|a s]; simpl.
  { rewrite elem_of_nil. split; [done|]. by intros (a & ? & _). }
  destruct (p a) eqn:E; [rewrite list_elem_of_singleton|rewrite elem_of_nil].
  - split; [intros ->; eauto|]. by intros (b & [= -> ->] & _).
  - split; [done|]. intros (b & [= -> ->] & ?). congruence.
Qed.

Lemma elem_of_opt p s r : r ∈ opt p s ↔ r = s ∨ ∃ a, s = String a r ∧ p a = true.
Proof. unfold opt. rewrite elem_of_app, elem_of_one, list_elem_of_singleton. tauto. Qed.

Lemma elem_of_flat_map {A B} (f : A → list B) l y :
  y ∈ flat_map f l ↔ ∃ x, x ∈ l ∧ y ∈ f x.
Proof. setoid_rewrite list_elem_of_In. apply in_flat_map. Qed.

Lemma parse_unsigned_digits (w : string) n :
  parse_unsigned w = Some n → String.length w ≤ 3 →
  (∃ a x, w = String a "" ∧ digit_of a = Some x ∧ n = x) ∨
  (∃ a b x y, w = String a (String b "") ∧ digit_of a = Some x ∧ digit_of b = Some y
     ∧ n = x * 10 + y)%Z ∨
  (∃ a b c x y z, w = String a (String b (String c "")) ∧ digit_of a = Some x ∧
     digit_of b = Some y ∧ digit_of c = Some z ∧ n = (x * 10 + y) * 10 + z)%Z.
Proof.
  destruct w as [|a [|b [|c [|d w]]]]; simpl; intros H Hl; try done; try lia.
  - apply bind_Some in H as (x & ? & [= <-]). left. eauto.
  - apply bind_Some in H as (x & ? & (y & ? & [= <-])%bind_Some). right; left. eauto 10.
  - apply bind_Some in H as (x & ? & (y & ? & (z & ? & [= <-])%bind_Some)%bind_Some).
    right; right. eauto 15.
Qed.

Lemma digit_of_range a x : digit_of a = Some x → (0 ≤ x ≤ 9)%Z.
Proof.
  unfold digit_of. destruct (_ && _) eqn:E; [|done]. intros [= <-].
  apply andb_true_iff in E as [?%Nat.leb_le ?%Nat.leb_le]. lia.
Qed.

Lemma digit_between_intro lo hi a x :
  digit_of a = Some x → hi ≤ 9 → (Z.of_nat lo ≤ x ≤ Z.of_nat hi)%Z →
  digit_between lo hi a = true.
Proof.
  intros Ha Hhi Hx. apply digit_between_spec; [done|].
  exists (Z.to_nat x). rewrite Ha. split; [f_equal|]; lia.
Qed.

Lemma octet_intro w n :
  1 ≤ String.length w ≤ 3 → parse_unsigned w = Some n → (n ≤ 255)%Z → octet w.
Proof. unfold octet. eauto. Qed.

(** [find_digits] turns class tests into digit values. *)
Ltac find_digits :=
  repeat match goal with
  | H : digit_between _ _ _ = true |- _ =>
      let d := fresh "d" in let Hd := fresh "Hd" in
      apply digit_between_spec in H as (d & Hd & ?); [|lia]
  end.

Lemma octet_rests_sound s r : r ∈ octet_rests s → ∃ w, s = w +:+ r ∧ octet w.
Proof.
  unfold octet_rests. rewrite !elem_of_app, !elem_of_flat_map.
  setoid_rewrite elem_of_flat_map. setoid_rewrite elem_of_opt. setoid_rewrite elem_of_one.
  intros [(s1 & (s2 & (a & -> & ?) & (b & -> & ?)) & (c & -> & ?))
         |[(s1 & (s2 & (a & -> & ?) & (b & -> & ?)) & (c & -> & ?))
          |(s1 & (s2 & Ha & (b & -> & ?)) & Hc)]].
  1,2: exists (String a (String b (String c ""))); split; [done|]; find_digits;
    eapply octet_intro; [simpl; lia | simpl; rewrite ?Hd, ?Hd0, ?Hd1; done | lia].
  destruct Ha as [<-|(a & -> & ?)], Hc as [->|(c & -> & ?)]; find_digits.
  - exists (String b ""). split; [done|].
    eapply octet_intro; [simpl; lia | simpl; by rewrite Hd | lia].
  - exists (String b (String c "")). split; [done|].
    eapply octet_intro; [simpl; lia | simpl; rewrite Hd; simpl; by rewrite Hd0 | lia].
  - exists (String a (String b "")). split; [done|].
    eapply octet_intro; [simpl; lia | simpl; rewrite Hd0; simpl; by rewrite Hd | lia].
  - exists (String a (String b (String c ""))). split; [done|].
    eapply octet_intro;
      [simpl; lia | simpl; rewrite Hd0; simpl; rewrite Hd; simpl; by rewrite Hd1 | lia].
Qed.

Lemma octet_rests_complete w r : octet w → r ∈ octet_rests (w +:+ r).
Proof.
  intros ([Hl1 Hl] & n & Hn & Hle). unfold octet_rests.
  rewrite !elem_of_app, !elem_of_flat_map.
  setoid_rewrite elem_of_flat_map. setoid_rewrite elem_of_opt. setoid_rewrite elem_of_one.
  destruct (parse_unsigned_digits w n Hn Hl) as
    [(a & x & -> & Ha & ->)|[(a & b & x & y & -> & Ha & Hb & ->)
    |(a & b & c & x & y & z & -> & Ha & Hb & Hc & ->)]]; simpl;
    pose proof (digit_of_range _ _ Ha);
    try pose proof (digit_of_range _ _ Hb); try pose proof (digit_of_range _ _ Hc).
  - right; right. exists r. split; [|by left].
    exists (String a r). split; [by left|]. exists a. split; [done|].
    eapply digit_between_intro; eauto; lia.
  - right; right. exists (String b r). split.
    + exists (String a (String b r)). split; [by left|]. exists a. split; [done|].
      eapply digit_between_intro; eauto; lia.
    + right. exists b. split; [done|]. eapply digit_between_intro; eauto; lia.
  - destruct (decide (x ≤ 1)%Z); [right; right|destruct (decide (y ≤ 4)%Z); [right; left|left]];
      (exists (String c r); split;
        [exists (String b (String c r)); split|]); try right; eexists; (split; [done|]);
      eapply digit_between_intro; eauto; simpl; lia.
Qed.

Lemma match_groups_S n s :
  match_groups (S n) s = true ↔
  ∃ w r, octet w ∧ s = w +:+ r ∧
    ((r = "" ∧ match_groups n "" = true) ∨ ∃ r', r = "." +:+ r' ∧ match_groups n r' = true).
Proof.
  simpl. rewrite existsb_exists. setoid_rewrite <-list_elem_of_In. split.
  - intros (r & (w & -> & Hw)%octet_rests_sound & Hr). exists w, r. split_and!; [done..|].
    destruct r as [|a r]; [by left|right].
    apply andb_true_iff in Hr as [->%bool_decide_eq_true Hr]. eauto.
  - intros (w & r & Hw & -> & Hr). exists r. split; [by apply octet_rests_complete|].
    destruct Hr as [[-> Hr]|(r' & -> & Hr)]; [done|]. simpl. by rewrite Hr.
Qed.

Lemma match_groups_empty n : match_groups (S n) "" = false.
Proof. done. Qed.

(** * Properties *)

(** [IsValidAddress] accepts exactly the texts that start with four dotted
    decimal octets (0 to 255, leading zeros allowed) followed by the end of the
    text or by a dot and anything: the pattern is not anchored at the end, so
    [10.0.0.1.evil] is a valid address. *)
Theorem IsValidAddress_spec (s : string) : IsValidAddress s = true ↔ address_shape s.
Proof.
  unfold IsValidAddress, address_shape. rewrite match_groups_S. split.
  - intros (a & r & Ha & -> & [[_ H]|(r1 & -> & H)]); [by rewrite match_groups_empty in H|].
    apply match_groups_S in H as (b & r & Hb & -> & [[_ H]|(r2 & -> & H)]);
      [by rewrite match_groups_empty in H|].
    apply match_groups_S in H as (c & r & Hc & -> & [[_ H]|(r3 & -> & H)]);
      [by rewrite match_groups_empty in H|].
    apply match_groups_S in H as (d & r & Hd & -> & H).
    exists a, b, c, d, r. split_and!; [done..|].
    destruct H as [[-> _]|(r' & -> & _)]; [by left|right; by exists r'].
  - intros (a & b & c & d & rest & Ha & Hb & Hc & Hd & -> & Hrest).
    exists a, ("." +:+ b +:+ "." +:+ c +:+ "." +:+ d +:+ rest). split_and!; [done..|].
    right. eexists. split; [done|]. apply match_groups_S.
    exists b, ("." +:+ c +:+ "." +:+ d +:+ rest). split_and!; [done..|].
    right. eexists. split; [done|]. apply match_groups_S.
    exists c, ("." +:+ d +:+ rest). split_and!; [done..|].
    right. eexists. split; [done|]. apply match_groups_S.
    exists d, rest. split_and!; [done..|].
    destruct Hrest as [->|(r' & ->)]; [by left|right; by exists r'].
Qed.

Example IsValidAddress_trailing :
  IsValidAddress "10.0.0.1.evil" = true ∧ IsValidAddress "10.0.0.256" = false.
Proof. vm_compute. done. Qed.

(** Zero means unlimited. *)
Definition unlimited0 (z : Z) : Z := if decide (z = 0%Z) then MaxInt64 else z.

Lemma wrap64_mul_step x y : wrap64 (wrap64 x * y) = wrap64 (x * y).
Proof.
  unfold wrap64. f_equal. rewrite (Z.mod_eq (x + 2 ^ 63)) by lia.
  replace ((x + 2 ^ 63 - 2 ^ 64 * ((x + 2 ^ 63) / 2 ^ 64) - 2 ^ 63) * y + 2 ^ 63)%Z
    with (x * y + 2 ^ 63 + (- ((x + 2 ^ 63) / 2 ^ 64) * y) * 2 ^ 64)%Z by ring.
  apply Z.mod_add. lia.
Qed.

(** The quota read from the command line: with a capacity flag of [c] GiB the
    byte quota is [c * 2^30] wrapped to 64 bits, zero meaning unlimited
    ([MaxInt64]); the inode quota is the flag wrapped to 64 bits, zero or absent
    meaning unlimited.  The byte quota is exact below 2^33 GiB, negative from
    2^33 GiB on, and unlimited at 2^34 GiB. *)
Theorem GetQuotaValue_capacity (c : Z) (inodes : option Z) :
  (0 ≤ c < 2 ^ 64)%Z →
  GetQuotaValue (Some (Ok c)) (Ok <$> inodes)
    = Ok (unlimited0 (wrap64 (c * 2 ^ 30)), unlimited0 (wrap64 (default 0%Z inodes))) ∧
  ((0 < c < 2 ^ 33)%Z → unlimited0 (wrap64 (c * 2 ^ 30)) = (c * 2 ^ 30)%Z) ∧
  ((2 ^ 33 ≤ c < 2 ^ 34)%Z → (unlimited0 (wrap64 (c * 2 ^ 30)) < 0)%Z) ∧
  (c = 2 ^ 34 → unlimited0 (wrap64 (c * 2 ^ 30)) = MaxInt64)%Z.
Proof.
  intros Hc.
  assert (wrap64 (wrap64 (wrap64 (wrap64 c * 1024) * 1024) * 1024) = wrap64 (c * 2 ^ 30))%Z
    as Hw.
  { rewrite wrap64_mul_step, <-Z.mul_assoc, wrap64_mul_step, <-Z.mul_assoc, wrap64_mul_step.
    reflexivity. }
  assert (∀ z : Z, (if (z =? 0)%Z then MaxInt64 else z) = unlimited0 z) as Hz.
  { intros z. unfold unlimited0. destruct (Z.eqb_spec z 0); by case_decide. }
  split_and!.
  - unfold GetQuotaValue. rewrite <-!Hz, <-Hw. by destruct inodes.
  - intros. rewrite wrap64_id by (unfold in_int64, MinInt64, MaxInt64; lia).
    unfold unlimited0. case_decide; lia.
  - intros. assert (wrap64 (c * 2 ^ 30) < 0)%Z; [|unfold unlimited0; case_decide; lia].
    unfold wrap64.
    assert (c * 2 ^ 30 + 2 ^ 63 = (c * 2 ^ 30 - 2 ^ 63) + 1 * 2 ^ 64)%Z as -> by lia.
    rewrite Z.mod_add, Z.mod_small by lia. lia.
  - intros ->. done.
Qed.

Lemma GetQuotaValue_capacity_witness :
  GetQuotaValue (Some (Ok (2 ^ 34)%Z)) None = Ok (MaxInt64, MaxInt64).
Proof.
  destruct (GetQuotaValue_capacity (2 ^ 34) None) as (H & _); [lia|].
  exact H.
Defined.

(** What removing every trailing copy of [suffix] means. *)
Fixpoint repeat_string (n : nat) (s : string) : string :=
  match n with 0 => "" | S n => s +:+ repeat_string n s end.

Lemma TrimSuffix_length s suf :
  HasSuffix s suf = true → suf ≠ "" →
  String.length (TrimSuffix s suf) < String.length s.
Proof.
  unfold HasSuffix, TrimSuffix.
  destruct (strip_suffix s suf) as [r|] eqn:H; [|done]. intros _ Hne.
  apply strip_suffix_Some in H as ->. rewrite length_app_string. simpl.
  destruct suf; [done|]. simpl. lia.
Qed.

Lemma repeat_string_app n s : repeat_string n s +:+ s = s +:+ repeat_string n s.
Proof.
  induction n as [|n IH]; simpl; [by rewrite app_nil_r_string|].
  by rewrite app_assoc_string, IH.
Qed.

(** [TrimSuffixRepeat] terminates for every non-empty suffix, within one round
    more than the length of the text, and returns the text without its maximal run
    of trailing suffixes; for the empty suffix its loop never ends. *)
Theorem TrimSuffixRepeat_total (s suffix : string) :
  (suffix ≠ "" → ∃ r n,
     TrimSuffixRepeat (S (String.length s)) s suffix = Some r ∧
     s = r +:+ repeat_string n suffix ∧ HasSuffix r suffix = false) ∧
  (∀ fuel, TrimSuffixRepeat fuel s "" = None).
Proof.
  split.
  - intros Hne. remember (S (String.length s)) as fuel eqn:Hf.
    assert (String.length s < fuel) as Hlt by lia. clear Hf.
    revert s Hlt. induction fuel as [|fuel IH]; intros s Hlt; [lia|]. simpl.
    destruct (HasSuffix s suffix) eqn:Hs.
    + pose proof (TrimSuffix_length s suffix Hs Hne).
      destruct (IH (TrimSuffix s suffix)) as (r & n & -> & Heq & Hr); [lia|].
      exists r, (S n). split_and!; [done| |done].
      unfold HasSuffix, TrimSuffix in *.
      destruct (strip_suffix s suffix) as [s'|] eqn:E; [|done]. simpl in Heq.
      apply strip_suffix_Some in E as ->. rewrite Heq, app_assoc_string.
      simpl. by rewrite repeat_string_app.
    + exists s, 0. simpl. by rewrite app_nil_r_string.
  - intros fuel. assert (∀ s, strip_suffix s "" = Some s) as Hstrip.
    { intros s'. apply strip_suffix_Some. by rewrite app_nil_r_string. }
    revert s; induction fuel as [|fuel IH]; intros s; simpl; [done|].
    unfold HasSuffix, TrimSuffix. by rewrite Hstrip.
Qed.
