(* ===== verification/Storage.v ===== *)
(** The database of the tool (src/internal/storage: storage.go, sql.go, driver).

    Every operation of [Storage] sends one or two SQL statements to a driver.  A table
    is the list of its rows, a statement a function on the tables: [INSERT] checks the
    UNIQUE and PRIMARY KEY constraints of the table, [UPDATE] and [DELETE] act on the
    rows of their WHERE clause, AUTOINCREMENT ids are never used twice.  What the driver
    adds is a parameter ([Driver]): statements that fail, the clock, the order in which
    a SELECT returns rows, the errors of a violated constraint. *)

From S2P Require Import Prelude Errno GoLib.
From Stdlib Require Import Ascii.

(** ** Rows (sql.go) *)

Record Version : Type := mkVersion { v_Id : Z; v_Version : string; v_LastConfirm : string }.
Record HostsRow : Type := mkHostsRow { h_Id : Z; h_Data : string; h_LastModifiedTime : string }.
Record Cluster : Type := mkCluster {
  c_Id : Z; c_UUId : string; c_Name : string; c_Description : string;
  c_CreateTime : string; c_Topology : string; c_Pool : string; c_Current : bool }.
Record ServiceRow : Type := mkServiceRow {
  sv_Id : string; sv_ClusterId : Z; sv_ContainerId : string }.
Record Client : Type := mkClient {
  cl_Id : string; cl_Kind : string; cl_Host : string; cl_ContainerId : string; cl_AuxInfo : string }.
Record Playground : Type := mkPlayground {
  p_Id : Z; p_Name : string; p_CreateTime : string; p_MountPoint : string; p_Status : string }.
Record AuditLog : Type := mkAuditLog {
  a_Id : Z; a_ExecuteTime : string; a_WorkDirectory : string; a_Command : string;
  a_Status : Z; a_ErrorCode : Z }.
Record Any : Type := mkAny { any_Id : string; any_Data : string }.
Record MonitorRow : Type := mkMonitorRow { m_ClusterId : Z; m_Monitor : string }.

(** A table with an AUTOINCREMENT id, and the largest id it ever had. *)
Record Table (R : Type) : Type := mkTable { rows : list R; seq_ : Z }.
Arguments mkTable {R} _ _.
Arguments rows {R} _.
Arguments seq_ {R} _.

Record DB : Type := mkDB {
  t_version : Table Version;
  t_hosts : Table HostsRow;
  t_clusters : Table Cluster;
  t_containers : list ServiceRow;
  t_clients : list Client;
  t_playgrounds : Table Playground;
  t_audit : Table AuditLog;
  t_any : list Any;
  t_monitors : list MonitorRow;
  ticks : nat (* statements so far *);
}.

(** The tables after the statements of [init]: IF NOT EXISTS leaves tables alone. *)
Definition empty_db : DB :=
  mkDB (mkTable [] 0) (mkTable [] 0) (mkTable [] 0) [] [] (mkTable [] 0) (mkTable [] 0) [] [] 0.

Definition with_version (d : DB) t := mkDB t (t_hosts d) (t_clusters d) (t_containers d)
  (t_clients d) (t_playgrounds d) (t_audit d) (t_any d) (t_monitors d) (ticks d).
Definition with_hosts (d : DB) t := mkDB (t_version d) t (t_clusters d) (t_containers d)
  (t_clients d) (t_playgrounds d) (t_audit d) (t_any d) (t_monitors d) (ticks d).
Definition with_clusters (d : DB) t := mkDB (t_version d) (t_hosts d) t (t_containers d)
  (t_clients d) (t_playgrounds d) (t_audit d) (t_any d) (t_monitors d) (ticks d).
Definition with_containers (d : DB) t := mkDB (t_version d) (t_hosts d) (t_clusters d) t
  (t_clients d) (t_playgrounds d) (t_audit d) (t_any d) (t_monitors d) (ticks d).
Definition with_clients (d : DB) t := mkDB (t_version d) (t_hosts d) (t_clusters d)
  (t_containers d) t (t_playgrounds d) (t_audit d) (t_any d) (t_monitors d) (ticks d).
Definition with_playgrounds (d : DB) t := mkDB (t_version d) (t_hosts d) (t_clusters d)
  (t_containers d) (t_clients d) t (t_audit d) (t_any d) (t_monitors d) (ticks d).
Definition with_audit (d : DB) t := mkDB (t_version d) (t_hosts d) (t_clusters d)
  (t_containers d) (t_clients d) (t_playgrounds d) t (t_any d) (t_monitors d) (ticks d).
Definition with_any (d : DB) t := mkDB (t_version d) (t_hosts d) (t_clusters d)
  (t_containers d) (t_clients d) (t_playgrounds d) (t_audit d) t (t_monitors d) (ticks d).
Definition with_monitors (d : DB) t := mkDB (t_version d) (t_hosts d) (t_clusters d)
  (t_containers d) (t_clients d) (t_playgrounds d) (t_audit d) (t_any d) t (ticks d).
Definition tick (d : DB) : DB := mkDB (t_version d) (t_hosts d) (t_clusters d)
  (t_containers d) (t_clients d) (t_playgrounds d) (t_audit d) (t_any d) (t_monitors d) (S (ticks d)).

(** ** The driver *)

(** [fault n] is the failure of the [n]-th statement, which then changes nothing;
    [now n] is [datetime('now','localtime')] in it.  Without ORDER BY, SELECT returns
    its rows in any order. *)
Class Driver := {
  fault : nat → option error;
  now : nat → string;
  constraint_error : error;
  scan : ∀ {R : Type}, list R → list R;
  scan_perm : ∀ {R} (l : list R), scan l ≡ₚ l;
}.

Definition M (A : Type) : Type := DB → res error A * DB.
#[export] Instance M_ret : MRet M := λ A a d, (Ok a, d).
#[export] Instance M_bind : MBind M := λ A B f m d,
  match m d with
  | (Ok a, d') => f a d'
  | (Err e, d') => (Err e, d')
  | (Panic, d') => (Panic, d')
  end.
Definition fail {A} (e : error) : M A := λ d, (Err e, d).

(** ** SQL on tables *)

Section sql.
Context `{Driver}.

(** INSERT into a table with an AUTOINCREMENT id; [clash] is its UNIQUE constraint. *)
Definition insert_auto {R} (clash : R → R → bool) (mk : Z → R) (t : Table R)
    : res error (Table R * Z) :=
  let id := (seq_ t + 1)%Z in
  if decide (seq_ t = MaxInt64) then Err constraint_error
  else if existsb (clash (mk id)) (rows t) then Err constraint_error
  else Ok (mkTable (rows t ++ [mk id]) id, id).

(** INSERT into a table with the primary key [key]. *)
Definition insert_key {R K} `{EqDecision K} (key : R → K) (r : R) (t : list R)
    : res error (list R) :=
  if existsb (λ r', bool_decide (key r' = key r)) t then Err constraint_error else Ok (t ++ [r]).

(** UPDATE ... WHERE and DELETE ... WHERE. *)
Definition update_where {R} (p : R → bool) (f : R → R) (t : list R) : list R :=
  map (λ r, if p r then f r else r) t.
Definition delete_where {R} (p : R → bool) (t : list R) : list R :=
  filter (λ r, p r = false) t.
Definition update_table {R} (p : R → bool) (f : R → R) (t : Table R) : Table R :=
  mkTable (update_where p f (rows t)) (seq_ t).
Definition delete_table {R} (p : R → bool) (t : Table R) : Table R :=
  mkTable (delete_where p (rows t)) (seq_ t).

(** The characters of a text as SQLite reads UTF-8: a byte from 192 on starts a character,
    which the bytes between 128 and 191 behind it belong to; any other byte is one. *)
Definition lead_byte (a : ascii) : bool := 192 <=? nat_of_ascii a.
Definition continuation_byte (a : ascii) : bool := (128 <=? nat_of_ascii a) && (nat_of_ascii a <? 192).
Fixpoint read_chars (lead : bool) (c s : string) : list string :=
  match s with
  | EmptyString => [c]
  | String a s' =>
      if lead && continuation_byte a then read_chars lead (c +:+ String a EmptyString) s'
      else c :: read_chars (lead_byte a) (String a EmptyString) s'
  end.
Definition utf8_chars (s : string) : list string :=
  match s with
  | EmptyString => []
  | String a s' => read_chars (lead_byte a) (String a EmptyString) s'
  end.

(** The LIKE operator: [%] is any text, [_] any character, ASCII letters match in
    either case. *)
Fixpoint like_chars (pat : list string) : list string → bool :=
  match pat with
  | [] => λ s, match s with [] => true | _ => false end
  | c :: pat' =>
      if decide (c = "%") then
        fix any s := like_chars pat' s || match s with [] => false | _ :: s' => any s' end
      else λ s, match s with
                | [] => false
                | a :: s' =>
                    (bool_decide (c = "_") || bool_decide (ToLower c = ToLower a)) && like_chars pat' s'
                end
  end.
Definition like (pat s : string) : bool := like_chars (utf8_chars pat) (utf8_chars s).

(** [Write] and [Query] of a driver. *)
Definition Write {A} (f : DB → res error (DB * A)) : M A := λ d,
  match fault (ticks d) with
  | Some e => (Err e, tick d)
  | None => match f d with
            | Ok (d', a) => (Ok a, tick d')
            | Err e => (Err e, tick d)
            | Panic => (Panic, tick d)
            end
  end.
Definition Query {A} (f : DB → list A) : M (list A) := λ d,
  match fault (ticks d) with
  | Some e => (Err e, tick d)
  | None => (Ok (scan (f d)), tick d)
  end.

(** An UPDATE or DELETE, which no constraint stops. *)
Definition write (f : DB → DB) : M unit := Write (λ d, Ok (f d, tt)).

(** ** Version and hosts *)

Definition GetVersions : M (list Version) :=
  l ← Query (λ d, rows (t_version d)); mret (take 1 l).
Definition SetVersion (version lastConfirm : string) : M unit :=
  versions ← GetVersions;
  match versions with
  | [] => Write (λ d, '(t, _) ← insert_auto (λ _ _, false) (λ id, mkVersion id version "") (t_version d);
                      Ok (with_version d t, tt))
  | v :: _ => write (λ d, with_version d (update_table (λ r, bool_decide (v_Id r = v_Id v))
                (λ r, mkVersion (v_Id r) version lastConfirm) (t_version d)))
  end.

Definition GetHostses : M (list HostsRow) :=
  l ← Query (λ d, rows (t_hosts d)); mret (take 1 l).
Definition SetHosts (data : string) : M unit :=
  hostses ← GetHostses;
  match hostses with
  | [] => Write (λ d, '(t, _) ← insert_auto (λ _ _, false)
                        (λ id, mkHostsRow id data (now (ticks d))) (t_hosts d);
                      Ok (with_hosts d t, tt))
  | h :: _ => write (λ d, with_hosts d (update_table (λ r, bool_decide (h_Id r = h_Id h))
                (λ r, mkHostsRow (h_Id r) data (now (ticks d))) (t_hosts d)))
  end.

(** ** Clusters *)

Definition c_named (name : string) (r : Cluster) : bool := bool_decide (c_Name r = name).

Definition InsertCluster (name uuid description topology : string) : M unit :=
  Write (λ d, '(t, _) ← insert_auto (λ r r', c_named (c_Name r) r')
                (λ id, mkCluster id uuid name description (now (ticks d)) topology "" false)
                (t_clusters d);
              Ok (with_clusters d t, tt)).
Definition DeleteCluster (name : string) : M unit :=
  write (λ d, with_clusters d (delete_table (c_named name) (t_clusters d))).

Definition getClusters (p : Cluster → bool) : M (list Cluster) :=
  Query (λ d, filter (λ r, p r = true) (rows (t_clusters d))).
Definition GetClusters (name : string) : M (list Cluster) := getClusters (λ r, like name (c_Name r)).
Definition GetClusterByName (name : string) : M Cluster :=
  clusters ← getClusters (c_named name);
  match clusters with
  | [c] => mret c
  | _ => fail (EText ("cluster not found: " +:+ name))
  end.

Definition c_rename (new : string) (r : Cluster) : Cluster :=
  mkCluster (c_Id r) (c_UUId r) new (c_Description r) (c_CreateTime r) (c_Topology r) (c_Pool r) (c_Current r).
Definition RenameClusterName (oldName newName : string) : M unit :=
  clusters ← GetClusters newName;
  match clusters with
  | _ :: _ => fail (EText ("cluster name already exists: " +:+ newName))
  | [] =>
      Write (λ d,
        let renamed := filter (λ r, c_named oldName r = true) (rows (t_clusters d)) in
        let others := filter (λ r, c_named oldName r = false) (rows (t_clusters d)) in
        if bool_decide (renamed ≠ []) && existsb (c_named newName) others then Err constraint_error
        else Ok (with_clusters d (update_table (c_named oldName) (c_rename newName) (t_clusters d)), tt))
  end.

Definition c_checkout (name : string) (r : Cluster) : Cluster :=
  mkCluster (c_Id r) (c_UUId r) (c_Name r) (c_Description r) (c_CreateTime r) (c_Topology r) (c_Pool r)
    (c_named name r).
Definition CheckoutCluster (name : string) : M unit :=
  write (λ d, with_clusters d (update_table (λ _, true) (c_checkout name) (t_clusters d))).

Definition no_cluster : Cluster := mkCluster (-1) "" "" "" "" "" "" false.
Definition GetCurrentCluster : M Cluster :=
  clusters ← getClusters c_Current;
  match clusters with [c] => mret c | _ => mret no_cluster end.

Definition c_with_topology (topology pool : string) (r : Cluster) : Cluster :=
  mkCluster (c_Id r) (c_UUId r) (c_Name r) (c_Description r) (c_CreateTime r) topology pool (c_Current r).
Definition SetClusterTopology (id : Z) (topology : string) : M unit :=
  write (λ d, with_clusters d (update_table (λ r, bool_decide (c_Id r = id))
                (λ r, c_with_topology topology (c_Pool r) r) (t_clusters d))).
Definition SetClusterPool (id : Z) (topology pool : string) : M unit :=
  write (λ d, with_clusters d (update_table (λ r, bool_decide (c_Id r = id))
                (c_with_topology topology pool) (t_clusters d))).

(** ** Services *)

Definition sv_is (id : string) (r : ServiceRow) : bool := bool_decide (sv_Id r = id).
Definition InsertService (clusterId : Z) (serviceId containerId : string) : M unit :=
  Write (λ d, t ← insert_key sv_Id (mkServiceRow serviceId clusterId containerId) (t_containers d);
              Ok (with_containers d t, tt)).
Definition getServices (p : ServiceRow → bool) : M (list ServiceRow) :=
  Query (λ d, filter (λ r, p r = true) (t_containers d)).
Definition GetServices (clusterId : Z) : M (list ServiceRow) :=
  getServices (λ r, bool_decide (sv_ClusterId r = clusterId)).
Definition st_GetContainerId (serviceId : string) : M string :=
  services ← getServices (sv_is serviceId);
  match services with [] => mret "" | s :: _ => mret (sv_ContainerId s) end.
Definition SetContainId (serviceId containerId : string) : M unit :=
  write (λ d, with_containers d (update_where (sv_is serviceId)
                (λ r, mkServiceRow (sv_Id r) (sv_ClusterId r) containerId) (t_containers d))).

(** ** Clients *)

Definition cl_is (id : string) (r : Client) : bool := bool_decide (cl_Id r = id).
Definition InsertClient (id kind host containerId auxInfo : string) : M unit :=
  Write (λ d, t ← insert_key cl_Id (mkClient id kind host containerId auxInfo) (t_clients d);
              Ok (with_clients d t, tt)).
(** The first placeholder of the statement is the column, the second the id: the call
    passes them in the other order. *)
Definition SetClientAuxInfo (id auxInfo : string) : M unit :=
  write (λ d, with_clients d (update_where (cl_is auxInfo)
                (λ r, mkClient (cl_Id r) (cl_Kind r) (cl_Host r) (cl_ContainerId r) id) (t_clients d))).
Definition getClients (p : Client → bool) : M (list Client) :=
  Query (λ d, filter (λ r, p r = true) (t_clients d)).
Definition GetClientContainerId (id : string) : M string :=
  clients ← getClients (cl_is id);
  match clients with [] => mret "" | c :: _ => mret (cl_ContainerId c) end.
Definition GetClient (id : string) : M (list Client) := getClients (cl_is id).
Definition GetClients : M (list Client) := getClients (λ _, true).
Definition DeleteClient (id : string) : M unit :=
  write (λ d, with_clients d (delete_where (cl_is id) (t_clients d))).

(** ** Playgrounds *)

Definition p_named (name : string) (r : Playground) : bool := bool_decide (p_Name r = name).
Definition InsertPlayground (name mountPoint : string) : M unit :=
  Write (λ d, '(t, _) ← insert_auto (λ r r', p_named (p_Name r) r')
                (λ id, mkPlayground id name (now (ticks d)) mountPoint "") (t_playgrounds d);
              Ok (with_playgrounds d t, tt)).
Definition SetPlaygroundStatus (name status : string) : M unit :=
  write (λ d, with_playgrounds d (update_table (p_named name)
                (λ r, mkPlayground (p_Id r) (p_Name r) (p_CreateTime r) (p_MountPoint r) status)
                (t_playgrounds d))).
Definition DeletePlayground (name : string) : M unit :=
  write (λ d, with_playgrounds d (delete_table (p_named name) (t_playgrounds d))).
Definition getPlaygrounds (p : Playground → bool) : M (list Playground) :=
  Query (λ d, filter (λ r, p r = true) (rows (t_playgrounds d))).
Definition GetPlaygrounds (name : string) : M (list Playground) :=
  getPlaygrounds (λ r, like name (p_Name r)).
(** An id of the column type is compared as a number. *)
Definition GetPlaygroundById (id : string) : M (list Playground) :=
  getPlaygrounds (λ r, bool_decide (Atoi id = Some (p_Id r))).

(** ** Audit log *)

Definition a_is (id : Z) (r : AuditLog) : bool := bool_decide (a_Id r = id).
Definition InsertAuditLog (time workDir command : string) (status : Z) : M Z :=
  Write (λ d, '(t, id) ← insert_auto (λ _ _, false)
                (λ id, mkAuditLog id time workDir command status 0) (t_audit d);
              Ok (with_audit d t, id)).
Definition SetAuditLogStatus (id status errorCode : Z) : M unit :=
  write (λ d, with_audit d (update_table (a_is id)
                (λ r, mkAuditLog (a_Id r) (a_ExecuteTime r) (a_WorkDirectory r) (a_Command r)
                        status errorCode) (t_audit d))).
Definition getAuditLogs (p : AuditLog → bool) : M (list AuditLog) :=
  Query (λ d, filter (λ r, p r = true) (rows (t_audit d))).
Definition GetAuditLogs : M (list AuditLog) := getAuditLogs (λ _, true).
Definition GetAuditLog (id : Z) : M (list AuditLog) := getAuditLogs (a_is id).

(** ** Client configurations, in the table [any] *)

Definition PREFIX_CLIENT_CONFIG : Z := 1.
Definition realId (prefix : Z) (id : string) : string := Itoa prefix +:+ ":" +:+ id.
Definition any_is (id : string) (r : Any) : bool := bool_decide (any_Id r = id).
Definition InsertClientConfig (id data : string) : M unit :=
  Write (λ d, t ← insert_key any_Id (mkAny (realId PREFIX_CLIENT_CONFIG id) data) (t_any d);
              Ok (with_any d t, tt)).
Definition GetClientConfig (id : string) : M (list Any) :=
  Query (λ d, filter (λ r, any_is (realId PREFIX_CLIENT_CONFIG id) r = true) (t_any d)).
Definition DeleteClientConfig (id : string) : M unit :=
  write (λ d, with_any d (delete_where (any_is (realId PREFIX_CLIENT_CONFIG id)) (t_any d))).

(** ** Monitors *)

Definition m_is (clusterId : Z) (r : MonitorRow) : bool := bool_decide (m_ClusterId r = clusterId).
Definition GetMonitor (clusterId : Z) : M MonitorRow :=
  l ← Query (λ d, m_Monitor <$> filter (λ r, m_is clusterId r = true) (t_monitors d));
  mret (foldl (λ m text, mkMonitorRow (m_ClusterId m) text) (mkMonitorRow clusterId "") l).
Definition InsertMonitor (m : MonitorRow) : M unit :=
  Write (λ d, t ← insert_key m_ClusterId m (t_monitors d); Ok (with_monitors d t, tt)).
Definition UpdateMonitor (m : MonitorRow) : M unit :=
  write (λ d, with_monitors d (update_where (m_is (m_ClusterId m))
                (λ r, mkMonitorRow (m_ClusterId r) (m_Monitor m)) (t_monitors d))).
Definition DeleteMonitor (clusterId : Z) : M unit :=
  write (λ d, with_monitors d (delete_where (m_is clusterId) (t_monitors d))).
Definition ReplaceMonitor (m : MonitorRow) : M unit :=
  write (λ d, with_monitors d (delete_where (m_is (m_ClusterId m)) (t_monitors d) ++ [m])).
End sql.
