(* ===== verification/StorageFacts.v ===== *)
(** The database refines a specification without tables: a map per table, one hosts
    file, one current cluster.  [db_ok] is what every operation keeps, [abs] the
    specification state of a database, [spec_step] what each operation does to it. *)

From S2P Require Import Prelude Errno GoLib Storage.
From Stdlib Require Import Ascii.

(** ** Keyed tables *)

Section keyed_rows.
Context {R K V : Type} `{Countable K} (key : R → K) (val : R → V).

Definition tab (l : list R) : gmap K V := list_to_map ((λ r, (key r, val r)) <$> l).

Lemma tab_lookup l k v :
  NoDup (key <$> l) → tab l !! k = Some v ↔ ∃ r, r ∈ l ∧ key r = k ∧ val r = v.
Proof.
  intros Hnd. unfold tab. rewrite <-elem_of_list_to_map.
  - rewrite list_elem_of_fmap. naive_solver.
  - rewrite <-list_fmap_compose. exact Hnd.
Qed.

Lemma tab_None l k : tab l !! k = None ↔ k ∉ key <$> l.
Proof.
  unfold tab. split.
  - intros Hn. apply not_elem_of_list_to_map_2 in Hn. by rewrite <-list_fmap_compose in Hn.
  - intros Hn. apply not_elem_of_list_to_map_1. by rewrite <-list_fmap_compose.
Qed.

Lemma tab_dom l k : is_Some (tab l !! k) ↔ k ∈ key <$> l.
Proof.
  rewrite <-not_eq_None_Some, tab_None. split; [apply dec_stable|tauto].
Qed.

Lemma tab_ext l m :
  NoDup (key <$> l) → (∀ k v, m !! k = Some v ↔ ∃ r, r ∈ l ∧ key r = k ∧ val r = v) → tab l = m.
Proof.
  intros Hnd Hm. apply map_eq. intros k. apply option_eq. intros v.
  by rewrite tab_lookup, Hm.
Qed.

Lemma keys_snoc l r : NoDup (key <$> l) → key r ∉ key <$> l → NoDup (key <$> l ++ [r]).
Proof.
  intros Hnd Hk. rewrite fmap_app. apply NoDup_app. split_and!; [done| |apply NoDup_singleton].
  intros x Hx Hx'. apply list_elem_of_singleton in Hx' as ->. done.
Qed.

Lemma tab_snoc l r :
  NoDup (key <$> l) → key r ∉ key <$> l → tab (l ++ [r]) = <[key r := val r]> (tab l).
Proof.
  intros Hnd Hk. apply tab_ext; [by apply keys_snoc|]. intros k v.
  rewrite lookup_insert_Some, (tab_lookup l) by done. setoid_rewrite elem_of_app.
  setoid_rewrite list_elem_of_singleton. split.
  - intros [[<- <-]|(Hne & r' & ? & ? & ?)]; eauto 6.
  - intros (r' & [Hr| ->] & <- & <-); [right|by left]. split; [|eauto].
    intros Heq. apply Hk. rewrite Heq. by apply list_elem_of_fmap_2.
Qed.

Lemma keys_filter (P : R → Prop) `{∀ r, Decision (P r)} l :
  NoDup (key <$> l) → NoDup (key <$> filter P l).
Proof.
  intros Hnd. eapply sublist_NoDup; [|apply fmap_sublist, (sublist_filter P)]. done.
Qed.

Lemma keys_delete p l : NoDup (key <$> l) → NoDup (key <$> delete_where p l).
Proof. apply keys_filter. Qed.

Lemma tab_delete l k :
  NoDup (key <$> l) →
  tab (delete_where (λ r, bool_decide (key r = k)) l) = delete k (tab l).
Proof.
  intros Hnd. apply tab_ext; [by apply keys_filter|]. intros k' v.
  rewrite lookup_delete_Some, (tab_lookup l) by done. unfold delete_where.
  setoid_rewrite list_elem_of_filter. setoid_rewrite bool_decide_eq_false.
  split; [intros (? & r & ? & <- & <-)|intros (r & [? ?] & <- & <-)]; naive_solver.
Qed.

Lemma keys_update p f l :
  (∀ r, key (f r) = key r) → key <$> update_where p f l = key <$> l.
Proof.
  intros Hf. unfold update_where. induction l as [|r l IH]; simpl; [done|].
  f_equal; [by destruct (p r)|exact IH].
Qed.

(** An update that keeps the keys and reads only the values. *)
Lemma tab_update (p : R → bool) (f : R → R) (p' : K → V → bool) (g : V → V) l :
  (∀ r, key (f r) = key r) → (∀ r, p r = p' (key r) (val r)) → (∀ r, val (f r) = g (val r)) →
  tab (update_where p f l) = map_imap (λ k v, Some (if p' k v then g v else v)) (tab l).
Proof.
  intros Hk Hp Hv. apply map_eq. intros k. unfold tab, update_where. rewrite map_lookup_imap.
  induction l as [|r l IH]; simpl; [by rewrite !lookup_empty|].
  assert (key (if p r then f r else r) = key r) as -> by (by destruct (p r)).
  destruct (decide (k = key r)) as [->|Hne].
  - rewrite !lookup_insert_eq. simpl. rewrite Hp. destruct (p' _ _); [by rewrite Hv|done].
  - rewrite !lookup_insert_ne by done. exact IH.
Qed.

Lemma tab_update_key f g l k :
  (∀ r, key (f r) = key r) → (∀ r, val (f r) = g (val r)) →
  tab (update_where (λ r, bool_decide (key r = k)) f l) = alter g k (tab l).
Proof.
  intros Hk Hv.
  rewrite (tab_update _ _ (λ k' _, bool_decide (k' = k)) g) by done.
  apply map_eq. intros k'. rewrite map_lookup_imap. destruct (decide (k = k')) as [->|Hne].
  - rewrite lookup_alter_eq. destruct (tab l !! k'); simpl; [|done].
    by rewrite bool_decide_eq_true_2.
  - rewrite lookup_alter_ne by done. destruct (tab l !! k'); simpl; [|done].
    by rewrite bool_decide_eq_false_2.
Qed.
End keyed_rows.

Lemma existsb_key {R K} `{EqDecision K} (key : R → K) l k :
  existsb (λ r, bool_decide (key r = k)) l = true ↔ k ∈ key <$> l.
Proof.
  rewrite existsb_exists, list_elem_of_fmap. setoid_rewrite <-list_elem_of_In.
  setoid_rewrite bool_decide_eq_true. naive_solver.
Qed.

(** ** The specification *)

Record ClusterInfo : Type := mkClusterInfo {
  ci_Id : Z; ci_UUId : string; ci_Description : string; ci_Topology : string; ci_Pool : string }.

Record Spec : Type := mkSpec {
  sp_version : option (string * string);
  sp_hosts : option string;
  sp_clusters : gmap string ClusterInfo;
  sp_current : option string;
  sp_services : gmap string (Z * string);
  sp_clients : gmap string (string * string * string * string);
  sp_playgrounds : gmap string (string * string);
  sp_audit : gmap Z (string * string * string * Z * Z);
  sp_any : gmap string string;
  sp_monitors : gmap Z string;
}.

Definition version_val (r : Version) : string * string := (v_Version r, v_LastConfirm r).
Definition cluster_val (r : Cluster) : ClusterInfo :=
  mkClusterInfo (c_Id r) (c_UUId r) (c_Description r) (c_Topology r) (c_Pool r).
Definition service_val (r : ServiceRow) : Z * string := (sv_ClusterId r, sv_ContainerId r).
Definition client_val (r : Client) : string * string * string * string :=
  (cl_Kind r, cl_Host r, cl_ContainerId r, cl_AuxInfo r).
Definition playground_val (r : Playground) : string * string := (p_MountPoint r, p_Status r).
Definition audit_val (r : AuditLog) : string * string * string * Z * Z :=
  (a_ExecuteTime r, a_WorkDirectory r, a_Command r, a_Status r, a_ErrorCode r).

Definition clusters_map (l : list Cluster) : gmap string ClusterInfo := tab c_Name cluster_val l.
Definition current_name (l : list Cluster) : option string := c_Name <$> find_first c_Current l.

Definition abs (d : DB) : Spec := mkSpec
  (version_val <$> head (rows (t_version d)))
  (h_Data <$> head (rows (t_hosts d)))
  (clusters_map (rows (t_clusters d)))
  (current_name (rows (t_clusters d)))
  (tab sv_Id service_val (t_containers d))
  (tab cl_Id client_val (t_clients d))
  (tab p_Name playground_val (rows (t_playgrounds d)))
  (tab a_Id audit_val (rows (t_audit d)))
  (tab any_Id any_Data (t_any d))
  (tab m_ClusterId m_Monitor (t_monitors d)).

(** What holds of every database: single rows, unique keys, ids below the sequence, at
    most one current cluster. *)
Definition ids_ok {R} (id : R → Z) (t : Table R) : Prop :=
  NoDup (id <$> rows t) ∧ Forall (λ r, (0 < id r ≤ seq_ t)%Z) (rows t) ∧ (0 ≤ seq_ t)%Z.
Definition one_current (l : list Cluster) : Prop :=
  ∀ r r', r ∈ l → r' ∈ l → c_Current r = true → c_Current r' = true → c_Name r = c_Name r'.
Definition clusters_ok (t : Table Cluster) : Prop :=
  NoDup (c_Name <$> rows t) ∧ ids_ok c_Id t ∧ one_current (rows t).

Definition db_ok (d : DB) : Prop :=
  length (rows (t_version d)) ≤ 1 ∧ length (rows (t_hosts d)) ≤ 1 ∧
  clusters_ok (t_clusters d) ∧
  NoDup (sv_Id <$> t_containers d) ∧ NoDup (cl_Id <$> t_clients d) ∧
  NoDup (p_Name <$> rows (t_playgrounds d)) ∧ ids_ok a_Id (t_audit d) ∧
  NoDup (any_Id <$> t_any d) ∧ NoDup (m_ClusterId <$> t_monitors d).

(** The operations that write. *)
Inductive Op : Type :=
| OSetVersion (version lastConfirm : string)
| OSetHosts (data : string)
| OInsertCluster (name uuid description topology : string)
| ODeleteCluster (name : string)
| ORenameClusterName (oldName newName : string)
| OCheckoutCluster (name : string)
| OSetClusterTopology (id : Z) (topology : string)
| OSetClusterPool (id : Z) (topology pool : string)
| OInsertService (clusterId : Z) (serviceId containerId : string)
| OSetContainId (serviceId containerId : string)
| OInsertClient (id kind host containerId auxInfo : string)
| OSetClientAuxInfo (id auxInfo : string)
| ODeleteClient (id : string)
| OInsertPlayground (name mountPoint : string)
| OSetPlaygroundStatus (name status : string)
| ODeletePlayground (name : string)
| OInsertAuditLog (time workDir command : string) (status : Z)
| OSetAuditLogStatus (id status errorCode : Z)
| OInsertClientConfig (id data : string)
| ODeleteClientConfig (id : string)
| OInsertMonitor (m : MonitorRow)
| OUpdateMonitor (m : MonitorRow)
| ODeleteMonitor (clusterId : Z)
| OReplaceMonitor (m : MonitorRow).

(** A text matches itself as a pattern. *)
Lemma like_chars_refl l : like_chars l l = true.
Proof.
  induction l as [|c l IH]; [done|]. simpl. case_decide as Hc.
  - apply orb_true_iff. right. destruct l; simpl in *; by rewrite ?IH.
  - rewrite IH, bool_decide_eq_true_2 with (P := ToLower c = ToLower c) by done.
    by rewrite orb_true_r.
Qed.
Lemma like_refl s : like s s = true.
Proof. apply like_chars_refl. Qed.

Section exec.
Context `{Driver}.

(** The call of an operation; [InsertAuditLog] returns the id of its row. *)
Definition exec (op : Op) : M (option Z) :=
  let unit_ (m : M unit) : M (option Z) := _ ← m; mret None in
  match op with
  | OSetVersion v l => unit_ (SetVersion v l)
  | OSetHosts x => unit_ (SetHosts x)
  | OInsertCluster n u de t => unit_ (InsertCluster n u de t)
  | ODeleteCluster n => unit_ (DeleteCluster n)
  | ORenameClusterName o n => unit_ (RenameClusterName o n)
  | OCheckoutCluster n => unit_ (CheckoutCluster n)
  | OSetClusterTopology i t => unit_ (SetClusterTopology i t)
  | OSetClusterPool i t p => unit_ (SetClusterPool i t p)
  | OInsertService c s i => unit_ (InsertService c s i)
  | OSetContainId s i => unit_ (SetContainId s i)
  | OInsertClient i k h c a => unit_ (InsertClient i k h c a)
  | OSetClientAuxInfo i a => unit_ (SetClientAuxInfo i a)
  | ODeleteClient i => unit_ (DeleteClient i)
  | OInsertPlayground n m => unit_ (InsertPlayground n m)
  | OSetPlaygroundStatus n s => unit_ (SetPlaygroundStatus n s)
  | ODeletePlayground n => unit_ (DeletePlayground n)
  | OInsertAuditLog t w c s => id ← InsertAuditLog t w c s; mret (Some id)
  | OSetAuditLogStatus i s c => unit_ (SetAuditLogStatus i s c)
  | OInsertClientConfig i x => unit_ (InsertClientConfig i x)
  | ODeleteClientConfig i => unit_ (DeleteClientConfig i)
  | OInsertMonitor m => unit_ (InsertMonitor m)
  | OUpdateMonitor m => unit_ (UpdateMonitor m)
  | ODeleteMonitor c => unit_ (DeleteMonitor c)
  | OReplaceMonitor m => unit_ (ReplaceMonitor m)
  end.
End exec.

Definition set_clusters (s : Spec) cs cur := mkSpec (sp_version s) (sp_hosts s) cs cur
  (sp_services s) (sp_clients s) (sp_playgrounds s) (sp_audit s) (sp_any s) (sp_monitors s).
Definition set_services (s : Spec) x := mkSpec (sp_version s) (sp_hosts s) (sp_clusters s) (sp_current s)
  x (sp_clients s) (sp_playgrounds s) (sp_audit s) (sp_any s) (sp_monitors s).
Definition set_clients (s : Spec) x := mkSpec (sp_version s) (sp_hosts s) (sp_clusters s) (sp_current s)
  (sp_services s) x (sp_playgrounds s) (sp_audit s) (sp_any s) (sp_monitors s).
Definition set_playgrounds (s : Spec) x := mkSpec (sp_version s) (sp_hosts s) (sp_clusters s) (sp_current s)
  (sp_services s) (sp_clients s) x (sp_audit s) (sp_any s) (sp_monitors s).
Definition set_audit (s : Spec) x := mkSpec (sp_version s) (sp_hosts s) (sp_clusters s) (sp_current s)
  (sp_services s) (sp_clients s) (sp_playgrounds s) x (sp_any s) (sp_monitors s).
Definition set_any (s : Spec) x := mkSpec (sp_version s) (sp_hosts s) (sp_clusters s) (sp_current s)
  (sp_services s) (sp_clients s) (sp_playgrounds s) (sp_audit s) x (sp_monitors s).
Definition set_monitors (s : Spec) x := mkSpec (sp_version s) (sp_hosts s) (sp_clusters s) (sp_current s)
  (sp_services s) (sp_clients s) (sp_playgrounds s) (sp_audit s) (sp_any s) x.
Definition set_singles (s : Spec) v h := mkSpec v h (sp_clusters s) (sp_current s)
  (sp_services s) (sp_clients s) (sp_playgrounds s) (sp_audit s) (sp_any s) (sp_monitors s).

(** Entries under a condition on the value, as the updates by id. *)
Definition alter_where {K V} `{Countable K} (p : V → bool) (g : V → V) (m : gmap K V) : gmap K V :=
  map_imap (λ _ v, Some (if p v then g v else v)) m.
Definition ci_with (topology pool : ClusterInfo → string) (c : ClusterInfo) : ClusterInfo :=
  mkClusterInfo (ci_Id c) (ci_UUId c) (ci_Description c) (topology c) (pool c).

Definition spec_step (op : Op) (s : Spec) (r : option Z) (s' : Spec) : Prop :=
  match op with
  | OSetVersion v l =>
      r = None ∧ s' = set_singles s (Some (v, match sp_version s with None => "" | Some _ => l end)) (sp_hosts s)
  | OSetHosts x => r = None ∧ s' = set_singles s (sp_version s) (Some x)
  | OInsertCluster n u de t =>
      r = None ∧ sp_clusters s !! n = None ∧
      ∃ id, (∀ n' c, sp_clusters s !! n' = Some c → ci_Id c ≠ id) ∧
        s' = set_clusters s (<[n := mkClusterInfo id u de t ""]> (sp_clusters s)) (sp_current s)
  | ODeleteCluster n =>
      r = None ∧ s' = set_clusters s (delete n (sp_clusters s))
                        (if decide (sp_current s = Some n) then None else sp_current s)
  | ORenameClusterName o n =>
      r = None ∧ (∀ n', is_Some (sp_clusters s !! n') → like n n' = false) ∧
      s' = match sp_clusters s !! o with
           | None => s
           | Some c => set_clusters s (<[n := c]> (delete o (sp_clusters s)))
                         (if decide (sp_current s = Some o) then Some n else sp_current s)
           end
  | OCheckoutCluster n =>
      r = None ∧ s' = set_clusters s (sp_clusters s) (sp_clusters s !! n ≫= λ _, Some n)
  | OSetClusterTopology i t =>
      r = None ∧ s' = set_clusters s (alter_where (λ c, bool_decide (ci_Id c = i))
                        (ci_with (λ _, t) ci_Pool) (sp_clusters s)) (sp_current s)
  | OSetClusterPool i t p =>
      r = None ∧ s' = set_clusters s (alter_where (λ c, bool_decide (ci_Id c = i))
                        (ci_with (λ _, t) (λ _, p)) (sp_clusters s)) (sp_current s)
  | OInsertService c i x =>
      r = None ∧ sp_services s !! i = None ∧ s' = set_services s (<[i := (c, x)]> (sp_services s))
  | OSetContainId i x =>
      r = None ∧ s' = set_services s (alter (λ p, (p.1, x)) i (sp_services s))
  | OInsertClient i k h c a =>
      r = None ∧ sp_clients s !! i = None ∧ s' = set_clients s (<[i := (k, h, c, a)]> (sp_clients s))
  | OSetClientAuxInfo i a =>
      r = None ∧ s' = set_clients s (alter (λ p, (p.1, i)) a (sp_clients s))
  | ODeleteClient i => r = None ∧ s' = set_clients s (delete i (sp_clients s))
  | OInsertPlayground n m =>
      r = None ∧ sp_playgrounds s !! n = None ∧
      s' = set_playgrounds s (<[n := (m, "")]> (sp_playgrounds s))
  | OSetPlaygroundStatus n st =>
      r = None ∧ s' = set_playgrounds s (alter (λ p, (p.1, st)) n (sp_playgrounds s))
  | ODeletePlayground n => r = None ∧ s' = set_playgrounds s (delete n (sp_playgrounds s))
  | OInsertAuditLog t w c st =>
      ∃ id, r = Some id ∧ sp_audit s !! id = None ∧
        s' = set_audit s (<[id := (t, w, c, st, 0%Z)]> (sp_audit s))
  | OSetAuditLogStatus i st c =>
      r = None ∧ s' = set_audit s (alter (λ p, (p.1.1, st, c)) i (sp_audit s))
  | OInsertClientConfig i x =>
      let k := realId PREFIX_CLIENT_CONFIG i in
      r = None ∧ sp_any s !! k = None ∧ s' = set_any s (<[k := x]> (sp_any s))
  | ODeleteClientConfig i =>
      r = None ∧ s' = set_any s (delete (realId PREFIX_CLIENT_CONFIG i) (sp_any s))
  | OInsertMonitor m =>
      r = None ∧ sp_monitors s !! m_ClusterId m = None ∧
      s' = set_monitors s (<[m_ClusterId m := m_Monitor m]> (sp_monitors s))
  | OUpdateMonitor m =>
      r = None ∧ s' = set_monitors s (alter (λ _, m_Monitor m) (m_ClusterId m) (sp_monitors s))
  | ODeleteMonitor c => r = None ∧ s' = set_monitors s (delete c (sp_monitors s))
  | OReplaceMonitor m =>
      r = None ∧ s' = set_monitors s (<[m_ClusterId m := m_Monitor m]> (sp_monitors s))
  end.

(** ** Tables with an AUTOINCREMENT id *)

Lemma insert_auto_cases `{Driver} {R} (clash : R → R → bool) (mk : Z → R) (t : Table R) :
  match insert_auto clash mk t with
  | Ok (t', id) => id = (seq_ t + 1)%Z ∧ t' = mkTable (rows t ++ [mk id]) id ∧
                   (∀ r, r ∈ rows t → clash (mk id) r = false) ∧ seq_ t ≠ MaxInt64
  | Err e => e = constraint_error ∧
             (seq_ t = MaxInt64 ∨ ∃ r, r ∈ rows t ∧ clash (mk (seq_ t + 1)%Z) r = true)
  | Panic => False
  end.
Proof.
  unfold insert_auto. case_decide as Hs; [auto|].
  destruct (existsb _ _) eqn:E.
  - split; [done|]. right. apply existsb_exists in E as (r & Hr & Hc).
    exists r. by rewrite list_elem_of_In.
  - split_and!; try done. intros r Hr. destruct (clash _ r) eqn:Hc; [|done].
    apply not_true_iff_false in E. destruct E. apply existsb_exists. exists r.
    by rewrite <-list_elem_of_In.
Qed.

Section ids.
Context {R : Type} (id : R → Z).

Lemma ids_ok_snoc t r :
  ids_ok id t → id r = (seq_ t + 1)%Z → ids_ok id (mkTable (rows t ++ [r]) (seq_ t + 1)).
Proof.
  intros (Hnd & Hf & Hs) Hr. unfold ids_ok. simpl. split_and!; [|apply Forall_app; split|lia].
  - apply keys_snoc; [done|]. intros (r' & Heq & Hr')%list_elem_of_fmap.
    rewrite Forall_forall in Hf. specialize (Hf r' Hr'). lia.
  - eapply Forall_impl; [exact Hf|]. simpl. lia.
  - apply Forall_singleton. lia.
Qed.

Lemma ids_ok_delete p t : ids_ok id t → ids_ok id (delete_table p t).
Proof.
  intros (Hnd & Hf & Hs). unfold ids_ok, delete_table, delete_where. simpl.
  split_and!; [by apply keys_filter| |done].
  rewrite Forall_forall in Hf |- *. intros r [_ Hr]%list_elem_of_filter. auto.
Qed.

Lemma ids_ok_update p f t :
  (∀ r, id (f r) = id r) → ids_ok id t → ids_ok id (update_table p f t).
Proof.
  intros Hk (Hnd & Hf & Hs). unfold ids_ok, update_table. simpl. rewrite keys_update by done.
  split_and!; [done| |done]. unfold update_where. apply Forall_map.
  eapply Forall_impl; [exact Hf|]. intros r. destruct (p r); rewrite ?Hk; done.
Qed.

Lemma ids_ok_fresh t r : ids_ok id t → r ∈ rows t → id r ≠ (seq_ t + 1)%Z.
Proof. intros (_ & Hf & _) Hr. rewrite Forall_forall in Hf. specialize (Hf r Hr). lia. Qed.
End ids.

(** ** The clusters table *)

Lemma current_name_spec l n :
  one_current l → current_name l = Some n ↔ ∃ r, r ∈ l ∧ c_Current r = true ∧ c_Name r = n.
Proof.
  intros Hone. unfold current_name. destruct (find_first c_Current l) as [r|] eqn:E; simpl.
  - apply find_first_Some in E as [Hr Hc]. split.
    + intros [= <-]. eauto.
    + intros (r' & Hr' & Hc' & <-). f_equal. by apply Hone.
  - split; [done|]. intros (r & Hr & Hc & _).
    rewrite find_first_None in E. by rewrite E in Hc.
Qed.

Lemma current_name_ext l l' :
  one_current l → one_current l' →
  (∀ n, (∃ r, r ∈ l ∧ c_Current r = true ∧ c_Name r = n) ↔
        (∃ r, r ∈ l' ∧ c_Current r = true ∧ c_Name r = n)) →
  current_name l = current_name l'.
Proof. intros H1 H2 Hl. apply option_eq. intros n. by rewrite !current_name_spec. Qed.

Lemma elem_of_update {R} p (f : R → R) l r :
  r ∈ update_where p f l ↔ ∃ r', r' ∈ l ∧ r = if p r' then f r' else r'.
Proof.
  unfold update_where. rewrite list_elem_of_In, in_map_iff. setoid_rewrite list_elem_of_In.
  naive_solver.
Qed.

Lemma elem_of_delete {R} p (l : list R) r : r ∈ delete_where p l ↔ r ∈ l ∧ p r = false.
Proof. unfold delete_where. rewrite list_elem_of_filter. tauto. Qed.

Lemma c_named_true n r : c_named n r = true ↔ c_Name r = n.
Proof. apply bool_decide_eq_true. Qed.
Lemma c_named_false n r : c_named n r = false ↔ c_Name r ≠ n.
Proof. apply bool_decide_eq_false. Qed.

Lemma one_current_update p f l :
  (∀ r, c_Current (f r) = c_Current r) → (∀ r, c_Name (f r) = c_Name r) →
  one_current l → one_current (update_where p f l).
Proof.
  intros Hc Hn Hone r r' (r0 & H0 & ->)%elem_of_update (r1 & H1 & ->)%elem_of_update.
  specialize (Hone r0 r1 H0 H1). destruct (p r0), (p r1); rewrite ?Hc, ?Hn; done.
Qed.

Lemma current_update p f l :
  (∀ r, c_Current (f r) = c_Current r) → (∀ r, c_Name (f r) = c_Name r) →
  current_name (update_where p f l) = current_name l.
Proof.
  intros Hc Hn. unfold current_name, update_where. induction l as [|r l IH]; simpl; [done|].
  assert (c_Current (if p r then f r else r) = c_Current r) as -> by (destruct (p r); auto).
  destruct (c_Current r); [|exact IH]. simpl. f_equal. destruct (p r); auto.
Qed.

Lemma clusters_insert t name uuid description time topology :
  clusters_ok t → name ∉ c_Name <$> rows t →
  let r := mkCluster (seq_ t + 1) uuid name description time topology "" false in
  clusters_ok (mkTable (rows t ++ [r]) (seq_ t + 1)) ∧
  clusters_map (rows t ++ [r]) = <[name := cluster_val r]> (clusters_map (rows t)) ∧
  current_name (rows t ++ [r]) = current_name (rows t).
Proof.
  intros (Hn & Hi & Ho) Hni r.
  assert (one_current (rows t ++ [r])) as Ho'.
  { intros r1 r2. rewrite !elem_of_app, !list_elem_of_singleton.
    intros [?| ->] [?| ->]; simpl; intros; try done. by apply Ho. }
  split_and!.
  - split_and!; [by apply keys_snoc|by apply ids_ok_snoc|exact Ho'].
  - by apply tab_snoc.
  - apply current_name_ext; [done..|]. intros n. setoid_rewrite elem_of_app.
    setoid_rewrite list_elem_of_singleton. split; [|naive_solver].
    intros (r1 & [?| ->] & Hc & ?); [eauto|done].
Qed.

Lemma clusters_delete t name :
  clusters_ok t →
  clusters_ok (delete_table (c_named name) t) ∧
  clusters_map (delete_where (c_named name) (rows t)) = delete name (clusters_map (rows t)) ∧
  current_name (delete_where (c_named name) (rows t))
  = (if decide (current_name (rows t) = Some name) then None else current_name (rows t)).
Proof.
  intros (Hn & Hi & Ho).
  assert (one_current (delete_where (c_named name) (rows t))) as Ho'.
  { intros r1 r2 [? _]%elem_of_delete [? _]%elem_of_delete. by apply Ho. }
  split_and!.
  - split_and!; [by apply keys_filter|by apply ids_ok_delete|exact Ho'].
  - by apply tab_delete.
  - apply option_eq. intros n. rewrite current_name_spec by done.
    setoid_rewrite elem_of_delete. setoid_rewrite c_named_false.
    case_decide as Hd; rewrite current_name_spec in Hd by done.
    + destruct Hd as (r0 & Hr0 & Hc0 & Hn0). split; [|done].
      intros (r & [Hr Hne] & Hc & _). destruct Hne. rewrite <-Hn0. by apply Ho.
    + rewrite current_name_spec by done. split; [naive_solver|].
      intros (r & Hr & Hc & <-). exists r. split_and!; try done. intros Hne. apply Hd. eauto.
Qed.

Lemma clusters_checkout t name :
  clusters_ok t →
  clusters_ok (update_table (λ _, true) (c_checkout name) t) ∧
  clusters_map (update_where (λ _, true) (c_checkout name) (rows t)) = clusters_map (rows t) ∧
  current_name (update_where (λ _, true) (c_checkout name) (rows t))
  = (clusters_map (rows t) !! name ≫= λ _, Some name).
Proof.
  intros (Hn & Hi & Ho).
  assert (one_current (update_where (λ _, true) (c_checkout name) (rows t))) as Ho'.
  { intros r1 r2 (r & ? & ->)%elem_of_update (r' & ? & ->)%elem_of_update. simpl.
    rewrite !c_named_true. congruence. }
  split_and!.
  - split_and!; [simpl; by rewrite keys_update|by apply ids_ok_update|exact Ho'].
  - unfold clusters_map. rewrite (tab_update _ _ _ _ (λ _ _, true) id) by done.
    apply map_eq. intros k. rewrite map_lookup_imap. by destruct (tab _ _ _ !! k).
  - apply option_eq. intros n. rewrite current_name_spec by done.
    setoid_rewrite elem_of_update. split.
    + intros (r & (r' & Hr & ->) & Hc & Hnm). simpl in *. apply c_named_true in Hc. subst.
      assert (is_Some (clusters_map (rows t) !! c_Name r')) as [c ->]; [|done].
      apply tab_dom. by apply list_elem_of_fmap_2.
    + destruct (clusters_map (rows t) !! name) as [c|] eqn:E; [|done]. intros [= <-].
      assert (is_Some (clusters_map (rows t) !! name)) as Hs by eauto.
      apply tab_dom, list_elem_of_fmap in Hs as (r & -> & Hr).
      exists (c_checkout (c_Name r) r). split_and!; [eauto|by apply c_named_true|done].
Qed.

Lemma clusters_update_id t i topology pool :
  clusters_ok t →
  let f r := c_with_topology (topology (cluster_val r)) (pool (cluster_val r)) r in
  let p r := bool_decide (c_Id r = i) in
  clusters_ok (update_table p f t) ∧
  clusters_map (update_where p f (rows t))
  = alter_where (λ c, bool_decide (ci_Id c = i)) (ci_with topology pool) (clusters_map (rows t)) ∧
  current_name (update_where p f (rows t)) = current_name (rows t).
Proof.
  intros (Hn & Hi & Ho) f p. split_and!.
  - split_and!; [simpl; by rewrite keys_update|by apply ids_ok_update|by apply one_current_update].
  - by apply (tab_update _ _ _ _ (λ _ c, bool_decide (ci_Id c = i))).
  - by apply current_update.
Qed.

Lemma clusters_rename t old new :
  clusters_ok t → (∀ r, r ∈ rows t → c_Name r = new → c_Name r = old) →
  let l' := update_where (c_named old) (c_rename new) (rows t) in
  clusters_ok (update_table (c_named old) (c_rename new) t) ∧
  clusters_map l' = match clusters_map (rows t) !! old with
                    | None => clusters_map (rows t)
                    | Some c => <[new := c]> (delete old (clusters_map (rows t)))
                    end ∧
  current_name l' = (if decide (current_name (rows t) = Some old) then Some new
                     else current_name (rows t)).
Proof.
  intros (Hn & Hi & Ho) Hnew l'.
  assert (∀ r, r ∈ l' ↔ ∃ r', r' ∈ rows t ∧ r = if c_named old r' then c_rename new r' else r') as Hl
    by (intros r; apply elem_of_update).
  assert (∀ r, c_Name (if c_named old r then c_rename new r else r)
               = if decide (c_Name r = old) then new else c_Name r) as Hname.
  { intros r. unfold c_named. by case_bool_decide; case_decide. }
  assert (∀ r, c_Current (if c_named old r then c_rename new r else r) = c_Current r) as Hcur
    by (intros r; by destruct (c_named old r)).
  assert (NoDup (c_Name <$> l')) as Hnd.
  { unfold l', update_where. change (map ?f ?l) with (f <$> l). rewrite <-list_fmap_compose.
    apply NoDup_fmap_2_strong; [|by apply NoDup_fmap_1 in Hn].
    intros r1 r2 H1 H2. cbn. rewrite !Hname. intros Heq.
    apply (NoDup_fmap_inj _ _ Hn); [done..|].
    repeat case_decide; try congruence; exfalso; eauto. }
  assert (one_current l') as Ho'.
  { intros r1 r2 (r & ? & ->)%Hl (r' & ? & ->)%Hl. rewrite !Hcur, !Hname. intros.
    by rewrite (Ho r r'). }
  split_and!.
  - split_and!; [done|by apply ids_ok_update|done].
  - apply tab_ext; [done|]. intros k v. setoid_rewrite Hl. unfold clusters_map.
    destruct (tab c_Name cluster_val (rows t) !! old) as [c|] eqn:E.
    + apply tab_lookup in E as (ro & Hro & Hno & <-); [|done].
      rewrite lookup_insert_Some, lookup_delete_Some, tab_lookup by done. split.
      * intros [[<- <-]|(Hne & Hne' & r & Hr & <- & <-)].
        -- eexists. split; [by eexists|]. rewrite Hname. split; [by case_decide|].
           by destruct (c_named old ro).
        -- eexists. split; [by exists r|]. rewrite Hname. case_decide; [congruence|].
           split; [done|]. by destruct (c_named old r).
      * intros (? & (r & Hr & ->) & <- & <-). rewrite Hname. case_decide as Hd.
        -- left. split; [done|]. assert (r = ro) as -> by (apply (NoDup_fmap_inj _ _ Hn); congruence).
           by destruct (c_named old ro).
        -- right. split; [naive_solver|]. split; [naive_solver|]. exists r. split_and!; try done.
           by destruct (c_named old r).
    + rewrite tab_None in E.
      assert (∀ r, r ∈ rows t → c_named old r = false) as Hno.
      { intros r Hr. apply c_named_false. intros <-. apply E. by apply list_elem_of_fmap_2. }
      rewrite tab_lookup by done. split.
      * intros (r & Hr & <- & <-). exists r. split; [|done]. exists r. by rewrite Hno.
      * intros (? & (r & Hr & ->) & <- & <-). rewrite Hno by done. eauto.
  - apply option_eq. intros n. rewrite current_name_spec by done. setoid_rewrite Hl.
    case_decide as Hd.
    + apply current_name_spec in Hd as (ro & Hro & Hco & Hno); [|done]. split.
      * intros (? & (r & Hr & ->) & Hc & <-). rewrite Hcur in Hc. rewrite Hname.
        rewrite (Ho r ro) by done. by rewrite decide_True.
      * intros [= <-]. eexists. split; [by exists ro|]. rewrite Hcur, Hname, decide_True; done.
    + rewrite current_name_spec in Hd by done. rewrite current_name_spec by done. split.
      * intros (? & (r & Hr & ->) & Hc & <-). rewrite Hcur in Hc. rewrite Hname.
        exists r. split_and!; try done. rewrite decide_False; [done|]. intros ?. apply Hd. eauto.
      * intros (r & Hr & Hc & <-). eexists. split; [by exists r|]. rewrite Hcur, Hname.
        split; [done|]. rewrite decide_False; [done|]. intros ?. apply Hd. eauto.
Qed.

(** ** Refinement *)

Section refine.
Context `{Driver}.

(** One call: the state stays good; a call that returns has taken the step of the
    specification, a call that fails has changed nothing, and no call panics. *)
Definition run_ok {A} (op : Op) (ret : A → option Z) (s : Spec) (out : res error A * DB) : Prop :=
  db_ok out.2 ∧
  match out.1 with
  | Ok a => spec_step op s (ret a) (abs out.2)
  | Err _ => abs out.2 = s
  | Panic => False
  end.

Lemma Write_run {A} op (ret : A → option Z) f d :
  db_ok d →
  match f d with
  | Ok (d', a) => db_ok d' ∧ spec_step op (abs d) (ret a) (abs d')
  | Err _ => True
  | Panic => False
  end → run_ok op ret (abs d) (Write f d).
Proof.
  intros Hd Hf. unfold Write. destruct (fault _) as [e|]; [by split|].
  destruct (f d) as [[d' a]|e|]; [exact Hf|by split|done].
Qed.

Lemma write_run op f d :
  db_ok d → db_ok (f d) → spec_step op (abs d) None (abs (f d)) →
  run_ok op (λ _ : (), None) (abs d) (write f d).
Proof. intros Hd Hf Hs. by apply Write_run. Qed.

Lemma Query_run {A B} op (ret : B → option Z) (q : DB → list A) (k : list A → M B) d :
  db_ok d → (∀ l, l ≡ₚ q d → run_ok op ret (abs d) (k l (tick d))) →
  run_ok op ret (abs d) ((l ← Query q; k l) d).
Proof.
  intros Hd Hk. unfold mbind, M_bind, Query. destruct (fault _) as [e|]; [by split|].
  apply Hk, scan_perm.
Qed.

Lemma exec_unit_run op (m : M unit) d :
  run_ok op (λ _, None) (abs d) (m d) → run_ok op id (abs d) ((_ ← m; mret None) d).
Proof.
  unfold run_ok, mbind, M_bind. destruct (m d) as [[[]|e|] d']; simpl; auto.
Qed.

(** INSERT on a table with a primary key. *)
Lemma insert_key_run {R K V} `{Countable K} (key : R → K) (val : R → V) r l :
  match insert_key key r l with
  | Ok l' => NoDup (key <$> l) → NoDup (key <$> l') ∧ tab key val l !! key r = None ∧
             tab key val l' = <[key r := val r]> (tab key val l)
  | Err _ => True
  | Panic => False
  end.
Proof.
  unfold insert_key. destruct (existsb _ l) eqn:E; [done|]. intros Hnd.
  apply not_true_iff_false in E. rewrite existsb_key in E.
  split_and!; [by apply keys_snoc|by apply tab_None|by apply tab_snoc].
Qed.

Ltac db_ok_split := unfold db_ok in *; destruct_and?; simpl; split_and!; try done; try lia.

Lemma single_table {R} (l l' : list R) : length l ≤ 1 → l' ≡ₚ l → take 1 l' = l.
Proof.
  intros Hl Hp. destruct l as [|r [|? ?]]; simpl in Hl; [|..|lia].
  - by apply Permutation_nil_r in Hp as ->.
  - by apply Permutation_singleton_r in Hp as ->.
Qed.

(** The single row of the version and hosts tables. *)
Lemma Query_single_run {A B} op (ret : B → option Z) (q : DB → list A) (k : list A → M B) d :
  db_ok d → length (q d) ≤ 1 → run_ok op ret (abs d) (k (q d) (tick d)) →
  run_ok op ret (abs d) ((x ← (y ← Query q; mret (take 1 y)); k x) d).
Proof.
  intros Hd Hl Hk. unfold mbind, M_bind, Query. destruct (fault _) as [e|]; [by split|].
  simpl. rewrite (single_table _ _ Hl (scan_perm _)). exact Hk.
Qed.

Lemma SetVersion_run v l d :
  db_ok d → run_ok (OSetVersion v l) (λ _, None) (abs d) (SetVersion v l d).
Proof.
  intros Hd. pose proof Hd as (Hv & _). apply Query_single_run; [done..|].
  destruct (rows (t_version d)) as [|r [|? ?]] eqn:E; simpl in Hv; [|..|lia].
  - apply (Write_run _ _ _ (tick d)); [done|]. simpl.
    pose proof (insert_auto_cases (λ _ _, false) (λ id, mkVersion id v "") (t_version d)) as Hi.
    destruct (insert_auto _ _ _) as [[t id]|e|]; [|done..]. simpl.
    destruct Hi as (-> & -> & _). rewrite E. split; [by db_ok_split|].
    split; [done|]. unfold abs, set_singles. simpl. by rewrite ?E.
  - apply (write_run _ _ (tick d)); [done| |].
    + db_ok_split. rewrite E. simpl. lia.
    + split; [done|]. unfold abs, set_singles. simpl. rewrite ?E. simpl.
      by rewrite bool_decide_eq_true_2.
Qed.

Lemma SetHosts_run x d : db_ok d → run_ok (OSetHosts x) (λ _, None) (abs d) (SetHosts x d).
Proof.
  intros Hd. pose proof Hd as (_ & Hv & _). apply Query_single_run; [done..|].
  destruct (rows (t_hosts d)) as [|r [|? ?]] eqn:E; simpl in Hv; [|..|lia].
  - apply (Write_run _ _ _ (tick d)); [done|].
    pose proof (insert_auto_cases (λ _ _, false)
      (λ id, mkHostsRow id x (now (ticks (tick d)))) (t_hosts (tick d))) as Hi.
    destruct (insert_auto _ _ _) as [[t id]|e|]; [|done..].
    destruct Hi as (-> & -> & _). simpl. rewrite E. split; [by db_ok_split|].
    split; [done|]. unfold abs, set_singles. simpl. by rewrite ?E.
  - apply (write_run _ _ (tick d)); [done| |].
    + db_ok_split. rewrite E. simpl. lia.
    + split; [done|]. unfold abs, set_singles. simpl. rewrite ?E. simpl.
      by rewrite bool_decide_eq_true_2.
Qed.

(** Clusters. *)
Lemma InsertCluster_run n u de t d :
  db_ok d → run_ok (OInsertCluster n u de t) (λ _, None) (abs d) (InsertCluster n u de t d).
Proof.
  intros Hd. pose proof Hd as (_ & _ & Hc & _). apply Write_run; [done|].
  pose proof (insert_auto_cases (λ r r', c_named (c_Name r) r')
    (λ id, mkCluster id u n de (now (ticks d)) t "" false) (t_clusters d)) as Hi.
  destruct (insert_auto _ _ _) as [[t' id]|e|]; [|done..].
  destruct Hi as (-> & -> & Hno & _).
  assert (n ∉ c_Name <$> rows (t_clusters d)) as Hni.
  { intros (r & -> & Hr)%list_elem_of_fmap. by apply Hno, c_named_false in Hr. }
  destruct (clusters_insert (t_clusters d) n u de (now (ticks d)) t Hc Hni) as (Hc' & Hm & Hcur).
  simpl. split; [by db_ok_split|]. split; [done|]. split; [by apply tab_None|].
  exists (seq_ (t_clusters d) + 1)%Z. split.
  - intros n' c (r & Hr & _ & <-)%tab_lookup; [|apply Hc]. simpl.
    eapply ids_ok_fresh; [apply Hc|done].
  - unfold abs, set_clusters. simpl. by rewrite Hm, Hcur.
Qed.

Lemma clusters_write op f d t' :
  db_ok d → f d = with_clusters d t' → clusters_ok t' →
  spec_step op (abs d) None
    (set_clusters (abs d) (clusters_map (rows t')) (current_name (rows t'))) →
  run_ok op (λ _, None) (abs d) (write f d).
Proof.
  intros Hd Hf Hc Hs. apply write_run; [done|rewrite Hf; by db_ok_split|by rewrite Hf].
Qed.

Lemma DeleteCluster_run n d :
  db_ok d → run_ok (ODeleteCluster n) (λ _, None) (abs d) (DeleteCluster n d).
Proof.
  intros Hd. pose proof Hd as (_ & _ & Hc & _).
  destruct (clusters_delete (t_clusters d) n Hc) as (Hc' & Hm & Hcur).
  eapply clusters_write; [done..|]. simpl. by rewrite Hm, Hcur.
Qed.

Lemma CheckoutCluster_run n d :
  db_ok d → run_ok (OCheckoutCluster n) (λ _, None) (abs d) (CheckoutCluster n d).
Proof.
  intros Hd. pose proof Hd as (_ & _ & Hc & _).
  destruct (clusters_checkout (t_clusters d) n Hc) as (Hc' & Hm & Hcur).
  eapply clusters_write; [done..|]. simpl. by rewrite Hm, Hcur.
Qed.

Lemma SetClusterTopology_run i t d :
  db_ok d → run_ok (OSetClusterTopology i t) (λ _, None) (abs d) (SetClusterTopology i t d).
Proof.
  intros Hd. pose proof Hd as (_ & _ & Hc & _).
  destruct (clusters_update_id (t_clusters d) i (λ _, t) ci_Pool Hc) as (Hc' & Hm & Hcur).
  eapply clusters_write; [done|done|exact Hc'|].
  split; [done|]. f_equal; [exact Hm|exact Hcur].
Qed.

Lemma SetClusterPool_run i t p d :
  db_ok d → run_ok (OSetClusterPool i t p) (λ _, None) (abs d) (SetClusterPool i t p d).
Proof.
  intros Hd. pose proof Hd as (_ & _ & Hc & _).
  destruct (clusters_update_id (t_clusters d) i (λ _, t) (λ _, p) Hc) as (Hc' & Hm & Hcur).
  eapply clusters_write; [done|done|exact Hc'|].
  split; [done|]. f_equal; [exact Hm|exact Hcur].
Qed.

Lemma RenameClusterName_run o n d :
  db_ok d → run_ok (ORenameClusterName o n) (λ _, None) (abs d) (RenameClusterName o n d).
Proof.
  intros Hd. pose proof Hd as (_ & _ & Hc & _). apply Query_run; [done|]. intros l Hl.
  destruct l as [|c l]; [|by split]. apply Permutation_nil_l in Hl.
  assert (∀ r, r ∈ rows (t_clusters d) → like n (c_Name r) = false) as Hlike.
  { intros r Hr. destruct (like n (c_Name r)) eqn:E; [|done].
    assert (r ∈ filter (λ r, like n (c_Name r) = true) (rows (t_clusters d))) as Hin
      by (by apply list_elem_of_filter).
    rewrite <-Hl in Hin. by apply elem_of_nil in Hin. }
  destruct (clusters_rename (t_clusters d) o n Hc) as (Hc' & Hm & Hcur).
  { intros r Hr Hn. apply Hlike in Hr. by rewrite Hn, like_refl in Hr. }
  apply (Write_run _ _ _ (tick d)); [done|]. simpl. destruct (_ && _); [done|].
  split; [by db_ok_split|]. split; [done|]. split.
  - intros n' Hs. apply (tab_dom c_Name cluster_val), list_elem_of_fmap in Hs as (r & -> & Hr). auto.
  - unfold abs, set_clusters. simpl. rewrite Hm, Hcur.
    destruct (clusters_map _ !! o) eqn:E; [done|]. rewrite decide_False; [done|].
    intros (r & Hr & _ & Hn)%current_name_spec; [|apply Hc].
    apply tab_None in E. apply E. rewrite <-Hn. by apply list_elem_of_fmap_2.
Qed.

(** The other tables. *)
Lemma key_insert_run {R K V} `{Countable K} op (key : R → K) (val : R → V) r l (g : DB → list R → DB) d :
  db_ok d → NoDup (key <$> l) →
  (∀ l', NoDup (key <$> l') → db_ok (g d l')) →
  (∀ l', tab key val l !! key r = None → tab key val l' = <[key r := val r]> (tab key val l) →
         spec_step op (abs d) None (abs (g d l'))) →
  run_ok op (λ _ : (), None) (abs d) (Write (λ d, t ← insert_key key r l; Ok (g d t, tt)) d).
Proof.
  intros Hd Hnd Hg Hs. apply Write_run; [done|].
  pose proof (insert_key_run key val r l) as Hi.
  destruct (insert_key key r l) as [l'|e|]; [|done..]. simpl.
  destruct (Hi Hnd) as (? & ? & ?). auto.
Qed.

Lemma InsertPlayground_run n m d :
  db_ok d → run_ok (OInsertPlayground n m) (λ _, None) (abs d) (InsertPlayground n m d).
Proof.
  intros Hd. apply Write_run; [done|].
  pose proof (insert_auto_cases (λ r r', p_named (p_Name r) r')
    (λ id, mkPlayground id n (now (ticks d)) m "") (t_playgrounds d)) as Hi.
  destruct (insert_auto _ _ _) as [[t' id]|e|]; [|done..].
  destruct Hi as (-> & -> & Hno & _).
  assert (n ∉ p_Name <$> rows (t_playgrounds d)) as Hni.
  { intros (r & -> & Hr)%list_elem_of_fmap. by apply Hno, bool_decide_eq_false in Hr. }
  pose proof Hd as (_ & _ & _ & _ & _ & Hp & _). simpl. split; [db_ok_split; by apply keys_snoc|].
  split; [done|]. split; [by apply tab_None|].
  unfold abs, set_playgrounds. simpl. f_equal. by apply (tab_snoc p_Name playground_val).
Qed.

Lemma InsertAuditLog_run t w c st d :
  db_ok d → run_ok (OInsertAuditLog t w c st) Some (abs d) (InsertAuditLog t w c st d).
Proof.
  intros Hd. apply Write_run; [done|].
  pose proof (insert_auto_cases (λ _ _, false) (λ id, mkAuditLog id t w c st 0) (t_audit d)) as Hi.
  destruct (insert_auto _ _ _) as [[t' id]|e|]; [|done..].
  destruct Hi as (-> & -> & _). pose proof Hd as (_ & _ & _ & _ & _ & _ & Ha & _). simpl.
  assert ((seq_ (t_audit d) + 1)%Z ∉ a_Id <$> rows (t_audit d)) as Hni.
  { intros (r & Heq & Hr)%list_elem_of_fmap. by apply (ids_ok_fresh a_Id _ _ Ha Hr). }
  split; [db_ok_split; by apply ids_ok_snoc|]. eexists. split; [done|].
  split; [by apply tab_None|]. unfold abs, set_audit. simpl. f_equal.
  apply (tab_snoc a_Id audit_val); [apply Ha|done].
Qed.

Ltac tab_step := split; [done|];
  unfold abs, set_services, set_clients, set_playgrounds, set_audit, set_any, set_monitors; simpl; f_equal;
  unfold db_ok in *; destruct_and?; first [by apply tab_delete | by apply tab_update_key].

Lemma ReplaceMonitor_run m d :
  db_ok d → run_ok (OReplaceMonitor m) (λ _, None) (abs d) (ReplaceMonitor m d).
Proof.
  intros Hd. pose proof Hd as (_ & _ & _ & _ & _ & _ & _ & _ & Hm).
  assert (m_ClusterId m ∉ m_ClusterId <$> delete_where (m_is (m_ClusterId m)) (t_monitors d)) as Hni.
  { intros (r & Heq & [_ Hr]%elem_of_delete)%list_elem_of_fmap. by apply bool_decide_eq_false in Hr. }
  apply write_run; [done| |].
  - db_ok_split. apply keys_snoc; [by apply keys_filter|done].
  - split; [done|]. unfold abs, set_monitors. simpl. f_equal.
    rewrite (tab_snoc m_ClusterId m_Monitor) by (done || by apply keys_filter).
    unfold m_is. rewrite (tab_delete m_ClusterId m_Monitor) by done. by rewrite insert_delete_eq.
Qed.

Ltac key_spec := intros l' Hno Ht; split_and!; [done..|];
  unfold abs, set_services, set_clients, set_any, set_monitors; simpl; by rewrite Ht.

Lemma exec_audit_run t w c st d :
  db_ok d → run_ok (OInsertAuditLog t w c st) id (abs d) (exec (OInsertAuditLog t w c st) d).
Proof.
  intros Hd. pose proof (InsertAuditLog_run t w c st d Hd) as Hr.
  unfold run_ok, exec, mbind, M_bind in *. by destruct (InsertAuditLog _ _ _ _ d) as [[i|e|] d'].
Qed.

Lemma exec_run op d : db_ok d → run_ok op id (abs d) (exec op d).
Proof.
  intros Hd. destruct op; try (apply exec_audit_run; done); cbn [exec]; apply exec_unit_run;
    auto using SetVersion_run, SetHosts_run, InsertCluster_run, DeleteCluster_run, RenameClusterName_run,
      CheckoutCluster_run, SetClusterTopology_run, SetClusterPool_run, InsertPlayground_run,
      ReplaceMonitor_run.
  all: try (apply write_run;
    [done|db_ok_split; first [by rewrite keys_update|by apply keys_delete|by apply ids_ok_update]|tab_step]).
  all: pose proof Hd as (_ & _ & _ & ? & ? & _ & _ & ? & ?).
  - apply (key_insert_run _ sv_Id service_val _ _ with_containers); [done|done|intros; db_ok_split|key_spec].
  - apply (key_insert_run _ cl_Id client_val _ _ with_clients); [done|done|intros; db_ok_split|key_spec].
  - apply (key_insert_run _ any_Id any_Data _ _ with_any); [done|done|intros; db_ok_split|key_spec].
  - apply (key_insert_run _ m_ClusterId m_Monitor _ _ with_monitors); [done|done|intros; db_ok_split|key_spec].
Qed.
End refine.

(** ** Failures *)

Section failures.
Context `{Driver}.

(** A database whose id sequences are not used up. *)
Definition ids_left (d : DB) : Prop :=
  seq_ (t_version d) ≠ MaxInt64 ∧ seq_ (t_hosts d) ≠ MaxInt64 ∧ seq_ (t_clusters d) ≠ MaxInt64 ∧
  seq_ (t_playgrounds d) ≠ MaxInt64 ∧ seq_ (t_audit d) ≠ MaxInt64.

Definition no_step (op : Op) (s : Spec) : Prop := ∀ r s', ¬ spec_step op s r s'.

Lemma Write_Err {A} (f : DB → res error (DB * A)) d e :
  (Write f d).1 = Err e → fault (ticks d) = Some e ∨ f d = Err e.
Proof.
  unfold Write. destruct (fault (ticks d)); simpl; [intros [= ->]; auto|].
  destruct (f d) as [[d' a]|e'|]; simpl; [done|intros [= ->]; auto|done].
Qed.

Lemma write_Err f d e : (write f d).1 = Err e → fault (ticks d) = Some e.
Proof. by intros [?|?]%Write_Err. Qed.

Lemma exec_unit_Err (m : M unit) d e :
  ((_ ← m; mret (None : option Z)) d).1 = Err e → (m d).1 = Err e.
Proof. unfold mbind, M_bind. by destruct (m d) as [[[]|e'|] d']; simpl; intros; simplify_eq. Qed.

Lemma Query_Err {A B} (q : DB → list A) (k : list A → M B) d e :
  ((l ← Query q; k l) d).1 = Err e →
  fault (ticks d) = Some e ∨ (k (scan (q d)) (tick d)).1 = Err e.
Proof.
  unfold mbind, M_bind, Query. destruct (fault (ticks d)); simpl; [intros [= ->]; auto|auto].
Qed.

Lemma Query_single_Err {A B} (q : DB → list A) (k : list A → M B) d e :
  ((x ← (y ← Query q; mret (take 1 y)); k x) d).1 = Err e →
  fault (ticks d) = Some e ∨ (k (take 1 (scan (q d))) (tick d)).1 = Err e.
Proof.
  unfold mbind, M_bind, Query. destruct (fault (ticks d)); simpl; [intros [= ->]; auto|auto].
Qed.

Lemma insert_auto_Err {R} clash mk (t : Table R) e :
  insert_auto clash mk t = Err e → seq_ t ≠ MaxInt64 →
  ∃ r, r ∈ rows t ∧ clash (mk (seq_ t + 1)%Z) r = true.
Proof.
  intros He Hs. pose proof (insert_auto_cases clash mk t) as Hi. rewrite He in Hi.
  destruct Hi as [_ [?|?]]; done.
Qed.

Lemma insert_key_Err {R K V} `{Countable K} (key : R → K) (val : R → V) r l e :
  insert_key key r l = Err e → tab key val l !! key r ≠ None.
Proof.
  unfold insert_key. destruct (existsb _ l) eqn:E; [|done]. rewrite existsb_key in E.
  intros _ Hn. by apply tab_None in Hn.
Qed.

(** An operation fails with the error of one of its statements, or because the
    specification does not allow it. *)
Definition why (op : Op) (d : DB) (e : error) : Prop :=
  fault (ticks d) = Some e ∨ fault (S (ticks d)) = Some e ∨ no_step op (abs d).

Lemma key_insert_Err {R K V} `{Countable K} (key : R → K) (val : R → V) r l (g : DB → list R → DB) d e :
  (Write (λ d, t ← insert_key key r l; Ok (g d t, tt)) d).1 = Err e →
  fault (ticks d) = Some e ∨ tab key val l !! key r ≠ None.
Proof.
  intros [?|Hi]%Write_Err; [by left|]. right. apply bind_Err in Hi as [Hi|(t & _ & ?)]; [|done].
  by eapply insert_key_Err.
Qed.

Lemma auto_insert_Err {R} clash (mk : DB → Z → R) (t : DB → Table R) (g : DB → Table R → DB) d e :
  (Write (λ d, '(t', _) ← insert_auto clash (mk d) (t d); Ok (g d t', tt)) d).1 = Err e →
  seq_ (t d) ≠ MaxInt64 →
  fault (ticks d) = Some e ∨ ∃ r, r ∈ rows (t d) ∧ clash (mk d (seq_ (t d) + 1)%Z) r = true.
Proof.
  intros [?|Hi]%Write_Err Hs; [by left|]. right.
  apply bind_Err in Hi as [Hi|([t' i] & _ & ?)]; [|done]. by eapply insert_auto_Err.
Qed.

Lemma InsertCluster_Err n u de t d e :
  ids_left d → (InsertCluster n u de t d).1 = Err e → why (OInsertCluster n u de t) d e.
Proof.
  intros (_ & _ & Hs & _) He.
  apply (auto_insert_Err _ (λ d id, mkCluster id u n de (now (ticks d)) t "" false) t_clusters) in He
    as [?|(r & Hr & Hc)]; [by left| |done].
  right. right. intros r' s' (_ & Hn & _). apply tab_None in Hn.
  apply Hn. apply c_named_true in Hc. simpl in Hc. rewrite <-Hc. by apply list_elem_of_fmap_2.
Qed.

Lemma InsertPlayground_Err n m d e :
  ids_left d → (InsertPlayground n m d).1 = Err e → why (OInsertPlayground n m) d e.
Proof.
  intros (_ & _ & _ & Hs & _) He.
  apply (auto_insert_Err _ (λ d id, mkPlayground id n (now (ticks d)) m "") t_playgrounds) in He
    as [?|(r & Hr & Hc)]; [by left| |done].
  right. right. intros r' s' (_ & Hn & _). apply tab_None in Hn.
  apply Hn. apply bool_decide_eq_true in Hc. simpl in Hc. rewrite <-Hc. by apply list_elem_of_fmap_2.
Qed.

Lemma InsertAuditLog_Err t w c st d e :
  ids_left d → (InsertAuditLog t w c st d).1 = Err e → fault (ticks d) = Some e.
Proof.
  intros (_ & _ & _ & _ & Hs) [?|Hi]%Write_Err; [done|].
  apply bind_Err in Hi as [Hi|([t' i] & _ & ?)]; [|done].
  by apply insert_auto_Err in Hi as (r & _ & ?).
Qed.

Lemma SetVersion_Err v l d e :
  ids_left d → (SetVersion v l d).1 = Err e → why (OSetVersion v l) d e.
Proof.
  intros (Hs & _) [?|He]%Query_single_Err; [by left|].
  destruct (take 1 _); [|by apply write_Err in He; right; left].
  apply (auto_insert_Err _ (λ _ id, mkVersion id v "") t_version) in He as [?|(r & _ & ?)]; [|done..].
  by right; left.
Qed.

Lemma SetHosts_Err x d e :
  ids_left d → (SetHosts x d).1 = Err e → why (OSetHosts x) d e.
Proof.
  intros (_ & Hs & _) [?|He]%Query_single_Err; [by left|].
  destruct (take 1 _); [|by apply write_Err in He; right; left].
  apply (auto_insert_Err _ (λ d id, mkHostsRow id x (now (ticks d))) t_hosts) in He
    as [?|(r & _ & ?)]; [|done..].
  by right; left.
Qed.

Lemma RenameClusterName_Err o n d e :
  db_ok d → (RenameClusterName o n d).1 = Err e → why (ORenameClusterName o n) d e.
Proof.
  intros (_ & _ & (Hnd & _) & _) [?|He]%Query_Err; [by left|].
  destruct (scan _) as [|c l] eqn:Es.
  - apply Write_Err in He as [?|He]; [by right; left|]. exfalso.
    simpl in He. case_match eqn:E; [|done]. apply andb_true_iff in E as [_ E].
    apply existsb_exists in E as (r & Hr & Hn). apply list_elem_of_In, list_elem_of_filter in Hr as [_ Hr].
    apply c_named_true in Hn. simpl in Hr.
    assert (r ∈ filter (λ r, like n (c_Name r) = true) (rows (t_clusters d))) as Hin.
    { apply list_elem_of_filter. rewrite Hn. by rewrite like_refl. }
    rewrite <-(scan_perm (filter _ _)), Es in Hin. by apply elem_of_nil in Hin.
  - right. right. intros r s' (_ & Hno & _).
    assert (c ∈ filter (λ r, like n (c_Name r) = true) (rows (t_clusters d))) as [Hl Hc]%list_elem_of_filter.
    { rewrite <-(scan_perm (filter _ _)), Es. left. }
    rewrite Hno in Hl; [done|]. apply (tab_dom c_Name cluster_val). by apply list_elem_of_fmap_2.
Qed.

Lemma exec_Err op d e :
  db_ok d → ids_left d → (exec op d).1 = Err e → why op d e.
Proof.
  intros Hd Hs. destruct op; cbn [exec]; try intros He%exec_unit_Err;
    eauto using SetVersion_Err, SetHosts_Err, InsertCluster_Err, RenameClusterName_Err, InsertPlayground_Err;
    try (apply write_Err in He; by left).
  - apply (key_insert_Err sv_Id service_val _ _ with_containers) in He as [?|Hn]; [by left|].
    right. right. by intros r s' (_ & ? & _).
  - apply (key_insert_Err cl_Id client_val _ _ with_clients) in He as [?|Hn]; [by left|].
    right. right. by intros r s' (_ & ? & _).
  - intros He. left. unfold mbind, M_bind in He.
    pose proof (InsertAuditLog_Err time workDir command status d e Hs) as Ha.
    destruct (InsertAuditLog _ _ _ _ d) as [[i|e'|] d']; [done| |done].
    simpl in He. simplify_eq. by apply Ha.
  - apply (key_insert_Err any_Id any_Data _ _ with_any) in He as [?|Hn]; [by left|].
    right. right. by intros r s' (_ & ? & _).
  - apply (key_insert_Err m_ClusterId m_Monitor _ _ with_monitors) in He as [?|Hn]; [by left|].
    right. right. by intros r s' (_ & ? & _).
Qed.
End failures.

(** ** Reading *)

Section reads.
Context `{Driver}.

Lemma Query_Ok {A} (q : DB → list A) d :
  fault (ticks d) = None → Query q d = (Ok (scan (q d)), tick d).
Proof. intros Hf. unfold Query. by rewrite Hf. Qed.

Lemma scan_single {R} (l : list R) r : (∀ r', r' ∈ l ↔ r' = r) → NoDup l → scan l = [r].
Proof.
  intros Hr Hnd. apply Permutation_singleton_r. rewrite scan_perm.
  apply NoDup_Permutation; [done|apply NoDup_singleton|].
  intros r'. by rewrite list_elem_of_singleton.
Qed.

Lemma scan_nil {R} (l : list R) : (∀ r, r ∉ l) → scan l = [].
Proof. intros Hl. apply Permutation_nil_r. rewrite scan_perm. by destruct l; [|destruct (Hl r); left]. Qed.

(** The rows with a key: the row of the specification, or none. *)
Lemma scan_key {R K V} `{Countable K} (key : R → K) (val : R → V) k (l : list R) :
  NoDup (key <$> l) →
  match tab key val l !! k with
  | None => scan (filter (λ r, bool_decide (key r = k) = true) l) = []
  | Some v => ∃ r, key r = k ∧ val r = v ∧ scan (filter (λ r, bool_decide (key r = k) = true) l) = [r]
  end.
Proof.
  intros Hnd. destruct (tab key val l !! k) as [v|] eqn:E.
  - apply tab_lookup in E as (r & Hr & Hk & Hv); [|done]. exists r. split_and!; [done..|].
    apply scan_single; [|apply NoDup_filter; by apply NoDup_fmap_1 in Hnd].
    intros r'. rewrite list_elem_of_filter, bool_decide_eq_true. split.
    + intros [Hk' Hr']. apply (NoDup_fmap_inj _ _ Hnd); congruence.
    + intros ->. done.
  - apply tab_None in E. apply scan_nil. intros r [Hk Hr]%list_elem_of_filter.
    apply bool_decide_eq_true in Hk. apply E. rewrite <-Hk. by apply list_elem_of_fmap_2.
Qed.

Lemma scan_current d :
  db_ok d →
  match current_name (rows (t_clusters d)) with
  | None => scan (filter (λ r, c_Current r = true) (rows (t_clusters d))) = []
  | Some n => ∃ r, c_Name r = n ∧ clusters_map (rows (t_clusters d)) !! n = Some (cluster_val r) ∧
                   scan (filter (λ r, c_Current r = true) (rows (t_clusters d))) = [r]
  end.
Proof.
  intros (_ & _ & (Hnd & _ & Ho) & _).
  destruct (current_name _) as [n|] eqn:E.
  - apply current_name_spec in E as (r & Hr & Hc & Hn); [|done].
    exists r. split_and!; [done|apply tab_lookup; eauto|].
    apply scan_single; [|apply NoDup_filter; by apply NoDup_fmap_1 in Hnd].
    intros r'. rewrite list_elem_of_filter. split; [|by intros ->].
    intros [Hc' Hr']. apply (NoDup_fmap_inj _ _ Hnd); [done..|]. by apply Ho.
  - apply scan_nil. intros r [Hc Hr]%list_elem_of_filter.
    assert (current_name (rows (t_clusters d)) = Some (c_Name r)) as Hs; [|congruence].
    apply current_name_spec; eauto.
Qed.

Lemma read_hosts d :
  db_ok d → fault (ticks d) = None →
  ∃ l, GetHostses d = (Ok l, tick d) ∧ h_Data <$> head l = sp_hosts (abs d) ∧ length l ≤ 1.
Proof.
  intros (_ & Hh & _) Hf. eexists. unfold GetHostses, mbind, M_bind. rewrite Query_Ok by done. simpl.
  split; [done|]. by rewrite (single_table _ _ Hh (scan_perm _)).
Qed.

Lemma read_current d :
  db_ok d → fault (ticks d) = None →
  ∃ r, GetCurrentCluster d = (Ok r, tick d) ∧
    match sp_current (abs d) with
    | None => r = no_cluster
    | Some m => c_Name r = m ∧ sp_clusters (abs d) !! m = Some (cluster_val r)
    end.
Proof.
  intros Hd Hf. pose proof (scan_current d Hd) as Hc.
  unfold GetCurrentCluster, getClusters, mbind, M_bind. rewrite Query_Ok by done. simpl.
  destruct (current_name _) as [m|].
  - destruct Hc as (r & Hn & Hl & ->). simpl. eauto.
  - rewrite Hc. eauto.
Qed.

Lemma read_cluster n d :
  db_ok d → fault (ticks d) = None →
  match sp_clusters (abs d) !! n with
  | None => GetClusterByName n d = (Err (EText ("cluster not found: " +:+ n)), tick d)
  | Some ci => ∃ r, GetClusterByName n d = (Ok r, tick d) ∧ c_Name r = n ∧ cluster_val r = ci
  end.
Proof.
  intros (_ & _ & (Hcn & _) & _) Hf. pose proof (scan_key c_Name cluster_val n _ Hcn) as Hc.
  unfold GetClusterByName, getClusters, c_named, mbind, M_bind. rewrite Query_Ok by done. simpl.
  unfold clusters_map. destruct (tab _ _ _ !! n) as [ci|].
  - destruct Hc as (r & Hn & Hv & ->). simpl. eauto.
  - by rewrite Hc.
Qed.

Lemma read_container i d :
  db_ok d → fault (ticks d) = None →
  st_GetContainerId i d = (Ok (from_option snd "" (sp_services (abs d) !! i)), tick d).
Proof.
  intros (_ & _ & _ & Hs & _) Hf. pose proof (scan_key sv_Id service_val i _ Hs) as Hc.
  unfold st_GetContainerId, getServices, sv_is, mbind, M_bind. rewrite Query_Ok by done. simpl.
  destruct (tab _ _ _ !! i) as [[? ?]|]; [|by rewrite Hc].
  destruct Hc as (r & Hn & Hv & ->). by rewrite <-Hv.
Qed.

Lemma read_monitor c d :
  db_ok d → fault (ticks d) = None →
  GetMonitor c d = (Ok (mkMonitorRow c (default "" (sp_monitors (abs d) !! c))), tick d).
Proof.
  intros (_ & _ & _ & _ & _ & _ & _ & _ & Hm) Hf. pose proof (scan_key m_ClusterId m_Monitor c _ Hm) as Hc.
  unfold GetMonitor, m_is, mbind, M_bind. rewrite Query_Ok by done. simpl.
  destruct (tab _ _ _ !! c) as [t|].
  - destruct Hc as (r & _ & <- & Hsc).
    assert (scan (m_Monitor <$> filter (λ r, bool_decide (m_ClusterId r = c) = true) (t_monitors d))
            = [m_Monitor r]) as ->; [|done].
    apply Permutation_singleton_r. rewrite scan_perm, <-(scan_perm (filter _ _)). by rewrite Hsc.
  - assert (scan (m_Monitor <$> filter (λ r, bool_decide (m_ClusterId r = c) = true) (t_monitors d))
            = []) as ->; [|done].
    apply Permutation_nil_r. rewrite scan_perm, <-(scan_perm (filter _ _)). by rewrite Hc.
Qed.
End reads.

(** ** Theorems *)

(** A program of storage calls, and the runs the specification allows. *)
Fixpoint exec_all `{Driver} (ops : list Op) (d : DB) : list (res error (option Z)) * DB :=
  match ops with
  | [] => ([], d)
  | op :: ops => let '(r, d) := exec op d in
                 let '(rs, d) := exec_all ops d in (r :: rs, d)
  end.

Inductive spec_run : Spec → list Op → list (res error (option Z)) → Spec → Prop :=
| run_nil s : spec_run s [] [] s
| run_step s op r s' ops rs s'' :
    spec_step op s r s' → spec_run s' ops rs s'' → spec_run s (op :: ops) (Ok r :: rs) s''
| run_fail s op e ops rs s'' :
    spec_run s ops rs s'' → spec_run s (op :: ops) (Err e :: rs) s''.

Lemma exec_all_run `{Driver} ops d :
  db_ok d → db_ok (exec_all ops d).2 ∧ spec_run (abs d) ops (exec_all ops d).1 (abs (exec_all ops d).2).
Proof.
  revert d; induction ops as [|op ops IH]; intros d Hd; simpl; [split; [done|constructor]|].
  destruct (exec_run op d Hd) as [Hd' Hr]. destruct (exec op d) as [r d']. simpl in *.
  destruct (IH d' Hd') as [Hd'' Hrun]. destruct (exec_all ops d') as [rs d'']. simpl in *.
  split; [done|]. destruct r as [r|e|]; [by eapply run_step| |done].
  apply run_fail. by rewrite <-Hr.
Qed.

Lemma reachable_ok `{Driver} ops : db_ok (exec_all ops empty_db).2 ∧
  spec_run (abs empty_db) ops (exec_all ops empty_db).1 (abs (exec_all ops empty_db).2).
Proof.
  apply exec_all_run. unfold db_ok, clusters_ok, ids_ok, one_current. simpl.
  split_and!; first [lia | constructor | by intros ? ? ?%elem_of_nil].
Qed.

(** C5: the tables implement a database of maps.  After any sequence of calls, with any
    driver - statements may fail, rows come in any order - keys are unique and at most one
    cluster is current; every call that returned did what the specification of the call
    says, every call that failed changed nothing, and none panics. *)
Theorem storage_refines (D : Driver) (ops : list Op) :
  db_ok (exec_all ops empty_db).2 ∧
  spec_run (abs empty_db) ops (exec_all ops empty_db).1 (abs (exec_all ops empty_db).2).
Proof. apply reachable_ok. Qed.

(** C34: a call that fails has an error of the driver, or the specification forbids the
    call in that state - a name or key in use, or a new name that, read as a LIKE
    pattern, matches a cluster -, or an id sequence is used up. *)
Theorem storage_errors (D : Driver) (op : Op) (d : DB) (e : error) :
  db_ok d → ids_left d → (exec op d).1 = Err e →
  fault (ticks d) = Some e ∨ fault (S (ticks d)) = Some e ∨ ∀ r s', ¬ spec_step op (abs d) r s'.
Proof. intros Hd Hs He. by apply exec_Err. Qed.

(** Reading a table returns what the specification has: the hosts file, the current
    cluster or the cluster with id -1, a cluster by its name or an error, the container
    of a service or the empty text, the monitor configuration of a cluster. *)
Theorem storage_reads (D : Driver) (d : DB) (n : string) (i : string) (c : Z) :
  db_ok d → fault (ticks d) = None →
  (∃ l, (GetHostses d).1 = Ok l ∧ h_Data <$> head l = sp_hosts (abs d) ∧ length l ≤ 1) ∧
  (∃ r, (GetCurrentCluster d).1 = Ok r ∧
     match sp_current (abs d) with
     | None => r = no_cluster
     | Some m => c_Name r = m ∧ sp_clusters (abs d) !! m = Some (cluster_val r)
     end) ∧
  match sp_clusters (abs d) !! n with
  | None => (GetClusterByName n d).1 = Err (EText ("cluster not found: " +:+ n))
  | Some ci => ∃ r, (GetClusterByName n d).1 = Ok r ∧ c_Name r = n ∧ cluster_val r = ci
  end ∧
  (st_GetContainerId i d).1 = Ok (from_option snd "" (sp_services (abs d) !! i)) ∧
  (GetMonitor c d).1 = Ok (mkMonitorRow c (default "" (sp_monitors (abs d) !! c))).
Proof.
  intros Hd Hf. split_and!.
  - destruct (read_hosts d Hd Hf) as (l & -> & ? & ?). eauto.
  - destruct (read_current d Hd Hf) as (r & -> & ?). eauto.
  - pose proof (read_cluster n d Hd Hf) as Hr. destruct (sp_clusters (abs d) !! n).
    + destruct Hr as (r & -> & ? & ?). eauto.
    + by rewrite Hr.
  - by rewrite read_container.
  - by rewrite read_monitor.
Qed.

(** ** Witnesses *)

(** A driver without failures. *)
Definition sample_driver : Driver :=
  {| fault := λ _, None; now := λ n, "t" +:+ Itoa (Z.of_nat n); constraint_error := EText "constraint failed";
     scan := λ R l, l; scan_perm := λ R l, reflexivity l |}.

Definition sample_ops : list Op :=
  [OSetHosts "hosts v1"; OSetHosts "hosts v2"; OInsertCluster "demo" "u1" "" "topo";
   OInsertCluster "prod" "u2" "" "topo"; OInsertCluster "demo" "u3" "" "topo"; OCheckoutCluster "prod";
   OInsertService 2 "s1" "c1"; OReplaceMonitor (mkMonitorRow 2 "monitor")].
Definition sample_db : DB := (exec_all (H := sample_driver) sample_ops empty_db).2.

Example sample_abs :
  sp_hosts (abs sample_db) = Some "hosts v2" ∧ sp_current (abs sample_db) = Some "prod" ∧
  (ci_UUId <$> sp_clusters (abs sample_db) !! "demo") = Some "u1".
Proof. split_and!; vm_compute; reflexivity. Qed.

Lemma sample_db_ok : db_ok sample_db ∧ ids_left sample_db.
Proof.
  split; [apply (reachable_ok (H := sample_driver))|]. unfold ids_left. by vm_compute.
Qed.

Lemma storage_errors_witness :
  let r := (exec (H := sample_driver) (OInsertCluster "demo" "u4" "" "") sample_db).1 in
  r = Err (EText "constraint failed") ∧
  ∀ r s', ¬ spec_step (OInsertCluster "demo" "u4" "" "") (abs sample_db) r s'.
Proof.
  split; [vm_compute; reflexivity|].
  destruct (storage_errors sample_driver (OInsertCluster "demo" "u4" "" "") sample_db
              (EText "constraint failed")) as [Hf|[Hf|Hn]]; try discriminate Hf.
  - apply sample_db_ok.
  - apply sample_db_ok.
  - vm_compute. reflexivity.
  - exact Hn.
Defined.

Lemma storage_reads_witness :
  (st_GetContainerId (H := sample_driver) "s1" sample_db).1 = Ok "c1" ∧
  (GetMonitor (H := sample_driver) 2 sample_db).1 = Ok (mkMonitorRow 2 "monitor").
Proof.
  destruct (storage_reads sample_driver sample_db "demo" "s1" 2) as (_ & _ & _ & H1 & H2).
  - apply sample_db_ok.
  - reflexivity.
  - rewrite H1, H2. split; vm_compute; reflexivity.
Defined.
