(* ===== verification/Vars.v ===== *)
(** Template variables (src/pkg/variable/variables.go).

    A [Variables] value is a map from names to variables whose values may refer to
    other variables as [${name}].  [Build] resolves every variable by substituting
    the values of the variables it refers to; [Rendering] substitutes resolved
    values into a text.  [resolve] recurses along references without consulting
    its [marked] set, so it runs on fuel here: [None] is a run that has not
    returned.  [denotes] is the specification: the value a variable stands for. *)

From S2P Require Import Prelude Errno GoLib.
From Stdlib Require Import Ascii.

Record Variable_ : Type := mkVariable {
  Name : string;
  VDescription : string;
  Value : string;
  Resolved : bool;
}.

#[export] Instance Variable_eq_dec : EqDecision Variable_.
Proof. solve_decision. Defined.

(** [r] says whether the regular expression was compiled; before that it is a nil
    pointer. *)
Record Variables : Type := mkVariables {
  vmap : gmap string Variable_;
  vr : bool;
}.

(** * The regular expression [\${([^${}]+)}] *)

Inductive seg : Type :=
| Lit (a : ascii)
| Ref (name : string).

Definition special (a : ascii) : bool :=
  bool_decide (a = "$"%char ∨ a = "{"%char ∨ a = "}"%char).

(** The longest run of bytes other than [$], [{] and [}], and what follows. *)
Fixpoint take_name (s : string) : string * string :=
  match s with
  | EmptyString => (EmptyString, EmptyString)
  | String a s' =>
      if special a then (EmptyString, s)
      else let '(n, r) := take_name s' in (String a n, r)
  end.

(** A match at the start of the text: the name and the rest. *)
Definition match_var (s : string) : option (string * string) :=
  match s with
  | String "$" (String "{" s') =>
      match take_name s' with
      | (String a n, String "}" r) => Some (String a n, r)
      | _ => None
      end
  | _ => None
  end.

(** Leftmost non-overlapping matches and the bytes between them. *)
Fixpoint scan (fuel : nat) (s : string) : list seg :=
  match fuel with
  | 0 => []
  | S fuel =>
      match s with
      | EmptyString => []
      | String a s' =>
          match match_var s with
          | Some (n, r) => Ref n :: scan fuel r
          | None => Lit a :: scan fuel s'
          end
      end
  end.
Definition segments (s : string) : list seg := scan (String.length s) s.

Definition seg_ref (g : seg) : list string := match g with Ref n => [n] | Lit _ => [] end.
Definition seg_text (g : seg) : string :=
  match g with Lit a => String a "" | Ref n => "${" +:+ n +:+ "}" end.

(** [FindAllStringSubmatch(s, -1)]: the names, in order. *)
Definition refs (s : string) : list string := flat_map seg_ref (segments s).

(** [ReplaceAllStringFunc]: the callback gets the name inside the braces and may
    panic. *)
Fixpoint replace_refs {E} (f : string → res E string) (l : list seg) : res E string :=
  match l with
  | [] => Ok EmptyString
  | Lit a :: l => s ← replace_refs f l; Ok (String a s)
  | Ref n :: l => w ← f n; s ← replace_refs f l; Ok (w +:+ s)
  end.

(** * Operations *)

Definition NewVariables : Variables := {| vmap := ∅; vr := false |}.

Definition Register (vars : Variables) (v : Variable_) : Variables * res error unit :=
  let name := Name v in
  match vmap vars !! name with
  | Some _ => (vars, Err (EText ("variable '" +:+ name +:+ "' duplicate define")))
  | None => ({| vmap := <[name := v]> (vmap vars); vr := vr vars |}, Ok tt)
  end.

Definition Get (vars : Variables) (name : string) : res error string :=
  match vmap vars !! name with
  | None => Err (EText ("variable '" +:+ name +:+ "' not found"))
  | Some v =>
      if Resolved v then Ok (Value v)
      else Err (EText ("variable '" +:+ name +:+ "' unresolved"))
  end.

Definition resolved_with (w : string) (v : Variable_) : Variable_ :=
  {| Name := Name v; VDescription := VDescription v; Value := w; Resolved := true |}.

Definition Set_ (vars : Variables) (name value : string) : Variables * res error unit :=
  match vmap vars !! name with
  | None => (vars, Err (EText ("variable '" +:+ name +:+ "' not found")))
  | Some v => ({| vmap := <[name := resolved_with value v]> (vmap vars); vr := vr vars |}, Ok tt)
  end.

(** State of a resolution: the variables and the [marked] set. *)
Definition rstate : Type := gmap string Variable_ * gmap string bool.

(** The loop over the sub-variables, stopping at the first error. *)
Fixpoint resolve_subs (rec : rstate → string → option (rstate * res error string))
    (st : rstate) (l : list string) : option (rstate * res error unit) :=
  match l with
  | [] => Some (st, Ok tt)
  | n :: l =>
      match rec st n with
      | None => None
      | Some (st', Ok _) => resolve_subs rec st' l
      | Some (st', Err e) => Some (st', Err e)
      | Some (st', Panic) => Some (st', Panic)
      end
  end.

Fixpoint resolve (fuel : nat) (st : rstate) (name : string)
    : option (rstate * res error string) :=
  match fuel with
  | 0 => None
  | S fuel =>
      let '(m, marked) := st in
      let marked := <[name := true]> marked in
      match m !! name with
      | None => Some ((m, marked), Err (EText ("variable '" +:+ name +:+ "' not defined")))
      | Some v =>
          if Resolved v then Some ((m, marked), Ok (Value v)) else
          match refs (Value v) with
          | [] => Some ((<[name := resolved_with (Value v) v]> m, marked), Ok (Value v))
          | matches =>
              match resolve_subs (resolve fuel) (m, marked) matches with
              | None => None
              | Some ((m, marked), Ok _) =>
                  (* [v] is a pointer: its fields are read again *)
                  match m !! name with
                  | None => Some ((m, marked), Panic)
                  | Some v =>
                      match replace_refs (λ n, match m !! n with
                                               | Some u => Ok (Value u)
                                               | None => Panic (* nil dereference *)
                                               end) (segments (Value v)) with
                      | Ok w => Some ((<[name := resolved_with w v]> m, marked), Ok w)
                      | Err e => Some ((m, marked), Err e)
                      | Panic => Some ((m, marked), Panic)
                      end
                  end
              | Some (st, Err e) => Some (st, Err e)
              | Some (st, Panic) => Some (st, Panic)
              end
          end
      end
  end.

(** The loop of [Build]: each variable gets a fresh [marked] set. *)
Fixpoint build_loop (fuel : nat) (m : gmap string Variable_) (names : list string)
    : option (gmap string Variable_ * res error unit) :=
  match names with
  | [] => Some (m, Ok tt)
  | n :: names =>
      match resolve fuel (m, ∅) n with
      | None => None
      | Some ((m', _), Ok _) => build_loop fuel m' names
      | Some ((m', _), Err e) => Some (m', Err e)
      | Some ((m', _), Panic) => Some (m', Panic)
      end
  end.

Definition Build `{MapOrder} (fuel : nat) (vars : Variables)
    : option (Variables * res error unit) :=
  match build_loop fuel (vmap vars) ((λ p, Name p.2) <$> range (vmap vars)) with
  | None => None
  | Some (m, r) => Some ({| vmap := m; vr := true |}, r)
  end.

(** [Rendering] replaces every reference and reports the first failed lookup. *)
Definition Rendering (vars : Variables) (s : string) : res error string :=
  if negb (vr vars) then Panic (* nil regular expression *) else
  match refs s with
  | [] => Ok s
  | _ => replace_refs (Get vars) (segments s)
  end.

(** * Specification *)

(** Substitution of [f] for the references. *)
Definition expand (f : string → string) (l : list seg) : string :=
  sconcat ((λ g, match g with Lit a => String a "" | Ref n => f n end) <$> l).

(** [denotes m k w]: variable [k] stands for [w] in [m]: its value when it is
    resolved, else its value with each reference replaced by what that variable
    stands for.  Nothing is denoted through an undefined name or a cycle. *)
Inductive denotes (m : gmap string Variable_) : string → string → Prop :=
| denotes_resolved k v :
    m !! k = Some v → Resolved v = true → denotes m k (Value v)
| denotes_refs k v f :
    m !! k = Some v → Resolved v = false →
    (∀ n, n ∈ refs (Value v) → denotes m n (f n)) →
    denotes m k (expand f (segments (Value v))).

(** Every variable is registered under its own name. *)
Definition wf_vars (m : gmap string Variable_) : Prop :=
  map_Forall (λ k v, Name v = k) m.

(** Every reference in an unresolved variable is to a defined variable. *)
Definition closed (m : gmap string Variable_) : Prop :=
  map_Forall (λ _ v, Resolved v = false → ∀ n, n ∈ refs (Value v) → is_Some (m !! n)) m.

(** What [m0] looks like after some of its variables have been resolved. *)
Definition progress (m0 m : gmap string Variable_) : Prop :=
  ∀ k, match m0 !! k, m !! k with
       | None, None => True
       | Some v0, Some v => v = v0 ∨ ∃ w, denotes m0 k w ∧ v = resolved_with w v0
       | _, _ => False
       end.

(** ** Segments *)

Lemma take_name_app s n r : take_name s = (n, r) → s = n +:+ r.
Proof.
  revert n r; induction s as [|a s IH]; intros n r; simpl; [by intros [= <- <-]|].
  destruct (special a); [by intros [= <- <-]|].
  destruct (take_name s) as [n' r']. intros [= <- <-]. simpl. f_equal. by apply IH.
Qed.

Lemma match_var_Some s n r : match_var s = Some (n, r) → s = seg_text (Ref n) +:+ r.
Proof.
  unfold match_var. intros H. repeat case_match; simplify_eq.
  rename select (take_name _ = _) into Ht. apply take_name_app in Ht as ->.
  simpl. by rewrite app_assoc_string.
Qed.

Lemma scan_text fuel s :
  String.length s ≤ fuel → sconcat (seg_text <$> scan fuel s) = s.
Proof.
  revert s; induction fuel as [|fuel IH]; intros [|a s] Hl; simpl in Hl; try done; try lia.
  cbn [scan]. destruct (match_var (String a s)) as [[n r]|] eqn:Hm;
    rewrite fmap_cons, sconcat_cons, IH; try done; try lia.
  - by apply match_var_Some in Hm.
  - apply match_var_Some, (f_equal String.length) in Hm.
    rewrite length_app_string in Hm. simpl in Hm. lia.
Qed.

(** Cutting a text into segments loses nothing. *)
Lemma segments_text s : sconcat (seg_text <$> segments s) = s.
Proof. by apply scan_text. Qed.

Lemma expand_ext f g l :
  (∀ n, n ∈ flat_map seg_ref l → f n = g n) → expand f l = expand g l.
Proof.
  unfold expand. induction l as [|[a|n] l IH]; simpl; intros H; [done| |].
  - f_equal. by apply IH.
  - f_equal; [apply H; by left|]. apply IH. intros. apply H. by right.
Qed.

Lemma expand_no_refs f s : refs s = [] → expand f (segments s) = s.
Proof.
  unfold refs. intros H. rewrite <-(segments_text s) at 2. unfold expand. f_equal.
  revert H. induction (segments s) as [|[a|n] l IH]; simpl; intros H; [done| |done].
  f_equal. by apply IH.
Qed.

Lemma replace_refs_Ok {E} (f : string → res E string) g l :
  (∀ n, n ∈ flat_map seg_ref l → f n = Ok (g n)) → replace_refs f l = Ok (expand g l).
Proof.
  induction l as [|[a|n] l IH]; simpl; intros H; [done| |].
  - by rewrite IH.
  - rewrite H by (by left). simpl. rewrite IH; [done|]. intros. apply H. by right.
Qed.

Lemma replace_refs_inv {E} (f : string → res E string) l w :
  replace_refs f l = Ok w → ∀ n, n ∈ flat_map seg_ref l → ∃ u, f n = Ok u.
Proof.
  revert w; induction l as [|[a|n'] l IH]; simpl; intros w H n Hn.
  - by apply elem_of_nil in Hn.
  - apply bind_Ok in H as (s & H & _). eauto.
  - apply bind_Ok in H as (u & Hu & (s & H & _)%bind_Ok).
    apply elem_of_cons in Hn as [->|Hn]; eauto.
Qed.

(** ** Denotation *)

Lemma denotes_functional m k w w' : denotes m k w → denotes m k w' → w = w'.
Proof.
  intros H. revert w'. induction H as [k v Hk Hr|k v f Hk Hr _ IH]; intros w' H';
    inversion H' as [? v' Hk' Hr'|? v' f' Hk' Hr' Hf']; simplify_eq; try congruence.
  apply expand_ext. intros n Hn. by apply IH, Hf'.
Qed.

Lemma denotes_defined m k w : denotes m k w → is_Some (m !! k).
Proof. destruct 1; eauto. Qed.

Lemma progress_refl m : progress m m.
Proof. intros k. destruct (m !! k); auto. Qed.

Lemma progress_lookup m0 m k v0 :
  progress m0 m → m0 !! k = Some v0 →
  ∃ v, m !! k = Some v ∧ (v = v0 ∨ ∃ w, denotes m0 k w ∧ v = resolved_with w v0).
Proof. intros H Hk. specialize (H k). rewrite Hk in H. destruct (m !! k); [eauto|done]. Qed.

Lemma progress_lookup_inv m0 m k v :
  progress m0 m → m !! k = Some v →
  ∃ v0, m0 !! k = Some v0 ∧ (v = v0 ∨ ∃ w, denotes m0 k w ∧ v = resolved_with w v0).
Proof. intros H Hk. specialize (H k). rewrite Hk in H. destruct (m0 !! k); [eauto|done]. Qed.

Lemma progress_None m0 m k : progress m0 m → m !! k = None → m0 !! k = None.
Proof. intros H Hk. specialize (H k). rewrite Hk in H. by destruct (m0 !! k). Qed.

(** A resolved entry holds what the variable denotes at the start. *)
Lemma progress_resolved m0 m k v :
  progress m0 m → m !! k = Some v → Resolved v = true → denotes m0 k (Value v).
Proof.
  intros H Hk Hr. destruct (progress_lookup_inv _ _ _ _ H Hk) as (v0 & Hk0 & [->|(w & Hw & ->)]).
  - by apply denotes_resolved.
  - done.
Qed.

(** An unresolved entry is untouched. *)
Lemma progress_unresolved m0 m k v :
  progress m0 m → m !! k = Some v → Resolved v = false → m0 !! k = Some v.
Proof.
  intros H Hk Hr.
  destruct (progress_lookup_inv _ _ _ _ H Hk) as (v0 & Hk0 & [->|(w & _ & ->)]); done.
Qed.

Lemma progress_insert m0 m k v w :
  progress m0 m → m !! k = Some v → denotes m0 k w →
  progress m0 (<[k := resolved_with w v]> m).
Proof.
  intros H Hk Hw k'. destruct (decide (k' = k)) as [->|Hne].
  - rewrite lookup_insert_eq.
    destruct (progress_lookup_inv _ _ _ _ H Hk) as (v0 & -> & [->|(w' & _ & ->)]); right; eauto.
  - rewrite lookup_insert_ne by done. apply H.
Qed.

(** ** References among unresolved variables *)

Definition edge (m : gmap string Variable_) (k n : string) : Prop :=
  ∃ v, m !! k = Some v ∧ Resolved v = false ∧ n ∈ refs (Value v).

(** A variable that denotes something is not on a cycle. *)
Lemma denotes_acyclic m k w : denotes m k w → ¬ tc (edge m) k k.
Proof.
  induction 1 as [k v Hk Hr|k v f Hk Hr Hf IH]; intros Hc.
  - apply tc_rtc_l_inv in Hc || idtac.
    assert (∃ n, edge m k n) as (n & v' & Hk' & Hr' & _) by (inversion Hc; eauto).
    congruence.
  - assert (∃ n, edge m k n ∧ rtc (edge m) n k) as (n & (v' & Hk' & Hr' & Hn) & Hrtc).
    { inversion Hc as [? ? Hs|? n ? Hs Ht]; subst; [eauto using rtc_refl|].
      eauto using tc_rtc. }
    simplify_eq. apply (IH n Hn). eapply tc_rtc_l; [exact Hrtc|].
    apply tc_once. by exists v.
Qed.

(** Resolved entries stay as they are. *)
Definition keeps_resolved (m m' : gmap string Variable_) : Prop :=
  ∀ k v, m !! k = Some v → Resolved v = true → m' !! k = Some v.

(** What a resolution of [k] from [m] may do. *)
Definition resolve_post (m0 m : gmap string Variable_) (k : string)
    (m' : gmap string Variable_) (r : res error string) : Prop :=
  progress m0 m' ∧ keeps_resolved m m' ∧
  (∀ k', m' !! k' ≠ m !! k' → rtc (edge m0) k k') ∧
  match r with
  | Ok w => denotes m0 k w ∧ ∃ v, m' !! k = Some v ∧ Resolved v = true ∧ Value v = w
  | Err _ => (∀ w, ¬ denotes m0 k w) ∧ (closed m0 → m0 !! k = None)
  | Panic => False
  end.

(** The same for the loop over the sub-variables of [k]. *)
Definition subs_post (m0 m : gmap string Variable_) (l : list string)
    (m' : gmap string Variable_) (r : res error unit) : Prop :=
  progress m0 m' ∧ keeps_resolved m m' ∧
  (∀ k', m' !! k' ≠ m !! k' → ∃ n, n ∈ l ∧ rtc (edge m0) n k') ∧
  match r with
  | Ok _ => ∀ n, n ∈ l → ∃ v, denotes m0 n (Value v) ∧ m' !! n = Some v ∧ Resolved v = true
  | Err _ => ∃ n, n ∈ l ∧ (∀ w, ¬ denotes m0 n w) ∧ (closed m0 → m0 !! n = None)
  | Panic => False
  end.

Lemma resolve_subs_sound m0 rec l m mk m' mk' r :
  (∀ m mk n m' mk' r, progress m0 m → rec (m, mk) n = Some ((m', mk'), r) →
     resolve_post m0 m n m' r) →
  progress m0 m → resolve_subs rec (m, mk) l = Some ((m', mk'), r) →
  subs_post m0 m l m' r.
Proof.
  intros Hrec. revert m mk; induction l as [|n l IH]; intros m mk Hp; simpl.
  { intros [= <- _ <-]. split_and!; try done.
    - by intros k v.
    - intros n Hn. by apply elem_of_nil in Hn. }
  destruct (rec (m, mk) n) as [[[m1 mk1] r1]|] eqn:Hn; [|done].
  pose proof (Hrec _ _ _ _ _ _ Hp Hn) as (Hp1 & Hk1 & Hf1 & Hr1).
  destruct r1 as [w|e|]; [|intros [= <- <- <-]|done].
  - intros Hl. destruct (IH _ _ Hp1 Hl) as (Hp' & Hk' & Hf' & Hr').
    split_and!; [done|intros k v ??; apply Hk'; [by apply Hk1|done]| |].
    + intros k' Hne. destruct (decide (m1 !! k' = m !! k')) as [Heq|Hne1].
      * rewrite <-Heq in Hne. destruct (Hf' _ Hne) as (n' & ? & ?). exists n'.
        split; [by right|done].
      * exists n. split; [by left|]. by apply Hf1.
    + destruct Hr1 as (Hw & v & Hv & Hvr & <-). destruct r as [[]|e|].
      * intros n' [->|Hn']%elem_of_cons; [|by apply Hr'].
        exists v. split_and!; [done|by apply Hk'|done].
      * destruct Hr' as (n' & ? & ?). exists n'. split; [by right|done].
      * done.
  - split_and!; [done|done| |].
    + intros k' Hne. exists n. split; [by left|]. by apply Hf1.
    + exists n. split; [by left|done].
Qed.

(** Storing the denoted value of [k] in [m1] after its sub-variables went from [m]
    to [m1]. *)
Lemma resolve_post_store m0 m m1 k v w :
  progress m0 m1 → keeps_resolved m m1 → m !! k = Some v → m1 !! k = Some v →
  Resolved v = false → denotes m0 k w →
  (∀ k', m1 !! k' ≠ m !! k' → rtc (edge m0) k k') →
  resolve_post m0 m k (<[k := resolved_with w v]> m1) (Ok w).
Proof.
  intros Hp1 Hk1 Hk Hm1 Hr Hden Hf1. split; [|split; [|split]].
  - by apply progress_insert.
  - intros k' v' Hk' Hr'. rewrite lookup_insert_ne; [by apply Hk1|]. congruence.
  - intros k' Hne. destruct (decide (k' = k)) as [->|Hkk]; [apply rtc_refl|].
    rewrite lookup_insert_ne in Hne by done. by apply Hf1.
  - split; [done|]. eexists. rewrite lookup_insert_eq. done.
Qed.

(** An undefined sub-variable makes [k] denote nothing. *)
Lemma resolve_post_undefined m0 k v n :
  m0 !! k = Some v → Resolved v = false → n ∈ refs (Value v) →
  (∀ w, ¬ denotes m0 n w) → (closed m0 → m0 !! n = None) →
  (∀ w, ¬ denotes m0 k w) ∧ (closed m0 → m0 !! k = None).
Proof.
  intros Hk0 Hr Hn Hnd Hcl. split.
  - intros w Hw. inversion Hw as [? v' Hv' Hr'|? v' f Hv' Hr' Hf]; simplify_eq.
    + congruence.
    + by eapply Hnd, Hf.
  - intros Hclo. exfalso. destruct (Hclo k v Hk0 Hr n Hn) as [u Hu].
    by rewrite (Hcl Hclo) in Hu.
Qed.

(** After its sub-variables were resolved, [k] itself is still untouched. *)
Lemma subs_leave_target (m0 m m1 : gmap string Variable_) k v :
  m0 !! k = Some v → Resolved v = false →
  (∀ k', m1 !! k' ≠ m !! k' → ∃ n, n ∈ refs (Value v) ∧ rtc (edge m0) n k') →
  (∀ n, n ∈ refs (Value v) → ∃ w, denotes m0 n w) → m1 !! k = m !! k.
Proof.
  intros Hk0 Hr Hf1 Hden. destruct (decide (m1 !! k = m !! k)) as [|Hne]; [done|exfalso].
  destruct (Hf1 k Hne) as (n & Hn & Hnk). destruct (Hden n Hn) as [w Hw].
  apply (denotes_acyclic m0 n w Hw). eapply tc_rtc_l; [exact Hnk|].
  apply tc_once. by exists v.
Qed.

Lemma denotes_leaf m k v :
  m !! k = Some v → Resolved v = false → refs (Value v) = [] → denotes m k (Value v).
Proof.
  intros Hk Hr Href. rewrite <-(expand_no_refs (λ _, "") (Value v)) by done.
  apply denotes_refs; try done. intros n Hn. rewrite Href in Hn. by apply elem_of_nil in Hn.
Qed.

(** The values of the resolved sub-variables, as a function. *)
Definition value_at (m : gmap string Variable_) (n : string) : string :=
  match m !! n with Some u => Value u | None => "" end.

(** Resolution is sound for the specification: it only stores denoted values, and
    it fails only when the variable denotes nothing because some name it needs is
    undefined. *)
Lemma resolve_sound m0 fuel m mk k m' mk' r :
  progress m0 m → resolve fuel (m, mk) k = Some ((m', mk'), r) → resolve_post m0 m k m' r.
Proof.
  revert m mk k m' mk' r; induction fuel as [|fuel IH]; intros m mk k m' mk' r Hp; [done|].
  cbn [resolve]. destruct (m !! k) as [v|] eqn:Hk.
  2:{ intros [= <- _ <-]. pose proof (progress_None _ _ _ Hp Hk) as Hk0.
      split_and!; try done; [by intros ? ?|].
      intros w Hw%denotes_defined. rewrite Hk0 in Hw. by destruct Hw. }
  destruct (Resolved v) eqn:Hr.
  { intros [= <- _ <-]. split; [done|]. split; [by intros ? ?|]. split; [done|].
    split; [by eapply progress_resolved|eauto]. }
  pose proof (progress_unresolved _ _ _ _ Hp Hk Hr) as Hk0.
  destruct (refs (Value v)) as [|n0 l0] eqn:Href.
  { intros [= <- _ <-]. eapply resolve_post_store; try done; [by intros ? ?|by apply denotes_leaf]. }
  rewrite <-Href.
  destruct (resolve_subs (resolve fuel) (m, <[k:=true]> mk) (refs (Value v)))
    as [[[m1 mk1] r1]|] eqn:Hsubs; [|done].
  destruct (resolve_subs_sound m0 _ _ _ _ _ _ _ IH Hp Hsubs) as (Hp1 & Hk1 & Hf1 & Hr1).
  assert (∀ k', m1 !! k' ≠ m !! k' → rtc (edge m0) k k') as Hreach.
  { intros k' (n & Hn & Hnk)%Hf1. eapply rtc_l; [|exact Hnk]. by exists v. }
  destruct r1 as [[]|e|]; [|intros [= <- _ <-]|done].
  2:{ destruct Hr1 as (n & Hn & Hnd & Hcl). split; [done|]. split; [done|].
      split; [done|]. by eapply resolve_post_undefined. }
  assert (∀ n, n ∈ refs (Value v) → denotes m0 n (value_at m1 n)) as Hf.
  { intros n Hn. destruct (Hr1 n Hn) as (u & Hu & Hm & _). unfold value_at. by rewrite Hm. }
  assert (m1 !! k = Some v) as Hm1 by (rewrite <-Hk; eapply subs_leave_target; eauto).
  rewrite Hm1, (replace_refs_Ok _ (value_at m1)).
  2:{ intros n Hn. destruct (Hr1 n Hn) as (u & _ & Hm & _). unfold value_at. by rewrite Hm. }
  intros [= <- _ <-]. eapply resolve_post_store; try done. by apply denotes_refs.
Qed.

(** A variable that denotes a value is resolved to it by every long enough run. *)
Definition resolves (m0 : gmap string Variable_) (fuel : nat) (k w : string) : Prop :=
  ∀ fuel' m mk, fuel ≤ fuel' → progress m0 m →
    ∃ m' mk', resolve fuel' (m, mk) k = Some ((m', mk'), Ok w).

Lemma resolve_subs_complete m0 F fuel f l m mk :
  (∀ n, n ∈ l → resolves m0 F n (f n)) → F ≤ fuel → progress m0 m →
  ∃ m' mk', resolve_subs (resolve fuel) (m, mk) l = Some ((m', mk'), Ok tt).
Proof.
  intros Hl HF. revert m mk; induction l as [|n l IH]; intros m mk Hp; simpl; [eauto|].
  destruct (Hl n) with (fuel' := fuel) (m := m) (mk := mk) as (m1 & mk1 & Hn);
    [by left|done|done|].
  rewrite Hn. apply IH; [|by eapply resolve_sound in Hn as [? _]].
  intros n' Hn'. apply Hl. by right.
Qed.

Lemma bounded_choice (P : nat → string → Prop) (l : list string) :
  (∀ F F' n, F ≤ F' → P F n → P F' n) → (∀ n, n ∈ l → ∃ F, P F n) →
  ∃ F, ∀ n, n ∈ l → P F n.
Proof.
  intros Hmono. induction l as [|n l IH]; intros Hl.
  { exists 0. intros n Hn. by apply elem_of_nil in Hn. }
  destruct (Hl n) as [F1 H1]; [by left|].
  destruct IH as [F2 H2]; [intros; apply Hl; by right|].
  exists (F1 + F2). intros n' [->|Hn']%elem_of_cons; (eapply Hmono; [|eauto]); lia.
Qed.

Lemma resolves_mono m0 F F' k w : F ≤ F' → resolves m0 F k w → resolves m0 F' k w.
Proof. intros HF H fuel' m mk Hle. apply H. lia. Qed.

Lemma resolve_complete m0 k w : denotes m0 k w → ∃ F, resolves m0 F k w.
Proof.
  induction 1 as [k v Hk Hr|k v f Hk Hr Hf IH].
  - exists 1. intros [|fuel] m mk Hle Hp; [lia|]. cbn [resolve].
    destruct (progress_lookup _ _ _ _ Hp Hk) as (v' & Hv' & [->|(w & Hw & ->)]);
      rewrite Hv'; simpl; rewrite ?Hr; [eauto|].
    rewrite (denotes_functional _ _ _ _ (denotes_resolved _ _ _ Hk Hr) Hw). eauto.
  - destruct (bounded_choice (λ F n, resolves m0 F n (f n)) (refs (Value v))) as [F HF];
      [by intros; eapply resolves_mono|done|].
    exists (S F). intros [|fuel] m mk Hle Hp; [lia|].
    assert (denotes m0 k (expand f (segments (Value v)))) as Hden by by apply denotes_refs.
    destruct (resolve (S fuel) (m, mk) k) as [[[m' mk'] r]|] eqn:Hrun.
    { pose proof (resolve_sound _ _ _ _ _ _ _ _ Hp Hrun) as (_ & _ & _ & Hres).
      destruct r as [w|e|]; [|by destruct (proj1 Hres _ Hden)|done].
      destruct Hres as [Hw _]. rewrite (denotes_functional _ _ _ _ Hden Hw). eauto. }
    exfalso. cbn [resolve] in Hrun.
    destruct (progress_lookup _ _ _ _ Hp Hk) as (v' & Hv' & [->|(w & Hw & ->)]);
      rewrite Hv' in Hrun; [|by simpl in Hrun]. rewrite Hr in Hrun.
    destruct (refs (Value v)) eqn:Href; [done|]. rewrite <-Href in Hrun, HF.
    destruct (resolve_subs_complete m0 F fuel f (refs (Value v)) m (<[k:=true]> mk))
      as (m1 & mk1 & Hsubs); [done|lia|done|].
    rewrite Hsubs in Hrun. by repeat case_match.
Qed.

(** ** Build *)

(** [m'] is [m] with every variable resolved to what it denotes. *)
Definition solution (m m' : gmap string Variable_) : Prop :=
  ∀ k, match m !! k, m' !! k with
       | None, None => True
       | Some v, Some v' => ∃ w, denotes m k w ∧ v' = resolved_with w v
       | _, _ => False
       end.

Lemma solution_unique m m1 m2 : solution m m1 → solution m m2 → m1 = m2.
Proof.
  intros H1 H2. apply map_eq. intros k. specialize (H1 k). specialize (H2 k).
  destruct (m !! k), (m1 !! k), (m2 !! k); try done.
  destruct H1 as (w1 & Hw1 & ->), H2 as (w2 & Hw2 & ->).
  by rewrite (denotes_functional _ _ _ _ Hw1 Hw2).
Qed.

Lemma build_loop_sound m0 fuel m names m' r :
  progress m0 m → build_loop fuel m names = Some (m', r) →
  progress m0 m' ∧ keeps_resolved m m' ∧
  match r with
  | Ok _ => ∀ n, n ∈ names → ∃ v, m' !! n = Some v ∧ Resolved v = true
  | Err _ => ∃ n, n ∈ names ∧ (closed m0 → m0 !! n = None)
  | Panic => False
  end.
Proof.
  revert m; induction names as [|n names IH]; intros m Hp; simpl.
  { intros [= <- <-]. split; [done|]. split; [by intros ? ?|].
    intros n Hn. by apply elem_of_nil in Hn. }
  destruct (resolve fuel (m, ∅) n) as [[[m1 mk1] r1]|] eqn:Hn; [|done].
  destruct (resolve_sound _ _ _ _ _ _ _ _ Hp Hn) as (Hp1 & Hk1 & _ & Hr1).
  destruct r1 as [w|e|]; [|intros [= <- <-]|done].
  - intros (Hp' & Hk' & Hr')%IH; [|done]. split; [done|].
    split; [intros k v Hk Hv; apply Hk'; [by apply Hk1|done]|].
    destruct Hr1 as (_ & v & Hv & Hvr & _). destruct r as [[]|e|]; [| |done].
    + intros n' [->|Hn']%elem_of_cons; [|by apply Hr'].
      exists v. split; [by apply Hk'|done].
    + destruct Hr' as (n' & ? & ?). exists n'. split; [by right|done].
  - split; [done|]. split; [done|]. exists n. split; [by left|]. apply Hr1.
Qed.

Lemma build_loop_complete m0 F fuel m names :
  (∀ n, n ∈ names → ∃ w, resolves m0 F n w) → F ≤ fuel → progress m0 m →
  ∃ m', build_loop fuel m names = Some (m', Ok tt).
Proof.
  intros Hl HF. revert m; induction names as [|n names IH]; intros m Hp; simpl; [eauto|].
  destruct (Hl n) as [w Hw]; [by left|].
  destruct (Hw fuel m ∅ HF Hp) as (m1 & mk1 & Hn). rewrite Hn.
  apply IH; [|by eapply resolve_sound in Hn as [? _]]. intros. apply Hl. by right.
Qed.

Section build.
Context `{MapOrder}.

Lemma build_names m : wf_vars m → (λ p, Name p.2) <$> range m = (range m).*1.
Proof.
  intros Hwf. apply list_fmap_ext. intros i [k v] Hi.
  apply list_elem_of_lookup_2, elem_of_range in Hi. by apply (Hwf k v).
Qed.

Lemma elem_of_build_names m n :
  wf_vars m → n ∈ (λ p, Name p.2) <$> range m ↔ is_Some (m !! n).
Proof.
  intros Hwf. rewrite build_names by done. rewrite list_elem_of_fmap. split.
  - intros ([k v] & -> & Hk%elem_of_range). eauto.
  - intros [v Hv]. exists (n, v). split; [done|]. by apply elem_of_range.
Qed.

Lemma Build_solution fuel vars vars' :
  wf_vars (vmap vars) → Build fuel vars = Some (vars', Ok tt) →
  solution (vmap vars) (vmap vars').
Proof.
  intros Hwf Hb. unfold Build in Hb.
  destruct (build_loop _ _ _) as [[m r]|] eqn:Hl; [|done]. injection Hb as <- ->. simpl.
  destruct (build_loop_sound (vmap vars) _ _ _ _ _ (progress_refl _) Hl) as (Hp & _ & Hall).
  intros k. destruct (vmap vars !! k) as [v|] eqn:Hk.
  - destruct (Hall k) as (v' & Hv' & Hr'); [by apply elem_of_build_names|].
    rewrite Hv'. pose proof (progress_resolved _ _ _ _ Hp Hv' Hr') as Hden.
    exists (Value v'). split; [done|].
    destruct (progress_lookup _ _ _ _ Hp Hk) as (u & Hu & Hcase). simplify_eq.
    destruct Hcase as [->|(w & _ & ->)]; [|done]. destruct v; simpl in *. by subst.
  - destruct (m !! k) eqn:Hm; [|done]. specialize (Hp k). by rewrite Hk, Hm in Hp.
Qed.

Lemma Build_complete vars :
  wf_vars (vmap vars) →
  (∀ k, is_Some (vmap vars !! k) → ∃ w, denotes (vmap vars) k w) →
  ∃ F, ∀ fuel, F ≤ fuel → ∃ vars', Build fuel vars = Some (vars', Ok tt).
Proof.
  intros Hwf Hall.
  destruct (bounded_choice (λ F n, ∃ w, resolves (vmap vars) F n w)
              ((λ p, Name p.2) <$> range (vmap vars))) as [F HF].
  { intros F F' n Hle [w Hw]. exists w. by eapply resolves_mono. }
  { intros n Hn%elem_of_build_names; [|done]. destruct (Hall n Hn) as [w Hw].
    destruct (resolve_complete _ _ _ Hw) as [F HF]. eauto. }
  exists F. intros fuel Hle.
  destruct (build_loop_complete (vmap vars) F fuel (vmap vars) _ HF Hle (progress_refl _))
    as [m' Hm'].
  unfold Build. rewrite Hm'. eauto.
Qed.
End build.

(** * Properties *)

(** C4: [Build] implements the specification.  When it succeeds, every variable
    is resolved to the value it denotes and nothing else changes; it succeeds, for
    every long enough run, exactly when every variable denotes a value; it never
    dereferences nil, and an error means that some variable refers to a name that
    is not defined. *)
Theorem Build_refines_denotes (o : MapOrder) (vars : Variables) :
  wf_vars (vmap vars) →
  (∀ fuel vars', Build fuel vars = Some (vars', Ok tt) → solution (vmap vars) (vmap vars')) ∧
  ((∀ k, is_Some (vmap vars !! k) → ∃ w, denotes (vmap vars) k w) ↔
     ∃ F, ∀ fuel, F ≤ fuel → ∃ vars', Build fuel vars = Some (vars', Ok tt)) ∧
  (∀ fuel vars' e, Build fuel vars = Some (vars', Err e) → ¬ closed (vmap vars)) ∧
  (∀ fuel vars', Build fuel vars ≠ Some (vars', Panic)).
Proof.
  intros Hwf. split_and!.
  - intros. by eapply Build_solution.
  - split; [by apply Build_complete|].
    intros (F & HF) k [v Hk]. destruct (HF F (Nat.le_refl F)) as [vars' Hb].
    pose proof (Build_solution _ _ _ Hwf Hb k) as Hs. rewrite Hk in Hs.
    destruct (vmap vars' !! k); [|done]. destruct Hs as (w & ? & _). eauto.
  - intros fuel vars' e Hb Hcl. unfold Build in Hb.
    destruct (build_loop _ _ _) as [[m r]|] eqn:Hl; [|done]. injection Hb as _ ->.
    destruct (build_loop_sound (vmap vars) _ _ _ _ _ (progress_refl _) Hl)
      as (_ & _ & n & Hn & Hnone).
    apply elem_of_build_names in Hn; [|done]. rewrite Hnone in Hn by done. by destruct Hn.
  - intros fuel vars' Hb. unfold Build in Hb.
    destruct (build_loop _ _ _) as [[m r]|] eqn:Hl; [|done]. injection Hb as _ ->.
    by destruct (build_loop_sound (vmap vars) _ _ _ _ _ (progress_refl _) Hl) as (_ & _ & []).
Qed.

(** A topology-like variable section to evaluate on. *)
Definition var (k s : string) : Variable_ :=
  {| Name := k; VDescription := ""; Value := s; Resolved := false |}.
Definition sample_vars : Variables :=
  {| vmap := list_to_map [("home", var "home" "/home/${user}"); ("user", var "user" "dingo");
                          ("data", var "data" "${home}/data")]; vr := false |}.
Definition cyclic_vars : Variables :=
  {| vmap := list_to_map [("a", var "a" "x${b}"); ("b", var "b" "${a}")]; vr := false |}.

Lemma Build_refines_denotes_witness :
  solution (vmap sample_vars)
    (vmap (default (NewVariables, Panic) (Build (H := canonical_order) 5 sample_vars)).1) ∧
  Value <$> vmap (default (NewVariables, Panic) (Build (H := canonical_order) 5 sample_vars)).1
      !! "data" = Some "/home/dingo/data".
Proof.
  split; [|vm_compute; reflexivity].
  destruct (Build_refines_denotes canonical_order sample_vars) as (H & _).
  - refine (bool_decide_unpack (map_Forall _ _) _). vm_compute. exact I.
  - eapply (H 5). vm_compute. reflexivity.
Defined.

(** C40: the order in which Go walks the variable map does not matter: when
    [Build] succeeds under one order with some variables, then under every other
    order every long enough run succeeds with the same variables. *)
Theorem Build_order_independent (o1 o2 : MapOrder) (vars vars1 : Variables) (fuel1 : nat) :
  wf_vars (vmap vars) →
  Build (H := o1) fuel1 vars = Some (vars1, Ok tt) →
  ∃ F, ∀ fuel, F ≤ fuel → Build (H := o2) fuel vars = Some (vars1, Ok tt).
Proof.
  intros Hwf Hb1. pose proof (Build_solution (H := o1) _ _ _ Hwf Hb1) as Hs1.
  destruct (Build_complete (H := o2) vars Hwf) as [F HF].
  { intros k [v Hk]. specialize (Hs1 k). rewrite Hk in Hs1.
    destruct (vmap vars1 !! k); [|done]. destruct Hs1 as (w & ? & _). eauto. }
  exists F. intros fuel Hle. destruct (HF fuel Hle) as [vars2 Hb2]. rewrite Hb2.
  pose proof (Build_solution (H := o2) _ _ _ Hwf Hb2) as Hs2.
  do 2 f_equal. unfold Build in Hb1, Hb2.
  destruct (build_loop fuel1 _ _) as [[m1 r1]|]; [|done].
  destruct (build_loop fuel _ _) as [[m2 r2]|]; [|done].
  injection Hb1 as <- _. injection Hb2 as <- _. simpl in *. f_equal.
  by eapply solution_unique.
Qed.

Lemma Build_order_independent_witness :
  ∃ F vars1, ∀ fuel, F ≤ fuel →
    Build (H := reverse_order) fuel sample_vars = Some (vars1, Ok tt).
Proof.
  destruct (Build_order_independent canonical_order reverse_order sample_vars
              (default (NewVariables, Panic) (Build (H := canonical_order) 5 sample_vars)).1 5)
    as [F HF].
  - refine (bool_decide_unpack (map_Forall _ _) _). vm_compute. exact I.
  - vm_compute. reflexivity.
  - eauto.
Defined.

(** The [marked] set of [resolve] does not stop a cycle: when every reference
    is defined but some variable reaches itself through unresolved variables,
    [Build] never returns, in any order (each longer run is still recursing). *)
Theorem Build_diverges_on_cycle (o : MapOrder) (vars : Variables) (k : string) :
  wf_vars (vmap vars) → closed (vmap vars) → tc (edge (vmap vars)) k k →
  ∀ fuel, Build fuel vars = None.
Proof.
  intros Hwf Hcl Hc fuel.
  destruct (Build fuel vars) as [[vars' r]|] eqn:Hb; [exfalso|done].
  assert (is_Some (vmap vars !! k)) as [v Hk].
  { assert (∃ n, edge (vmap vars) k n) as (n & v & Hv & _) by (inversion Hc; eauto). eauto. }
  unfold Build in Hb. destruct (build_loop _ _ _) as [[m r']|] eqn:Hl; [|done].
  injection Hb as <- ->.
  destruct (build_loop_sound (vmap vars) _ _ _ _ _ (progress_refl _) Hl) as (Hp & _ & Hr).
  destruct r as [[]|e|]; [| |done].
  - destruct (Hr k) as (v' & Hv' & Hr'); [by apply elem_of_build_names|].
    by eapply denotes_acyclic, Hc; eapply progress_resolved.
  - destruct Hr as (n & Hn%elem_of_build_names & Hnone); [|done].
    rewrite Hnone in Hn by done. by destruct Hn.
Qed.

Lemma closed_check m :
  map_Forall (λ _ v, Forall (λ n, is_Some (m !! n)) (refs (Value v))) m → closed m.
Proof. intros H k v Hk _ n Hn. by eapply Forall_forall in Hn; [|by eapply H]. Qed.

Lemma edge_check m k n v :
  m !! k = Some v → Resolved v = false → bool_decide (n ∈ refs (Value v)) = true →
  edge m k n.
Proof. intros Hk Hr Hn%bool_decide_eq_true. by exists v. Qed.

Lemma Build_diverges_on_cycle_witness :
  Build (H := canonical_order) 100 cyclic_vars = None.
Proof.
  apply (Build_diverges_on_cycle canonical_order cyclic_vars "a").
  - refine (bool_decide_unpack (map_Forall _ _) _). vm_compute. exact I.
  - apply closed_check. refine (bool_decide_unpack (map_Forall _ _) _). vm_compute. exact I.
  - eapply tc_l; [|apply tc_once].
    + by apply (edge_check _ "a" "b" (var "a" "x${b}")).
    + by apply (edge_check _ "b" "a" (var "b" "${a}")).
Defined.

(** Rendering a text.  Before the first [Build] it dereferences a nil regular
    expression.  After it, the text with every reference replaced by the value of
    the variable is returned when all referenced variables are resolved, and
    otherwise an error about some referenced name; text without references is
    returned unchanged. *)
Theorem Rendering_spec (vars : Variables) (s : string) :
  (vr vars = false → Rendering vars s = Panic) ∧
  (vr vars = true →
   (∀ n, n ∈ refs s → ∃ v, vmap vars !! n = Some v ∧ Resolved v = true) →
   Rendering vars s = Ok (expand (value_at (vmap vars)) (segments s))) ∧
  (vr vars = true →
   ∀ n, n ∈ refs s → (∀ v, vmap vars !! n = Some v → Resolved v = false) →
   ∃ e, Rendering vars s = Err e) ∧
  (vr vars = true → refs s = [] → Rendering vars s = Ok s).
Proof.
  unfold Rendering. split_and!; intros Hr; rewrite Hr; [done|..]; simpl.
  - intros Hall. destruct (refs s) eqn:Href; [by rewrite expand_no_refs|]. rewrite <-Href in Hall.
    apply replace_refs_Ok. intros n Hn. destruct (Hall n Hn) as (v & Hv & Hvr).
    unfold Get, value_at. by rewrite Hv, Hvr.
  - intros n Hn Hbad. destruct (refs s) eqn:Href; [by apply elem_of_nil in Hn|].
    rewrite <-Href in Hn.
    assert (∀ n, Get vars n ≠ Panic) as Hnp.
    { intros n'. unfold Get. by repeat case_match. }
    assert (∀ l, replace_refs (Get vars) l ≠ Panic) as Hrp.
    { intros gs; induction gs as [|[a|n'] gs IH]; simpl; [done| |].
      - by destruct (replace_refs (Get vars) gs).
      - specialize (Hnp n'). destruct (Get vars n'); [|done..]. simpl.
        by destruct (replace_refs (Get vars) gs). }
    specialize (Hrp (segments s)).
    destruct (replace_refs (Get vars) (segments s)) as [w|e|] eqn:E; [|eauto|done].
    exfalso. destruct (replace_refs_inv _ _ _ E n Hn) as [u Hu].
    unfold Get in Hu. destruct (vmap vars !! n) as [v|]; [|done]. by rewrite (Hbad v) in Hu.
  - by intros ->.
Qed.

Lemma Rendering_spec_witness :
  let vars := (default (NewVariables, Panic) (Build (H := canonical_order) 5 sample_vars)).1 in
  Rendering vars "dir=${data};" = Ok "dir=/home/dingo/data;".
Proof.
  intros vars. destruct (Rendering_spec vars "dir=${data};") as (_ & H & _).
  rewrite H; [vm_compute; reflexivity|vm_compute; reflexivity|].
  intros n Hn. assert (n = "data") as ->.
  { apply list_elem_of_singleton. exact Hn. }
  eexists. split; vm_compute; reflexivity.
Defined.
