(* ===== verification/DeployConfig.v ===== *)
(** Deploy configurations (src/internal/configure/topology: dc.go, dc_item.go,
    dc_get.go, context.go).

    A [DeployConfig] is one instance of one service on one host.  Its [config] map
    holds what the topology file says; a config item gives the key, the required
    type and the default of a value.  The getters read the map, then the default,
    and assert the dynamic type: a failed assertion is a [Panic].  A [Context] is
    shared by pointer; a nil pointer is [None]. *)

From S2P Require Import Prelude Errno GoLib Utils Vars.

(** * Constants *)

Definition KIND_DINGO : string := "dingo".
Definition KIND_DINGOFS : string := "dingofs".
Definition KIND_DINGOSTORE : string := "dingo-store".
Definition KIND_DINGODB : string := "dingodb".
Definition ROLE_ETCD : string := "etcd".
Definition ROLE_CHUNKSERVER : string := "chunkserver".
Definition ROLE_SNAPSHOTCLONE : string := "snapshotclone".
Definition ROLE_METASERVER : string := "metaserver".
Definition ROLE_FS_MDS : string := "mds".
Definition ROLE_FS_MDS_CLI : string := "mds-client".
Definition ROLE_COORDINATOR : string := "coordinator".
Definition ROLE_STORE : string := "store".
Definition ROLE_DINGODB_DOCUMENT : string := "document".
Definition ROLE_DINGODB_DISKANN : string := "diskann".
Definition ROLE_DINGODB_INDEX : string := "index".
Definition ROLE_DINGODB_PROXY : string := "proxy".
Definition ROLE_DINGODB_WEB : string := "web".
Definition ROLE_DINGODB_EXECUTOR : string := "executor".
Definition SCRIPT_CHECK_STORE_HEALTH : string := "check_store_health.sh".
Definition SCRIPT_SYNC_JAVA_OPTS : string := "sync_java_opts.sh".
Definition SCRIPT_START_EXECUTOR : string := "start-executor.sh".
Definition SCRIPT_CREATE_MDSV2_TABLES : string := "create_mdsv2_tables.sh".
Definition CTX_KEY_MDS_VERSION : string := "mds.version".
Definition CTX_VAL_MDS_V1 : string := "v1".
Definition CTX_VAL_MDS_V2 : string := "v2".

Definition DEFAULT_REPORT_USAGE : bool := false.
Definition DEFAULT_DINGOFS_CONTAINER_IMAGE : string := "dingodatabase/dingofs:latest".
Definition DEFAULT_ETCD_LISTEN_PEER_PORT : Z := 2380%Z.
Definition DEFAULT_ETCD_LISTEN_CLIENT_PORT : Z := 2379%Z.
Definition DEFAULT_MDS_LISTEN_PORT : Z := 6700%Z.
Definition DEFAULT_MDS_LISTEN_DUMMY_PORT : Z := 7700%Z.
Definition DEFAULT_CHUNKSERVER_LISTN_PORT : Z := 8200%Z.
Definition DEFAULT_SNAPSHOTCLONE_LISTEN_PORT : Z := 5555%Z.
Definition DEFAULT_COORDINATOR_SERVER_PORT : Z := 6500%Z.
Definition DEFAULT_COORDINATOR_RAFT_PORT : Z := 7500%Z.
Definition DEFAULT_STORE_SERVER_PORT : Z := 6600%Z.
Definition DEFAULT_STORE_RAFT_PORT : Z := 7600%Z.
Definition DEFAULT_STORE_SERVER_LISTEN_HOST : string := "0.0.0.0".
Definition DEFAULT_STORE_RAFT_LISTEN_HOST : string := "0.0.0.0".
Definition DEFAULT_STORE_REPLICA_NUM : Z := 3%Z.
Definition DEFAULT_STORE_INSTANCE_START_ID : Z := 1001%Z.
Definition DEFAULT_SNAPSHOTCLONE_LISTEN_DUMMY_PORT : Z := 8081%Z.
Definition DEFAULT_SNAPSHOTCLONE_LISTEN_PROXY_PORT : Z := 8080%Z.
Definition DEFAULT_METASERVER_LISTN_PORT : Z := 6800%Z.
Definition DEFAULT_METASERVER_LISTN_EXTARNAL_PORT : Z := 7800%Z.
Definition DEFAULT_DINGO_SERVER_LISTEN_HOST : string := "0.0.0.0".
Definition DEFAULT_FS_MDS_LISTEN_PORT : Z := 6900%Z.
Definition DEFAULT_ENABLE_EXTERNAL_SERVER : bool := false.
Definition DEFAULT_CHUNKSERVER_COPYSETS : Z := 100%Z.
Definition DEFAULT_METASERVER_COPYSETS : Z := 100%Z.
Definition DEFAULT_DINGODB_EXECUTOR_SERVER_PORT : Z := 8765%Z.
Definition DEFAULT_DINGODB_EXECUTOR_MYSQL_PORT : Z := 3307%Z.
Definition DEFAULT_DOCUMENT_SERVER_PORT : Z := 23001%Z.
Definition DEFAULT_DOCUMENT_RAFT_PORT : Z := 23101%Z.
Definition DEFAULT_INDEX_SERVER_PORT : Z := 21001%Z.
Definition DEFAULT_INDEX_RAFT_PORT : Z := 21101%Z.
Definition DEFAULT_DISKANN_SERVER_PORT : Z := 24001%Z.
Definition DEFAULT_DINGODB_WEB_SERVER_PORT : Z := 13001%Z.
Definition DEFAULT_DINGODB_PROXY_SERVER_PORT : Z := 13000%Z.
Definition DEFAULT_DINGODB_WEB_EXPORT_PORT : Z := 19100%Z.
Definition DEFAULT_DINGO_MDS_CLUSTER_ID : Z := 0%Z.

Definition LAYOUT_DINGO_ROOT_DIR : string := "/dingo".
Definition LAYOUT_DINGOFS_ROOT_DIR : string := "/dingofs".
Definition LAYOUT_DINGOSTORE_ROOT_DIR : string := "/opt/dingo-store".
Definition LAYOUT_DINGOSTORE_BIN_DIR : string := "/opt/dingo-store/build/bin".
Definition LAYOUT_DINGOSTORE_DIST_DIR : string := "/opt/dingo-store/dist".
Definition LAYOUT_DINGDB_DINGO_ROOT_DIR : string := "/opt/dingo".
Definition LAYOUT_PLAYGROUND_ROOT_DIR : string := "playground".
Definition LAYOUT_CONF_SRC_DIR : string := "/conf".
Definition LAYOUT_SERVICE_BIN_DIR : string := "/sbin".
Definition LAYOUT_SERVICE_CONF_DIR : string := "/conf".
Definition LAYOUT_SERVICE_LOGS_DIR : string := "/logs".
Definition LAYOUT_SERVICE_LOG_DIR : string := "/log".
Definition LAYOUT_SERVICE_DATA_DIR : string := "/data".
Definition LAYOUT_FS_TOOLS_DIR : string := "/tools".
Definition LAYOUT_MDSV2_CLIENT_DIR : string := "/mds-client".
Definition LAYOUT_DINGO_CLI_CONFIG_USER_DIR : string := "/root/.dingo".
Definition LAYOUT_DINGO_CLI_CONFIG_SYSTEM_PATH : string := "/root/.dingo/dingo.yaml".
Definition LAYOUT_DINGO_COOR_RAFT_DIR : string := "/coordinator1/data/raft".
Definition LAYOUT_DINGO_COOR_DATA_DIR : string := "/coordinator1/data/db".
Definition LAYOUT_DINGO_COOR_LOG_DIR : string := "/coordinator1/log".
Definition LAYOUT_DINGO_STORE_RAFT_DIR : string := "/store1/data/raft".
Definition LAYOUT_DINGO_STORE_DATA_DIR : string := "/store1/data/db".
Definition LAYOUT_DINGO_STORE_LOG_DIR : string := "/store1/log".
Definition LAYOUT_DINGO_DOCUMENT_DATA_DIR : string := "/document1/data/db".
Definition LAYOUT_DINGO_DOCUMENT_LOG_DIR : string := "/document1/log".
Definition LAYOUT_DINGO_DOCUMENT_RAFT_DIR : string := "/document1/data/raft".
Definition LAYOUT_DINGO_DOCUMENT_DOC_DIR : string := "/document1/data/document_index".
Definition LAYOUT_DINGO_DISKANN_DATA_DIR : string := "/diskann1/data/diskann".
Definition LAYOUT_DINGO_DISKANN_LOG_DIR : string := "/diskann1/log".
Definition LAYOUT_DINGO_INDEX_DATA_DIR : string := "/index1/data/db".
Definition LAYOUT_DINGO_INDEX_LOG_DIR : string := "/index1/log".
Definition LAYOUT_DINGO_INDEX_VECTOR_DIR : string := "/index1/data/vector_index_snapshot".
Definition LAYOUT_DINGO_INDEX_RAFT_DIR : string := "/index1/data/raft".
Definition LAYOUT_DINGO_LOG_DIR : string := "/log".
Definition LAYOUT_CORE_SYSTEM_DIR : string := "/core".
Definition BINARY_DINGOFS_TOOLS : string := "dingo".
Definition BINARY_FS_MDS_CLIENT : string := "dingo-mds-client".
Definition METAFILE_CHUNKFILE_POOL : string := "chunkfilepool.meta".
Definition METAFILE_CHUNKSERVER_ID : string := "chunkserver.dat".

(** * Context (context.go) *)

Definition Context : Type := gmap string string.

Definition NewContext : Context := ∅.
Definition ctx_Add (c : option Context) (host hostname : string) : res error (option Context) :=
  match c with
  | Some m => Ok (Some (<[host := hostname]> m))
  | None => Panic (* nil dereference *)
  end.
Definition ctx_Lookup (c : option Context) (host : string) : res error string :=
  match c with
  | Some m => Ok (default EmptyString (m !! host))
  | None => Panic (* nil dereference *)
  end.

(** * Data *)

Record DeployConfig : Type := mkDeployConfig {
  kind : string;
  id : string;
  parentId : string;
  role : string;
  host : string;
  hostname : string;
  name : string;
  instances : Z;
  hostSequence : Z;
  instancesSequence : Z;
  config : gmap string val;
  serviceConfig : gmap string string;
  variables : option Variables;
  ctx : option Context;
}.

(** The zero value of the struct. *)
Definition zero_dc : DeployConfig := {|
  kind := ""; id := ""; parentId := ""; role := ""; host := ""; hostname := ""; name := "";
  instances := 0; hostSequence := 0; instancesSequence := 0; config := ∅;
  serviceConfig := ∅; variables := None; ctx := None |}.

Inductive require : Type :=
| REQUIRE_ANY | REQUIRE_INT | REQUIRE_STRING | REQUIRE_BOOL
| REQUIRE_POSITIVE_INTEGER | REQUIRE_MAP.

#[export] Instance require_eq_dec : EqDecision require.
Proof. solve_decision. Defined.

(** The default of an item: a constant ([VNil] for none) or a function. *)
Inductive default_value : Type :=
| DConst (v : val)
| DFunc (f : DeployConfig → res error val).

Record item : Type := mkItem {
  i_kind : string;
  i_key : string;
  i_require : require;
  i_exclude : bool;
  i_default : default_value;
}.

Record itemSet : Type := mkItemSet {
  items : list item;
  key2item : gmap string item;
}.

Definition empty_itemset : itemSet := {| items := []; key2item := ∅ |}.
Definition itemset_insert (s : itemSet) (i : item) : itemSet :=
  {| items := items s ++ [i]; key2item := <[i_key i := i]> (key2item s) |}.
Definition itemset_get (s : itemSet) (key : string) : option item := key2item s !! key.
Definition itemset_getAll (s : itemSet) : list item := items s.

(** * Reading an item *)

Definition default_of (dc : DeployConfig) (i : item) : res error val :=
  match i_default i with DConst v => Ok v | DFunc f => f dc end.

Definition get (dc : DeployConfig) (i : item) : res error val :=
  match config dc !! i_key i with
  | Some v => Ok v
  | None => default_of dc i
  end.

Definition getString (dc : DeployConfig) (i : item) : res error string :=
  v ← get dc i; if is_nil v then Ok "" else assert_string v.

Definition getInt (dc : DeployConfig) (i : item) : res error Z :=
  v ← get dc i;
  match v with
  | VInt z => Ok z
  | VString s => Ok (default 0%Z (Atoi s))
  | _ => Ok 0%Z
  end.

Definition getBool (dc : DeployConfig) (i : item) : res error bool :=
  v ← get dc i; if is_nil v then Ok false else assert_bool v.

Definition getMap (dc : DeployConfig) (i : item) : res error (gmap string val) :=
  v ← get dc i; if is_nil v then Ok ∅ else assert_map v.

(** * Properties of a deploy config *)

Definition GetKind (dc : DeployConfig) : string := kind dc.
Definition GetId (dc : DeployConfig) : string := id dc.
Definition GetParentId (dc : DeployConfig) : string := parentId dc.
Definition GetRole (dc : DeployConfig) : string := role dc.
Definition GetHost (dc : DeployConfig) : string := host dc.
Definition GetHostname (dc : DeployConfig) : string := hostname dc.
Definition GetName (dc : DeployConfig) : string := name dc.
Definition GetInstances (dc : DeployConfig) : Z := instances dc.
Definition GetHostSequence (dc : DeployConfig) : Z := hostSequence dc.
Definition GetInstancesSequence (dc : DeployConfig) : Z := instancesSequence dc.
Definition GetServiceConfig (dc : DeployConfig) : gmap string string := serviceConfig dc.
Definition GetVariables (dc : DeployConfig) : option Variables := variables dc.
Definition GetCtx (dc : DeployConfig) : option Context := ctx dc.

(** A method call on the variables dereferences the pointer. *)
Definition vars_of (dc : DeployConfig) : res error Variables :=
  match GetVariables dc with Some vars => Ok vars | None => Panic end.

(** A [switch] on the role whose cases return ports; no case returns [nil]. *)
Definition by_role (r : string) (cases : list (string * Z)) : val :=
  match find_first (λ c, bool_decide (c.1 = r)) cases with
  | Some (_, p) => VInt p
  | None => VNil
  end.

(** * The config items (dc_item.go) *)

Definition CONFIG_PREFIX_default : DeployConfig → res error val := λ dc,
  if decide (GetKind dc = KIND_DINGOFS) then
    if decide (GetRole dc = ROLE_FS_MDS) then
      v ← ctx_Lookup (GetCtx dc) CTX_KEY_MDS_VERSION;
      if decide (v = CTX_VAL_MDS_V2)
      then Ok (VString (path_Join [LAYOUT_DINGOFS_ROOT_DIR; "dist"; ROLE_FS_MDS]))
      else Ok (VString (path_Join [LAYOUT_DINGOFS_ROOT_DIR; GetRole dc]))
    else if decide (GetRole dc ∈ [ROLE_COORDINATOR; ROLE_STORE]) then
      Ok (VString LAYOUT_DINGOSTORE_ROOT_DIR)
    else if decide (GetRole dc = ROLE_DINGODB_EXECUTOR) then
      Ok (VString LAYOUT_DINGDB_DINGO_ROOT_DIR)
    else Ok (VString (path_Join [LAYOUT_DINGOFS_ROOT_DIR; GetRole dc]))
  else if decide (GetKind dc = KIND_DINGOSTORE) then
    if decide (GetRole dc ∈ [ROLE_COORDINATOR; ROLE_STORE]) then
      Ok (VString LAYOUT_DINGOSTORE_ROOT_DIR)
    else if decide (GetRole dc = ROLE_DINGODB_EXECUTOR) then
      Ok (VString LAYOUT_DINGDB_DINGO_ROOT_DIR)
    else Ok (VString LAYOUT_DINGOSTORE_DIST_DIR)
  else if decide (GetKind dc = KIND_DINGODB) then
    if decide (GetRole dc ∈ [ROLE_COORDINATOR; ROLE_STORE; ROLE_DINGODB_DOCUMENT;
                             ROLE_DINGODB_INDEX; ROLE_DINGODB_DISKANN]) then
      Ok (VString LAYOUT_DINGOSTORE_ROOT_DIR)
    else if decide (GetRole dc ∈ [ROLE_DINGODB_PROXY; ROLE_DINGODB_WEB;
                                  ROLE_DINGODB_EXECUTOR]) then
      Ok (VString LAYOUT_DINGDB_DINGO_ROOT_DIR)
    else Ok (VString LAYOUT_DINGO_ROOT_DIR)
  else Ok (VString (path_Join [LAYOUT_DINGO_ROOT_DIR; GetRole dc])).
Definition CONFIG_PREFIX : item :=
  mkItem KIND_DINGO "prefix" REQUIRE_STRING true (DFunc CONFIG_PREFIX_default).
Definition CONFIG_REPORT_USAGE : item :=
  mkItem KIND_DINGOFS "report_usage" REQUIRE_BOOL true (DConst (VBool DEFAULT_REPORT_USAGE)).
Definition CONFIG_CONTAINER_IMAGE_default : DeployConfig → res error val := λ _, Ok (VString DEFAULT_DINGOFS_CONTAINER_IMAGE).
Definition CONFIG_CONTAINER_IMAGE : item :=
  mkItem KIND_DINGO "container_image" REQUIRE_STRING true (DFunc CONFIG_CONTAINER_IMAGE_default).
Definition CONFIG_LOG_DIR : item :=
  mkItem KIND_DINGO "log_dir" REQUIRE_STRING true (DConst VNil).
Definition CONFIG_DATA_DIR : item :=
  mkItem KIND_DINGO "data_dir" REQUIRE_STRING true (DConst VNil).
Definition CONFIG_SEQ_OFFSET : item :=
  mkItem KIND_DINGO "sequence_offset" REQUIRE_POSITIVE_INTEGER true (DConst VNil).
Definition CONFIG_SOURCE_CORE_DIR : item :=
  mkItem KIND_DINGO "source_core_dir" REQUIRE_STRING true (DConst VNil).
Definition CONFIG_TARGET_CORE_DIR : item :=
  mkItem KIND_DINGO "target_core_dir" REQUIRE_STRING true (DConst VNil).
Definition CONFIG_ENV : item :=
  mkItem KIND_DINGO "env" REQUIRE_STRING true (DConst VNil).
Definition CONFIG_LISTEN_IP_default : DeployConfig → res error val := λ dc, Ok (VString (GetHostname dc)).
Definition CONFIG_LISTEN_IP : item :=
  mkItem KIND_DINGO "listen.ip" REQUIRE_STRING true (DFunc CONFIG_LISTEN_IP_default).
Definition CONFIG_LISTEN_PORT_default : DeployConfig → res error val := λ dc, Ok (by_role (GetRole dc) [(ROLE_ETCD, DEFAULT_ETCD_LISTEN_PEER_PORT);
  (ROLE_CHUNKSERVER, DEFAULT_CHUNKSERVER_LISTN_PORT);
  (ROLE_SNAPSHOTCLONE, DEFAULT_SNAPSHOTCLONE_LISTEN_PORT);
  (ROLE_METASERVER, DEFAULT_METASERVER_LISTN_PORT);
  (ROLE_FS_MDS, DEFAULT_FS_MDS_LISTEN_PORT);
  (ROLE_FS_MDS_CLI, DEFAULT_FS_MDS_LISTEN_PORT);
  (ROLE_COORDINATOR, DEFAULT_COORDINATOR_SERVER_PORT);
  (ROLE_STORE, DEFAULT_STORE_SERVER_PORT);
  (ROLE_DINGODB_EXECUTOR, DEFAULT_DINGODB_EXECUTOR_MYSQL_PORT)]).
Definition CONFIG_LISTEN_PORT : item :=
  mkItem KIND_DINGOFS "listen.port" REQUIRE_POSITIVE_INTEGER true (DFunc CONFIG_LISTEN_PORT_default).
Definition CONFIG_LISTEN_CLIENT_PORT : item :=
  mkItem KIND_DINGOFS "listen.client_port" REQUIRE_POSITIVE_INTEGER true (DConst (VInt DEFAULT_ETCD_LISTEN_CLIENT_PORT)).
Definition CONFIG_LISTEN_DUMMY_PORT_default : DeployConfig → res error val := λ dc, Ok (by_role (GetRole dc) [(ROLE_FS_MDS, DEFAULT_MDS_LISTEN_DUMMY_PORT);
  (ROLE_SNAPSHOTCLONE, DEFAULT_SNAPSHOTCLONE_LISTEN_DUMMY_PORT)]).
Definition CONFIG_LISTEN_DUMMY_PORT : item :=
  mkItem KIND_DINGOFS "listen.dummy_port" REQUIRE_POSITIVE_INTEGER true (DFunc CONFIG_LISTEN_DUMMY_PORT_default).
Definition CONFIG_LISTEN_PROXY_PORT : item :=
  mkItem KIND_DINGOFS "listen.proxy_port" REQUIRE_POSITIVE_INTEGER true (DConst (VInt DEFAULT_SNAPSHOTCLONE_LISTEN_PROXY_PORT)).
Definition CONFIG_LISTEN_EXTERNAL_IP_default : DeployConfig → res error val := λ dc, Ok (VString (GetHostname dc)).
Definition CONFIG_LISTEN_EXTERNAL_IP : item :=
  mkItem KIND_DINGOFS "listen.external_ip" REQUIRE_STRING true (DFunc CONFIG_LISTEN_EXTERNAL_IP_default).
Definition CONFIG_LISTEN_EXTERNAL_PORT_default : DeployConfig → res error val := λ dc,
  if decide (GetRole dc = ROLE_METASERVER) then
    Ok (VInt DEFAULT_METASERVER_LISTN_EXTARNAL_PORT)
  else p ← getInt dc CONFIG_LISTEN_PORT; Ok (VInt p).
Definition CONFIG_LISTEN_EXTERNAL_PORT : item :=
  mkItem KIND_DINGOFS "listen.external_port" REQUIRE_POSITIVE_INTEGER true (DFunc CONFIG_LISTEN_EXTERNAL_PORT_default).
Definition CONFIG_ENABLE_EXTERNAL_SERVER : item :=
  mkItem KIND_DINGOFS "global.enable_external_server" REQUIRE_BOOL false (DConst (VBool DEFAULT_ENABLE_EXTERNAL_SERVER)).
Definition CONFIG_COPYSETS_default : DeployConfig → res error val := λ dc,
  if decide (GetRole dc = ROLE_CHUNKSERVER) then Ok (VInt DEFAULT_CHUNKSERVER_COPYSETS)
  else Ok (VInt DEFAULT_METASERVER_COPYSETS).
Definition CONFIG_COPYSETS : item :=
  mkItem KIND_DINGOFS "copysets" REQUIRE_POSITIVE_INTEGER true (DFunc CONFIG_COPYSETS_default).
Definition CONFIG_S3_ACCESS_KEY : item :=
  mkItem KIND_DINGOFS "s3.ak" REQUIRE_STRING false (DConst VNil).
Definition CONFIG_S3_SECRET_KEY : item :=
  mkItem KIND_DINGOFS "s3.sk" REQUIRE_STRING false (DConst VNil).
Definition CONFIG_S3_ADDRESS : item :=
  mkItem KIND_DINGOFS "s3.nos_address" REQUIRE_STRING false (DConst VNil).
Definition CONFIG_S3_BUCKET_NAME : item :=
  mkItem KIND_DINGOFS "s3.snapshot_bucket_name" REQUIRE_STRING false (DConst VNil).
Definition CONFIG_ENABLE_RDMA : item :=
  mkItem KIND_DINGOFS "enable_rdma" REQUIRE_BOOL true (DConst (VBool false)).
Definition CONFIG_ENABLE_RENAMEAT2 : item :=
  mkItem KIND_DINGOFS "fs.enable_renameat2" REQUIRE_BOOL false (DConst (VBool true)).
Definition CONFIG_ENABLE_CHUNKFILE_POOL : item :=
  mkItem KIND_DINGOFS "chunkfilepool.enable_get_chunk_from_pool" REQUIRE_BOOL false (DConst (VBool true)).
Definition CONFIG_VARIABLE : item :=
  mkItem KIND_DINGO "variable" REQUIRE_STRING true (DConst VNil).
Definition CONFIG_ETCD_AUTH_ENABLE : item :=
  mkItem KIND_DINGOFS "etcd.auth.enable" REQUIRE_BOOL false (DConst (VBool false)).
Definition CONFIG_ETCD_AUTH_USERNAME : item :=
  mkItem KIND_DINGOFS "etcd.auth.username" REQUIRE_STRING false (DConst VNil).
Definition CONFIG_ETCD_AUTH_PASSWORD : item :=
  mkItem KIND_DINGOFS "etcd.auth.password" REQUIRE_STRING false (DConst VNil).
Definition CONFIG_DINGO_STORE_RAFT_DIR : item :=
  mkItem KIND_DINGO "raft_dir" REQUIRE_STRING true (DConst VNil).
Definition CONFIG_DINGO_STORE_SERVER_PORT_default : DeployConfig → res error val := λ dc, Ok (by_role (GetRole dc) [(ROLE_COORDINATOR, DEFAULT_COORDINATOR_SERVER_PORT);
  (ROLE_STORE, DEFAULT_STORE_SERVER_PORT);
  (ROLE_FS_MDS, DEFAULT_FS_MDS_LISTEN_PORT);
  (ROLE_DINGODB_DOCUMENT, DEFAULT_DOCUMENT_SERVER_PORT);
  (ROLE_DINGODB_INDEX, DEFAULT_INDEX_SERVER_PORT);
  (ROLE_DINGODB_DISKANN, DEFAULT_DISKANN_SERVER_PORT)]).
Definition CONFIG_DINGO_STORE_SERVER_PORT : item :=
  mkItem KIND_DINGO "server.port" REQUIRE_POSITIVE_INTEGER true (DFunc CONFIG_DINGO_STORE_SERVER_PORT_default).
Definition CONFIG_DINGO_STORE_RAFT_PORT_default : DeployConfig → res error val := λ dc, Ok (by_role (GetRole dc) [(ROLE_COORDINATOR, DEFAULT_COORDINATOR_RAFT_PORT);
  (ROLE_STORE, DEFAULT_STORE_RAFT_PORT);
  (ROLE_DINGODB_DOCUMENT, DEFAULT_DOCUMENT_RAFT_PORT);
  (ROLE_DINGODB_INDEX, DEFAULT_INDEX_RAFT_PORT)]).
Definition CONFIG_DINGO_STORE_RAFT_PORT : item :=
  mkItem KIND_DINGO "raft.port" REQUIRE_POSITIVE_INTEGER true (DFunc CONFIG_DINGO_STORE_RAFT_PORT_default).
Definition CONFFIG_DINGO_STORE_SERVER_LISTEN_HOST_default : DeployConfig → res error val := λ _, Ok (VString DEFAULT_STORE_SERVER_LISTEN_HOST).
Definition CONFFIG_DINGO_STORE_SERVER_LISTEN_HOST : item :=
  mkItem KIND_DINGO "server_listen_host" REQUIRE_STRING true (DFunc CONFFIG_DINGO_STORE_SERVER_LISTEN_HOST_default).
Definition CONFFIG_DINGO_STORE_RAFT_LISTEN_HOST_default : DeployConfig → res error val := λ _, Ok (VString DEFAULT_STORE_RAFT_LISTEN_HOST).
Definition CONFFIG_DINGO_STORE_RAFT_LISTEN_HOST : item :=
  mkItem KIND_DINGO "raft_listen_host" REQUIRE_STRING true (DFunc CONFFIG_DINGO_STORE_RAFT_LISTEN_HOST_default).
Definition CONFIG_DINGO_STORE_REPLICA_NUM_default : DeployConfig → res error val := λ _, Ok (VInt DEFAULT_STORE_REPLICA_NUM).
Definition CONFIG_DINGO_STORE_REPLICA_NUM : item :=
  mkItem KIND_DINGO "default_replica_num" REQUIRE_POSITIVE_INTEGER true (DFunc CONFIG_DINGO_STORE_REPLICA_NUM_default).
Definition CONFIG_INSTANCE_START_ID_default : DeployConfig → res error val := λ dc,
  if (0 <? GetInstances dc)%Z then
    Ok (VInt (wrap64 (DEFAULT_STORE_INSTANCE_START_ID
                      + GetHostSequence dc * GetInstances dc + GetInstancesSequence dc)))
  else Ok (VInt (wrap64 (DEFAULT_STORE_INSTANCE_START_ID
                         + GetHostSequence dc + GetInstancesSequence dc))).
Definition CONFIG_INSTANCE_START_ID : item :=
  mkItem KIND_DINGO "instance_start_id" REQUIRE_POSITIVE_INTEGER true (DFunc CONFIG_INSTANCE_START_ID_default).
Definition CONFIG_DINGOSTORE_COORDINATOR_ADDR_default : DeployConfig → res error val := λ dc,
  vars ← vars_of dc;
  match Get vars "coordinator_addr" with
  | Ok value => Ok (VString value)
  | Err _ => Ok (VString "-")
  | Panic => Panic
  end.
Definition CONFIG_DINGOSTORE_COORDINATOR_ADDR : item :=
  mkItem KIND_DINGO "coordinator_addr" REQUIRE_STRING true (DFunc CONFIG_DINGOSTORE_COORDINATOR_ADDR_default).
Definition CONFFIG_DINGO_SERVER_LISTEN_HOST_default : DeployConfig → res error val := λ _, Ok (VString DEFAULT_DINGO_SERVER_LISTEN_HOST).
Definition CONFFIG_DINGO_SERVER_LISTEN_HOST : item :=
  mkItem KIND_DINGO "server_listen_host" REQUIRE_STRING true (DFunc CONFFIG_DINGO_SERVER_LISTEN_HOST_default).
Definition CONFIG_DINGO_STORE_DOCUMENT_DIR : item :=
  mkItem KIND_DINGODB "doc_dir" REQUIRE_STRING true (DConst VNil).
Definition CONFIG_DINGO_STORE_VECTOR_DIR : item :=
  mkItem KIND_DINGODB "vector_dir" REQUIRE_STRING true (DConst VNil).
Definition CONFIG_DINGO_EXECUTOR_JAVA_OPTS_default : DeployConfig → res error val := λ dc,
  Ok (VMap (map_fold (λ k v java_opts,
              if HasPrefix k "java." then <[TrimPrefix k "java." := VString v]> java_opts
              else java_opts) ∅ (GetServiceConfig dc))).
Definition CONFIG_DINGO_EXECUTOR_JAVA_OPTS : item :=
  mkItem KIND_DINGO "java_opts" REQUIRE_MAP true (DFunc CONFIG_DINGO_EXECUTOR_JAVA_OPTS_default).
Definition CONFIG_DINGODB_SERVER_PORT_default : DeployConfig → res error val := λ dc, Ok (by_role (GetRole dc) [(ROLE_DINGODB_EXECUTOR, DEFAULT_DINGODB_EXECUTOR_SERVER_PORT);
  (ROLE_DINGODB_WEB, DEFAULT_DINGODB_WEB_SERVER_PORT);
  (ROLE_DINGODB_PROXY, DEFAULT_DINGODB_PROXY_SERVER_PORT)]).
Definition CONFIG_DINGODB_SERVER_PORT : item :=
  mkItem KIND_DINGODB "port" REQUIRE_POSITIVE_INTEGER false (DFunc CONFIG_DINGODB_SERVER_PORT_default).
Definition CONFIG_DINGODB_EXECUTOR_MYSQL_PORT : item :=
  mkItem KIND_DINGODB "mysqlPort" REQUIRE_POSITIVE_INTEGER false (DConst (VInt DEFAULT_DINGODB_EXECUTOR_MYSQL_PORT)).
Definition CONFIG_DINGODB_WEB_EXPORT_PORT : item :=
  mkItem KIND_DINGODB "exportPort" REQUIRE_POSITIVE_INTEGER false (DConst (VInt DEFAULT_DINGODB_WEB_EXPORT_PORT)).
Definition CONFIG_DINGO_MDS_CLUSTER_ID_default : DeployConfig → res error val := λ dc,
  vars ← vars_of dc;
  match Get vars "cluster_id" with
  | Ok cluster_id =>
      if decide (cluster_id = "") then Ok (VInt DEFAULT_DINGO_MDS_CLUSTER_ID)
      else Ok (VString cluster_id)
  | Err _ => Ok (VInt DEFAULT_DINGO_MDS_CLUSTER_ID)
  | Panic => Panic
  end.
Definition CONFIG_DINGO_MDS_CLUSTER_ID : item :=
  mkItem KIND_DINGOFS "cluster_id" REQUIRE_INT true (DFunc CONFIG_DINGO_MDS_CLUSTER_ID_default).

(** The [itemset.insert] calls of the package initialisation, in order. *)
Definition config_items : list item := [
  CONFIG_PREFIX;
  CONFIG_REPORT_USAGE;
  CONFIG_CONTAINER_IMAGE;
  CONFIG_LOG_DIR;
  CONFIG_DATA_DIR;
  CONFIG_SEQ_OFFSET;
  CONFIG_SOURCE_CORE_DIR;
  CONFIG_TARGET_CORE_DIR;
  CONFIG_ENV;
  CONFIG_LISTEN_IP;
  CONFIG_LISTEN_PORT;
  CONFIG_LISTEN_CLIENT_PORT;
  CONFIG_LISTEN_DUMMY_PORT;
  CONFIG_LISTEN_PROXY_PORT;
  CONFIG_LISTEN_EXTERNAL_IP;
  CONFIG_LISTEN_EXTERNAL_PORT;
  CONFIG_ENABLE_EXTERNAL_SERVER;
  CONFIG_COPYSETS;
  CONFIG_S3_ACCESS_KEY;
  CONFIG_S3_SECRET_KEY;
  CONFIG_S3_ADDRESS;
  CONFIG_S3_BUCKET_NAME;
  CONFIG_ENABLE_RDMA;
  CONFIG_ENABLE_RENAMEAT2;
  CONFIG_ENABLE_CHUNKFILE_POOL;
  CONFIG_VARIABLE;
  CONFIG_ETCD_AUTH_ENABLE;
  CONFIG_ETCD_AUTH_USERNAME;
  CONFIG_ETCD_AUTH_PASSWORD;
  CONFIG_DINGO_STORE_RAFT_DIR;
  CONFIG_DINGO_STORE_SERVER_PORT;
  CONFIG_DINGO_STORE_RAFT_PORT;
  CONFFIG_DINGO_STORE_SERVER_LISTEN_HOST;
  CONFFIG_DINGO_STORE_RAFT_LISTEN_HOST;
  CONFIG_DINGO_STORE_REPLICA_NUM;
  CONFIG_INSTANCE_START_ID;
  CONFIG_DINGOSTORE_COORDINATOR_ADDR;
  CONFFIG_DINGO_SERVER_LISTEN_HOST;
  CONFIG_DINGO_STORE_DOCUMENT_DIR;
  CONFIG_DINGO_STORE_VECTOR_DIR;
  CONFIG_DINGO_EXECUTOR_JAVA_OPTS;
  CONFIG_DINGODB_SERVER_PORT;
  CONFIG_DINGODB_EXECUTOR_MYSQL_PORT;
  CONFIG_DINGODB_WEB_EXPORT_PORT;
  CONFIG_DINGO_MDS_CLUSTER_ID].
Definition itemset : itemSet := foldl itemset_insert empty_itemset config_items.

Lemma items_itemset : items itemset = config_items.
Proof. reflexivity. Qed.

(** * Getters of the config items (dc_get.go) *)

Definition GetPrefix dc : res error string := getString dc CONFIG_PREFIX.
Definition GetReportUsage dc : res error bool := getBool dc CONFIG_REPORT_USAGE.
Definition GetContainerImage dc : res error string := getString dc CONFIG_CONTAINER_IMAGE.
Definition GetLogDir dc : res error string := getString dc CONFIG_LOG_DIR.
Definition GetDataDir (dc : DeployConfig) : res error string :=
  if decide (GetRole dc ∈ [ROLE_DINGODB_EXECUTOR; ROLE_DINGODB_WEB; ROLE_DINGODB_PROXY]) then
    Ok "-"
  else if decide (GetRole dc = ROLE_FS_MDS) then
    v ← ctx_Lookup (GetCtx dc) CTX_KEY_MDS_VERSION;
    if decide (v = CTX_VAL_MDS_V2) then Ok "-" else getString dc CONFIG_DATA_DIR
  else getString dc CONFIG_DATA_DIR.
Definition GetSeqOffset dc : res error Z := getInt dc CONFIG_SEQ_OFFSET.
Definition GetSourceCoreDir dc : res error string := getString dc CONFIG_SOURCE_CORE_DIR.
Definition GetTargetCoreDir dc : res error string := getString dc CONFIG_TARGET_CORE_DIR.
Definition GetEnv dc : res error string := getString dc CONFIG_ENV.
Definition GetListenIp dc : res error string := getString dc CONFIG_LISTEN_IP.
Definition GetListenPort dc : res error Z := getInt dc CONFIG_LISTEN_PORT.
Definition GetListenClientPort dc : res error Z := getInt dc CONFIG_LISTEN_CLIENT_PORT.
Definition GetListenDummyPort dc : res error Z := getInt dc CONFIG_LISTEN_DUMMY_PORT.
Definition GetListenProxyPort dc : res error Z := getInt dc CONFIG_LISTEN_PROXY_PORT.
Definition GetListenExternalIp dc : res error string := getString dc CONFIG_LISTEN_EXTERNAL_IP.
Definition GetCopysets dc : res error Z := getInt dc CONFIG_COPYSETS.
Definition GetS3AccessKey dc : res error string := getString dc CONFIG_S3_ACCESS_KEY.
Definition GetS3SecretKey dc : res error string := getString dc CONFIG_S3_SECRET_KEY.
Definition GetS3Address dc : res error string := getString dc CONFIG_S3_ADDRESS.
Definition GetS3BucketName dc : res error string := getString dc CONFIG_S3_BUCKET_NAME.
Definition GetEnableRDMA dc : res error bool := getBool dc CONFIG_ENABLE_RDMA.
Definition GetEnableRenameAt2 dc : res error bool := getBool dc CONFIG_ENABLE_RENAMEAT2.
Definition GetEtcdAuthEnable dc : res error bool := getBool dc CONFIG_ETCD_AUTH_ENABLE.
Definition GetEtcdAuthUsername dc : res error string := getString dc CONFIG_ETCD_AUTH_USERNAME.
Definition GetEtcdAuthPassword dc : res error string := getString dc CONFIG_ETCD_AUTH_PASSWORD.
Definition GetEnableChunkfilePool dc : res error bool := getBool dc CONFIG_ENABLE_CHUNKFILE_POOL.
Definition GetDingoServerListenHost dc : res error string :=
  getString dc CONFFIG_DINGO_SERVER_LISTEN_HOST.
Definition GetEnableExternalServer dc : res error bool := getBool dc CONFIG_ENABLE_EXTERNAL_SERVER.
Definition GetListenExternalPort (dc : DeployConfig) : res error Z :=
  b ← GetEnableExternalServer dc;
  if (b : bool) then getInt dc CONFIG_LISTEN_EXTERNAL_PORT else GetListenPort dc.
Definition GetDingoRaftDir (dc : DeployConfig) : res error string :=
  if decide (GetRole dc ∈ [ROLE_COORDINATOR; ROLE_STORE; ROLE_DINGODB_DOCUMENT;
                           ROLE_DINGODB_INDEX])
  then getString dc CONFIG_DINGO_STORE_RAFT_DIR else Ok "-".
Definition GetDingoStoreDocDir (dc : DeployConfig) : res error string :=
  if decide (GetRole dc = ROLE_DINGODB_DOCUMENT)
  then getString dc CONFIG_DINGO_STORE_DOCUMENT_DIR else Ok "-".
Definition GetDingoStoreVectorDir (dc : DeployConfig) : res error string :=
  if decide (GetRole dc = ROLE_DINGODB_INDEX)
  then getString dc CONFIG_DINGO_STORE_VECTOR_DIR else Ok "-".
Definition GetDingoStoreServerListenHost dc : res error string :=
  getString dc CONFFIG_DINGO_STORE_SERVER_LISTEN_HOST.
Definition GetDingoStoreRaftListenHost dc : res error string :=
  getString dc CONFFIG_DINGO_STORE_RAFT_LISTEN_HOST.
Definition GetDingoServerPort dc : res error Z := getInt dc CONFIG_DINGO_STORE_SERVER_PORT.
Definition GetDingoStoreRaftPort dc : res error Z := getInt dc CONFIG_DINGO_STORE_RAFT_PORT.
Definition GetDingoDBServerPort dc : res error Z := getInt dc CONFIG_DINGODB_SERVER_PORT.
Definition GetDingoDBMySQLPort dc : res error Z := getInt dc CONFIG_DINGODB_EXECUTOR_MYSQL_PORT.
Definition GetDingoDBExportPort dc : res error Z := getInt dc CONFIG_DINGODB_WEB_EXPORT_PORT.
Definition GetDingoStoreReplicaNum dc : res error Z := getInt dc CONFIG_DINGO_STORE_REPLICA_NUM.
Definition GetDingoInstanceId dc : res error Z := getInt dc CONFIG_INSTANCE_START_ID.
Definition GetDingoStoreCoordinatorAddr dc : res error string :=
  getString dc CONFIG_DINGOSTORE_COORDINATOR_ADDR.
Definition GetDingoExecutorJavaOpts dc : res error (gmap string val) :=
  getMap dc CONFIG_DINGO_EXECUTOR_JAVA_OPTS.
Definition GetDingoClusterId dc : res error Z := getInt dc CONFIG_DINGO_MDS_CLUSTER_ID.

(** * Project layout *)

Definition ServiceConfigs (r : string) : list string :=
  default [] ((list_to_map [
    (ROLE_ETCD, ["etcd.conf"]);
    (ROLE_CHUNKSERVER, ["chunkserver.conf"; "cs_client.conf"; "s3.conf"]);
    (ROLE_SNAPSHOTCLONE, ["snapshotclone.conf"; "snap_client.conf"; "s3.conf"; "nginx.conf"]);
    (ROLE_METASERVER, ["metaserver.conf"]);
    (ROLE_COORDINATOR, ["coordinator-gflags.conf "]);
    (ROLE_STORE, ["store-gflags.conf"]);
    (ROLE_FS_MDS, ["mds.conf"; "mds.template.conf"]);
    (ROLE_DINGODB_EXECUTOR, ["executor.yaml"]);
    (ROLE_DINGODB_WEB, ["application-web-dev.yaml"]);
    (ROLE_DINGODB_PROXY, ["application-proxy-dev.yaml"])] : gmap string (list string)) !! r).

Record ConfFile : Type := mkConfFile {
  cf_Name : string; TargetPath : string; SourcePath : string }.

Record Layout : Type := mkLayout {
  ProjectRootDir : string;
  ServiceRootDir : string;
  ServiceBinDir : string;
  ServiceConfDir : string;
  ServiceLogDir : string;
  ServiceDataDir : string;
  ServiceConfPath : string;
  ServiceConfSrcPath : string;
  ServiceConfFiles : list ConfFile;
  FSToolsBinDir : string;
  FSToolsConfDir : string;
  FSToolsConfSrcPath : string;
  FSToolsConfUserDir : string;
  FSToolsConfSystemPath : string;
  FSToolsBinaryPath : string;
  FSMdsRootDir : string;
  FSMdsCliBinDir : string;
  FSMdsCliConfDir : string;
  FSMdsCliConfSrcPath : string;
  FSMdsCliBinaryPath : string;
  CoordinatorConfSrcPath : string;
  StoreConfSrcPath : string;
  DingoStoreBinDir : string;
  DingoStoreRaftDir : string;
  DingoStoreScriptDir : string;
  DingoStoreDocumentDir : string;
  DingoStoreVectorDir : string;
  DingoExecutorBinDir : string;
  CoreSystemDir : string;
}.

(** One iteration of the loop over the configuration files of the role. *)
Definition conf_file_step (dc : DeployConfig) (confSrcDir serviceConfDir : string)
    (acc : list ConfFile) (item : string) : res error (list ConfFile) :=
  let sourcePath := confSrcDir +:+ "/" +:+ item in
  let targetPath := serviceConfDir +:+ "/" +:+ item in
  if decide (role dc ∈ [ROLE_COORDINATOR; ROLE_STORE; ROLE_DINGODB_DOCUMENT;
                        ROLE_DINGODB_DISKANN; ROLE_DINGODB_INDEX; ROLE_DINGODB_PROXY;
                        ROLE_DINGODB_WEB; ROLE_DINGODB_EXECUTOR]) then
    Ok (acc ++ [mkConfFile item targetPath (serviceConfDir +:+ "/" +:+ item)])
  else if decide (role dc = ROLE_FS_MDS) then
    v ← ctx_Lookup (ctx dc) CTX_KEY_MDS_VERSION;
    if decide (v = CTX_VAL_MDS_V1 ∧ item = "mds.template.conf") then Ok acc else
    if decide (v = CTX_VAL_MDS_V2) then
      if decide (item = "mds.conf") then Ok acc
      else Ok (acc ++ [mkConfFile item sourcePath sourcePath])
    else Ok (acc ++ [mkConfFile item targetPath sourcePath])
  else Ok (acc ++ [mkConfFile item targetPath sourcePath]).

(** The role dependent directories: log, data, raft, document and vector. *)
Definition role_dirs (dc : DeployConfig) (serviceRootDir : string)
    : res error (string * string * string * string * string) :=
  let log := serviceRootDir +:+ LAYOUT_SERVICE_LOGS_DIR in
  let data := serviceRootDir +:+ LAYOUT_SERVICE_DATA_DIR in
  let dist := LAYOUT_DINGOSTORE_DIST_DIR in
  if decide (role dc = ROLE_COORDINATOR) then
    Ok (dist +:+ LAYOUT_DINGO_COOR_LOG_DIR, dist +:+ LAYOUT_DINGO_COOR_DATA_DIR,
        dist +:+ LAYOUT_DINGO_COOR_RAFT_DIR, "", "")
  else if decide (role dc = ROLE_STORE) then
    Ok (dist +:+ LAYOUT_DINGO_STORE_LOG_DIR, dist +:+ LAYOUT_DINGO_STORE_DATA_DIR,
        dist +:+ LAYOUT_DINGO_STORE_RAFT_DIR, "", "")
  else if decide (role dc = ROLE_DINGODB_DOCUMENT) then
    Ok (dist +:+ LAYOUT_DINGO_DOCUMENT_LOG_DIR, dist +:+ LAYOUT_DINGO_DOCUMENT_DATA_DIR,
        dist +:+ LAYOUT_DINGO_DOCUMENT_RAFT_DIR, dist +:+ LAYOUT_DINGO_DOCUMENT_DOC_DIR, "")
  else if decide (role dc = ROLE_DINGODB_DISKANN) then
    Ok (dist +:+ LAYOUT_DINGO_DISKANN_LOG_DIR, dist +:+ LAYOUT_DINGO_DISKANN_DATA_DIR, "", "", "")
  else if decide (role dc = ROLE_DINGODB_INDEX) then
    Ok (dist +:+ LAYOUT_DINGO_INDEX_LOG_DIR, dist +:+ LAYOUT_DINGO_INDEX_DATA_DIR,
        dist +:+ LAYOUT_DINGO_INDEX_RAFT_DIR, "", dist +:+ LAYOUT_DINGO_INDEX_VECTOR_DIR)
  else if decide (role dc ∈ [ROLE_DINGODB_EXECUTOR; ROLE_DINGODB_WEB; ROLE_DINGODB_PROXY]) then
    Ok (serviceRootDir +:+ LAYOUT_DINGO_LOG_DIR, data, "", "", "")
  else if decide (role dc = ROLE_FS_MDS) then
    v ← ctx_Lookup (GetCtx dc) CTX_KEY_MDS_VERSION;
    if decide (v = CTX_VAL_MDS_V2)
    then Ok (serviceRootDir +:+ LAYOUT_SERVICE_LOG_DIR, data, "", "", "")
    else Ok (log, data, "", "", "")
  else Ok (log, data, "", "", "").

Definition dc_GetProjectLayout (dc : DeployConfig) : res error Layout :=
  let root := LAYOUT_DINGOFS_ROOT_DIR in
  let confSrcDir := root +:+ LAYOUT_CONF_SRC_DIR in
  serviceRootDir ← GetPrefix dc;
  let serviceConfDir := serviceRootDir +:+ "/conf" in
  serviceConfFiles ← fold_res (conf_file_step dc confSrcDir serviceConfDir)
                       (ServiceConfigs (GetRole dc)) [];
  let fsToolsRootDir := root +:+ LAYOUT_FS_TOOLS_DIR in
  let fsToolsBinDir := fsToolsRootDir +:+ LAYOUT_SERVICE_BIN_DIR in
  dirs ← role_dirs dc serviceRootDir;
  let '(serviceLogDir, serviceDataDir, raft, doc, vec) := dirs in
  let mdsCli := root +:+ LAYOUT_MDSV2_CLIENT_DIR in
  Ok {|
    ProjectRootDir := root;
    ServiceRootDir := serviceRootDir;
    ServiceBinDir := serviceRootDir +:+ LAYOUT_SERVICE_BIN_DIR;
    ServiceConfDir := serviceRootDir +:+ LAYOUT_SERVICE_CONF_DIR;
    ServiceLogDir := serviceLogDir;
    ServiceDataDir := serviceDataDir;
    ServiceConfPath := serviceConfDir +:+ "/" +:+ GetRole dc +:+ ".conf";
    ServiceConfSrcPath := confSrcDir +:+ "/" +:+ GetRole dc +:+ ".conf";
    ServiceConfFiles := serviceConfFiles;
    FSToolsBinDir := fsToolsRootDir +:+ LAYOUT_SERVICE_BIN_DIR;
    FSToolsConfDir := fsToolsRootDir +:+ LAYOUT_SERVICE_CONF_DIR;
    FSToolsConfSrcPath := confSrcDir +:+ "/dingo.yaml";
    FSToolsConfUserDir := LAYOUT_DINGO_CLI_CONFIG_USER_DIR;
    FSToolsConfSystemPath := LAYOUT_DINGO_CLI_CONFIG_SYSTEM_PATH;
    FSToolsBinaryPath := fsToolsBinDir +:+ "/" +:+ BINARY_DINGOFS_TOOLS;
    FSMdsRootDir := mdsCli;
    FSMdsCliBinDir := mdsCli +:+ LAYOUT_SERVICE_BIN_DIR;
    FSMdsCliConfDir := mdsCli +:+ LAYOUT_SERVICE_CONF_DIR;
    FSMdsCliConfSrcPath := mdsCli +:+ LAYOUT_SERVICE_CONF_DIR +:+ "/coor_list";
    FSMdsCliBinaryPath := mdsCli +:+ LAYOUT_SERVICE_BIN_DIR +:+ "/" +:+ BINARY_FS_MDS_CLIENT;
    CoordinatorConfSrcPath := "";
    StoreConfSrcPath := "";
    DingoStoreBinDir := LAYOUT_DINGOSTORE_BIN_DIR;
    DingoStoreRaftDir := raft;
    DingoStoreScriptDir := LAYOUT_DINGOSTORE_ROOT_DIR +:+ "/scripts";
    DingoStoreDocumentDir := doc;
    DingoStoreVectorDir := vec;
    DingoExecutorBinDir := serviceRootDir +:+ "/bin";
    CoreSystemDir := LAYOUT_CORE_SYSTEM_DIR;
  |}.

Definition set_kind_role (k r : string) : DeployConfig := {|
  kind := k; id := ""; parentId := ""; role := r; host := ""; hostname := ""; name := "";
  instances := 0; hostSequence := 0; instancesSequence := 0; config := ∅;
  serviceConfig := ∅; variables := None; ctx := None |}.

Definition GetProjectLayout (kind role : string) : res error Layout :=
  dc_GetProjectLayout (set_kind_role kind role).

Definition DefaultDingoFSDeployConfig : DeployConfig := set_kind_role KIND_DINGOFS "".
Definition GetDingoFSProjectLayout : res error Layout :=
  dc_GetProjectLayout DefaultDingoFSDeployConfig.
