(* ===== verification/Topology.v ===== *)
(** Topology parsing (src/internal/configure/topology: topology.go, dc.go,
    variables.go).

    [ParseTopology] turns the decoded topology file into the list of deploy
    configurations.  The YAML reader (viper and mapstructure) is the parameter
    [parse], [uuid.NewString] the parameter [uuid] (by position of the service),
    and [stack] the number of nested [resolve] calls the goroutine stack holds:
    Go aborts the process beyond it.  The shared context is threaded; a [config]
    map of the topology is written back after each merge, because the [mds] and
    [mds-client] roles read the same maps. *)

From S2P Require Import Prelude Errno GoLib Utils Vars DeployConfig.

(** Wrapping an error in an error code: [ERR.E(err)]. *)
Definition wrap_err {A} (c : ErrorCode) (r : res error A) : res error A :=
  match r with Err _ => Err (ECode c) | _ => r end.

(** * Field assignments *)

Definition set_variables (dc : DeployConfig) (v : option Variables) : DeployConfig :=
  mkDeployConfig (kind dc) (id dc) (parentId dc) (role dc) (host dc) (hostname dc) (name dc)
    (instances dc) (hostSequence dc) (instancesSequence dc) (config dc) (serviceConfig dc)
    v (ctx dc).
Definition set_config (dc : DeployConfig) (c : gmap string val) : DeployConfig :=
  mkDeployConfig (kind dc) (id dc) (parentId dc) (role dc) (host dc) (hostname dc) (name dc)
    (instances dc) (hostSequence dc) (instancesSequence dc) c (serviceConfig dc)
    (variables dc) (ctx dc).
Definition set_serviceConfig (dc : DeployConfig) (s : gmap string string) : DeployConfig :=
  mkDeployConfig (kind dc) (id dc) (parentId dc) (role dc) (host dc) (hostname dc) (name dc)
    (instances dc) (hostSequence dc) (instancesSequence dc) (config dc) s
    (variables dc) (ctx dc).
Definition set_host (dc : DeployConfig) (h hn : string) : DeployConfig :=
  mkDeployConfig (kind dc) (id dc) (parentId dc) (role dc) h hn (name dc)
    (instances dc) (hostSequence dc) (instancesSequence dc) (config dc) (serviceConfig dc)
    (variables dc) (ctx dc).
Definition set_names (dc : DeployConfig) (n i p : string) : DeployConfig :=
  mkDeployConfig (kind dc) i p (role dc) (host dc) (hostname dc) n
    (instances dc) (hostSequence dc) (instancesSequence dc) (config dc) (serviceConfig dc)
    (variables dc) (ctx dc).
Definition set_ctx (dc : DeployConfig) (c : option Context) : DeployConfig :=
  mkDeployConfig (kind dc) (id dc) (parentId dc) (role dc) (host dc) (hostname dc) (name dc)
    (instances dc) (hostSequence dc) (instancesSequence dc) (config dc) (serviceConfig dc)
    (variables dc) c.

(** * Building one deploy config (dc.go) *)

Definition SKIP_ALL_ROLES : list string :=
  [ROLE_COORDINATOR; ROLE_STORE; ROLE_FS_MDS; ROLE_ETCD; ROLE_METASERVER; ROLE_DINGODB_EXECUTOR].

Definition formatId (role host name : string) (instancesSequence : Z) : string :=
  role +:+ "_" +:+ host +:+ "_" +:+ name +:+ "_" +:+ Itoa instancesSequence.

Definition formatName (name : string) (hostSequence : Z) : string :=
  if decide (name = "") then Itoa hostSequence else name.

Section build.
Context `{MapOrder} (stack : nat).

(** [Build] with the goroutine stack as fuel. *)
Definition vars_Build (vars : Variables) : res error Variables :=
  match Build stack vars with
  | Some (vars', Ok _) => Ok vars'
  | Some (_, Err e) => Err e
  | Some (_, Panic) => Panic
  | None => Panic (* stack overflow *)
  end.

Definition newVariables_step (vars : Variables) (kv : string * val) : res error Variables :=
  let '(k, v) := kv in
  match All2Str v with
  | None => Err (ECode ERR_UNSUPPORT_VARIABLE_VALUE_TYPE)
  | Some value =>
      if decide (value = "") then Err (ECode ERR_INVALID_VARIABLE_VALUE)
      else Ok (Register vars (mkVariable k "" value false)).1
  end.

Definition newVariables (m : gmap string val) : res error Variables :=
  fold_res newVariables_step (range m) NewVariables.

(** The loop that turns every value into a string. *)
Definition stringify_step (c : gmap string val) (kv : string * val)
    : res error (gmap string val) :=
  let '(k, v) := kv in
  match All2Str v with
  | Some strv => Ok (<[k := VString strv]> c)
  | None => Err (ECode ERR_UNSUPPORT_CONFIGURE_VALUE_TYPE)
  end.

Definition NewDeployConfig (c : option Context) (kind role host name : string)
    (instances hostSequence instancesSequence : Z) (config : gmap string val)
    : res error DeployConfig :=
  let v := map_get config (i_key CONFIG_VARIABLE) in
  if negb (IsStringAnyMap v) && negb (is_nil v) then
    Err (ECode ERR_INVALID_VARIABLE_SECTION)
  else
    m ← (if is_nil v then Ok ∅ else assert_map v);
    vars ← newVariables m;
    let config := delete (i_key CONFIG_VARIABLE) config in
    config ← fold_res stringify_step (range config) config;
    let name := formatName name hostSequence in
    Ok {| DeployConfig.kind := kind;
          id := formatId role host name instancesSequence;
          parentId := formatId role host name 0;
          DeployConfig.role := role;
          DeployConfig.host := host;
          hostname := "";
          DeployConfig.name := name;
          DeployConfig.instances := instances;
          DeployConfig.hostSequence := hostSequence;
          DeployConfig.instancesSequence := instancesSequence;
          DeployConfig.config := config;
          serviceConfig := ∅;
          variables := Some vars;
          ctx := c |}.

Definition render_step (vars : Variables) (c : gmap string val) (kv : string * val)
    : res error (gmap string val) :=
  let '(k, v) := kv in
  s ← assert_string v;
  realv ← wrap_err ERR_RENDERING_VARIABLE_FAILED (Rendering vars s);
  Ok (<[k := VString realv]> c).

Definition renderVariables (dc : DeployConfig) : res error DeployConfig :=
  vars ← vars_of dc;
  vars ← wrap_err ERR_RESOLVE_VARIABLE_FAILED (vars_Build vars);
  let dc := set_variables dc (Some vars) in
  n ← wrap_err ERR_RENDERING_VARIABLE_FAILED (Rendering vars (name dc));
  i ← wrap_err ERR_RENDERING_VARIABLE_FAILED (Rendering vars (id dc));
  p ← wrap_err ERR_RENDERING_VARIABLE_FAILED (Rendering vars (parentId dc));
  let dc := set_names dc n i p in
  c ← fold_res (render_step vars) (range (config dc)) (config dc);
  Ok (set_config dc c).

Definition service_step (s : gmap string string) (kv : string * val)
    : res error (gmap string string) :=
  let '(k, v) := kv in
  if match itemset_get itemset k with None => true | Some i => negb (i_exclude i) end
  then w ← assert_string v; Ok (<[k := w]> s)
  else Ok s.

Definition convert_item (dc : DeployConfig) (i : item) : res error DeployConfig :=
  if decide (i_require i = REQUIRE_MAP) then Ok dc else
  if decide (i_kind i ≠ KIND_DINGO ∧ i_kind i ≠ kind dc) then Ok dc else
  value ← get dc i;
  if is_nil value then Ok dc else
  match All2Str value with
  | None => Err (ECode ERR_UNSUPPORT_CONFIGURE_VALUE_TYPE)
  | Some v =>
      match i_require i with
      | REQUIRE_ANY => Ok dc
      | REQUIRE_INT =>
          match Str2Int v with
          | None => Err (ECode ERR_CONFIGURE_VALUE_REQUIRES_INTEGER)
          | Some intv => Ok (set_config dc (<[i_key i := VInt intv]> (config dc)))
          end
      | REQUIRE_STRING =>
          if decide (v = "") then Err (ECode ERR_CONFIGURE_VALUE_REQUIRES_NON_EMPTY_STRING)
          else Ok dc
      | REQUIRE_BOOL =>
          match Str2Bool v with
          | None => Err (ECode ERR_CONFIGURE_VALUE_REQUIRES_BOOL)
          | Some boolv => Ok (set_config dc (<[i_key i := VBool boolv]> (config dc)))
          end
      | REQUIRE_POSITIVE_INTEGER =>
          match Str2Int v with
          | None => Err (ECode ERR_CONFIGURE_VALUE_REQUIRES_INTEGER)
          | Some intv =>
              if (intv <=? 0)%Z then
                Err (ECode ERR_CONFIGURE_VALUE_REQUIRES_POSITIVE_INTEGER)
              else Ok (set_config dc (<[i_key i := VInt intv]> (config dc)))
          end
      | REQUIRE_MAP => (* the loop skips these items before the switch *)
          if IsStringAnyMap value then Ok dc
          else Err (ECode ERR_CONFIGURE_VALUE_REQUIRES_MAP)
      end
  end.

Definition convert (dc : DeployConfig) : res error DeployConfig :=
  s ← fold_res service_step (range (config dc)) (serviceConfig dc);
  fold_res convert_item (itemset_getAll itemset) (set_serviceConfig dc s).

Definition ResolveHost (dc : DeployConfig) : res error DeployConfig :=
  match ctx dc with
  | None => Ok (set_host dc (host dc) (host dc))
  | Some _ =>
      vars ← vars_of dc;
      vars ← wrap_err ERR_RESOLVE_VARIABLE_FAILED (vars_Build vars);
      let dc := set_variables dc (Some vars) in
      h ← wrap_err ERR_RENDERING_VARIABLE_FAILED (Rendering vars (GetHost dc));
      hn ← ctx_Lookup (ctx dc) h;
      if decide (hn = "") then Err (ECode ERR_HOST_NOT_FOUND)
      else Ok (set_host dc h hn)
  end.

Definition dc_Build (dc : DeployConfig) : res error DeployConfig :=
  dc ← renderVariables dc; convert dc.
End build.

Definition FetchSkipRoles (kind : string) (dcs : list DeployConfig) (roles : list string)
    : res error (list string) :=
  if decide (kind = KIND_DINGOFS) then
    match dcs with
    | [] => Panic (* index out of range *)
    | dc :: _ =>
        v ← ctx_Lookup (GetCtx dc) CTX_KEY_MDS_VERSION;
        if decide (v = CTX_VAL_MDS_V1) then Ok [ROLE_COORDINATOR; ROLE_STORE; ROLE_FS_MDS]
        else if Contains roles ROLE_COORDINATOR then Ok [ROLE_ETCD; ROLE_METASERVER; ROLE_FS_MDS]
        else Ok SKIP_ALL_ROLES
    end
  else Ok [].

(** * Service and cluster variables (variables.go) *)

Inductive select_port : Type :=
| SELECT_LISTEN_PORT | SELECT_LISTEN_CLIENT_PORT | SELECT_LISTEN_DUMMY_PORT
| SELECT_LISTEN_PROXY_PORT | SELECT_LISTEN_COOR_SERVER_PORT | SELECT_LISTEN_COOR_RAFT_PORT
| SELECT_SERVER_PORT.

Record Var : Type := mkVar {
  v_name : string; v_kind : list string; v_role : list string; v_lookup : bool }.

Definition serviceVars : list Var := [
  mkVar "prefix" [] [] false;
  mkVar "service_id" [] [] false;
  mkVar "service_role" [] [] false;
  mkVar "service_host" [] [] true;
  mkVar "service_host_sequence" [] [] false;
  mkVar "service_replica_sequence" [] [] false;
  mkVar "service_replica_sequence_with_offset" [] [] false;
  mkVar "sequence_offset" [] [] false;
  mkVar "service_replicas_sequence" [] [] false;
  mkVar "service_instances_sequence" [] [] false;
  mkVar "format_replica_sequence" [] [] false;
  mkVar "format_replicas_sequence" [] [] false;
  mkVar "format_instances_sequence" [] [] false;
  mkVar "service_addr" [] [] true;
  mkVar "service_port" [] [] false;
  mkVar "service_client_port" [] [ROLE_ETCD] false;
  mkVar "service_dummy_port" [] [ROLE_SNAPSHOTCLONE; ROLE_FS_MDS] false;
  mkVar "service_proxy_port" [] [ROLE_SNAPSHOTCLONE] false;
  mkVar "service_external_addr" [] [ROLE_CHUNKSERVER; ROLE_METASERVER] true;
  mkVar "service_external_port" [] [ROLE_METASERVER] false;
  mkVar "log_dir" [] [] false;
  mkVar "data_dir" [] [] false;
  mkVar "raft_dir" [] [ROLE_COORDINATOR; ROLE_STORE] false;
  mkVar "random_uuid" [] [] false].

Definition clusterVars : list Var := [
  mkVar "cluster_mds_dummy_addr" [] [] false;
  mkVar "cluster_mds_dummy_port" [] [] false;
  mkVar "cluster_metaserver_addr" [KIND_DINGOFS] [] false;
  mkVar "cluster_coor_srv_peers" [KIND_DINGOSTORE; KIND_DINGOFS; KIND_DINGODB] [] false;
  mkVar "cluster_coor_raft_peers" [KIND_DINGOSTORE; KIND_DINGOFS; KIND_DINGODB] [] false;
  mkVar "cluster_mds_addr" [KIND_DINGOFS] [] false;
  mkVar "coordinator_addr" [KIND_DINGOFS; KIND_DINGOSTORE; KIND_DINGODB] [] false;
  mkVar "diskann_server_start_port" [KIND_DINGODB] [] false].

Definition skip (dc : DeployConfig) (v : Var) : bool :=
  negb (bool_decide (v_kind v = [])) && negb (in_map (Slice2Map (v_kind v)) (GetKind dc))
  || negb (bool_decide (v_role v = [])) && negb (in_map (Slice2Map (v_role v)) (GetRole dc)).

(** The loops below skip the services of the other roles. *)
Definition with_role (r : string) (dcs : list DeployConfig) : list DeployConfig :=
  filter (λ dc, GetRole dc = r) dcs.

Definition joinEtcdPeer (dcs : list DeployConfig) : res error string :=
  peers ← fold_res (λ peers dc,
    peerHost ← GetListenIp dc;
    peerPort ← GetListenPort dc;
    Ok (peers ++ ["etcd" +:+ Itoa (GetHostSequence dc) +:+ Itoa (GetInstancesSequence dc)
                  +:+ "=http://" +:+ peerHost +:+ ":" +:+ Itoa peerPort]))
    (with_role ROLE_ETCD dcs) [];
  Ok (Join peers ",").

Definition selected_port (selectPort : select_port) (dc : DeployConfig) (listenPort : Z)
    : res error Z :=
  match selectPort with
  | SELECT_LISTEN_PORT => Ok listenPort
  | SELECT_LISTEN_CLIENT_PORT => GetListenClientPort dc
  | SELECT_LISTEN_DUMMY_PORT => GetListenDummyPort dc
  | SELECT_LISTEN_PROXY_PORT => GetListenProxyPort dc
  | SELECT_LISTEN_COOR_SERVER_PORT => GetDingoServerPort dc
  | SELECT_LISTEN_COOR_RAFT_PORT => GetDingoStoreRaftPort dc
  | SELECT_SERVER_PORT => GetDingoServerPort dc
  end.

Definition joinPeer (dcs : list DeployConfig) (selectRole : string) (selectPort : select_port)
    : res error string :=
  peers ← fold_res (λ peers dc,
    peerHost ← GetListenIp dc;
    listenPort ← GetListenPort dc;
    peerPort ← selected_port selectPort dc listenPort;
    Ok (peers ++ [peerHost +:+ ":" +:+ Itoa peerPort]))
    (with_role selectRole dcs) [];
  Ok (Join peers ",").

Definition joinDummyPort (dcs : list DeployConfig) (selectRole : string) : res error string :=
  ports ← fold_res (λ ports dc, p ← GetListenDummyPort dc; Ok (ports ++ [Itoa p]))
    (with_role selectRole dcs) [];
  Ok (Join ports ",").

Definition joinNginxUpstreamServer (dcs : list DeployConfig) : res error string :=
  servers ← fold_res (λ servers dc,
    peerHost ← GetListenIp dc;
    peerPort ← GetListenPort dc;
    Ok (servers ++ ["server " +:+ peerHost +:+ ":" +:+ Itoa peerPort +:+ ";"]))
    (with_role ROLE_SNAPSHOTCLONE dcs) [];
  Ok (Join servers " ").

Definition locateDiskannPort (dcs : list DeployConfig) : res error Z :=
  match with_role ROLE_DINGODB_DISKANN dcs with
  | [] => Ok 0%Z
  | dc :: _ => GetDingoServerPort dc
  end.

Section variables.
Context (uuid : nat → string).

Definition atoa_item (dc : DeployConfig) (i : item) : res error string :=
  v ← get dc i; Ok (Atoa v).

(** The cases of the [switch] on the name, in the code's order. *)
Definition getValue_cases (dcs : list DeployConfig) (idx : nat) (dc : DeployConfig)
    : list (string * (unit → res error string)) := [
  ("prefix", λ _, l ← dc_GetProjectLayout dc; Ok (ServiceRootDir l));
  ("service_id", λ _, Ok (GetId dc));
  ("service_role", λ _, Ok (GetRole dc));
  ("service_host", λ _, Ok (GetHostname dc));
  ("service_host_sequence", λ _, Ok (Itoa (GetHostSequence dc)));
  ("service_replica_sequence", λ _, Ok (Itoa (GetInstancesSequence dc)));
  ("service_replica_sequence_with_offset", λ _,
     o ← GetSeqOffset dc; Ok (Itoa (wrap64 (GetInstancesSequence dc + o))));
  ("service_replicas_sequence", λ _, Ok (Itoa (GetInstancesSequence dc)));
  ("service_replicas_sequence_with_offset", λ _,
     o ← GetSeqOffset dc; Ok (Itoa (wrap64 (GetInstancesSequence dc + o))));
  ("service_instances_sequence", λ _, Ok (Itoa (GetInstancesSequence dc)));
  ("format_replica_sequence", λ _, Ok (pad2 (GetInstancesSequence dc)));
  ("format_replicas_sequence", λ _, Ok (pad2 (GetInstancesSequence dc)));
  ("format_instances_sequence", λ _, Ok (pad2 (GetInstancesSequence dc)));
  ("service_addr", λ _, atoa_item dc CONFIG_LISTEN_IP);
  ("service_port", λ _, atoa_item dc CONFIG_LISTEN_PORT);
  ("service_client_port", λ _, atoa_item dc CONFIG_LISTEN_CLIENT_PORT);
  ("service_dummy_port", λ _, atoa_item dc CONFIG_LISTEN_DUMMY_PORT);
  ("service_proxy_port", λ _, atoa_item dc CONFIG_LISTEN_PROXY_PORT);
  ("service_external_addr", λ _, atoa_item dc CONFIG_LISTEN_EXTERNAL_IP);
  ("service_external_port", λ _,
     e ← atoa_item dc CONFIG_ENABLE_EXTERNAL_SERVER;
     if decide (e = "true") then atoa_item dc CONFIG_LISTEN_EXTERNAL_PORT
     else atoa_item dc CONFIG_LISTEN_PORT);
  ("log_dir", λ _, l ← dc_GetProjectLayout dc; Ok (ServiceLogDir l));
  ("data_dir", λ _, l ← dc_GetProjectLayout dc; Ok (ServiceDataDir l));
  ("raft_dir", λ _, l ← dc_GetProjectLayout dc; Ok (DingoStoreRaftDir l));
  ("random_uuid", λ _, Ok (uuid idx));
  ("cluster_mds_addr", λ _, joinPeer dcs ROLE_FS_MDS SELECT_SERVER_PORT);
  ("cluster_mds_dummy_addr", λ _, joinPeer dcs ROLE_FS_MDS SELECT_LISTEN_DUMMY_PORT);
  ("cluster_mds_dummy_port", λ _, joinDummyPort dcs ROLE_FS_MDS);
  ("cluster_chunkserver_addr", λ _, joinPeer dcs ROLE_CHUNKSERVER SELECT_LISTEN_PORT);
  ("cluster_snapshotclone_addr", λ _, joinPeer dcs ROLE_SNAPSHOTCLONE SELECT_LISTEN_PORT);
  ("cluster_snapshotclone_proxy_addr", λ _,
     joinPeer dcs ROLE_SNAPSHOTCLONE SELECT_LISTEN_PROXY_PORT);
  ("cluster_snapshotclone_dummy_port", λ _, joinDummyPort dcs ROLE_SNAPSHOTCLONE);
  ("cluster_snapshotclone_nginx_upstream", λ _, joinNginxUpstreamServer dcs);
  ("cluster_metaserver_addr", λ _, joinPeer dcs ROLE_METASERVER SELECT_LISTEN_PORT);
  ("cluster_coor_srv_peers", λ _, joinPeer dcs ROLE_COORDINATOR SELECT_LISTEN_COOR_SERVER_PORT);
  ("coordinator_addr", λ _, joinPeer dcs ROLE_COORDINATOR SELECT_LISTEN_COOR_SERVER_PORT);
  ("cluster_coor_raft_peers", λ _, joinPeer dcs ROLE_COORDINATOR SELECT_LISTEN_COOR_RAFT_PORT);
  ("diskann_server_start_port", λ _, p ← locateDiskannPort dcs; Ok (Itoa p))].

Definition getValue (n : string) (dcs : list DeployConfig) (idx : nat) : res error string :=
  match dcs !! idx with
  | None => Panic (* index out of range *)
  | Some dc =>
      match find_first (λ c, bool_decide (c.1 = n)) (getValue_cases dcs idx dc) with
      | Some (_, f) => f tt
      | None => Ok ""
      end
  end.

Definition addVariables_step (idx : nat) (dcs : list DeployConfig) (v : Var)
    : res error (list DeployConfig) :=
  match dcs !! idx with
  | None => Panic
  | Some dc =>
      if skip dc v then Ok dcs else
      vars ← vars_of dc;
      value ← getValue (v_name v) dcs idx;
      match Register vars (mkVariable (v_name v) "" value false) with
      | (vars', Ok _) => Ok (<[idx := set_variables dc (Some vars')]> dcs)
      | (_, Err _) => Err (ECode ERR_REGISTER_VARIABLE_FAILED)
      | (_, Panic) => Panic
      end
  end.

Definition addVariables (dcs : list DeployConfig) (idx : nat) (vars : list Var)
    : res error (list DeployConfig) :=
  fold_res (addVariables_step idx) vars dcs.

Definition AddServiceVariables dcs idx := addVariables dcs idx serviceVars.
Definition AddClusterVariables dcs idx := addVariables dcs idx clusterVars.
End variables.

(** * The topology file (topology.go) *)

(** A nil map is [None]. *)
Record Deploy : Type := mkDeploy {
  d_Host : string;
  d_Name : string;
  d_Replica : Z;
  d_Replicas : Z;
  d_Instances : Z;
  d_Config : option (gmap string val);
}.

(** A nil slice of deploys is [None]. *)
Record Service : Type := mkService {
  s_Config : option (gmap string val);
  s_Deploy : option (list Deploy);
}.

Definition zero_Service : Service := {| s_Config := None; s_Deploy := None |}.

Record Topology_ : Type := mkTopology {
  Kind : string;
  Global : option (gmap string val);
  EtcdServices : Service;
  MdsServices : Service;
  MetaserverServices : Service;
  ChunkserverServices : Service;
  SnapshotcloneServices : Service;
  MdsV2Services : Service;
  CoordinatorServices : Service;
  StoreServices : Service;
  DocumentServices : Service;
  IndexServices : Service;
  DiskannServices : Service;
  ExecutorServices : Service;
  WebServices : Service;
  ProxyServices : Service;
}.

Definition DINGOFS_ROLES : list string :=
  [ROLE_ETCD; ROLE_METASERVER; ROLE_COORDINATOR; ROLE_STORE; ROLE_FS_MDS; ROLE_DINGODB_EXECUTOR].
Definition DINGOFS_MDSV2_ONLY_ROLES : list string := [ROLE_FS_MDS; ROLE_FS_MDS_CLI].
Definition DINGOFS_MDSV2_FOLLOW_ROLES : list string :=
  [ROLE_FS_MDS; ROLE_COORDINATOR; ROLE_STORE; ROLE_FS_MDS_CLI].
Definition DINGOSTORE_ROLES : list string := [ROLE_COORDINATOR; ROLE_STORE; ROLE_DINGODB_EXECUTOR].
Definition DINGODB_ROLES : list string :=
  [ROLE_COORDINATOR; ROLE_STORE; ROLE_DINGODB_DOCUMENT; ROLE_DINGODB_INDEX;
   ROLE_DINGODB_DISKANN; ROLE_DINGODB_EXECUTOR; ROLE_DINGODB_PROXY; ROLE_DINGODB_WEB].

Definition newIfNil (config : option (gmap string val)) : gmap string val := default ∅ config.

Section merge.
Context `{MapOrder}.

(** One entry of the parent; [rec] merges the nested [variable] maps and is absent
    when [deep] has reached 2. *)
Definition merge_step (rec : option (gmap string val → gmap string val → res error (gmap string val)))
    (child : gmap string val) (kv : string * val) : res error (gmap string val) :=
  let '(k, v) := kv in
  if is_nil (map_get child k) then Ok (<[k := v]> child) else
  match rec with
  | Some rec =>
      if decide (k = i_key CONFIG_VARIABLE) then
        if negb (IsString v) && negb (IsInt v) then
          subparent ← assert_map v;
          subchild ← assert_map (map_get child k);
          sub ← rec subparent subchild;
          Ok (<[k := VMap sub]> child)
        else Ok child
      else Ok child
  | None => Ok child
  end.

(** [merge parent child 2] and [merge parent child 1]: the child after the loop. *)
Definition merge2 (parent child : gmap string val) : res error (gmap string val) :=
  fold_res (merge_step None) (range parent) child.
Definition merge (parent child : gmap string val) : res error (gmap string val) :=
  fold_res (merge_step (Some merge2)) (range parent) child.
End merge.

(** The roles of a topology and the version entry put in the context. *)
Definition topology_roles (c : option Context) (t : Topology_)
    : res error (option Context * list string) :=
  if decide (Kind t = KIND_DINGOFS) then
    match s_Deploy (CoordinatorServices t) with
    | Some _ =>
        match s_Deploy (ExecutorServices t) with
        | Some _ =>
            c ← ctx_Add c CTX_KEY_MDS_VERSION CTX_VAL_MDS_V2;
            Ok (c, DINGOFS_MDSV2_FOLLOW_ROLES ++ [ROLE_DINGODB_EXECUTOR])
        | None => Ok (c, DINGOFS_MDSV2_FOLLOW_ROLES)
        end
    | None =>
        match s_Deploy (EtcdServices t) with
        | None =>
            c ← ctx_Add c CTX_KEY_MDS_VERSION CTX_VAL_MDS_V2;
            Ok (c, DINGOFS_MDSV2_ONLY_ROLES)
        | Some _ =>
            c ← ctx_Add c CTX_KEY_MDS_VERSION CTX_VAL_MDS_V1;
            Ok (c, DINGOFS_ROLES)
        end
    end
  else if decide (Kind t = KIND_DINGOSTORE) then Ok (c, DINGOSTORE_ROLES)
  else if decide (Kind t = KIND_DINGODB) then Ok (c, DINGODB_ROLES)
  else Err (ECode ERR_UNSUPPORT_CLUSTER_KIND).

(** The services of a role.  The temporary [mds-client] role takes the first mds
    deploy. *)
Definition role_services (t : Topology_) (r : string) : res error Service :=
  if decide (r = ROLE_ETCD) then Ok (EtcdServices t)
  else if decide (r = ROLE_CHUNKSERVER) then Ok (ChunkserverServices t)
  else if decide (r = ROLE_SNAPSHOTCLONE) then Ok (SnapshotcloneServices t)
  else if decide (r = ROLE_METASERVER) then Ok (MetaserverServices t)
  else if decide (r = ROLE_FS_MDS) then Ok (MdsServices t)
  else if decide (r = ROLE_COORDINATOR) then Ok (CoordinatorServices t)
  else if decide (r = ROLE_STORE) then Ok (StoreServices t)
  else if decide (r = ROLE_DINGODB_DOCUMENT) then Ok (DocumentServices t)
  else if decide (r = ROLE_DINGODB_INDEX) then Ok (IndexServices t)
  else if decide (r = ROLE_DINGODB_DISKANN) then Ok (DiskannServices t)
  else if decide (r = ROLE_DINGODB_EXECUTOR) then Ok (ExecutorServices t)
  else if decide (r = ROLE_FS_MDS_CLI) then
    match s_Deploy (MdsServices t) with
    | Some (d :: _) =>
        Ok {| s_Config := Some (newIfNil (s_Config (MdsServices t)));
              s_Deploy := Some [mkDeploy (d_Host d) (d_Name d) (d_Replica d) 0
                                  (d_Instances d) (d_Config d)] |}
    | _ => Panic (* index out of range *)
    end
  else if decide (r = ROLE_DINGODB_WEB) then Ok (WebServices t)
  else if decide (r = ROLE_DINGODB_PROXY) then Ok (ProxyServices t)
  else Ok zero_Service.

(** The number of instances of a deploy: [instances], else [replicas], else
    [replica], else one. *)
Definition deploy_instances (d : Deploy) : res error Z :=
  if (d_Replicas d <? 0)%Z then Err (ECode ERR_INSTANCES_REQUIRES_POSITIVE_INTEGER)
  else if (d_Replica d <? 0)%Z then Err (ECode ERR_INSTANCES_REQUIRES_POSITIVE_INTEGER)
  else if (d_Instances d <? 0)%Z then Err (ECode ERR_INSTANCES_REQUIRES_POSITIVE_INTEGER)
  else if (0 <? d_Instances d)%Z then Ok (d_Instances d)
  else if (0 <? d_Replicas d)%Z then Ok (d_Replicas d)
  else if (0 <? d_Replica d)%Z then Ok (d_Replica d)
  else Ok 1%Z.

(** The deploy configs of one host of a role, and the deploy with its merged
    config map (a nil map stays nil: the merge goes into a fresh one). *)
Definition host_dcs `{MapOrder} (c : option Context) (k r : string)
    (servicesConfig : gmap string val) (hostSequence : nat) (d : Deploy)
    : res error (Deploy * list DeployConfig) :=
  deployConfig ← merge servicesConfig (newIfNil (d_Config d));
  instances ← deploy_instances d;
  dcs ← fold_res (λ dcs i,
          dc ← NewDeployConfig c k r (d_Host d) (d_Name d) instances (Z.of_nat hostSequence)
                 (Z.of_nat i) (DeepCopy deployConfig);
          Ok (dcs ++ [dc])) (seq 0 (Z.to_nat instances)) [];
  Ok (mkDeploy (d_Host d) (d_Name d) (d_Replica d) (d_Replicas d) (d_Instances d)
        ((λ _, deployConfig) <$> d_Config d), dcs).

(** The loop over the deploys of a role. *)
Definition role_dcs `{MapOrder} (c : option Context) (k r : string)
    (servicesConfig : gmap string val) (ds : list Deploy)
    : res error (list Deploy * list DeployConfig) :=
  fold_res (λ '(ds, dcs) '(hostSequence, d),
    p ← host_dcs c k r servicesConfig hostSequence d;
    Ok (ds ++ [p.1], dcs ++ p.2)) (imap pair ds) ([], []).

Definition with_mds (t : Topology_) (m : Service) : Topology_ :=
  mkTopology (Kind t) (Global t) (EtcdServices t) m (MetaserverServices t)
    (ChunkserverServices t) (SnapshotcloneServices t) (MdsV2Services t)
    (CoordinatorServices t) (StoreServices t) (DocumentServices t) (IndexServices t)
    (DiskannServices t) (ExecutorServices t) (WebServices t) (ProxyServices t).

(** What the merges leave in the mds maps, which a later role reads again. *)
Definition mds_after (t : Topology_) (r : string) (cfg : gmap string val) (ds : list Deploy)
    : Topology_ :=
  if decide (r = ROLE_FS_MDS) then
    with_mds t {| s_Config := (λ _, cfg) <$> s_Config (MdsServices t);
                  s_Deploy := (λ _, ds) <$> s_Deploy (MdsServices t) |}
  else t.

(** One iteration of the loop over the roles. *)
Definition role_step `{MapOrder} (c : option Context) (globalConfig : gmap string val)
    (st : Topology_ * list DeployConfig) (r : string)
    : res error (Topology_ * list DeployConfig) :=
  let '(t, dcs) := st in
  services ← role_services t r;
  servicesConfig ← merge globalConfig (newIfNil (s_Config services));
  p ← role_dcs c (Kind t) r servicesConfig (default [] (s_Deploy services));
  Ok (mds_after t r servicesConfig p.1, dcs ++ p.2).

Section parse.
Context `{MapOrder} (stack : nat) (uuid : nat → string) (parse : string → option Topology_).

(** The loop that adds the service variables and builds each config. *)
Definition service_loop_step (exist : gmap string bool) (dcs : list DeployConfig) (idx : nat)
    : res error (list DeployConfig) :=
  match dcs !! idx with
  | None => Panic
  | Some dc =>
      dc ← ResolveHost stack dc;
      dcs ← AddServiceVariables uuid (<[idx := dc]> dcs) idx;
      match dcs !! idx with
      | None => Panic
      | Some dc =>
          dc ← dc_Build stack dc;
          (* [exist] is never written *)
          if in_map exist (GetId dc) then Err (ECode ERR_DUPLICATE_SERVICE_ID)
          else Ok (<[idx := dc]> dcs)
      end
  end.

(** The loop that adds the cluster variables and resolves them. *)
Definition cluster_loop_step (dcs : list DeployConfig) (idx : nat)
    : res error (list DeployConfig) :=
  dcs ← AddClusterVariables uuid dcs idx;
  match dcs !! idx with
  | None => Panic
  | Some dc =>
      vars ← vars_of dc;
      vars ← wrap_err ERR_RESOLVE_VARIABLE_FAILED (vars_Build stack vars);
      Ok (<[idx := set_variables dc (Some vars)]> dcs)
  end.

Definition ParseTopology (data : string) (c : option Context)
    : res error (option Context * list DeployConfig) :=
  if decide (data = "") then Err (ECode ERR_EMPTY_CLUSTER_TOPOLOGY) else
  match parse data with
  | None => Err (ECode ERR_PARSE_TOPOLOGY_FAILED)
  | Some t =>
      cr ← topology_roles c t;
      let '(c, roles) := cr in
      td ← fold_res (role_step c (newIfNil (Global t))) roles (t, []);
      let dcs := td.2 in
      dcs ← fold_res (service_loop_step ∅) (seq 0 (length dcs)) dcs;
      dcs ← fold_res cluster_loop_step (seq 0 (length dcs)) dcs;
      Ok (c, dcs)
  end.
End parse.
