(* ===== verification/TopologyMerge.v ===== *)
(** Inheritance of configuration maps: [merge] (src/internal/configure/topology,
    topology.go).  The result is given key by key; it depends neither on the
    iteration order nor on how often the merge is applied. *)

From S2P Require Import Prelude Errno GoLib Utils Vars DeployConfig Topology.

(** The value of a key after a merge that does not look into nested maps: the
    child's unless it has none (or [nil]). *)
Definition inherited (v c : option val) : option val :=
  match v with
  | Some v => if is_nil (default VNil c) then Some v else c
  | None => c
  end.

Definition overlay (p q : gmap string val) : gmap string val := base.merge inherited p q.

(** The entry takes the branch that merges two [variable] maps. *)
Definition nests (k : string) (v c : val) : bool :=
  bool_decide (k = i_key CONFIG_VARIABLE) && negb (is_nil c) && negb (IsString v)
  && negb (IsInt v).

(** What [merge] leaves at [k] given the parent's and the child's entry; [None]
    stands for a failed type assertion. *)
Definition merged_at (k : string) (v c : option val) : option (option val) :=
  match v with
  | None => Some c
  | Some v =>
      if nests k v (default VNil c) then
        match v, c with
        | VMap p, Some (VMap q) => Some (Some (VMap (overlay p q)))
        | _, _ => None
        end
      else Some (inherited (Some v) c)
  end.

Lemma lookup_overlay p q k : overlay p q !! k = inherited (p !! k) (q !! k).
Proof. unfold overlay. rewrite lookup_merge. by destruct (p !! k), (q !! k). Qed.

Lemma overlay_idemp p q : overlay p (overlay p q) = overlay p q.
Proof.
  apply map_eq. intros k. rewrite !lookup_overlay.
  destruct (p !! k) as [v|]; simpl; [|done].
  destruct (is_nil (default VNil (q !! k))) eqn:E; simpl; [|by rewrite E].
  by destruct (is_nil v).
Qed.

Section merge_facts.
Context `{MapOrder}.

Lemma merge2_overlay p q : merge2 p q = Ok (overlay p q).
Proof.
  unfold merge2.
  apply (range_keyed_Ok _ (λ k v o, Ok (inherited (Some v) o))).
  - intros c k v. simpl. unfold map_get. destruct (c !! k) as [w|] eqn:Hk; simpl.
    + destruct (is_nil w); simpl; [done|].
      by rewrite <-Hk, partial_alter_self.
    + done.
  - intros k. rewrite lookup_overlay. by destruct (p !! k).
Qed.

(** What one iteration of [merge] leaves at its key. *)
Definition merge_entry (k : string) (v : val) (c : option val) : res error (option val) :=
  match merged_at k (Some v) c with Some o => Ok o | None => Panic end.

Lemma merge_step_entry c k v :
  merge_step (Some merge2) c (k, v)
  = (o ← merge_entry k v (c !! k); Ok (partial_alter (λ _, o) k c)).
Proof.
  assert (∀ o, o = c !! k → partial_alter (λ _, o) k c = c) as Hself.
  { intros o ->. by apply partial_alter_self. }
  unfold merge_entry, merged_at, nests, merge_step, map_get.
  destruct (is_nil (default VNil (c !! k))) eqn:Hn; simpl.
  { rewrite andb_false_r, Hn. done. }
  rewrite andb_true_r. case_bool_decide as Hk; [rewrite decide_True by done|rewrite decide_False by done];
    simpl; rewrite ?Hn; [|by rewrite Hself].
  destruct (negb (IsString v)) eqn:H1, (negb (IsInt v)) eqn:H2; simpl;
    rewrite ?Hn, ?Hself; try done.
  destruct v as [| | | | | | | |p|]; try done. simpl.
  destruct (c !! k) as [w|]; [|done]. destruct w as [| | | | | | | |q|]; try done. simpl.
  by rewrite merge2_overlay.
Qed.

Lemma merge_Ok p q c' :
  merge p q = Ok c' ↔ ∀ k, merged_at k (p !! k) (q !! k) = Some (c' !! k).
Proof.
  unfold merge. rewrite (range_keyed_Ok _ merge_entry) by apply merge_step_entry.
  apply forall_proper. intros k. unfold merge_entry.
  destruct (p !! k) as [v|]; [|simpl; split; [by intros ->|by intros [= ->]]].
  destruct (merged_at k (Some v) (q !! k)) as [o|]; [|done].
  split; [by intros [= ->]|by intros [= ->]].
Qed.

Lemma merge_not_Ok p q r :
  merge p q = r → (∀ c', r ≠ Ok c') →
  r = Panic ∧ ∃ k, merged_at k (p !! k) (q !! k) = None.
Proof.
  intros Hm Hno.
  destruct (range_keyed_not_Ok _ merge_entry merge_step_entry p q r Hm Hno) as (k & v & Hk & Hr).
  unfold merge_entry in Hr. destruct (merged_at k (Some v) (q !! k)) eqn:E; [done|].
  split; [by destruct r|]. exists k. by rewrite Hk.
Qed.
End merge_facts.

(** C17: [merge parent child] gives, at every key, the child's value when it has one
    and the parent's otherwise; the [variable] maps of the two are merged entry by
    entry in the same way.  It never returns an error, and it panics exactly when
    the parent's or the child's [variable] section is present but not a map (and
    the parent's is neither a string nor an integer). *)
Theorem merge_spec (o : MapOrder) (parent child : gmap string val) :
  (∀ c', merge parent child = Ok c' ↔
     ∀ k, merged_at k (parent !! k) (child !! k) = Some (c' !! k)) ∧
  (merge parent child = Panic ↔ ∃ k, merged_at k (parent !! k) (child !! k) = None) ∧
  (∀ e, merge parent child ≠ Err e).
Proof.
  split_and!; [intros c'; apply merge_Ok| |].
  - split.
    + intros Hp. by apply (merge_not_Ok parent child Panic).
    + intros [k Hk]. destruct (merge parent child) as [c'|e|] eqn:Hm; [|..|done].
      * rewrite merge_Ok in Hm. specialize (Hm k). congruence.
      * by destruct (merge_not_Ok parent child (Err e) Hm).
  - intros e Hm. by destruct (merge_not_Ok parent child (Err e) Hm).
Qed.

(** The parent's [variable] section, if any, is a map (or a scalar that [merge]
    leaves alone). *)
Definition variable_section (p : gmap string val) : Prop :=
  match p !! i_key CONFIG_VARIABLE with
  | Some (VMap _ | VString _ | VInt _ | VNil) | None => True
  | _ => False
  end.

Lemma overlay_refl p : overlay p p = p.
Proof.
  apply map_eq. intros k. rewrite lookup_overlay.
  destruct (p !! k) as [v|]; simpl; [|done]. by destruct (is_nil v).
Qed.

Lemma merged_at_stable p k c o :
  variable_section p → merged_at k (p !! k) c = Some o → merged_at k (p !! k) o = Some o.
Proof.
  intros Hp. destruct (p !! k) as [v|] eqn:Hk; simpl; [|by intros [= ->]].
  destruct (nests k v (default VNil c)) eqn:Hn.
  - destruct v as [| | | | | | | |q|]; try done.
    destruct c as [[| | | | | | | |q'|]|]; try done. intros [= <-]. simpl.
    assert (nests k (VMap q) (VMap (overlay q q')) = true) as -> by exact Hn.
    by rewrite overlay_idemp.
  - intros [= <-]. destruct (is_nil (default VNil c)) eqn:Hc; simpl; [|by rewrite Hn, Hc].
    destruct (nests k v v) eqn:Hv; [|by destruct (is_nil v)].
    unfold nests in Hv. rewrite !andb_true_iff, bool_decide_eq_true in Hv.
    destruct Hv as [[[-> ?] ?] ?]. unfold variable_section in Hp. rewrite Hk in Hp.
    destruct v as [| | | | | | | |q|]; try done. by rewrite overlay_refl.
Qed.

(** Merging a second time changes nothing, whatever the two iteration orders:
    the [mds-client] role, which inherits into the maps that the [mds] role has
    already completed, gets the same configuration. *)
Theorem merge_again (o1 o2 : MapOrder) (parent child c' : gmap string val) :
  variable_section parent →
  merge (H := o1) parent child = Ok c' →
  merge (H := o2) parent child = Ok c' ∧ merge (H := o2) parent c' = Ok c'.
Proof.
  intros Hp. rewrite !merge_Ok. intros Hm. split; [done|].
  intros k. eapply merged_at_stable; eauto.
Qed.

(** A global and a service configuration, with a nested [variable] map each. *)
Definition sample_parent : gmap string val :=
  {["log_dir" := VString "/log"; "port" := VInt 1;
    "variable" := VMap {["a" := VString "1"; "b" := VString "2"]}]}.
Definition sample_child : gmap string val :=
  {["port" := VInt 2; "data_dir" := VNil; "variable" := VMap {["b" := VString "3"]}]}.

Definition sample_merged : gmap string val :=
  {["log_dir" := VString "/log"; "port" := VInt 2; "data_dir" := VNil;
    "variable" := VMap {["a" := VString "1"; "b" := VString "3"]}]}.

Lemma merge_again_witness :
  merge (H := canonical_order) sample_parent sample_child = Ok sample_merged ∧
  merge (H := reverse_order) sample_parent sample_merged = Ok sample_merged.
Proof.
  assert (merge (H := canonical_order) sample_parent sample_child = Ok sample_merged) as Hm
    by (apply (bool_decide_unpack _); vm_compute; exact I).
  split; [exact Hm|].
  apply (merge_again canonical_order reverse_order sample_parent sample_child sample_merged);
    [exact I|exact Hm].
Defined.
