(* ===== verification/TopologyTyped.v ===== *)
(** What [Build] makes of a deploy config (src/internal/configure/topology, dc.go):
    rendering substitutes variables in every value, conversion leaves at each key of
    a config item a value of the required type, and the getters of the items then
    never panic. *)

From S2P Require Import Prelude Errno GoLib Utils Vars DeployConfig Topology.

(** ** Rendering *)

(** Every value of a configuration map is a string. *)
Definition string_config (c : gmap string val) : Prop :=
  map_Forall (λ _ v, ∃ s, v = VString s) c.

(** A key of the configuration before and after rendering with [vars]. *)
Definition rendered_at (vars : Variables) (v v' : option val) : Prop :=
  match v with
  | None => v' = None
  | Some v => ∃ s w, v = VString s ∧ Rendering vars s = Ok w ∧ v' = Some (VString w)
  end.

Lemma wrap_err_Ok {A} c (r : res error A) a : wrap_err c r = Ok a ↔ r = Ok a.
Proof. by destruct r. Qed.

Section render.
Context `{MapOrder}.

Definition render_entry (vars : Variables) (k : string) (v : val) (_ : option val)
    : res error (option val) :=
  s ← assert_string v;
  realv ← wrap_err ERR_RENDERING_VARIABLE_FAILED (Rendering vars s);
  Ok (Some (VString realv)).

Lemma render_step_entry vars c k v :
  render_step vars c (k, v)
  = (o ← render_entry vars k v (c !! k); Ok (partial_alter (λ _, o) k c)).
Proof.
  unfold render_step, render_entry. destruct v; try done. simpl.
  by destruct (Rendering vars s).
Qed.

Lemma render_loop_Ok vars c c' :
  fold_res (render_step vars) (range c) c = Ok c' ↔ ∀ k, rendered_at vars (c !! k) (c' !! k).
Proof.
  rewrite (range_keyed_Ok _ (render_entry vars)) by apply render_step_entry.
  apply forall_proper. intros k. unfold rendered_at, render_entry.
  destruct (c !! k) as [v|]; [|done]. split.
  - intros (s & Hs & (w & Hw%wrap_err_Ok & Hc)%bind_Ok)%bind_Ok.
    destruct v; try done. injection Hs as ->. injection Hc as Hc. eauto.
  - intros (s & w & -> & Hw & ->). simpl. by rewrite Hw.
Qed.

Lemma renderVariables_Ok stack dc dc' :
  renderVariables stack dc = Ok dc' →
  ∃ vars vars', variables dc = Some vars ∧ vars_Build stack vars = Ok vars' ∧
    dc' = set_config (set_names (set_variables dc (Some vars')) (name dc') (id dc') (parentId dc'))
            (config dc') ∧
    Rendering vars' (name dc) = Ok (name dc') ∧ Rendering vars' (id dc) = Ok (id dc') ∧
    Rendering vars' (parentId dc) = Ok (parentId dc') ∧
    ∀ k, rendered_at vars' (config dc !! k) (config dc' !! k).
Proof.
  unfold renderVariables.
  intros (vars & Hv & (vars' & Hb%wrap_err_Ok & (n & Hn%wrap_err_Ok & (i & Hi%wrap_err_Ok &
    (p & Hp%wrap_err_Ok & (c & Hc & Hk)%bind_Ok)%bind_Ok)%bind_Ok)%bind_Ok)%bind_Ok)%bind_Ok.
  cbn in Hc. pose proof (proj1 (render_loop_Ok _ _ _) Hc) as Hr.
  injection Hk as <-. exists vars, vars'. simpl in *. split_and!; try done.
  unfold vars_of, GetVariables in Hv. by destruct (variables dc); simplify_eq.
Qed.
End render.

Lemma rendered_string vars v v' :
  rendered_at vars v v' → ∀ x, v' = Some x → ∃ s, x = VString s.
Proof. destruct v; simpl; [intros (s & w & -> & _ & ->) x [= <-]; eauto|by intros ->]. Qed.

(** Rendering.  When it succeeds, the variables have been resolved, the name and
    the two ids are rendered, each configuration value is the rendering of the
    text that was there, and no key is added or lost; everything else of the
    config is unchanged.  A value that is not a string makes it panic. *)
Theorem renderVariables_spec (o : MapOrder) (stack : nat) (dc : DeployConfig) :
  (∀ dc', renderVariables stack dc = Ok dc' →
     ∃ vars vars', variables dc = Some vars ∧ vars_Build stack vars = Ok vars' ∧
       variables dc' = Some vars' ∧ string_config (config dc') ∧
       Rendering vars' (id dc) = Ok (id dc') ∧ Rendering vars' (parentId dc) = Ok (parentId dc') ∧
       (∀ k, rendered_at vars' (config dc !! k) (config dc' !! k)) ∧
       role dc' = role dc ∧ host dc' = host dc ∧ serviceConfig dc' = serviceConfig dc) ∧
  (∀ vars vars', variables dc = Some vars → vars_Build stack vars = Ok vars' →
     (∀ s, s ∈ [name dc; id dc; parentId dc] → is_Ok (Rendering vars' s) = true) →
     (∀ k v, config dc !! k = Some v → ∃ s, v = VString s ∧ is_Ok (Rendering vars' s) = true) →
     ∃ dc', renderVariables stack dc = Ok dc').
Proof.
  split.
  - intros dc' (vars & vars' & ? & ? & Hdc & ? & ? & ? & Hc)%renderVariables_Ok.
    exists vars, vars'. rewrite Hdc. simpl. split_and!; try done.
    intros k v Hk. eapply rendered_string; [apply Hc|done].
  - intros vars vars' Hv Hb Hn Hc. unfold renderVariables, vars_of, GetVariables.
    rewrite Hv. simpl. rewrite Hb. simpl.
    assert (∀ s, s ∈ [name dc; id dc; parentId dc] → ∃ w, Rendering vars' s = Ok w) as Hn'.
    { intros s Hs. specialize (Hn s Hs). destruct (Rendering vars' s); [eauto|done..]. }
    destruct (Hn' (name dc)) as [? ->]; [set_solver|]. simpl.
    destruct (Hn' (id dc)) as [? ->]; [set_solver|]. simpl.
    destruct (Hn' (parentId dc)) as [? ->]; [set_solver|]. simpl.
    destruct (fold_res (render_step vars') (range (config dc)) (config dc)) as [c|e|] eqn:Hf;
      simpl; [eauto|exfalso..];
      destruct (range_keyed_not_Ok _ (render_entry vars') (render_step_entry vars') _ _ _ Hf)
        as (k & v & Hk & Hr); try done;
      destruct (Hc k v Hk) as (s & -> & Hs); unfold render_entry in Hr; simpl in Hr;
      by destruct (Rendering vars' s).
Qed.

(** ** Conversion *)

(** A value of the required type, as the getters expect it; the text of a map is left as
    it is, although the getter of a map expects a map. *)
Definition typed_value (r : require) (v : val) : Prop :=
  match r with
  | REQUIRE_INT => ∃ z, v = VInt z
  | REQUIRE_POSITIVE_INTEGER => ∃ z, v = VInt z ∧ (0 < z)%Z
  | REQUIRE_BOOL => ∃ b, v = VBool b
  | REQUIRE_STRING => ∃ s, v = VString s ∧ s ≠ ""
  | REQUIRE_MAP => ∃ s, v = VString s
  | REQUIRE_ANY => True
  end.

(** The item is meant for a config of kind [k]. *)
Definition applicable (k : string) (i : item) : Prop := i_kind i = KIND_DINGO ∨ i_kind i = k.

(** Every applicable item whose key is set has a value of its type. *)
Definition typed_config (k : string) (l : list item) (c : gmap string val) : Prop :=
  ∀ i v, i ∈ l → applicable k i → c !! i_key i = Some v → typed_value (i_require i) v.

(** Items that share a key require the same type. *)
Definition coherent (l : list item) : Prop :=
  ∀ i j, i ∈ l → j ∈ l → i_key i = i_key j → i_require i = i_require j.

(** During the loop a value is still a string or has been typed by an item already
    processed. *)
Definition half_typed (k : string) (pre : list item) (c : gmap string val) : Prop :=
  typed_config k pre c ∧
  ∀ key v, c !! key = Some v →
    (∃ s, v = VString s) ∨ ∃ i, i ∈ pre ∧ i_key i = key ∧ typed_value (i_require i) v.

(** The outcome of one item: nothing, or the converted value at its key. *)
Lemma convert_item_Ok dc i dc' :
  convert_item dc i = Ok dc' →
  (dc' = dc ∧ (applicable (kind dc) i → i_require i ≠ REQUIRE_ANY →
     ∀ s, config dc !! i_key i = Some (VString s) → typed_value (i_require i) (VString s))) ∨
  (∃ v, dc' = set_config dc (<[i_key i := v]> (config dc)) ∧ typed_value (i_require i) v).
Proof.
  unfold convert_item.
  case_decide as Hm; [intros [= <-]; left; split; [done|rewrite Hm; simpl; eauto]|].
  case_decide as Hk; [intros [= <-]; left; split; [done|intros [?|?]; tauto]|].
  intros (v & Hv & H)%bind_Ok. unfold get in Hv. destruct (is_nil v) eqn:Hn.
  { injection H as <-. left. split; [done|]. intros _ _ s Hs. rewrite Hs in Hv. by simplify_eq. }
  destruct (All2Str v) as [s|] eqn:Hs; [|done].
  destruct (i_require i) eqn:Hr; try done.
  - injection H as <-. by left.
  - destruct (Str2Int s) eqn:Hz; simplify_eq. right. eexists. split; [done|]. simpl. eauto.
  - case_decide; simplify_eq. left. split; [done|]. intros _ _ s' Hc. exists s'. split; [done|].
    rewrite Hc in Hv. simplify_eq.
    assert (All2Str (VString s') = Some s') by reflexivity. congruence.
  - destruct (Str2Bool s) eqn:Hz; simplify_eq. right. eexists. split; [done|]. simpl. eauto.
  - destruct (Str2Int s) as [z|] eqn:Hz; [|done]. destruct (z <=? 0)%Z eqn:Hle; simplify_eq.
    right. eexists. split; [done|]. simpl. exists z. split; [done|]. lia.
Qed.

(** One step keeps the half-typed state and adds the item. *)
Lemma convert_item_typed k l pre i dc dc' :
  coherent l → pre ⊆ l → i ∈ l → kind dc = k → half_typed k pre (config dc) →
  convert_item dc i = Ok dc' →
  kind dc' = k ∧ half_typed k (pre ++ [i]) (config dc').
Proof.
  intros Hco Hpre Hi <- [Ht Hh] [(-> & Hs)|(v & -> & Hv)]%convert_item_Ok.
  - split; [done|]. split.
    + intros j w [Hj|Hj]%elem_of_app Ha Hw; [by eapply Ht|].
      apply list_elem_of_singleton in Hj as ->.
      destruct (Hh _ _ Hw) as [[s ->]|(j & Hj & Hkey & Hty)].
      * destruct (decide (i_require i = REQUIRE_ANY)) as [->|Hany]; [done|].
        by apply Hs.
      * rewrite (Hco i j) by auto. done.
    + intros key w Hw. destruct (Hh _ _ Hw) as [?|(j & ? & ? & ?)]; [by left|].
      right. exists j. split; [apply elem_of_app; by left|done].
  - split; [done|]. simpl. split.
    + intros j w Hj Ha. rewrite elem_of_app, list_elem_of_singleton in Hj.
      destruct (decide (i_key j = i_key i)) as [Heq|Hne].
      * rewrite Heq, lookup_insert_eq. intros [= <-].
        rewrite (Hco j i); [done|destruct Hj as [?| ->]; auto|done|done].
      * rewrite lookup_insert_ne by done. destruct Hj as [Hj| ->]; [|done].
        by apply Ht.
    + intros key w. destruct (decide (i_key i = key)) as [<-|Hne].
      * rewrite lookup_insert_eq. intros [= <-]. right. exists i.
        rewrite elem_of_app, list_elem_of_singleton. auto.
      * rewrite lookup_insert_ne by done. intros Hw.
        destruct (Hh _ _ Hw) as [?|(j & ? & ? & ?)]; [by left|].
        right. exists j. split; [apply elem_of_app; by left|done].
Qed.

Definition coherentb (l : list item) : bool :=
  forallb (λ i, forallb (λ j, implb (bool_decide (i_key i = i_key j))
                                (bool_decide (i_require i = i_require j))) l) l.

Lemma coherentb_spec l : coherentb l = true → coherent l.
Proof.
  unfold coherentb. rewrite forallb_forall. intros H i j Hi Hj Hk.
  apply list_elem_of_In in Hi, Hj. specialize (H i Hi). rewrite forallb_forall in H.
  specialize (H j Hj). rewrite (bool_decide_true _ Hk) in H. by apply bool_decide_eq_true in H.
Qed.

Lemma itemset_coherent : coherent (items itemset).
Proof. apply coherentb_spec. vm_compute. reflexivity. Qed.

Lemma convert_loop_typed l dc dc' :
  coherent l → string_config (config dc) → fold_res convert_item l dc = Ok dc' →
  kind dc' = kind dc ∧ typed_config (kind dc) l (config dc').
Proof.
  intros Hco Hstr.
  assert (∀ post pre d, pre ++ post = l → kind d = kind dc → half_typed (kind dc) pre (config d) →
            fold_res convert_item post d = Ok dc' →
            kind dc' = kind dc ∧ half_typed (kind dc) l (config dc')) as Hgen.
  { induction post as [|i post IH]; intros pre d Hl Hk Hh; simpl.
    - intros [= <-]. rewrite app_nil_r in Hl. by subst.
    - intros (d1 & H1 & H2)%bind_Ok.
      destruct (convert_item_typed (kind dc) l pre i d d1) as [Hk1 Hh1]; try done.
      + intros j Hj. subst. apply elem_of_app. by left.
      + subst. apply elem_of_app. right. by left.
      + apply (IH (pre ++ [i]) d1); try done. by rewrite <-(assoc_L (++)). }
  intros Hf. destruct (Hgen l [] dc) as [? [??]]; try done.
  split; [intros i v Hi; by apply elem_of_nil in Hi|]. intros key v Hv. left. by eapply Hstr.
Qed.

(** The conversion loop touches nothing but the configuration. *)
Lemma convert_item_frame dc i dc' :
  convert_item dc i = Ok dc' → dc' = set_config dc (config dc').
Proof. intros [(-> & _)|(v & -> & _)]%convert_item_Ok; by destruct dc. Qed.

Lemma convert_loop_frame l dc dc' :
  fold_res convert_item l dc = Ok dc' → dc' = set_config dc (config dc').
Proof.
  revert dc; induction l as [|i l IH]; intros dc; simpl; [intros [= <-]; by destruct dc|].
  intros (d & ->%convert_item_frame & ->%IH)%bind_Ok. done.
Qed.

Lemma convert_typed `{MapOrder} dc dc' :
  string_config (config dc) → convert dc = Ok dc' →
  typed_config (kind dc') (items itemset) (config dc') ∧
  dc' = set_config (set_serviceConfig dc (serviceConfig dc')) (config dc').
Proof.
  intros Hstr (s & Hs & Hf)%bind_Ok.
  destruct (convert_loop_typed (items itemset) (set_serviceConfig dc s) dc') as [-> Ht];
    [apply itemset_coherent|done..|].
  split; [done|]. rewrite (convert_loop_frame _ _ _ Hf) at 1.
  pose proof (convert_loop_frame _ _ _ Hf) as Hfr. rewrite Hfr. by destruct dc.
Qed.

(** ** Defaults *)

(** A default value never needs a failing assertion of its item's getter. *)
Definition default_ok (dc : DeployConfig) (i : item) : Prop :=
  ∃ v, default_of dc i = Ok v ∧
    match i_require i with
    | REQUIRE_STRING => v = VNil ∨ ∃ s, v = VString s
    | REQUIRE_BOOL => v = VNil ∨ ∃ b, v = VBool b
    | REQUIRE_MAP => v = VNil ∨ ∃ m, v = VMap m
    | _ => True
    end.

Lemma Get_not_Panic vars n : Get vars n ≠ Panic.
Proof. unfold Get. by repeat case_match. Qed.

Lemma ctx_Lookup_Some m k : ctx_Lookup (Some m) k = Ok (default "" (m !! k)).
Proof. done. Qed.

Lemma CONFIG_PREFIX_default_string dc m :
  ctx dc = Some m → ∃ s, CONFIG_PREFIX_default dc = Ok (VString s).
Proof.
  intros Hm. unfold CONFIG_PREFIX_default, GetCtx. rewrite Hm, ctx_Lookup_Some. simpl.
  repeat case_decide; eauto.
Qed.

Lemma by_role_val r cases : ∃ v, by_role r cases = v ∧ (v = VNil ∨ ∃ p, v = VInt p).
Proof.
  unfold by_role. destruct (find_first _ cases) as [[? p]|]; eexists; eauto.
Qed.

Lemma getInt_Ok dc i : (∃ v, default_of dc i = Ok v) → ∃ z, getInt dc i = Ok z.
Proof.
  intros [d Hd]. unfold getInt, get. destruct (config dc !! i_key i) as [v|]; [|rewrite Hd];
    simpl; [destruct v|destruct d]; eauto.
Qed.

Lemma config_items_default dc vars m :
  variables dc = Some vars → ctx dc = Some m → Forall (default_ok dc) config_items.
Proof.
  intros Hv Hm. unfold config_items.
  repeat (apply List.Forall_cons; [|]); [..|apply List.Forall_nil]; unfold default_ok.
  all: try (eexists; split; [reflexivity|]; cbn; by eauto).
  - destruct (CONFIG_PREFIX_default_string dc m Hm) as [s Hs]. exists (VString s).
    split; [exact Hs|]. right. eauto.
  - cbn. unfold CONFIG_LISTEN_EXTERNAL_PORT_default. case_decide; [eauto|].
    destruct (getInt_Ok dc CONFIG_LISTEN_PORT) as [z Hz].
    { destruct (default_of dc CONFIG_LISTEN_PORT) eqn:E; [eauto|by cbn in E..]. }
    rewrite Hz. simpl. eauto.
  - cbn. unfold CONFIG_COPYSETS_default. case_decide; eauto.
  - cbn. unfold CONFIG_INSTANCE_START_ID_default. case_match; eauto.
  - cbn. unfold CONFIG_DINGOSTORE_COORDINATOR_ADDR_default, vars_of, GetVariables.
    rewrite Hv. simpl. pose proof (Get_not_Panic vars "coordinator_addr").
    destruct (Get vars "coordinator_addr"); [..|done]; eauto.
  - cbn. unfold CONFIG_DINGO_MDS_CLUSTER_ID_default, vars_of, GetVariables.
    rewrite Hv. simpl. pose proof (Get_not_Panic vars "cluster_id").
    destruct (Get vars "cluster_id"); [..|done]; [case_decide|]; eauto.
Qed.

Lemma elem_of_itemset i : i ∈ items itemset ↔ i ∈ config_items.
Proof. by rewrite items_itemset. Qed.

(** The getter of an item on a typed configuration. *)
Definition getter_total (dc : DeployConfig) (i : item) : Prop :=
  match i_require i with
  | REQUIRE_STRING => ∃ s, getString dc i = Ok s
  | REQUIRE_BOOL => ∃ b, getBool dc i = Ok b
  | REQUIRE_INT => ∃ z, getInt dc i = Ok z
  | REQUIRE_POSITIVE_INTEGER =>
      ∃ z, getInt dc i = Ok z ∧ (is_Some (config dc !! i_key i) → (0 < z)%Z)
  | REQUIRE_MAP =>
      match config dc !! i_key i with
      | None => ∃ m, getMap dc i = Ok m
      | Some _ => getMap dc i = Panic
      end
  | REQUIRE_ANY => True
  end.

Lemma typed_getter dc vars m i :
  variables dc = Some vars → ctx dc = Some m → i ∈ items itemset → applicable (kind dc) i →
  typed_config (kind dc) (items itemset) (config dc) → getter_total dc i.
Proof.
  intros Hv Hm Hi Ha Ht. pose proof (Ht i) as Hti.
  pose proof (config_items_default dc vars m Hv Hm) as Hd.
  rewrite Forall_forall in Hd. destruct (Hd i) as (d & Hdi & Hty); [by apply elem_of_itemset|].
  unfold getter_total, getString, getBool, getInt, getMap, get.
  destruct (config dc !! i_key i) as [v|] eqn:Hc.
  - specialize (Hti v Hi Ha eq_refl). destruct (i_require i); simpl in *; try done.
    + destruct Hti as [z ->]. eauto.
    + destruct Hti as (s & -> & _). simpl. eauto.
    + destruct Hti as [b ->]. simpl. eauto.
    + destruct Hti as (z & -> & ?). eauto.
    + by destruct Hti as [s ->].
  - rewrite Hdi. destruct (i_require i); simpl in *; try done.
    + destruct d; eauto.
    + destruct Hty as [->|[s ->]]; simpl; eauto.
    + destruct Hty as [->|[b ->]]; simpl; eauto.
    + destruct d; eexists; (split; [done|by intros [? [=]]]).
    + destruct Hty as [->|[m' ->]]; simpl; eauto.
Qed.

(** C37: after a successful [Build] of a config with a context every config item that is
    meant for the config (its kind is the config's, or [dingo]) and requires a number, a
    text or a boolean has, if it is set, a value of that type - a positive integer where
    one is required, a non-empty text - and its getter returns without panicking.  The
    one item that requires a map, [java_opts], is not converted: it is still a text if
    it is set, its getter then panics, and it returns if the item is not set. *)
Theorem Build_getters_total (o : MapOrder) (stack : nat) (dc dc' : DeployConfig)
    (m : Context) (i : item) :
  ctx dc = Some m → dc_Build stack dc = Ok dc' →
  i ∈ items itemset → applicable (kind dc) i →
  (∀ v, config dc' !! i_key i = Some v → typed_value (i_require i) v) ∧ getter_total dc' i.
Proof.
  intros Hm (d & (vars & vars' & Hv & Hb & Hd & _ & _ & _ & Hc)%renderVariables_Ok & Hcv)%bind_Ok.
  intros Hi Ha. destruct (convert_typed d dc') as [Ht Hfr]; [|done|].
  { intros k v Hk. eapply rendered_string; [apply Hc|done]. }
  assert (kind dc' = kind dc) as Hk by (rewrite Hfr, Hd; done).
  split.
  - intros v Hvk. eapply Ht; [done| |done]. by rewrite Hk.
  - eapply (typed_getter dc' vars' m); rewrite ?Hk; try done.
    + by rewrite Hfr, Hd.
    + by rewrite Hfr, Hd.
    + by rewrite <-Hk.
Qed.

(** A metaserver whose log directory refers to a variable. *)
Definition sample_dc : DeployConfig :=
  res_get zero_dc (
    dc ← NewDeployConfig (H := canonical_order) (Some {["h1" := "10.0.0.1"]})
           KIND_DINGOFS ROLE_METASERVER "h1" "" 2 0 1
           {["variable" := VMap {["base" := VString "/data"]};
             "log_dir" := VString "${base}/log";
             "listen.port" := VInt 6801; "report_usage" := VBool true]};
    ResolveHost (H := canonical_order) 10 dc).
Definition sample_built : DeployConfig :=
  res_get zero_dc (dc_Build (H := canonical_order) 10 sample_dc).

Lemma Build_getters_total_witness :
  getter_total sample_built CONFIG_REPORT_USAGE ∧
  GetReportUsage sample_built = Ok true ∧ GetListenPort sample_built = Ok 6801%Z ∧
  GetLogDir sample_built = Ok "/data/log" ∧ GetId sample_built = "metaserver_h1_0_1".
Proof.
  split; [|vm_compute; repeat split; reflexivity].
  apply (Build_getters_total canonical_order 10 sample_dc sample_built {["h1" := "10.0.0.1"]}).
  - reflexivity.
  - apply res_get_Ok. vm_compute. reflexivity.
  - apply (list_elem_of_lookup_2 _ 1). reflexivity.
  - by right.
Defined.

(** ** Items of another kind *)

Definition kind_coherentb (l : list item) : bool :=
  forallb (λ i, forallb (λ j, implb (bool_decide (i_key i = i_key j))
                                (bool_decide (i_kind i = i_kind j))) l) l.

Lemma itemset_kind_coherent i j :
  i ∈ items itemset → j ∈ items itemset → i_key i = i_key j → i_kind i = i_kind j.
Proof.
  assert (kind_coherentb (items itemset) = true) as H by (vm_compute; reflexivity).
  intros Hi%list_elem_of_In Hj%list_elem_of_In Hk.
  unfold kind_coherentb in H. rewrite forallb_forall in H. specialize (H i Hi).
  rewrite forallb_forall in H. specialize (H j Hj). rewrite (bool_decide_true _ Hk) in H.
  by apply bool_decide_eq_true in H.
Qed.

(** An item of another kind is left alone by the conversion loop. *)
Lemma convert_loop_other l dc dc' i :
  l ⊆ items itemset → i ∈ items itemset → i_kind i ≠ KIND_DINGO → i_kind i ≠ kind dc →
  fold_res convert_item l dc = Ok dc' → config dc' !! i_key i = config dc !! i_key i.
Proof.
  intros Hl Hi Hn1 Hn2. revert dc Hn2; induction l as [|j l IH]; intros dc Hn2; simpl.
  { by intros [= <-]. }
  intros (d & Hd & Hf)%bind_Ok.
  assert (kind d = kind dc) as Hk by (by rewrite (convert_item_frame _ _ _ Hd)).
  rewrite (IH ltac:(set_solver) d) by (done || by rewrite Hk).
  unfold convert_item in Hd. case_decide; [by simplify_eq|]. case_decide as Hj; [by simplify_eq|].
  assert (i_key j ≠ i_key i) as Hne.
  { intros Heq. apply Hj. rewrite (itemset_kind_coherent j i); [done|set_solver|done..]. }
  apply bind_Ok in Hd as (v & _ & Hd).
  repeat case_match; simplify_eq; simpl; rewrite ?lookup_insert_ne by done; done.
Qed.

(** A boolean item of one kind that is set in a topology of another kind is
    never converted: [Build] accepts it and its getter then panics on the type
    assertion. *)
Theorem getBool_other_kind_panics (o : MapOrder) (stack : nat) (dc dc' : DeployConfig)
    (i : item) :
  dc_Build stack dc = Ok dc' → i ∈ items itemset → i_kind i ≠ KIND_DINGO →
  i_kind i ≠ kind dc → is_Some (config dc !! i_key i) → getBool dc' i = Panic.
Proof.
  intros (d & (vars & vars' & Hv & Hb & Hd & _ & _ & _ & Hc)%renderVariables_Ok &
          (s & Hs & Hf)%bind_Ok)%bind_Ok Hi Hn1 Hn2 [v Hk].
  specialize (Hc (i_key i)). rewrite Hk in Hc. destruct Hc as (t & w & -> & _ & Hw).
  assert (config dc' !! i_key i = Some (VString w)) as Hw'.
  { rewrite <-Hw. change (config d) with (config (set_serviceConfig d s)).
    eapply convert_loop_other; try done. by rewrite Hd. }
  unfold getBool, get. by rewrite Hw'.
Qed.

(** A store of a [dingo-store] topology that asks for usage reports. *)
Definition other_kind_dc : DeployConfig :=
  res_get zero_dc (
    dc ← NewDeployConfig (H := canonical_order) (Some {["h1" := "10.0.0.1"]})
           KIND_DINGOSTORE ROLE_STORE "h1" "" 1 0 0 {["report_usage" := VBool true]};
    ResolveHost (H := canonical_order) 10 dc).

Lemma getBool_other_kind_panics_witness :
  GetReportUsage (res_get zero_dc (dc_Build (H := canonical_order) 10 other_kind_dc)) = Panic.
Proof.
  apply (getBool_other_kind_panics canonical_order 10 other_kind_dc).
  - apply res_get_Ok. vm_compute. reflexivity.
  - apply (list_elem_of_lookup_2 _ 1). reflexivity.
  - vm_compute. discriminate.
  - vm_compute. discriminate.
  - vm_compute. eauto.
Defined.
