(* ===== verification/TopologySamples.v ===== *)
(** Small topologies on which the theorems about the topology parser are evaluated
    (src/internal/configure/topology). *)

From S2P Require Import Prelude Errno GoLib Utils Vars DeployConfig Topology.

(** * Sample topologies *)

Definition sample_deploy (h : string) (n : Z) : Deploy :=
  {| d_Host := h; d_Name := ""; d_Replica := 0; d_Replicas := 0; d_Instances := n;
     d_Config := None |}.
Definition services (ds : list Deploy) : Service := {| s_Config := None; s_Deploy := Some ds |}.

Definition empty_topology (k : string) : Topology_ :=
  let z := zero_Service in mkTopology k None z z z z z z z z z z z z z z.

(** Stores on [h1] and on [h2], with the given numbers of instances. *)
Definition store_topology (h1 h2 : string) (name : string) (n1 n2 : Z) : Topology_ :=
  let z := zero_Service in
  mkTopology KIND_DINGOSTORE (Some {["log_dir" := VString "/log/${service_role}"]}) z z z z z z
    (services [sample_deploy "h1" 1])
    (services [mkDeploy h1 name 0 0 n1 None; mkDeploy h2 name 0 0 n2 None]) z z z z z z.

(** A dingofs topology with mds hosts only. *)
Definition mds_topology (n : Z) : Topology_ :=
  with_mds (empty_topology KIND_DINGOFS) (services [sample_deploy "h1" n; sample_deploy "h2" 1]).

Definition sample_ctx : option Context := Some {["h1" := "10.0.0.1"; "h2" := "10.0.0.2"]}.

(** The file ["topo"] decodes to [t]. *)
Definition reads (t : Topology_) (data : string) : option Topology_ :=
  if decide (data = "topo") then Some t else None.

Definition sample_uuid (n : nat) : string := "uuid-" +:+ Itoa (Z.of_nat n).

(** Parsing a sample. *)
Definition parse_sample (t : Topology_) : res error (option Context * list DeployConfig) :=
  ParseTopology (H := canonical_order) 20 sample_uuid (reads t) "topo" sample_ctx.
Definition sample_dcs (t : Topology_) : list DeployConfig :=
  (res_get (None, []) (parse_sample t)).2.

Example parse_ids :
  GetId <$> sample_dcs (store_topology "h1" "h2" "" 1 2)
  = ["coordinator_h1_0_0"; "store_h1_0_0"; "store_h2_1_0"; "store_h2_1_1"].
Proof. vm_compute. reflexivity. Qed.

Example parse_log_dir :
  GetLogDir <$> sample_dcs (store_topology "h1" "h2" "" 1 2)
  = [Ok "/log/coordinator"; Ok "/log/store"; Ok "/log/store"; Ok "/log/store"].
Proof. vm_compute. reflexivity. Qed.
