(* ===== verification/TopologyParse.v ===== *)
(** The list of deploy configs of a topology (src/internal/configure/topology:
    topology.go, dc.go, variables.go): what [ParseTopology] returns, and what it
    fails to reject. *)

From S2P Require Import Prelude Errno GoLib Utils Vars DeployConfig Topology TopologyTyped TopologySamples.

(** ** The variables of a config *)

(** The config has a set of variables, each registered under its name. *)
Definition has_vars (dc : DeployConfig) : Prop :=
  ∃ vars, variables dc = Some vars ∧ wf_vars (vmap vars).

(** ... and each of them has been resolved. *)
Definition resolved_vars (dc : DeployConfig) : Prop :=
  ∃ vars, variables dc = Some vars ∧ vr vars = true ∧
    map_Forall (λ k v, Name v = k ∧ Resolved v = true) (vmap vars).

Lemma Register_wf vars v : wf_vars (vmap vars) → wf_vars (vmap (Register vars v).1).
Proof.
  intros Hw. unfold Register. destruct (vmap vars !! Name v); [done|]. simpl.
  by apply map_Forall_insert_2.
Qed.

Section vars.
Context `{MapOrder}.

Lemma vars_Build_wf stack vars vars' :
  wf_vars (vmap vars) → vars_Build stack vars = Ok vars' →
  wf_vars (vmap vars') ∧ vr vars' = true ∧
  map_Forall (λ k v, Name v = k ∧ Resolved v = true) (vmap vars').
Proof.
  intros Hw Hb. unfold vars_Build in Hb.
  destruct (Build stack vars) as [[vs [[]|e|]]|] eqn:E; simplify_eq.
  pose proof (Build_solution _ _ _ Hw E) as Hs.
  assert (map_Forall (λ k v, Name v = k ∧ Resolved v = true) (vmap vars')) as Hf.
  { intros k v' Hk. specialize (Hs k). rewrite Hk in Hs.
    destruct (vmap vars !! k) as [v|] eqn:Hv; [|done].
    destruct Hs as (w & _ & ->). split; [by apply Hw in Hv|done]. }
  split_and!; [|unfold Build in E; by repeat case_match; simplify_eq|done].
  intros k v Hk. by destruct (Hf k v Hk).
Qed.

Lemma newVariables_wf m vars : newVariables m = Ok vars → wf_vars (vmap vars).
Proof.
  unfold newVariables. apply (fold_res_inv (λ vars, wf_vars (vmap vars))); [|done].
  intros vs [k v] vs' _ Hw. simpl. destruct (All2Str v); [|done].
  case_decide; [done|]. intros [= <-]. by apply Register_wf.
Qed.
End vars.

(** ** One config *)

(** The position of a config: kind, role, host sequence, instance sequence, number of
    instances of its deploy. *)
Definition shape (dc : DeployConfig) : string * string * Z * Z * Z :=
  (kind dc, role dc, hostSequence dc, instancesSequence dc, instances dc).

Section one.
Context `{MapOrder} (stack : nat).

Lemma stringify_string c c' :
  fold_res stringify_step (range c) c = Ok c' →
  ∀ k, match c !! k with
       | None => c' !! k = None
       | Some v => ∃ s, All2Str v = Some s ∧ c' !! k = Some (VString s)
       end.
Proof.
  rewrite (range_keyed_Ok _ (λ k v _, match All2Str v with
             | Some strv => Ok (Some (VString strv))
             | None => Err (ECode ERR_UNSUPPORT_CONFIGURE_VALUE_TYPE) end)).
  - intros Hk k. specialize (Hk k). destruct (c !! k) as [v|] eqn:Hc; [|done].
    destruct (All2Str v); [|done]. injection Hk as Hk. eauto.
  - intros c0 k v. simpl. by destruct (All2Str v).
Qed.

Lemma NewDeployConfig_Ok c k r h n inst hs sq cfg dc :
  NewDeployConfig c k r h n inst hs sq cfg = Ok dc →
  kind dc = k ∧ role dc = r ∧ host dc = h ∧ name dc = formatName n hs ∧ instances dc = inst ∧
  hostSequence dc = hs ∧ instancesSequence dc = sq ∧ ctx dc = c ∧ serviceConfig dc = ∅ ∧
  id dc = formatId r h (formatName n hs) sq ∧ parentId dc = formatId r h (formatName n hs) 0 ∧
  has_vars dc ∧ string_config (config dc) ∧ config dc !! i_key CONFIG_VARIABLE = None ∧
  ∀ key v, key ≠ i_key CONFIG_VARIABLE → cfg !! key = Some v →
    config dc !! key = VString <$> All2Str v.
Proof.
  unfold NewDeployConfig. case_match; [done|].
  intros (m & _ & (vars & Hv%newVariables_wf & (c' & Hc & Hdc)%bind_Ok)%bind_Ok)%bind_Ok.
  pose proof (stringify_string _ _ Hc) as Hs. injection Hdc as <-. simpl.
  split_and!; try done.
  - by exists vars.
  - intros key v Hk. specialize (Hs key).
    destruct (delete _ cfg !! key); [destruct Hs as (s & _ & ?)|]; simplify_eq; eauto; congruence.
  - specialize (Hs (i_key CONFIG_VARIABLE)). by rewrite lookup_delete_eq in Hs.
  - intros key v Hne Hk. specialize (Hs key). rewrite lookup_delete_ne, Hk in Hs by done.
    destruct Hs as (s & -> & ->). done.
Qed.

(** The host is known to the context, which gives the host name. *)
Definition host_ok (dc : DeployConfig) : Prop :=
  match ctx dc with
  | None => hostname dc = host dc
  | Some m => m !! host dc = Some (hostname dc) ∧ hostname dc ≠ ""
  end.

Lemma ResolveHost_Ok dc dc' :
  has_vars dc → ResolveHost stack dc = Ok dc' →
  has_vars dc' ∧ host_ok dc' ∧ kind dc' = kind dc ∧ role dc' = role dc ∧ ctx dc' = ctx dc ∧
  shape dc' = shape dc.
Proof.
  intros (vars & Hv & Hw). unfold ResolveHost, host_ok. destruct (ctx dc) as [m|] eqn:Hm.
  - unfold vars_of, GetVariables. rewrite Hv. simpl.
    intros (vars' & Hb%wrap_err_Ok & (h & Hh%wrap_err_Ok & Hd)%bind_Ok)%bind_Ok.
    destruct (vars_Build_wf _ _ _ Hw Hb) as (? & _ & _).
    rewrite Hm in Hd. simpl in Hd. case_decide as Hne; [done|]. injection Hd as <-.
    split; [by exists vars'|]. split; [|done]. simpl. rewrite Hm.
    split; [|done]. by destruct (m !! h).
  - intros [= <-]. split; [by exists vars|]. split; [|done]. simpl. by rewrite Hm.
Qed.

Lemma dc_Build_Ok dc dc' :
  has_vars dc → dc_Build stack dc = Ok dc' →
  has_vars dc' ∧ typed_config (kind dc') (items itemset) (config dc') ∧
  kind dc' = kind dc ∧ role dc' = role dc ∧ ctx dc' = ctx dc ∧ host dc' = host dc ∧
  hostname dc' = hostname dc ∧ shape dc' = shape dc.
Proof.
  intros (vs & Hvs & Hw)
    (d & (vars & vars' & Hv & Hb & Hd & _ & _ & _ & Hc)%renderVariables_Ok & Hcv)%bind_Ok.
  destruct (convert_typed d dc') as [Ht Hfr]; [|done|].
  { intros k v Hk. eapply rendered_string; [apply Hc|done]. }
  simplify_eq. destruct (vars_Build_wf _ _ _ Hw Hb) as (? & _ & _).
  split_and!; [|done|rewrite Hfr, Hd; done..].
  exists vars'. by rewrite Hfr, Hd.
Qed.
End one.

(** ** The loops over the list *)

Lemma addVariables_Ok uuid idx vs dcs dcs' :
  Forall has_vars dcs → addVariables uuid dcs idx vs = Ok dcs' →
  Forall has_vars dcs' ∧ length dcs' = length dcs ∧
  ∀ j dc', dcs' !! j = Some dc' → ∃ dc, dcs !! j = Some dc ∧
    if decide (j = idx) then ∃ v, dc' = set_variables dc v else dc' = dc.
Proof.
  revert dcs; induction vs as [|v vs IH]; intros dcs Hf; simpl.
  { intros [= <-]. split_and!; [done..|]. intros j dc Hj. exists dc. split; [done|].
    case_decide; [|done]. exists (variables dc). by destruct dc. }
  intros (dcs1 & H1 & H2)%bind_Ok. unfold addVariables_step in H1.
  destruct (dcs !! idx) as [dc|] eqn:Hi; [|done].
  destruct (skip dc v); [simplify_eq; by apply IH|].
  apply bind_Ok in H1 as (vars & Hv & (value & _ & H1)%bind_Ok).
  destruct (Register vars _) as [vars' [[]|e|]] eqn:Hr; simplify_eq.
  assert (has_vars (set_variables dc (Some vars'))) as Hdc.
  { exists vars'. split; [done|]. rewrite Forall_forall in Hf.
    destruct (Hf dc) as (vs' & Hvs & Hw); [by eapply list_elem_of_lookup_2|].
    unfold vars_of, GetVariables in Hv. rewrite Hvs in Hv. simplify_eq.
    pose proof (Register_wf vars (mkVariable (v_name v) "" value false) Hw) as Hw'.
    by rewrite Hr in Hw'. }
  destruct (IH (<[idx := set_variables dc (Some vars')]> dcs)) as (? & Hl & Hj); [|done|].
  { by apply Forall_insert. }
  split_and!; [done|by rewrite Hl, length_insert|].
  intros j dc' Hjd. destruct (Hj j dc' Hjd) as (d & Hd & Hif).
  case_decide as Heq.
  - subst. rewrite list_lookup_insert_eq in Hd by (by eapply lookup_lt_Some).
    injection Hd as <-. destruct Hif as [v' ->]. exists dc. split; [done|]. by exists v'.
  - rewrite list_lookup_insert_ne in Hd by done. eauto.
Qed.

(** One element of the list has been processed: [P] holds of it, and the others
    are unchanged. *)
Definition touches (idx : nat) (P : DeployConfig → DeployConfig → Prop)
    (dcs dcs' : list DeployConfig) : Prop :=
  length dcs' = length dcs ∧
  ∀ j dc', dcs' !! j = Some dc' → ∃ dc, dcs !! j = Some dc ∧
    if decide (j = idx) then P dc dc' else dc' = dc.

Lemma touches_insert idx P dcs dc dc' :
  dcs !! idx = Some dc → P dc dc' → touches idx P dcs (<[idx := dc']> dcs).
Proof.
  intros Hd HP. split; [apply length_insert|]. intros j d Hj.
  destruct (decide (j = idx)) as [->|Hne].
  - rewrite list_lookup_insert_eq in Hj by (by eapply lookup_lt_Some). simplify_eq. eauto.
  - rewrite list_lookup_insert_ne in Hj by done. eauto.
Qed.

Lemma touches_trans idx P Q dcs1 dcs2 dcs3 :
  touches idx P dcs1 dcs2 → touches idx Q dcs2 dcs3 →
  touches idx (λ d1 d3, ∃ d2, P d1 d2 ∧ Q d2 d3) dcs1 dcs3.
Proof.
  intros [Hl1 H1] [Hl2 H2]. split; [congruence|]. intros j d3 Hj.
  destruct (H2 j d3 Hj) as (d2 & Hd2 & HQ). destruct (H1 j d2 Hd2) as (d1 & Hd1 & HP).
  exists d1. split; [done|]. case_decide; [by exists d2|]. by subst.
Qed.

Lemma touches_weaken idx (P Q : DeployConfig → DeployConfig → Prop) dcs dcs' :
  touches idx P dcs dcs' → (∀ d d', dcs !! idx = Some d → P d d' → Q d d') →
  touches idx Q dcs dcs'.
Proof.
  intros [Hl H] HPQ. split; [done|]. intros j d' Hj. destruct (H j d' Hj) as (d & Hd & Hif).
  exists d. split; [done|]. case_decide; [|done]. subst. eauto.
Qed.

(** A loop over all positions establishes [Q] everywhere, when each iteration
    establishes it at its position and keeps an invariant [I] of every element. *)
Lemma index_loop (f : list DeployConfig → nat → res error (list DeployConfig))
    (I Q : DeployConfig → Prop) dcs dcs' :
  (∀ dcs idx dcs', Forall I dcs → f dcs idx = Ok dcs' →
     touches idx (λ d d', I d' ∧ Q d' ∧ shape d' = shape d) dcs dcs') →
  Forall I dcs → fold_res f (seq 0 (length dcs)) dcs = Ok dcs' →
  shape <$> dcs' = shape <$> dcs ∧ Forall I dcs' ∧ Forall Q dcs'.
Proof.
  intros Hf HI Hfold.
  set (P := λ (pre : list nat) (ds : list DeployConfig),
         shape <$> ds = shape <$> dcs ∧ Forall I ds ∧ ∀ j d, j ∈ pre → ds !! j = Some d → Q d).
  assert (P (seq 0 (length dcs)) dcs') as (Hl & HI' & HQ).
  { revert Hfold. apply (fold_res_ind P).
    - split_and!; [done..|]. intros j d Hj. by apply elem_of_nil in Hj.
    - intros pre idx ds ds' (Hl & HIs & HQs) Hstep.
      destruct (Hf _ _ _ HIs Hstep) as [Hl' Ht]. split_and!.
      + rewrite <-Hl. apply list_eq. intros j. rewrite !list_lookup_fmap.
        destruct (ds' !! j) as [d|] eqn:Hd.
        * destruct (Ht j d Hd) as (d0 & -> & Hif). simpl. f_equal.
          case_decide; [tauto|by subst].
        * apply lookup_ge_None in Hd. rewrite Hl' in Hd. apply lookup_ge_None in Hd. by rewrite Hd.
      + apply Forall_lookup. intros j d Hj. destruct (Ht j d Hj) as (d0 & Hd0 & Hif).
        case_decide; [tauto|]. subst. by eapply Forall_lookup in Hd0.
      + intros j d Hj Hd. destruct (Ht j d Hd) as (d0 & Hd0 & Hif).
        case_decide as Heq; [tauto|]. subst. apply (HQs j d0); [|done].
        apply elem_of_app in Hj as [?|Hj]; [done|]. by apply list_elem_of_singleton in Hj. }
  split_and!; [done..|]. apply Forall_lookup. intros j d Hj. apply (HQ j d); [|done].
  apply elem_of_seq. apply lookup_lt_Some in Hj.
  pose proof (f_equal length Hl) as Hlen. rewrite !length_fmap in Hlen. lia.
Qed.

(** What a returned deploy config satisfies. *)
Record wf_dc (c : option Context) (k : string) (dc : DeployConfig) : Prop := {
  wf_kind : kind dc = k;
  wf_ctx : ctx dc = c;
  wf_host : host_ok dc;
  wf_typed : typed_config (kind dc) (items itemset) (config dc);
  wf_vars : resolved_vars dc;
}.

(** The part of it that holds from the start, and after the first loop. *)
Definition raw_dc (c : option Context) (k : string) (dc : DeployConfig) : Prop :=
  kind dc = k ∧ ctx dc = c ∧ has_vars dc.
Definition built_dc (c : option Context) (k : string) (dc : DeployConfig) : Prop :=
  raw_dc c k dc ∧ host_ok dc ∧ typed_config (kind dc) (items itemset) (config dc).

Section loops.
Context `{MapOrder} (stack : nat) (uuid : nat → string).

Lemma raw_has_vars c k dcs : Forall (raw_dc c k) dcs → Forall has_vars dcs.
Proof. intros Hf. eapply Forall_impl; [exact Hf|]. by intros dc (_ & _ & ?). Qed.

Lemma addVariables_touches idx vs dcs dcs' :
  Forall has_vars dcs → addVariables uuid dcs idx vs = Ok dcs' →
  touches idx (λ d d', has_vars d' ∧ ∃ v, d' = set_variables d v) dcs dcs'.
Proof.
  intros Hf (Hf' & Hl & Hj)%addVariables_Ok; [|done]. split; [done|].
  intros j d' Hd'. destruct (Hj j d' Hd') as (d & Hd & Hif). exists d. split; [done|].
  case_decide; [|done]. split; [|done]. by eapply Forall_lookup in Hd'.
Qed.

Lemma service_loop_step_Ok c k dcs idx dcs' :
  Forall (raw_dc c k) dcs → service_loop_step stack uuid ∅ dcs idx = Ok dcs' →
  touches idx (λ d d', raw_dc c k d' ∧ built_dc c k d' ∧ shape d' = shape d) dcs dcs'.
Proof.
  intros Hraw Hs. unfold service_loop_step in Hs.
  destruct (dcs !! idx) as [dc|] eqn:Hdc; [|done].
  pose proof (Forall_lookup_1 _ _ _ _ Hraw Hdc) as (Hk & Hc & Hv).
  apply bind_Ok in Hs as (dc1 & H1 & (dcs2 & H2 & Hs)%bind_Ok).
  destruct (ResolveHost_Ok _ _ _ Hv H1) as (Hv1 & Hh1 & Hk1 & _ & Hc1 & Hsh1).
  pose proof (touches_insert idx (λ _ d, d = dc1) dcs dc dc1 Hdc eq_refl) as Ht1.
  apply addVariables_touches in H2.
  2:{ apply Forall_insert; [by eapply raw_has_vars|done]. }
  pose proof (touches_trans _ _ _ _ _ _ Ht1 H2) as Ht2.
  destruct (dcs2 !! idx) as [dc2|] eqn:Hdc2; [|done].
  apply bind_Ok in Hs as (dc3 & H3 & Hs).
  destruct (in_map ∅ _); [done|]. injection Hs as <-.
  destruct Ht2 as [Hl2 Hj2]. destruct (Hj2 idx dc2 Hdc2) as (d & Hd & Hif).
  rewrite decide_True in Hif by done. destruct Hif as (d1 & -> & Hv2 & v & ->).
  destruct (dc_Build_Ok _ _ _ Hv2 H3) as (Hv3 & Ht3 & Hk3 & _ & Hc3 & Hh3 & Hn3 & Hsh3).
  eapply (touches_weaken _ (λ d d', ∃ d2, True ∧ d' = dc3)).
  { apply (touches_trans idx (λ _ _, True) (λ _ d', d' = dc3) _ dcs2).
    - split; [done|]. intros j d' Hd'. destruct (Hj2 j d' Hd') as (d0 & ? & Hif).
      exists d0. split; [done|]. by case_decide.
    - by eapply touches_insert. }
  intros d0 d' Hd0 (_ & _ & ->).
  assert (raw_dc c k dc3) as Hr3.
  { split_and!; [by rewrite Hk3; simpl; rewrite Hk1|by rewrite Hc3; simpl; rewrite Hc1|done]. }
  assert (shape dc3 = shape d0) as Hsh.
  { etransitivity; [exact Hsh3|]. etransitivity; [exact Hsh1|]. congruence. }
  split; [done|]. split; [|exact Hsh]. split_and!; [done| |done].
  unfold host_ok in *. by rewrite Hc3, Hh3, Hn3.
Qed.

Lemma cluster_loop_step_Ok c k dcs idx dcs' :
  Forall (built_dc c k) dcs → cluster_loop_step stack uuid dcs idx = Ok dcs' →
  touches idx (λ d d', built_dc c k d' ∧ wf_dc c k d' ∧ shape d' = shape d) dcs dcs'.
Proof.
  intros Hb (dcs1 & H1 & Hs)%bind_Ok.
  apply addVariables_touches in H1.
  2:{ eapply Forall_impl; [exact Hb|]. by intros d ((_ & _ & ?) & _). }
  destruct (dcs1 !! idx) as [dc1|] eqn:Hdc1; [|done].
  destruct H1 as [Hl1 Hj1]. destruct (Hj1 idx dc1 Hdc1) as (d & Hd & Hif).
  rewrite decide_True in Hif by done. destruct Hif as ((vs & Hvs & Hw) & v & ->).
  pose proof (Forall_lookup_1 _ _ _ _ Hb Hd) as ((Hk & Hc & _) & Hh & Ht).
  apply bind_Ok in Hs as (vars & Hv & (vars' & Hb'%wrap_err_Ok & Hs)%bind_Ok).
  unfold vars_of, GetVariables in Hv. simpl in Hvs, Hv. rewrite Hvs in Hv.
  injection Hv as <-. injection Hs as <-.
  destruct (vars_Build_wf _ _ _ Hw Hb') as (Hw' & Hr' & Hres).
  set (dc2 := set_variables (set_variables d v) (Some vars')).
  assert (built_dc c k dc2) as Hb2.
  { split; [|by split]. split; [done|]. split; [done|]. by exists vars'. }
  eapply (touches_weaken _ (λ d d', ∃ d2, True ∧ d' = dc2)).
  { apply (touches_trans idx (λ _ _, True) (λ _ d', d' = dc2) _ dcs1).
    - split; [done|]. intros j d' Hd'. destruct (Hj1 j d' Hd') as (d0 & ? & Hif).
      exists d0. split; [done|]. by case_decide.
    - by eapply touches_insert. }
  intros d0 d' Hd0 (_ & _ & ->). split; [done|].
  split; [|by simplify_eq]. split; [done..|]. exists vars'. done.
Qed.
End loops.

(** ** Expansion: roles, hosts, instances *)

Definition deploy_shapes (k r : string) (hs : nat) (d : Deploy)
    : res error (list (string * string * Z * Z * Z)) :=
  n ← deploy_instances d;
  Ok ((λ i : nat, (k, r, Z.of_nat hs, Z.of_nat i, n)) <$> seq 0 (Z.to_nat n)).

Definition role_shapes (k r : string) (ds : list Deploy)
    : res error (list (string * string * Z * Z * Z)) :=
  fold_res (λ acc '(hs, d), s ← deploy_shapes k r hs d; Ok (acc ++ s)) (imap pair ds) [].

(** The specification: one block per role, per host, per instance, in this order. *)
Definition topology_shapes (t : Topology_) (roles : list string)
    : res error (list (string * string * Z * Z * Z)) :=
  fold_res (λ acc r,
    services ← role_services t r;
    s ← role_shapes (Kind t) r (default [] (s_Deploy services));
    Ok (acc ++ s)) roles [].

(** What the expansion reads of a deploy. *)
Definition deploy_key (d : Deploy) : string * string * Z * Z * Z :=
  (d_Host d, d_Name d, d_Replica d, d_Replicas d, d_Instances d).

Lemma deploy_instances_key d d' :
  deploy_key d = deploy_key d' → deploy_instances d = deploy_instances d'.
Proof. destruct d, d'. unfold deploy_key, deploy_instances. simpl. by intros [= -> -> -> -> ->]. Qed.

Lemma role_shapes_key k r ds ds' :
  deploy_key <$> ds = deploy_key <$> ds' → role_shapes k r ds = role_shapes k r ds'.
Proof.
  unfold role_shapes. intros Hk.
  assert (∀ f acc, fold_res (λ acc '(hs, d), s ← deploy_shapes k r hs d; Ok (acc ++ s))
                     (imap (λ i d, (f i : nat, d)) ds) acc
                 = fold_res (λ acc '(hs, d), s ← deploy_shapes k r hs d; Ok (acc ++ s))
                     (imap (λ i d, (f i : nat, d)) ds') acc) as Hgen.
  { revert ds' Hk; induction ds as [|d ds IH]; intros [|d' ds'] Hk f acc; try done.
    pose proof (f_equal tail Hk) as Hds. pose proof (f_equal head Hk) as Hd.
    cbn in Hds. injection Hd as Hd. simpl.
    assert (deploy_shapes k r (f 0) d = deploy_shapes k r (f 0) d') as ->.
    { unfold deploy_shapes. rewrite (deploy_instances_key d d'); [done|].
      unfold deploy_key. congruence. }
    destruct (deploy_shapes k r (f 0) d'); simpl; [|done..]. apply (IH ds' Hds (f ∘ S)). }
  apply (Hgen (λ i, i) []).
Qed.

Section expansion.
Context `{MapOrder}.

Lemma host_dcs_Ok c k r sc hs d d' dcs :
  host_dcs c k r sc hs d = Ok (d', dcs) →
  deploy_key d' = deploy_key d ∧ deploy_shapes k r hs d = Ok (shape <$> dcs) ∧
  Forall (raw_dc c k) dcs.
Proof.
  intros (cfg & _ & (n & Hn & (l & Hl & Hd)%bind_Ok)%bind_Ok)%bind_Ok.
  injection Hd as <- <-. split; [done|]. unfold deploy_shapes. rewrite Hn. simpl.
  assert (shape <$> l = (λ i : nat, (k, r, Z.of_nat hs, Z.of_nat i, n)) <$> seq 0 (Z.to_nat n)
          ∧ Forall (raw_dc c k) l) as [-> ?]; [|done].
  revert Hl. apply (fold_res_ind (λ pre l,
    shape <$> l = (λ i : nat, (k, r, Z.of_nat hs, Z.of_nat i, n)) <$> pre
    ∧ Forall (raw_dc c k) l)); [done|].
  intros pre i ds ds' [Hsh Hraw] (dc & Hdc & [= <-])%bind_Ok.
  apply NewDeployConfig_Ok in Hdc
    as (Hk & Hr & _ & _ & Hi & Hhs & Hsq & Hc & _ & _ & _ & Hv & _).
  rewrite !fmap_app, Hsh. split.
  - f_equal. simpl. unfold shape. by rewrite Hk, Hr, Hi, Hhs, Hsq.
  - apply Forall_app. split; [done|]. by repeat constructor.
Qed.

Lemma role_dcs_Ok c k r sc ds ds' dcs :
  role_dcs c k r sc ds = Ok (ds', dcs) →
  deploy_key <$> ds' = deploy_key <$> ds ∧ role_shapes k r ds = Ok (shape <$> dcs) ∧
  Forall (raw_dc c k) dcs.
Proof.
  unfold role_dcs, role_shapes. intros Hf.
  assert (deploy_key <$> ds = deploy_key <$> (imap pair ds).*2) as ->.
  { by rewrite imap_pair_snd. }
  revert Hf. apply (fold_res_ind (λ pre (st : list Deploy * list DeployConfig),
    deploy_key <$> st.1 = deploy_key <$> pre.*2 ∧
    fold_res (λ acc '(hs, d), s ← deploy_shapes k r hs d; Ok (acc ++ s)) pre []
      = Ok (shape <$> st.2) ∧ Forall (raw_dc c k) st.2) _ (imap pair ds) ([], []) (ds', dcs));
    [done|].
  intros pre [hs d] [l1 l2] [l1' l2'] (Hk & Hs & Hraw) ([d' l] & Hd & [= <- <-])%bind_Ok.
  apply host_dcs_Ok in Hd as (Hkd & Hsd & Hrd). simpl in *.
  rewrite !fmap_app, Hk, fold_res_app, Hs. simpl. rewrite Hsd, Hkd. simpl.
  split_and!; [done..|]. by apply Forall_app.
Qed.
End expansion.

(** The topology during the loop: the mds maps may have been completed. *)
Definition same_deploys (t t' : Topology_) : Prop :=
  ∃ m, t' = with_mds t m ∧
    fmap (M := list) deploy_key <$> s_Deploy m = fmap (M := list) deploy_key <$> s_Deploy (MdsServices t).

Lemma role_services_same t t' r s :
  same_deploys t t' → role_services t' r = Ok s →
  ∃ s0, role_services t r = Ok s0 ∧
    deploy_key <$> default [] (s_Deploy s) = deploy_key <$> default [] (s_Deploy s0).
Proof.
  intros (m & -> & Hm). unfold role_services. simpl.
  do 4 (case_decide; [by intros [= <-]; eexists|]).
  case_decide.
  { intros [= <-]. exists (MdsServices t). split; [done|].
    destruct (s_Deploy m), (s_Deploy (MdsServices t)); simpl in *; congruence. }
  do 6 (case_decide; [by intros [= <-]; eexists|]).
  case_decide.
  { destruct (s_Deploy m) as [[|d ds]|], (s_Deploy (MdsServices t)) as [[|d' ds']|]; simpl in *;
      try done. intros [= <-]. eexists. split; [done|]. simpl.
    assert (deploy_key d = deploy_key d') as Hd by congruence.
    unfold deploy_key in *. simpl. by injection Hd as -> -> -> _ ->. }
  do 2 (case_decide; [by intros [= <-]; eexists|]).
  intros [= <-]. by eexists.
Qed.

Section roles.
Context `{MapOrder}.

Lemma role_step_Ok c g t0 t dcs r t' dcs' :
  same_deploys t0 t → role_step c g (t, dcs) r = Ok (t', dcs') →
  same_deploys t0 t' ∧
  ∃ services new, role_services t0 r = Ok services ∧
    role_shapes (Kind t0) r (default [] (s_Deploy services)) = Ok (shape <$> new) ∧
    Forall (raw_dc c (Kind t0)) new ∧ dcs' = dcs ++ new.
Proof.
  intros Hsame (s & Hs & (sc & _ & ([ds new] & Hp & Hd)%bind_Ok)%bind_Ok)%bind_Ok.
  injection Hd as <- <-. pose proof Hsame as (m & -> & Hm). simpl in Hp.
  apply role_dcs_Ok in Hp as (Hk & Hsh & Hraw).
  destruct (role_services_same _ _ _ _ Hsame Hs) as (s0 & Hs0 & Hds).
  split.
  - unfold mds_after. case_decide as Hr; [|by exists m]. subst r.
    eexists. split; [reflexivity|]. simpl.
    unfold role_services in Hs. simpl in Hs. injection Hs as <-. rewrite <-Hm.
    destruct (s_Deploy m); simpl in *; [|done]. by rewrite Hk.
  - exists s0, new. split_and!; try done. by rewrite <-(role_shapes_key _ _ _ _ Hds).
Qed.

Lemma roles_loop_Ok c g t roles t' dcs :
  fold_res (role_step c g) roles (t, []) = Ok (t', dcs) →
  topology_shapes t roles = Ok (shape <$> dcs) ∧ Forall (raw_dc c (Kind t)) dcs.
Proof.
  intros Hf.
  apply (fold_res_ind (λ pre (st : Topology_ * list DeployConfig),
    same_deploys t st.1 ∧ topology_shapes t pre = Ok (shape <$> st.2) ∧
    Forall (raw_dc c (Kind t)) st.2)) in Hf; [by destruct Hf as (_ & ? & ?)| |].
  - split; [|done]. exists (MdsServices t). split; [by destruct t|done].
  - intros pre r [t1 d1] [t2 d2] (Hsame & Hsh & Hraw) Hst.
    destruct (role_step_Ok _ _ _ _ _ _ _ _ Hsame Hst) as (? & s & new & Hs & Hn & Hr & ->).
    simpl in *. split; [done|]. split.
    + unfold topology_shapes in *. rewrite fold_res_app, Hsh. simpl. rewrite Hs. simpl.
      rewrite Hn. simpl. by rewrite fmap_app.
    + by apply Forall_app.
Qed.
End roles.

(** ** The whole parser *)

Lemma ParseTopology_Ok `{MapOrder} stack uuid parse data c c' dcs :
  ParseTopology stack uuid parse data c = Ok (c', dcs) →
  ∃ t roles, parse data = Some t ∧ topology_roles c t = Ok (c', roles) ∧
    topology_shapes t roles = Ok (shape <$> dcs) ∧ Forall (wf_dc c' (Kind t)) dcs.
Proof.
  unfold ParseTopology. case_decide; [done|]. destruct (parse data) as [t|]; [|done].
  intros ([c1 roles] & Hr & ([t' dcs0] & Htd & (dcs1 & H1 & (dcs2 & H2 & Hd)%bind_Ok)%bind_Ok)%bind_Ok)%bind_Ok.
  injection Hd as <- <-. simpl in H1, H2. exists t, roles. split; [done|]. split; [done|].
  apply roles_loop_Ok in Htd as (Hsh & Hraw).
  destruct (index_loop _ (raw_dc c1 (Kind t)) (built_dc c1 (Kind t)) dcs0 dcs1
              (service_loop_step_Ok stack uuid c1 (Kind t)) Hraw H1) as (Hs1 & _ & Hb1).
  destruct (index_loop _ (built_dc c1 (Kind t)) (wf_dc c1 (Kind t)) dcs1 dcs2
              (cluster_loop_step_Ok stack uuid c1 (Kind t)) Hb1 H2) as (Hs2 & _ & Hw2).
  by rewrite Hs2, Hs1.
Qed.

(** ** Bounds of the expansion *)

Lemma deploy_instances_pos d n : deploy_instances d = Ok n → (0 < n)%Z.
Proof. unfold deploy_instances. repeat case_match; intros; simplify_eq; lia. Qed.

Definition in_range (s : string * string * Z * Z * Z) : Prop :=
  (0 ≤ s.1.2 < s.2)%Z.

Lemma deploy_shapes_range k r hs d l : deploy_shapes k r hs d = Ok l → Forall in_range l.
Proof.
  intros (n & Hn & [= <-])%bind_Ok. apply Forall_fmap, Forall_forall. intros i Hi%elem_of_seq.
  unfold in_range. simpl. pose proof (deploy_instances_pos _ _ Hn). lia.
Qed.

Lemma role_shapes_range k r ds l : role_shapes k r ds = Ok l → Forall in_range l.
Proof.
  unfold role_shapes. apply fold_res_inv; [|done].
  intros s [hs d] s' _ Hs (x & Hx & [= <-])%bind_Ok. apply Forall_app. split; [done|].
  by eapply deploy_shapes_range.
Qed.

Lemma shapes_in_range t roles dcs :
  topology_shapes t roles = Ok (shape <$> dcs) →
  Forall (λ dc, (0 ≤ instancesSequence dc < instances dc)%Z) dcs.
Proof.
  intros Hs. assert (Forall in_range (shape <$> dcs)) as Hf.
  { revert Hs. unfold topology_shapes. apply fold_res_inv; [|done].
    intros s r s' _ Hf (sv & _ & (x & Hx & [= <-])%bind_Ok)%bind_Ok.
    apply Forall_app. split; [done|]. by eapply role_shapes_range. }
  apply (Forall_fmap shape) in Hf. exact Hf.
Qed.

(** C2: every deploy config that [ParseTopology] returns is well formed: it has the
    kind and the context of the topology, a host the context maps to a non-empty
    host name, all its variables resolved, and at every config item that is meant for it,
    requires a number, a text or a boolean, and is set, a value of that type; at the item
    [java_opts], which requires a map, it has a text if the item is set. *)
Theorem ParseTopology_wf (o : MapOrder) (stack : nat) (uuid : nat → string)
    (parse : string → option Topology_) (data : string) (c c' : option Context)
    (dcs : list DeployConfig) :
  ParseTopology stack uuid parse data c = Ok (c', dcs) →
  ∃ t, parse data = Some t ∧ Forall (wf_dc c' (Kind t)) dcs.
Proof. intros (t & roles & ? & _ & _ & ?)%ParseTopology_Ok. eauto. Qed.

(** C13: the list [ParseTopology] returns is the expansion of the topology: for each
    role of its kind in order, for each host of the role in order, one config per
    instance, numbered from zero, and never zero of them. *)
Theorem ParseTopology_expands (o : MapOrder) (stack : nat) (uuid : nat → string)
    (parse : string → option Topology_) (data : string) (c c' : option Context)
    (dcs : list DeployConfig) :
  ParseTopology stack uuid parse data c = Ok (c', dcs) →
  ∃ t roles, parse data = Some t ∧ topology_roles c t = Ok (c', roles) ∧
    topology_shapes t roles = Ok (shape <$> dcs) ∧
    (∀ d n, deploy_instances d = Ok n → (0 < n)%Z) ∧
    Forall (λ dc, (0 ≤ instancesSequence dc < instances dc)%Z) dcs.
Proof.
  intros (t & roles & ? & ? & Hsh & Hw)%ParseTopology_Ok.
  exists t, roles. split_and!; [done..|apply deploy_instances_pos|].
  by apply shapes_in_range in Hsh.
Qed.

(** A dingo-store topology on two hosts. *)
Definition sample_topology : Topology_ := store_topology "h1" "h2" "" 1 2.
Definition sample_out : option Context * list DeployConfig :=
  res_get (None, []) (parse_sample sample_topology).

Lemma ParseTopology_wf_witness :
  length sample_out.2 = 4 ∧ ∃ t, Forall (wf_dc sample_out.1 (Kind t)) sample_out.2.
Proof.
  split; [vm_compute; reflexivity|].
  destruct (ParseTopology_wf canonical_order 20 sample_uuid (reads sample_topology) "topo"
              sample_ctx sample_out.1 sample_out.2) as (t & _ & Hf); [|by exists t].
  transitivity (Ok (E := error) sample_out); [|by destruct sample_out].
  apply res_get_Ok. vm_compute. reflexivity.
Defined.

Lemma ParseTopology_expands_witness :
  ∃ t roles, reads sample_topology "topo" = Some t ∧
    topology_shapes t roles = Ok (shape <$> sample_out.2) ∧
    (λ s, (s.1.1.1.2, s.1.1.2, s.1.2)) <$> (shape <$> sample_out.2)
    = [(ROLE_COORDINATOR, 0%Z, 0%Z); (ROLE_STORE, 0%Z, 0%Z); (ROLE_STORE, 1%Z, 0%Z);
       (ROLE_STORE, 1%Z, 1%Z)].
Proof.
  destruct (ParseTopology_expands canonical_order 20 sample_uuid (reads sample_topology) "topo"
              sample_ctx sample_out.1 sample_out.2) as (t & roles & Ht & _ & Hs & _).
  { transitivity (Ok (E := error) sample_out); [|by destruct sample_out].
    apply res_get_Ok. vm_compute. reflexivity. }
  exists t, roles. split; [exact Ht|]. split; [exact Hs|]. vm_compute. reflexivity.
Defined.
