(* ===== verification/TopologyGaps.v ===== *)
(** What [ParseTopology] does not check (src/internal/configure/topology,
    topology.go): duplicate service ids, a missing mds section, the number of
    temporary mds clients, and collisions of the default instance ids. *)

From S2P Require Import Prelude Errno GoLib Utils Vars DeployConfig Topology TopologyMerge TopologySamples.

(** * Which errors a call can return *)

Definition errs_in {A} (P : error → Prop) (r : res error A) : Prop := ∀ e, r = Err e → P e.

Section errs.
Context (P : error → Prop).

Lemma errs_in_Ok {A} (a : A) : errs_in P (Ok a).
Proof. by intros e. Qed.
Lemma errs_in_Panic {A} : errs_in P (Panic : res error A).
Proof. by intros e. Qed.
Lemma errs_in_Err {A} e : P e → errs_in P (Err e : res error A).
Proof. by intros He e' [= <-]. Qed.
Lemma errs_in_bind {A B} (m : res error A) (f : A → res error B) :
  errs_in P m → (∀ a, errs_in P (f a)) → errs_in P (m ≫= f).
Proof. intros Hm Hf e [?|(a & _ & ?)]%bind_Err; [by apply Hm|by apply (Hf a)]. Qed.
Lemma errs_in_fold {A S} (f : S → A → res error S) l s :
  (∀ s a, errs_in P (f s a)) → errs_in P (fold_res f l s).
Proof.
  intros Hf. revert s; induction l as [|a l IH]; intros s; simpl; [apply errs_in_Ok|].
  by apply errs_in_bind.
Qed.
Lemma errs_in_fold_elem {A S} (f : S → A → res error S) l s :
  (∀ s a, a ∈ l → errs_in P (f s a)) → errs_in P (fold_res f l s).
Proof.
  revert s; induction l as [|a l IH]; intros s Hf; simpl; [apply errs_in_Ok|].
  apply errs_in_bind; [apply Hf; left|]. intros s'. apply IH. intros; apply Hf. by right.
Qed.
Lemma errs_in_wrap {A} c (r : res error A) : P (ECode c) → errs_in P (wrap_err c r).
Proof. intros HP. destruct r; [by intros ?|by intros ? [= <-]|by intros ?]. Qed.
End errs.

Create HintDb errs.
#[export] Hint Resolve errs_in_Ok errs_in_Panic errs_in_Err errs_in_bind errs_in_fold
  errs_in_wrap : errs.

(** ** Getters return no error *)

Section getters.
Context (P : error → Prop).

Lemma assert_string_errs v : errs_in P (assert_string v).
Proof. by destruct v. Qed.
Lemma assert_bool_errs v : errs_in P (assert_bool v).
Proof. by destruct v. Qed.
Lemma assert_map_errs v : errs_in P (assert_map v).
Proof. by destruct v. Qed.
Lemma vars_of_errs dc : errs_in P (vars_of dc).
Proof. unfold vars_of. by destruct (GetVariables dc). Qed.
Lemma ctx_Lookup_errs c k : errs_in P (ctx_Lookup c k).
Proof. by destruct c. Qed.
Hint Resolve assert_string_errs assert_bool_errs assert_map_errs vars_of_errs
  ctx_Lookup_errs : errs.

Lemma getInt_errs dc i : errs_in P (default_of dc i) → errs_in P (getInt dc i).
Proof.
  intros Hd. unfold getInt, get. apply errs_in_bind; [|by intros []].
  by destruct (config dc !! i_key i).
Qed.

Lemma config_items_errs dc : Forall (λ i, errs_in P (default_of dc i)) config_items.
Proof.
  unfold config_items.
  repeat (apply List.Forall_cons; [|]); [..|apply List.Forall_nil]; try by intros ?.
  - unfold default_of. simpl. unfold CONFIG_PREFIX_default.
    repeat case_decide; eauto with errs. apply errs_in_bind; eauto with errs.
    intros v. case_decide; eauto with errs.
  - unfold default_of. simpl. unfold CONFIG_LISTEN_EXTERNAL_PORT_default.
    case_decide; eauto with errs. apply errs_in_bind; eauto with errs.
    apply getInt_errs. by intros ?.
  - unfold default_of. simpl. unfold CONFIG_COPYSETS_default. case_decide; eauto with errs.
  - unfold default_of. simpl. unfold CONFIG_INSTANCE_START_ID_default.
    case_match; eauto with errs.
  - unfold default_of. simpl. unfold CONFIG_DINGOSTORE_COORDINATOR_ADDR_default.
    apply errs_in_bind; eauto with errs. intros vs. by destruct (Get vs _).
  - unfold default_of. simpl. unfold CONFIG_DINGO_MDS_CLUSTER_ID_default.
    apply errs_in_bind; eauto with errs. intros vs. destruct (Get vs _); [case_decide|..]; done.
Qed.

Lemma get_errs dc i : i ∈ config_items → errs_in P (get dc i).
Proof.
  intros Hi. pose proof (config_items_errs dc) as Hf. rewrite Forall_forall in Hf.
  unfold get. destruct (config dc !! i_key i); [done|by apply Hf].
Qed.

Lemma getString_errs dc i : i ∈ config_items → errs_in P (getString dc i).
Proof.
  intros Hi. unfold getString. apply errs_in_bind; [by apply get_errs|].
  intros v. case_match; eauto with errs.
Qed.
Lemma getInt_item_errs dc i : i ∈ config_items → errs_in P (getInt dc i).
Proof.
  intros Hi. unfold getInt. apply errs_in_bind; [by apply get_errs|]. by intros [].
Qed.
End getters.

#[export] Hint Resolve assert_string_errs assert_bool_errs assert_map_errs vars_of_errs
  ctx_Lookup_errs : errs.

Ltac item_in := unfold config_items; repeat first [by apply list_elem_of_here | apply list_elem_of_further].

(** * No duplicate is ever reported *)

Definition not_dup (e : error) : Prop := e ≠ ECode ERR_DUPLICATE_SERVICE_ID.

Lemma not_dup_code c : Code c ≠ Code ERR_DUPLICATE_SERVICE_ID → not_dup (ECode c).
Proof. intros Hc [= ->]. done. Qed.

Ltac errs :=
  lazymatch goal with
  | |- errs_in _ (_ ≫= _) => apply errs_in_bind; [errs|intros; errs]
  | |- errs_in _ (Ok _) => apply errs_in_Ok
  | |- errs_in _ Panic => apply errs_in_Panic
  | |- errs_in _ (Err (ECode _)) => apply errs_in_Err, not_dup_code; vm_compute; discriminate
  | |- errs_in _ (wrap_err _ _) => apply errs_in_wrap, not_dup_code; vm_compute; discriminate
  | |- errs_in _ (fold_res _ _ _) => apply errs_in_fold; intros; errs
  | |- errs_in _ (getString _ _) => apply getString_errs; item_in
  | |- errs_in _ (getInt _ _) => apply getInt_item_errs; item_in
  | |- errs_in _ (let '(_, _) := ?p in _) => destruct p; errs
  | |- errs_in _ (match ?x with _ => _ end) => destruct x; errs
  | |- _ => first [solve [eauto with errs] | idtac]
  end.

Section not_dup.
Context `{MapOrder} (stack : nat) (uuid : nat → string) (parse : string → option Topology_).

Lemma GetListenIp_errs dc : errs_in not_dup (GetListenIp dc).
Proof. unfold GetListenIp. errs. Qed.
Lemma port_errs dc i : i ∈ config_items → errs_in not_dup (getInt dc i).
Proof. apply getInt_item_errs. Qed.

Lemma layout_errs dc : errs_in not_dup (dc_GetProjectLayout dc).
Proof.
  unfold dc_GetProjectLayout, GetPrefix.
  apply errs_in_bind; [errs|]. intros pfx. apply errs_in_bind.
  - apply errs_in_fold. intros s it. unfold conf_file_step.
    repeat case_decide; errs.
  - intros fs. apply errs_in_bind; [|intros [[[[? ?] ?] ?] ?]; errs].
    unfold role_dirs. repeat case_decide; errs.
Qed.

Lemma joinPeer_errs dcs r p : errs_in not_dup (joinPeer dcs r p).
Proof.
  unfold joinPeer. apply errs_in_bind; [|errs]. apply errs_in_fold. intros s dc.
  unfold GetListenIp, GetListenPort. apply errs_in_bind; [errs|]. intros h.
  apply errs_in_bind; [errs|]. intros q. apply errs_in_bind; [|errs].
  destruct p; simpl; [errs|..]; apply getInt_item_errs; item_in.
Qed.
Lemma joinDummyPort_errs dcs r : errs_in not_dup (joinDummyPort dcs r).
Proof. unfold joinDummyPort, GetListenDummyPort. errs. Qed.
Lemma joinNginx_errs dcs : errs_in not_dup (joinNginxUpstreamServer dcs).
Proof. unfold joinNginxUpstreamServer, GetListenIp, GetListenPort. errs. Qed.
Lemma locate_errs dcs : errs_in not_dup (locateDiskannPort dcs).
Proof. unfold locateDiskannPort, GetDingoServerPort. errs. Qed.
Lemma atoa_errs dc i : i ∈ config_items → errs_in not_dup (atoa_item dc i).
Proof. intros Hi. unfold atoa_item. apply errs_in_bind; [by apply get_errs|errs]. Qed.
Hint Resolve layout_errs joinPeer_errs joinDummyPort_errs joinNginx_errs locate_errs : errs.

Lemma getValue_errs n dcs idx : errs_in not_dup (getValue uuid n dcs idx).
Proof.
  unfold getValue. destruct (dcs !! idx) as [dc|]; [|errs].
  destruct (find_first _ _) as [[k f]|] eqn:Hf; [|errs].
  apply find_first_Some in Hf as [Hin _].
  assert (Forall (λ c : string * (unit → res error string), errs_in not_dup (c.2 tt))
            (getValue_cases uuid dcs idx dc)) as Hall.
  { unfold getValue_cases, GetSeqOffset.
    repeat (apply List.Forall_cons; [|]); [..|apply List.Forall_nil]; cbn [snd]; errs.
    all: apply atoa_errs; item_in. }
  rewrite Forall_forall in Hall. apply (Hall (k, f) Hin).
Qed.

Lemma addVariables_errs dcs idx vs : errs_in not_dup (addVariables uuid dcs idx vs).
Proof.
  unfold addVariables. apply errs_in_fold. intros ds v. unfold addVariables_step.
  destruct (ds !! idx) as [dc|]; [|errs]. destruct (skip dc v); [errs|].
  apply errs_in_bind; [errs|]. intros vars. apply errs_in_bind; [apply getValue_errs|].
  intros w. destruct (Register _ _) as [? [?|?|]]; errs.
Qed.

Lemma ResolveHost_errs dc : errs_in not_dup (ResolveHost stack dc).
Proof. unfold ResolveHost. errs. Qed.

Lemma convert_item_errs dc i : i ∈ config_items → errs_in not_dup (convert_item dc i).
Proof.
  intros Hi. unfold convert_item. repeat (case_decide; [errs|]).
  apply errs_in_bind; [by apply get_errs|]. intros v. errs.
Qed.

Lemma dc_Build_errs dc : errs_in not_dup (dc_Build stack dc).
Proof.
  unfold dc_Build. apply errs_in_bind.
  - unfold renderVariables. errs. unfold render_step. destruct a0. errs.
  - intros d. unfold convert. apply errs_in_bind.
    + apply errs_in_fold. intros s [k v]. unfold service_step.
      destruct (match itemset_get itemset k with None => true | _ => _ end); errs.
    + intros s. apply errs_in_fold_elem. intros d' i Hi. apply convert_item_errs.
      unfold itemset_getAll in Hi. by rewrite items_itemset in Hi.
Qed.

Lemma NewDeployConfig_errs c k r h n i hs sq cfg :
  errs_in not_dup (NewDeployConfig c k r h n i hs sq cfg).
Proof.
  unfold NewDeployConfig. case_match; [errs|]. apply errs_in_bind; [errs|]. intros m.
  apply errs_in_bind.
  - unfold newVariables. apply errs_in_fold. intros vs [k' v]. unfold newVariables_step. errs.
  - intros vars. apply errs_in_bind; [|errs]. apply errs_in_fold. intros cc [k' v].
    unfold stringify_step. errs.
Qed.

Lemma merge_errs p q : errs_in not_dup (merge p q).
Proof.
  unfold merge, merge2. apply errs_in_fold. intros c [k v]. unfold merge_step. errs.
Qed.

Lemma role_step_errs c g st r : errs_in not_dup (role_step c g st r).
Proof.
  destruct st as [t dcs]. unfold role_step. apply errs_in_bind.
  { unfold role_services. repeat (case_decide; [errs|]). errs. }
  intros sv. apply errs_in_bind; [apply merge_errs|]. intros sc.
  apply errs_in_bind; [|errs]. unfold role_dcs. apply errs_in_fold. intros [ds l] [hs d].
  apply errs_in_bind; [|errs]. unfold host_dcs. apply errs_in_bind; [apply merge_errs|].
  intros dcfg. apply errs_in_bind; [unfold deploy_instances; errs|]. intros n.
  apply errs_in_bind; [|errs]. apply errs_in_fold. intros acc i.
  apply errs_in_bind; [apply NewDeployConfig_errs|errs].
Qed.

Lemma service_loop_step_errs dcs idx :
  errs_in not_dup (service_loop_step stack uuid ∅ dcs idx).
Proof.
  unfold service_loop_step. destruct (dcs !! idx); [|errs].
  apply errs_in_bind; [apply ResolveHost_errs|]. intros dc.
  apply errs_in_bind; [apply addVariables_errs|]. intros ds.
  destruct (ds !! idx); [|errs]. apply errs_in_bind; [apply dc_Build_errs|]. intros d2.
  (* nothing is ever in [exist] *)
  change (in_map ∅ (GetId d2)) with (default false ((∅ : gmap string bool) !! GetId d2)).
  rewrite lookup_empty. apply errs_in_Ok.
Qed.

Lemma ParseTopology_errs data c : errs_in not_dup (ParseTopology stack uuid parse data c).
Proof.
  unfold ParseTopology. case_decide; [errs|]. destruct (parse data) as [t|]; [|errs].
  apply errs_in_bind.
  { unfold topology_roles, ctx_Add. errs. }
  intros [c1 roles]. apply errs_in_bind; [apply errs_in_fold; intros; apply role_step_errs|].
  intros td. apply errs_in_bind; [apply errs_in_fold; intros; apply service_loop_step_errs|].
  intros dcs. apply errs_in_bind; [|errs]. apply errs_in_fold. intros ds idx.
  unfold cluster_loop_step. apply errs_in_bind; [apply addVariables_errs|]. intros ds'.
  destruct (ds' !! idx); errs.
Qed.
End not_dup.

(** * What is not checked *)

(** Duplicate service ids are never rejected: [ParseTopology] never returns the
    error it has for them, because the set of ids it consults is never filled, and
    two stores declared with the same host and name are returned with the same id. *)
Theorem duplicate_service_ids_accepted (o : MapOrder) :
  (∀ stack uuid parse data c,
     ParseTopology stack uuid parse data c ≠ Err (ECode ERR_DUPLICATE_SERVICE_ID)) ∧
  is_Ok (parse_sample (store_topology "h1" "h1" "s" 1 1)) = true ∧
  GetId <$> sample_dcs (store_topology "h1" "h1" "s" 1 1)
  = ["coordinator_h1_0_0"; "store_h1_s_0"; "store_h1_s_0"].
Proof.
  split; [|split; vm_compute; reflexivity].
  intros stack uuid parse data c He. by apply (ParseTopology_errs _ _ _ _ _ _ He).
Qed.

(** A dingofs topology without etcd, coordinator and mds hosts makes
    [ParseTopology] panic: the temporary mds client takes the first mds deploy
    without looking whether there is one. *)
Theorem ParseTopology_without_mds_panics (o : MapOrder) (stack : nat) (uuid : nat → string)
    (parse : string → option Topology_) (data : string) (c : option Context) (t : Topology_) :
  data ≠ "" → parse data = Some t → Kind t = KIND_DINGOFS →
  s_Deploy (CoordinatorServices t) = None → s_Deploy (EtcdServices t) = None →
  default [] (s_Deploy (MdsServices t)) = [] →
  ParseTopology stack uuid parse data c = Panic.
Proof.
  intros Hd Hp Hk Hc He Hm. unfold ParseTopology. rewrite decide_False, Hp by done.
  unfold topology_roles. rewrite Hk, Hc, He, decide_True by done.
  destruct c as [m|]; [|done]. cbn [ctx_Add mbind res_bind].
  unfold DINGOFS_MDSV2_ONLY_ROLES. cbn [fold_res].
  assert (∀ g st, role_step (Some (<[CTX_KEY_MDS_VERSION:=CTX_VAL_MDS_V2]> m)) g (t, []) ROLE_FS_MDS = Ok st →
            role_step (Some (<[CTX_KEY_MDS_VERSION:=CTX_VAL_MDS_V2]> m)) g st ROLE_FS_MDS_CLI = Panic) as Hcli.
  { intros g [t' l] (sv & Hsv & (sc & _ & (p & Hp' & Hst)%bind_Ok)%bind_Ok)%bind_Ok.
    injection Hsv as <-. rewrite Hm in Hp'. injection Hp' as <-. injection Hst as <- <-.
    unfold role_step, role_services. simpl.
    by destruct (s_Deploy (MdsServices t)) as [[|]|]. }
  destruct (role_step _ _ (t, []) ROLE_FS_MDS) as [st|e|] eqn:Hst; cbn [mbind res_bind].
  - by rewrite (Hcli _ _ Hst).
  - exfalso. revert Hst. unfold role_step, role_services. simpl. rewrite Hm.
    destruct (merge _ _) as [sc|e'|] eqn:Hmg; [done| |done].
    by destruct (merge_not_Ok _ _ _ Hmg).
  - done.
Qed.

Lemma ParseTopology_without_mds_panics_witness :
  parse_sample (empty_topology KIND_DINGOFS) = Panic.
Proof. by apply (ParseTopology_without_mds_panics canonical_order _ _ _ _ _ (empty_topology KIND_DINGOFS)). Defined.

(** The temporary [mds-client] role is meant to have one config, but it has as
    many as the first mds deploy asks for through [instances]. *)
Theorem mds_client_count (o : MapOrder) (t : Topology_) (d : Deploy) (ds : list Deploy)
    (s : Service) :
  s_Deploy (MdsServices t) = Some (d :: ds) → role_services t ROLE_FS_MDS_CLI = Ok s →
  ∃ d', s_Deploy s = Some [d'] ∧
    (deploy_instances d' = Ok (if (0 <? d_Instances d)%Z then d_Instances d
                               else if (0 <? d_Replica d)%Z then d_Replica d else 1%Z)
     ∨ (d_Replica d < 0 ∨ d_Instances d < 0)%Z).
Proof.
  intros Hd Hs. unfold role_services in Hs. rewrite Hd in Hs. simpl in Hs.
  injection Hs as <-. eexists. split; [reflexivity|].
  unfold deploy_instances. simpl. repeat case_match; simpl; auto; try lia.
Qed.

Lemma mds_client_count_witness :
  (∃ d', s_Deploy (res_get zero_Service (role_services (mds_topology 2) ROLE_FS_MDS_CLI))
         = Some [d'] ∧ deploy_instances d' = Ok 2%Z) ∧
  GetId <$> with_role ROLE_FS_MDS_CLI (sample_dcs (mds_topology 2))
  = ["mds-client_h1_0_0"; "mds-client_h1_0_1"].
Proof.
  split; [|vm_compute; reflexivity].
  destruct (mds_client_count canonical_order (mds_topology 2) (sample_deploy "h1" 2)
              [sample_deploy "h2" 1]
              (res_get zero_Service (role_services (mds_topology 2) ROLE_FS_MDS_CLI)))
    as (d' & Hd' & H); [reflexivity|reflexivity|].
  exists d'. split; [done|]. destruct H as [H|[H|H]]; [exact H|done..].
Defined.

(** * Instance ids *)

(** Among the services of a role whose hosts all run the same number of
    instances, the default of [instance_start_id] identifies the host and the
    instance. *)
Theorem instance_ids_distinct (dc1 dc2 : DeployConfig) :
  instances dc1 = instances dc2 →
  (0 ≤ hostSequence dc1 < 2 ^ 31 ∧ 0 ≤ hostSequence dc2 < 2 ^ 31)%Z →
  (0 ≤ instancesSequence dc1 < instances dc1 ∧ 0 ≤ instancesSequence dc2 < instances dc2 ∧
   instances dc1 < 2 ^ 31)%Z →
  CONFIG_INSTANCE_START_ID_default dc1 = CONFIG_INSTANCE_START_ID_default dc2 →
  hostSequence dc1 = hostSequence dc2 ∧ instancesSequence dc1 = instancesSequence dc2.
Proof.
  intros Hn Hh Hs. unfold CONFIG_INSTANCE_START_ID_default, GetInstances, GetHostSequence,
    GetInstancesSequence, DEFAULT_STORE_INSTANCE_START_ID. rewrite <-Hn.
  destruct (0 <? instances dc1)%Z eqn:Hpos; [|lia].
  rewrite !wrap64_id by (unfold in_int64, MinInt64, MaxInt64; nia).
  intros [= Heq]. apply (Z.div_mod_unique (instances dc1)); lia.
Qed.

Lemma instance_ids_distinct_witness :
  let dc1 := nth 1 (sample_dcs (store_topology "h1" "h2" "" 2 2)) zero_dc in
  let dc2 := nth 4 (sample_dcs (store_topology "h1" "h2" "" 2 2)) zero_dc in
  (GetId dc1, GetId dc2) = ("store_h1_0_0", "store_h2_1_1") ∧
  CONFIG_INSTANCE_START_ID_default dc1 ≠ CONFIG_INSTANCE_START_ID_default dc2.
Proof.
  split; [vm_compute; reflexivity|]. intros Heq.
  destruct (instance_ids_distinct
              (nth 1 (sample_dcs (store_topology "h1" "h2" "" 2 2)) zero_dc)
              (nth 4 (sample_dcs (store_topology "h1" "h2" "" 2 2)) zero_dc)) as [H _].
  - vm_compute. reflexivity.
  - vm_compute. split; split; congruence.
  - vm_compute. repeat split; congruence.
  - exact Heq.
  - vm_compute in H. discriminate.
Defined.

(** With different numbers of instances per host the default ids collide: of two
    stores on the first host and one on the second, the second and the third get
    the same id. *)
Theorem instance_ids_collide (o : MapOrder) :
  GetId <$> sample_dcs (store_topology "h1" "h2" "" 2 1)
  = ["coordinator_h1_0_0"; "store_h1_0_0"; "store_h1_0_1"; "store_h2_1_0"] ∧
  GetDingoInstanceId <$> sample_dcs (store_topology "h1" "h2" "" 2 1)
  = [Ok 1001%Z; Ok 1001%Z; Ok 1002%Z; Ok 1002%Z].
Proof. split; vm_compute; reflexivity. Qed.
