(* ===== verification/TopologyDiff.v ===== *)
(** Comparing two topologies (src/internal/configure/topology: diff.go).

    [hashstructure.Hash] is the parameter [Hash].  The two runs of [ParseTopology]
    share the context object, so the configs of the first run end up with the
    entries the second run added. *)

From S2P Require Import Prelude Errno GoLib Utils Vars DeployConfig Topology TopologySamples.

Inductive DiffType : Type := DIFF_ADD | DIFF_DELETE | DIFF_CHANGE.

#[export] Instance DiffType_eq_dec : EqDecision DiffType.
Proof. solve_decision. Defined.

Definition TopologyDiff : Type := DiffType * DeployConfig.

(** monitor.go compares its configs in the same way: the functions are stated for configs of
    any type [A]. *)
Section diff.
Context {A : Type} `{MapOrder} (getId : A → string) (Hash : A → option Z).

(** The map from ids to configs; a later config replaces an earlier one. *)
Definition by_id (dcs : list A) : gmap string A := foldl (λ m dc, <[getId dc := dc]> m) ∅ dcs.

Definition hash (dc : A) : option Z := Hash dc.

Definition same (dc1 dc2 : A) : res error bool :=
  match hash dc1 with
  | None => Err (ECode ERR_CREATE_HASH_FOR_TOPOLOGY_FAILED)
  | Some hash1 =>
      match hash dc2 with
      | None => Err (ECode ERR_CREATE_HASH_FOR_TOPOLOGY_FAILED)
      | Some hash2 => Ok (bool_decide (hash1 = hash2))
      end
  end.

Definition difference (ids1 ids2 : gmap string A) : gmap string A :=
  foldl (λ ids '(k, v), match ids2 !! k with Some _ => ids | None => <[k := v]> ids end)
    ∅ (range ids1).

Definition change_step (ids1 deleteIds addIds : gmap string A)
    (diffs : list (DiffType * A)) (kv : string * A)
    : res error (list (DiffType * A)) :=
  let '(id, dc) := kv in
  match deleteIds !! id, addIds !! id with
  | Some _, _ | None, Some _ => Ok diffs
  | None, None =>
      match ids1 !! id with
      | None => Panic (* dereference of the nil config *)
      | Some dc1 =>
          ok ← same dc1 dc;
          if (ok : bool) then Ok diffs else Ok (diffs ++ [(DIFF_CHANGE, dc)])
      end
  end.

Definition diff_ids (ids1 ids2 : gmap string A) : res error (list (DiffType * A)) :=
  let deleteIds := difference ids1 ids2 in
  let addIds := difference ids2 ids1 in
  let diffs := (λ kv, (DIFF_DELETE, kv.2)) <$> range deleteIds in
  let diffs := diffs ++ ((λ kv, (DIFF_ADD, kv.2)) <$> range addIds) in
  fold_res (change_step ids1 deleteIds addIds) (range ids2) diffs.

(** ** Lemmas *)

Lemma difference_lookup ids1 ids2 k :
  difference ids1 ids2 !! k = match ids2 !! k with Some _ => None | None => ids1 !! k end.
Proof.
  unfold difference.
  assert (∀ l (acc : gmap string A),
    foldl (λ ids '(k, v), match ids2 !! k with Some _ => ids | None => <[k := v]> ids end) acc l
    = foldl (λ m '(k, v), match (match ids2 !! k with Some _ => None | None => Some v end) with
                          | Some w => <[k := w]> m | None => m end) acc l) as ->.
  { induction l as [|[k' v'] l IH]; intros acc; simpl; [done|]. rewrite IH.
    by destruct (ids2 !! k'). }
  rewrite (foldl_insert_range (λ k v, match ids2 !! k with Some _ => None | None => Some v end))
    by apply NoDup_range_fst.
  rewrite list_to_map_range, lookup_empty.
  by destruct (ids1 !! k), (ids2 !! k).
Qed.

Lemma change_loop_elem ids1 del add l diffs diffs' d :
  fold_res (change_step ids1 del add) l diffs = Ok diffs' →
  d ∈ diffs' ↔ d ∈ diffs ∨ ∃ k dc dc1, (k, dc) ∈ l ∧ del !! k = None ∧ add !! k = None ∧
                              ids1 !! k = Some dc1 ∧ same dc1 dc = Ok false ∧ d = (DIFF_CHANGE, dc).
Proof.
  revert diffs; induction l as [|[k dc] l IH]; intros diffs; simpl.
  { intros [= <-]. split; [by left|]. intros [?|(k & dc & dc1 & Hin & _)]; [done|].
    by apply elem_of_nil in Hin. }
  intros (diffs1 & H1 & H2)%bind_Ok. rewrite (IH _ H2). setoid_rewrite elem_of_cons. clear IH H2.
  assert (d ∈ diffs1 ↔ d ∈ diffs ∨ (del !! k = None ∧ add !! k = None ∧ ∃ dc1,
            ids1 !! k = Some dc1 ∧ same dc1 dc = Ok false ∧ d = (DIFF_CHANGE, dc))) as ->.
  { destruct (del !! k); [injection H1 as <-; naive_solver|].
    destruct (add !! k); [injection H1 as <-; naive_solver|].
    destruct (ids1 !! k) as [dc1|]; [|done]. apply bind_Ok in H1 as ([] & Hs & [= <-]).
    - split; [by left|]. intros [?|(_ & _ & dc1' & [= <-] & Hs' & _)]; [done|]. congruence.
    - rewrite elem_of_app, list_elem_of_singleton. split.
      + intros [?|?]; [by left|right]. eauto 10.
      + intros [?|(_ & _ & dc1' & [= <-] & _ & ?)]; auto. }
  split.
  - intros [[?|(? & ? & dc1 & ? & ? & ?)]|(k' & dc' & dc1 & ? & ?)]; [by left|right..].
    + exists k, dc, dc1. auto 10.
    + exists k', dc', dc1. auto.
  - intros [?|(k' & dc' & dc1 & [[= -> ->]|?] & ? & ? & ? & ? & ?)]; [by left; left|left; right|right].
    + eauto 10.
    + exists k', dc', dc1. auto 10.
Qed.

Lemma diff_ids_elem ids1 ids2 diffs t dc :
  diff_ids ids1 ids2 = Ok diffs →
  (t, dc) ∈ diffs ↔
  ∃ k, match t with
       | DIFF_DELETE => ids1 !! k = Some dc ∧ ids2 !! k = None
       | DIFF_ADD => ids2 !! k = Some dc ∧ ids1 !! k = None
       | DIFF_CHANGE => ids2 !! k = Some dc ∧ ∃ dc1, ids1 !! k = Some dc1 ∧ same dc1 dc = Ok false
       end.
Proof.
  intros Hd. rewrite (change_loop_elem _ _ _ _ _ _ _ Hd), elem_of_app, !list_elem_of_fmap.
  clear Hd. split.
  - intros [[([k v] & [= -> ->] & Hin%elem_of_range)|([k v] & [= -> ->] & Hin%elem_of_range)]|
            (k & dc' & dc1 & Hin%elem_of_range & Hd & Ha & H1 & Hs & [= -> ->])].
    + exists k. rewrite difference_lookup in Hin. by destruct (ids2 !! k).
    + exists k. rewrite difference_lookup in Hin. by destruct (ids1 !! k).
    + exists k. eauto.
  - intros [k Hk]. destruct t.
    + left; right. exists (k, dc). split; [done|]. apply elem_of_range.
      rewrite difference_lookup. destruct Hk as [-> ->]. done.
    + left; left. exists (k, dc). split; [done|]. apply elem_of_range.
      rewrite difference_lookup. destruct Hk as [-> ->]. done.
    + right. destruct Hk as (H2 & dc1 & H1 & Hs). exists k, dc, dc1.
      split; [by apply elem_of_range|]. rewrite !difference_lookup, H1, H2. done.
Qed.

(** The map holds the configs of the list, under their ids, and every id. *)
Lemma by_id_lookup dcs k dc : by_id dcs !! k = Some dc → dc ∈ dcs ∧ getId dc = k.
Proof.
  unfold by_id. revert dc. induction dcs as [|d dcs IH] using rev_ind; intros dc; simpl.
  { by rewrite lookup_empty. }
  rewrite foldl_app. simpl. destruct (decide (getId d = k)) as [<-|Hne].
  - rewrite lookup_insert_eq. intros [= <-]. split; [|done]. apply elem_of_app. right. by left.
  - rewrite lookup_insert_ne by done. intros [??]%IH. split; [|done]. apply elem_of_app. by left.
Qed.

Lemma by_id_is_Some dcs dc : dc ∈ dcs → is_Some (by_id dcs !! getId dc).
Proof.
  unfold by_id. induction dcs as [|d dcs IH] using rev_ind; simpl; intros Hd.
  { by apply elem_of_nil in Hd. }
  rewrite foldl_app. simpl. destruct (decide (getId d = getId dc)) as [->|Hne].
  - rewrite lookup_insert_eq. eauto.
  - rewrite lookup_insert_ne by done. apply elem_of_app in Hd as [?|Hd]; [auto|].
    apply list_elem_of_singleton in Hd. congruence.
Qed.

Lemma by_id_None dcs k : by_id dcs !! k = None → ∀ dc, dc ∈ dcs → getId dc ≠ k.
Proof. intros Hk dc Hd <-. destruct (by_id_is_Some dcs dc Hd) as [? ?]. congruence. Qed.

(** The difference of two lists of configs. *)
Lemma diff_exact old dcs2 diffs :
  diff_ids (by_id old) (by_id dcs2) = Ok diffs →
  (∀ dc, (DIFF_DELETE, dc) ∈ diffs → dc ∈ old ∧ ∀ d, d ∈ dcs2 → getId d ≠ getId dc) ∧
  (∀ dc, (DIFF_ADD, dc) ∈ diffs → dc ∈ dcs2 ∧ ∀ d, d ∈ old → getId d ≠ getId dc) ∧
  (∀ dc, dc ∈ old → (∀ d, d ∈ dcs2 → getId d ≠ getId dc) →
     ∃ d, getId d = getId dc ∧ (DIFF_DELETE, d) ∈ diffs) ∧
  (∀ dc, dc ∈ dcs2 → (∀ d, d ∈ old → getId d ≠ getId dc) →
     ∃ d, getId d = getId dc ∧ (DIFF_ADD, d) ∈ diffs) ∧
  (∀ dc, (DIFF_CHANGE, dc) ∈ diffs →
     dc ∈ dcs2 ∧ ∃ d, d ∈ old ∧ getId d = getId dc ∧ same d dc = Ok false).
Proof.
  intros Hd. pose proof (λ t dc, diff_ids_elem _ _ diffs t dc Hd) as He.
  split; [|split; [|split; [|split]]].
  - intros dc Hdc. apply He in Hdc as (k & Hk & Hn). apply by_id_lookup in Hk as [Hin <-].
    split; [done|]. by apply by_id_None.
  - intros dc Hdc. apply He in Hdc as (k & Hk & Hn). apply by_id_lookup in Hk as [Hin <-].
    split; [done|]. by apply by_id_None.
  - intros dc Hin Hno. destruct (by_id_is_Some old dc Hin) as [d Hk].
    pose proof (by_id_lookup _ _ _ Hk) as [_ Hid]. exists d. split; [done|].
    apply (He DIFF_DELETE). exists (getId dc). split; [done|].
    destruct (by_id dcs2 !! getId dc) as [d'|] eqn:E; [|done].
    apply by_id_lookup in E as [Hd' Hi']. by destruct (Hno d').
  - intros dc Hin Hno. destruct (by_id_is_Some dcs2 dc Hin) as [d Hk].
    pose proof (by_id_lookup _ _ _ Hk) as [_ Hid]. exists d. split; [done|].
    apply (He DIFF_ADD). exists (getId dc). split; [done|].
    destruct (by_id old !! getId dc) as [d'|] eqn:E; [|done].
    apply by_id_lookup in E as [Hd' Hi']. by destruct (Hno d').
  - intros dc Hdc. apply He in Hdc as (k & Hk & d & Hk' & Hs).
    apply by_id_lookup in Hk as [Hin <-]. apply by_id_lookup in Hk' as [Hd' Hi]. eauto.
Qed.
End diff.

(** ** Topologies *)

Definition DiffTopology `{MapOrder} (Hash : DeployConfig → option Z) (stack : nat) (uuid1 uuid2 : nat → string)
    (parse : string → option Topology_) (data1 data2 : string) (c : option Context)
    : res error (list TopologyDiff) :=
  p1 ← ParseTopology stack uuid1 parse data1 c;
  p2 ← ParseTopology stack uuid2 parse data2 p1.1;
  let dcs1 := (λ dc, set_ctx dc p2.1) <$> p1.2 in
  diff_ids Hash (by_id GetId dcs1) (by_id GetId p2.2).

(** C19: the difference of two topologies is exact: a config is reported as deleted
    (added) only if it belongs to the first (second) topology and no config of the
    other one has its id; every id on one side only is reported; and it is reported
    as changed only if both have its id and the hashes differ.  The iteration orders
    play no role. *)
Theorem DiffTopology_exact (o : MapOrder) (stack : nat) (uuid1 uuid2 : nat → string)
    (parse : string → option Topology_) (Hash : DeployConfig → option Z) (data1 data2 : string)
    (c : option Context) (diffs : list TopologyDiff) :
  DiffTopology Hash stack uuid1 uuid2 parse data1 data2 c = Ok diffs →
  ∃ c1 dcs1 c2 dcs2,
    ParseTopology stack uuid1 parse data1 c = Ok (c1, dcs1) ∧
    ParseTopology stack uuid2 parse data2 c1 = Ok (c2, dcs2) ∧
    let old := (λ dc, set_ctx dc c2) <$> dcs1 in
    (∀ dc, (DIFF_DELETE, dc) ∈ diffs → dc ∈ old ∧ ∀ d, d ∈ dcs2 → GetId d ≠ GetId dc) ∧
    (∀ dc, (DIFF_ADD, dc) ∈ diffs → dc ∈ dcs2 ∧ ∀ d, d ∈ old → GetId d ≠ GetId dc) ∧
    (∀ dc, dc ∈ old → (∀ d, d ∈ dcs2 → GetId d ≠ GetId dc) →
       ∃ d, GetId d = GetId dc ∧ (DIFF_DELETE, d) ∈ diffs) ∧
    (∀ dc, dc ∈ dcs2 → (∀ d, d ∈ old → GetId d ≠ GetId dc) →
       ∃ d, GetId d = GetId dc ∧ (DIFF_ADD, d) ∈ diffs) ∧
    (∀ dc, (DIFF_CHANGE, dc) ∈ diffs →
       dc ∈ dcs2 ∧ ∃ d, d ∈ old ∧ GetId d = GetId dc ∧ same Hash d dc = Ok false).
Proof.
  intros ([c1 dcs1] & H1 & ([c2 dcs2] & H2 & Hd)%bind_Ok)%bind_Ok. cbn [fst snd] in H2, Hd.
  exists c1, dcs1, c2, dcs2. split; [done|]. split; [done|]. intros old. fold old in Hd.
  by apply diff_exact.
Qed.

(** Two files: the second drops a store and adds another. *)
Definition diff_parse (t1 t2 : Topology_) (data : string) : option Topology_ :=
  if decide (data = "old") then Some t1 else if decide (data = "new") then Some t2 else None.
Definition sample_diff (t1 t2 : Topology_) : res error (list TopologyDiff) :=
  DiffTopology (H := canonical_order) (λ _, Some 7%Z) 20 sample_uuid sample_uuid
    (diff_parse t1 t2) "old" "new" sample_ctx.

Lemma DiffTopology_exact_witness :
  let diffs := res_get [] (sample_diff (store_topology "h1" "h2" "" 1 1) (store_topology "h1" "h2" "s" 1 1)) in
  (λ d, (d.1, GetId d.2)) <$> diffs
  = [(DIFF_DELETE, "store_h1_0_0"); (DIFF_DELETE, "store_h2_1_0");
     (DIFF_ADD, "store_h1_s_0"); (DIFF_ADD, "store_h2_s_0")] ∧
  ∃ dcs1 dcs2 : list DeployConfig, ∀ dc, (DIFF_DELETE, dc) ∈ diffs →
    dc ∈ dcs1 ∧ ∀ d, d ∈ dcs2 → GetId d ≠ GetId dc.
Proof.
  intros diffs. split; [vm_compute; reflexivity|].
  destruct (DiffTopology_exact canonical_order 20 sample_uuid sample_uuid
              (diff_parse (store_topology "h1" "h2" "" 1 1) (store_topology "h1" "h2" "s" 1 1))
              (λ _, Some 7%Z) "old" "new" sample_ctx diffs)
    as (c1 & dcs1 & c2 & dcs2 & _ & _ & Hdel & _).
  { apply res_get_Ok. vm_compute. reflexivity. }
  exists ((λ dc, set_ctx dc c2) <$> dcs1), dcs2. exact Hdel.
Defined.

(** [hashstructure] skips unexported fields, and [DeployConfig] has no others: all
    its values hash alike.  Then no change of a service's configuration is ever
    reported. *)
Theorem DiffTopology_reports_no_change (o : MapOrder) (stack : nat)
    (uuid1 uuid2 : nat → string) (parse : string → option Topology_)
    (Hash : DeployConfig → option Z) (data1 data2 : string) (c : option Context)
    (diffs : list TopologyDiff) :
  (∀ dc dc', Hash dc = Hash dc') →
  DiffTopology Hash stack uuid1 uuid2 parse data1 data2 c = Ok diffs →
  ∀ dc, (DIFF_CHANGE, dc) ∉ diffs.
Proof.
  intros Hh (p1 & _ & (p2 & _ & Hd)%bind_Ok)%bind_Ok dc Hin.
  apply (diff_ids_elem GetId Hash _ _ _ _ _ Hd) in Hin as (k & _ & dc1 & _ & Hs).
  unfold same, hash in Hs. rewrite (Hh dc1 dc) in Hs.
  destruct (Hash dc); [|done]. injection Hs as Hs. by apply bool_decide_eq_false in Hs.
Qed.

(** The log directory of every service changes. *)
Definition relogged (t : Topology_) : Topology_ :=
  mkTopology (Kind t) (Some {["log_dir" := VString "/elsewhere"]}) (EtcdServices t)
    (MdsServices t) (MetaserverServices t) (ChunkserverServices t) (SnapshotcloneServices t)
    (MdsV2Services t) (CoordinatorServices t) (StoreServices t) (DocumentServices t)
    (IndexServices t) (DiskannServices t) (ExecutorServices t) (WebServices t) (ProxyServices t).

Lemma DiffTopology_reports_no_change_witness :
  let t := store_topology "h1" "h2" "" 1 1 in
  is_Ok (sample_diff t (relogged t)) = true ∧
  (GetLogDir <$> sample_dcs t) ≠ (GetLogDir <$> sample_dcs (relogged t)) ∧
  ∀ dc, (DIFF_CHANGE, dc) ∉ res_get [] (sample_diff t (relogged t)).
Proof.
  intros t. split; [vm_compute; reflexivity|]. split; [vm_compute; discriminate|].
  apply (DiffTopology_reports_no_change canonical_order 20 sample_uuid sample_uuid
           (diff_parse t (relogged t)) (λ _, Some 7%Z) "old" "new" sample_ctx); [done|].
  apply res_get_Ok. vm_compute. reflexivity.
Defined.
