(* ===== verification/ItemSet.v ===== *)
(** Typed configuration items (src/internal/configure/common/item_set.go).

    An [ItemSet] checks a value against the type its item requires and returns the
    converted value.  A default is a constant or a function of the configuration,
    whose type is the parameter [C]. *)

From S2P Require Import Prelude Errno GoLib Utils.

Inductive Require_ : Type :=
| REQUIRE_ANY | REQUIRE_STRING | REQUIRE_BOOL | REQUIRE_INT
| REQUIRE_POSITIVE_INTEGER | REQUIRE_MAP.

#[export] Instance Require_eq_dec : EqDecision Require_.
Proof. solve_decision. Defined.

Section itemset.
Context {C : Type}.

Inductive ItemDefault : Type :=
| ConstDefault (v : val)
| FuncDefault (f : C → val).

Record Item : Type := mkItem {
  key : string;
  require : Require_;
  exclude : bool;
  defaultValue : ItemDefault;
}.

Record ItemSet : Type := mkItemSet {
  items : list Item;
  key2item : gmap string Item;
}.

Definition NewItemSet : ItemSet := {| items := []; key2item := ∅ |}.

Definition Insert (s : ItemSet) (i : Item) : ItemSet :=
  {| items := items s ++ [i]; key2item := <[key i := i]> (key2item s) |}.

Definition Get (s : ItemSet) (k : string) : option Item := key2item s !! k.
Definition GetAll (s : ItemSet) : list Item := items s.

Definition Build (s : ItemSet) (k : string) (value : val) : res error val :=
  match Get s k with
  | None => Ok value
  | Some item =>
      if decide (require item = REQUIRE_MAP) then Ok VNil else
      match All2Str value with
      | None => Err (ECode ERR_UNSUPPORT_CONFIGURE_VALUE_TYPE)
      | Some v =>
          match require item with
          | REQUIRE_STRING =>
              if decide (v = "") then Err (ECode ERR_CONFIGURE_VALUE_REQUIRES_NON_EMPTY_STRING)
              else Ok (VString v)
          | REQUIRE_INT =>
              match Str2Int v with
              | None => Err (ECode ERR_CONFIGURE_VALUE_REQUIRES_INTEGER)
              | Some z => Ok (VInt z)
              end
          | REQUIRE_POSITIVE_INTEGER =>
              match Str2Int v with
              | None => Err (ECode ERR_CONFIGURE_VALUE_REQUIRES_INTEGER)
              | Some z =>
                  if (z <=? 0)%Z then Err (ECode ERR_CONFIGURE_VALUE_REQUIRES_POSITIVE_INTEGER)
                  else Ok (VInt z)
              end
          | REQUIRE_BOOL =>
              match Str2Bool v with
              | None => Err (ECode ERR_CONFIGURE_VALUE_REQUIRES_BOOL)
              | Some b => Ok (VBool b)
              end
          | REQUIRE_ANY | REQUIRE_MAP => Ok value
          end
      end
  end.

(** A value of the type an item requires. *)
Definition typed_as (r : Require_) (v : val) : Prop :=
  match r with
  | REQUIRE_STRING => ∃ s, v = VString s ∧ s ≠ ""
  | REQUIRE_INT => ∃ z, v = VInt z ∧ in_int64 z
  | REQUIRE_POSITIVE_INTEGER => ∃ z, v = VInt z ∧ (0 < z ≤ MaxInt64)%Z
  | REQUIRE_BOOL => ∃ b, v = VBool b
  | REQUIRE_MAP => v = VNil
  | REQUIRE_ANY => is_Some (All2Str v)
  end.

Lemma Build_typed s k value v item :
  Get s k = Some item → Build s k value = Ok v → typed_as (require item) v.
Proof.
  intros Hk. unfold Build. rewrite Hk. case_decide as Hm; [intros [= <-]; by rewrite Hm|].
  destruct (All2Str value) as [w|] eqn:Hw; [|done].
  destruct (require item); simpl; try done.
  - intros [= <-]. eauto.
  - case_decide; [done|]. intros [= <-]. eauto.
  - destruct (Str2Bool w); [|done]. intros [= <-]. eauto.
  - destruct (Str2Int w) as [z|] eqn:Hz; [|done]. intros [= <-]. exists z. split; [done|].
    by eapply Atoi_in_range.
  - destruct (Str2Int w) as [z|] eqn:Hz; [|done]. destruct (z <=? 0)%Z eqn:Hle; [done|].
    intros [= <-]. exists z. split; [done|]. apply Atoi_in_range in Hz as [_ ?]. lia.
Qed.

(** A typed value is accepted and returned as it is. *)
Lemma Build_typed_id s k v item :
  Get s k = Some item → typed_as (require item) v → Build s k v = Ok v.
Proof.
  intros Hk. unfold Build. rewrite Hk. case_decide as Hm; [rewrite Hm; by intros ->|].
  destruct (require item) eqn:Hr; simpl; [..|done].
  - intros [w ->]. done.
  - intros (w & -> & Hw). rewrite All2Str_VString. by case_decide.
  - intros [b ->]. by destruct b.
  - intros (z & -> & Hz). change (All2Str (VInt z)) with (Some (Itoa z)). simpl.
    unfold Str2Int. rewrite Atoi_Itoa. by apply in_int64b_spec in Hz as ->.
  - intros (z & -> & Hz). change (All2Str (VInt z)) with (Some (Itoa z)). simpl.
    unfold Str2Int. rewrite Atoi_Itoa.
    assert (in_int64b z = true) as ->.
    { apply in_int64b_spec. unfold in_int64, MinInt64 in *. lia. }
    destruct (z <=? 0)%Z eqn:E; [lia|done].
Qed.
End itemset.

Arguments ItemDefault : clear implicits.
Arguments Item : clear implicits.
Arguments ItemSet : clear implicits.

(** Checking a value against its item: a returned value has the required type (a
    non-empty string, a 64-bit integer, a positive one, a boolean), and checking a
    returned value again accepts it unchanged. *)
Theorem ItemSet_Build_roundtrip {C : Type} (s : ItemSet C) (k : string) (value v : val)
    (item : Item C) :
  Get s k = Some item → Build s k value = Ok v →
  typed_as (require item) v ∧ Build s k v = Ok v.
Proof.
  intros Hk Hb. pose proof (Build_typed s k value v item Hk Hb). eauto using Build_typed_id.
Qed.

Lemma ItemSet_Build_roundtrip_witness :
  let port := mkItem (C := unit) "port" REQUIRE_POSITIVE_INTEGER false (ConstDefault (VInt 22)) in
  Build (Insert NewItemSet port) "port" (VString "0022") = Ok (VInt 22) ∧
  Build (Insert NewItemSet port) "port" (VInt 22) = Ok (VInt 22).
Proof.
  intros port. split; [vm_compute; reflexivity|].
  apply (ItemSet_Build_roundtrip (Insert NewItemSet port) "port" (VString "0022") (VInt 22) port);
    vm_compute; reflexivity.
Defined.
