(* ===== verification/Hosts.v ===== *)
(** Hosts (src/internal/configure/hosts: hosts.go, hc_get.go, hc_item.go).

    [ParseHosts] turns the hosts file into checked host configurations; [Filter]
    selects hosts by label patterns.  The YAML reader is the parameter [parse]; what
    the program asks the operating system is the record [OS]. *)

From S2P Require Import Prelude Errno GoLib Utils ItemSet.
From Stdlib Require Import Ascii.

(** The current user, the home directory and the permissions of a file ([None] when
    there is none). *)
Record OS : Type := mkOS {
  GetCurrentUser : string;
  GetCurrentHomeDir : string;
  file_mode : string → option Z;
}.

Definition KEY_LABELS : string := "labels".
Definition KEY_ENVS : string := "envs".
Definition PERMISSIONS_600 : Z := 384.
Definition MAX_PORT : Z := 65535.
Definition GetMaxPortNum : Z := MAX_PORT.
Definition DEFAULT_SSH_PORT : Z := 22.

Record HostConfig : Type := mkHostConfig {
  sequence : nat;
  config : gmap string val;
  labels : list string;
  envs : list string;
}.

(** The decoded file: nil maps are [None]. *)
Record Hosts_ : Type := mkHosts {
  h_Global : option (gmap string val);
  h_Host : list (option (gmap string val));
}.

Definition set_hc_config (hc : HostConfig) (c : gmap string val) : HostConfig :=
  mkHostConfig (sequence hc) c (labels hc) (envs hc).
Definition set_labels (hc : HostConfig) (l : list string) : HostConfig :=
  mkHostConfig (sequence hc) (config hc) l (envs hc).
Definition set_envs (hc : HostConfig) (l : list string) : HostConfig :=
  mkHostConfig (sequence hc) (config hc) (labels hc) l.

Section hosts.
Context (os : OS).

(** ** Items *)

Definition CONFIG_HOST : Item HostConfig :=
  mkItem "host" REQUIRE_STRING false (ConstDefault VNil).
Definition CONFIG_HOSTNAME : Item HostConfig :=
  mkItem "hostname" REQUIRE_STRING false (ConstDefault VNil).
Definition CONFIG_SSH_HOSTNAME : Item HostConfig :=
  mkItem "ssh_hostname" REQUIRE_STRING false (ConstDefault VNil).
Definition CONFIG_USER : Item HostConfig :=
  mkItem "user" REQUIRE_STRING false (FuncDefault (λ _, VString (GetCurrentUser os))).
Definition CONFIG_SSH_PORT : Item HostConfig :=
  mkItem "ssh_port" REQUIRE_POSITIVE_INTEGER false (ConstDefault (VInt DEFAULT_SSH_PORT)).
Definition CONFIG_PRIVATE_CONFIG_FILE : Item HostConfig :=
  mkItem "private_key_file" REQUIRE_STRING false
    (FuncDefault (λ _, VString (GetCurrentHomeDir os +:+ "/.ssh/id_rsa"))).
Definition CONFIG_FORWARD_AGENT : Item HostConfig :=
  mkItem "forward_agent" REQUIRE_BOOL false (ConstDefault (VBool false)).
Definition CONFIG_BECOME_USER : Item HostConfig :=
  mkItem "become_user" REQUIRE_STRING false (ConstDefault VNil).

Definition itemset : ItemSet HostConfig :=
  foldl Insert NewItemSet
    [CONFIG_HOST; CONFIG_HOSTNAME; CONFIG_SSH_HOSTNAME; CONFIG_USER; CONFIG_SSH_PORT;
     CONFIG_PRIVATE_CONFIG_FILE; CONFIG_FORWARD_AGENT; CONFIG_BECOME_USER].

(** ** Getters *)

Definition hc_get (hc : HostConfig) (i : Item HostConfig) : val :=
  match config hc !! key i with
  | Some v => v
  | None => match defaultValue i with ConstDefault v => v | FuncDefault f => f hc end
  end.

Definition hc_getString (hc : HostConfig) (i : Item HostConfig) : res error string :=
  let v := hc_get hc i in if is_nil v then Ok "" else assert_string v.
Definition hc_getInt (hc : HostConfig) (i : Item HostConfig) : res error Z :=
  let v := hc_get hc i in if is_nil v then Ok 0%Z else assert_int v.
Definition hc_getBool (hc : HostConfig) (i : Item HostConfig) : res error bool :=
  let v := hc_get hc i in if is_nil v then Ok false else assert_bool v.

Definition GetHost (hc : HostConfig) : res error string := hc_getString hc CONFIG_HOST.
Definition GetHostname (hc : HostConfig) : res error string := hc_getString hc CONFIG_HOSTNAME.
Definition GetSSHHostname (hc : HostConfig) : res error string :=
  hc_getString hc CONFIG_SSH_HOSTNAME.
Definition GetSSHPort (hc : HostConfig) : res error Z := hc_getInt hc CONFIG_SSH_PORT.
Definition GetPrivateKeyFile (hc : HostConfig) : res error string :=
  hc_getString hc CONFIG_PRIVATE_CONFIG_FILE.
Definition GetForwardAgent (hc : HostConfig) : res error bool := hc_getBool hc CONFIG_FORWARD_AGENT.
Definition GetBecomeUser (hc : HostConfig) : res error string := hc_getString hc CONFIG_BECOME_USER.
Definition GetEnvs (hc : HostConfig) : list string := envs hc.

Definition GetLabels (hc : HostConfig) : res error (list string) :=
  match labels hc with
  | [] => h ← GetHost hc; Ok [h]
  | l => Ok l
  end.

Definition GetUser (hc : HostConfig) : res error string :=
  user ← hc_getString hc CONFIG_USER;
  if decide (user = "${user}") then Ok (GetCurrentUser os) else Ok user.

(** The connection data; the time-outs come from the tool's own configuration. *)
Record SSHConfig : Type := mkSSHConfig {
  ssh_User : string; ssh_Host : string; ssh_Port : Z; ssh_PrivateKeyPath : string;
  ssh_ForwardAgent : bool; ssh_BecomeMethod : string; ssh_BecomeFlags : string;
  ssh_BecomeUser : string; ssh_ConnectTimeoutSec : Z; ssh_ConnectRetries : Z }.

Definition GetSSHConfig (timeout retries : Z) (hc : HostConfig) : res error SSHConfig :=
  h ← GetSSHHostname hc;
  hn ← (if decide (h = "") then GetHostname hc else Ok h);
  user ← GetUser hc;
  port ← GetSSHPort hc;
  pkf ← GetPrivateKeyFile hc;
  fa ← GetForwardAgent hc;
  bu ← GetBecomeUser hc;
  Ok (mkSSHConfig user hn (wrapu64 port) pkf fa "sudo" "-iu" bu timeout retries).

(** ** Build *)

Definition newIfNil (c : option (gmap string val)) : gmap string val := default ∅ c.

Definition merge_step (child : gmap string val) (kv : string * val) : gmap string val :=
  let '(k, v) := kv in if is_nil (map_get child k) then <[k := v]> child else child.

(** The loop shared by [convertLables] and [convertEnvs]. *)
Definition convert_slice (value : val) (acc : list string) : res error (list string) :=
  match value with
  | VSlice slice =>
      fold_res (λ acc v, match All2Str v with
                         | Some s => Ok (acc ++ [s])
                         | None => Err (ECode ERR_CONFIGURE_VALUE_REQUIRES_STRING_SLICE)
                         end) slice acc
  | _ => Err (ECode ERR_CONFIGURE_VALUE_REQUIRES_STRING_SLICE)
  end.

Definition convertLables (hc : HostConfig) : res error HostConfig :=
  l ← convert_slice (map_get (config hc) KEY_LABELS) (labels hc); Ok (set_labels hc l).
Definition convertEnvs (hc : HostConfig) : res error HostConfig :=
  l ← convert_slice (map_get (config hc) KEY_ENVS) (envs hc); Ok (set_envs hc l).

Definition build_step (hc : HostConfig) (kv : string * val) : res error HostConfig :=
  let '(key, value) := kv in
  if decide (key = KEY_LABELS) then
    hc ← convertLables hc; Ok (set_hc_config hc (<[key := VNil]> (config hc)))
  else if decide (key = KEY_ENVS) then
    hc ← convertEnvs hc; Ok (set_hc_config hc (<[key := VNil]> (config hc)))
  else
    match Get itemset key with
    | None => Err (ECode ERR_UNSUPPORT_HOSTS_CONFIGURE_ITEM)
    | Some _ =>
        v ← Build itemset key value;
        Ok (set_hc_config hc (<[key := v]> (config hc)))
    end.

(** The checks after the loop. *)
Definition check_host (hc : HostConfig) : res error unit :=
  privateKeyFile ← GetPrivateKeyFile hc;
  host ← GetHost hc;
  hostname ← GetHostname hc;
  port ← GetSSHPort hc;
  if decide (host = "") then Err (ECode ERR_HOST_FIELD_MISSING)
  else if decide (hostname = "") then Err (ECode ERR_HOSTNAME_FIELD_MISSING)
  else if negb (IsValidAddress hostname) then Err (ECode ERR_HOSTNAME_REQUIRES_VALID_IP_ADDRESS)
  else if (GetMaxPortNum <? port)%Z then Err (ECode ERR_HOSTS_SSH_PORT_EXCEED_MAX_PORT_NUMBER)
  else if negb (HasPrefix privateKeyFile "/") then
    Err (ECode ERR_PRIVATE_KEY_FILE_REQUIRE_ABSOLUTE_PATH)
  else
    agent ← GetForwardAgent hc;
    if (agent : bool) then Ok tt else
    match file_mode os privateKeyFile with
    | None => Err (ECode ERR_PRIVATE_KEY_FILE_NOT_EXIST)
    | Some mode =>
        if decide (mode = PERMISSIONS_600) then Ok tt
        else Err (ECode ERR_PRIVATE_KEY_FILE_REQUIRE_600_PERMISSIONS)
    end.

Context `{MapOrder}.

Definition merge (parent child : gmap string val) : gmap string val :=
  foldl merge_step child (range parent).

Definition hc_Build (hc : HostConfig) : res error HostConfig :=
  hc ← fold_res build_step (range (config hc)) hc;
  _ ← check_host hc;
  Ok hc.

Definition NewHostConfig (sequence : nat) (config : gmap string val) : HostConfig :=
  mkHostConfig sequence config [] [].

(** ** Parsing and selection *)

Definition parse_step (global : option (gmap string val))
    (st : list HostConfig * gmap string bool) (ih : nat * option (gmap string val))
    : res error (list HostConfig * gmap string bool) :=
  let '(hcs, seen) := st in
  let '(i, host) := ih in
  hc ← hc_Build (NewHostConfig i (merge (newIfNil global) (newIfNil host)));
  h ← GetHost hc;
  match seen !! h with
  | Some _ => Err (ECode ERR_DUPLICATE_HOST)
  | None => Ok (hcs ++ [hc], <[h := true]> seen)
  end.

Definition ParseHosts (parse : string → option Hosts_) (data : string)
    : res error (list HostConfig) :=
  if decide (data = "") then Err (ECode ERR_EMPTY_HOSTS) else
  match parse data with
  | None => Err (ECode ERR_PARSE_HOSTS_FAILED)
  | Some hosts =>
      st ← fold_res (parse_step (h_Global hosts)) (imap pair (h_Host hosts)) ([], ∅);
      Ok st.1
  end.

Definition excludeOne (hc : HostConfig) (exclude : gmap string bool) : res error bool :=
  if decide (exclude = ∅) then Ok false
  else ls ← GetLabels hc; Ok (existsb (λ l, in_map exclude l) ls).

Definition includeOne (hc : HostConfig) (include : gmap string bool) : res error bool :=
  if decide (include = ∅) then Ok true
  else ls ← GetLabels hc; Ok (existsb (λ l, in_map include l) ls).

Definition intersectOne (hc : HostConfig) (intersect : gmap string bool) : res error bool :=
  if decide (intersect = ∅) then Ok true
  else
    ls ← GetLabels hc;
    let found := foldl (λ (found : gmap string bool) l,
                   if in_map intersect l then <[l := true]> found else found) ∅ ls in
    Ok (bool_decide (size found = size intersect)).

Definition pattern_step (m : gmap string bool * gmap string bool * gmap string bool)
    (label : string) : gmap string bool * gmap string bool * gmap string bool :=
  let '(include, exclude, intersect) := m in
  match label with
  | EmptyString => m
  | String "!" l => (include, <[l := true]> exclude, intersect)
  | String "&" l => (include, exclude, <[l := true]> intersect)
  | _ => (<[label := true]> include, exclude, intersect)
  end.

Definition parsePattern (labels : list string)
    : gmap string bool * gmap string bool * gmap string bool :=
  foldl pattern_step (∅, ∅, ∅) labels.

Definition filter_step (include exclude intersect : gmap string bool)
    (out : list HostConfig) (hc : HostConfig) : res error (list HostConfig) :=
  ex ← excludeOne hc exclude;
  if (ex : bool) then Ok out else
  inc ← includeOne hc include;
  if negb inc then Ok out else
  its ← intersectOne hc intersect;
  if negb its then Ok out else Ok (out ++ [hc]).

Definition Filter (parse : string → option Hosts_) (data : string) (labels : list string)
    : res error (list HostConfig) :=
  hcs ← ParseHosts parse data;
  match labels with
  | [] => Ok hcs
  | _ =>
      let '(include, exclude, intersect) := parsePattern labels in
      fold_res (filter_step include exclude intersect) hcs []
  end.
End hosts.
