(* ===== verification/HostsFacts.v ===== *)
(** Properties of the hosts file (src/internal/configure/hosts): what an accepted
    host satisfies, and which hosts a label pattern selects. *)

From S2P Require Import Prelude Errno GoLib Utils ItemSet Hosts.
From Stdlib Require Import Ascii.

(** ** Build *)

(** Every entry is a section that was read, or a value of its item's type. *)
Definition hc_typed (os : OS) (hc : HostConfig) : Prop :=
  ∀ k v, config hc !! k = Some v →
    k = KEY_LABELS ∨ k = KEY_ENVS ∨
    ∃ item, Get (itemset os) k = Some item ∧ typed_as (require item) v.

Section facts.
Context (os : OS) `{MapOrder}.

Lemma build_step_Ok hc k v hc' :
  build_step os hc (k, v) = Ok hc' →
  ∃ w, config hc' = <[k := w]> (config hc) ∧
    (k = KEY_LABELS ∨ k = KEY_ENVS ∨
     ∃ item, Get (itemset os) k = Some item ∧ typed_as (require item) w).
Proof.
  unfold build_step. case_decide as Hl.
  { intros (h & (l & _ & [= <-])%bind_Ok & [= <-])%bind_Ok. eauto. }
  case_decide as He.
  { intros (h & (l & _ & [= <-])%bind_Ok & [= <-])%bind_Ok. eauto. }
  destruct (Get (itemset os) k) as [item|] eqn:Hk; [|done].
  intros (w & Hw & [= <-])%bind_Ok. exists w. split; [done|]. right; right.
  exists item. split; [done|]. by eapply Build_typed.
Qed.

Lemma build_loop_typed hc hc' :
  fold_res (build_step os) (range (config hc)) hc = Ok hc' → hc_typed os hc'.
Proof.
  set (c := config hc). intros Hf.
  assert (∀ k v, config hc' !! k = Some v →
    (k ∈ (range c).*1 → k = KEY_LABELS ∨ k = KEY_ENVS ∨
       ∃ item, Get (itemset os) k = Some item ∧ typed_as (require item) v) ∧
    (k ∉ (range c).*1 → c !! k = Some v)) as Hinv.
  { revert Hf. apply (fold_res_ind (λ (pre : list (string * val)) hc', ∀ k v, config hc' !! k = Some v →
      (k ∈ pre.*1 → k = KEY_LABELS ∨ k = KEY_ENVS ∨
         ∃ item, Get (itemset os) k = Some item ∧ typed_as (require item) v) ∧
      (k ∉ pre.*1 → c !! k = Some v))).
    - intros k v Hk. split; [by intros ?%elem_of_nil|done].
    - intros pre [key value] h1 h2 Hpre Hst.
      destruct (build_step_Ok _ _ _ _ Hst) as (w & Hc & Hok). intros k v.
      rewrite Hc, fmap_app. simpl. destruct (decide (k = key)) as [->|Hne].
      + rewrite lookup_insert_eq. intros [= <-]. split; [done|].
        intros Hni. exfalso. apply Hni, elem_of_app. right. by left.
      + rewrite lookup_insert_ne by done. intros Hk. destruct (Hpre k v Hk) as [H1 H2].
        rewrite elem_of_app, list_elem_of_singleton. naive_solver. }
  intros k v Hk. destruct (Hinv k v Hk) as [H1 H2].
  destruct (decide (k ∈ (range c).*1)) as [?|Hni]; [by apply H1|].
  exfalso. apply Hni. specialize (H2 Hni). apply list_elem_of_fmap. exists (k, v).
  split; [done|]. by apply elem_of_range.
Qed.

(** The getters of a typed host never panic. *)
Lemma hc_typed_at hc i :
  hc_typed os hc → key i ≠ KEY_LABELS → key i ≠ KEY_ENVS → Get (itemset os) (key i) = Some i →
  ∀ v, config hc !! key i = Some v → typed_as (require i) v.
Proof.
  intros Ht Hn1 Hn2 Hi v Hv. destruct (Ht _ _ Hv) as [?|[?|(j & Hj & ?)]]; [done..|].
  congruence.
Qed.

Lemma hc_getString_Ok hc i :
  hc_typed os hc → key i ≠ KEY_LABELS → key i ≠ KEY_ENVS → Get (itemset os) (key i) = Some i →
  require i = REQUIRE_STRING →
  (config hc !! key i = None →
     match defaultValue i with
     | ConstDefault v => v = VNil ∨ ∃ s, v = VString s
     | FuncDefault f => ∃ s, f hc = VString s
     end) → ∃ s, hc_getString hc i = Ok s.
Proof.
  intros Ht Hn1 Hn2 Hi Hr Hd. unfold hc_getString, hc_get.
  destruct (config hc !! key i) as [v|] eqn:Hv.
  - pose proof (hc_typed_at hc i Ht Hn1 Hn2 Hi v Hv) as Hty. rewrite Hr in Hty.
    destruct Hty as (s & -> & _). simpl. eauto.
  - specialize (Hd eq_refl). destruct (defaultValue i); [destruct Hd as [->|[s ->]]|destruct Hd as [s ->]];
      simpl; eauto.
Qed.

Ltac host_item := first [discriminate | reflexivity | intros _; simpl; eauto].

Lemma GetHost_total hc : hc_typed os hc → ∃ s, GetHost hc = Ok s.
Proof. intros Ht. apply hc_getString_Ok; [done|host_item..]. Qed.
Lemma GetLabels_total hc : hc_typed os hc → ∃ ls, GetLabels hc = Ok ls ∧ ls ≠ [].
Proof.
  intros Ht. unfold GetLabels. destruct (labels hc) as [|l ls]; [|eauto].
  destruct (GetHost_total hc Ht) as [s ->]. simpl. eauto.
Qed.

(** What an accepted host satisfies. *)
Record valid_host (hc : HostConfig) : Prop := {
  vh_typed : hc_typed os hc;
  vh_host : ∃ h, GetHost hc = Ok h ∧ h ≠ "";
  vh_hostname : ∃ hn, GetHostname hc = Ok hn ∧ IsValidAddress hn = true;
  vh_port : ∃ p, GetSSHPort hc = Ok p ∧ (0 < p ≤ MAX_PORT)%Z;
  vh_key : ∃ f agent, GetPrivateKeyFile os hc = Ok f ∧ HasPrefix f "/" = true ∧
             GetForwardAgent hc = Ok agent ∧
             (agent = false → file_mode os f = Some PERMISSIONS_600);
}.

Lemma GetSSHPort_pos hc p : hc_typed os hc → GetSSHPort hc = Ok p → (0 < p)%Z.
Proof.
  intros Ht. unfold GetSSHPort, hc_getInt, hc_get.
  destruct (config hc !! key CONFIG_SSH_PORT) as [v|] eqn:Hv.
  - assert (typed_as REQUIRE_POSITIVE_INTEGER v) as (z & -> & ?).
    { eapply (hc_typed_at hc CONFIG_SSH_PORT); try done; discriminate. }
    simpl. intros [= <-]. lia.
  - simpl. intros [= <-]. unfold DEFAULT_SSH_PORT. lia.
Qed.

Lemma hc_Build_valid hc hc' : hc_Build os hc = Ok hc' → valid_host hc'.
Proof.
  intros (h1 & Hl & ([] & Hc & [= <-])%bind_Ok)%bind_Ok.
  pose proof (build_loop_typed _ _ Hl) as Ht. unfold check_host in Hc.
  apply bind_Ok in Hc as (f & Hf & (h & Hh & (hn & Hhn & (p & Hp & Hc)%bind_Ok)%bind_Ok)%bind_Ok).
  case_decide as H1; [done|]. case_decide as H2; [done|].
  destruct (IsValidAddress hn) eqn:H3; simpl in Hc; [|done].
  destruct (GetMaxPortNum <? p)%Z eqn:H4; [done|].
  destruct (HasPrefix f "/") eqn:H5; simpl in Hc; [|done].
  apply bind_Ok in Hc as (agent & Ha & Hc).
  split; [done|eauto..| |].
  - exists p. split; [done|]. pose proof (GetSSHPort_pos _ _ Ht Hp).
    apply Z.ltb_ge in H4. unfold GetMaxPortNum in H4. lia.
  - exists f, agent. split_and!; try done. intros ->.
    destruct (file_mode os f) as [m|]; [|done]. case_decide; congruence.
Qed.

(** ** Parsing *)

Lemma parse_step_Ok g hcs seen i host hcs' seen' :
  parse_step os g (hcs, seen) (i, host) = Ok (hcs', seen') →
  ∃ hc h, hcs' = hcs ++ [hc] ∧ valid_host hc ∧ GetHost hc = Ok h ∧ seen !! h = None ∧
    seen' = <[h := true]> seen.
Proof.
  intros (hc & Hb & (h & Hh & Hs)%bind_Ok)%bind_Ok. destruct (seen !! h) eqn:E; [done|].
  injection Hs as <- <-. exists hc, h. split_and!; try done. by eapply hc_Build_valid.
Qed.

Lemma ParseHosts_Ok parse data hcs :
  ParseHosts os parse data = Ok hcs →
  ∃ hosts hs, parse data = Some hosts ∧ length hcs = length (h_Host hosts) ∧
    Forall valid_host hcs ∧ GetHost <$> hcs = Ok <$> hs ∧ NoDup hs.
Proof.
  unfold ParseHosts. case_decide; [done|]. destruct (parse data) as [hosts|]; [|done].
  intros ([out seen] & Hf & [= <-])%bind_Ok. simpl. exists hosts.
  assert (∃ hs, length out = length (imap pair (h_Host hosts)) ∧ Forall valid_host out ∧
            GetHost <$> out = Ok <$> hs ∧ NoDup hs ∧ ∀ h, is_Some (seen !! h) ↔ h ∈ hs)
    as (hs & Hl & Hv & Hg & Hnd & _).
  { revert Hf. apply (fold_res_ind (λ pre (st : list HostConfig * gmap string bool),
      ∃ hs, length st.1 = length pre ∧ Forall valid_host st.1 ∧ GetHost <$> st.1 = Ok <$> hs ∧
        NoDup hs ∧ ∀ h, is_Some (st.2 !! h) ↔ h ∈ hs)).
    - exists []. split_and!; [done..|apply NoDup_nil_2|]. intros h. simpl. rewrite lookup_empty.
      split; [by intros [? ?]|by intros ?%elem_of_nil].
    - intros pre [i host] [l s] [l' s'] (hs & Hl & Hv & Hg & Hnd & Hseen) Hst.
      destruct (parse_step_Ok _ _ _ _ _ _ _ Hst) as (hc & h & -> & Hvh & Hh & Hno & ->).
      exists (hs ++ [h]). simpl in *. split_and!.
      + rewrite !length_app. simpl. lia.
      + apply Forall_app. split; [done|]. by apply Forall_singleton.
      + rewrite !fmap_app, Hg. simpl. by rewrite Hh.
      + apply NoDup_app. split_and!; [done| |apply NoDup_singleton].
        intros x Hx Hx'%list_elem_of_singleton. subst. apply Hseen in Hx as [? Hx]. congruence.
      + intros k. rewrite elem_of_app, list_elem_of_singleton. destruct (decide (k = h)) as [->|Hne].
        * rewrite lookup_insert_eq. split; [by right|eauto].
        * rewrite lookup_insert_ne by done. rewrite Hseen. split; [by left|by intros [?|?]]. }
  exists hs. rewrite length_imap in Hl. done.
Qed.
End facts.

(** C18: an accepted hosts file gives one configuration per host entry, no two with the
    same host; each has a non-empty host, a host name with the shape of an address,
    a port between 1 and 65535 and an absolute private key file, which exists with
    mode 600 unless the agent is forwarded; every value has the type of its item. *)
Theorem ParseHosts_valid (os : OS) (o : MapOrder) (parse : string → option Hosts_)
    (data : string) (hcs : list HostConfig) :
  ParseHosts os parse data = Ok hcs →
  ∃ hosts hs, parse data = Some hosts ∧ length hcs = length (h_Host hosts) ∧
    Forall (valid_host os) hcs ∧ GetHost <$> hcs = Ok <$> hs ∧ NoDup hs.
Proof. apply ParseHosts_Ok. Qed.

(** Two hosts; the second has labels. *)
Definition sample_os : OS := mkOS "dingo" "/home/dingo" (λ _, Some PERMISSIONS_600).
Definition sample_hosts : Hosts_ := {|
  h_Global := Some {["user" := VString "dingo"; "ssh_port" := VString "2222"]};
  h_Host := [
    Some {["host" := VString "h1"; "hostname" := VString "10.0.0.1"]};
    Some {["host" := VString "h2"; "hostname" := VString "10.0.0.2"; "ssh_port" := VInt 22;
           "labels" := VSlice [VString "mds"; VString "ssd"]]} ] |}.
Definition sample_hcs : list HostConfig :=
  res_get [] (ParseHosts (H := canonical_order) sample_os (λ _, Some sample_hosts) "hosts").

Lemma ParseHosts_valid_witness :
  (GetSSHPort <$> sample_hcs) = [Ok 2222%Z; Ok 22%Z] ∧ Forall (valid_host sample_os) sample_hcs.
Proof.
  split; [vm_compute; reflexivity|].
  destruct (ParseHosts_valid sample_os canonical_order (λ _, Some sample_hosts) "hosts" sample_hcs)
    as (hosts & hs & _ & _ & Hv & _); [|exact Hv].
  apply res_get_Ok. vm_compute. reflexivity.
Defined.

(** ** Selection by labels *)

(** A pattern that is a label. *)
Definition plain (p : string) : Prop :=
  p ≠ "" ∧ HasPrefix p "!" = false ∧ HasPrefix p "&" = false.

(** What a list of patterns asks of a host with labels [ls]: none of the excluded
    labels, one of the plain labels if there are any, all of the required ones. *)
Definition selected (patterns ls : list string) : Prop :=
  (∀ l, String "!"%char l ∈ patterns → l ∉ ls) ∧
  ((∃ p, p ∈ patterns ∧ plain p) → ∃ p, p ∈ patterns ∧ plain p ∧ p ∈ ls) ∧
  (∀ l, String "&"%char l ∈ patterns → l ∈ ls).

(** A set kept as a map to [true]. *)
Definition is_set (m : gmap string bool) (P : string → Prop) : Prop :=
  ∀ l, (P l → m !! l = Some true) ∧ (¬ P l → m !! l = None).

Lemma is_set_ext m (P Q : string → Prop) : (∀ l, P l ↔ Q l) → is_set m P → is_set m Q.
Proof. intros HPQ Hm l. specialize (Hm l). specialize (HPQ l). tauto. Qed.

Lemma is_set_insert m P l : is_set m P → is_set (<[l := true]> m) (λ x, x = l ∨ P x).
Proof.
  intros Hm x. destruct (decide (x = l)) as [->|Hne].
  - rewrite lookup_insert_eq. tauto.
  - rewrite lookup_insert_ne by done. specialize (Hm x). tauto.
Qed.

Lemma is_set_in m P l : is_set m P → (P l ∨ ¬ P l) → in_map m l = true ↔ P l.
Proof.
  intros Hm Hd. unfold in_map. destruct (Hm l) as [H1 H2]. destruct Hd as [Hl|Hl].
  - by rewrite H1.
  - rewrite H2 by done. done.
Qed.

Lemma is_set_empty m P : is_set m P → m = ∅ → ∀ l, ¬ P l.
Proof. intros Hm -> l Hl. destruct (Hm l) as [H1 _]. by rewrite lookup_empty in H1; specialize (H1 Hl). Qed.

Lemma pattern_cases p :
  p = "" ∨ (∃ l, p = String "!"%char l) ∨ (∃ l, p = String "&"%char l) ∨ plain p.
Proof.
  destruct p as [|a p]; [by left|right]. destruct (decide (a = "!"%char)) as [->|H1]; [eauto|].
  destruct (decide (a = "&"%char)) as [->|H2]; [eauto|]. right; right.
  split; [done|]. unfold HasPrefix. simpl. by rewrite !decide_False by congruence.
Qed.

Lemma pattern_step_plain m p :
  plain p → pattern_step m p = (<[p := true]> m.1.1, m.1.2, m.2).
Proof.
  intros (Hne & H1 & H2). destruct m as [[i e] t]. destruct p as [|a p]; [done|].
  unfold HasPrefix in H1, H2. simpl in H1, H2.
  destruct (decide ("!"%char = a)) as [<-|Ha]; [done|].
  destruct (decide ("&"%char = a)) as [<-|Hb]; [done|].
  unfold pattern_step. destruct a as [[] [] [] [] [] [] [] []]; try done;
    exfalso; (by apply Ha) || (by apply Hb).
Qed.

Lemma plain_not_special p l : plain p → p ≠ String "!"%char l ∧ p ≠ String "&"%char l.
Proof. intros (_ & H1 & H2). split; intros ->; [by cbn in H1|by cbn in H2]. Qed.

Lemma parsePattern_spec patterns :
  is_set (parsePattern patterns).1.1 (λ l, plain l ∧ l ∈ patterns) ∧
  is_set (parsePattern patterns).1.2 (λ l, String "!"%char l ∈ patterns) ∧
  is_set (parsePattern patterns).2 (λ l, String "&"%char l ∈ patterns).
Proof.
  unfold parsePattern. induction patterns as [|p ps IH] using rev_ind.
  { split_and!; intros l; simpl; rewrite lookup_empty; (split; [|done]);
      [intros [_ Hl]|intros Hl|intros Hl]; by apply elem_of_nil in Hl. }
  rewrite foldl_app. cbn [foldl].
  destruct (foldl pattern_step (∅, ∅, ∅) ps) as [[inc exc] its]. destruct IH as (Hi & He & Ht).
  simpl in Hi, He, Ht.
  assert (∀ x, x ∈ ps ++ [p] ↔ x = p ∨ x ∈ ps) as Happ.
  { intros x. rewrite elem_of_app, list_elem_of_singleton. tauto. }
  destruct (pattern_cases p) as [->|[[l ->]|[[l ->]|Hp]]].
  - simpl. split_and!; eapply is_set_ext; try eassumption; intros x; rewrite Happ;
      [unfold plain|..]; intuition congruence.
  - simpl. split_and!.
    + eapply is_set_ext; [|exact Hi]. intros x. rewrite Happ. split; [tauto|].
      intros [Hx [->|?]]; [|tauto]. by destruct (plain_not_special _ l Hx).
    + eapply is_set_ext; [|apply is_set_insert, He]. intros x. rewrite Happ. intuition congruence.
    + eapply is_set_ext; [|exact Ht]. intros x. rewrite Happ. intuition congruence.
  - simpl. split_and!.
    + eapply is_set_ext; [|exact Hi]. intros x. rewrite Happ. split; [tauto|].
      intros [Hx [->|?]]; [|tauto]. by destruct (plain_not_special _ l Hx).
    + eapply is_set_ext; [|exact He]. intros x. rewrite Happ. intuition congruence.
    + eapply is_set_ext; [|apply is_set_insert, Ht]. intros x. rewrite Happ. intuition congruence.
  - rewrite pattern_step_plain by done. simpl. split_and!.
    + eapply is_set_ext; [|apply is_set_insert, Hi]. intros x. simpl. rewrite Happ.
      split; [intros [->|?]; tauto|tauto].
    + eapply is_set_ext; [|exact He]. intros x. rewrite Happ.
      destruct (plain_not_special p x Hp). intuition congruence.
    + eapply is_set_ext; [|exact Ht]. intros x. rewrite Happ.
      destruct (plain_not_special p x Hp). intuition congruence.
Qed.

Section selection.
Context (os : OS) `{MapOrder} (hc : HostConfig) (ls : list string).
Context (Hls : GetLabels hc = Ok ls).

Lemma existsb_in m (P : string → Prop) :
  is_set m P → (∀ l, P l ∨ ¬ P l) → existsb (λ l, in_map m l) ls = true ↔ ∃ l, l ∈ ls ∧ P l.
Proof using.
  intros Hm Hd. rewrite existsb_exists. split.
  - intros (l & Hl & Hin). exists l. split; [by apply list_elem_of_In|].
    by apply (is_set_in m P l).
  - intros (l & Hl & Hin). exists l. split; [by apply list_elem_of_In|].
    by apply (is_set_in m P l).
Qed.

Lemma excludeOne_spec m (P : string → Prop) :
  is_set m P → (∀ l, P l ∨ ¬ P l) →
  ∃ b, excludeOne hc m = Ok b ∧ (b = true ↔ ∃ l, l ∈ ls ∧ P l).
Proof using Hls.
  intros Hm Hd. unfold excludeOne. case_decide as He.
  - exists false. split; [done|]. split; [done|]. intros (l & _ & Hl).
    by apply (is_set_empty m P Hm He) in Hl.
  - rewrite Hls. simpl. eexists. split; [done|]. by apply existsb_in.
Qed.

Lemma includeOne_spec m (P : string → Prop) :
  is_set m P → (∀ l, P l ∨ ¬ P l) →
  ∃ b, includeOne hc m = Ok b ∧ (b = true ↔ ((∃ p, P p) → ∃ l, P l ∧ l ∈ ls)).
Proof using Hls.
  intros Hm Hd. unfold includeOne. case_decide as He.
  - exists true. split; [done|]. split; [|done]. intros _ [p Hp].
    by apply (is_set_empty m P Hm He) in Hp.
  - rewrite Hls. simpl. eexists. split; [done|]. rewrite (existsb_in m P Hm Hd). split.
    + intros (l & ? & ?) _. eauto.
    + intros Hex. destruct Hex as (l & ? & ?); [|eauto].
      apply map_choose in He as (l & b & Hl). exists l.
      destruct (Hd l) as [?|Hn]; [done|]. destruct (Hm l) as [_ H2]. by rewrite H2 in Hl.
Qed.

Lemma found_spec m (P : string → Prop) :
  is_set m P → (∀ l, P l ∨ ¬ P l) →
  is_set (foldl (λ (found : gmap string bool) l,
            if in_map m l then <[l := true]> found else found) ∅ ls) (λ l, l ∈ ls ∧ P l).
Proof using.
  intros Hm Hd. clear Hls. induction ls as [|l l' IH] using rev_ind.
  { intros x. simpl. rewrite lookup_empty. split; [|done]. by intros [?%elem_of_nil _]. }
  rewrite foldl_app. simpl. destruct (in_map m l) eqn:Hl.
  - apply (is_set_in m P l Hm (Hd l)) in Hl.
    eapply is_set_ext; [|apply is_set_insert, IH]. intros x. simpl.
    rewrite elem_of_app, list_elem_of_singleton. split; [intros [->|?]; tauto|tauto].
  - assert (¬ P l) as Hn by (intros Hp; apply (is_set_in m P l Hm (Hd l)) in Hp; congruence).
    eapply is_set_ext; [|exact IH]. intros x. simpl.
    rewrite elem_of_app, list_elem_of_singleton. split; [tauto|].
    intros [[?| ->] ?]; [tauto|done].
Qed.

Lemma intersectOne_spec m (P : string → Prop) :
  is_set m P → (∀ l, P l ∨ ¬ P l) →
  ∃ b, intersectOne hc m = Ok b ∧ (b = true ↔ ∀ l, P l → l ∈ ls).
Proof using Hls.
  intros Hm Hd. unfold intersectOne. case_decide as He.
  - exists true. split; [done|]. split; [|done]. intros _ l Hl.
    by apply (is_set_empty m P Hm He) in Hl.
  - rewrite Hls. simpl. eexists. split; [done|]. rewrite bool_decide_eq_true.
    pose proof (found_spec m P Hm Hd) as Hf. set (found := foldl _ _ _) in *. clearbody found.
    assert (found ⊆ m) as Hsub.
    { apply map_subseteq_spec. intros l b Hl. destruct (Hf l) as [H1 H2].
      destruct (decide (l ∈ ls)) as [Hin|Hni]; [|rewrite H2 in Hl by tauto; done].
      destruct (Hd l) as [Hp|Hp]; [|rewrite H2 in Hl by tauto; done].
      rewrite H1 in Hl by done. injection Hl as <-. by apply (Hm l). }
    split.
    + intros Hsz l Hl. assert (found = m) as -> by (apply map_subseteq_size_eq; [done|lia]).
      destruct (decide (l ∈ ls)) as [?|Hni]; [done|].
      destruct (Hf l) as [_ H2]. destruct (Hm l) as [H3 _].
      rewrite H3 in H2 by done. discriminate H2. tauto.
    + intros Hall. f_equal. apply map_eq. intros l.
      destruct (Hd l) as [Hp|Hp].
      * destruct (Hf l) as [-> _]; [|auto]. by destruct (Hm l) as [-> _].
      * destruct (Hf l) as [_ ->]; [|tauto]. by destruct (Hm l) as [_ ->].
Qed.
End selection.

Lemma plain_dec p : plain p ∨ ¬ plain p.
Proof.
  unfold plain. destruct (decide (p = "")); [tauto|].
  destruct (HasPrefix p "!"); [right; by intros (_ & ? & _)|].
  destruct (HasPrefix p "&"); [right; by intros (_ & _ & ?)|]. tauto.
Qed.

Lemma filter_step_spec patterns inc exc its hc ls acc :
  is_set inc (λ l, plain l ∧ l ∈ patterns) →
  is_set exc (λ l, String "!"%char l ∈ patterns) →
  is_set its (λ l, String "&"%char l ∈ patterns) →
  GetLabels hc = Ok ls →
  ∃ b : bool, filter_step inc exc its acc hc = Ok (if b then acc ++ [hc] else acc) ∧
    (b = true ↔ selected patterns ls).
Proof.
  intros Hi He Ht Hls. unfold filter_step, selected.
  destruct (excludeOne_spec hc ls Hls exc _ He) as (ex & -> & Hex).
  { intros l. destruct (decide (String "!"%char l ∈ patterns)); tauto. }
  destruct (includeOne_spec hc ls Hls inc _ Hi) as (ic & Hie & Hic).
  { intros l. destruct (plain_dec l), (decide (l ∈ patterns)); tauto. }
  destruct (intersectOne_spec hc ls Hls its _ Ht) as (it & Hte & Hit).
  { intros l. destruct (decide (String "&"%char l ∈ patterns)); tauto. }
  simpl. destruct ex.
  { exists false. split; [done|]. split; [done|]. intros (Hn & _ & _).
    destruct (proj1 Hex eq_refl) as (l & ? & ?). by destruct (Hn l). }
  assert (∀ l, String "!"%char l ∈ patterns → l ∉ ls) as Hno.
  { intros l Hl Hin. assert (false = true) by (apply Hex; eauto). done. }
  rewrite Hie. simpl. destruct ic; simpl.
  2:{ exists false. split; [done|]. split; [done|]. intros (_ & Hinc & _).
      apply Hic. intros (q & ? & ?). destruct Hinc as (r & ? & ? & ?); eauto. }
  rewrite Hte. simpl. exists it. split; [by destruct it|]. rewrite Hit.
  split; [intros Hall; split; [done|split; [|done]]|by intros (_ & _ & ?)].
  intros (q & ? & ?). destruct (proj1 Hic eq_refl) as (r & [? ?] & ?); eauto.
Qed.

Lemma filter_loop patterns inc exc its hcs acc :
  is_set inc (λ l, plain l ∧ l ∈ patterns) →
  is_set exc (λ l, String "!"%char l ∈ patterns) →
  is_set its (λ l, String "&"%char l ∈ patterns) →
  (∀ hc, hc ∈ hcs → ∃ ls, GetLabels hc = Ok ls) →
  ∃ out, fold_res (filter_step inc exc its) hcs acc = Ok (acc ++ out) ∧ out `sublist_of` hcs ∧
    ∀ hc, hc ∈ out ↔ hc ∈ hcs ∧ ∃ ls, GetLabels hc = Ok ls ∧ selected patterns ls.
Proof.
  intros Hi He Ht. revert acc. induction hcs as [|h hcs IH]; intros acc Hlab.
  { exists []. rewrite app_nil_r. split; [done|]. split; [done|].
    intros hc. split; [by intros ?%elem_of_nil|by intros [?%elem_of_nil _]]. }
  destruct (Hlab h) as [ls Hls]; [by left|].
  destruct (filter_step_spec patterns inc exc its h ls acc Hi He Ht Hls) as (b & Hb & Hsel).
  destruct (IH (if b then acc ++ [h] else acc)) as (out & Hout & Hsub & Hmem).
  { intros hc Hhc. apply Hlab. by right. }
  exists (if b then h :: out else out). simpl. rewrite Hb. simpl. rewrite Hout. split_and!.
  - f_equal. destruct b; [by rewrite <-(assoc_L (++))|done].
  - destruct b; by constructor.
  - intros hc. rewrite elem_of_cons. destruct b.
    + rewrite elem_of_cons, Hmem. split; [|tauto]. intros [->|?]; [|tauto].
      split; [by left|]. exists ls. split; [done|]. by apply Hsel.
    + rewrite Hmem. split; [tauto|]. intros [[->|?] Hs]; [|tauto].
      destruct Hs as (ls' & Hls' & Hs). rewrite Hls in Hls'. injection Hls' as <-.
      by apply Hsel in Hs.
Qed.

(** Selection.  On an accepted hosts file [Filter] succeeds; it keeps the hosts,
    in order, whose labels (their host name when they have none) the patterns
    select: no excluded label, some plain label if any is asked for, and every
    required one. *)
Theorem Filter_selects (os : OS) (o : MapOrder) (parse : string → option Hosts_)
    (data : string) (patterns : list string) (hcs : list HostConfig) :
  ParseHosts os parse data = Ok hcs →
  ∃ out, Filter os parse data patterns = Ok out ∧ out `sublist_of` hcs ∧
    ∀ hc, hc ∈ out ↔ hc ∈ hcs ∧ ∃ ls, GetLabels hc = Ok ls ∧ selected patterns ls.
Proof.
  intros Hp. destruct (ParseHosts_Ok os parse data hcs Hp) as (_ & _ & _ & _ & Hv & _).
  pose proof (parsePattern_spec patterns) as (Hi & He & Ht).
  assert (∀ hc, hc ∈ hcs → ∃ ls, GetLabels hc = Ok ls) as Hlab.
  { intros hc Hhc. rewrite Forall_forall in Hv. destruct (GetLabels_total os hc) as (ls & ? & _);
      [by apply (vh_typed os hc), Hv|eauto]. }
  unfold Filter. rewrite Hp. simpl. destruct patterns as [|p ps].
  { exists hcs. split; [done|]. split; [done|]. intros hc. split; [|by intros [? _]].
    intros Hhc. split; [done|]. destruct (Hlab hc Hhc) as [ls Hls]. exists ls. split; [done|].
    split; [by intros l ?%elem_of_nil|]. split; [by intros (q & ?%elem_of_nil & _)|].
    by intros l ?%elem_of_nil. }
  destruct (parsePattern (p :: ps)) as [[inc exc] its]. simpl in Hi, He, Ht.
  by apply (filter_loop (p :: ps) inc exc its hcs []).
Qed.

Lemma Filter_selects_witness :
  ∃ out, Filter (H := canonical_order) sample_os (λ _, Some sample_hosts) "hosts" ["ssd"; "!h1"; "&mds"]
         = Ok out ∧ (GetHost <$> out) = [Ok "h2"].
Proof.
  destruct (Filter_selects sample_os canonical_order (λ _, Some sample_hosts) "hosts"
              ["ssd"; "!h1"; "&mds"] sample_hcs) as (out & Hout & _).
  { apply res_get_Ok. vm_compute. reflexivity. }
  exists out. split; [exact Hout|].
  transitivity (GetHost <$> res_get [] (Filter (H := canonical_order) sample_os (λ _, Some sample_hosts)
                  "hosts" ["ssd"; "!h1"; "&mds"])); [by rewrite Hout|vm_compute; reflexivity].
Defined.
