(* ===== verification/Shell.v ===== *)
(** Running commands on a machine (src/pkg/module: module.go, shell.go, docker_cli.go,
    file.go, ssh.go).

    A command is a template with its data; it is rendered, prefixed with sudo and with the
    become method, and run by a shell of this machine or of the other end of an ssh
    connection.  What the shell then does is a parameter, the class [Machine]. *)

From S2P Require Import Prelude Errno GoLib Hosts.
From Stdlib Require Import Ascii.

Record ExecOptions : Type := mkModuleOptions {
  ExecWithSudo : bool;
  ExecInLocal : bool;
  ExecSudoAlias : string;
  ExecTimeoutSec : Z;
  ExecWithEngine : string;
}.

Inductive exec_error : Type := TimeoutError (timeout : Z) | ExecError (text : string).
#[export] Instance exec_error_eq_dec : EqDecision exec_error.
Proof. solve_decision. Defined.

(** Where a command runs.  Without a client the call panics; the class leaves that case
    open and no theorem is about it. *)
Inductive place : Type := Local | Remote (c : option SSHConfig).

Class Machine (W : Type) := {
  (** [bash -c command] with a timeout in seconds, 0 for none: output and error *)
  run : place → Z → string → W → W * (string * option exec_error);
  (** sftp *)
  Upload_ : SSHConfig → string → string → W → W * option string;
  Download_ : SSHConfig → string → string → W → W * option string;
  (** files of this machine *)
  RandFilename : string → W → W * string;
  WriteFile : string → string → Z → W → W * option string;
  ReadFile : string → W → string * option string;
  os_Remove : string → W → W;
  os_RemoveAll : string → W → W;
  (** authentication and one attempt to connect *)
  ssh_auth : SSHConfig → W → option string;
  ssh_dial : SSHConfig → W → W * option string;
  ssh_close : SSHConfig → W → W;
}.

(** ** Templates (text/template): text and fields [{{.key}}] *)

Fixpoint render_go (data : gmap string string) (field : option string) (s : string) : string :=
  match field with
  | None =>
      match s with
      | "" => ""
      | String "{" (String "{" (String "." s)) => render_go data (Some "") s
      | String a s => String a (render_go data None s)
      end
  | Some key =>
      match s with
      | "" => ""
      | String "}" (String "}" s) => default "<no value>" (data !! key) +:+ render_go data None s
      | String a s => render_go data (Some (key +:+ String a "")) s
      end
  end.
Definition render (tmpl : string) (data : gmap string string) : string := render_go data None tmpl.

Fixpoint TrimLeft_space (s : string) : string :=
  match s with String " " s => TrimLeft_space s | _ => s end.

(** ** Shell and DockerCli *)

(** The two have the same fields. *)
Record Shell : Type := mkShell {
  sh_options : list string; sh_tmpl : string; sh_data : gmap string string }.
Definition NewShell : Shell := mkShell [] "" ∅.
Definition AddOption (option : string) (s : Shell) : Shell :=
  mkShell (sh_options s ++ [option]) (sh_tmpl s) (sh_data s).
Definition ClearOption (s : Shell) : Shell := mkShell [] (sh_tmpl s) (sh_data s).
Definition method (tmpl : string) (kvs : list (string * string)) (s : Shell) : Shell :=
  mkShell (sh_options s) tmpl (foldl (λ d '(k, v), <[k := v]> d) (sh_data s) kvs).

Definition TEMPLATE_SED : string := "sed {{.options}} {{.files}}".
Definition TEMPLATE_LIST : string := "ls {{.options}} {{.files}}".
Definition TEMPLATE_MKDIR : string := "mkdir {{.options}} {{.directorys}}".
Definition TEMPLATE_RMDIR : string := "rmdir {{.options}} {{.directorys}}".
Definition TEMPLATE_REMOVE : string := "rm {{.options}} {{.files}}".
Definition TEMPLATE_RENAME : string := "mv {{.options}} {{.source}} {{.dest}}".
Definition TEMPLATE_COPY : string := "cp {{.options}} {{.source}} {{.dest}}".
Definition TEMPLATE_CHMOD : string := "chmod {{.options}} {{.mode}} {{.file}}".
Definition TEMPLATE_STAT : string := "stat {{.options}} {{.files}}".
Definition TEMPLATE_CAT : string := "cat {{.options}} {{.files}}".
Definition TEMPLATE_MKFS : string := "mkfs.ext4 {{.options}} {{.device}}".
Definition TEMPLATE_MOUNT : string := "mount {{.options}} {{.source}} {{.directory}}".
Definition TEMPLATE_UMOUNT : string := "umount {{.options}} {{.directory}}".
Definition TEMPLATE_TUNE2FS : string := "tune2fs {{.options}} {{.device}}".
Definition TEMPLATE_FUSER : string := "fuser {{.options}} {{.names}}".
Definition TEMPLATE_DISKFREE : string := "df {{.options}} {{.files}}".
Definition TEMPLATE_LSBLK : string := "lsblk {{.options}} {{.devices}}".
Definition TEMPLATE_BLKID : string := "blkid {{.options}} {{.device}}".
Definition TEMPLATE_TEST : string := "test {{.options}} {{.file}}".
Definition TEMPLATE_SS : string := "ss {{.options}} '{{.filter}}'".
Definition TEMPLATE_PING : string := "ping {{.options}} {{.destination}}".
Definition TEMPLATE_CURL : string := "curl {{.options}} {{.url}}".
Definition TEMPLATE_NETSTAT : string := "netstat {{.options}} '{{.filter}}'".
Definition TEMPLATE_WHOAMI : string := "whoami".
Definition TEMPLATE_DATE : string := "date {{.options}} {{.format}}".
Definition TEMPLATE_UNAME : string := "uname {{.options}}".
Definition TEMPLATE_MODPROBE : string := "modprobe {{.options}} {{.modulename}} {{.arguments}}".
Definition TEMPLATE_MODINFO : string := "modinfo {{.modulename}}".
Definition TEMPLATE_PGREP : string := "pgrep {{.options}} {{.pattern}}".
Definition TEMPLATE_KILL : string := "kill {{.options}} {{.pid}}".
Definition TEMPLATE_GREP : string := "grep {{.options}} {{.pattern}} {{.files}}".
Definition TEMPLATE_TAR : string := "tar {{.options}} {{.file}}".
Definition TEMPLATE_DPKG : string := "dpkg {{.options}}".
Definition TEMPLATE_RPM : string := "rpm {{.options}}".
Definition TEMPLATE_SCP : string := "scp {{.options}} {{.source}} {{.user}}@{{.host}}:{{.target}}".
Definition TEMPLATE_COMMAND : string := "{{.command}}".
Definition TEMPLATE_BASH_SCEIPT : string := "bash {{.scriptPath}} {{.arguments}}".
Definition TEMPLATE_DOCKER_INFO : string := "{{.engine}} info".
Definition TEMPLATE_PULL_IMAGE : string := "{{.engine}} pull {{.options}} {{.name}}".
Definition TEMPLATE_CREATE_CONTAINER : string := "{{.engine}} create {{.options}} {{.image}} {{.command}}".
Definition TEMPLATE_START_CONTAINER : string := "{{.engine}} start {{.options}} {{.containers}}".
Definition TEMPLATE_STOP_CONTAINER : string := "{{.engine}} stop {{.options}} {{.containers}}".
Definition TEMPLATE_RESTART_CONTAINER : string := "{{.engine}} restart {{.options}} {{.containers}}".
Definition TEMPLATE_WAIT_CONTAINER : string := "{{.engine}} wait {{.options}} {{.containers}}".
Definition TEMPLATE_REMOVE_CONTAINER : string := "{{.engine}} rm {{.options}} {{.containers}}".
Definition TEMPLATE_LIST_CONTAINERS : string := "{{.engine}} ps {{.options}}".
Definition TEMPLATE_CONTAINER_EXEC : string := "{{.engine}} exec {{.options}} {{.container}} {{.command}}".
Definition TEMPLATE_COPY_FROM_CONTAINER : string := "{{.engine}} cp {{.options}} {{.container}}:{{.srcPath}} {{.destPath}}".
Definition TEMPLATE_COPY_FROM_CONTAINER_EXCLUDE_PARENT_DIR : string := "{{.engine}} cp {{.options}} {{.container}}:{{.srcPath}}/. {{.destPath}}".
Definition TEMPLATE_COPY_INTO_CONTAINER : string := "{{.engine}} cp {{.options}}  {{.srcPath}} {{.container}}:{{.destPath}}".
Definition TEMPLATE_INSPECT_CONTAINER : string := "{{.engine}} inspect {{.options}} {{.container}}".
Definition TEMPLATE_CONTAINER_LOGS : string := "{{.engine}} logs {{.options}} {{.container}}".
Definition TEMPLATE_UPDATE_CONTAINER : string := "{{.engine}} update {{.options}} {{.container}}".
(** The methods. *)
Definition sh_Sed (file : list string) : Shell → Shell :=
  method TEMPLATE_SED [("files", Join file " ")].
Definition sh_List (files : list string) : Shell → Shell :=
  method TEMPLATE_LIST [("files", Join files " ")].
Definition sh_Mkdir (directory : list string) : Shell → Shell :=
  method TEMPLATE_MKDIR [("directorys", Join directory " ")].
Definition sh_Rmdir (directory : list string) : Shell → Shell :=
  method TEMPLATE_RMDIR [("directorys", Join directory " ")].
Definition sh_Remove (file : list string) : Shell → Shell :=
  method TEMPLATE_REMOVE [("files", Join file " ")].
Definition sh_Rename (source : string) (dest : string) : Shell → Shell :=
  method TEMPLATE_RENAME [("source", source); ("dest", dest)].
Definition sh_Copy (source : string) (dest : string) : Shell → Shell :=
  method TEMPLATE_COPY [("source", source); ("dest", dest)].
Definition sh_Chmod (mode : string) (file : string) : Shell → Shell :=
  method TEMPLATE_CHMOD [("mode", mode); ("file", file)].
Definition sh_Stat (files : list string) : Shell → Shell :=
  method TEMPLATE_STAT [("files", Join files " ")].
Definition sh_Cat (files : list string) : Shell → Shell :=
  method TEMPLATE_CAT [("files", Join files " ")].
Definition sh_Mkfs (device : string) : Shell → Shell :=
  method TEMPLATE_MKFS [("device", device)].
Definition sh_Mount (source : string) (directory : string) : Shell → Shell :=
  method TEMPLATE_MOUNT [("source", source); ("directory", directory)].
Definition sh_Umount (directory : string) : Shell → Shell :=
  method TEMPLATE_UMOUNT [("directory", directory)].
Definition sh_Tune2FS (device : string) : Shell → Shell :=
  method TEMPLATE_TUNE2FS [("device", device)].
Definition sh_Fuser (name : list string) : Shell → Shell :=
  method TEMPLATE_FUSER [("names", Join name " ")].
Definition sh_DiskFree (file : list string) : Shell → Shell :=
  method TEMPLATE_DISKFREE [("files", Join file " ")].
Definition sh_LsBlk (device : list string) : Shell → Shell :=
  method TEMPLATE_LSBLK [("devices", Join device " ")].
Definition sh_BlkId (device : string) : Shell → Shell :=
  method TEMPLATE_BLKID [("device", device)].
Definition sh_Test (file : string) : Shell → Shell :=
  method TEMPLATE_TEST [("file", file)].
Definition sh_SocketStatistics (filter : string) : Shell → Shell :=
  method TEMPLATE_SS [("filter", filter)].
Definition sh_Netstat (filter : string) : Shell → Shell :=
  method TEMPLATE_NETSTAT [("filter", filter)].
Definition sh_Ping (destination : string) : Shell → Shell :=
  method TEMPLATE_PING [("destination", destination)].
Definition sh_Curl (url : string) : Shell → Shell :=
  method TEMPLATE_CURL [("url", url)].
Definition sh_Whoami : Shell → Shell :=
  method TEMPLATE_WHOAMI [].
Definition sh_Date (format : string) : Shell → Shell :=
  method TEMPLATE_DATE [("format", format)].
Definition sh_UnixName : Shell → Shell :=
  method TEMPLATE_UNAME [].
Definition sh_ModProbe (modulename : string) (args : list string) : Shell → Shell :=
  method TEMPLATE_MODPROBE [("modulename", modulename); ("arguments", Join args " ")].
Definition sh_ModInfo (modulename : string) : Shell → Shell :=
  method TEMPLATE_MODINFO [("modulename", modulename)].
Definition sh_Pgrep (pattern : string) : Shell → Shell :=
  method TEMPLATE_PGREP [("pattern", pattern)].
Definition sh_Kill (pid : Z) : Shell → Shell :=
  method TEMPLATE_KILL [("pid", Itoa pid)].
Definition sh_Grep (pattern : string) (files : list string) : Shell → Shell :=
  method TEMPLATE_GREP [("pattern", pattern); ("files", Join files " ")].
Definition sh_Tar (file : string) : Shell → Shell :=
  method TEMPLATE_TAR [("file", file)].
Definition sh_Dpkg : Shell → Shell :=
  method TEMPLATE_DPKG [].
Definition sh_Rpm : Shell → Shell :=
  method TEMPLATE_RPM [].
Definition sh_Scp (source : string) (user : string) (host : string) (target : string) : Shell → Shell :=
  method TEMPLATE_SCP [("source", source); ("user", user); ("host", host); ("target", target)].
Definition sh_Command (command : string) : Shell → Shell :=
  method TEMPLATE_COMMAND [("command", command)].
Definition sh_BashScript (scriptPath : string) (args : list string) : Shell → Shell :=
  method TEMPLATE_BASH_SCEIPT [("scriptPath", scriptPath); ("arguments", Join args " ")].
Definition docker_DockerInfo : Shell → Shell :=
  method TEMPLATE_DOCKER_INFO [].
Definition docker_PullImage (image : string) : Shell → Shell :=
  method TEMPLATE_PULL_IMAGE [("name", image)].
Definition docker_CreateContainer (image : string) (command : string) : Shell → Shell :=
  method TEMPLATE_CREATE_CONTAINER [("image", image); ("command", command)].
Definition docker_StartContainer (containerId : list string) : Shell → Shell :=
  method TEMPLATE_START_CONTAINER [("containers", Join containerId " ")].
Definition docker_StopContainer (containerId : list string) : Shell → Shell :=
  method TEMPLATE_STOP_CONTAINER [("containers", Join containerId " ")].
Definition docker_RestartContainer (containerId : list string) : Shell → Shell :=
  method TEMPLATE_RESTART_CONTAINER [("containers", Join containerId " ")].
Definition docker_WaitContainer (containerId : list string) : Shell → Shell :=
  method TEMPLATE_WAIT_CONTAINER [("containers", Join containerId " ")].
Definition docker_RemoveContainer (containerId : list string) : Shell → Shell :=
  method TEMPLATE_REMOVE_CONTAINER [("containers", Join containerId " ")].
Definition docker_ListContainers : Shell → Shell :=
  method TEMPLATE_LIST_CONTAINERS [].
Definition docker_ContainerExec (containerId : string) (command : string) : Shell → Shell :=
  method TEMPLATE_CONTAINER_EXEC [("container", containerId); ("command", command)].
Definition docker_CopyIntoContainer (srcPath : string) (containerId : string) (destPath : string) : Shell → Shell :=
  method TEMPLATE_COPY_INTO_CONTAINER [("srcPath", srcPath); ("container", containerId); ("destPath", destPath)].
Definition docker_InspectContainer (containerId : string) : Shell → Shell :=
  method TEMPLATE_INSPECT_CONTAINER [("container", containerId)].
Definition docker_ContainerLogs (containerId : string) : Shell → Shell :=
  method TEMPLATE_CONTAINER_LOGS [("container", containerId)].
Definition docker_CopyFromContainer (containerId srcPath destPath : string) (excludeParent : bool)
    : Shell → Shell :=
  method (if excludeParent then TEMPLATE_COPY_FROM_CONTAINER_EXCLUDE_PARENT_DIR
          else TEMPLATE_COPY_FROM_CONTAINER)
    [("container", containerId); ("srcPath", srcPath); ("destPath", destPath)].

(** ** Execution *)

Definition with_options (s : Shell) : gmap string string :=
  <["options" := Join (sh_options s) " "]> (sh_data s).
Definition sh_String (s : Shell) : string := render (sh_tmpl s) (with_options s).

(** The text [execCommand] runs for a rendered command. *)
Definition add_sudo (o : ExecOptions) (command : string) : string :=
  TrimLeft_space
    (if ExecWithSudo o then Join [if decide (ExecSudoAlias o = "") then "sudo" else ExecSudoAlias o; command] " "
     else command).
Definition add_become (cl : option SSHConfig) (o : ExecOptions) (command : string) : string :=
  match cl with
  | Some c =>
      if negb (bool_decide (ssh_BecomeUser c = "")) && negb (ExecInLocal o) then
        Join [Join [ssh_BecomeMethod c; ssh_BecomeFlags c; ssh_BecomeUser c] " "; command] " "
      else command
  | None => command
  end.

Section machine.
Context `{Machine W}.

Definition execCommand (cl : option SSHConfig) (tmpl : string) (data : gmap string string)
    (o : ExecOptions) (w : W) : W * (string * option exec_error) :=
  run (if ExecInLocal o then Local else Remote cl)
      (if decide (0 < ExecTimeoutSec o)%Z then ExecTimeoutSec o else 0%Z)
      (add_become cl o (add_sudo o (render tmpl data))) w.

Definition sh_Execute (cl : option SSHConfig) (s : Shell) (o : ExecOptions) : W → W * (string * option exec_error) :=
  execCommand cl (sh_tmpl s) (with_options s) o.
Definition docker_Execute (cl : option SSHConfig) (s : Shell) (o : ExecOptions) : W → W * (string * option exec_error) :=
  execCommand cl (sh_tmpl s) (<["engine" := ExecWithEngine o]> (with_options s)) o.

(** [FileManager]. *)
Definition ERR_UNREACHED : string := "remote unreached".
Definition Upload (cl : option SSHConfig) (localPath remotePath : string) (w : W) : W * option string :=
  match cl with None => (w, Some ERR_UNREACHED) | Some c => Upload_ c localPath remotePath w end.
Definition Download (cl : option SSHConfig) (remotePath localPath : string) (w : W) : W * option string :=
  match cl with None => (w, Some ERR_UNREACHED) | Some c => Download_ c remotePath localPath w end.

(** ** Connecting *)

(** [CheckKnownHost] found the host or not and may have an error; the host is added when it
    is new, for [askIsHostTrusted] says yes. *)
Definition VerifyHost (found : bool) (err : option string) (add : option string) : option string :=
  if found then err else add.

(** The attempts from the [tries]-th on, and how many there were. *)
Fixpoint dial_loop (fuel : nat) (c : SSHConfig) (tries : Z) (w : W) : option (W * Z * option string) :=
  match fuel with
  | 0 => None
  | S fuel =>
      let tries := (tries + 1)%Z in
      let '(w, err) := ssh_dial c w in
      match err with
      | Some _ => if decide (tries < ssh_ConnectRetries c)%Z then dial_loop fuel c tries w
                  else Some (w, tries, err)
      | None => Some (w, tries, None)
      end
  end.
Definition dial_fuel (c : SSHConfig) : nat := S (Z.to_nat (ssh_ConnectRetries c)).
Definition NewSSHClient (c : SSHConfig) (w : W) : W * (SSHConfig + error) :=
  match ssh_auth c w with
  | Some e => (w, inr (EText e))
  | None =>
      match dial_loop (dial_fuel c) c 0 w with
      | Some (w, _, None) => (w, inl c)
      | Some (w, _, Some e) => (w, inr (EText e))
      | None => (w, inr (EText "")) (* not reached: [dial_loop_spec] *)
      end
  end.
End machine.

(** ** Lemmas *)

(** A sequence of attempts: all but the last have failed. *)
Inductive dials `{Machine W} (c : SSHConfig) : nat → W → W → option string → Prop :=
| dials_one w : dials c 1 w (ssh_dial c w).1 (ssh_dial c w).2
| dials_more n w e w' err :
    (ssh_dial c w).2 = Some e → dials c n (ssh_dial c w).1 w' err → dials c (S n) w w' err.

Lemma dial_loop_spec `{Machine W} (c : SSHConfig) fuel tries w :
  (0 ≤ tries)%Z → Z.to_nat (ssh_ConnectRetries c - tries) < fuel →
  ∃ n w' err, dial_loop fuel c tries w = Some (w', (tries + Z.of_nat n)%Z, err) ∧ dials c n w w' err ∧ 1 ≤ n ∧
    (Z.of_nat n ≤ Z.max 1 (ssh_ConnectRetries c - tries))%Z ∧
    (err ≠ None → Z.of_nat n = Z.max 1 (ssh_ConnectRetries c - tries)).
Proof.
  revert tries w; induction fuel as [|fuel IH]; intros tries w Ht Hf; [lia|]. simpl.
  destruct (ssh_dial c w) as [w1 err] eqn:E.
  destruct err as [e|]; [case_decide as Hd|].
  - destruct (IH (tries + 1)%Z w1) as (n & w' & err & Hl & Hs & Hn & Hle & Hne); [lia..|].
    exists (S n), w', err. split.
    { rewrite Hl. by replace (tries + 1 + Z.of_nat n)%Z with (tries + Z.of_nat (S n))%Z by lia. }
    split; [|split; [lia|split; [lia|intros He; specialize (Hne He); lia]]].
    apply (dials_more c n w e); by rewrite E.
  - exists 1, w1, (Some e). split; [done|]. split; [|split; [lia|split; [lia|intros _; lia]]]. pose proof (dials_one c w) as Hd1. by rewrite E in Hd1.
  - exists 1, w1, None. split; [done|]. split; [pose proof (dials_one c w) as Hd1; by rewrite E in Hd1|].
    split; [lia|]. split; [lia|]. by intros [].
Qed.

Lemma TrimLeft_space_id a s : a ≠ " "%char → TrimLeft_space (String a s) = String a s.
Proof. intros Ha. destruct a as [[] [] [] [] [] [] [] []]; try done. Qed.

(** ** Theorems *)

(** C39: Connecting to a host.  When the authentication cannot be prepared, its error is
    returned and nothing is tried.  Otherwise it is tried until an attempt succeeds, at most as often as the
    configuration says and at least once; the client is returned exactly when the last
    attempt succeeded, and an error only after all the attempts failed. *)
Theorem NewSSHClient_spec `{Machine W} (c : SSHConfig) (w : W) :
  match ssh_auth c w with
  | Some e => NewSSHClient c w = (w, inr (EText e))
  | None => ∃ n w' err,
      dials c n w w' err ∧ 1 ≤ n ∧ (Z.of_nat n ≤ Z.max 1 (ssh_ConnectRetries c))%Z ∧
      (err ≠ None → Z.of_nat n = Z.max 1 (ssh_ConnectRetries c)) ∧
      NewSSHClient c w = (w', match err with None => inl c | Some e => inr (EText e) end)
  end.
Proof.
  unfold NewSSHClient. destruct (ssh_auth c w) as [e|]; [done|].
  destruct (dial_loop_spec c (dial_fuel c) 0 w) as (n & w' & err & Hl & Hs & Hn & Hle & Hne); [lia|unfold dial_fuel; lia|].
  exists n, w', err. rewrite Hl, Z.sub_0_r in *. split_and!; try done. by destruct err.
Qed.
