(* ===== verification/Components.v ===== *)
(** Installed components (src/internal/component: component_manager.go, repo.go,
    types.go, uitls.go).

    The manager keeps the list of installed component versions, at most one active
    per name, and the metadata of the remote repository.  Downloads, the HTTP and
    JSON readers and URL joining are parameters; [disk] is the content of
    [installed.json], the list that was last written. *)

From S2P Require Import Prelude Errno GoLib.
From Stdlib Require Import Ascii.

Definition DINGO_CLIENT : string := "dingo-client".
Definition DINGO_DACHE : string := "dingo-cache".
Definition DINGO_MDS : string := "dingo-mds".
Definition DINGO_MDS_CLIENT : string := "dingo-mds-client".
Definition LASTEST_VERSION : string := "latest".
Definition MAIN_VERSION : string := "main".
Definition ErrAlreadyLatest : error := EText "already with latest build".
Definition ErrAlreadyExist : error := EText "already exist".
Definition ErrNotFound : error := EText "not found".
Definition ALL_COMPONENTS : list string := [DINGO_CLIENT; DINGO_DACHE; DINGO_MDS; DINGO_MDS_CLIENT].

Record Component : Type := mkComponent {
  Name : string;
  Version : string;
  Commit : string;
  IsInstalled : bool;
  IsActive : bool;
  Release : string;
  Path : string;
  URL : string;
}.

#[export] Instance Component_eq_dec : EqDecision Component.
Proof. solve_decision. Defined.

Definition set_active (b : bool) (c : Component) : Component :=
  mkComponent (Name c) (Version c) (Commit c) (IsInstalled c) b (Release c) (Path c) (URL c).

(** * Repository metadata (repo.go) *)

Record BinaryDetail : Type := mkBinaryDetail {
  bd_Path : string; BuildTime : string; Size_ : string; bd_Commit : string }.

Record BinaryRepoData : Type := mkBinaryRepoData {
  Binary : string;
  GeneratedAt : string;
  Branches : gmap string BinaryDetail;
  Commits : gmap string BinaryDetail;
  Tags : gmap string BinaryDetail;
}.

Definition GetTags (b : BinaryRepoData) : gmap string BinaryDetail := Tags b.
Definition GetBranches (b : BinaryRepoData) : gmap string BinaryDetail := Branches b.
Definition GetCommits (b : BinaryRepoData) : gmap string BinaryDetail := Commits b.
Definition GetName (b : BinaryRepoData) : string := Binary b.

(** Go compares strings byte by byte. *)
Definition GetLatest `{MapOrder} (b : BinaryRepoData) : option (string * BinaryDetail) :=
  let latest := foldl (λ latest '(version, _),
                  if String.ltb latest version then version else latest)
                  "v0.0.0" (range (Tags b)) in
  tag ← Tags b !! latest; Some (latest, tag).

Definition GetMain (b : BinaryRepoData) : option BinaryDetail := Branches b !! MAIN_VERSION.
Definition repo_FindVersion (b : BinaryRepoData) (tag : string) : option BinaryDetail :=
  Tags b !! tag.

(** * Names (uitls.go) *)

(** The part before the first colon and the part after it. *)
Fixpoint cut_colon (s : string) : option (string * string) :=
  match s with
  | EmptyString => None
  | String a s' =>
      if decide (a = ":"%char) then Some (EmptyString, s')
      else match cut_colon s' with
           | Some (p, q) => Some (String a p, q)
           | None => None
           end
  end.
Definition ParseComponentVersion (input : string) : string * string :=
  match cut_colon input with Some p => p | None => (input, "") end.

(** * The manager *)

Record ComponentManager : Type := mkManager {
  rootDir : string;
  installed : list Component;
  avaliable : list Component;
  repodata : gmap string BinaryRepoData;
  mirror : string;
  disk : option (list Component);
}.

Definition set_installed (cm : ComponentManager) (l : list Component) : ComponentManager :=
  mkManager (rootDir cm) l (avaliable cm) (repodata cm) (mirror cm) (disk cm).
Definition set_avaliable (cm : ComponentManager) (l : list Component) : ComponentManager :=
  mkManager (rootDir cm) (installed cm) l (repodata cm) (mirror cm) (disk cm).

(** What the outside does: joining URLs, the outcome of a download (given the URL and
    the directory) and of writing the file. *)
Record World : Type := mkWorld {
  URLJoin : string → string → string;
  download : string → string → option string;
  write_file : option error;
}.

Definition is_version (name version : string) (c : Component) : bool :=
  bool_decide (Name c = name) && bool_decide (Version c = version).

Definition LoadInstalledComponents (cm : ComponentManager) : ComponentManager * list Component :=
  match disk cm with
  | None => (cm, [])
  | Some components => (set_installed cm components, components)
  end.

Section manager.
Context (w : World).

Definition SaveInstalledComponents (cm : ComponentManager) : ComponentManager * option error :=
  match write_file w with
  | Some e => (cm, Some e)
  | None => (mkManager (rootDir cm) (installed cm) (avaliable cm) (repodata cm) (mirror cm)
               (Some (installed cm)), None)
  end.

Definition FindInstallComponent (cm : ComponentManager) (name version : string)
    : option Component * option error :=
  match find_first (is_version name version) (installed cm) with
  | Some c => (Some c, None)
  | None => (None, Some ErrNotFound)
  end.

Definition IsInstalled_ (cm : ComponentManager) (name version : string) : bool :=
  existsb (is_version name version) (installed cm).

Definition default_entry (name version : string) (c : Component) : Component :=
  if decide (Name c = name) then set_active (bool_decide (Version c = version)) c else c.

Definition SetDefaultVersion (cm : ComponentManager) (name version : string)
    : ComponentManager * option error :=
  let found := existsb (is_version name version) (installed cm) in
  let cm := set_installed cm (default_entry name version <$> installed cm) in
  (cm, if found then None
       else Some (EText ("component " +:+ name +:+ ":" +:+ version +:+ " not installed"))).

Definition GetActiveComponent (cm : ComponentManager) (name : string)
    : option Component * option error :=
  match find_first (λ c, bool_decide (Name c = name) && IsActive c) (installed cm) with
  | Some c => (Some c, None)
  | None => (None, Some (EText ("no active version for component " +:+ name)))
  end.

Definition ListComponents (cm : ComponentManager) : list Component :=
  installed cm ++ filter (λ c, IsInstalled_ cm (Name c) (Version c) = false) (avaliable cm).

(** [os.Remove] of the binaries does not change the state kept here. *)
Definition RemoveComponent (cm : ComponentManager) (name version : string)
    (force saveToFile : bool) : ComponentManager * option error :=
  if existsb (λ c, is_version name version c && IsActive c && negb force) (installed cm) then
    (cm, Some (EText ("cannot remove active component " +:+ name +:+
                      ", please set another version as default or use --force to remove")))
  else
    let newComponents := filter (λ c, is_version name version c = false) (installed cm) in
    if decide (length newComponents = length (installed cm)) then
      (cm, Some (EText ("component " +:+ name +:+ ":" +:+ version +:+ " not installed")))
    else
      let cm := set_installed cm newComponents in
      if saveToFile then SaveInstalledComponents cm else (cm, None).

Definition RemoveComponents (cm : ComponentManager) (name : string) (saveToFile : bool)
    : ComponentManager * (list Component * option error) :=
  let newComponents := filter (λ c, Name c ≠ name) (installed cm) in
  let removedComponents := filter (λ c, Name c = name) (installed cm) in
  match removedComponents with
  | [] => (cm, ([], Some (EText ("component " +:+ name +:+ " not installed"))))
  | _ =>
      let cm := set_installed cm newComponents in
      if saveToFile then
        let '(cm, e) := SaveInstalledComponents cm in (cm, (removedComponents, e))
      else (cm, (removedComponents, None))
  end.

Context `{MapOrder}.

Definition FindVersion (cm : ComponentManager) (name version : string)
    : res error (string * BinaryDetail) :=
  match repodata cm !! name with
  | None => Err (EText ("component " +:+ name +:+ " not found in repository"))
  | Some repo =>
      if decide (version = LASTEST_VERSION) then
        match GetLatest repo with
        | Some r => Ok r
        | None => Err (EText (name +:+ ": No stable version available"))
        end
      else if decide (version = MAIN_VERSION) then
        match GetMain repo with
        | Some d => Ok (version, d)
        | None => Err (EText (name +:+ ": main version not found"))
        end
      else
        match repo_FindVersion repo version with
        | Some d => Ok (version, d)
        | None => Err (EText (name +:+ ": version '" +:+ version +:+ "' not found"))
        end
  end.

Definition LoadAvailableComponentVersions (cm : ComponentManager) (name : string)
    : res error (list Component) :=
  match repodata cm !! name with
  | None => Err (EText ("component " +:+ name +:+ " not found in repository"))
  | Some repo =>
      let tags := (λ '(tagname, branch),
        mkComponent name tagname (bd_Commit branch) false false (BuildTime branch) ""
          (URLJoin w (mirror cm) (bd_Path branch))) <$> range (GetTags repo) in
      match GetMain repo with
      | Some main =>
          Ok (tags ++ [mkComponent name MAIN_VERSION (bd_Commit main) false false (BuildTime main) ""
                         (URLJoin w (mirror cm) (bd_Path main))])
      | None => Ok tags
      end
  end.

Definition LoadAvailableComponents (cm : ComponentManager) : ComponentManager * res error (list Component) :=
  match fold_res (λ components name,
          comps ← LoadAvailableComponentVersions cm name; Ok (components ++ comps))
          ALL_COMPONENTS [] with
  | Ok components => (set_avaliable cm components, Ok components)
  | Err e => (cm, Err e)
  | Panic => (cm, Panic)
  end.

(** Replacing the first entry of a version. *)
Fixpoint replace_first (name version : string) (new : Component) (l : list Component)
    : list Component :=
  match l with
  | [] => []
  | c :: l => if is_version name version c then new :: l else c :: replace_first name version new l
  end.

(** From the download on: [replace] when an installed entry is updated. *)
Definition install (cm : ComponentManager) (name foundVersion : string)
    (binaryDetail : BinaryDetail) (replace : bool)
    : ComponentManager * (option Component * option error) :=
  let newComponent :=
    mkComponent name foundVersion (bd_Commit binaryDetail) true false (BuildTime binaryDetail)
      (path_Join [rootDir cm; name; foundVersion])
      (URLJoin w (mirror cm) (bd_Path binaryDetail)) in
  match download w (URL newComponent) (Path newComponent) with
  | Some msg => (cm, (None, Some (EText ("failed to download " +:+ name +:+ ": " +:+ msg))))
  | None =>
      let cm := set_installed cm
        (if replace then replace_first name foundVersion newComponent (installed cm)
         else installed cm ++ [newComponent]) in
      match SetDefaultVersion cm name foundVersion with
      | (cm, Some e) => (cm, (None, Some e))
      | (cm, None) =>
          let '(cm, e) := SaveInstalledComponents cm in (cm, (Some newComponent, e))
      end
  end.

Definition installOrUpdateComponent (cm : ComponentManager) (name version : string)
    (isUpdate : bool) : ComponentManager * (option Component * option error) :=
  match FindVersion cm name version with
  | Err e => (cm, (None, Some e))
  | Panic => (cm, (None, None)) (* not reached *)
  | Ok (foundVersion, binaryDetail) =>
      match (FindInstallComponent cm name foundVersion).1 with
      | Some c =>
          if negb isUpdate then
            (cm, (None, Some (EText (name +:+ ":" +:+ foundVersion +:+ " already installed"))))
          else if decide (version = LASTEST_VERSION) then (cm, (Some c, Some ErrAlreadyExist))
          else if negb (String.ltb (Release c) (BuildTime binaryDetail)) then
            (cm, (Some c, Some ErrAlreadyLatest))
          else install cm name foundVersion binaryDetail true
      | None => install cm name foundVersion binaryDetail false
      end
  end.

Definition InstallComponent cm name version := installOrUpdateComponent cm name version false.
Definition UpdateComponent cm name version := installOrUpdateComponent cm name version true.
End manager.

(** * Invariant *)

(** A version is installed once, and at most one version of a name is active. *)
Definition wf_installed (l : list Component) : Prop :=
  NoDup ((λ c, (Name c, Version c)) <$> l) ∧
  ∀ c d, c ∈ l → d ∈ l → Name c = Name d → IsActive c = true → IsActive d = true →
    Version c = Version d.

(** The steps of the program on the list of installed components. *)
Inductive step (w : World) `{MapOrder} : ComponentManager → ComponentManager → Prop :=
| step_install cm name version :
    step w cm (InstallComponent w cm name version).1
| step_update cm name version :
    step w cm (UpdateComponent w cm name version).1
| step_default cm name version :
    step w cm (SetDefaultVersion cm name version).1
| step_remove cm name version force save :
    step w cm (RemoveComponent w cm name version force save).1
| step_remove_all cm name save :
    step w cm (RemoveComponents w cm name save).1
| step_save cm :
    step w cm (SaveInstalledComponents w cm).1
| step_load cm :
    step w cm (LoadInstalledComponents cm).1.

(** Both the list in memory and the one in the file. *)
Definition wf_manager (cm : ComponentManager) : Prop :=
  wf_installed (installed cm) ∧ ∀ l, disk cm = Some l → wf_installed l.

(** ** Lemmas *)

Lemma is_version_true name version c :
  is_version name version c = true ↔ Name c = name ∧ Version c = version.
Proof. unfold is_version. by rewrite andb_true_iff, !bool_decide_eq_true. Qed.

Lemma existsb_version name version l :
  existsb (is_version name version) l = true ↔ (name, version) ∈ (λ c, (Name c, Version c)) <$> l.
Proof.
  rewrite existsb_exists, list_elem_of_fmap. split.
  - intros (c & Hc & [<- <-]%is_version_true). exists c. split; [done|by apply list_elem_of_In].
  - intros (c & [= -> ->] & Hc). exists c. split; [by apply list_elem_of_In|].
    by apply is_version_true.
Qed.

Lemma wf_map (f : Component → Component) l :
  (∀ c, Name (f c) = Name c ∧ Version (f c) = Version c) →
  (∀ c d, c ∈ l → d ∈ l → Name c = Name d → IsActive (f c) = true → IsActive (f d) = true →
     Version c = Version d) →
  wf_installed l → wf_installed (f <$> l).
Proof.
  intros Hf Ha [Hnd _]. split.
  - rewrite <-list_fmap_compose.
    assert ((λ c, (Name c, Version c)) ∘ f <$> l = (λ c, (Name c, Version c)) <$> l) as ->; [|done].
    apply list_fmap_ext. intros i c _. simpl. by destruct (Hf c) as [-> ->].
  - intros c' d' (c & -> & Hc)%list_elem_of_fmap (d & -> & Hd)%list_elem_of_fmap.
    destruct (Hf c) as [-> ->], (Hf d) as [-> ->]. by apply Ha.
Qed.

Lemma default_entry_keys name version c :
  Name (default_entry name version c) = Name c ∧ Version (default_entry name version c) = Version c.
Proof. unfold default_entry. by case_decide. Qed.

Lemma default_entry_active name version c :
  IsActive (default_entry name version c)
  = if decide (Name c = name) then bool_decide (Version c = version) else IsActive c.
Proof. unfold default_entry. by case_decide. Qed.

Lemma wf_default name version l : wf_installed l → wf_installed (default_entry name version <$> l).
Proof.
  intros Hw. apply wf_map; [apply default_entry_keys| |done].
  intros c d Hc Hd Hn. rewrite !default_entry_active, Hn.
  case_decide; [rewrite !bool_decide_eq_true; congruence|]. by apply Hw.
Qed.

Lemma wf_filter (P : Component → Prop) `{∀ c, Decision (P c)} l :
  wf_installed l → wf_installed (filter P l).
Proof.
  intros [Hnd Ha]. split.
  - eapply sublist_NoDup; [exact Hnd|]. apply fmap_sublist, sublist_filter.
  - intros c d [_ Hc]%list_elem_of_filter [_ Hd]%list_elem_of_filter. by apply Ha.
Qed.

Lemma wf_snoc l c :
  wf_installed l → (Name c, Version c) ∉ (λ c, (Name c, Version c)) <$> l → IsActive c = false →
  wf_installed (l ++ [c]).
Proof.
  intros [Hnd Ha] Hni Hc. split.
  - rewrite fmap_app. apply NoDup_app. split_and!; [done| |apply NoDup_singleton].
    intros x Hx ->%list_elem_of_singleton. done.
  - intros a b. rewrite !elem_of_app, !list_elem_of_singleton.
    intros [Hin1| ->] [Hin2| ->]; [by apply Ha|congruence..].
Qed.

Lemma replace_first_keys name version new l :
  Name new = name → Version new = version →
  (λ c, (Name c, Version c)) <$> replace_first name version new l
  = (λ c, (Name c, Version c)) <$> l.
Proof.
  intros <- <-. induction l as [|c l IH]; simpl; [done|].
  destruct (is_version _ _ c) eqn:E; rewrite !fmap_cons; [|by f_equal].
  apply is_version_true in E as [-> ->]. done.
Qed.

Lemma replace_first_elem name version new l c :
  c ∈ replace_first name version new l → c = new ∨ c ∈ l.
Proof.
  induction l as [|d l IH]; simpl; [by intros ?%elem_of_nil|].
  destruct (is_version name version d); rewrite !elem_of_cons; intuition.
Qed.

Lemma wf_replace name version new l :
  Name new = name → Version new = version → IsActive new = false →
  wf_installed l → wf_installed (replace_first name version new l).
Proof.
  intros Hn Hv Ha [Hnd Hact]. split; [by rewrite (replace_first_keys name version new l) by done|].
  intros c d Hc%replace_first_elem Hd%replace_first_elem.
  destruct Hc as [->|Hc], Hd as [->|Hd]; [done|congruence..|by apply Hact].
Qed.

Lemma find_version_None name version l :
  find_first (is_version name version) l = None →
  (name, version) ∉ (λ c, (Name c, Version c)) <$> l.
Proof.
  rewrite find_first_None. intros H (c & [= -> ->] & Hc)%list_elem_of_fmap.
  specialize (H c Hc). assert (is_version (Name c) (Version c) c = true) by by apply is_version_true.
  congruence.
Qed.

Lemma wf_save w cm : wf_manager cm → wf_manager (SaveInstalledComponents w cm).1.
Proof.
  intros [Hi Hd]. unfold SaveInstalledComponents. destruct (write_file w); [done|].
  split; simpl; [done|]. by intros l [= <-].
Qed.

Lemma wf_set cm l : wf_manager cm → wf_installed l → wf_manager (set_installed cm l).
Proof. intros [_ Hd] Hl. by split. Qed.

Lemma wf_install w cm name version d replace :
  wf_manager cm →
  (replace = false → (name, version) ∉ (λ c, (Name c, Version c)) <$> installed cm) →
  wf_manager (install w cm name version d replace).1.
Proof.
  intros Hw Hni. unfold install. destruct (download w _ _); [done|].
  set (new := mkComponent _ _ _ _ _ _ _ _).
  set (cm1 := set_installed cm (if replace then _ else _)).
  assert (wf_manager cm1) as Hw1.
  { apply wf_set; [done|]. destruct Hw as [Hi _]. destruct replace.
    - by apply wf_replace.
    - apply wf_snoc; auto. }
  unfold SetDefaultVersion.
  assert (wf_manager (set_installed cm1 (default_entry name version <$> installed cm1))) as Hw2.
  { apply wf_set; [done|]. apply wf_default, (proj1 Hw1). }
  destruct (existsb _ _); [|done].
  pose proof (wf_save w _ Hw2) as Hw3. by destruct (SaveInstalledComponents w _).
Qed.

Lemma wf_installOrUpdate w `{MapOrder} cm name version u :
  wf_manager cm → wf_manager (installOrUpdateComponent w cm name version u).1.
Proof.
  intros Hw. unfold installOrUpdateComponent.
  destruct (FindVersion cm name version) as [[fv d]|e|]; [|done..].
  unfold FindInstallComponent. destruct (find_first _ _) as [c|] eqn:Hf; simpl.
  - destruct (negb u); [done|]. case_decide; [done|]. destruct (negb _); [done|].
    by apply wf_install.
  - apply wf_install; [done|]. intros _. by apply find_version_None.
Qed.

(** C3: whatever the commands do - installing, updating, choosing a default, removing,
    saving, reloading, with downloads and writes that succeed or fail - a component
    version stays installed at most once and at most one version of a component is
    active, in memory and in the file. *)
Theorem components_invariant (w : World) (o : MapOrder) (cm cm' : ComponentManager) :
  rtc (step w) cm cm' → wf_manager cm → wf_manager cm'.
Proof.
  induction 1 as [|cm cm1 cm2 Hs _ IH]; [done|]. intros Hw. apply IH. clear IH.
  destruct Hs as [cm name version|cm name version|cm name version|cm name version force save|
                  cm name save|cm|cm].
  - by apply wf_installOrUpdate.
  - by apply wf_installOrUpdate.
  - simpl. apply wf_set; [done|]. apply wf_default, (proj1 Hw).
  - unfold RemoveComponent. destruct (existsb _ _); [done|]. case_decide; [done|].
    assert (wf_manager (set_installed cm (filter (λ c, is_version name version c = false) (installed cm))))
      by (apply wf_set; [done|]; apply wf_filter, (proj1 Hw)).
    destruct save; [by apply wf_save|done].
  - unfold RemoveComponents. destruct (filter _ _); [done|].
    assert (wf_manager (set_installed cm (filter (λ c, Name c ≠ name) (installed cm)))) as Hw1
      by (apply wf_set; [done|]; apply wf_filter, (proj1 Hw)).
    destruct save; [|done]. pose proof (wf_save w _ Hw1). by destruct (SaveInstalledComponents w _).
  - by apply wf_save.
  - unfold LoadInstalledComponents. destruct (disk cm) eqn:E; [|done]. simpl.
    apply wf_set; [done|]. by apply Hw.
Qed.

Definition sample_repo : BinaryRepoData := {|
  Binary := "dingo-mds"; GeneratedAt := ""; Commits := ∅;
  Branches := {["main" := mkBinaryDetail "main/dingo-mds" "2026-01-03" "" "c3"]};
  Tags := {["v9.0.0" := mkBinaryDetail "v9/dingo-mds" "2026-01-01" "" "c1";
            "v10.0.0" := mkBinaryDetail "v10/dingo-mds" "2026-01-02" "" "c2"]} |}.
Definition sample_manager : ComponentManager := {|
  rootDir := "/root/.dingo/components"; installed := []; avaliable := [];
  repodata := {["dingo-mds" := sample_repo]}; mirror := "https://m"; disk := None |}.
Definition sample_world : World :=
  mkWorld (λ base p, base +:+ "/" +:+ p) (λ _ _, None) None.

(** Install 9, install 10, make 9 the default again, remove 10. *)
Definition sample_run : ComponentManager :=
  let cm := (InstallComponent sample_world (H := canonical_order) sample_manager "dingo-mds" "v9.0.0").1 in
  let cm := (InstallComponent sample_world (H := canonical_order) cm "dingo-mds" "v10.0.0").1 in
  let cm := (SetDefaultVersion cm "dingo-mds" "v9.0.0").1 in
  (RemoveComponent sample_world cm "dingo-mds" "v10.0.0" false true).1.

Lemma components_invariant_witness :
  wf_manager sample_run ∧
  (λ c, (Version c, IsActive c)) <$> installed sample_run = [("v9.0.0", true)].
Proof.
  split; [|vm_compute; reflexivity].
  apply (components_invariant sample_world canonical_order sample_manager).
  - unfold sample_run.
    eapply rtc_l; [apply (step_install _ _ "dingo-mds" "v9.0.0")|].
    eapply rtc_l; [apply (step_install _ _ "dingo-mds" "v10.0.0")|].
    eapply rtc_l; [apply (step_default _ _ "dingo-mds" "v9.0.0")|].
    eapply rtc_l; [apply (step_remove _ _ "dingo-mds" "v10.0.0" false true)|]. apply rtc_refl.
  - split; [|done]. split; [apply NoDup_nil_2|]. intros c d Hc. by apply elem_of_nil in Hc.
Defined.

(** ** Installing *)

Lemma find_first_snoc {A} (p : A → bool) l a :
  (∀ x, x ∈ l → p x = false) → p a = true → find_first p (l ++ [a]) = Some a.
Proof.
  intros Hl Ha. induction l as [|b l IH]; simpl; [by rewrite Ha|].
  rewrite Hl by (by left). apply IH. intros x Hx. apply Hl. by right.
Qed.

(** Installing a version that the repository has and that is not installed yet,
    with a download that succeeds: it becomes the last installed entry and the
    active one of its name, every other version of that name is deactivated, the
    other components are untouched, and the list is written out.  The component
    handed back to the caller is not marked active. *)
Theorem InstallComponent_activates (w : World) (o : MapOrder) (cm : ComponentManager)
    (name version fv : string) (d : BinaryDetail) :
  FindVersion cm name version = Ok (fv, d) →
  IsInstalled_ cm name fv = false →
  (∀ url dir, download w url dir = None) →
  ∃ cm' new, InstallComponent w cm name version = (cm', (Some new, write_file w)) ∧
    Name new = name ∧ Version new = fv ∧ IsActive new = false ∧
    installed cm' = (default_entry name fv <$> installed cm) ++ [set_active true new] ∧
    GetActiveComponent cm' name = (Some (set_active true new), None) ∧
    (write_file w = None → disk cm' = Some (installed cm')).
Proof.
  intros Hf Hni Hdl. unfold InstallComponent, installOrUpdateComponent. rewrite Hf.
  unfold FindInstallComponent, IsInstalled_ in *.
  assert (∀ c, c ∈ installed cm → is_version name fv c = false) as Hno.
  { intros c Hc. destruct (is_version name fv c) eqn:E; [|done].
    assert (existsb (is_version name fv) (installed cm) = true) by
      (apply existsb_exists; exists c; by rewrite <-list_elem_of_In). congruence. }
  rewrite (proj2 (find_first_None _ _) Hno). simpl. unfold install. rewrite Hdl.
  set (new := mkComponent _ _ _ _ _ _ _ _). cbn [set_installed installed].
  unfold SetDefaultVersion. cbn [set_installed installed].
  assert (existsb (is_version name fv) (installed cm ++ [new]) = true) as ->.
  { rewrite existsb_app. simpl. unfold is_version. simpl. rewrite !bool_decide_true by done.
    simpl. by rewrite orb_true_r. }
  assert (default_entry name fv <$> installed cm ++ [new]
          = (default_entry name fv <$> installed cm) ++ [set_active true new]) as ->.
  { rewrite fmap_app. simpl. unfold default_entry at 2. simpl.
    by rewrite decide_True, bool_decide_true. }
  assert (∀ l, GetActiveComponent (mkManager (rootDir cm) ((default_entry name fv <$> installed cm)
             ++ [set_active true new]) (avaliable cm) (repodata cm) (mirror cm) l) name
          = (Some (set_active true new), None)) as Hact.
  { intros l. unfold GetActiveComponent. cbn [installed]. rewrite find_first_snoc; [done| |].
    - intros x (c & -> & Hc)%list_elem_of_fmap. destruct (default_entry_keys name fv c) as [-> _].
      rewrite default_entry_active. specialize (Hno c Hc). unfold is_version in Hno.
      case_bool_decide; [|done]. rewrite decide_True by done. done.
    - simpl. by rewrite bool_decide_true. }
  unfold SaveInstalledComponents. destruct (write_file w) as [e|].
  - eexists _, new. split_and!; try reflexivity; [|done]. apply (Hact (disk cm)).
  - eexists _, new. split_and!; try reflexivity. apply (Hact (Some _)).
Qed.

Lemma InstallComponent_activates_witness :
  let cm := (InstallComponent sample_world (H := canonical_order) sample_manager "dingo-mds" "v10.0.0").1 in
  ∃ cm' new, InstallComponent sample_world (H := canonical_order) cm "dingo-mds" "latest"
               = (cm', (Some new, None)) ∧
    (λ c, (Version c, IsActive c)) <$> installed cm' = [("v10.0.0", false); ("v9.0.0", true)].
Proof.
  intros cm.
  destruct (InstallComponent_activates sample_world canonical_order cm "dingo-mds" "latest" "v9.0.0"
              (mkBinaryDetail "v9/dingo-mds" "2026-01-01" "" "c1"))
    as (cm' & new & Hi & _ & Hv & _ & Hl & _); [vm_compute; reflexivity..|done|].
  exists cm', new. split; [exact Hi|]. rewrite Hl, fmap_app. simpl. rewrite Hv. reflexivity.
Defined.

(** ** The latest version *)

Lemma compare_refl s : String.compare s s = Eq.
Proof.
  pose proof (String.compare_antisym s s) as H. by destruct (String.compare s s).
Qed.

Lemma ltb_trans s1 s2 s3 :
  String.ltb s1 s2 = true → String.ltb s2 s3 = true → String.ltb s1 s3 = true.
Proof.
  unfold String.ltb. revert s2 s3; induction s1 as [|a s1 IH]; intros [|b s2] [|c s3]; simpl; try done.
  destruct (Ascii.compare a b) eqn:Hab, (Ascii.compare b c) eqn:Hbc; try done.
  - apply Ascii.compare_eq_iff in Hab as ->. rewrite Hbc. apply IH.
  - apply Ascii.compare_eq_iff in Hab as ->. by rewrite Hbc.
  - apply Ascii.compare_eq_iff in Hbc as ->. by rewrite Hab.
  - intros _ _. unfold Ascii.compare in *. rewrite N.compare_lt_iff in Hab, Hbc.
    assert (N.compare (N_of_ascii a) (N_of_ascii c) = Lt) as -> by (apply N.compare_lt_iff; lia). done.
Qed.

Lemma ltb_irrefl s : String.ltb s s = false.
Proof. unfold String.ltb. by rewrite compare_refl. Qed.

Section latest.
Context `{MapOrder}.

Definition max_step (latest : string) (tag : string * BinaryDetail) : string :=
  let '(version, _) := tag in if String.ltb latest version then version else latest.

Lemma max_loop (l : list (string * BinaryDetail)) :
  let m := foldl max_step "v0.0.0" l in
  (m = "v0.0.0" ∨ m ∈ l.*1) ∧ String.ltb m "v0.0.0" = false ∧
  ∀ t, t ∈ l.*1 → String.ltb m t = false.
Proof.
  induction l as [|[v d] l IH] using rev_ind; simpl.
  { split_and!; [by left|done|by intros t ?%elem_of_nil]. }
  rewrite foldl_app. simpl. destruct IH as (Hm & H0 & Hall).
  set (m := foldl max_step "v0.0.0" l) in *. clearbody m.
  rewrite fmap_app. setoid_rewrite elem_of_app. setoid_rewrite list_elem_of_singleton. simpl.
  destruct (String.ltb m v) eqn:E.
  - split_and!; [by right; right| |].
    + destruct (String.ltb v "v0.0.0") eqn:E0; [|done].
      by rewrite (ltb_trans _ _ _ E E0) in H0.
    + intros t [Ht| ->]; [|apply ltb_irrefl]. destruct (String.ltb v t) eqn:Et; [|done].
      by rewrite <-(Hall t Ht), (ltb_trans _ _ _ E Et).
  - split_and!; [tauto|done|]. intros t [Ht| ->]; [by apply Hall|done].
Qed.

Lemma elem_of_range_fst {V} (m : gmap string V) k : k ∈ (range m).*1 ↔ is_Some (m !! k).
Proof.
  rewrite list_elem_of_fmap. split.
  - intros ([k' v] & -> & Hin%elem_of_range). eauto.
  - intros [v Hv]. exists (k, v). split; [done|]. by apply elem_of_range.
Qed.
End latest.

(** The latest version is the greatest tag in byte order, whatever the iteration
    order: no tag is greater.  Byte order is not version order: among [v9.0.0] and
    [v10.0.0] it is [v9.0.0]. *)
Theorem GetLatest_greatest (o : MapOrder) (b : BinaryRepoData) :
  (∀ v d, GetLatest b = Some (v, d) →
     Tags b !! v = Some d ∧ ∀ t, is_Some (Tags b !! t) → String.ltb v t = false) ∧
  (GetLatest b = None → ∀ t, is_Some (Tags b !! t) → String.ltb "v0.0.0" t = false) ∧
  fst <$> GetLatest sample_repo = Some "v9.0.0".
Proof.
  assert (∀ b, GetLatest b = (tag ← Tags b !! foldl max_step "v0.0.0" (range (Tags b));
                              Some (foldl max_step "v0.0.0" (range (Tags b)), tag))) as Hg by done.
  assert (∀ b v d, GetLatest b = Some (v, d) →
     Tags b !! v = Some d ∧ ∀ t, is_Some (Tags b !! t) → String.ltb v t = false) as H1.
  { intros b' v d. rewrite Hg. intros (tag & Ht & [= <- <-])%bind_Some. split; [done|].
    intros t Hin. apply (max_loop (range (Tags b'))). by apply elem_of_range_fst. }
  split; [apply H1|]. split.
  - rewrite Hg. destruct (max_loop (range (Tags b))) as (Hm & _ & Hall).
    set (m := foldl max_step "v0.0.0" (range (Tags b))) in *.
    destruct (Tags b !! m) as [d|] eqn:E; [done|]. intros _ t Ht.
    destruct Hm as [<-|Hm]; [by apply Hall, elem_of_range_fst|].
    apply elem_of_range_fst in Hm as [? ?]. congruence.
  - destruct (GetLatest sample_repo) as [[v d]|] eqn:E; simpl.
    + destruct (H1 _ _ _ E) as [Hv Hall].
      assert (v ≠ "v10.0.0") as Hne.
      { intros ->. specialize (Hall "v9.0.0"). assert (true = false); [|done].
        apply Hall. by eexists. }
      simpl in Hv. apply lookup_insert_Some in Hv as [[<- _]|[_ Hv]]; [done|].
      apply lookup_singleton_Some in Hv as [<- _]. done.
    + exfalso. rewrite Hg in E. destruct (max_loop (range (Tags sample_repo))) as (Hm & _ & Hall).
      set (m := foldl max_step "v0.0.0" (range (Tags sample_repo))) in *.
      destruct Hm as [Hm|Hm].
      * specialize (Hall "v9.0.0"). rewrite Hm in Hall. assert (true = false); [|done].
        apply Hall, elem_of_range_fst. by eexists.
      * apply elem_of_range_fst in Hm as [d Hd]. by rewrite Hd in E.
Qed.

(** A component argument [name:version] is split at its first colon; an argument
    without a colon is a name with no version. *)
Theorem ParseComponentVersion_split (n v : string) :
  StrContains n ":" = false →
  ParseComponentVersion (n +:+ ":" +:+ v) = (n, v) ∧ ParseComponentVersion n = (n, "").
Proof.
  intros Hn.
  assert (cut_colon (n +:+ ":" +:+ v) = Some (n, v) ∧ cut_colon n = None) as [H1 H2].
  { induction n as [|a n IH]; [done|]. cbn [StrContains] in Hn.
    apply orb_false_iff in Hn as [Ha Hn]. destruct (IH Hn) as [IH1 IH2].
    assert (a ≠ ":"%char) as Hne.
    { intros ->. unfold HasPrefix in Ha. simpl in Ha. done. }
    change (String a n +:+ ":" +:+ v) with (String a (n +:+ ":" +:+ v)).
    cbn [cut_colon]. rewrite !decide_False by done. by rewrite IH1, IH2. }
  unfold ParseComponentVersion. by rewrite H1, H2.
Qed.

Lemma ParseComponentVersion_split_witness :
  ParseComponentVersion "dingo-mds:v1.0.0:rc1" = ("dingo-mds", "v1.0.0:rc1").
Proof. apply (ParseComponentVersion_split "dingo-mds" "v1.0.0:rc1"). reflexivity. Defined.
