(* ===== verification/Tasks.v ===== *)
(** Running tasks (src/internal/task/task/task.go, src/internal/tasks: tasks.go,
    monitor.go; src/internal/task/tasks holds an older copy of the last two).

    A task is a list of steps on a machine reached over ssh; [Execute] of a task
    runs them in order.  [Tasks.Execute] starts one goroutine per task and bounds
    the running ones by a buffered channel.  The goroutines interleave step by
    step on a shared world [W]: [next] is the small-step semantics, one atomic
    operation of the dispatching goroutine or of a worker at a time, and the
    theorems hold for every interleaving. *)

From S2P Require Import Prelude Errno GoLib.

(** [ERR_SKIP_TASK] and [ERR_TASK_DONE] are compared by identity. *)
Inductive terror : Type :=
| ERR_SKIP_TASK
| ERR_TASK_DONE
| EOther (e : error).

#[export] Instance terror_eq_dec : EqDecision terror.
Proof. solve_decision. Defined.

(** ** The register of a task context (context/register.go) *)

Definition Register : Type := gmap string val.
Definition NewRegister : Register := ∅.
Definition Register_Set (r : Register) (k : string) (v : val) : Register := <[k := v]> r.
Definition Register_Get (r : Register) (k : string) : val := map_get r k.

(** ** The monitor (monitor.go) *)

Inductive STATUS : Type := STATUS_OK | STATUS_SKIP | STATUS_ERROR.

Record monitor : Type := mkMonitor {
  m_err : option terror;
  m_result : gmap nat (list (option terror));
}.

Definition newMonitor : monitor := mkMonitor None ∅.
Definition m_error (m : monitor) : option terror := m_err m.

Definition results (m : monitor) (bid : nat) : list (option terror) := default [] (m_result m !! bid).

(** One iteration of the loop of [sum] on the counters (success, skip, error). *)
Definition sum_step (n : nat * nat * nat) (err : option terror) : nat * nat * nat :=
  let '(nsucc, nskip, nerr) := n in
  match err with
  | None => (S nsucc, nskip, nerr)
  | Some ERR_SKIP_TASK => (nsucc, S nskip, nerr)
  | Some _ => (nsucc, nskip, S nerr)
  end.
Definition m_sum (m : monitor) (bid : nat) : nat * nat * nat :=
  foldl sum_step (0, 0, 0) (results m bid).

Definition m_set (m : monitor) (bid : nat) (err : option terror) : monitor :=
  mkMonitor
    (match err with None | Some ERR_SKIP_TASK => m_err m | Some e => Some e end)
    (<[bid := results m bid ++ [err]]> (m_result m)).

Definition m_get (m : monitor) (bid : nat) : STATUS :=
  let '(nsucc, nskip, nerr) := m_sum m bid in
  let total := nsucc + nskip + nerr in
  if decide (nerr ≠ 0) then STATUS_ERROR
  else if decide (nskip = total) then STATUS_SKIP
  else STATUS_OK.

Record ExecOptions : Type := mkExecOptions {
  Concurrency : nat;
  SilentMainBar : bool;
  SilentSubBar : bool;
  SkipError : bool;
}.

Definition initOptions (o : ExecOptions) : ExecOptions :=
  if decide (Concurrency o = 0) then
    mkExecOptions 10 (SilentMainBar o) (SilentSubBar o) (SkipError o)
  else o.

(** ** Tasks *)

Section tasks.
(** The world the steps act on, ssh configurations and clients, and the connection
    itself ([module.NewSSHClient], [Client().Close]). *)
Context {W SSHConfig Client : Type}.

(** A step sees the context: the client, the register and the world. *)
Definition Step : Type := option Client → Register → W → Register * W * option terror.

Record Task : Type := mkTask {
  tid : string;
  ptid : string;
  name : string;
  subname : string;
  steps : list Step;
  postSteps : list Step;
  sshConfig : option SSHConfig;
}.

(** [id] is the start of a fresh uuid. *)
Definition NewTask (id name subname : string) (c : option SSHConfig) : Task :=
  mkTask id id name subname [] [] c.
Definition SetTid (t : Task) (i : string) : Task :=
  mkTask i (ptid t) (name t) (subname t) (steps t) (postSteps t) (sshConfig t).
Definition SetPtid (t : Task) (p : string) : Task :=
  mkTask (tid t) p (name t) (subname t) (steps t) (postSteps t) (sshConfig t).
Definition AddStep (t : Task) (s : Step) : Task :=
  mkTask (tid t) (ptid t) (name t) (subname t) (steps t ++ [s]) (postSteps t) (sshConfig t).
Definition AddPostStep (t : Task) (s : Step) : Task :=
  mkTask (tid t) (ptid t) (name t) (subname t) (steps t) (postSteps t ++ [s]) (sshConfig t).

Record SSH : Type := mkSSH {
  NewSSHClient : SSHConfig → W → W * (Client + error);
  CloseClient : Client → W → W;
}.
Context (ssh : SSH).

Definition connect (t : Task) (w : W) : W * (option Client + terror) :=
  match sshConfig t with
  | None => (w, inl None)
  | Some c =>
      match NewSSHClient ssh c w with
      | (w, inl cl) => (w, inl (Some cl))
      | (w, inr _) => (w, inr (EOther (ECode ERR_SSH_CONNECT_FAILED)))
      end
  end.

(** [ctx.Close]. *)
Definition close (cl : option Client) (w : W) : W :=
  match cl with Some c => CloseClient ssh c w | None => w end.

(** What an error of a step means for the task: [None] to go on. *)
Definition after_step (e : option terror) : option (option terror) :=
  match e with
  | None => None
  | Some ERR_TASK_DONE | Some ERR_SKIP_TASK => Some None
  | Some e => Some (Some e)
  end.

Fixpoint execute_steps (cl : option Client) (l : list Step) (reg : Register) (w : W)
    : Register * W * option terror :=
  match l with
  | [] => (reg, w, None)
  | s :: l =>
      let '(reg, w, err) := s cl reg w in
      match after_step err with
      | None => execute_steps cl l reg w
      | Some r => (reg, w, r)
      end
  end.

Fixpoint executePost (cl : option Client) (l : list Step) (reg : Register) (w : W)
    : Register * W :=
  match l with
  | [] => (reg, w)
  | s :: l =>
      let '(reg, w, err) := s cl reg w in
      match err with None => executePost cl l reg w | Some _ => (reg, w) end
  end.

(** [Task.Execute]; the deferred calls run in the reverse order of their [defer]. *)
Definition task_Execute (t : Task) (w : W) : W * option terror :=
  match connect t w with
  | (w, inr e) => (w, Some e)
  | (w, inl cl) =>
      let '(reg, w, r) := execute_steps cl (steps t) NewRegister w in
      let '(_, w) := executePost cl (postSteps t) reg w in
      (close cl w, r)
  end.

(** ** Tasks.Execute *)

(** Where a worker goroutine is.  [id] is the id of its bar, 0 without one. *)
Inductive phase : Type :=
| PStart
| PConnect (id : nat)
| PSteps (id : nat) (cl : option Client) (reg : Register) (l : list Step)
| PPost (id : nat) (cl : option Client) (reg : Register) (l : list Step) (r : option terror)
| PReport (id : nat) (r : option terror)
| PRelease
| PDone.

(** Where the dispatching goroutine is: at the head of the loop, sending to
    [workers], starting the goroutine, returned. *)
Inductive main_pc : Type :=
| MLoop (l : list Task)
| MSend (t : Task) (l : list Task)
| MSpawn (t : Task) (l : list Task)
| MReturn (r : option terror).

Record St : Type := mkSt {
  main : main_pc;
  live : list (Task * phase);
  wg : nat;                      (* the wait group's counter *)
  chan : nat;                    (* the elements in the channel [workers] *)
  bars : nat;                    (* the bars added so far *)
  subBar : gmap string nat;
  mainBar : option nat;
  mon : monitor;
  world : W;
  log : list (Task * nat * option terror); (* history: what was reported, in order *)
}.

(** [progress.Add] numbers the bars. *)
Context (bar_id : nat → nat).

Definition set_main (m : main_pc) (s : St) : St :=
  mkSt m (live s) (wg s) (chan s) (bars s) (subBar s) (mainBar s) (mon s) (world s) (log s).
Definition set_live (l : list (Task * phase)) (s : St) : St :=
  mkSt (main s) l (wg s) (chan s) (bars s) (subBar s) (mainBar s) (mon s) (world s) (log s).
Definition set_wg (n : nat) (s : St) : St :=
  mkSt (main s) (live s) n (chan s) (bars s) (subBar s) (mainBar s) (mon s) (world s) (log s).
Definition set_chan (n : nat) (s : St) : St :=
  mkSt (main s) (live s) (wg s) n (bars s) (subBar s) (mainBar s) (mon s) (world s) (log s).
Definition set_world (w : W) (s : St) : St :=
  mkSt (main s) (live s) (wg s) (chan s) (bars s) (subBar s) (mainBar s) (mon s) w (log s).
Definition set_mon (m : monitor) (s : St) : St :=
  mkSt (main s) (live s) (wg s) (chan s) (bars s) (subBar s) (mainBar s) m (world s) (log s).

Definition addMainBar (s : St) : St :=
  mkSt (main s) (live s) (wg s) (chan s) (S (bars s)) (subBar s) (Some (bar_id (bars s)))
    (mon s) (world s) (log s).

Definition addSubBar (t : Task) (s : St) : St :=
  match subBar s !! ptid t with
  | Some _ => s
  | None =>
      mkSt (main s) (live s) (wg s) (chan s) (S (bars s))
        (<[ptid t := bar_id (bars s)]> (subBar s)) (mainBar s) (mon s) (world s) (log s)
  end.

Context `{MapOrder} (opts : ExecOptions).

(** The loop of [setMainBarStatus]: [None] when a bar with an error was met. *)
Definition count_ok (m : monitor) (l : list (string * nat)) : option nat :=
  foldr (λ '(_, bar) n, n ← n;
           match m_get m bar with
           | STATUS_ERROR => None
           | STATUS_OK => Some (S n)
           | STATUS_SKIP => Some n
           end) (Some 0) l.

Definition setMainBarStatus (id : nat) (s : St) : St :=
  let m := mon s in
  set_mon (match count_ok m (range (subBar s)) with
           | None => m_set m id (m_error m)
           | Some 0 => m_set m id (Some ERR_SKIP_TASK)
           | Some _ => m_set m id None
           end) s.

(** What follows [ts.wg.Wait]. *)
Definition finish (s : St) : St :=
  let s := match mainBar s with Some id => setMainBarStatus id s | None => s end in
  set_main (MReturn (m_error (mon s))) s.

(** One operation of the dispatching goroutine; [None] when it is blocked or has
    returned. *)
Definition main_step (s : St) : option St :=
  match main s with
  | MLoop [] => if decide (wg s = 0) then Some (finish s) else None
  | MLoop (t :: l) => Some (set_main (MSend t l) (set_wg (S (wg s)) s))
  | MSend t l =>
      if decide (chan s < Concurrency opts) then
        Some (set_main (MSpawn t l) (set_chan (S (chan s)) s))
      else None
  | MSpawn t l =>
      let s := if SilentSubBar opts then s else addSubBar t s in
      Some (set_main (MLoop l) (set_live (live s ++ [(t, PStart)]) s))
  | MReturn _ => None
  end.

(** [monitor.set] of a worker, recorded in the history. *)
Definition report (t : Task) (id : nat) (r : option terror) (s : St) : St :=
  mkSt (main s) (live s) (wg s) (chan s) (bars s) (subBar s) (mainBar s) (m_set (mon s) id r)
    (world s) (log s ++ [(t, id, r)]).

(** One operation of a worker before it leaves: its new phase and the new state. *)
Definition worker_step (t : Task) (p : phase) (s : St) : option (phase * St) :=
  match p with
  | PStart => Some (PConnect (default 0 (subBar s !! ptid t)), s)
  | PConnect id =>
      match connect t (world s) with
      | (w, inl cl) => Some (PSteps id cl NewRegister (steps t), set_world w s)
      | (w, inr e) => Some (PReport id (Some e), set_world w s)
      end
  | PSteps id cl reg [] => Some (PPost id cl reg (postSteps t) None, s)
  | PSteps id cl reg (st :: l) =>
      let '(reg, w, err) := st cl reg (world s) in
      Some (match after_step err with
            | None => PSteps id cl reg l
            | Some r => PPost id cl reg (postSteps t) r
            end, set_world w s)
  | PPost id cl reg [] r => Some (PReport id r, set_world (close cl (world s)) s)
  | PPost id cl reg (st :: l) r =>
      let '(reg, w, err) := st cl reg (world s) in
      Some (PPost id cl reg (match err with None => l | Some _ => [] end) r, set_world w s)
  | PReport id r => Some (PRelease, report t id r s)
  | PRelease => Some (PDone, set_chan (pred (chan s)) s)
  | PDone => None
  end.

(** The scheduler picks the dispatching goroutine ([None]) or a worker. *)
Definition next (c : option nat) (s : St) : option St :=
  match c with
  | None => main_step s
  | Some i =>
      match live s !! i with
      | None => None
      | Some (t, PDone) => Some (set_wg (pred (wg s)) (set_live (delete i (live s)) s))
      | Some (t, p) =>
          '(p', s') ← worker_step t p s; Some (set_live (<[i := (t, p')]> (live s')) s')
      end
  end.

Definition step (s s' : St) : Prop := ∃ c, next c s = Some s'.

(** The state in which the loop of a non-empty [Execute] starts. *)
Definition init (tasks : list Task) (w : W) : St :=
  let s := mkSt (MLoop tasks) [] 0 0 0 ∅ None newMonitor w [] in
  if SilentMainBar opts then s else addMainBar s.

(** A schedule, for examples. *)
Fixpoint run (cs : list (option nat)) (s : St) : option St :=
  match cs with [] => Some s | c :: cs => s' ← next c s; run cs s' end.

(** The tasks that belong to one bar. *)
Definition CountPtid (tasks : list Task) (p : string) : nat :=
  length (filter (λ t, ptid t = p) tasks).
End tasks.

Arguments Task : clear implicits.
Arguments SSH : clear implicits.
Arguments St : clear implicits.
Arguments phase : clear implicits.
Arguments main_pc : clear implicits.
