(* ===== verification/TasksFacts.v ===== *)
(** Theorems about running tasks: what [Task.Execute] runs and returns, and, for
    every interleaving of the goroutines of [Tasks.Execute], the bound on running
    workers, the result, the status bars and termination. *)

From stdpp Require Import relations.
From S2P Require Import Prelude Errno GoLib Tasks.

(** A result a task can have. *)
Definition is_result (r : option terror) : Prop :=
  match r with None | Some (EOther _) => True | _ => False end.

(** ** Counting results *)

Definition failures (l : list (option terror)) : nat := length (filter (λ r, r ≠ None) l).

Lemma sum_results l a b c :
  Forall is_result l →
  foldl sum_step (a, b, c) l = (a + (length l - failures l), b, c + failures l)
  ∧ failures l ≤ length l.
Proof.
  unfold failures. revert a b c. induction l as [|r l IH]; intros a b c; simpl.
  { intros _. split; [rewrite !pair_equal_spec|]; lia. }
  rewrite Forall_cons. intros [Hr Hl]. destruct r as [e|].
  - destruct e; try done. rewrite filter_cons_True by done. simpl.
    destruct (IH a b (S c) Hl) as [-> Hle]. split; [rewrite !pair_equal_spec|]; lia.
  - rewrite filter_cons_False by naive_solver.
    destruct (IH (S a) b c Hl) as [-> Hle]. split; [rewrite !pair_equal_spec|]; lia.
Qed.

Lemma m_sum_results m id :
  Forall is_result (results m id) →
  m_sum m id = (length (results m id) - failures (results m id), 0, failures (results m id)).
Proof. intros Hl. unfold m_sum. by destruct (sum_results _ 0 0 0 Hl) as [-> _]. Qed.

Lemma m_get_results m id :
  Forall is_result (results m id) →
  m_get m id = if decide (failures (results m id) ≠ 0) then STATUS_ERROR
               else if decide (results m id = []) then STATUS_SKIP else STATUS_OK.
Proof.
  intros Hl. pose proof (proj2 (sum_results _ 0 0 0 Hl)) as Hle.
  unfold m_get. rewrite m_sum_results by done.
  pose proof (length_zero_iff_nil (results m id)) as [H0 H1].
  repeat case_decide; try done; try (specialize (H1 ltac:(done)); lia).
  by destruct H0; [lia|].
Qed.

Lemma failures_0 l : failures l = 0 ↔ Forall (λ r, r = None) l.
Proof.
  unfold failures. rewrite length_zero_iff_nil, Forall_forall. split.
  - intros Hf r Hr. destruct r; [|done]. exfalso.
    assert (Some t ∈ filter (λ r, r ≠ None) l) as Hin by (by apply list_elem_of_filter).
    rewrite Hf in Hin. by apply elem_of_nil in Hin.
  - intros Hall. destruct (filter _ l) as [|r k] eqn:E; [done|].
    assert (r ∈ filter (λ r, r ≠ None) l) as [Hn Hin]%list_elem_of_filter by (rewrite E; left).
    by destruct (Hn (Hall r Hin)).
Qed.

Lemma count_ok_None m l : count_ok m l = None ↔ ∃ p b, (p, b) ∈ l ∧ m_get m b = STATUS_ERROR.
Proof.
  induction l as [|[p b] l IH]; simpl.
  { split; [done|]. intros (p & b & Hin & _). by apply elem_of_nil in Hin. }
  setoid_rewrite elem_of_cons. destruct (count_ok m l) as [n|] eqn:E; simpl.
  - assert (¬ ∃ p b, (p, b) ∈ l ∧ m_get m b = STATUS_ERROR) as Hno by (by intros ?%IH).
    destruct (m_get m b) eqn:Hb; split; try done.
    1,2: intros (p' & b' & [[= -> ->]|Hin] & He); [congruence|destruct Hno; eauto].
    intros _. exists p, b. auto.
  - split; [|done]. intros _. destruct (proj1 IH eq_refl) as (p' & b' & ? & ?). eauto.
Qed.

Lemma count_ok_0 m l p b :
  (p, b) ∈ l → m_get m b = STATUS_OK → count_ok m l ≠ Some 0.
Proof.
  induction l as [|[p' b'] l IH]; simpl; [by intros ?%elem_of_nil|].
  rewrite elem_of_cons. intros [[= <- <-]|Hin] Hb.
  - rewrite Hb. by destruct (count_ok m l).
  - specialize (IH Hin Hb). destruct (count_ok m l) as [[|n]|]; simpl; try done.
    by destruct (m_get m b').
Qed.
Lemma results_m_set m id r id' :
  results (m_set m id r) id' = if decide (id' = id) then results m id ++ [r] else results m id'.
Proof.
  unfold results at 1. simpl. case_decide; subst; [by rewrite lookup_insert_eq|].
  by rewrite lookup_insert_ne.
Qed.

(** ** Interleavings *)

(** [l] merges the lists [ls], each in its own order. *)
Inductive interleaves {A : Type} : list (list A) → list A → Prop :=
| il_nil : interleaves [] []
| il_new ls l : interleaves ls l → interleaves ([] :: ls) l
| il_next tr ls l x : interleaves (tr :: ls) l → interleaves ((tr ++ [x]) :: ls) (l ++ [x])
| il_perm ls ls' l : interleaves ls l → ls ≡ₚ ls' → interleaves ls' l.

#[global] Instance interleaves_proper {A} :
  Proper ((≡ₚ) ==> (=) ==> iff) (@interleaves A).
Proof. intros ls ls' Hp l l' <-. split; intros Hi; by eapply il_perm. Qed.

Lemma interleaves_append {A} ls1 tr op ls2 (l : list A) :
  interleaves (ls1 ++ tr :: ls2) l → interleaves (ls1 ++ (tr ++ op) :: ls2) (l ++ op).
Proof.
  revert tr l; induction op as [|x op IH]; intros tr l; [by rewrite !app_nil_r|].
  intros Hi. rewrite (cons_middle x l op), (cons_middle x tr op), !(assoc_L (++)). apply IH.
  rewrite <-Permutation_middle. apply il_next. by rewrite Permutation_middle.
Qed.

(** The operations [ops], given by the worlds before and after each, lead from the
    world [w] to [w']. *)
Fixpoint chain {W : Type} (ops : list (W * W)) (w w' : W) : Prop :=
  match ops with
  | [] => w' = w
  | (a, b) :: ops => a = w ∧ chain ops b w'
  end.

Lemma chain_app {W} (ops ops' : list (W * W)) w w1 w2 :
  chain ops w w1 → chain ops' w1 w2 → chain (ops ++ ops') w w2.
Proof.
  revert w; induction ops as [|[a b] ops IH]; intros w; simpl; [by intros ->|].
  intros [-> Hc] ?. split; [done|by apply IH].
Qed.

Section facts.
Context {W SSHConfig Client : Type} (ssh : SSH W SSHConfig Client).
Context (bar_id : nat → nat) `{MapOrder} (opts : ExecOptions).
Implicit Types t : Task W SSHConfig Client.
Implicit Types s : St W SSHConfig Client.

(** ** One task *)

(** The steps [l] ran one after the other and each returned nil. *)
Inductive ran (cl : option Client) : list Step → Register → W → Register → W → Prop :=
| ran_nil reg w : ran cl [] reg w reg w
| ran_cons (st : Step) l reg w reg1 w1 reg2 w2 :
    st cl reg w = (reg1, w1, None) → ran cl l reg1 w1 reg2 w2 → ran cl (st :: l) reg w reg2 w2.

(** What ends the run in front of the steps [l]: the end of the list, or a step with
    an error, which is the result unless it is one of the two signals. *)
Inductive stops (cl : option Client) : list Step → Register → W → Register → W → option terror → Prop :=
| stops_end reg w : stops cl [] reg w reg w None
| stops_signal (st : Step) l reg w reg' w' e :
    st cl reg w = (reg', w', Some e) → e = ERR_TASK_DONE ∨ e = ERR_SKIP_TASK →
    stops cl (st :: l) reg w reg' w' None
| stops_error (st : Step) l reg w reg' w' e :
    st cl reg w = (reg', w', Some (EOther e)) → stops cl (st :: l) reg w reg' w' (Some (EOther e)).

Lemma execute_steps_spec cl l reg w reg' w' r :
  execute_steps cl l reg w = (reg', w', r) →
  ∃ pre suf reg1 w1, l = pre ++ suf ∧ ran cl pre reg w reg1 w1 ∧ stops cl suf reg1 w1 reg' w' r.
Proof.
  revert reg w; induction l as [|st l IH]; intros reg w; simpl.
  { intros [= <- <- <-]. exists [], [], reg, w. repeat split; constructor. }
  destruct (st cl reg w) as [[reg1 w1] e] eqn:Hst. destruct e as [[| |e]|]; simpl.
  - intros [= <- <- <-]. exists [], (st :: l), reg, w. repeat split; [constructor|].
    eapply stops_signal; [exact Hst|by right].
  - intros [= <- <- <-]. exists [], (st :: l), reg, w. repeat split; [constructor|].
    eapply stops_signal; [exact Hst|by left].
  - intros [= <- <- <-]. exists [], (st :: l), reg, w. repeat split; [constructor|].
    by eapply stops_error.
  - intros (pre & suf & reg2 & w2 & -> & Hran & Hstop)%IH.
    exists (st :: pre), suf, reg2, w2. split_and!; [done| |done]. by eapply ran_cons.
Qed.

(** [Task.Execute]: when the connection fails nothing runs and the ssh error is
    returned; otherwise the steps run in order up to the first error, the post steps
    run whatever the outcome, the connection is closed last, and the result is nil at
    the end of the steps or at a skip or done signal and the step's error otherwise.
    The result is never the skip or the done signal. *)
Theorem task_Execute_spec t w w' r :
  task_Execute ssh t w = (w', r) →
  r ≠ Some ERR_SKIP_TASK ∧ r ≠ Some ERR_TASK_DONE ∧
  ((∃ e, connect ssh t w = (w', inr e) ∧ r = Some (EOther (ECode ERR_SSH_CONNECT_FAILED))) ∨
   (∃ cl w0 pre suf reg1 w1 reg2 w2,
      connect ssh t w = (w0, inl cl) ∧ steps t = pre ++ suf ∧
      ran cl pre NewRegister w0 reg1 w1 ∧ stops cl suf reg1 w1 reg2 w2 r ∧
      w' = close ssh cl (executePost cl (postSteps t) reg2 w2).2)).
Proof.
  unfold task_Execute.
  destruct (connect ssh t w) as [w0 [cl|e]] eqn:Hc.
  - destruct (execute_steps cl (steps t) NewRegister w0) as [[reg2 w2] r'] eqn:Hx.
    destruct (executePost cl (postSteps t) reg2 w2) as [reg3 w3] eqn:Hp.
    intros [= <- <-].
    destruct (execute_steps_spec _ _ _ _ _ _ _ Hx) as (pre & suf & reg1 & w1 & Hs & Hran & Hstop).
    split_and!; [by inversion Hstop|by inversion Hstop|]. right.
    exists cl, w0, pre, suf, reg1, w1, reg2, w2. rewrite Hp. done.
  - intros [= <- <-].
    assert (e = EOther (ECode ERR_SSH_CONNECT_FAILED)) as ->.
    { unfold connect in Hc. repeat case_match; by simplify_eq. }
    split_and!; [done..|]. left. eauto.
Qed.

(** A worker left alone. *)
Definition alone t (a b : phase W Client * St W SSHConfig Client) : Prop :=
  worker_step ssh t a.1 a.2 = Some b.

Lemma alone_steps t id cl l reg s :
  let '(reg', w', r) := execute_steps cl l reg (world s) in
  rtc (alone t) (PSteps id cl reg l, s) (PPost id cl reg' (postSteps t) r, set_world w' s).
Proof.
  revert reg s; induction l as [|st l IH]; intros reg s; simpl.
  { eapply rtc_once. unfold alone. simpl. destruct s; done. }
  destruct (st cl reg (world s)) as [[reg1 w1] e] eqn:Hst.
  assert (alone t (PSteps id cl reg (st :: l), s)
    (match after_step e with None => PSteps id cl reg1 l | Some r => PPost id cl reg1 (postSteps t) r end,
     set_world w1 s)) as Hone.
  { unfold alone. simpl. by rewrite Hst. }
  destruct (after_step e) as [r|]; simpl.
  - by apply rtc_once.
  - specialize (IH reg1 (set_world w1 s)). simpl in IH.
    destruct (execute_steps cl l reg1 w1) as [[reg' w'] r]. simpl.
    eapply rtc_l; [exact Hone|]. exact IH.
Qed.

Lemma alone_post t id cl l reg s r :
  rtc (alone t) (PPost id cl reg l r, s)
    (PReport id r, set_world (close ssh cl (executePost cl l reg (world s)).2) s).
Proof.
  revert reg s; induction l as [|st l IH]; intros reg s; simpl.
  { by apply rtc_once. }
  destruct (st cl reg (world s)) as [[reg1 w1] e] eqn:Hst.
  eapply rtc_l with (PPost id cl reg1 (match e with None => l | Some _ => [] end) r, set_world w1 s).
  { unfold alone. simpl. by rewrite Hst. }
  destruct e as [e|]; simpl.
  - eapply rtc_once. done.
  - exact (IH reg1 (set_world w1 s)).
Qed.

(** The small steps of a worker implement [Task.Execute]. *)
Lemma alone_Execute t id s :
  let '(w', r) := task_Execute ssh t (world s) in
  rtc (alone t) (PConnect id, s) (PReport id r, set_world w' s).
Proof.
  unfold task_Execute. destruct (connect ssh t (world s)) as [w0 [cl|e]] eqn:Hc.
  - pose proof (alone_steps t id cl (steps t) NewRegister (set_world w0 s)) as Hs. simpl in Hs.
    destruct (execute_steps cl (steps t) NewRegister w0) as [[reg2 w2] r].
    pose proof (alone_post t id cl (postSteps t) reg2 (set_world w2 s) r) as Hp. simpl in Hp.
    destruct (executePost cl (postSteps t) reg2 w2) as [reg3 w3]. simpl in Hp.
    eapply rtc_l with (PSteps id cl NewRegister (steps t), set_world w0 s).
    { unfold alone. simpl. by rewrite Hc. }
    etrans; [exact Hs|exact Hp].
  - eapply rtc_once. unfold alone. simpl. by rewrite Hc.
Qed.
(** ** The interleaved system *)

Definition todo (m : main_pc W SSHConfig Client) : list (Task W SSHConfig Client) :=
  match m with MLoop l => l | MSend t l | MSpawn t l => t :: l | MReturn _ => [] end.
(** The main goroutine has counted a worker that is not started; it holds a slot. *)
Definition counted (m : main_pc W SSHConfig Client) : nat :=
  match m with MSend _ _ | MSpawn _ _ => 1 | _ => 0 end.
Definition slot (m : main_pc W SSHConfig Client) : nat :=
  match m with MSpawn _ _ => 1 | _ => 0 end.

Definition unreported (x : Task W SSHConfig Client * phase W Client) : Prop :=
  match x.2 with PRelease | PDone => False | _ => True end.
#[global] Instance unreported_dec x : Decision (unreported x).
Proof. unfold unreported. destruct x as [t []]; simpl; apply _. Defined.

Definition holds (x : Task W SSHConfig Client * phase W Client) : Prop :=
  match x.2 with PDone => False | _ => True end.
#[global] Instance holds_dec x : Decision (holds x).
Proof. unfold holds. destruct x as [t []]; simpl; apply _. Defined.

Definition phase_result (p : phase W Client) : Prop :=
  match p with PPost _ _ _ _ r | PReport _ r => is_result r | _ => True end.

Definition all_ok (s : St W SSHConfig Client) : Prop := ∀ t id r, (t, id, r) ∈ log s → r = None.

Notation stepT := (step ssh bar_id opts).

(** The two kinds of worker operations, with the list split at the worker. *)
Inductive view s : St W SSHConfig Client → Prop :=
| view_main s' : main_step bar_id opts s = Some s' → view s s'
| view_worker l1 t p l2 p' s' :
    live s = l1 ++ (t, p) :: l2 → p ≠ PDone → worker_step ssh t p s = Some (p', s') →
    live s' = live s → view s (set_live (l1 ++ (t, p') :: l2) s')
| view_exit l1 t l2 :
    live s = l1 ++ (t, PDone) :: l2 → view s (set_wg (pred (wg s)) (set_live (l1 ++ l2) s)).

Lemma worker_step_frame t p s p' s' :
  worker_step ssh t p s = Some (p', s') →
  live s' = live s ∧ main s' = main s ∧ wg s' = wg s ∧ subBar s' = subBar s ∧
  mainBar s' = mainBar s ∧ bars s' = bars s.
Proof. unfold worker_step, report. intros Hs. repeat case_match; simplify_eq; done. Qed.

Lemma next_worker i t p s :
  live s !! i = Some (t, p) → p ≠ PDone →
  next ssh bar_id opts (Some i) s
  = '(p', s') ← worker_step ssh t p s; Some (set_live (<[i := (t, p')]> (live s')) s').
Proof. intros Hi Hp. simpl. rewrite Hi. by destruct p. Qed.

Lemma step_view s s' : stepT s s' → view s s'.
Proof.
  intros [[i|] Hn]; simpl in Hn; [|by apply view_main].
  destruct (live s !! i) as [[t p]|] eqn:Hi; [|done].
  pose proof (list_elem_of_split_length _ _ _ Hi) as (l1 & l2 & Hl & ->).
  assert (p = PDone ∨ p ≠ PDone) as [->|Hp] by (destruct p; auto).
  - simplify_eq. rewrite Hl, delete_middle. by apply view_exit with t.
  - assert (('(p', s') ← worker_step ssh t p s;
             Some (set_live (<[length l1:=(t, p')]> (live s')) s')) = Some s') as Hn'.
    { by destruct p. }
    clear Hn. destruct (worker_step ssh t p s) as [[p' s1]|] eqn:Hw; simpl in Hn'; [|done].
    simplify_eq. destruct (worker_step_frame _ _ _ _ _ Hw) as [Hl1 _].
    rewrite Hl1, Hl, insert_app_r_alt, Nat.sub_diag by lia. simpl.
    by eapply view_worker.
Qed.

(** [Task.Execute] among other goroutines.  A trace lists the operations of one
    execution, each with the world it found and the world it left; between two of them
    the world may change. *)

(** The steps [l] from the register [reg], up to the first error. *)
Inductive runs_steps (cl : option Client) :
  list Step → Register → list (W * W) → Register → option terror → Prop :=
| rs_end reg : runs_steps cl [] reg [] reg None
| rs_next (st : Step) l reg w reg1 w1 tr reg2 r :
    st cl reg w = (reg1, w1, None) → runs_steps cl l reg1 tr reg2 r →
    runs_steps cl (st :: l) reg ((w, w1) :: tr) reg2 r
| rs_signal (st : Step) l reg w reg1 w1 e :
    st cl reg w = (reg1, w1, Some e) → e = ERR_TASK_DONE ∨ e = ERR_SKIP_TASK →
    runs_steps cl (st :: l) reg [(w, w1)] reg1 None
| rs_error (st : Step) l reg w reg1 w1 e :
    st cl reg w = (reg1, w1, Some (EOther e)) →
    runs_steps cl (st :: l) reg [(w, w1)] reg1 (Some (EOther e)).

(** The post steps, up to the first error, which is dropped. *)
Inductive runs_post (cl : option Client) : list Step → Register → list (W * W) → Prop :=
| rp_end reg : runs_post cl [] reg []
| rp_next (st : Step) l reg w reg1 w1 tr :
    st cl reg w = (reg1, w1, None) → runs_post cl l reg1 tr →
    runs_post cl (st :: l) reg ((w, w1) :: tr)
| rp_error (st : Step) l reg w reg1 w1 e :
    st cl reg w = (reg1, w1, Some e) → runs_post cl (st :: l) reg [(w, w1)].

(** A whole execution: a failed connection, or the connection, the steps, the post
    steps and the end of the connection. *)
Inductive executes t : list (W * W) → option terror → Prop :=
| ex_refused w w' e :
    connect ssh t w = (w', inr e) →
    executes t [(w, w')] (Some (EOther (ECode ERR_SSH_CONNECT_FAILED)))
| ex_run w w0 cl tr1 reg r tr2 w1 :
    connect ssh t w = (w0, inl cl) →
    runs_steps cl (steps t) NewRegister tr1 reg r →
    runs_post cl (postSteps t) reg tr2 →
    executes t ((w, w0) :: tr1 ++ tr2 ++ [(w1, close ssh cl w1)]) r.

(** Without interference an execution is [Task.Execute]. *)
Lemma runs_steps_alone cl l reg tr tr' reg' r w w' :
  runs_steps cl l reg tr reg' r → chain (tr ++ tr') w w' →
  ∃ w1, execute_steps cl l reg w = (reg', w1, r) ∧ chain tr' w1 w'.
Proof.
  intros Hr. revert w.
  induction Hr as [reg|st l reg w0 reg1 w1 tr reg2 r Hst _ IH|st l reg w0 reg1 w1 e Hst He|
                   st l reg w0 reg1 w1 e Hst]; intros w; simpl.
  - intros Hc. by exists w.
  - intros [-> Hc]. rewrite Hst. by apply IH.
  - intros [-> Hc]. rewrite Hst. exists w1. by destruct He as [-> | ->].
  - intros [-> Hc]. rewrite Hst. by exists w1.
Qed.

Lemma runs_post_alone cl l reg tr tr' w w' :
  runs_post cl l reg tr → chain (tr ++ tr') w w' →
  ∃ reg' w1, executePost cl l reg w = (reg', w1) ∧ chain tr' w1 w'.
Proof.
  intros Hr. revert w.
  induction Hr as [reg|st l reg w0 reg1 w1 tr Hst _ IH|st l reg w0 reg1 w1 e Hst];
    intros w; simpl.
  - intros Hc. by exists reg, w.
  - intros [-> Hc]. rewrite Hst. by apply IH.
  - intros [-> Hc]. rewrite Hst. by exists reg1, w1.
Qed.

Lemma executes_alone t tr r w w' :
  executes t tr r → chain tr w w' → task_Execute ssh t w = (w', r).
Proof.
  unfold task_Execute. intros [w0 w1 e Hc|w0 w1 cl tr1 reg r' tr2 w2 Hc Hs Hp]; simpl.
  - intros [-> ->]. rewrite Hc. unfold connect in Hc. repeat case_match; by simplify_eq.
  - intros [-> H1]. rewrite Hc.
    destruct (runs_steps_alone _ _ _ _ _ _ _ _ _ Hs H1) as (w3 & -> & H2).
    destruct (runs_post_alone _ _ _ _ _ _ _ Hp H2) as (reg' & w4 & -> & H3).
    simpl in H3. by destruct H3 as [-> ->].
Qed.

(** What a worker in the phase [p] still has to do for its result to be [r]. *)
Definition remains t (p : phase W Client) (tr : list (W * W)) (r : option terror) : Prop :=
  match p with
  | PStart | PConnect _ => executes t tr r
  | PSteps _ cl reg l => ∃ tr1 tr2 reg' w1,
      tr = tr1 ++ tr2 ++ [(w1, close ssh cl w1)] ∧
      runs_steps cl l reg tr1 reg' r ∧ runs_post cl (postSteps t) reg' tr2
  | PPost _ cl reg l r' => ∃ tr2 w1,
      tr = tr2 ++ [(w1, close ssh cl w1)] ∧ runs_post cl l reg tr2 ∧ r = r'
  | PReport _ r' => tr = [] ∧ r = r'
  | PRelease | PDone => False
  end.

(** One operation of a worker that has not reported is the first of what remains. *)
Lemma worker_step_remains t p s p' s' :
  worker_step ssh t p s = Some (p', s') → unreported (t, p') →
  ∃ op, chain op (world s) (world s') ∧ ∀ tr r, remains t p' tr r → remains t p (op ++ tr) r.
Proof.
  intros Hs Hu. destruct p as [|id|id cl reg [|st l]|id cl reg [|st l] r|id r| |]; simpl in *.
  - simplify_eq. exists []. split; [done|]. auto.
  - destruct (connect ssh t (world s)) as [w [cl|e]] eqn:Hc; simplify_eq;
      exists [(world s, w)]; (split; [done|]).
    + intros tr r (tr1 & tr2 & reg' & w1 & -> & Hs & Hp). by eapply ex_run.
    + intros tr r [-> ->].
      assert (e = EOther (ECode ERR_SSH_CONNECT_FAILED)) as ->; [|by eapply ex_refused].
      unfold connect in Hc. repeat case_match; by simplify_eq.
  - simplify_eq. exists []. split; [done|]. intros tr r (tr2 & w1 & -> & Hp & ->).
    exists [], tr2, reg, w1. split_and!; [done|constructor|done].
  - destruct (st cl reg (world s)) as [[reg1 w1] e] eqn:Hst. simplify_eq.
    exists [(world s, w1)]. split; [done|]. destruct e as [[| |e]|]; simpl.
    1-3: intros tr r (tr2 & w2 & -> & Hp & ->); eexists [_], tr2, reg1, w2; (split_and!; [done| |done]).
    + eapply rs_signal; eauto.
    + eapply rs_signal; eauto.
    + by eapply rs_error.
    + intros tr r (tr1 & tr2 & reg' & w2 & -> & Hs & Hp).
      exists ((world s, w1) :: tr1), tr2, reg', w2. split_and!; [done| |done]. by eapply rs_next.
  - simplify_eq. exists [(world s, close ssh cl (world s))]. split; [done|]. intros tr r' [-> ->].
    exists [], (world s). split_and!; [done|constructor|done].
  - destruct (st cl reg (world s)) as [[reg1 w1] e] eqn:Hst. simplify_eq.
    exists [(world s, w1)]. split; [done|]. intros tr r' (tr2 & w2 & -> & Hp & ->).
    exists ((world s, w1) :: tr2), w2. split_and!; [done| |done].
    destruct e as [e|]; [|by eapply rp_next]. inversion Hp; subst. by eapply rp_error.
  - simplify_eq. by destruct Hu.
  - simplify_eq. by destruct Hu.
  - done.
Qed.

Record inv (tasks : list (Task W SSHConfig Client)) s : Prop := {
  inv_tasks : tasks ≡ₚ (log s).*1.*1 ++ (filter unreported (live s)).*1 ++ todo (main s);
  inv_wg : wg s = length (live s) + counted (main s);
  inv_chan : chan s = length (filter holds (live s)) + slot (main s);
  inv_cap : chan s ≤ Concurrency opts;
  inv_phase : ∀ x, x ∈ live s → phase_result x.2;
  inv_log : ∀ t id r, (t, id, r) ∈ log s → is_result r;
  inv_none : m_err (mon s) = None ↔ all_ok s;
  inv_some : ∀ e, m_err (mon s) = Some e → ∃ t id, (t, id, Some e) ∈ log s;
  inv_ret : ∀ r, main s = MReturn r → wg s = 0 ∧ r = m_err (mon s);
}.

Lemma init_inv tasks w : inv tasks (init bar_id opts tasks w).
Proof.
  unfold init. destruct (SilentMainBar opts); split; simpl; unfold all_ok; simpl; try done; try lia.
  all: try (by intros ? ?%elem_of_nil). all: try (by intros ???; rewrite elem_of_nil).
  all: split; [|done]; intros _ ???; by rewrite elem_of_nil.
Qed.

Lemma m_set_none m id r :
  is_result r → m_err (m_set m id r) = match r with None => m_err m | _ => r end.
Proof. by destruct r as [[]|]. Qed.

Lemma setMainBarStatus_err id s : m_err (mon s) = None ∨ (∃ e, m_err (mon s) = Some (EOther e)) →
  m_err (mon (setMainBarStatus id s)) = m_err (mon s).
Proof.
  unfold setMainBarStatus. intros Hm. simpl.
  destruct (count_ok _ _) as [[|n]|]; [done..|]. unfold m_error, m_set. simpl.
  destruct Hm as [->|[e ->]]; done.
Qed.

Lemma main_step_inv tasks s s' : inv tasks s → main_step bar_id opts s = Some s' → inv tasks s'.
Proof.
  intros [Ht Hwg Hch Hcap Hph Hlog Hn Hs Hr] Hstep. unfold main_step in Hstep.
  destruct (main s) as [[|t l]|t l|t l|r] eqn:Hm; simpl in *.
  - case_decide as Hw; [|done]. simplify_eq.
    assert (m_err (mon s) = None ∨ ∃ e, m_err (mon s) = Some (EOther e)) as Hgood.
    { destruct (m_err (mon s)) as [e|] eqn:He; [right|by left].
      destruct (Hs e eq_refl) as (t & id & Hin). specialize (Hlog _ _ _ Hin).
      destruct e; try done. eauto. }
    set (s1 := match mainBar s with Some id => setMainBarStatus id s | None => s end).
    assert (m_err (mon s1) = m_err (mon s)) as He.
    { unfold s1. destruct (mainBar s); [by apply setMainBarStatus_err|done]. }
    assert (log s1 = log s ∧ live s1 = live s ∧ wg s1 = wg s ∧ chan s1 = chan s) as (Hl1&Hl2&Hl3&Hl4).
    { unfold s1. by destruct (mainBar s). }
    unfold finish. fold s1. split; simpl; unfold all_ok; simpl; rewrite ?He, ?Hl1, ?Hl2, ?Hl3, ?Hl4;
      try done; try lia.
    intros r [= <-]. unfold m_error. rewrite He. done.
  - simplify_eq. split; simpl; unfold all_ok; simpl; rewrite ?Hm; try done; lia.
  - case_decide; [|done]. simplify_eq. split; simpl; try done; lia.
  - set (s1 := if SilentSubBar opts then s else addSubBar bar_id t s) in *. simplify_eq.
    assert (log s1 = log s ∧ live s1 = live s ∧ wg s1 = wg s ∧ chan s1 = chan s ∧ mon s1 = mon s)
      as (Hl1&Hl2&Hl3&Hl4&Hl5).
    { unfold s1. destruct (SilentSubBar opts); [done|]. unfold addSubBar. by destruct (subBar s !! _). }
    split; simpl; unfold all_ok; simpl; rewrite ?Hl1, ?Hl2, ?Hl3, ?Hl4, ?Hl5; try done.
    + rewrite filter_app, fmap_app, filter_cons_True by done. simpl.
      rewrite Ht, <-(assoc_L (++)). done.
    + rewrite length_app. simpl. lia.
    + rewrite filter_app, length_app, filter_cons_True by done. simpl. lia.
    + intros x. rewrite elem_of_app, list_elem_of_singleton. intros [Hx| ->]; [by apply Hph|done].
  - done.
Qed.

Lemma after_step_result e r : after_step e = Some r → is_result r.
Proof. destruct e as [[]|]; simpl; intros [=]; by subst. Qed.

(** What one operation does to the phase of the worker, to the slots and to the log. *)
Lemma worker_step_effect t p s p' s' :
  worker_step ssh t p s = Some (p', s') → phase_result p →
  phase_result p' ∧ holds (t, p) ∧
  match p with
  | PReport id r => p' = PRelease ∧ s' = report t id r s
  | PRelease => p' = PDone ∧ s' = set_chan (pred (chan s)) s
  | _ => unreported (t, p) ∧ unreported (t, p') ∧ log s' = log s ∧ mon s' = mon s ∧ chan s' = chan s
  end.
Proof.
  intros Hs Hp. destruct p as [|id|id cl reg [|st l]|id cl reg [|st l] r|id r| |]; simpl in *.
  - by simplify_eq.
  - destruct (connect ssh t (world s)) as [w [cl|e]] eqn:Hc; simplify_eq; [done|].
    assert (e = EOther (ECode ERR_SSH_CONNECT_FAILED)) as ->; [|done].
    unfold connect in Hc. repeat case_match; by simplify_eq.
  - by simplify_eq.
  - destruct (st cl reg (world s)) as [[reg1 w1] e]. simplify_eq.
    destruct (after_step e) eqn:Ha; [apply after_step_result in Ha|]; done.
  - by simplify_eq.
  - destruct (st cl reg (world s)) as [[reg1 w1] e]. by simplify_eq.
  - by simplify_eq.
  - by simplify_eq.
  - done.
Qed.

Lemma all_ok_snoc s t id r (s' : St W SSHConfig Client) :
  log s' = log s ++ [(t, id, r)] → all_ok s' ↔ all_ok s ∧ r = None.
Proof.
  unfold all_ok. intros ->. setoid_rewrite elem_of_app. setoid_rewrite list_elem_of_singleton.
  split.
  - intros Hall. split; [|by eapply Hall; right]. intros t1 i1 r1 Hin. eapply Hall. by left.
  - intros [Hall ->] t1 i1 r1 [Hin|[= -> -> ->]]; [by eapply Hall|done].
Qed.

Lemma worker_inv tasks s l1 t p l2 p' s' :
  inv tasks s → live s = l1 ++ (t, p) :: l2 → worker_step ssh t p s = Some (p', s') →
  inv tasks (set_live (l1 ++ (t, p') :: l2) s').
Proof.
  intros [Ht Hwg Hch Hcap Hph Hlog Hn Hs Hr] Hl Hw.
  destruct (worker_step_frame _ _ _ _ _ Hw) as (Hl' & Hm & Hw' & _).
  assert (phase_result p) as Hp by (apply (Hph (t, p)); rewrite Hl; set_solver).
  destruct (worker_step_effect _ _ _ _ _ Hw Hp) as (Hp' & Hh & He).
  rewrite Hl in *. rewrite filter_app, fmap_app in Ht. rewrite filter_app, length_app in Hch.
  rewrite (filter_cons_True holds _ l2 Hh) in Hch. rewrite length_app in Hwg. simpl in *.
  assert (∀ x, x ∈ l1 ++ (t, p') :: l2 → phase_result x.2) as Hph'.
  { intros x. rewrite elem_of_app, elem_of_cons. intros [Hx|[->|Hx]]; [|done|];
      apply Hph; rewrite elem_of_app, elem_of_cons; auto. }
  assert (wg s' = length (l1 ++ (t, p') :: l2) + counted (main s')) as Hwg'.
  { rewrite Hm, Hw', length_app. simpl. lia. }
  destruct p as [|id|id cl reg l|id cl reg l r|id r| |].
  1-4: destruct He as (Hu & Hu' & Hlg & Hmn & Hcn);
    rewrite (filter_cons_True unreported _ l2 Hu) in Ht; simpl in Ht.
  1-4: split; simpl; unfold all_ok; simpl; rewrite ?Hlg, ?Hmn, ?Hcn, ?Hm, ?Hw' in *; try done.
  1,3,5,7: rewrite filter_app, fmap_app, (filter_cons_True unreported _ l2 Hu'); done.
  1-4: rewrite filter_app, length_app, (filter_cons_True holds); [done|].
  1-4: by destruct p'.
  - destruct He as [-> ->]. rewrite (filter_cons_True unreported) in Ht by done. simpl in *.
    split; simpl; try done.
    + rewrite !fmap_app, filter_app, fmap_app, (filter_cons_False unreported) by (by intros []).
      simpl. rewrite Ht, <-!(assoc_L (++)). f_equiv. simpl. symmetry. apply Permutation_middle.
    + rewrite filter_app, length_app, (filter_cons_True holds) by done. done.
    + intros t1 i1 r1. rewrite elem_of_app, list_elem_of_singleton.
      intros [Hin|[= -> -> ->]]; [by eapply Hlog|done].
    + rewrite (all_ok_snoc s t id r) by done. fold (m_set (mon s) id r).
      destruct r as [e|]; [|by rewrite Hn; naive_solver].
      destruct e; try done. naive_solver.
    + intros e. destruct r as [e'|].
      * destruct e'; try done. intros [= <-]. exists t, id. set_solver.
      * intros (t1 & i1 & Hin)%Hs. exists t1, i1. set_solver.
    + intros r1 Hr1. destruct (Hr r1 Hr1) as [Hz _]. lia.
  - destruct He as [-> ->]. rewrite (filter_cons_False unreported) in Ht by (by intros []).
    simpl in *. split; simpl; try done.
    + rewrite filter_app, fmap_app, (filter_cons_False unreported) by naive_solver. done.
    + rewrite filter_app, length_app, (filter_cons_False holds) by naive_solver. lia.
    + lia.
  - done.
Qed.

Lemma exit_inv tasks s l1 t l2 :
  inv tasks s → live s = l1 ++ (t, PDone) :: l2 →
  inv tasks (set_wg (pred (wg s)) (set_live (l1 ++ l2) s)).
Proof.
  intros [Ht Hwg Hch Hcap Hph Hlog Hn Hs Hr] Hl. rewrite Hl in *.
  rewrite filter_app, fmap_app, (filter_cons_False unreported) in Ht by (by intros []).
  rewrite filter_app, length_app, (filter_cons_False holds) in Hch by (by intros []).
  rewrite length_app in Hwg. simpl in *.
  split; simpl; try done.
  - by rewrite filter_app, fmap_app.
  - rewrite length_app. lia.
  - rewrite filter_app, length_app. lia.
  - intros x. rewrite elem_of_app. intros Hx. apply Hph. set_solver.
  - intros r Hm. destruct (Hr r Hm). split; [lia|done].
Qed.

Lemma reach_inv tasks w s : rtc stepT (init bar_id opts tasks w) s → inv tasks s.
Proof.
  intros Hr. pattern s. eapply rtc_ind_r; [apply init_inv| |exact Hr].
  cbv beta. intros s1 s2 _ Hst Hi. destruct (step_view _ _ Hst) as [s3 Hm|l1 t p l2 p' s3 Hl _ Hw _|l1 t l2 Hl].
  - by eapply main_step_inv.
  - by eapply worker_inv.
  - by eapply exit_inv.
Qed.

(** ** The executions *)

(** The executions that have ended, with their results and traces; a trace for each
    worker at work, which what remains completes; and the operations on the world,
    which interleave the traces. *)
Record einv w0 s (runs : list (Task W SSHConfig Client * option terror * list (W * W)))
    (act : list (list (W * W))) (ops : list (W * W)) : Prop := {
  e_log : runs.*1 = (λ '(t, _, r), (t, r)) <$> log s;
  e_runs : ∀ t r tr, (t, r, tr) ∈ runs → executes t tr r;
  e_act : Forall2 (λ x tr, ∀ tr' r, remains x.1 x.2 tr' r → executes x.1 (tr ++ tr') r)
            (filter unreported (live s)) act;
  e_ops : interleaves (runs.*2 ++ act) ops;
  e_world : chain ops w0 (world s);
}.

Lemma init_einv tasks w : einv w (init bar_id opts tasks w) [] [] [].
Proof.
  unfold init. destruct (SilentMainBar opts); split; simpl; try done; try constructor.
  all: intros t r tr Hin; by apply elem_of_nil in Hin.
Qed.

Lemma einv_frame w0 s s' runs act ops :
  filter unreported (live s') = filter unreported (live s) → log s' = log s → world s' = world s →
  einv w0 s runs act ops → einv w0 s' runs act ops.
Proof. intros E1 E2 E3 [H1 H2 H3 H4 H5]. split; rewrite ?E1, ?E2, ?E3; done. Qed.

Lemma main_step_einv w0 s s' runs act ops :
  einv w0 s runs act ops → main_step bar_id opts s = Some s' →
  ∃ act', einv w0 s' runs act' ops.
Proof.
  intros He Hs. unfold main_step in Hs.
  destruct (main s) as [[|t l]|t l|t l|r] eqn:Hm; simpl in *.
  - case_decide; [|done]. simplify_eq. exists act. revert He. apply einv_frame;
      unfold finish; by destruct (mainBar s).
  - simplify_eq. exists act. by revert He; apply einv_frame.
  - case_decide; [|done]. simplify_eq. exists act. by revert He; apply einv_frame.
  - set (s1 := if SilentSubBar opts then s else addSubBar bar_id t s) in *. simplify_eq.
    assert (log s1 = log s ∧ live s1 = live s ∧ world s1 = world s) as (E1&E2&E3).
    { unfold s1. destruct (SilentSubBar opts); [done|]. unfold addSubBar. by destruct (subBar s !! _). }
    exists (act ++ [[]]). destruct He as [H1 H2 H3 H4 H5].
    split; simpl; rewrite ?E1, ?E2, ?E3; try done.
    + rewrite filter_app, filter_cons_True by done. apply Forall2_app; [done|].
      constructor; [|constructor]. auto.
    + rewrite (assoc_L (++)), <-Permutation_cons_append. by apply il_new.
  - done.
Qed.

Lemma worker_einv w0 s l1 t p l2 p' s' runs act ops :
  einv w0 s runs act ops → live s = l1 ++ (t, p) :: l2 → worker_step ssh t p s = Some (p', s') →
  ∃ runs' act' ops', einv w0 (set_live (l1 ++ (t, p') :: l2) s') runs' act' ops'.
Proof.
  intros He Hl Hw. destruct (worker_step_frame _ _ _ _ _ Hw) as (Hl' & _).
  destruct (decide (unreported (t, p))) as [Hu|Hu].
  - destruct He as [H1 H2 H3 H4 H5]. rewrite Hl, filter_app, filter_cons_True in H3 by done.
    apply Forall2_app_inv_l in H3 as (a1 & a2' & Ha1 & (tr & a2 & Hx & Ha2 & ->)%Forall2_cons_inv_l & ->).
    simpl in Hx. destruct (decide (unreported (t, p'))) as [Hu'|Hu'].
    + destruct (worker_step_remains _ _ _ _ _ Hw Hu') as (op & Hop & Hrem).
      assert (log s' = log s) as Hlog.
      { destruct p as [|?|??? []|??? []|? ?| |]; simpl in *; simplify_eq; try done.
        1: destruct (connect ssh t (world s)) as [? [?|?]]; by simplify_eq.
        1,2: destruct (s0 cl reg (world s)) as [[? ?] ?]; by simplify_eq. }
      exists runs, (a1 ++ (tr ++ op) :: a2), (ops ++ op). split; simpl; rewrite ?Hlog; try done.
      * rewrite filter_app, filter_cons_True by done. apply Forall2_app; [done|].
        constructor; [|done]. simpl. intros tr' r Hr. rewrite <-(assoc_L (++)). by apply Hx, Hrem.
      * rewrite (assoc_L (++)). apply interleaves_append. by rewrite <-(assoc_L (++)).
      * by eapply chain_app.
    + destruct p as [|?|??? []|??? []|id r| |]; simpl in *; simplify_eq; try by destruct Hu'.
      1: destruct (connect ssh t (world s)) as [? [?|?]]; simplify_eq; by destruct Hu'.
      1: destruct (s0 cl reg (world s)) as [[? ?] e]; simplify_eq; destruct (after_step e); by destruct Hu'.
      1: destruct (s0 cl reg (world s)) as [[? ?] e]; simplify_eq; by destruct Hu'.
      exists (runs ++ [(t, r, tr)]), (a1 ++ a2), ops. split; simpl; try done.
      * by rewrite !fmap_app, H1.
      * intros t1 r1 tr1 [Hin|[= -> -> ->]%list_elem_of_singleton]%elem_of_app; [by apply H2|].
        rewrite <-(app_nil_r tr). by apply Hx.
      * rewrite filter_app, filter_cons_False by done. by apply Forall2_app.
      * rewrite fmap_app, <-(assoc_L (++)). simpl. by rewrite Permutation_middle.
  - exists runs, act, ops. revert He. destruct p; simpl in *; try by destruct Hu.
    simplify_eq. apply einv_frame; try done. simpl.
    by rewrite Hl, !filter_app, !filter_cons_False by (by intros []).
Qed.

Lemma reach_einv tasks w s :
  rtc stepT (init bar_id opts tasks w) s → ∃ runs act ops, einv w s runs act ops.
Proof.
  intros Hr. pattern s. eapply rtc_ind_r; [|clear s Hr|exact Hr]; cbv beta.
  { do 3 eexists. apply init_einv. }
  intros s1 s2 _ Hst (runs & act & ops & He).
  destruct (step_view _ _ Hst) as [s3 Hm|l1 t p l2 p' s3 Hl _ Hw _|l1 t l2 Hl].
  - destruct (main_step_einv _ _ _ _ _ _ He Hm); eauto.
  - by eapply worker_einv.
  - exists runs, act, ops. revert He. apply einv_frame; try done. simpl.
    by rewrite Hl, !filter_app, filter_cons_False by (by intros []).
Qed.

(** ** Termination *)

(** The operations a worker has left, and those of the dispatching goroutine with
    the workers it has not started. *)
Definition phase_size (x : Task W SSHConfig Client * phase W Client) : nat :=
  let post := length (postSteps x.1) in
  match x.2 with
  | PStart => 7 + length (steps x.1) + post
  | PConnect _ => 6 + length (steps x.1) + post
  | PSteps _ _ _ l => 5 + length l + post
  | PPost _ _ _ l _ => 4 + length l
  | PReport _ _ => 3
  | PRelease => 2
  | PDone => 1
  end.
Definition task_size t : nat := 10 + length (steps t) + length (postSteps t).
Definition main_size (m : main_pc W SSHConfig Client) : nat :=
  match m with
  | MLoop l => 1 + sum_list_with task_size l
  | MSend t l => task_size t + sum_list_with task_size l
  | MSpawn t l => task_size t - 1 + sum_list_with task_size l
  | MReturn _ => 0
  end.
Definition size s : nat := main_size (main s) + sum_list_with phase_size (live s).

Lemma worker_step_size t p s p' s' :
  worker_step ssh t p s = Some (p', s') → phase_size (t, p') < phase_size (t, p).
Proof.
  intros Hs. destruct p as [|id|id cl reg [|st l]|id cl reg [|st l] r|id r| |]; simpl in *; unfold phase_size.
  - simplify_eq. simpl. lia.
  - destruct (connect ssh t (world s)) as [w [cl|e]]; simplify_eq; simpl; lia.
  - simplify_eq. simpl. lia.
  - destruct (st cl reg (world s)) as [[reg1 w1] e]. simplify_eq.
    destruct (after_step e); simpl; lia.
  - simplify_eq. simpl. lia.
  - destruct (st cl reg (world s)) as [[reg1 w1] e]. simplify_eq. destruct e; simpl; lia.
  - simplify_eq. simpl. lia.
  - simplify_eq. simpl. lia.
  - done.
Qed.

Lemma main_step_size s s' : main_step bar_id opts s = Some s' → size s' < size s.
Proof.
  unfold main_step, size. destruct (main s) as [[|t l]|t l|t l|r] eqn:Hm; intros Hs; simpl in *.
  - case_decide; [|done]. simplify_eq. simpl. destruct (mainBar s); simpl; lia.
  - simplify_eq. simpl. lia.
  - case_decide; [|done]. simplify_eq. simpl. lia.
  - set (s1 := if SilentSubBar opts then s else addSubBar bar_id t s) in *. simplify_eq.
    assert (live s1 = live s) as ->.
    { unfold s1, addSubBar. destruct (SilentSubBar opts); [done|]. by destruct (subBar s !! _). }
    simpl. rewrite sum_list_with_app. unfold task_size, phase_size. simpl. lia.
  - done.
Qed.

Lemma step_size s s' : stepT s s' → size s' < size s.
Proof.
  intros Hst. destruct (step_view _ _ Hst) as [s3 Hm|l1 t p l2 p' s3 Hl _ Hw _|l1 t l2 Hl].
  - by apply main_step_size.
  - destruct (worker_step_frame _ _ _ _ _ Hw) as (_ & Hm & _).
    pose proof (worker_step_size _ _ _ _ _ Hw). unfold size. simpl. rewrite Hm, Hl.
    rewrite !sum_list_with_app. simpl. lia.
  - unfold size. simpl. rewrite Hl, !sum_list_with_app. simpl. lia.
Qed.

Lemma progress tasks s :
  Concurrency opts ≠ 0 → inv tasks s → (∃ r, main s = MReturn r) ∨ ∃ s', stepT s s'.
Proof.
  intros Hcap [_ Hwg Hch _ _ _ _ _ _]. destruct (live s) as [|[t p] l] eqn:Hl; simpl in *.
  - destruct (main s) as [[|t l]|t l|t l|r] eqn:Hm; [right..|left; eauto].
    all: eexists; exists None; simpl; unfold main_step; rewrite Hm; try done.
    all: rewrite decide_True; [done|]; simpl in *; lia.
  - right. assert (p = PDone ∨ ∃ p' s', worker_step ssh t p s = Some (p', s')) as [->|(p' & s' & Hw)].
    { destruct p as [|id|id cl reg [|st k]|id cl reg [|st k] r|id r| |]; simpl; eauto.
      - right. destruct (connect ssh t (world s)) as [w [cl|e]]; eauto.
      - right. destruct (st cl reg (world s)) as [[? ?] ?]. eauto.
      - right. destruct (st cl reg (world s)) as [[? ?] ?]. eauto. }
    + eexists. exists (Some 0). simpl. by rewrite Hl.
    + exists (set_live (<[0 := (t, p')]> (live s')) s'), (Some 0).
      rewrite (next_worker 0 t p), Hw; [done|by rewrite Hl|by intros ->].
Qed.

(** ** Status bars *)

Definition phase_id (p : phase W Client) : option nat :=
  match p with
  | PConnect id | PSteps id _ _ _ | PPost id _ _ _ _ | PReport id _ => Some id
  | _ => None
  end.

(** What was reported under a bar. *)
Definition reported s (id : nat) : list (option terror) :=
  (filter (λ d, d.1.2 = id) (log s)).*2.

Definition returned s : Prop := ∃ r, main s = MReturn r.

Record binv s : Prop := {
  b_range : ∀ p b, subBar s !! p = Some b → ∃ k, k < bars s ∧ b = bar_id k;
  b_main_range : ∀ b, mainBar s = Some b → ∃ k, k < bars s ∧ b = bar_id k;
  b_inj : ∀ p q b, subBar s !! p = Some b → subBar s !! q = Some b → p = q;
  b_main : ∀ p b, subBar s !! p = Some b → mainBar s ≠ Some b;
  b_live : ∀ t p, (t, p) ∈ live s →
    ∃ b, subBar s !! ptid t = Some b ∧ ∀ id, phase_id p = Some id → id = b;
  b_log : ∀ t id r, (t, id, r) ∈ log s → subBar s !! ptid t = Some id;
  b_res : ∀ id, mainBar s ≠ Some id → results (mon s) id = reported s id;
  b_main_res : ∀ id, ¬ returned s → mainBar s = Some id → results (mon s) id = [];
}.

Lemma init_binv tasks w : binv (init bar_id opts tasks w).
Proof.
  assert (∀ s, log s = [] → live s = [] → subBar s = ∅ → mon s = newMonitor →
    (∀ b, mainBar s = Some b → ∃ k, k < bars s ∧ b = bar_id k) → binv s) as Hgen.
  { intros s Hl Hv Hb Hm Hr. split; unfold reported; rewrite ?Hl, ?Hv, ?Hb, ?Hm; try done.
    - by intros t p ?%elem_of_nil.
    - by intros t i r ?%elem_of_nil. }
  unfold init. destruct (SilentMainBar opts); apply Hgen; simpl; try done.
  intros b [= <-]. exists 0. split; [lia|done].
Qed.

Lemma finish_binv s : binv s → main s = MLoop [] → binv (finish s).
Proof.
  intros [H1 H2 H3 H4 H5 H6 H8 H9] Hm. unfold finish.
  destruct (mainBar s) as [id|] eqn:Hb.
  - assert (∀ id', id' ≠ id → results (mon (setMainBarStatus id s)) id' = results (mon s) id') as Hr.
    { intros id' Hne. unfold setMainBarStatus. simpl.
      destruct (count_ok _ _) as [[|n]|]; by rewrite results_m_set, decide_False. }
    split; simpl; try done; rewrite ?Hb; try done.
    + intros id' Hne. rewrite Hr by (by intros ->). by apply H8.
    + intros id' []. eexists. done.
  - split; simpl; try done; rewrite ?Hb; try done.
Qed.

Lemma binv_frame s s' :
  live s' = live s → log s' = log s → subBar s' = subBar s → mainBar s' = mainBar s →
  bars s' = bars s → mon s' = mon s → ¬ returned s → binv s → binv s'.
Proof.
  intros E1 E2 E3 E4 E5 E6 Hn [H1 H2 H3 H4 H5 H6 H8 H9].
  split; unfold reported; rewrite ?E1, ?E2, ?E3, ?E4, ?E5, ?E6; try done. eauto.
Qed.

Lemma addSubBar_binv `{!Inj (=) (=) bar_id} t s :
  ¬ returned s → binv s → binv (addSubBar bar_id t s).
Proof.
  intros Hn Hb. unfold addSubBar. destruct (subBar s !! ptid t) as [b|] eqn:Hp; [done|].
  destruct Hb as [H1 H2 H3 H4 H5 H6 H8 H9].
  assert (∀ p b, subBar s !! p = Some b → b ≠ bar_id (bars s)) as Hfresh.
  { intros p b (k & Hk & ->)%H1 Heq%(inj bar_id). lia. }
  split; simpl; try done.
  - intros p b [[<- <-]|[_ Hb]]%lookup_insert_Some; [exists (bars s); split; [lia|done]|].
    destruct (H1 p b Hb) as (k & ? & ->). exists k. split; [lia|done].
  - intros b (k & ? & ->)%H2. exists k. split; [lia|done].
  - intros p q b [[<- <-]|[_ Hb]]%lookup_insert_Some [[<- Hq]|[_ Hq]]%lookup_insert_Some; try done.
    + by destruct (Hfresh _ _ Hq).
    + subst b. by destruct (Hfresh _ _ Hb).
    + by eapply H3.
  - intros p b [[<- <-]|[_ Hb]]%lookup_insert_Some; [|by eapply H4].
    intros (k & ? & Heq%(inj bar_id))%H2. lia.
  - intros t' p (b & Hb & Hid)%H5. exists b. split; [|done].
    rewrite lookup_insert_ne; [done|]. intros Heq. congruence.
  - intros t' id r Hin%H6. rewrite lookup_insert_ne; [done|]. intros Heq. congruence.
Qed.

Lemma addSubBar_lookup t s : is_Some (subBar (addSubBar bar_id t s) !! ptid t).
Proof. unfold addSubBar. destruct (subBar s !! ptid t) eqn:Hp; simpl; rewrite ?Hp, ?lookup_insert_eq; eauto. Qed.

Lemma spawn_binv t l s :
  is_Some (subBar s !! ptid t) → ¬ returned s → binv s →
  binv (set_main (MLoop l) (set_live (live s ++ [(t, PStart)]) s)).
Proof.
  intros [b Hb] Hn [H1 H2 H3 H4 H5 H6 H8 H9]. split; simpl; try done.
  - intros t' p. rewrite elem_of_app, list_elem_of_singleton.
    intros [Hin|[= -> ->]]; [by apply H5|]. by exists b.
  - intros id _. by apply H9.
Qed.

Lemma main_binv `{!Inj (=) (=) bar_id} s s' :
  SilentSubBar opts = false → binv s → main_step bar_id opts s = Some s' → binv s'.
Proof.
  intros Hsil Hb Hs. unfold main_step in Hs. rewrite Hsil in Hs.
  assert (¬ returned s) as Hn.
  { intros [r Hr]. by rewrite Hr in Hs. }
  destruct (main s) as [[|t l]|t l|t l|r] eqn:Hm; simpl in *.
  - case_decide; [|done]. simplify_eq. by apply finish_binv.
  - simplify_eq. by apply (binv_frame s).
  - case_decide; [|done]. simplify_eq. by apply (binv_frame s).
  - simplify_eq. apply spawn_binv; [apply addSubBar_lookup| |by apply addSubBar_binv].
    intros [r Hr]. apply Hn. exists r. unfold addSubBar in Hr. by destruct (subBar s !! ptid t).
  - done.
Qed.

Lemma worker_binv tasks s l1 t p l2 p' s' :
  inv tasks s → binv s → live s = l1 ++ (t, p) :: l2 → worker_step ssh t p s = Some (p', s') →
  binv (set_live (l1 ++ (t, p') :: l2) s').
Proof.
  intros Hi Hb Hl Hw. destruct (worker_step_frame _ _ _ _ _ Hw) as (Hl' & Hm & Hw' & Hsb & Hmb & Hbr).
  assert (phase_result p) as Hp by (apply (inv_phase _ _ Hi (t, p)); rewrite Hl; set_solver).
  assert (¬ returned s) as Hn.
  { intros [r [Hz _]%(inv_ret _ _ Hi)]. pose proof (inv_wg _ _ Hi) as Hwg.
    rewrite Hl, length_app in Hwg. simpl in Hwg. lia. }
  destruct Hb as [H1 H2 H3 H4 H5 H6 H8 H9].
  destruct (H5 t p) as (b & Hb & Hid); [rewrite Hl; set_solver|].
  assert (∀ id, phase_id p' = Some id → id = b) as Hid'.
  { destruct p as [|id|id cl reg [|st l]|id cl reg [|st l] r|id r| |]; simpl in *;
      repeat case_match; simplify_eq; intros id' Hi'; simpl in *; simplify_eq;
      rewrite ?Hb; simpl; try done; try (by apply Hid).
    all: destruct (after_step _); simpl in *; simplify_eq; by apply Hid. }
  assert (∀ t0 p0, (t0, p0) ∈ l1 ++ (t, p') :: l2 →
    ∃ b, subBar s' !! ptid t0 = Some b ∧ ∀ id, phase_id p0 = Some id → id = b) as H5'.
  { intros t0 p0. rewrite Hsb, elem_of_app, elem_of_cons.
    intros [Hin|[[= -> ->]|Hin]]; [|by exists b|]; apply H5; rewrite Hl; set_solver. }
  destruct (worker_step_effect _ _ _ _ _ Hw Hp) as (_ & _ & He).
  assert ((log s' = log s ∧ mon s' = mon s) ∨ (∃ r, p = PReport b r ∧ s' = report t b r s))
    as [[Hlog Hmon]|(r & -> & ->)].
  { destruct p; try (left; tauto).
    - destruct He as [_ ->]. right. rewrite (Hid id eq_refl). eauto.
    - destruct He as [_ ->]. by left. }
  - split; simpl; unfold reported; simpl; rewrite ?Hmb, ?Hbr, ?Hlog, ?Hmon; try done;
      rewrite ?Hsb; try done.
    intros id _. by apply H9.
  - split; simpl; unfold reported; simpl; try done.
    + intros t0 id r0. rewrite elem_of_app, list_elem_of_singleton.
      intros [Hin|[= -> -> ->]]; [by eapply H6|done].
    + intros id Hne. rewrite results_m_set, filter_app, fmap_app. case_decide as Hd.
      * subst id. rewrite filter_cons_True by done. simpl. by rewrite H8.
      * rewrite filter_cons_False by (simpl; congruence). rewrite app_nil_r. by apply H8.
    + intros id _ Hmain. rewrite results_m_set, decide_False; [by apply H9|].
      intros ->. by eapply H4.
Qed.

Lemma exit_binv tasks s l1 t l2 :
  inv tasks s → binv s → live s = l1 ++ (t, PDone) :: l2 →
  binv (set_wg (pred (wg s)) (set_live (l1 ++ l2) s)).
Proof.
  intros Hi [H1 H2 H3 H4 H5 H6 H8 H9] Hl. split; simpl; try done.
  - intros t0 p0 Hin. apply H5. rewrite Hl. set_solver.
Qed.

Lemma reach_binv `{!Inj (=) (=) bar_id} tasks w s :
  SilentSubBar opts = false → rtc stepT (init bar_id opts tasks w) s → inv tasks s ∧ binv s.
Proof.
  intros Hsil Hr. pattern s. eapply rtc_ind_r; [split; [apply init_inv|apply init_binv]| |exact Hr].
  cbv beta. intros s1 s2 Hrs Hst [Hi Hb]. split; [eapply reach_inv, rtc_r; [exact Hrs|done]|].
  destruct (step_view _ _ Hst) as [s3 Hm|l1 t p l2 p' s3 Hl _ Hw _|l1 t l2 Hl].
  - by eapply main_binv.
  - by eapply worker_binv.
  - by eapply exit_binv.
Qed.
End facts.

(** ** Theorems *)

Section theorems.
Context {W SSHConfig Client : Type} (ssh : SSH W SSHConfig Client).
Context (bar_id : nat → nat) (o : MapOrder) (opts : ExecOptions).
Notation steps_to := (rtc (step ssh bar_id (initOptions opts))).
Notation start := (init bar_id (initOptions opts)).

Lemma initOptions_pos : Concurrency (initOptions opts) ≠ 0.
Proof. unfold initOptions. by case_decide. Qed.

Lemma initOptions_sub : SilentSubBar opts = false → SilentSubBar (initOptions opts) = false.
Proof. unfold initOptions. by case_decide. Qed.

(** C14: at any point of any interleaving at most [Concurrency] workers (ten when the
    option is zero) are between their start and the release of their slot, and every
    task is in exactly one place: reported, being executed, or waiting. *)
Theorem workers_bounded (tasks : list (Task W SSHConfig Client)) (w : W)
    (s : St W SSHConfig Client) :
  steps_to (start tasks w) s →
  length (filter holds (live s)) ≤ (if decide (Concurrency opts = 0) then 10 else Concurrency opts) ∧
  tasks ≡ₚ (log s).*1.*1 ++ (filter unreported (live s)).*1 ++ todo (main s).
Proof.
  intros Hi%reach_inv. split; [|apply Hi].
  pose proof (inv_chan _ _ _ Hi). pose proof (inv_cap _ _ _ Hi) as Hc.
  unfold initOptions in Hc. case_decide; simpl in *; lia.
Qed.

(** C15: [Tasks.Execute] always returns, whatever the scheduling: no run is infinite,
    and a state from which no goroutine can move is one in which it has returned. *)
Theorem Tasks_Execute_returns (tasks : list (Task W SSHConfig Client)) (w : W) :
  sn (step ssh bar_id (initOptions opts)) (start tasks w) ∧
  ∀ s, steps_to (start tasks w) s → nf (step ssh bar_id (initOptions opts)) s →
    ∃ r, main s = MReturn r.
Proof.
  split.
  - generalize (start tasks w). intros s.
    remember (size s) as n eqn:Hn. revert s Hn.
    induction (Nat.lt_wf_0 n) as [n _ IH]. intros s ->. constructor. intros s' Hs.
    eapply IH; [|done]. by eapply step_size.
  - intros s Hi%reach_inv Hnf. destruct (progress ssh bar_id _ _ _ initOptions_pos Hi) as [?|Hs]; [done|].
    by destruct Hnf.
Qed.

Lemma returned_log tasks w s r :
  steps_to (start tasks w) s → main s = MReturn r →
  tasks ≡ₚ (log s).*1.*1 ∧ live s = [] ∧ r = m_err (mon s).
Proof.
  intros Hi%reach_inv Hm. destruct (inv_ret _ _ _ Hi r Hm) as [Hz ->].
  pose proof (inv_wg _ _ _ Hi) as Hwg. pose proof (inv_tasks _ _ _ Hi) as Ht.
  rewrite Hm in *. assert (live s = []) as Hl by (apply length_zero_iff_nil; simpl in *; lia).
  rewrite Hl in Ht. simpl in Ht. rewrite app_nil_r in Ht. done.
Qed.

(** C1: when [Tasks.Execute] returns, every task was executed exactly once - also
    after a failure and whatever [SkipError] says -, from the connection through the
    steps up to the first error and the post steps to the end of the connection, or to
    the error of a failed connection; these executions, interleaved, are all that
    happened to the world, and what they returned is what was reported; the result is
    nil exactly when every execution returned nil, and is otherwise the error of one of
    them. *)
Theorem Tasks_Execute_result (tasks : list (Task W SSHConfig Client)) (w : W)
    (s : St W SSHConfig Client) (r : option terror) :
  steps_to (start tasks w) s → main s = MReturn r →
  ∃ runs : list (Task W SSHConfig Client * option terror * list (W * W)),
    runs.*1.*1 ≡ₚ tasks ∧
    (∀ t r' tr, (t, r', tr) ∈ runs → executes ssh t tr r') ∧
    (∃ ops, interleaves runs.*2 ops ∧ chain ops w (world s)) ∧
    (λ '(t, _, r'), (t, r')) <$> log s = runs.*1 ∧
    (r = None ↔ ∀ t r' tr, (t, r', tr) ∈ runs → r' = None) ∧
    (∀ e, r = Some e → (∃ t tr, (t, Some e, tr) ∈ runs) ∧ ∃ e', e = EOther e').
Proof.
  intros Hs Hm. destruct (returned_log _ _ _ _ Hs Hm) as (Ht & Hl & ->).
  apply reach_inv in Hs as Hi. destruct (reach_einv _ _ _ _ _ _ Hs) as (runs & act & ops & He).
  pose proof (e_act _ _ _ _ _ _ He) as Ha. rewrite Hl in Ha. apply Forall2_nil_inv_l in Ha as ->.
  pose proof (e_ops _ _ _ _ _ _ He) as Ho. rewrite app_nil_r in Ho.
  pose proof (e_log _ _ _ _ _ _ He) as Hlog.
  assert (∀ t r', (∃ tr, (t, r', tr) ∈ runs) ↔ ∃ id, (t, id, r') ∈ log s) as Hin.
  { intros t r'. transitivity ((t, r') ∈ runs.*1).
    - rewrite list_elem_of_fmap. split; [intros [tr Hr]; by exists (t, r', tr)|].
      intros ([[??] tr] & [= -> ->] & ?). by exists tr.
    - rewrite Hlog, list_elem_of_fmap. split; [|intros [id Hr]; by exists (t, id, r')].
      intros ([[? id] ?] & [= -> ->] & ?). by exists id. }
  exists runs. split_and!.
  - rewrite Hlog, Ht, <-!list_fmap_compose. apply reflexive_eq, list_fmap_ext. by intros ? [[??]?].
  - intros t r' tr. apply (e_runs _ _ _ _ _ _ He).
  - exists ops. split; [done|]. apply (e_world _ _ _ _ _ _ He).
  - done.
  - rewrite (inv_none _ _ _ Hi). split.
    + intros Hok t r' tr Hr. destruct (proj1 (Hin t r')) as [id Hr']; eauto.
    + intros Hall t id r' Hr. destruct (proj2 (Hin t r')) as [tr Hr']; eauto.
  - intros e Hm'. destruct (inv_some _ _ _ Hi e Hm') as (t & id & Hr).
    split; [exists t; apply Hin; eauto|].
    pose proof (inv_log _ _ _ Hi _ _ _ Hr). destruct e; try done. eauto.
Qed.

Lemma reported_results (s : St W SSHConfig Client) id :
  (∀ t i r, (t, i, r) ∈ log s → is_result r) → Forall is_result (reported s id).
Proof.
  intros Hl. apply Forall_forall. intros r ([[t i] r'] & -> & [_ Hin]%list_elem_of_filter)%list_elem_of_fmap.
  by eapply Hl.
Qed.

(** The tasks of one bar are those of its group. *)
Lemma reported_group (s : St W SSHConfig Client) tasks p id :
  binv bar_id s → subBar s !! p = Some id → (log s).*1.*1 ≡ₚ tasks →
  length (reported s id) = CountPtid tasks p.
Proof.
  intros Hb Hp Ht. unfold CountPtid, reported.
  rewrite length_fmap. transitivity (length (filter (λ t, ptid t = p) (log s).*1.*1)).
  - clear Ht. pose proof (b_log _ _ Hb) as Hl. induction (log s) as [|[[t i] r] l IH]; [done|].
    assert (i = id ↔ ptid t = p) as Hiff.
    { pose proof (Hl t i r ltac:(left)) as Hti. split.
      - intros ->. by eapply (b_inj _ _ Hb).
      - intros Heq. congruence. }
    assert (∀ t i r, (t, i, r) ∈ l → subBar s !! ptid t = Some i) as Hl'.
    { intros t0 i0 r0 Hin. eapply Hl. by right. }
    simpl. destruct (decide (ptid t = p)) as [Hd|Hd].
    + rewrite !filter_cons_True by (simpl; tauto). simpl. f_equal. by apply IH.
    + rewrite !filter_cons_False by (simpl; tauto). by apply IH.
  - by rewrite Ht.
Qed.

(** The last operation of a run that has returned. *)
Lemma returned_finish tasks w s r :
  steps_to (start tasks w) s → main s = MReturn r →
  ∃ s0, steps_to (start tasks w) s0 ∧ main s0 = MLoop [] ∧ wg s0 = 0 ∧ s = finish s0.
Proof.
  intros Hs Hm. destruct (rtc_inv_r _ _ Hs) as [<-|(s0 & Hs0 & Hst)].
  { unfold init in Hm. by destruct (SilentMainBar _). }
  apply reach_inv in Hs0 as Hi. exists s0. split; [done|].
  assert (∀ x l1 l2, live s0 = l1 ++ x :: l2 → main s0 = MReturn r → False) as Hno.
  { intros x l1 l2 Hl Hr. destruct (inv_ret _ _ _ Hi r Hr) as [Hz _].
    pose proof (inv_wg _ _ _ Hi) as Hwg. rewrite Hl, length_app in Hwg. simpl in Hwg. lia. }
  destruct (step_view _ _ _ _ _ Hst) as [s3 Hms|l1 t p l2 p' s3 Hl _ Hw _|l1 t l2 Hl].
  - unfold main_step in Hms. destruct (main s0) as [[|t l]|t l|t l|r'] eqn:Hm0.
    + case_decide; [|done]. by simplify_eq.
    + by simplify_eq.
    + case_decide; [|done]. by simplify_eq.
    + simplify_eq.
    + done.
  - destruct (worker_step_frame _ _ _ _ _ _ Hw) as (_ & Hmm & _). simpl in Hm.
    rewrite Hmm in Hm. by destruct (Hno _ _ _ Hl Hm).
  - simpl in Hm. by destruct (Hno _ _ _ Hl Hm).
Qed.

(** The status of a sub bar, from what was reported under it. *)
Lemma bar_status (s : St W SSHConfig Client) p id :
  binv bar_id s → (∀ t i r, (t, i, r) ∈ log s → is_result r) → subBar s !! p = Some id →
  m_sum (mon s) id = (length (reported s id) - failures (reported s id), 0, failures (reported s id)) ∧
  m_get (mon s) id = (if decide (failures (reported s id) ≠ 0) then STATUS_ERROR
                      else if decide (reported s id = []) then STATUS_SKIP else STATUS_OK).
Proof.
  intros Hb Hl Hp. pose proof (reported_results s id Hl) as Hr.
  rewrite <-(b_res _ _ Hb id) in * by (by eapply (b_main _ _ Hb)).
  split; [by apply m_sum_results|by apply m_get_results].
Qed.

Lemma reported_elem (s : St W SSHConfig Client) id r :
  r ∈ reported s id ↔ ∃ t, (t, id, r) ∈ log s.
Proof.
  unfold reported. rewrite list_elem_of_fmap. split.
  - intros ([[t i] r'] & -> & [Hi Hin]%list_elem_of_filter). simpl in Hi. subst. eauto.
  - intros [t Hin]. exists (t, id, r). split; [done|]. by apply list_elem_of_filter.
Qed.

Lemma log_bar tasks (s : St W SSHConfig Client) t :
  binv bar_id s → (log s).*1.*1 ≡ₚ tasks → t ∈ tasks →
  ∃ id r, (t, id, r) ∈ log s ∧ subBar s !! ptid t = Some id.
Proof.
  intros Hb Ht. rewrite <-Ht.
  intros ([t' id] & -> & ([[t0 i0] r] & [= -> ->] & Hin)%list_elem_of_fmap)%list_elem_of_fmap.
  exists i0, r. split; [done|]. by eapply (b_log _ _ Hb).
Qed.

Lemma main_bar_status tasks (s0 : St W SSHConfig Client) id :
  tasks ≠ [] → inv (initOptions opts) tasks s0 → binv bar_id s0 → main s0 = MLoop [] →
  wg s0 = 0 → mainBar s0 = Some id →
  m_get (mon (setMainBarStatus id s0)) id = if m_err (mon s0) then STATUS_ERROR else STATUS_OK.
Proof.
  intros Hne Hi Hb Hm Hw Hid. pose proof (inv_log _ _ _ Hi) as Hl.
  assert ((log s0).*1.*1 ≡ₚ tasks) as Ht.
  { pose proof (inv_wg _ _ _ Hi) as Hwg. pose proof (inv_tasks _ _ _ Hi) as Ht. rewrite Hm in *.
    assert (live s0 = []) as Hv by (apply length_zero_iff_nil; simpl in *; lia).
    rewrite Hv in Ht. simpl in Ht. by rewrite app_nil_r in Ht. }
  assert (results (mon s0) id = []) as Hres.
  { apply (b_main_res _ _ Hb); [intros [r Hr]; congruence|done]. }
  assert (∀ r, is_result r → m_get (m_set (mon s0) id r) id
               = if r then STATUS_ERROR else STATUS_OK) as Hget.
  { intros r Hr. assert (results (m_set (mon s0) id r) id = [r]) as E.
    { rewrite results_m_set, decide_True, Hres by done. done. }
    rewrite m_get_results by (rewrite E; by constructor). rewrite E. by destruct r. }
  unfold setMainBarStatus. simpl. destruct (m_err (mon s0)) as [e|] eqn:He.
  - destruct (inv_some _ _ _ Hi e He) as (t & i & Hin). pose proof (b_log _ _ Hb _ _ _ Hin) as Hp.
    rewrite (proj2 (count_ok_None _ _)).
    + unfold m_error. rewrite He. apply Hget. by apply (Hl t i).
    + exists (ptid t), i. split; [by apply elem_of_range|].
      destruct (bar_status s0 _ _ Hb Hl Hp) as [_ ->]. rewrite decide_True; [done|].
      rewrite failures_0, Forall_forall. intros Hall.
      by specialize (Hall (Some e) ltac:(apply reported_elem; eauto)).
  - assert (∀ b, failures (reported s0 b) = 0) as Hf.
    { intros b. apply failures_0, Forall_forall. intros r [t Hin]%reported_elem.
      by eapply (proj1 (inv_none _ _ _ Hi) He). }
    destruct tasks as [|t ts]; [done|].
    destruct (log_bar _ _ t Hb Ht ltac:(left)) as (i & r & Hin & Hp).
    assert (count_ok (mon s0) (range (subBar s0)) ≠ Some 0) as H0.
    { apply (count_ok_0 _ _ (ptid t) i); [by apply elem_of_range|].
      destruct (bar_status s0 _ _ Hb Hl Hp) as [_ ->]. rewrite decide_False by (rewrite Hf; by intros []).
      rewrite decide_False; [done|]. intros Hn.
      assert (r ∈ reported s0 i) as Hr by (apply reported_elem; eauto).
      rewrite Hn in Hr. by apply elem_of_nil in Hr. }
    destruct (count_ok (mon s0) (range (subBar s0))) as [[|n]|] eqn:Hc; [done|by apply Hget|].
    apply count_ok_None in Hc as (p & b & Hpb%elem_of_range & Hg).
    destruct (bar_status s0 _ _ Hb Hl Hpb) as [_ Hg'].
    rewrite decide_False in Hg' by (rewrite Hf; by intros []). case_decide; congruence.
Qed.

(** C30: when [Tasks.Execute] has returned and the sub bars are shown, the bar of a
    group of tasks counts each task of the group once, none as skipped, and its
    status is an error exactly when a task of the group failed; the main bar shows an
    error exactly when [Execute] returns one.  The bars are told apart by their ids. *)
Theorem bars_show_results (tasks : list (Task W SSHConfig Client)) (w : W)
    (s : St W SSHConfig Client) (r : option terror) :
  Inj (=) (=) bar_id → SilentSubBar opts = false → tasks ≠ [] →
  steps_to (start tasks w) s → main s = MReturn r →
  (∀ t, t ∈ tasks → ∃ id nsucc nerr,
     subBar s !! ptid t = Some id ∧ m_sum (mon s) id = (nsucc, 0, nerr) ∧
     nsucc + nerr = CountPtid tasks (ptid t) ∧
     m_get (mon s) id = (if decide (nerr = 0) then STATUS_OK else STATUS_ERROR) ∧
     (nerr = 0 ↔ ∀ t' id' r', (t', id', r') ∈ log s → ptid t' = ptid t → r' = None)) ∧
  (∀ id, mainBar s = Some id →
     m_get (mon s) id = (if r then STATUS_ERROR else STATUS_OK)).
Proof.
  intros Hinj Hsil Hne Hs Hm.
  destruct (reach_binv ssh _ _ _ _ _ (initOptions_sub Hsil) Hs) as [Hi Hb].
  destruct (returned_log _ _ _ _ Hs Hm) as (Ht & _ & Hr). symmetry in Ht.
  pose proof (inv_log _ _ _ Hi) as Hl. split.
  - intros t Hin. destruct (log_bar _ _ _ Hb Ht Hin) as (id & r0 & Hlog & Hp).
    destruct (bar_status s _ _ Hb Hl Hp) as [Hsum Hget].
    pose proof (proj2 (sum_results _ 0 0 0 (reported_results s id Hl))) as Hle.
    exists id. do 2 eexists. split_and!; [done|exact Hsum| | |].
    + rewrite <-(reported_group s tasks _ _ Hb Hp Ht). lia.
    + rewrite Hget. assert (reported s id ≠ []) as Hn.
      { intros Hn. assert (r0 ∈ reported s id) as H0 by (apply reported_elem; eauto).
        rewrite Hn in H0. by apply elem_of_nil in H0. }
      destruct (decide (failures (reported s id) = 0)) as [->|Hf];
        [by rewrite decide_False, decide_False by (done || by intros [])|by rewrite decide_True].
    + rewrite failures_0, Forall_forall. split.
      * intros Hall t' id' r' Hin' Hpt. apply Hall, reported_elem. exists t'.
        pose proof (b_log _ _ Hb _ _ _ Hin') as Hid. rewrite Hpt, Hp in Hid. by simplify_eq.
      * intros Hall r' [t' Hin']%reported_elem. eapply Hall; [done|].
        eapply (b_inj _ _ Hb); [|done]. by eapply (b_log _ _ Hb).
  - intros id Hid. destruct (returned_finish _ _ _ _ Hs Hm) as (s0 & Hs0 & Hm0 & Hw0 & ->).
    destruct (reach_binv ssh _ _ _ _ _ (initOptions_sub Hsil) Hs0) as [Hi0 Hb0].
    assert (mainBar s0 = Some id) as Hid0.
    { unfold finish in Hid. destruct (mainBar s0) eqn:E; simpl in Hid; congruence. }
    rewrite Hr. unfold finish. rewrite Hid0. cbn [set_main mon].
    rewrite (main_bar_status tasks) by done.
    rewrite setMainBarStatus_err; [done|].
    destruct (m_err (mon s0)) as [e|] eqn:He; [right|by left].
    destruct (inv_some _ _ _ Hi0 e He) as (t & i & Hin).
    pose proof (inv_log _ _ _ Hi0 _ _ _ Hin). destruct e; try done. eauto.
Qed.
End theorems.

(** ** Examples *)

(** A scheduler that tries the choices of a list in order. *)
Fixpoint drive {W SSHConfig Client} (ssh : SSH W SSHConfig Client) (bar_id : nat → nat)
    (o : MapOrder) (opts : ExecOptions) (cs : list (option nat)) (fuel : nat)
    (s : St W SSHConfig Client) : St W SSHConfig Client :=
  match fuel with
  | 0 => s
  | S fuel =>
      match omap (λ c, next ssh bar_id opts c s) cs with
      | s' :: _ => drive ssh bar_id o opts cs fuel s'
      | [] => s
      end
  end.

Lemma drive_reach {W SSHConfig Client} (ssh : SSH W SSHConfig Client) bar_id (o : MapOrder) opts
    cs fuel s : rtc (step ssh bar_id opts) s (drive ssh bar_id o opts cs fuel s).
Proof.
  revert s; induction fuel as [|fuel IH]; intros s; simpl; [done|].
  destruct (omap _ cs) as [|s' l] eqn:E; [done|]. eapply rtc_l; [|apply IH].
  assert (s' ∈ omap (λ c, next ssh bar_id opts c s) cs) as Hin by (rewrite E; left).
  apply list_elem_of_omap in Hin as (c & _ & Hc). by exists c.
Qed.

(** Machines reached over ssh: the world counts the commands that ran. *)
Definition sample_ssh : SSH nat string string := {|
  NewSSHClient := λ c w, if decide (c = "down") then (w, inr (EText "refused")) else (w, inl c);
  CloseClient := λ _ w, w |}.
Definition command (r : option terror) : Step (W := nat) (Client := string) :=
  λ _ reg w, (reg, S w, r).
Definition sample_task (group host : string) (rs : list (option terror)) : Task nat string string :=
  mkTask host group "start" host (command <$> rs) [command None] (Some host).
Definition sample_tasks : list (Task nat string string) :=
  [sample_task "mds" "h1" [None; None];
   sample_task "mds" "h2" [None; Some (EOther (EText "exit 1")); None];
   sample_task "mds" "down" [None];
   sample_task "etcd" "h3" [Some ERR_SKIP_TASK; None]].
Definition sample_opts : ExecOptions := mkExecOptions 2 false false true.
Definition sample_end : St nat string string :=
  drive sample_ssh id canonical_order (initOptions sample_opts) [Some 1; Some 0; None] 100
    (init id (initOptions sample_opts) sample_tasks 0).
Definition sample_middle : St nat string string :=
  drive sample_ssh id canonical_order (initOptions sample_opts) [None; Some 1; Some 0] 12
    (init id (initOptions sample_opts) sample_tasks 0).

Lemma task_Execute_spec_witness :
  let t := sample_task "mds" "h2" [None; Some (EOther (EText "exit 1")); None] in
  task_Execute sample_ssh t 0 = (3, Some (EOther (EText "exit 1"))) ∧
  Some (EOther (EText "exit 1")) ≠ Some ERR_SKIP_TASK.
Proof.
  split; [reflexivity|].
  refine (proj1 (task_Execute_spec sample_ssh
    (sample_task "mds" "h2" [None; Some (EOther (EText "exit 1")); None]) 0 3 _ _)).
  reflexivity.
Defined.

Lemma workers_bounded_witness :
  length (live sample_middle) = 2 ∧ length (filter holds (live sample_middle)) ≤ 2.
Proof.
  split; [vm_compute; reflexivity|].
  exact (proj1 (workers_bounded sample_ssh id canonical_order sample_opts sample_tasks 0
    sample_middle (drive_reach _ _ _ _ _ _ _))).
Defined.

Lemma Tasks_Execute_result_witness :
  world sample_end = 8 ∧
  ∃ runs, runs.*1.*1 ≡ₚ sample_tasks ∧ (∀ t r tr, (t, r, tr) ∈ runs → executes sample_ssh t tr r).
Proof.
  split; [vm_compute; reflexivity|].
  destruct (Tasks_Execute_result sample_ssh id canonical_order sample_opts sample_tasks 0
    sample_end (Some (EOther (ECode ERR_SSH_CONNECT_FAILED))) (drive_reach _ _ _ _ _ _ _))
    as (runs & Hp & Hx & _); [vm_compute; reflexivity|].
  by exists runs.
Defined.

Lemma bars_show_results_witness :
  mainBar sample_end = Some 0 ∧ m_get (mon sample_end) 0 = STATUS_ERROR ∧
  m_sum (mon sample_end) 1 = (1, 0, 2).
Proof.
  split; [vm_compute; reflexivity|]. split; [|vm_compute; reflexivity].
  refine (proj2 (bars_show_results sample_ssh id canonical_order sample_opts sample_tasks 0
    sample_end (Some (EOther (ECode ERR_SSH_CONNECT_FAILED))) _ eq_refl _
    (drive_reach _ _ _ _ _ _ _) _) 0 _).
  - discriminate.
  - vm_compute. reflexivity.
  - vm_compute. reflexivity.
Defined.
