(* ===== verification/Steps.v ===== *)
(** The steps tasks are made of (src/internal/task/step: common.go, container.go, shell.go,
    file.go).

    A step builds a command, runs it on the machine of its task and stores the output and
    the success in variables of the task that later steps read.  The variables are kept in
    the register of the task's context, under their names; an argument [Out] or [Success]
    is the name of a variable, or [None] for nil. *)

From S2P Require Import Prelude Errno GoLib Utils Hosts Tasks Shell.
From Stdlib Require Import Ascii.

(** ** Variables of a task *)

Definition str_var (reg : Register) (v : string) : string :=
  match map_get reg v with VString s => s | _ => "" end.
Definition bool_var (reg : Register) (v : string) : bool :=
  match map_get reg v with VBool b => b | _ => false end.
Definition set_str (v s : string) (reg : Register) : Register := Register_Set reg v (VString s).
Definition set_bool (v : string) (b : bool) (reg : Register) : Register := Register_Set reg v (VBool b).

Definition newline : string := bytes [10].
(** [utils.TrimSuffixRepeat(out, newline)]; the fuel is enough ([TrimSuffixRepeat_total]). *)
Definition TrimNewlines (out : string) : string :=
  default out (TrimSuffixRepeat (S (String.length out)) out newline).

(** ** common.go *)

(** The nil error is [None]; [ec] is nil for no code. *)
Definition PostHandle (Success Out : option string) (out : string) (err : option exec_error)
    (ec : option ErrorCode) (reg : Register) : Register * option terror :=
  let reg := match Out with Some v => set_str v (TrimNewlines out) reg | None => reg end in
  match Success, err with
  | Some v, _ => (set_bool v (bool_decide (err = None)) reg, None)
  | None, None => (reg, None)
  | None, Some (TimeoutError _) => (reg, Some (EOther (ECode ERR_EXECUTE_COMMAND_TIMED_OUT)))
  | None, Some (ExecError _) => (reg, Some (EOther (ECode (default ERR_UNKNOWN ec))))
  end.

Section steps.
Context {W : Type} `{Machine W}.
Notation Step := (Tasks.Step (W := W) (Client := SSHConfig)).

Definition Lambda (f : Register → W → Register * W * option terror) : Step := λ _, f.

Definition shell_step (Success Out : option string) (ec : ErrorCode) (o : ExecOptions) (s : Shell)
    : Step := λ cl reg w,
  let '(w, (out, err)) := sh_Execute cl s o w in
  let '(reg, r) := PostHandle Success Out out err (Some ec) reg in (reg, w, r).
Definition docker_step (Success Out : option string) (ec : ErrorCode) (o : ExecOptions) (s : Shell)
    : Step := λ cl reg w,
  let '(w, (out, err)) := docker_Execute cl s o w in
  let '(reg, r) := PostHandle Success Out out err (Some ec) reg in (reg, w, r).

(** Steps one after the other, until one fails. *)
Fixpoint each_step (l : list Step) : Step := λ cl reg w,
  match l with
  | [] => (reg, w, None)
  | s :: l => match s cl reg w with
              | (reg, w, None) => each_step l cl reg w
              | r => r
              end
  end.

Definition opt_if (b : bool) (option : string) (s : Shell) : Shell := if b then AddOption option s else s.
Definition opt_str (prefix value : string) (s : Shell) : Shell :=
  opt_if (negb (bool_decide (value = ""))) (prefix +:+ value) s.
Definition opt_each (prefix : string) (values : list string) (s : Shell) : Shell :=
  foldl (λ s v, AddOption (prefix +:+ v) s) s values.
Definition opt_pos (prefix : string) (value : Z) (s : Shell) : Shell :=
  opt_if (0 <? value)%Z (prefix +:+ Itoa value) s.

(** ** container.go *)

Definition EngineInfo Success Out (o : ExecOptions) : Step :=
  docker_step Success Out ERR_GET_CONTAINER_ENGINE_INFO_FAILED o (docker_DockerInfo NewShell).
Definition PullImage (Image : string) Out (o : ExecOptions) : Step :=
  docker_step None Out ERR_PULL_IMAGE_FAILED o (docker_PullImage Image NewShell).

Record Volume : Type := mkVolume { HostPath : string; ContainerPath : string }.
Record CreateContainer_ : Type := mkCreate {
  cc_Image : string; cc_Command : string; cc_AddHost : list string; cc_Devices : list string;
  cc_Entrypoint : string; cc_Envs : list string; cc_Hostname : string; cc_Init : bool;
  cc_LinuxCapabilities : list string; cc_Mount : string; cc_Name : string; cc_Network : string;
  cc_User : string; cc_Pid : string; cc_Publish : string; cc_Privileged : bool; cc_Remove : bool;
  cc_Restart : string; cc_SecurityOptions : list string; cc_Ulimits : list string;
  cc_Volumes : list Volume }.

Definition create_shell (c : CreateContainer_) : Shell :=
  let s := docker_CreateContainer (cc_Image c) (cc_Command c) NewShell in
  let s := opt_each "--add-host " (cc_AddHost c) s in
  let s := opt_each "--device " (cc_Devices c) s in
  let s := opt_str "--entrypoint " (cc_Entrypoint c) s in
  let s := opt_each "--env " (cc_Envs c) s in
  let s := opt_str "--hostname " (cc_Hostname c) s in
  let s := opt_if (cc_Init c) "--init" s in
  let s := opt_each "--cap-add " (cc_LinuxCapabilities c) s in
  let s := opt_str "--mount " (cc_Mount c) s in
  let s := opt_str "--name " (cc_Name c) s in
  let s := if decide (cc_Network c = "") then AddOption "--network host" s
           else AddOption ("--network " +:+ cc_Network c) s in
  let s := opt_str "--pid " (cc_Pid c) s in
  let s := opt_str "--publish " (cc_Publish c) s in
  let s := opt_str "--user " (cc_User c) s in
  let s := opt_if (cc_Privileged c) "--privileged" s in
  let s := opt_if (cc_Remove c) "--rm" s in
  let s := opt_str "--restart " (cc_Restart c) s in
  let s := opt_each "--security-opt " (cc_SecurityOptions c) s in
  let s := opt_each "--ulimit " (cc_Ulimits c) s in
  opt_each "--volume " ((λ v, HostPath v +:+ ":" +:+ ContainerPath v) <$> cc_Volumes c) s.
Definition CreateContainer (c : CreateContainer_) Out (o : ExecOptions) : Step :=
  docker_step None Out ERR_CREATE_CONTAINER_FAILED o (create_shell c).

Definition StartContainer (ContainerId : string) Success Out (o : ExecOptions) : Step :=
  docker_step Success Out ERR_START_CONTAINER_FAILED o (docker_StartContainer [ContainerId] NewShell).
(** Without output of the step before there is nothing to stop. *)
Definition StopContainer (ContainerId : string) (Time : Z) (Out : option string) (o : ExecOptions) : Step :=
  λ cl reg w,
  if decide (default "" (str_var reg <$> Out) = "") then (reg, w, None) else
  docker_step None Out ERR_STOP_CONTAINER_FAILED o
    (opt_pos "--time " Time (docker_StopContainer [ContainerId] NewShell)) cl reg w.
Definition RestartContainer (ContainerId : string) Out (o : ExecOptions) : Step :=
  docker_step None Out ERR_RESTART_CONTAINER_FAILED o (docker_RestartContainer [ContainerId] NewShell).
Definition WaitContainer (ContainerId : string) Out (o : ExecOptions) : Step :=
  docker_step None Out ERR_WAIT_CONTAINER_STOP_FAILED o (docker_WaitContainer [ContainerId] NewShell).
Definition RemoveContainer (ContainerId : string) Success Out (o : ExecOptions) : Step :=
  docker_step Success Out ERR_REMOVE_CONTAINER_FAILED o (docker_RemoveContainer [ContainerId] NewShell).
Definition list_shell (Format Filter : string) (Quiet ShowAll : bool) : Shell :=
  opt_if ShowAll "--all" (opt_if Quiet "--quiet" (opt_str "--filter " Filter
    (opt_str "--format " Format (docker_ListContainers NewShell)))).
Definition ListContainers (Format Filter : string) (Quiet ShowAll : bool) Out (o : ExecOptions) : Step :=
  docker_step None Out ERR_LIST_CONTAINERS_FAILED o (list_shell Format Filter Quiet ShowAll).
Definition ContainerExec (ContainerId Command : string) Success Out (o : ExecOptions) : Step :=
  docker_step Success Out ERR_RUN_COMMAND_IN_CONTAINER_FAILED o
    (docker_ContainerExec ContainerId Command NewShell).
Definition CopyFromContainer (ContainerId ContainerSrcPath HostDestPath : string) (ExcludeParent : bool)
    Out (o : ExecOptions) : Step :=
  docker_step None Out ERR_COPY_FROM_CONTAINER_FAILED o
    (docker_CopyFromContainer ContainerId ContainerSrcPath HostDestPath ExcludeParent NewShell).
Definition CopyIntoContainer (HostSrcPath ContainerId ContainerDestPath : string) Out (o : ExecOptions) : Step :=
  docker_step None Out ERR_COPY_INTO_CONTAINER_FAILED o
    (docker_CopyIntoContainer HostSrcPath ContainerId ContainerDestPath NewShell).
Definition inspect_shell (ContainerId Format : string) : Shell :=
  opt_str "--format=" Format (docker_InspectContainer ContainerId NewShell).
Definition InspectContainer (ContainerId Format : string) Success Out (o : ExecOptions) : Step :=
  docker_step Success Out ERR_INSPECT_CONTAINER_FAILED o (inspect_shell ContainerId Format).
Definition ContainerLogs (ContainerId : string) Success Out (o : ExecOptions) : Step :=
  docker_step Success Out ERR_GET_CONTAINER_LOGS_FAILED o (docker_ContainerLogs ContainerId NewShell).

(** ** shell.go *)

Definition ERR_NOT_MOUNTED : string := "not mounted".
Definition ERR_MOUNTPOINT_NOT_FOUND : string := "mountpoint not found".
Definition ERROR_DEVICE_BUSY : string := "Device or resource busy".

Definition Sed (Files : list string) (Expression : string) (InPlace : bool) Out (o : ExecOptions) : Step :=
  shell_step None Out ERR_EDIT_FILE_FAILED o
    (opt_if (negb (bool_decide (Expression = ""))) ("--expression='" +:+ Expression +:+ "'")
      (opt_if InPlace "--in-place" (sh_Sed Files NewShell))).
Definition List_ (Files : list string) Out (o : ExecOptions) : Step :=
  shell_step None Out ERR_EDIT_FILE_FAILED o (sh_List Files NewShell).

(** One command per path; the step ends at the first that fails. *)
Definition CreateDirectory (Paths : list string) Success Out (o : ExecOptions) : Step :=
  each_step ((λ path, shell_step Success Out ERR_CREATE_DIRECTORY_FAILED o
                        (AddOption "--parents" (sh_Mkdir [path] NewShell)))
             <$> filter (λ path, path ≠ "" ∧ path ≠ "-") Paths).

(** A busy file is left where it is. *)
Definition remove_one (Out : option string) (o : ExecOptions) (file : string) : Step := λ cl reg w,
  let '(w, (out, err)) := sh_Execute cl
    (AddOption "--recursive" (AddOption "--force" (sh_Remove [file] NewShell))) o w in
  let '(reg, r) := PostHandle None Out out err (Some ERR_REMOVE_FILES_OR_DIRECTORIES_FAILED) reg in
  (reg, w, if StrContains out ERROR_DEVICE_BUSY then None else r).
Definition RemoveFile (Files : list string) Out (o : ExecOptions) : Step :=
  each_step (remove_one Out o <$> filter (λ file, file ≠ "") Files).

Definition CopyFile (Source Dest : string) (NoClobber : bool) Out (o : ExecOptions) : Step :=
  shell_step None Out ERR_COPY_FILES_AND_DIRECTORIES_FAILED o
    (opt_if NoClobber "--no-clobber" (sh_Copy Source Dest NewShell)).
Definition Cat (Files : list string) Success Out (o : ExecOptions) : Step :=
  shell_step Success Out ERR_CONCATENATE_FILE_FAILED o (sh_Cat Files NewShell).
Definition CreateFilesystem (Device : string) Out (o : ExecOptions) : Step :=
  shell_step None Out ERR_BUILD_A_LINUX_FILE_SYSTEM_FAILED o (AddOption "-F" (sh_Mkfs Device NewShell)).
Definition MountFilesystem (Source Directory : string) Out (o : ExecOptions) : Step :=
  shell_step None Out ERR_MOUNT_A_FILESYSTEM_FAILED o (sh_Mount Source Directory NewShell).

Definition umount_one (IgnoreUmounted IgnoreNotFound : bool) (Out : option string) (o : ExecOptions)
    (directory : string) : Step := λ cl reg w,
  let '(w, (out, err)) := sh_Execute cl (sh_Umount directory NewShell) o w in
  let '(reg, r) := PostHandle None Out out err (Some ERR_UNMOUNT_FILE_SYSTEMS_FAILED) reg in
  (reg, w, if (IgnoreUmounted && StrContains out ERR_NOT_MOUNTED) ||
              (IgnoreNotFound && StrContains out ERR_MOUNTPOINT_NOT_FOUND) then None else r).
Definition UmountFilesystem (Directorys : list string) (IgnoreUmounted IgnoreNotFound : bool) Out
    (o : ExecOptions) : Step :=
  each_step (umount_one IgnoreUmounted IgnoreNotFound Out o <$> filter (λ d, d ≠ "") Directorys).

Definition Tune2FS (Device ReservedBlocksPercentage : string) Success Out (o : ExecOptions) : Step :=
  shell_step Success Out ERR_RESERVE_FILESYSTEM_BLOCKS_FAILED o
    (opt_str "-m " ReservedBlocksPercentage (sh_Tune2FS Device NewShell)).
Definition Fuser (Names : list string) Out (o : ExecOptions) : Step :=
  shell_step None Out ERR_FIND_WHICH_PROCESS_USING_FILE_FAILED o (sh_Fuser Names NewShell).
Definition ShowDiskFree (Files : list string) (Format : string) Out (o : ExecOptions) : Step :=
  shell_step None Out ERR_GET_DISK_SPACE_USAGE_FAILED o
    (opt_str "--output=" Format (sh_DiskFree Files NewShell)).
Definition ListBlockDevice (Device : list string) (Format : string) (NoHeadings : bool) Success Out
    (o : ExecOptions) : Step :=
  shell_step Success Out ERR_LIST_BLOCK_DEVICES_FAILED o
    (opt_if NoHeadings "--noheadings" (opt_str "--output=" Format (sh_LsBlk Device NewShell))).
Definition BlockId (Device Format MatchTag : string) Success Out (o : ExecOptions) : Step :=
  shell_step Success Out ERR_GET_BLOCK_DEVICE_UUID_FAILED o
    (opt_str "-s " MatchTag (opt_str "-o " Format (sh_BlkId Device NewShell))).

Definition SocketStatistics (Filter : string) (Listening NoHeader : bool) Success Out (o : ExecOptions) : Step :=
  shell_step Success Out ERR_GET_CONNECTION_INFORMATION_FAILED o
    (opt_if NoHeader "--no-header" (opt_if Listening "--listening" (sh_SocketStatistics Filter NewShell))).
Definition Ping (Destination : string) (Count Timeout : Z) Success Out (o : ExecOptions) : Step :=
  shell_step Success Out ERR_SEND_ICMP_ECHO_REQUEST_TO_HOST_FAILED o
    (opt_pos "-W " Timeout (opt_pos "-c " Count (sh_Ping Destination NewShell))).
Definition Curl (Url Form : string) (Insecure : bool) (Output : string) (Silent : bool) Success Out
    (o : ExecOptions) : Step :=
  shell_step Success Out ERR_TRANSFERRING_DATA_FROM_OR_TO_SERVER_FAILED o
    (opt_if Silent "--silent" (opt_str "--output " Output (opt_if Insecure "--insecure"
      (opt_str "--form " Form (sh_Curl Url NewShell))))).

Definition Whoami Success Out (o : ExecOptions) : Step :=
  shell_step Success Out ERR_GET_SYSTEM_TIME_FAILED o (sh_Whoami NewShell).
Definition Date (Format : string) Out (o : ExecOptions) : Step :=
  shell_step None Out ERR_GET_SYSTEM_TIME_FAILED o (sh_Date Format NewShell).
Definition UnixName (KernelRelease : bool) Out (o : ExecOptions) : Step :=
  shell_step None Out ERR_GET_SYSTEM_INFORMATION_FAILED o
    (opt_if KernelRelease "--kernel-release" (sh_UnixName NewShell)).
Definition ModInfo (Name : string) Success Out (o : ExecOptions) : Step :=
  shell_step Success Out ERR_GET_KERNEL_MODULE_INFO_FAILED o (sh_ModInfo Name NewShell).
Definition ModProbe (Name : string) (Args : list string) Success Out (o : ExecOptions) : Step :=
  shell_step Success Out ERR_ADD_MODUDLE_FROM_LINUX_KERNEL_FAILED o (sh_ModProbe Name Args NewShell).

Definition Hostname_ Success Out (o : ExecOptions) : Step :=
  shell_step Success Out ERR_GET_HOSTNAME_FAILED o (sh_Command "hostname" NewShell).
Definition Tar (File Archive : string) (Create : bool) (Directory : string) (Extract : bool)
    (StripComponents : Z) (Gzip UnGzip Verbose : bool) Success Out (o : ExecOptions) : Step :=
  shell_step Success Out ERR_STORES_AND_EXTRACTS_FILES_FAILED o
    (opt_if Verbose "--verbose" (opt_if Gzip "--gzip" (opt_if UnGzip "--ungzip"
      (opt_pos "--strip-components=" StripComponents (opt_if Extract "--extract"
        (opt_str "--directory=" Directory (opt_if Create "--create"
          (opt_str "--file=" Archive (sh_Tar File NewShell))))))))).
Definition Dpkg (Install Purge : string) Success Out (o : ExecOptions) : Step :=
  shell_step Success Out ERR_INSTALL_OR_REMOVE_DEBIAN_PACKAGE_FAILED o
    (opt_str "--purge " Purge (opt_str "--install " Install (sh_Dpkg NewShell))).
Definition Rpm (Hash : bool) (Install : string) (NoDeps Verbose : bool) Success Out (o : ExecOptions) : Step :=
  shell_step Success Out ERR_INSTALL_OR_REMOVE_RPM_PACKAGE_FAILED o
    (opt_if Verbose "--verbose" (opt_if NoDeps "--nodeps" (opt_str "--install " Install
      (opt_if Hash "--hash" (sh_Rpm NewShell))))).
Definition Command_ (Command : string) Success Out (o : ExecOptions) : Step :=
  shell_step Success Out ERR_RUN_A_BASH_COMMAND_FAILED o (sh_Command Command NewShell).

(** ** file.go *)

Definition TEMP_DIR : string := "/tmp".

(** The body of [ReadFile] from the file on the machine; the local copy is removed. *)
Definition fetch (remotePath Content : string) (o : ExecOptions) : Step := λ cl reg w,
  let '(w, localPath) := RandFilename TEMP_DIR w in
  let '(w, failed) :=
    if ExecInLocal o then
      let '(w, (_, err)) := sh_Execute cl (sh_Rename remotePath localPath NewShell) o w in
      (w, match err with Some _ => Some ERR_RENAME_FILE_OR_DIRECTORY_FAILED | None => None end)
    else
      let '(w, err) := Download cl remotePath localPath w in
      (w, match err with Some _ => Some ERR_DOWNLOAD_FILE_FROM_REMOTE_BY_SSH_FAILED | None => None end) in
  match failed with
  | Some c => (reg, os_Remove localPath w, Some (EOther (ECode c)))
  | None =>
      let '(data, err) := ReadFile localPath w in
      (set_str Content data reg, os_Remove localPath w,
       match err with Some _ => Some (EOther (ECode ERR_READ_FILE_FAILED)) | None => None end)
  end.
Definition ReadFile_ (HostSrcPath ContainerId ContainerSrcPath Content : string) (o : ExecOptions) : Step :=
  λ cl reg w,
  if decide (HostSrcPath ≠ "") then fetch HostSrcPath Content o cl reg w else
  let '(w, remotePath) := RandFilename TEMP_DIR w in
  let '(w, (_, err)) := docker_Execute cl
    (docker_CopyFromContainer ContainerId ContainerSrcPath remotePath false NewShell) o w in
  match err with
  | Some _ => (reg, w, Some (EOther (ECode ERR_COPY_FROM_CONTAINER_FAILED)))
  | None => fetch remotePath Content o cl reg w
  end.

(** [ContainerId] and [Content] are read when the step runs. *)
Definition InstallFile (Content : Register → string) (HostDestPath : string)
    (ContainerId : Register → string) (ContainerDestPath : string) (o : ExecOptions) : Step :=
  λ cl reg w,
  let fails c w := (reg, w, Some (EOther (ECode c))) in
  let '(w, localPath) := RandFilename TEMP_DIR w in
  let '(w, err) := WriteFile localPath (Content reg) 420 (* 0644 *) w in
  match err with
  | Some _ => fails ERR_WRITE_FILE_FAILED (os_Remove localPath w)
  | None =>
      let '(w, remotePath) := RandFilename TEMP_DIR w in
      let '(w, failed) :=
        if ExecInLocal o then
          let '(w, (_, err)) := sh_Execute cl (sh_Rename localPath remotePath NewShell)
            (mkModuleOptions false (ExecInLocal o) (ExecSudoAlias o) 0 "") w in
          (w, match err with Some _ => Some ERR_RENAME_FILE_OR_DIRECTORY_FAILED | None => None end)
        else
          let '(w, err) := Upload cl localPath remotePath w in
          (w, match err with Some _ => Some ERR_UPLOAD_FILE_TO_REMOTE_BY_SSH_FAILED | None => None end) in
      match failed with
      | Some c => fails c (os_Remove localPath w)
      | None =>
          let '(w, (_, err)) :=
            if decide (HostDestPath ≠ "") then sh_Execute cl (sh_Rename remotePath HostDestPath NewShell) o w
            else docker_Execute cl
                   (docker_CopyIntoContainer remotePath (ContainerId reg) ContainerDestPath NewShell) o w in
          (reg, os_Remove localPath w,
           match err with
           | Some _ => Some (EOther (ECode (if decide (HostDestPath ≠ "") then ERR_RENAME_FILE_OR_DIRECTORY_FAILED
                                            else ERR_COPY_INTO_CONTAINER_FAILED)))
           | None => None
           end)
      end
  end.

Definition SyncFileDirectly (ContainerSrcId ContainerSrcPath ContainerDestId ContainerDestPath : string)
    (IsDir : bool) (o : ExecOptions) : Step := λ cl reg w,
  let '(w, hostPath) := RandFilename TEMP_DIR w in
  let '(reg, w, r) := each_step
    [CopyFromContainer ContainerSrcId ContainerSrcPath hostPath false None o;
     CopyIntoContainer (if IsDir then hostPath +:+ "/." else hostPath) ContainerDestId ContainerDestPath None o]
    cl reg w in
  (reg, os_RemoveAll hostPath w, r).
Definition DownloadFile (RemotePath LocalPath : string) : Step := λ cl reg w,
  let '(w, err) := Download cl RemotePath LocalPath w in
  (reg, w, match err with Some e => Some (EOther (EText e)) | None => None end).
Definition CreateAndUploadDir (HostDirName ContainerDestId ContainerDestPath : string) (o : ExecOptions)
    : Step := λ cl reg w,
  let '(w, randPath) := RandFilename TEMP_DIR w in
  let hostPath := path_Join [randPath; HostDirName] in
  let '(w, (_, err)) := sh_Execute cl (sh_Mkdir [randPath; hostPath] NewShell) o w in
  match err with
  | Some _ => (reg, w, Some (EOther (ECode ERR_RENAME_FILE_OR_DIRECTORY_FAILED)))
  | None =>
      let '(reg, w, r) := CopyIntoContainer hostPath ContainerDestId ContainerDestPath None o cl reg w in
      let '(w, _) := sh_Execute cl (sh_Rmdir [hostPath; randPath] NewShell) o w in
      (reg, w, r)
  end.
Definition Step2CopyFilesFromContainer (Files : list string) (ContainerId HostDestDir : string)
    (ExcludeParent : bool) (o : ExecOptions) : Step :=
  each_step ((λ file, CopyFromContainer ContainerId file HostDestDir ExcludeParent None o) <$> Files).
End steps.
