(* ===== verification/Cli.v ===== *)
(** The command-line context (cli/cli/cli.go): the current cluster and hosts, and the
    operations every command uses on them.

    [DingoCli] joins the hosts file and the topology: the host names of the first
    become the [Context] in which the second is parsed.  Reading the two files, the
    MD5 digest and the container table of the database are parameters. *)

From S2P Require Import Prelude Errno GoLib Utils Storage Vars DeployConfig Topology TopologyParse TopologySamples TopologyDiff ItemSet Hosts HostsFacts.

Record DingoCli : Type := mkDingoCli {
  cli_hosts : string;
  clusterId : Z;
  clusterUUId : string;
  clusterName : string;
  clusterTopologyData : string;
  clusterPoolData : string;
  memStorage : gmap string val;
}.

Record FilterOption : Type := mkFilterOption {
  f_Id : string; f_Role : string; f_Host : string }.

Definition SERVICE_DIR_ABSENT : string := "-".
Definition CLEANED_CONTAINER_ID : string := "-".
Definition AUDIT_STATUS_ABORT : Z := 0.
Definition AUDIT_STATUS_SUCCESS : Z := 1.
Definition AUDIT_STATUS_FAIL : Z := 2.
Definition AUDIT_STATUS_CANCEL : Z := 3.

Definition SwitchCluster (cli : DingoCli) (cluster : Cluster) : DingoCli :=
  mkDingoCli (cli_hosts cli) (c_Id cluster) (c_UUId cluster) (c_Name cluster)
    (c_Topology cluster) (c_Pool cluster) ∅.

Section cli.
Context (os : OS) `{MapOrder}.
Context (parse_hosts : string → option Hosts_) (parse : string → option Topology_).
Context (stack : nat) (uuid : nat → string).

(** ** Hosts *)

(** The loop of [GetHost]. *)
Fixpoint find_host (h : string) (hcs : list HostConfig) : res error HostConfig :=
  match hcs with
  | [] => Err (ECode ERR_HOST_NOT_FOUND)
  | hc :: hcs =>
      h' ← Hosts.GetHost hc;
      if decide (h' = h) then Ok hc else find_host h hcs
  end.

Definition cli_GetHost (cli : DingoCli) (h : string) : res error HostConfig :=
  if decide (cli_hosts cli = "") then Err (ECode ERR_HOST_NOT_FOUND) else
  hcs ← ParseHosts os parse_hosts (cli_hosts cli);
  find_host h hcs.

Definition CheckHost (cli : DingoCli) (h : string) : res error unit :=
  _ ← cli_GetHost cli h; Ok tt.

(** The context built from the hosts. *)
Definition context_step (c : option Context) (hc : HostConfig) : res error (option Context) :=
  h ← Hosts.GetHost hc;
  hn ← Hosts.GetHostname hc;
  ctx_Add c h hn.
Definition hosts_context (cli : DingoCli) : res error (option Context) :=
  hcs ← ParseHosts os parse_hosts (cli_hosts cli);
  fold_res context_step hcs (Some NewContext).

(** ** Topology *)

Definition ParseTopologyData (cli : DingoCli) (data : string)
    : res error (option Context * list DeployConfig) :=
  c ← hosts_context cli;
  p ← Topology.ParseTopology stack uuid parse data c;
  if decide (p.2 = []) then Err (ECode ERR_NO_SERVICES_IN_TOPOLOGY) else Ok p.

Definition cli_ParseTopology (cli : DingoCli) : res error (option Context * list DeployConfig) :=
  if decide (clusterId cli = -1)%Z then Err (ECode ERR_NO_CLUSTER_SPECIFIED)
  else ParseTopologyData cli (clusterTopologyData cli).

Definition cli_DiffTopology (Hash : DeployConfig → option Z) (uuid1 uuid2 : nat → string)
    (cli : DingoCli) (data1 data2 : string) : res error (list TopologyDiff) :=
  c ← hosts_context cli;
  if decide (data1 = "") then Err (ECode ERR_EMPTY_CLUSTER_TOPOLOGY) else
  p ← Topology.ParseTopology stack uuid parse data1 c;
  if decide (p.2 = []) then Err (ECode ERR_NO_SERVICES_IN_TOPOLOGY)
  else TopologyDiff.DiffTopology Hash stack uuid1 uuid2 parse data1 data2 p.1.

Definition CheckRole (cli : DingoCli) (r : string) : res error unit :=
  p ← cli_ParseTopology cli;
  match p.2 with
  | [] => Panic (* index out of range; not reached *)
  | dc :: _ =>
      let k := GetKind dc in
      let roles := if decide (k = KIND_DINGODB) then DINGODB_ROLES
                   else if decide (k = KIND_DINGOSTORE) then DINGOSTORE_ROLES
                   else DINGOFS_ROLES in
      if in_map (Slice2Map roles) r then Ok tt
      else if decide (k = KIND_DINGOFS) then Err (ECode ERR_UNSUPPORT_DINGOFS_ROLE)
      else if decide (k = KIND_DINGODB) then Err (ECode ERR_UNSUPPORT_DINGODB_ROLE)
      else if decide (k = KIND_DINGOSTORE) then Err (ECode ERR_UNSUPPORT_DINGOSTORE_ROLE)
      else Ok tt
  end.

(** ** Services *)

(** The hexadecimal MD5 digest; the ids are its first twelve characters. *)
Context (md5 : string → string).

Definition GetServiceId (cli : DingoCli) (dcId : string) : string :=
  String.substring 0 12 (md5 (clusterUUId cli +:+ "_" +:+ dcId)).
Definition GetFilesystemId (h mountPoint : string) : string :=
  String.substring 0 12 (md5 ("dingofs_filesystem_" +:+ h +:+ "_" +:+ mountPoint)).

Definition matches (cli : DingoCli) (o : FilterOption) (dc : DeployConfig) : bool :=
  (bool_decide (f_Id o = "*") || bool_decide (f_Id o = GetServiceId cli (GetId dc))) &&
  (bool_decide (f_Role o = "*") || bool_decide (f_Role o = GetRole dc)) &&
  (bool_decide (f_Host o = "*") || bool_decide (f_Host o = DeployConfig.GetHost dc)).

Definition FilterDeployConfig (cli : DingoCli) (dcs : list DeployConfig) (o : FilterOption)
    : list DeployConfig := filter (λ dc, matches cli o dc = true) dcs.

Definition FilterDeployConfigByGateway (dcs : list DeployConfig) (o : FilterOption)
    : option DeployConfig := find_first (λ dc, bool_decide (f_Host o = DeployConfig.GetHost dc)) dcs.

Definition FilterDeployConfigByRole (cli : DingoCli) (dcs : list DeployConfig) (r : string)
    : list DeployConfig := FilterDeployConfig cli dcs (mkFilterOption "*" r "*").

(** [container] is the lookup in the database: [None] for its error, an empty string
    for no row. *)
Definition GetContainerId (container : string → option string) (serviceId : string)
    : res error string :=
  match container serviceId with
  | None => Err (ECode ERR_GET_SERVICE_CONTAINER_ID_FAILED)
  | Some c => if decide (c = "") then Ok CLEANED_CONTAINER_ID else Ok c
  end.

Definition IsSkip (container : string → option string) (cli : DingoCli) (dc : DeployConfig) : bool :=
  match container (GetServiceId cli (GetId dc)) with
  | None => false
  | Some c => bool_decide (c = "") && bool_decide (GetRole dc = ROLE_SNAPSHOTCLONE)
  end.

(** [services] are the ids of the services table, [None] for an error [e]. *)
Definition CheckId (services : res error (list string)) (id : string) : res error unit :=
  l ← services;
  if existsb (λ s, bool_decide (s = id)) l then Ok tt else Err (ECode ERR_ID_NOT_FOUND).

Definition IsSameRole (dcs : list DeployConfig) : res error bool :=
  match dcs with
  | [] => Panic (* index out of range *)
  | dc :: _ => Ok (forallb (λ d, bool_decide (GetRole d = GetRole dc)) dcs)
  end.

Definition roles_step (st : list string * gmap string bool) (dc : DeployConfig)
    : list string * gmap string bool :=
  let '(roles, roleMap) := st in
  match roleMap !! GetRole dc with
  | Some _ => st
  | None => (roles ++ [GetRole dc], <[GetRole dc := true]> roleMap)
  end.
Definition GetRoles (dcs : list DeployConfig) : list string := (foldl roles_step ([], ∅) dcs).1.

(** The status [PostAudit] stores for the error of a command, and its code. *)
Definition audit_status (ec : option error) : Z * Z :=
  match ec with
  | None => (AUDIT_STATUS_SUCCESS, 0%Z)
  | Some (ECode c) =>
      if decide (c = ERR_CANCEL_OPERATION) then (AUDIT_STATUS_CANCEL, 0%Z)
      else (AUDIT_STATUS_FAIL, Code c)
  | Some (EText _) => (AUDIT_STATUS_FAIL, 0%Z)
  end.
End cli.

(** ** Lemmas *)

Section facts.
Context (os : OS) `{MapOrder}.
Context (parse_hosts : string → option Hosts_).

Lemma find_host_Ok h hcs hc :
  find_host h hcs = Ok hc → hc ∈ hcs ∧ Hosts.GetHost hc = Ok h.
Proof.
  induction hcs as [|hc' hcs IH]; simpl; [done|].
  intros (h' & Hh & Hf)%bind_Ok. case_decide as Hd.
  - simplify_eq. split; [left|done].
  - destruct (IH Hf) as [? ?]. split; [by right|done].
Qed.

Lemma find_host_iff h hcs hs :
  Hosts.GetHost <$> hcs = Ok <$> hs →
  (h ∈ hs → ∃ hc, find_host h hcs = Ok hc) ∧ (h ∉ hs → find_host h hcs = Err (ECode ERR_HOST_NOT_FOUND)).
Proof.
  revert hs; induction hcs as [|hc hcs IH]; intros [|h' hs]; try done; simpl.
  { split; [by intros ?%elem_of_nil|done]. }
  intros [= Hh Hl]. destruct (IH hs Hl) as [IH1 IH2]. rewrite Hh. simpl.
  rewrite elem_of_cons. case_decide as Hd; [subst; split; [eauto|naive_solver]|].
  split; [intros [?|?]; [congruence|auto]|]. intros Hn. apply IH2. tauto.
Qed.

(** [GetHost] finds exactly the hosts of the file. *)
Lemma cli_GetHost_spec cli hcs hs h :
  ParseHosts os parse_hosts (cli_hosts cli) = Ok hcs → Hosts.GetHost <$> hcs = Ok <$> hs →
  (h ∈ hs → ∃ hc, cli_GetHost os parse_hosts cli h = Ok hc) ∧
  (h ∉ hs → cli_GetHost os parse_hosts cli h = Err (ECode ERR_HOST_NOT_FOUND)).
Proof.
  intros Hp Hhs. unfold cli_GetHost. case_decide as He.
  { rewrite He in Hp. by unfold ParseHosts in Hp. }
  rewrite Hp. simpl. by apply find_host_iff.
Qed.

Lemma hosts_context_Ok cli c :
  hosts_context os parse_hosts cli = Ok c →
  ∃ hcs m, ParseHosts os parse_hosts (cli_hosts cli) = Ok hcs ∧ c = Some m ∧
    ∀ h hn, m !! h = Some hn → ∃ hc, hc ∈ hcs ∧ Hosts.GetHost hc = Ok h ∧ Hosts.GetHostname hc = Ok hn.
Proof.
  intros (hcs & Hp & Hf)%bind_Ok. exists hcs.
  assert (∃ m : gmap string string, c = Some m ∧ ∀ h hn, m !! h = Some hn →
            ∃ hc, hc ∈ hcs ∧ Hosts.GetHost hc = Ok h ∧ Hosts.GetHostname hc = Ok hn)
    as (m & -> & Hm); [|eauto].
  revert Hf. apply (fold_res_ind (λ pre c, ∃ m : gmap string string, c = Some m ∧ ∀ h hn, m !! h = Some hn →
            ∃ hc, hc ∈ pre ∧ Hosts.GetHost hc = Ok h ∧ Hosts.GetHostname hc = Ok hn)).
  { exists ∅. split; [done|]. intros h hn. by rewrite lookup_empty. }
  intros pre hc c0 c1 (m & -> & Hm) (h & Hh & (hn & Hn & [= <-])%bind_Ok)%bind_Ok.
  exists (<[h := hn]> m). split; [done|]. intros h' hn' [[<- <-]|[_ Hl]]%lookup_insert_Some.
  - exists hc. split; [set_solver|done].
  - destruct (Hm h' hn' Hl) as (hc' & ? & ?). exists hc'. split; [set_solver|done].
Qed.

Lemma topology_roles_ctx m t c' roles :
  topology_roles (Some m) t = Ok (c', roles) →
  c' = Some m ∨ ∃ v, c' = Some (<[CTX_KEY_MDS_VERSION := v]> m) ∧ (v = CTX_VAL_MDS_V1 ∨ v = CTX_VAL_MDS_V2).
Proof. unfold topology_roles, ctx_Add. repeat case_match; simpl; intros; simplify_eq; eauto. Qed.

End facts.

Lemma GetRoles_fold dcs roles (m : gmap string bool) :
  NoDup roles → (∀ r, is_Some (m !! r) ↔ r ∈ roles) →
  NoDup (foldl roles_step (roles, m) dcs).1 ∧
  ∀ r, r ∈ (foldl roles_step (roles, m) dcs).1 ↔ r ∈ roles ∨ ∃ dc, dc ∈ dcs ∧ GetRole dc = r.
Proof.
  revert roles m; induction dcs as [|dc dcs IH]; intros roles m Hnd Hm; simpl.
  { split; [done|]. intros r. split; [by left|]. intros [?|(dc & Hin & _)]; [done|].
    by apply elem_of_nil in Hin. }
  destruct (m !! GetRole dc) as [b|] eqn:E.
  - assert (GetRole dc ∈ roles) as Hin by (apply Hm; eauto).
    destruct (IH roles m Hnd Hm) as [H1 H2]. split; [done|]. intros r. rewrite H2.
    setoid_rewrite elem_of_cons. split; [naive_solver|]. intros [?|(d & [->|Hd] & <-)]; eauto.
  - assert (GetRole dc ∉ roles) as Hni by (rewrite <-Hm, E; by intros []).
    destruct (IH (roles ++ [GetRole dc]) (<[GetRole dc := true]> m)) as [H1 H2].
    + apply NoDup_app. split_and!; [done| |apply NoDup_singleton].
      intros x Hx ->%list_elem_of_singleton. done.
    + intros r. rewrite elem_of_app, list_elem_of_singleton, <-Hm.
      destruct (decide (r = GetRole dc)) as [->|Hne].
      * rewrite lookup_insert_eq. naive_solver.
      * rewrite lookup_insert_ne by done. tauto.
    + split; [done|]. intros r. rewrite H2, elem_of_app, list_elem_of_singleton.
      setoid_rewrite elem_of_cons. naive_solver.
Qed.

Lemma GetRoles_spec dcs :
  NoDup (GetRoles dcs) ∧ ∀ r, r ∈ GetRoles dcs ↔ ∃ dc, dc ∈ dcs ∧ GetRole dc = r.
Proof.
  destruct (GetRoles_fold dcs [] ∅) as [H1 H2].
  - by apply NoDup_nil.
  - intros r. rewrite lookup_empty, elem_of_nil. split; [by intros []|done].
  - split; [done|]. intros r. unfold GetRoles. rewrite H2, elem_of_nil. tauto.
Qed.

(** ** Theorems *)

(** A topology that [ParseTopologyData] accepts has at least one service, and the
    host of each of them is a host of the hosts file whose address it was given -
    unless it is the key under which the context keeps the mds version, which the
    lookup does not tell from a host: its address is then a version. *)
Theorem topology_hosts_known (os : OS) (o : MapOrder) (parse_hosts : string → option Hosts_)
    (parse : string → option Topology_) (stack : nat) (uuid : nat → string) (cli : DingoCli)
    (data : string) (c : option Context) (dcs : list DeployConfig) :
  ParseTopologyData os parse_hosts parse stack uuid cli data = Ok (c, dcs) →
  dcs ≠ [] ∧ ∃ hcs, ParseHosts os parse_hosts (cli_hosts cli) = Ok hcs ∧
    ∀ dc, dc ∈ dcs →
      (∃ hc, hc ∈ hcs ∧ Hosts.GetHost hc = Ok (host dc) ∧ Hosts.GetHostname hc = Ok (hostname dc) ∧
             IsValidAddress (hostname dc) = true) ∨
      (host dc = CTX_KEY_MDS_VERSION ∧ (hostname dc = CTX_VAL_MDS_V1 ∨ hostname dc = CTX_VAL_MDS_V2)).
Proof.
  intros (c0 & (hcs & m & Hp & -> & Hm)%hosts_context_Ok & Hk)%bind_Ok.
  apply bind_Ok in Hk as ([c1 dcs1] & (t & roles & _ & Hr & _ & Hw)%ParseTopology_Ok & Hk).
  simpl in Hk. case_decide as Hne; [done|]. simplify_eq. split; [done|].
  exists hcs. split; [done|]. intros dc Hdc.
  destruct (ParseHosts_Ok os parse_hosts _ _ Hp) as (_ & _ & _ & _ & Hv & _).
  rewrite Forall_forall in Hv. pose proof (proj1 (Forall_forall _ _) Hw dc Hdc) as Hd.
  pose proof (wf_host _ _ _ Hd) as Hh. unfold host_ok in Hh. rewrite (wf_ctx _ _ _ Hd) in Hh.
  assert (∀ h hn, m !! h = Some hn → ∃ hc, hc ∈ hcs ∧ Hosts.GetHost hc = Ok h ∧
            Hosts.GetHostname hc = Ok hn ∧ IsValidAddress hn = true) as Hm'.
  { intros h hn (hc & Hin & H1 & H2)%Hm. exists hc. split_and!; [done..|].
    destruct (vh_hostname _ _ (Hv hc Hin)) as (hn' & ? & ?). congruence. }
  destruct (topology_roles_ctx _ _ _ _ Hr) as [->|(v & -> & Hvv)]; destruct Hh as [Hl _].
  - left. by apply Hm'.
  - apply lookup_insert_Some in Hl as [[<- <-]|[_ Hl]]; [right; auto|left; by apply Hm'].
Qed.

Definition sample_cli : DingoCli := mkDingoCli "hosts" 1 "uuid" "demo" "topo" "" ∅.
Definition sample_parse (t : Topology_) : res error (option Context * list DeployConfig) :=
  ParseTopologyData (H := canonical_order) sample_os (λ _, Some sample_hosts) (reads t) 20
    sample_uuid sample_cli "topo".

Lemma topology_hosts_known_witness :
  let dcs := (res_get (None, []) (sample_parse (store_topology "h1" "h2" "" 1 2))).2 in
  length dcs = 4 ∧ dcs ≠ [].
Proof.
  split; [vm_compute; reflexivity|].
  refine (proj1 (topology_hosts_known sample_os canonical_order (λ _, Some sample_hosts)
    (reads (store_topology "h1" "h2" "" 1 2)) 20 sample_uuid sample_cli "topo"
    (res_get (None, []) (sample_parse (store_topology "h1" "h2" "" 1 2))).1 _ _)).
  transitivity (sample_parse (store_topology "h1" "h2" "" 1 2)); [reflexivity|].
  rewrite <-surjective_pairing. apply res_get_Ok. vm_compute. reflexivity.
Defined.

(** An mds on a host of the name [mds.version], which the hosts file does not have. *)
Example version_host_accepted :
  let t := with_mds (empty_topology KIND_DINGOFS) (services [sample_deploy CTX_KEY_MDS_VERSION 1]) in
  (λ dc, (host dc, hostname dc)) <$> (res_get (None, []) (sample_parse t)).2
  = [(CTX_KEY_MDS_VERSION, CTX_VAL_MDS_V2); (CTX_KEY_MDS_VERSION, CTX_VAL_MDS_V2)].
Proof. vm_compute. reflexivity. Qed.
