(* ===== verification/CliConfig.v ===== *)
(** The tool's own configuration (src/internal/configure/dingocli/dingocli.go).

    [ParseDingoCliConfig] starts from the defaults and lets the three sections of the
    ini file override them; reading the file is a parameter. *)

From S2P Require Import Prelude Errno GoLib Utils.
From Stdlib Require Import Ascii.

Definition KEY_LOG_LEVEL : string := "log_level".
Definition KEY_SUDO_ALIAS : string := "sudo_alias".
Definition KEY_ENGINE : string := "engine".
Definition KEY_TIMEOUT : string := "timeout".
Definition KEY_AUTO_UPGRADE : string := "auto_upgrade".
Definition KEY_SSH_RETRIES : string := "retries".
Definition KEY_SSH_TIMEOUT : string := "timeout".
Definition KEY_DB_URL : string := "url".
Definition DB_SQLITE : string := "sqlite".
Definition DB_RQLITE : string := "rqlite".
Definition WITHOUT_SUDO : string := " ".

Record DingoCliConfig : Type := mkDingoCliConfig {
  LogLevel : string;
  SudoAlias : string;
  Engine : string;
  Timeout : Z;
  AutoUpgrade : bool;
  SSHRetries : Z;
  SSHTimeout : Z;
  DBUrl : string;
}.

(** The decoded file; a missing section is [None]. *)
Record Sections : Type := mkSections {
  Defaults : option (gmap string val);
  SSHConnections : option (gmap string val);
  DataBase : option (gmap string val);
}.

Definition SUPPORT_LOG_LEVEL : list string := ["debug"; "info"; "warn"; "error"].

(** [^(sqlite|rqlite)://(.+)$]: the two groups.  The dot does not match a newline. *)
Definition newline : ascii := "010"%char.
Fixpoint has_byte (a : ascii) (s : string) : bool :=
  match s with EmptyString => false | String b s => bool_decide (b = a) || has_byte a s end.
Definition match_scheme (scheme s : string) : option (string * string) :=
  match strip_prefix (scheme +:+ "://") s with
  | Some rest => if bool_decide (rest = "") || has_byte newline rest then None else Some (scheme, rest)
  | None => None
  end.
Definition REGEX_DB_URL (s : string) : option (string * string) :=
  match match_scheme DB_SQLITE s with Some m => Some m | None => match_scheme DB_RQLITE s end.

Definition newDefault (home : string) : DingoCliConfig := {|
  LogLevel := "error"; SudoAlias := "sudo"; Engine := "docker"; Timeout := 180;
  AutoUpgrade := true; SSHRetries := 3; SSHTimeout := 10;
  DBUrl := "sqlite://" +:+ home +:+ "/.dingo/data/dingocli.db" |}.

Definition requirePositiveInt (v : val) : res error Z :=
  s ← assert_string v;
  match Str2Int s with
  | None => Err (ECode ERR_CONFIGURE_VALUE_REQUIRES_INTEGER)
  | Some num =>
      if (num <=? 0)%Z then Err (ECode ERR_CONFIGURE_VALUE_REQUIRES_POSITIVE_INTEGER) else Ok num
  end.

Definition requirePositiveBool (v : val) : res error bool :=
  s ← assert_string v;
  match Str2Bool s with
  | None => Err (ECode ERR_CONFIGURE_VALUE_REQUIRES_BOOL)
  | Some yes => Ok yes
  end.

Definition defaults_step (cfg : DingoCliConfig) (kv : string * val) : res error DingoCliConfig :=
  let '(mkDingoCliConfig lvl sudo eng tmo up sr st db) := cfg in
  let '(k, v) := kv in
  if decide (k = KEY_LOG_LEVEL) then
    s ← assert_string v;
    if decide (s ∈ SUPPORT_LOG_LEVEL) then Ok (mkDingoCliConfig s sudo eng tmo up sr st db)
    else Err (ECode ERR_UNSUPPORT_DINGOADM_LOG_LEVEL)
  else if decide (k = KEY_SUDO_ALIAS) then
    s ← assert_string v; Ok (mkDingoCliConfig lvl s eng tmo up sr st db)
  else if decide (k = KEY_ENGINE) then
    s ← assert_string v; Ok (mkDingoCliConfig lvl sudo s tmo up sr st db)
  else if decide (k = KEY_TIMEOUT) then
    num ← requirePositiveInt v; Ok (mkDingoCliConfig lvl sudo eng num up sr st db)
  else if decide (k = KEY_AUTO_UPGRADE) then
    yes ← requirePositiveBool v; Ok (mkDingoCliConfig lvl sudo eng tmo yes sr st db)
  else Err (ECode ERR_UNSUPPORT_DINGOADM_CONFIGURE_ITEM).

Definition connection_step (cfg : DingoCliConfig) (kv : string * val) : res error DingoCliConfig :=
  let '(mkDingoCliConfig lvl sudo eng tmo up sr st db) := cfg in
  let '(k, v) := kv in
  if decide (k = KEY_SSH_RETRIES) then
    num ← requirePositiveInt v; Ok (mkDingoCliConfig lvl sudo eng tmo up num st db)
  else if decide (k = KEY_SSH_TIMEOUT) then
    num ← requirePositiveInt v; Ok (mkDingoCliConfig lvl sudo eng tmo up sr num db)
  else Err (ECode ERR_UNSUPPORT_DINGOADM_CONFIGURE_ITEM).

Definition database_step (cfg : DingoCliConfig) (kv : string * val) : res error DingoCliConfig :=
  let '(mkDingoCliConfig lvl sudo eng tmo up sr st db) := cfg in
  let '(k, v) := kv in
  if decide (k = KEY_DB_URL) then
    s ← assert_string v;
    match REGEX_DB_URL s with
    | None => Err (ECode ERR_UNSUPPORT_DINGOADM_DATABASE_URL)
    | Some _ => Ok (mkDingoCliConfig lvl sudo eng tmo up sr st s)
    end
  else Err (ECode ERR_UNSUPPORT_DINGOADM_CONFIGURE_ITEM).

Section parse.
Context `{MapOrder}.

Definition parse_section (f : DingoCliConfig → string * val → res error DingoCliConfig)
    (section : option (gmap string val)) (cfg : DingoCliConfig) : res error DingoCliConfig :=
  match section with None => Ok cfg | Some m => fold_res f (range m) cfg end.
Definition parseDefaultsSection := parse_section defaults_step.
Definition parseConnectionSection := parse_section connection_step.
Definition parseDatabaseSection := parse_section database_step.

(** [file]: [None] when there is none, and then what the ini reader makes of it. *)
Definition ParseDingoCliConfig (home : string) (file : option (option Sections))
    : res error DingoCliConfig :=
  let cfg := newDefault home in
  match file with
  | None => Ok cfg
  | Some None => Err (ECode ERR_PARSE_DINGOADM_CONFIGURE_FAILED)
  | Some (Some global) =>
      cfg ← parseDefaultsSection (Defaults global) cfg;
      cfg ← parseConnectionSection (SSHConnections global) cfg;
      parseDatabaseSection (DataBase global) cfg
  end.
End parse.

Definition GetSudoAlias (cfg : DingoCliConfig) : string :=
  if decide (SudoAlias cfg = "") then WITHOUT_SUDO else SudoAlias cfg.

Definition GetDBPath (cfg : DingoCliConfig) : string :=
  match REGEX_DB_URL (DBUrl cfg) with
  | Some (scheme, path) => if decide (scheme = DB_SQLITE) then path else ""
  | None => ""
  end.

(** ** Theorems *)

(** What the rest of the tool relies on. *)
Record valid_config (cfg : DingoCliConfig) : Prop := {
  vc_level : LogLevel cfg ∈ SUPPORT_LOG_LEVEL;
  vc_timeout : (0 < Timeout cfg)%Z;
  vc_retries : (0 < SSHRetries cfg)%Z;
  vc_ssh_timeout : (0 < SSHTimeout cfg)%Z;
  vc_url : is_Some (REGEX_DB_URL (DBUrl cfg));
}.

Lemma requirePositiveInt_Ok v n : requirePositiveInt v = Ok n → (0 < n)%Z.
Proof.
  intros (s & _ & Hs)%bind_Ok. destruct (Str2Int s) as [num|]; [|done].
  destruct (num <=? 0)%Z eqn:E; [done|]. simplify_eq. lia.
Qed.

Lemma has_byte_app a s1 s2 : has_byte a (s1 +:+ s2) = has_byte a s1 || has_byte a s2.
Proof. induction s1 as [|b s1 IH]; simpl; [done|]. by rewrite IH, orb_assoc. Qed.

Lemma match_sqlite rest :
  match_scheme DB_SQLITE ("sqlite://" +:+ rest)
  = if bool_decide (rest = "") || has_byte newline rest then None else Some (DB_SQLITE, rest).
Proof. reflexivity. Qed.

Lemma default_valid home : has_byte newline home = false → valid_config (newDefault home).
Proof.
  intros Hh. split; [|simpl; lia..|].
  { apply (bool_decide_unpack _). vm_compute. exact I. }
  unfold REGEX_DB_URL, newDefault, DBUrl. rewrite match_sqlite, has_byte_app, Hh. simpl.
  rewrite bool_decide_false; [by eauto|]. intros Hn. apply (f_equal String.length) in Hn.
  rewrite length_app_string in Hn. simpl in Hn. lia.
Qed.

Lemma section_valid `{MapOrder} f sec cfg cfg' :
  (∀ c kv c', valid_config c → f c kv = Ok c' → valid_config c') →
  valid_config cfg → parse_section f sec cfg = Ok cfg' → valid_config cfg'.
Proof.
  intros Hf Hc. destruct sec as [m|]; simpl; [|by intros [= <-]].
  eapply fold_res_inv; [|done]. intros c kv c' _. apply Hf.
Qed.

Ltac step_valid :=
  repeat match goal with
  | H : (if decide _ then _ else _) = Ok _ |- _ => case_decide
  | H : _ ≫= _ = Ok _ |- _ => apply bind_Ok in H as (? & ? & ?)
  | H : requirePositiveInt _ = Ok _ |- _ => apply requirePositiveInt_Ok in H
  end; simplify_eq; try done.

Lemma steps_valid c kv c' :
  valid_config c →
  defaults_step c kv = Ok c' ∨ connection_step c kv = Ok c' ∨ database_step c kv = Ok c' →
  valid_config c'.
Proof.
  destruct c as [lvl sudo eng tmo up sr st db], kv as [k v]. intros [H1 H2 H3 H4 H5]. simpl in *.
  intros [Hs|[Hs|Hs]]; unfold defaults_step, connection_step, database_step in Hs; step_valid;
    try (split; simpl; done).
  destruct (REGEX_DB_URL x) eqn:E; simplify_eq. split; simpl; rewrite ?E; eauto.
Qed.

(** What a section determines: the value of a key, parsed, or what was there. *)
Definition reads {A} (p : val → res error A) (section : option (gmap string val)) (k : string)
    (dflt x : A) : Prop :=
  match section ≫= (λ m, m !! k) with Some v => p v = Ok x | None => x = dflt end.

Lemma section_reads `{MapOrder} {A} f (g : DingoCliConfig → A) (p : val → res error A) k sec cfg cfg' :
  (∀ c kv c', f c kv = Ok c' → if decide (kv.1 = k) then p kv.2 = Ok (g c') else g c' = g c) →
  parse_section f sec cfg = Ok cfg' → reads p sec k (g cfg) (g cfg').
Proof.
  intros Hf. unfold reads. destruct sec as [m|]; simpl; [|by intros [= <-]].
  intros Hfold.
  assert ((∃ v, (k, v) ∈ range m ∧ p v = Ok (g cfg')) ∨ (g cfg' = g cfg ∧ ∀ v, (k, v) ∉ range m))
    as [(v & Hv%elem_of_range & Hp)|[Hg Hno]].
  { revert Hfold. apply (fold_res_ind (λ pre c, (∃ v, (k, v) ∈ pre ∧ p v = Ok (g c)) ∨
                           (g c = g cfg ∧ ∀ v, (k, v) ∉ pre))).
    - right. split; [done|]. by intros v ?%elem_of_nil.
    - intros pre [k' v] c c' Hpre Hc%Hf. setoid_rewrite elem_of_app.
      setoid_rewrite list_elem_of_singleton. simpl in Hc. case_decide as Hd.
      + subst k'. left. exists v. auto.
      + rewrite Hc. destruct Hpre as [(v' & ? & ?)|[-> Hno]]; [left; eauto|right].
        split; [done|]. intros v' [Hin|[= ? ?]]; [by eapply Hno|congruence]. }
  - by rewrite Hv.
  - destruct (m !! k) as [v|] eqn:E; [|done]. apply elem_of_range in E. by destruct (Hno v).
Qed.

(** A setting that a section does not mention. *)
Lemma section_keeps `{MapOrder} {A} f (g : DingoCliConfig → A) sec cfg cfg' :
  (∀ c kv c', f c kv = Ok c' → g c' = g c) → parse_section f sec cfg = Ok cfg' → g cfg' = g cfg.
Proof.
  intros Hf. destruct sec as [m|]; simpl; [|by intros [= <-]].
  apply (fold_res_inv (λ c, g c = g cfg)); [|done]. intros c kv c' _ <- Hc. by eapply Hf.
Qed.

Definition supported_level (v : val) : res error string :=
  s ← assert_string v;
  if decide (s ∈ SUPPORT_LOG_LEVEL) then Ok s else Err (ECode ERR_UNSUPPORT_DINGOADM_LOG_LEVEL).
Definition supported_url (v : val) : res error string :=
  s ← assert_string v;
  match REGEX_DB_URL s with Some _ => Ok s | None => Err (ECode ERR_UNSUPPORT_DINGOADM_DATABASE_URL) end.

(** The section steps, one setting at a time. *)
Ltac settings :=
  intros [lvl sudo eng tmo up sr st db] [k v] c' Hs; simpl in Hs |- *;
  unfold supported_level, supported_url, KEY_LOG_LEVEL, KEY_SUDO_ALIAS, KEY_ENGINE, KEY_TIMEOUT,
    KEY_AUTO_UPGRADE, KEY_SSH_RETRIES, KEY_SSH_TIMEOUT, KEY_DB_URL in *;
  repeat match goal with
  | H : (if decide _ then _ else _) = Ok _ |- _ => case_decide
  | H : _ ≫= _ = Ok _ |- _ => apply bind_Ok in H as (? & ? & ?)
  | H : match REGEX_DB_URL ?s with _ => _ end = Ok _ |- _ => destruct (REGEX_DB_URL s) eqn:?
  end; simplify_eq; simpl in *;
  repeat match goal with
  | H : ?m = Ok _ |- context [?m] => rewrite H; simpl
  | H : ?m = Some _ |- context [?m] => rewrite H; simpl
  | |- context [decide _] => case_decide; try done
  end; try done.

(** [ParseDingoCliConfig] is determined setting by setting, in whatever order the
    sections are traversed: a setting is the parsed value of its key in its section,
    or the default; and every configuration it returns is valid - a supported log
    level, positive time-outs and retries, a url with one of the two schemes and a path
    behind it.  (A home directory with a newline would spoil the default url.) *)
Theorem ParseDingoCliConfig_spec (o : MapOrder) (home : string) (global : Sections)
    (cfg : DingoCliConfig) :
  has_byte newline home = false → ParseDingoCliConfig home (Some (Some global)) = Ok cfg →
  let dflt := newDefault home in
  valid_config cfg ∧
  reads supported_level (Defaults global) KEY_LOG_LEVEL (LogLevel dflt) (LogLevel cfg) ∧
  reads assert_string (Defaults global) KEY_SUDO_ALIAS (SudoAlias dflt) (SudoAlias cfg) ∧
  reads assert_string (Defaults global) KEY_ENGINE (Engine dflt) (Engine cfg) ∧
  reads requirePositiveInt (Defaults global) KEY_TIMEOUT (Timeout dflt) (Timeout cfg) ∧
  reads requirePositiveBool (Defaults global) KEY_AUTO_UPGRADE (AutoUpgrade dflt) (AutoUpgrade cfg) ∧
  reads requirePositiveInt (SSHConnections global) KEY_SSH_RETRIES (SSHRetries dflt) (SSHRetries cfg) ∧
  reads requirePositiveInt (SSHConnections global) KEY_SSH_TIMEOUT (SSHTimeout dflt) (SSHTimeout cfg) ∧
  reads supported_url (DataBase global) KEY_DB_URL (DBUrl dflt) (DBUrl cfg).
Proof.
  intros Hh (c1 & H1 & (c2 & H2 & H3)%bind_Ok)%bind_Ok dflt.
  assert (valid_config cfg) as Hv.
  { eapply (section_valid database_step), H3; [intros ?????; eapply steps_valid; eauto|].
    eapply (section_valid connection_step), H2; [intros ?????; eapply steps_valid; eauto|].
    eapply (section_valid defaults_step), H1; [intros ?????; eapply steps_valid; eauto|].
    by apply default_valid. }
  split; [done|]. clear Hv.
  (* each section settles its own keys and keeps the others *)
  assert (∀ A (g : DingoCliConfig → A),
    (∀ c kv c', connection_step c kv = Ok c' → g c' = g c) →
    (∀ c kv c', database_step c kv = Ok c' → g c' = g c) → g cfg = g c1) as K12.
  { intros A g Hg1 Hg2. by rewrite (section_keeps _ g _ _ _ Hg2 H3), (section_keeps _ g _ _ _ Hg1 H2). }
  assert (∀ A (g : DingoCliConfig → A),
    (∀ c kv c', defaults_step c kv = Ok c' → g c' = g c) →
    (∀ c kv c', database_step c kv = Ok c' → g c' = g c) → g c1 = g dflt ∧ g cfg = g c2) as K03.
  { intros A g Hg1 Hg2. by rewrite (section_keeps _ g _ _ _ Hg2 H3), (section_keeps _ g _ _ _ Hg1 H1). }
  assert (∀ A (g : DingoCliConfig → A),
    (∀ c kv c', defaults_step c kv = Ok c' → g c' = g c) →
    (∀ c kv c', connection_step c kv = Ok c' → g c' = g c) → g c2 = g dflt) as K01.
  { intros A g Hg1 Hg2. by rewrite (section_keeps _ g _ _ _ Hg2 H2), (section_keeps _ g _ _ _ Hg1 H1). }
  split_and!.
  - rewrite (K12 _ LogLevel) by settings. eapply (section_reads defaults_step); [settings|done].
  - rewrite (K12 _ SudoAlias) by settings. eapply (section_reads defaults_step); [settings|done].
  - rewrite (K12 _ Engine) by settings. eapply (section_reads defaults_step); [settings|done].
  - rewrite (K12 _ Timeout) by settings. eapply (section_reads defaults_step); [settings|done].
  - rewrite (K12 _ AutoUpgrade) by settings. eapply (section_reads defaults_step); [settings|done].
  - destruct (K03 _ SSHRetries) as [<- ->]; [settings..|].
    eapply (section_reads connection_step); [settings|done].
  - destruct (K03 _ SSHTimeout) as [<- ->]; [settings..|].
    eapply (section_reads connection_step); [settings|done].
  - rewrite <-(K01 _ DBUrl) by settings. eapply (section_reads database_step); [settings|done].
Qed.


Lemma ParseDingoCliConfig_spec_witness :
  let global := mkSections (Some {["timeout" := VString "60"; "engine" := VString "podman"]})
                  (Some {["timeout" := VString "5"]})
                  (Some {["url" := VString "rqlite://127.0.0.1:4000"]}) in
  let cfg := res_get (newDefault "") (ParseDingoCliConfig (H := canonical_order) "/root" (Some (Some global))) in
  (Timeout cfg, SSHTimeout cfg, SSHRetries cfg, GetDBPath cfg) = (60%Z, 5%Z, 3%Z, "") ∧ valid_config cfg.
Proof.
  split; [vm_compute; reflexivity|].
  refine (proj1 (ParseDingoCliConfig_spec canonical_order "/root" _ _ _ _)); [vm_compute; reflexivity|].
  apply res_get_Ok. vm_compute. reflexivity.
Defined.
