(* ===== verification/Session.v ===== *)
(** A run of the tool (src/cli/cli/cli.go, src/cli/dingocli.go): what it loads from the
    database at the start (with the opening of the database, src/internal/storage/storage.go),
    the audit row it leaves, and the question whether a newer version exists (src/internal/tools/upgrade/upgrade.go). *)

From stdpp Require Import pretty.
From S2P Require Import Prelude Errno GoLib Utils Storage StorageFacts Vars DeployConfig Topology TopologyParse TopologySamples TopologyDiff ItemSet Hosts HostsFacts Cli CliConfig.
From Stdlib Require Import Ascii.

Definition KEY_ENV_ACTIVATE_CLUSTER : string := "DINGO_CLUSTER".

(** A call whose error is replaced by a code, and a call whose error is examined. *)
Definition as_code {A} (c : ErrorCode) (m : M A) : M A := λ d,
  match m d with (Err _, d') => (Err (ECode c), d') | r => r end.
Definition try_ {A} (m : M A) : M (A + error) := λ d,
  match m d with
  | (Ok a, d') => (Ok (inl a), d')
  | (Err e, d') => (Ok (inr e), d')
  | (Panic, d') => (Panic, d')
  end.

Section session.
Context `{Driver} (env : string → option string).

Definition getActivatedClusterFromEnv : string :=
  match env KEY_ENV_ACTIVATE_CLUSTER with
  | Some n => if decide (n ≠ "") then n
              else default "" (env (ToLower KEY_ENV_ACTIVATE_CLUSTER))
  | None => default "" (env (ToLower KEY_ENV_ACTIVATE_CLUSTER))
  end.

(** The zero value of a cluster row, which [GetClusterByName] returns with its error. *)
Definition zero_cluster : Cluster := mkCluster 0 "" "" "" "" "" "" false.

(** Steps (6) to (8) of [init]; the steps before them are in [NewDingoCli]. *)
Definition init_cluster : M Cluster :=
  let name := getActivatedClusterFromEnv in
  if decide (name ≠ "") then
    r ← try_ (GetClusterByName name);
    mret match r with inl c => c | inr _ => zero_cluster end
  else as_code ERR_GET_CURRENT_CLUSTER_FAILED GetCurrentCluster.

Definition init : M (DingoCli * MonitorRow) :=
  hostses ← as_code ERR_GET_HOSTS_FAILED GetHostses;
  let hosts := match hostses with [h] => h_Data h | _ => "" end in
  cluster ← init_cluster;
  monitor ← as_code ERR_GET_MONITOR_FAILED (GetMonitor (c_Id cluster));
  mret (SwitchCluster (mkDingoCli hosts (-1) "" "" "" "" ∅) cluster, monitor).

(** ** Audit *)

Definition PreAudit (time cwd : string) (args : list string) : M Z :=
  match args with
  | [] => mret (-1)%Z
  | a :: _ =>
      if decide (a = "audit" ∨ a = "__complete") then mret (-1)%Z
      else r ← try_ (InsertAuditLog time cwd ("dingocli " +:+ Join args " ") AUDIT_STATUS_ABORT);
           mret match r with inl id => id | inr _ => 0%Z end
  end.

Definition PostAudit (id : Z) (ec : option error) : M unit :=
  if decide (id < 0)%Z then mret tt else
  r ← try_ (GetAuditLog id);
  match r with
  | inl [_] =>
      let '(status, errorCode) := audit_status ec in
      _ ← try_ (SetAuditLogStatus id status errorCode); mret tt
  | _ => mret tt
  end.

(** How a command ends that returns no error: it comes back without one, or it ends the
    process itself, with [log.Fatal], which exits with the status 1. *)
Inductive command_end : Set := Finished | ProcessExit.

(** [Execute]: the command [cmd] between the two; the result is the exit status, true for
    0.  After a command that ends the process nothing runs any more. *)
Definition Execute (time cwd : string) (args : list string) (cmd : M command_end) : M bool :=
  id ← PreAudit time cwd args;
  r ← try_ cmd;
  let post ec := _ ← PostAudit id ec; mret (bool_decide (ec = None)) in
  match r with
  | inl Finished => post None
  | inr e => post (Some e)
  | inl ProcessExit => mret false
  end.

(** The rows [audit] prints: the last [tail], or all. *)
Definition runAudit (tail : Z) : M (list AuditLog) :=
  auditLogs ← as_code ERR_GET_AUDIT_LOGS_FAILE GetAuditLogs;
  mret (if bool_decide (tail ≠ 0 ∧ 0 < tail ∧ tail < Z.of_nat (length auditLogs))%Z
        then drop (length auditLogs - Z.to_nat tail) auditLogs else auditLogs).
End session.

(** ** Opening the database and starting the tool *)

(** The statements of [init] of the storage, by the table they create. *)
Definition CREATE_TABLES : list string :=
  ["version"; "hosts"; "clusters"; "containers"; "clients"; "playgrounds"; "audit"; "monitors"; "any"].
(** The database file: the tables it has, and their rows; a table it does not have has none. *)
Definition RawDB : Type := gset string * DB.

Section start.
Context `{Driver}.
Context (sql_Open rqlite_Open : string → option error).

(** [driver.Open] of the two drivers. *)
Definition driver_Open (scheme url : string) : option error :=
  if decide (scheme = DB_SQLITE) then sql_Open (TrimPrefix url "sqlite://")
  else rqlite_Open ("http://" +:+ TrimPrefix url "rqlite://").

(** CREATE TABLE IF NOT EXISTS. *)
Definition create_table (t : string) (f : RawDB) : option error * RawDB :=
  match fault (ticks f.2) with
  | Some e => (Some e, (f.1, tick f.2))
  | None => (None, ({[ t ]} ∪ f.1, tick f.2))
  end.
Fixpoint storage_init (tables : list string) (f : RawDB) : option error * RawDB :=
  match tables with
  | [] => (None, f)
  | t :: l => match create_table t f with
              | (Some e, f) => (Some e, f)
              | (None, f) => storage_init l f
              end
  end.

Definition ErrInvalidDBUrl : error := EText "invalid database url".
Definition NewStorage (dbURL : string) (f : RawDB) : option error * RawDB :=
  match REGEX_DB_URL dbURL with
  | None => (Some ErrInvalidDBUrl, f)
  | Some (scheme, _) =>
      match driver_Open scheme dbURL with
      | Some e => (Some e, f)
      | None => storage_init CREATE_TABLES f
      end
  end.

(** The directories of the tool. *)
Definition tool_root (home : string) : string := home +:+ "/.dingo".
Definition tool_dirs (home : string) : list string :=
  tool_root home :: ((λ d, path_Join [tool_root home; d]) <$> ["data"; "plugins"; "logs"; "temp"]).

(** [NewDingoCli] and [init]: [mkdir] is [os.MkdirAll], [read] what the ini reader makes of
    a file.  Opening the log cannot fail ([log.Init] returns nil). *)
Context `{MapOrder} (mkdir : string → option string) (read : string → option (option Sections)).
Context (env : string → option string).
Definition NewDingoCli (home : string + error) (f : RawDB)
    : res error (DingoCliConfig * DingoCli * MonitorRow) * RawDB :=
  match home with
  | inr _ => (Err (ECode ERR_GET_USER_HOME_DIR_FAILED), f)
  | inl home =>
      if existsb (λ d, bool_decide (is_Some (mkdir d))) (tool_dirs home)
      then (Err (ECode ERR_CREATE_DINGOADM_SUBDIRECTORY_FAILED), f)
      else
        match ParseDingoCliConfig home (read (tool_root home +:+ "/dingocli.cfg")) with
        | Err e => (Err e, f)
        | Panic => (Panic, f)
        | Ok cfg =>
            match NewStorage (DBUrl cfg) f with
            | (Some _, f) => (Err (ECode ERR_INIT_SQL_DATABASE_FAILED), f)
            | (None, f) =>
                let '(r, d) := init env f.2 in ('(cli, mon) ← r; Ok (cfg, cli, mon), (f.1, d))
            end
        end
  end.
End start.

(** ** Versions *)

Fixpoint calc_items (num : Z) (items : list string) : Z :=
  match items with
  | [] => num
  | item :: items =>
      match Atoi item with
      | None => (-1)%Z
      | Some n => calc_items (wrap64 (wrap64 (num * 1000) + n)) items
      end
  end.
Definition calcVersion (v : string) : Z := calc_items 0 (Split v "."%char).
Definition IsLatest (currentVersion remoteVersion : string) : res error bool :=
  let v1 := calcVersion currentVersion in
  let v2 := calcVersion remoteVersion in
  if decide (v1 = -1 ∨ v2 = -1)%Z
  then Err (EText ("invalid version format: " +:+ currentVersion +:+ ", " +:+ remoteVersion))
  else Ok (bool_decide (v2 ≤ v1)%Z).

(** [Upgrade] up to the installation: whether it asks, and the version it offers.
    [day] is today; [SetVersion] remembers that it asked. *)
Definition ask_upgrade `{Driver} (autoUpgrade : bool) (Version day : string) : M (option string) :=
  if autoUpgrade then
    r ← try_ GetVersions;
    match r with
    | inl (v :: _) =>
        match IsLatest Version (TrimPrefix (v_Version v) "v") with
        | Ok false =>
            if decide (day = v_LastConfirm v) then mret None
            else _ ← try_ (SetVersion (v_Version v) day); mret (Some (v_Version v))
        | _ => mret None
        end
    | _ => mret None
    end
  else mret None.

(** ** Lemmas *)

Section facts.
Context `{Driver}.

Lemma bind_Ok_M {A B} (m : M A) (k : A → M B) d a d' :
  m d = (Ok a, d') → (m ≫= k) d = k a d'.
Proof. intros Hm. unfold mbind, M_bind. by rewrite Hm. Qed.

Lemma try_Ok {A} (m : M A) d a d' : m d = (Ok a, d') → try_ m d = (Ok (inl a), d').
Proof. intros Hm. unfold try_. by rewrite Hm. Qed.

Lemma try_cases {A} (m : M A) d :
  match m d with
  | (Ok a, d') => try_ m d = (Ok (inl a), d')
  | (Err e, d') => try_ m d = (Ok (inr e), d')
  | (Panic, d') => try_ m d = (Panic, d')
  end.
Proof. unfold try_. by destruct (m d) as [[] ?]. Qed.

Context (Hf : ∀ n, fault n = None).

Lemma InsertAuditLog_Ok t w c st d :
  db_ok d → seq_ (t_audit d) ≠ MaxInt64 →
  ∃ id d', InsertAuditLog t w c st d = (Ok id, d') ∧ (0 < id)%Z ∧ db_ok d' ∧
    sp_audit (abs d) !! id = None ∧
    abs d' = set_audit (abs d) (<[id := (t, w, c, st, 0%Z)]> (sp_audit (abs d))).
Proof.
  intros Hd Hs. destruct (InsertAuditLog_run t w c st d Hd) as [Hd' Hr].
  destruct (InsertAuditLog t w c st d) as [[id|e|] d'] eqn:E; simpl in *; [..|done].
  - destruct Hr as (id' & [= ->] & Hn & Ha). exists id', d'. split_and!; try done.
    unfold InsertAuditLog, Write in E. rewrite Hf in E.
    pose proof (insert_auto_cases (λ _ _, false) (λ id, mkAuditLog id t w c st 0) (t_audit d)) as Hi.
    destruct (insert_auto _ _ _) as [[t' id]|e|]; [|done..]. simpl in E. injection E as -> <-.
    destruct Hi as (-> & _ & _). destruct Hd as (_ & _ & _ & _ & _ & _ & (_ & _ & Hle) & _). lia.
  - exfalso. unfold InsertAuditLog, Write in E. rewrite Hf in E.
    pose proof (insert_auto_cases (λ _ _, false) (λ id, mkAuditLog id t w c st 0) (t_audit d)) as Hi.
    destruct (insert_auto _ _ _) as [[t' id]|e'|]; [done| |done].
    destruct Hi as [_ [?|(r & _ & ?)]]; done.
Qed.

Lemma GetAuditLog_Ok id d p :
  db_ok d → sp_audit (abs d) !! id = Some p →
  ∃ r, GetAuditLog id d = (Ok [r], tick d).
Proof.
  intros (_ & _ & _ & _ & _ & _ & (Hnd & _) & _) Hp.
  pose proof (scan_key a_Id audit_val id (rows (t_audit d)) Hnd) as Hk. simpl in Hp. rewrite Hp in Hk.
  destruct Hk as (r & _ & _ & Hsc). exists r. unfold GetAuditLog, getAuditLogs, a_is.
  rewrite Query_Ok by apply Hf. by rewrite Hsc.
Qed.

Lemma SetAuditLogStatus_Ok id st c d :
  db_ok d → ∃ d', SetAuditLogStatus id st c d = (Ok tt, d') ∧ db_ok d' ∧
    abs d' = set_audit (abs d) (alter (λ p, (p.1.1, st, c)) id (sp_audit (abs d))).
Proof.
  intros Hd. destruct (exec_run (OSetAuditLogStatus id st c) d Hd) as [Hd' Hr].
  unfold exec in *. revert Hd' Hr. unfold mbind, M_bind.
  assert ((SetAuditLogStatus id st c d).1 = Ok tt) as E.
  { unfold SetAuditLogStatus, write, Write. by rewrite Hf. }
  destruct (SetAuditLogStatus id st c d) as [r d']. simpl in E. subst r. simpl.
  intros Hd' (_ & Ha). eauto.
Qed.

(** A command that leaves the audit table alone. *)
Definition keeps_audit {A} (cmd : M A) : Prop :=
  ∀ d, db_ok d → db_ok (cmd d).2 ∧ sp_audit (abs (cmd d).2) = sp_audit (abs d).

Lemma PostAudit_Ok id ec d p :
  db_ok d → (0 ≤ id)%Z → sp_audit (abs d) !! id = Some p →
  ∃ d', PostAudit id ec d = (Ok tt, d') ∧ db_ok d' ∧
    abs d' = set_audit (abs d)
      (<[id := (p.1.1, (audit_status ec).1, (audit_status ec).2)]> (sp_audit (abs d))).
Proof.
  intros Hd Hid Hp. unfold PostAudit. rewrite decide_False by lia.
  destruct (GetAuditLog_Ok id d p Hd Hp) as (r & Hr).
  rewrite (bind_Ok_M _ _ _ _ _ (try_Ok _ _ _ _ Hr)).
  destruct (audit_status ec) as [st c].
  destruct (SetAuditLogStatus_Ok id st c (tick d)) as (d' & Hs & Hd' & Ha); [done|].
  rewrite (bind_Ok_M _ _ _ _ _ (try_Ok _ _ _ _ Hs)). exists d'. split_and!; [done..|].
  rewrite Ha. unfold set_audit. simpl. f_equal.
  apply map_eq. intros k. destruct (decide (k = id)) as [->|Hne].
  - simpl in Hp. by rewrite lookup_alter_eq, lookup_insert_eq, Hp.
  - by rewrite lookup_alter_ne, lookup_insert_ne.
Qed.

(** The cluster a session starts with. *)
Lemma init_cluster_Ok env d :
  db_ok d →
  ∃ c, init_cluster env d = (Ok c, tick d) ∧
    let chosen := if decide (getActivatedClusterFromEnv env = "") then sp_current (abs d)
                  else Some (getActivatedClusterFromEnv env) in
    match chosen ≫= λ n, (n,.) <$> sp_clusters (abs d) !! n with
    | Some (n, ci) => c_Id c = ci_Id ci ∧ c_Name c = n ∧ c_UUId c = ci_UUId ci ∧
                      c_Topology c = ci_Topology ci ∧ c_Pool c = ci_Pool ci
    | None => c_Name c = "" ∧ c_Topology c = "" ∧
              c_Id c = if decide (getActivatedClusterFromEnv env = "") then (-1)%Z else 0%Z
    end.
Proof.
  intros Hd. unfold init_cluster. destruct (decide (getActivatedClusterFromEnv env = "")) as [E|E].
  - rewrite decide_False by (intros ?; done).
    destruct (read_current d Hd (Hf _)) as (c & Hc & Hs). exists c.
    split; [unfold as_code; by rewrite Hc|]. cbn zeta. destruct (sp_current (abs d)) as [n|]; simpl.
    + destruct Hs as [Hn Hl]. simpl in Hl. rewrite Hl. simpl. by destruct c.
    + by subst.
  - rewrite decide_True by done. pose proof (read_cluster (getActivatedClusterFromEnv env) d Hd (Hf _)) as Hs.
    simpl. simpl in Hs. destruct (clusters_map _ !! _) as [ci|]; simpl.
    + destruct Hs as (c & Hc & Hn & <-). exists c.
      split; [by rewrite (bind_Ok_M _ _ _ _ _ (try_Ok _ _ _ _ Hc))|]. by destruct c.
    + exists zero_cluster. split; [|done]. unfold mbind, M_bind, try_. by rewrite Hs.
Qed.
End facts.

(** ** Theorems *)

(** C33: when the database answers every statement and the ids of the audit table are not
    used up, a command other than [audit] and [__complete], which does not write to the
    audit table itself, leaves exactly one audit row, with the time, the directory and the
    command line; its status tells success, cancellation or failure and, for an error code,
    the code, and the exit status agrees.  A command that panics, or ends the process with
    [log.Fatal] - the exit status is then a failure too -, leaves the row with the status
    that says it did not finish. *)
Theorem Execute_audited (D : Driver) (time cwd a : string) (args : list string) (cmd : M command_end) (d : DB) :
  (∀ n, fault n = None) → db_ok d → seq_ (t_audit d) ≠ MaxInt64 → keeps_audit cmd →
  a ≠ "audit" → a ≠ "__complete" →
  ∃ id, sp_audit (abs d) !! id = None ∧
    let line := "dingocli " +:+ Join (a :: args) " " in
    let out := Execute time cwd (a :: args) cmd d in
    let row st c := <[id := (time, cwd, line, st, c)]> (sp_audit (abs d)) in
    let d1 := (PreAudit time cwd (a :: args) d).2 in
    sp_audit (abs d1) = row AUDIT_STATUS_ABORT 0%Z ∧
    match (cmd d1).1 with
    | Panic => out.1 = Panic ∧ sp_audit (abs out.2) = row AUDIT_STATUS_ABORT 0%Z
    | Ok ProcessExit => out.1 = Ok false ∧ sp_audit (abs out.2) = row AUDIT_STATUS_ABORT 0%Z
    | Ok Finished => out.1 = Ok true ∧ sp_audit (abs out.2) = row AUDIT_STATUS_SUCCESS 0%Z
    | Err e => out.1 = Ok false ∧
        sp_audit (abs out.2) = row (audit_status (Some e)).1 (audit_status (Some e)).2
    end.
Proof.
  intros Hf Hd Hs Hcmd Ha1 Ha2. unfold Execute, PreAudit. rewrite decide_False by tauto.
  destruct (InsertAuditLog_Ok Hf time cwd ("dingocli " +:+ Join (a :: args) " ") AUDIT_STATUS_ABORT d Hd Hs)
    as (id & d1 & Hi & Hid & Hd1 & Hn & Ha).
  exists id. split; [done|].
  assert ((r ← try_ (InsertAuditLog time cwd ("dingocli " +:+ Join (a :: args) " ") AUDIT_STATUS_ABORT);
           mret match r with inl id => id | inr _ => 0%Z end) d = (Ok id, d1)) as Hpre
    by (by rewrite (bind_Ok_M _ _ _ _ _ (try_Ok _ _ _ _ Hi))).
  rewrite Hpre. cbn zeta. rewrite (bind_Ok_M _ _ _ _ _ Hpre). cbn [snd]. split; [by rewrite Ha|].
  destruct (Hcmd d1 Hd1) as [Hd2 Hau]. rewrite Ha in Hau. cbn [sp_audit set_audit] in Hau.
  pose proof (try_cases cmd d1) as Ht.
  assert (∀ (ec : option error) d2, db_ok d2 → sp_audit (abs d2) = sp_audit (abs (cmd d1).2) →
            ∃ d', PostAudit id ec d2 = (Ok tt, d') ∧ sp_audit (abs d')
            = <[id := (time, cwd, "dingocli " +:+ Join (a :: args) " ", (audit_status ec).1, (audit_status ec).2)]>
                (sp_audit (abs d))) as Hpost.
  { intros ec d2 Hdb Heq. edestruct (PostAudit_Ok Hf id ec d2) as (d' & Hp & _ & Hpa); [done|lia| |].
    - rewrite Heq, Hau. apply lookup_insert_eq.
    - exists d'. split; [done|]. rewrite Hpa. cbn [sp_audit set_audit]. rewrite Heq, Hau.
      by rewrite insert_insert_eq. }
  destruct (cmd d1) as [[[|]|e|] d2]; cbn [fst snd] in *.
  - rewrite (bind_Ok_M _ _ _ _ _ Ht). destruct (Hpost None d2 Hd2 eq_refl) as (d' & Hp & Hr).
    by rewrite (bind_Ok_M _ _ _ _ _ Hp).
  - by rewrite (bind_Ok_M _ _ _ _ _ Ht).
  - rewrite (bind_Ok_M _ _ _ _ _ Ht). destruct (Hpost (Some e) d2 Hd2 eq_refl) as (d' & Hp & Hr).
    by rewrite (bind_Ok_M _ _ _ _ _ Hp).
  - unfold mbind, M_bind. by rewrite Ht.
Qed.

(** What a command starts from.  Without a cluster named by the environment it is the
    current cluster, or none with the id -1; with a name it is the cluster of that name -
    but a name that does not exist is no error: the command runs with the id 0, which no
    cluster has and which the test for "no cluster specified" lets pass. *)
Theorem init_loads (D : Driver) (env : string → option string) (d : DB) :
  (∀ n, fault n = None) → db_ok d →
  ∃ cli mon, (init env d).1 = Ok (cli, mon) ∧
    cli_hosts cli = default "" (sp_hosts (abs d)) ∧ memStorage cli = ∅ ∧
    m_Monitor mon = default "" (sp_monitors (abs d) !! clusterId cli) ∧
    let chosen := if decide (getActivatedClusterFromEnv env = "") then sp_current (abs d)
                  else Some (getActivatedClusterFromEnv env) in
    match chosen ≫= λ n, (n,.) <$> sp_clusters (abs d) !! n with
    | Some (n, ci) => clusterId cli = ci_Id ci ∧ clusterName cli = n ∧ clusterUUId cli = ci_UUId ci ∧
                      clusterTopologyData cli = ci_Topology ci ∧ clusterPoolData cli = ci_Pool ci
    | None => clusterName cli = "" ∧ clusterTopologyData cli = "" ∧
              clusterId cli = if decide (getActivatedClusterFromEnv env = "") then (-1)%Z else 0%Z
    end.
Proof.
  intros Hf Hd. unfold init.
  destruct (read_hosts d Hd (Hf _)) as (l & Hl & Hh & Hlen).
  rewrite (bind_Ok_M _ _ _ l (tick d)) by (unfold as_code; by rewrite Hl).
  assert (match l with [h] => h_Data h | _ => "" end = default "" (sp_hosts (abs d))) as Hhosts.
  { rewrite <-Hh. by destruct l as [|h [|? ?]]; simpl in *; [..|lia]. }
  destruct (init_cluster_Ok Hf env (tick d)) as (c & Hc & Hspec); [done|].
  rewrite (bind_Ok_M _ _ _ _ _ Hc).
  rewrite (bind_Ok_M _ _ _ _ (tick (tick (tick d)))) by
    (unfold as_code; by rewrite (read_monitor (c_Id c) (tick (tick d)) Hd (Hf _))).
  eexists _, _. split; [done|]. cbn [SwitchCluster cli_hosts clusterId clusterName memStorage
    clusterUUId clusterTopologyData clusterPoolData m_Monitor]. split_and!; [done..|].
  exact Hspec.
Qed.

(** *** Versions *)

Fixpoint no_char (c : ascii) (s : string) : Prop :=
  match s with EmptyString => True | String a s' => a ≠ c ∧ no_char c s' end.

Lemma Split_word c w r :
  no_char c w → Split (w +:+ String c r) c = w :: Split r c.
Proof.
  induction w as [|a w IH]; simpl; [by rewrite decide_True|].
  intros [Ha Hw]. rewrite decide_False by done. by rewrite (IH Hw).
Qed.

Lemma Split_last c w : no_char c w → Split w c = [w].
Proof.
  induction w as [|a w IH]; simpl; [done|].
  intros [Ha Hw]. rewrite decide_False by done. by rewrite (IH Hw).
Qed.

Lemma Split_Join c ws :
  ws ≠ [] → Forall (no_char c) ws → Split (Join ws (String c "")) c = ws.
Proof.
  induction ws as [|w ws IH]; [done|]. intros _ [Hw Hws]%Forall_cons. destruct ws as [|w' ws].
  - by apply Split_last.
  - change (Join (w :: w' :: ws) (String c "")) with (w +:+ String c (Join (w' :: ws) (String c ""))).
    rewrite Split_word by done. by rewrite IH.
Qed.

Lemma parse_digits_no_dot acc s z : parse_digits acc s = Some z → no_char "." s.
Proof.
  revert acc; induction s as [|a s IH]; intros acc; simpl; [done|].
  intros (x & Hx & Hs)%bind_Some. split; [|by eapply IH]. by intros ->.
Qed.

Lemma Itoa_no_dot z : (0 ≤ z)%Z → no_char "." (Itoa z).
Proof.
  intros Hz. assert (Itoa z = pretty (Z.to_N z)) as ->.
  { unfold Itoa. destruct z; [done|done|lia]. }
  pose proof (parse_unsigned_pretty (Z.to_N z)) as Hp. unfold parse_unsigned in Hp.
  destruct (pretty (Z.to_N z)) eqn:E; [done|]. by eapply parse_digits_no_dot.
Qed.

(** The number of a version of small components: they are digits in base 1000. *)
Definition version_number (ns : list Z) : Z := foldl (λ num n, num * 1000 + n)%Z 0%Z ns.
Definition component (n : Z) : Prop := (0 ≤ n < 1000)%Z.

Lemma version_number_bound ns : Forall component ns → (0 ≤ version_number ns < 1000 ^ Z.of_nat (length ns))%Z.
Proof.
  unfold version_number. induction ns as [|n ns IH] using rev_ind; [simpl; lia|].
  intros [Hns [Hn _]%Forall_cons]%Forall_app. rewrite foldl_snoc, length_app.
  specialize (IH Hns). rewrite Nat2Z.inj_add. unfold component in Hn.
  rewrite Z.pow_add_r by lia. change (1000 ^ Z.of_nat (length [n]))%Z with 1000%Z. lia.
Qed.

Lemma calc_items_app num l item n :
  calc_items num l ≠ (-1)%Z → Atoi item = Some n →
  calc_items num (l ++ [item]) = wrap64 (wrap64 (calc_items num l * 1000) + n).
Proof.
  intros Hl Hi. revert num Hl; induction l as [|w l IH]; intros num; simpl; [by rewrite Hi|].
  destruct (Atoi w); [apply IH|done].
Qed.

Lemma calc_items_number ns :
  length ns ≤ 6 → Forall component ns → calc_items 0 (Itoa <$> ns) = version_number ns.
Proof.
  induction ns as [|n ns IH] using rev_ind; [done|].
  intros Hl [Hns [Hn _]%Forall_cons]%Forall_app. rewrite length_app in Hl. simpl in Hl.
  pose proof (version_number_bound ns Hns) as Hb. unfold component in Hn.
  assert (1000 ^ Z.of_nat (length ns) ≤ 1000 ^ 5)%Z as Hp by (apply Z.pow_le_mono_r; lia).
  change (1000 ^ 5)%Z with 1000000000000000%Z in Hp.
  rewrite fmap_app. simpl. erewrite calc_items_app.
  - rewrite IH by (done || lia). unfold version_number. rewrite foldl_snoc. simpl.
    fold (version_number ns). rewrite (wrap64_id (version_number ns * 1000)) by (unfold in_int64, MinInt64, MaxInt64; lia).
    apply wrap64_id. unfold in_int64, MinInt64, MaxInt64. lia.
  - rewrite IH by (done || lia). lia.
  - rewrite Atoi_Itoa, (proj2 (in_int64b_spec n)); [done|]. unfold in_int64, MinInt64, MaxInt64. lia.
Qed.

(** The order of versions: by the first component that differs. *)
Fixpoint newer (ns ms : list Z) : Prop :=
  match ns, ms with
  | n :: ns, m :: ms => (m < n)%Z ∨ n = m ∧ newer ns ms
  | _, _ => False
  end.

Lemma version_number_cons n ns :
  version_number (n :: ns) = (n * 1000 ^ Z.of_nat (length ns) + version_number ns)%Z.
Proof.
  assert (∀ a, foldl (λ num n, num * 1000 + n)%Z a ns
               = (a * 1000 ^ Z.of_nat (length ns) + version_number ns)%Z) as Hg.
  { unfold version_number. induction ns as [|m ns IH] using rev_ind; intros a; [simpl; lia|].
    rewrite !foldl_snoc, IH, length_app, Nat2Z.inj_add, Z.pow_add_r by lia.
    change (1000 ^ Z.of_nat (length [m]))%Z with 1000%Z. lia. }
  unfold version_number at 1. simpl. by rewrite Hg.
Qed.

Lemma newer_number ns ms :
  length ns = length ms → Forall component ns → Forall component ms →
  newer ns ms ↔ (version_number ms < version_number ns)%Z.
Proof.
  revert ms; induction ns as [|n ns IH]; intros [|m ms]; simpl; try done.
  intros [= Hl] [Hn Hns]%Forall_cons [Hm Hms]%Forall_cons. rewrite !version_number_cons, Hl, IH by done.
  pose proof (version_number_bound ns Hns). pose proof (version_number_bound ms Hms).
  rewrite Hl in *. unfold component in *. nia.
Qed.

(** Between versions with the same number of components, at most six and each below
    1000, the tool is up to date exactly when the other version is not newer by its first
    different component. *)
Theorem IsLatest_spec (ns ms : list Z) :
  length ns = length ms → 0 < length ns ≤ 6 → Forall component ns → Forall component ms →
  ∃ b, IsLatest (Join (Itoa <$> ns) ".") (Join (Itoa <$> ms) ".") = Ok b ∧ (b = true ↔ ¬ newer ms ns).
Proof.
  intros Hl Hlen Hns Hms.
  assert (∀ l, 0 < length l ≤ 6 → Forall component l →
            calcVersion (Join (Itoa <$> l) ".") = version_number l) as Hc.
  { intros l Hll Hcl. unfold calcVersion. rewrite (Split_Join "."%char).
    - apply calc_items_number; [lia|done].
    - destruct l; [simpl in Hll; lia|]. by intros [=].
    - apply Forall_fmap. eapply Forall_impl; [exact Hcl|]. intros n Hn. apply Itoa_no_dot.
      unfold component in Hn. lia. }
  unfold IsLatest. rewrite !Hc by (done || lia).
  pose proof (version_number_bound ns Hns). pose proof (version_number_bound ms Hms).
  rewrite decide_False by lia. eexists. split; [done|].
  rewrite newer_number by done. rewrite bool_decide_eq_true. lia.
Qed.

(** Versions with different numbers of components are not compared that way: 1.2 is
    taken for older than 1.1.0. *)
Example longer_is_newer : IsLatest "1.2" "1.1.0" = Ok false ∧ IsLatest "2.0" "1.1000" = Ok true.
Proof. split; vm_compute; reflexivity. Qed.

(** ** Witnesses *)

Lemma IsLatest_spec_witness : ∃ b, IsLatest "1.2.10" "1.10.2" = Ok b ∧ b = false.
Proof.
  destruct (IsLatest_spec [1; 2; 10]%Z [1; 10; 2]%Z) as (b & Hb & Hn); [done|simpl; lia|..].
  1, 2: repeat constructor; unfold component; lia.
  exists b. split; [exact Hb|]. destruct b; [|done]. exfalso. apply Hn; [done|].
  right. split; [done|]. left. lia.
Defined.

Lemma Execute_audited_witness :
  let add : M command_end := _ ← @InsertCluster sample_driver "new" "u9" "" ""; mret Finished in
  let exit : M command_end := mret ProcessExit in
  let run a args cmd := (@Execute sample_driver "now" "/root" (a :: args) cmd sample_db) in
  keeps_audit add ∧ (run "cluster" ["add"; "new"] add).1 = Ok true ∧
  (run "fs" ["stats"] exit).1 = Ok false ∧
  ∃ id, sp_audit (abs (run "fs" ["stats"] exit).2) !! id
        = Some ("now", "/root", "dingocli fs stats", AUDIT_STATUS_ABORT, 0%Z).
Proof.
  assert (@keeps_audit command_end (_ ← @InsertCluster sample_driver "new" "u9" "" ""; mret Finished)) as Hk.
  { intros d Hd. pose proof (InsertCluster_run (H := sample_driver) "new" "u9" "" "" d Hd) as [Hd' Hr].
    unfold mbind, M_bind. destruct (InsertCluster _ _ _ _ d) as [[[]|e|] d']; cbn [fst snd] in *; [..|done].
    - split; [done|]. destruct Hr as (_ & _ & id & _ & Hr). by apply (f_equal sp_audit) in Hr.
    - split; [done|]. by apply (f_equal sp_audit) in Hr. }
  split; [exact Hk|]. split; [|split].
  - destruct (Execute_audited sample_driver "now" "/root" "cluster" ["add"; "new"]
      (_ ← @InsertCluster sample_driver "new" "u9" "" ""; mret Finished) sample_db) as (id & _ & _ & Hr);
      [done|apply sample_db_ok|by vm_compute|exact Hk|done|done|].
    revert Hr. vm_compute. by intros [? _].
  - by vm_compute.
  - destruct (Execute_audited sample_driver "now" "/root" "fs" ["stats"] (mret ProcessExit) sample_db)
      as (id & _ & _ & _ & Hr); [done|apply sample_db_ok|by vm_compute|by intros d Hd|done|done|].
    exists id. rewrite Hr. apply lookup_insert_eq.
Defined.

Lemma init_loads_witness :
  let env k := if decide (k = "DINGO_CLUSTER") then Some "nosuch" else None in
  ∃ cli mon, (@init sample_driver env sample_db).1 = Ok (cli, mon) ∧
    clusterId cli = 0%Z ∧ cli_hosts cli = "hosts v2".
Proof.
  intros env. destruct (init_loads sample_driver env sample_db) as (cli & mon & Hi & Hh & _ & _ & Hc).
  - done.
  - apply sample_db_ok.
  - exists cli, mon. split; [exact Hi|]. split; [|rewrite Hh; vm_compute; reflexivity].
    revert Hc. vm_compute. by intros (_ & _ & ?).
Defined.

(** ** Starting *)

Section start_facts.
Context `{Driver}.

(** The statements create a prefix of the tables - all of them exactly when there is no
    error - and touch no row. *)
Lemma storage_init_prefix tables f :
  let out := storage_init tables f in
  ∃ k, k ≤ length tables ∧ out.2.1 = list_to_set (take k tables) ∪ f.1 ∧
       (∀ A (g : DB → A), (∀ d, g (tick d) = g d) → g out.2.2 = g f.2) ∧
       match out.1 with
       | None => k = length tables ∧ ∀ i, i < length tables → fault (ticks f.2 + i) = None
       | Some e => k < length tables ∧ fault (ticks f.2 + k) = Some e ∧ ticks out.2.2 = ticks f.2 + k + 1
       end.
Proof.
  revert f; induction tables as [|t l IH]; intros [S d]; cbn [storage_init].
  { exists 0. simpl. split; [lia|]. split; [set_solver|]. split; [done|]. split; [done|lia]. }
  unfold create_table. cbn [fst snd]. destruct (fault (ticks d)) as [e|] eqn:E.
  - exists 0. cbn [fst snd take]. split; [lia|]. split; [set_solver|]. split; [auto|].
    simpl. rewrite Nat.add_0_r. split; [lia|]. split; [done|lia].
  - destruct (IH ({[ t ]} ∪ S, tick d)) as (k & Hk & HS & Hg & Hr). cbn [fst snd] in *.
    exists (k + 1). rewrite (Nat.add_comm k 1). cbn [Nat.add take list_to_set].
    split; [simpl; lia|]. split; [rewrite HS; set_solver|]. split.
    { intros A g Ht. by rewrite (Hg A g Ht), Ht. }
    simpl in Hr. destruct (storage_init _ _).1 as [e|].
    + destruct Hr as (? & ? & Ht). simpl. rewrite <-Nat.add_succ_comm. split; [lia|]. split; [done|]. rewrite Ht. lia.
    + destruct Hr as (-> & Hr). split; [done|]. intros [|i] Hi; [by rewrite Nat.add_0_r|].
      rewrite <-Nat.add_succ_comm. apply Hr. simpl in Hi. lia.
Qed.
End start_facts.

(** A start only reads the rows. *)
Definition reads_only {A} (m : M A) : Prop := ∀ d, abs (m d).2 = abs d.
Lemma reads_ret {A} (a : A) : reads_only (mret a).
Proof. by intros d. Qed.
Lemma reads_bind {A B} (m : M A) (k : A → M B) : reads_only m → (∀ a, reads_only (k a)) → reads_only (m ≫= k).
Proof.
  intros Hm Hk d. specialize (Hm d). unfold mbind, M_bind. destruct (m d) as [[a|e|] d']; simpl in *; [|done..].
  by rewrite Hk.
Qed.
Lemma reads_Query `{Driver} {A} (q : DB → list A) : reads_only (Query q).
Proof. intros d. unfold Query. by destruct (fault _). Qed.
Lemma reads_as_code {A} c (m : M A) : reads_only m → reads_only (as_code c m).
Proof. intros Hm d. specialize (Hm d). unfold as_code. by destruct (m d) as [[] ?]. Qed.
Lemma reads_try {A} (m : M A) : reads_only m → reads_only (try_ m).
Proof. intros Hm d. specialize (Hm d). unfold try_. by destruct (m d) as [[] ?]. Qed.
Lemma reads_fail {A} e : reads_only (fail (A := A) e).
Proof. by intros d. Qed.

Lemma init_reads `{Driver} env : reads_only (init env).
Proof.
  unfold init, init_cluster, GetHostses, GetCurrentCluster, GetClusterByName, GetMonitor, getClusters.
  repeat first [apply reads_bind; [|intros ?] | apply reads_as_code | apply reads_try | apply reads_Query
    | apply reads_ret | apply reads_fail | case_decide | case_match].
Qed.

Lemma parsed_valid `{MapOrder} home file cfg :
  has_byte newline home = false → ParseDingoCliConfig home file = Ok cfg → valid_config cfg.
Proof.
  destruct file as [[global|]|]; [|done|]; intros Hh Hp.
  - by eapply (ParseDingoCliConfig_spec _ home global cfg).
  - injection Hp as <-. by apply default_valid.
Qed.

(** Starting the tool.  With a home directory without newlines, directories that can be made
    and a database that opens and answers, a start fails only for the configuration file;
    otherwise the nine tables exist, no row has changed, the configuration is valid, and the
    hosts, cluster and monitor are those of [init].  Whatever the configuration says, the
    storage never refuses its database URL. *)
Theorem NewDingoCli_starts `{Driver} `{MapOrder} sql_Open rqlite_Open mkdir read env home (f : RawDB) :
  has_byte newline home = false → (∀ d, d ∈ tool_dirs home → mkdir d = None) →
  (∀ s, sql_Open s = None) → (∀ s, rqlite_Open s = None) → (∀ n, fault n = None) → db_ok f.2 →
  let '(r, f') := NewDingoCli sql_Open rqlite_Open mkdir read env (inl home) f in
  abs f'.2 = abs f.2 ∧
  match ParseDingoCliConfig home (read (tool_root home +:+ "/dingocli.cfg")) with
  | Ok cfg => ∃ cli mon d, r = Ok (cfg, cli, mon) ∧ valid_config cfg ∧
                f'.1 = list_to_set CREATE_TABLES ∪ f.1 ∧ abs d = abs f.2 ∧ (init env d).1 = Ok (cli, mon)
  | Err e => r = Err e ∧ f' = f
  | Panic => r = Panic ∧ f' = f
  end.
Proof.
  intros Hh Hm Hq1 Hq2 Hf Hd. unfold NewDingoCli.
  match goal with |- context [existsb ?p ?l] => assert (existsb p l = false) as -> end.
  { apply not_true_iff_false. intros (d & Hin%list_elem_of_In & Hs%bool_decide_eq_true)%existsb_exists. rewrite Hm in Hs by done. by destruct Hs. }
  destruct (ParseDingoCliConfig _ _) as [cfg|e|] eqn:Hcfg; [|done..].
  pose proof (parsed_valid _ _ _ Hh Hcfg) as Hv.
  pose proof (storage_init_prefix CREATE_TABLES f) as (k & _ & HS & Hg & Hr).
  assert (NewStorage sql_Open rqlite_Open (DBUrl cfg) f = storage_init CREATE_TABLES f) as ->.
  { unfold NewStorage. destruct Hv as [_ _ _ _ [[scheme rest] Hu]]. rewrite Hu.
    unfold driver_Open. by case_decide; rewrite ?Hq1, ?Hq2. }
  destruct (storage_init CREATE_TABLES f) as [[e|] f'] eqn:E; cbn [fst snd] in *.
  { destruct Hr as (_ & Hr & _). congruence. }
  destruct Hr as [-> _]. rewrite firstn_all in HS.
  assert (abs f'.2 = abs f.2) as Ha by by apply Hg.
  assert (db_ok f'.2 = db_ok f.2) as Hd' by by apply Hg.
  destruct (init_loads _ env f'.2 Hf) as (cli & mon & Hi & _); [by rewrite Hd'|].
  pose proof (init_reads env f'.2) as Hn.
  destruct (init env f'.2) as [r d] eqn:Ei. simpl in Hi, Hn |- *. subst r.
  split; [by rewrite Hn|]. exists cli, mon, f'.2. split_and!; [done|done|done|done|by rewrite Ei].
Qed.

(** A first start makes the tables and finds no cluster. *)
Example first_start :
  let '(r, f) := NewDingoCli (H := sample_driver) (H0 := canonical_order) (λ _, None) (λ _, None) (λ _, None) (λ _, None)
                   (λ _, None) (inl "/root") (∅, empty_db) in
  (match r with Ok (cfg, cli, _) => (DBUrl cfg, clusterId cli) | _ => ("", 0%Z) end, bool_decide (f.1 = list_to_set CREATE_TABLES))
  = ("sqlite:///root/.dingo/data/dingocli.db", (-1)%Z, true).
Proof. vm_compute. reflexivity. Qed.
