(* ===== verification/Monitor.v ===== *)
(** The monitor services of a cluster (src/internal/configure/monitor.go): from the monitor
    configuration and the topology to one config per service, their comparison and the
    Prometheus targets.

    Reading the yaml of the configuration is a parameter; the other libraries are modelled
    as the topology is.  Maps are iterated in the order of a [MapOrder]. *)

From S2P Require Import Prelude Errno GoLib Utils Storage Vars DeployConfig Topology TopologyParse TopologySamples TopologyDiff ItemSet Hosts HostsFacts Cli.
From Stdlib Require Import Ascii.

Definition ROLE_NODE_EXPORTER : string := "node_exporter".
Definition ROLE_PROMETHEUS : string := "prometheus".
Definition ROLE_GRAFANA : string := "grafana".
Definition ROLE_MONITOR_CONF : string := "monitor_conf".
Definition ROLE_MONITOR_SYNC : string := "monitor_sync".

Definition KEY_HOST : string := "host".
Definition KEY_LISTEN_PORT : string := "listen_port".
Definition KEY_RETENTION_TIME : string := "retention.time".
Definition KEY_RETENTION_SIZE : string := "retention.size".
Definition KEY_PROMETHEUS_TARGET : string := "target".
Definition KEY_GRAFANA_USER : string := "username".
Definition KEY_GRAFANA_PASSWORD : string := "password".
Definition KEY_NODE_IPS : string := "node_ips".
Definition KRY_NODE_LISTEN_PORT : string := "node_listen_port".
Definition KEY_PROMETHEUS_IP : string := "prometheus_listen_ip".
Definition KEY_PROMETHEUS_PORT : string := "prometheus_listen_port".
Definition KEY_ORIGIN_CONFIG_ID : string := "origin_config_id".
Definition INFO_TYPE_FILE : string := "file".
Definition INFO_TYPE_DATA : string := "data".
Definition CLEANED_MONITOR_CONF : string := "-".
(** client.go *)
Definition KEY_CONTAINER_IMAGE : string := "container_image".
Definition KEY_LOG_DIR : string := "log_dir".
Definition KEY_DATA_DIR : string := "data_dir".
Definition KEY_CONF_DIR : string := "conf_dir".
Definition KEY_PROVISIONING_DIR : string := "provisioning_dir".

(** A map and a slice that may be nil. *)
Record service : Type := mkService {
  sv_Config : option (gmap string val);
  sv_Deploy : option (list string);
}.
Record Monitor : Type := mkMonitor {
  Global : option (gmap string val);
  NodeExporter : service;
  Prometheus : service;
  Grafana : service;
  MonitroSync : service;
}.

Record MonitorConfig : Type := mkMonitorConfig {
  mc_kind : string;
  mc_id : string;
  mc_role : string;
  mc_host : string;
  mc_hostSequence : Z;
  mc_config : gmap string val;
  mc_variables : option Variables;
  mc_ctx : option Context;
  mc_order : Z;
}.

Record serviceTarget : Type := mkTarget { Targets : list string; Labels : gmap string string }.
Record FilterMonitorOption : Type := mkFilterMonitor { fm_Id : string; fm_Role : string; fm_Host : string }.

(** ** Getters *)

Definition mc_getString (data : gmap string val) (key : string) : res error string :=
  match map_get data (ToLower key) with VNil => Ok "" | v => assert_string v end.
Definition mc_getStrings (data : gmap string val) (key : string) : res error (list string) :=
  match map_get data (ToLower key) with VNil => Ok [] | v => assert_strings v end.
Definition mc_getInt (data : gmap string val) (key : string) : res error Z :=
  match map_get data (ToLower key) with VNil => Ok (-1)%Z | v => assert_int v end.

Definition mc_GetNodeIps mc := mc_getStrings (mc_config mc) KEY_NODE_IPS.
Definition mc_GetNodeListenPort mc := mc_getInt (mc_config mc) KRY_NODE_LISTEN_PORT.
Definition mc_GetPrometheusListenPort mc := mc_getInt (mc_config mc) KEY_PROMETHEUS_PORT.
Definition mc_GetImage mc := mc_getString (mc_config mc) KEY_CONTAINER_IMAGE.
Definition mc_GetListenPort mc := mc_getInt (mc_config mc) KEY_LISTEN_PORT.
Definition mc_GetDataDir mc := mc_getString (mc_config mc) KEY_DATA_DIR.
Definition mc_GetConfDir mc := mc_getString (mc_config mc) KEY_CONF_DIR.
Definition mc_GetProvisionDir mc := mc_getString (mc_config mc) KEY_PROVISIONING_DIR.
Definition mc_GetLogDir mc := mc_getString (mc_config mc) KEY_LOG_DIR.
Definition mc_GetPrometheusRetentionTime mc := mc_getString (mc_config mc) KEY_RETENTION_TIME.
Definition mc_GetPrometheusRetentionSize mc := mc_getString (mc_config mc) KEY_RETENTION_SIZE.
Definition mc_GetPrometheusTarget mc := mc_getString (mc_config mc) KEY_PROMETHEUS_TARGET.
Definition mc_GetPrometheusIp mc := mc_getString (mc_config mc) KEY_PROMETHEUS_IP.
Definition mc_GetGrafanaUser mc := mc_getString (mc_config mc) KEY_GRAFANA_USER.
Definition mc_GetGrafanaPassword mc := mc_getString (mc_config mc) KEY_GRAFANA_PASSWORD.

(** ** The configuration *)

(** [m[k] = v] panics on a nil map. *)
Definition cfg_set (s : service) (k : string) (v : val) : res error service :=
  match sv_Config s with
  | None => Panic
  | Some m => Ok (mkService (Some (<[k := v]> m)) (sv_Deploy s))
  end.
Fixpoint cfg_sets (s : service) (kvs : list (string * val)) : res error service :=
  match kvs with [] => Ok s | (k, v) :: kvs => s ← cfg_set s k v; cfg_sets s kvs end.
Definition cfg_get (s : service) (k : string) : val := map_get (default ∅ (sv_Config s)) k.

Definition set_NodeExporter (s : service) (c : Monitor) : Monitor :=
  mkMonitor (Global c) s (Prometheus c) (Grafana c) (MonitroSync c).
Definition set_Prometheus (s : service) (c : Monitor) : Monitor :=
  mkMonitor (Global c) (NodeExporter c) s (Grafana c) (MonitroSync c).
Definition set_Grafana (s : service) (c : Monitor) : Monitor :=
  mkMonitor (Global c) (NodeExporter c) (Prometheus c) s (MonitroSync c).
Definition set_MonitroSync (s : service) (c : Monitor) : Monitor :=
  mkMonitor (Global c) (NodeExporter c) (Prometheus c) (Grafana c) s.

(** The hosts of a role: those of the configuration's [host] or else the hosts of the
    node exporters, which are also stored under [host]. *)
Definition host_of (s : service) (hosts : list string) : res error (list string * service) :=
  match default ∅ (sv_Config s) !! KEY_HOST with
  | Some v => l ← assert_strings v; Ok (l, s)
  | None => s ← cfg_set s KEY_HOST (VStrings hosts); Ok (hosts, s)
  end.
Definition getHost (c : Monitor) (role : string) : res error (list string * Monitor) :=
  let hosts := default [] (sv_Deploy (NodeExporter c)) in
  if decide (role = ROLE_NODE_EXPORTER) then
    '(l, s) ← host_of (NodeExporter c) hosts; Ok (l, set_NodeExporter s c)
  else if decide (role = ROLE_PROMETHEUS) then
    '(l, s) ← host_of (Prometheus c) hosts; Ok (l, set_Prometheus s c)
  else if decide (role = ROLE_GRAFANA) then
    '(l, s) ← host_of (Grafana c) hosts; Ok (l, set_Grafana s c)
  else Ok (hosts, c).

(** The cases of the switch fall through: from the first one that holds on, all roles. *)
Definition monitor_roles (c : Monitor) : list string :=
  match sv_Deploy (NodeExporter c), sv_Deploy (Prometheus c), sv_Deploy (Grafana c), sv_Config (MonitroSync c) with
  | Some _, _, _, _ => [ROLE_NODE_EXPORTER; ROLE_PROMETHEUS; ROLE_GRAFANA; ROLE_MONITOR_SYNC]
  | None, Some _, _, _ => [ROLE_PROMETHEUS; ROLE_GRAFANA; ROLE_MONITOR_SYNC]
  | None, None, Some _, _ => [ROLE_GRAFANA; ROLE_MONITOR_SYNC]
  | None, None, None, Some _ => [ROLE_MONITOR_SYNC]
  | None, None, None, None => []
  end.

(** ** JSON (encoding/json, for ASCII text) *)

Definition hex_digit (n : nat) : ascii := ascii_of_nat (if n <? 10 then 48 + n else 87 + n).
Definition json_char (a : ascii) : string :=
  let n := nat_of_ascii a in
  if decide (n = 34) then bytes [92; 34]
  else if decide (n = 92) then bytes [92; 92]
  else if decide (n = 8) then bytes [92] +:+ "b"
  else if decide (n = 12) then bytes [92] +:+ "f"
  else if decide (n = 10) then bytes [92] +:+ "n"
  else if decide (n = 13) then bytes [92] +:+ "r"
  else if decide (n = 9) then bytes [92] +:+ "t"
  else if (n <? 32) || bool_decide (n = 60 ∨ n = 62 ∨ n = 38) then
    bytes [92] +:+ "u00" +:+ String (hex_digit (n / 16)) (String (hex_digit (n mod 16)) "")
  else String a "".
Fixpoint json_chars (s : string) : string :=
  match s with "" => "" | String a s => json_char a +:+ json_chars s end.
Definition quote : string := bytes [34].
Definition json_string (s : string) : string := quote +:+ json_chars s +:+ quote.
Definition json_array (l : list string) : string := "[" +:+ Join l "," +:+ "]".

(** Ascending order of the keys, as maps are printed. *)
Definition key_le (x y : string * string) : Prop := String.leb x.1 y.1 = true.
#[export] Instance key_le_dec : RelDecision key_le.
Proof. intros x y. unfold key_le. apply _. Defined.
Definition json_map (m : gmap string string) : string :=
  let kvs := merge_sort key_le (map_to_list m) in
  "{" +:+ Join ((λ '(k, v), json_string k +:+ ":" +:+ json_string v) <$> kvs) "," +:+ "}".
Definition json_target (t : serviceTarget) : string :=
  "{" +:+ json_string "targets" +:+ ":" +:+ json_array (json_string <$> Targets t) +:+ "," +:+
  json_string "labels" +:+ ":" +:+ json_map (Labels t) +:+ "}".

(** ** Parsing *)

Section monitor.
Context (os : OS) `{MapOrder}.
Context (parse_hosts : string → option Hosts_) (parse : string → option Topology_).
Context (stack : nat) (uuid : nat → string).
(** The yaml of the configuration, from a file and from a text. *)
Context (read_file read_data : string → option Monitor).

(** The address Prometheus reads the metrics of a service from. *)
Definition target_item (dc : DeployConfig) : res error string :=
  let role := GetRole dc in
  ip ← GetListenIp dc;
  let at_port (p : res error Z) := n ← p; Ok (ip +:+ ":" +:+ Itoa n) in
  if decide (role = ROLE_ETCD) then at_port (GetListenClientPort dc)
  else if decide (role = ROLE_CHUNKSERVER ∨ role = ROLE_METASERVER) then at_port (GetListenPort dc)
  else if decide (role = ROLE_SNAPSHOTCLONE) then at_port (GetListenDummyPort dc)
  else if decide (role = ROLE_FS_MDS ∨ role = ROLE_COORDINATOR ∨ role = ROLE_STORE) then
    at_port (GetDingoServerPort dc)
  else Ok "".

Definition target_step (tMap : gmap string serviceTarget) (dc : DeployConfig)
    : res error (gmap string serviceTarget) :=
  item ← target_item dc;
  let role := GetRole dc in
  Ok (<[role := match tMap !! role with
                | Some t => mkTarget (Targets t ++ [item]) (Labels t)
                | None => mkTarget [item] {["job" := role]}
                end]> tMap).

Definition parsePrometheusTarget (dcs : list DeployConfig) : res error string :=
  tMap ← fold_res target_step dcs ∅;
  Ok (json_array (json_target <$> (range tMap).*2)).

Definition key_set (l : list string) : gmap string bool := foldl (λ m k, <[k := true]> m) ∅ l.

Definition parseHosts (cli : DingoCli) : res error (list string * list string * list DeployConfig) :=
  p ← cli_ParseTopology os parse_hosts parse stack uuid cli;
  match p.2 with
  | [] => Ok ([], [], [])
  | dcs =>
      ips ← map_res GetListenIp dcs;
      Ok ((range (key_set (DeployConfig.GetHost <$> dcs))).*1, (range (key_set ips)).*1, dcs)
  end.

(** The three roles besides the node exporters, on the state of the loop over the roles:
    the configuration and the configs so far. *)
Definition join_path (d : string) (l : list string) : val := VString (sconcat (d :: ((λ x, "/" +:+ x) <$> l))).

Definition role_step (hosts hostIps : list string) (dcs : list DeployConfig) (c : option Context)
    (syncMonitorPath : string) (st : Monitor * list MonitorConfig) (role : string)
    : res error (Monitor * list MonitorConfig) :=
  let '(config, ret) := st in
  '(serviceHosts, config) ← getHost config role;
  match serviceHosts, dcs with
  | host :: _, dc0 :: _ =>
      let mk h seq cfg vars order :=
        mkMonitorConfig (GetKind dc0) (role +:+ "_" +:+ h) role h seq cfg vars c order in
      if decide (role = ROLE_PROMETHEUS) then
        target ← parsePrometheusTarget dcs;
        s ← match sv_Deploy (NodeExporter config) with
            | None => Ok (Prometheus config)
            | Some _ =>
                cfg_sets (Prometheus config)
                  [(KEY_NODE_IPS, VStrings hostIps);
                   (KRY_NODE_LISTEN_PORT, cfg_get (NodeExporter config) KEY_LISTEN_PORT);
                   (KEY_CONF_DIR, join_path syncMonitorPath [ROLE_PROMETHEUS]);
                   (KEY_DATA_DIR, join_path syncMonitorPath [ROLE_PROMETHEUS; "data"])]
            end;
        s ← cfg_set s KEY_PROMETHEUS_TARGET (VString target);
        Ok (set_Prometheus s config, ret ++ [mk host 0%Z (default ∅ (sv_Config s)) None 2%Z])
      else if decide (role = ROLE_GRAFANA) then
        s ← match sv_Deploy (Prometheus config) with
            | None => Ok (Grafana config)
            | Some _ =>
                s ← cfg_set (Grafana config) KEY_PROMETHEUS_PORT (cfg_get (Prometheus config) KEY_LISTEN_PORT);
                hs ← assert_strings (cfg_get (Prometheus config) KEY_HOST);
                match hs with
                | [] => Panic (* index out of range *)
                | h :: _ =>
                    ip ← ctx_Lookup c h;
                    cfg_sets s
                      [(KEY_PROMETHEUS_IP, VString ip);
                       (KEY_CONF_DIR, join_path syncMonitorPath [ROLE_GRAFANA]);
                       (KEY_DATA_DIR, join_path syncMonitorPath [ROLE_GRAFANA; "data"]);
                       (KEY_PROVISIONING_DIR, join_path syncMonitorPath [ROLE_GRAFANA; "provisioning"])]
                end
            end;
        Ok (set_Grafana s config, ret ++ [mk host 0%Z (default ∅ (sv_Config s)) None 3%Z])
      else if decide (role = ROLE_NODE_EXPORTER) then
        Ok (config, ret ++ imap (λ i h, mk h (Z.of_nat i) (default ∅ (sv_Config (NodeExporter config))) None 1%Z) hosts)
      else if decide (role = ROLE_MONITOR_SYNC) then
        s ← cfg_set (MonitroSync config) KEY_ORIGIN_CONFIG_ID (VString (GetId dc0));
        Ok (set_MonitroSync s config,
            ret ++ [mk host 0%Z (default ∅ (sv_Config s)) (GetVariables dc0) 0%Z])
      else Ok (config, ret)
  | _, _ => Panic (* index out of range *)
  end.

Definition read_monitor (info infoType : string) : res error Monitor :=
  let failed := Err (ECode ERR_PARSE_MONITOR_CONFIGURE_FAILED) in
  if decide (infoType = INFO_TYPE_FILE) then
    match read_file info with Some m => Ok m | None => failed end
  else if decide (infoType = INFO_TYPE_DATA) then
    if decide (info ≠ "" ∧ info ≠ CLEANED_MONITOR_CONF) then
      match read_data info with Some m => Ok m | None => failed end
    else failed
  else failed.

Definition ParseMonitorInfo (cli : DingoCli) (info infoType : string) : res error (list MonitorConfig) :=
  '(hosts, hostIps, dcs) ← parseHosts cli;
  config ← read_monitor info infoType;
  c ← hosts_context os parse_hosts cli;
  match dcs with
  | [] => Panic (* index out of range *)
  | _ =>
      syncMonitorPath ← assert_string (cfg_get (MonitroSync config) KEY_DATA_DIR);
      st ← fold_res (role_step hosts hostIps dcs c syncMonitorPath) (monitor_roles config) (config, []);
      Ok st.2
  end.

(** [monitor] is the row of the storage that the command line loaded. *)
Definition ParseMonitor (cli : DingoCli) (monitor : MonitorRow) : res error (list MonitorConfig) :=
  ParseMonitorInfo cli (m_Monitor monitor) INFO_TYPE_DATA.
End monitor.

Definition FilterMonitorConfig (md5 : string → string) (cli : DingoCli) (mcs : list MonitorConfig)
    (o : FilterMonitorOption) : list MonitorConfig :=
  filter (λ mc,
    (fm_Id o = "*" ∨ fm_Id o = GetServiceId md5 cli (mc_id mc)) ∧
    (fm_Role o = "*" ∨ fm_Role o = mc_role mc) ∧ (fm_Host o = "*" ∨ fm_Host o = mc_host mc)) mcs.

(** Every parse iterates its maps anew: the two parses of a comparison have orders of
    their own. *)
Definition MonitorDiff : Type := DiffType * MonitorConfig.

Definition diffMonitor (Hash : gmap string val → option Z)
    (parse1 parse2 : string → res error (list MonitorConfig)) `{MapOrder} (data1 data2 : string)
    : res error (list MonitorDiff) :=
  mcs1 ← parse1 data1;
  mcs2 ← parse2 data2;
  diff_ids (λ mc, Hash (mc_config mc)) (by_id mc_id mcs1) (by_id mc_id mcs2).

(** [parse0] is the parse that checks the old data. *)
Definition DiffMonitor (Hash : gmap string val → option Z)
    (parse0 parse1 parse2 : string → res error (list MonitorConfig)) `{MapOrder}
    (data1 data2 : string) : res error (list MonitorDiff) :=
  if decide (data1 = "") then Err (ECode ERR_EMPTY_CLUSTER_TOPOLOGY) else
  mcs ← parse0 data1;
  if decide (mcs = []) then Err (ECode ERR_NO_SERVICES_IN_TOPOLOGY)
  else diffMonitor Hash parse1 parse2 data1 data2.

(** ** Lemmas *)

Lemma target_fold dcs m m' :
  fold_res target_step dcs m = Ok m' →
  ∀ role, ∃ items,
    map_res target_item (filter (λ dc, GetRole dc = role) dcs) = Ok items ∧
    m' !! role = match items with
                 | [] => m !! role
                 | _ => Some (match m !! role with
                              | Some t => mkTarget (Targets t ++ items) (Labels t)
                              | None => mkTarget items {["job" := role]}
                              end)
                 end.
Proof.
  revert m; induction dcs as [|dc dcs IH]; intros m; simpl.
  { intros [= ->] role. by exists []. }
  intros (m1 & (item & Hi & [= <-])%bind_Ok & Hf)%bind_Ok role.
  destruct (IH _ Hf role) as (items & Hit & Hm). rewrite filter_cons. case_decide as Hr.
  - exists (item :: items). simpl. rewrite Hi. simpl. rewrite Hit. split; [done|].
    rewrite Hm. subst role. rewrite lookup_insert_eq.
    destruct (m !! GetRole dc) as [t|]; destruct items; simpl; try done.
    by rewrite <-app_assoc.
  - exists items. split; [done|]. rewrite Hm. by rewrite lookup_insert_ne.
Qed.

Lemma key_set_elem l k : is_Some (key_set l !! k) ↔ k ∈ l.
Proof.
  unfold key_set.
  assert (∀ m : gmap string bool, is_Some (foldl (λ m k, <[k := true]> m) m l !! k) ↔ is_Some (m !! k) ∨ k ∈ l) as Hg.
  { induction l as [|k' l IH]; intros m; simpl.
    - rewrite elem_of_nil. tauto.
    - rewrite IH, elem_of_cons. destruct (decide (k = k')) as [->|Hne].
      + rewrite lookup_insert_eq. split; [auto|]. intros _. left. eauto.
      + rewrite lookup_insert_ne by done. tauto. }
  rewrite Hg, lookup_empty. split; [intros [[? ?]|?]; done|auto].
Qed.

Lemma range_keys `{MapOrder} (l : list string) :
  NoDup (range (key_set l)).*1 ∧ ∀ k, k ∈ (range (key_set l)).*1 ↔ k ∈ l.
Proof.
  split; [apply NoDup_range_fst|]. intros k. rewrite <-(key_set_elem l k), list_elem_of_fmap. split.
  - intros ([k' b] & -> & Hin%elem_of_range). eauto.
  - intros [b Hb]. exists (k, b). split; [done|]. by apply elem_of_range.
Qed.

Definition no_host (s : service) : Prop := default ∅ (sv_Config s) !! KEY_HOST = None.

Lemma host_of_no_host s hosts l s' :
  no_host s → host_of s hosts = Ok (l, s') →
  l = hosts ∧ sv_Deploy s' = sv_Deploy s ∧ ∃ m, sv_Config s = Some m ∧ sv_Config s' = Some (<[KEY_HOST := VStrings hosts]> m).
Proof.
  unfold no_host, host_of. intros ->. unfold cfg_set. destruct (sv_Config s) as [m|] eqn:E; simpl; [|done].
  intros [= <- <-]. simpl. eauto.
Qed.

(** The services that the roles stand for, and the configs of a role. *)
Definition svc (role : string) (c : Monitor) : service :=
  if decide (role = ROLE_NODE_EXPORTER) then NodeExporter c
  else if decide (role = ROLE_PROMETHEUS) then Prometheus c
  else if decide (role = ROLE_GRAFANA) then Grafana c else MonitroSync c.
Definition monitor_view (mc : MonitorConfig) : string * string * string * Z * Z :=
  (mc_id mc, mc_role mc, mc_host mc, mc_hostSequence mc, mc_order mc).
Definition role_views (hosts : list string) (h0 role : string)
    : list (string * string * string * Z * Z) :=
  let v h seq order := (role +:+ "_" +:+ h, role, h, seq, order) in
  if decide (role = ROLE_NODE_EXPORTER) then imap (λ i h, v h (Z.of_nat i) 1%Z) hosts
  else if decide (role = ROLE_PROMETHEUS) then [v h0 0%Z 2%Z]
  else if decide (role = ROLE_GRAFANA) then [v h0 0%Z 3%Z] else [v h0 0%Z 0%Z].

Definition ALL_MONITOR_ROLES : list string :=
  [ROLE_NODE_EXPORTER; ROLE_PROMETHEUS; ROLE_GRAFANA; ROLE_MONITOR_SYNC].

Lemma cfg_sets_Deploy s kvs s' : cfg_sets s kvs = Ok s' → sv_Deploy s' = sv_Deploy s.
Proof.
  revert s; induction kvs as [|[k v] kvs IH]; intros s; simpl; [by intros [= ->]|].
  intros (s1 & Hs & Hr)%bind_Ok. rewrite (IH _ Hr). unfold cfg_set in Hs.
  destruct (sv_Config s); simplify_eq/=. done.
Qed.
Lemma cfg_set_Deploy s k v s' : cfg_set s k v = Ok s' → sv_Deploy s' = sv_Deploy s.
Proof. intros Hs. apply (cfg_sets_Deploy s [(k, v)]). simpl. by rewrite Hs. Qed.

(** [getHost] only touches the service of the role. *)
Lemma getHost_Ok c role l c' :
  role ∈ ALL_MONITOR_ROLES → (role ≠ ROLE_MONITOR_SYNC → no_host (svc role c)) →
  getHost c role = Ok (l, c') →
  l = default [] (sv_Deploy (NodeExporter c)) ∧
  sv_Deploy (NodeExporter c') = sv_Deploy (NodeExporter c) ∧
  ∀ r, r ∈ ALL_MONITOR_ROLES → r ≠ role → svc r c' = svc r c.
Proof.
  intros Hrole Hno. unfold getHost.
  assert (∀ s hosts, no_host s → ∀ l s', host_of s hosts = Ok (l, s') → l = hosts ∧ sv_Deploy s' = sv_Deploy s) as Hh.
  { intros s hosts Hn l' s' (-> & Hd & _)%host_of_no_host; done. }
  unfold ALL_MONITOR_ROLES in *.
  repeat match goal with H : role ∈ _ :: _ |- _ => apply elem_of_cons in H as [->|H] end;
    [..|by apply elem_of_nil in Hrole]; simpl; intros Hg.
  all: try (apply bind_Ok in Hg as ([l' s'] & Hs & [= <- <-]); apply Hh in Hs as [-> Hd]; [|by apply Hno]).
  all: try injection Hg as <- <-.
  all: split; [done|]; split; [try done; simpl; congruence|].
  all: intros r Hr Hne; repeat (apply elem_of_cons in Hr as [->|Hr]; [done|]); by apply elem_of_nil in Hr.
Qed.

Lemma monitor_role_Ok (o : MapOrder) hosts hostIps dcs c path config ret role config' ret' :
  role ∈ ALL_MONITOR_ROLES → (role ≠ ROLE_MONITOR_SYNC → no_host (svc role config)) →
  role_step hosts hostIps dcs c path (config, ret) role = Ok (config', ret') →
  ∃ h0 l, sv_Deploy (NodeExporter config) = Some (h0 :: l) ∧
    sv_Deploy (NodeExporter config') = sv_Deploy (NodeExporter config) ∧
    (∀ r, r ∈ ALL_MONITOR_ROLES → r ≠ role → svc r config' = svc r config) ∧
    monitor_view <$> ret' = (monitor_view <$> ret) ++ role_views hosts h0 role.
Proof.
  intros Hrole Hno. unfold role_step. intros ([sh config1] & Hg & Hr)%bind_Ok.
  destruct (getHost_Ok _ _ _ _ Hrole Hno Hg) as (Hsh & Hd & Hsvc).
  destruct sh as [|h0 l]; [done|]. destruct dcs as [|dc0 dcs]; [done|].
  exists h0, l. split.
  { destruct (sv_Deploy (NodeExporter config)); simpl in Hsh; congruence. }
  unfold ALL_MONITOR_ROLES in *.
  repeat match goal with H : role ∈ _ :: _ |- _ => apply elem_of_cons in H as [->|H] end;
    [..|by apply elem_of_nil in Hrole]; simpl in Hr.
  - injection Hr as <- <-. split_and!; [done|done|]. rewrite fmap_app. f_equal.
    unfold role_views. simpl. rewrite fmap_imap. done.
  - go_ok. split; [done|]. split; [|by rewrite fmap_app]. intros r Hin Hne. rewrite <-Hsvc by done.
    repeat (apply elem_of_cons in Hin as [->|Hin]; [done|]). by apply elem_of_nil in Hin.
  - go_ok. split; [done|]. split; [|by rewrite fmap_app]. intros r Hin Hne. rewrite <-Hsvc by done.
    repeat (apply elem_of_cons in Hin as [->|Hin]; [done|]). by apply elem_of_nil in Hin.
  - go_ok. split; [done|]. split; [|by rewrite fmap_app]. intros r Hin Hne. rewrite <-Hsvc by done.
    repeat (apply elem_of_cons in Hin as [->|Hin]; [done|]). by apply elem_of_nil in Hin.
Qed.

Lemma role_steps_Ok (o : MapOrder) hosts hostIps dcs c path roles config ret st :
  roles ⊆ ALL_MONITOR_ROLES → NoDup roles →
  (∀ r, r ∈ roles → r ≠ ROLE_MONITOR_SYNC → no_host (svc r config)) →
  fold_res (role_step hosts hostIps dcs c path) roles (config, ret) = Ok st →
  roles = [] ∧ st.2 = ret ∨
  ∃ h0 l, sv_Deploy (NodeExporter config) = Some (h0 :: l) ∧
    monitor_view <$> st.2 = (monitor_view <$> ret) ++ concat (role_views hosts h0 <$> roles).
Proof.
  revert config ret; induction roles as [|role roles IH]; intros config ret Hsub Hnd Hno; simpl.
  { intros [= <-]. by left. }
  intros ([config1 ret1] & Hs & Hf)%bind_Ok. apply NoDup_cons in Hnd as [Hni Hnd]. right.
  destruct (monitor_role_Ok _ _ _ _ _ _ _ _ _ _ _ (Hsub role ltac:(left)) (Hno role ltac:(left)) Hs)
    as (h0 & l & Hd & Hd1 & Hsvc & Hv).
  exists h0, l. split; [done|].
  destruct (IH config1 ret1) as [[-> Hst]|(h1 & l1 & Hd' & Hv1)]; [set_solver|done| |done| |].
  - intros r Hr Hne. rewrite Hsvc; [apply Hno; [by right|done]|set_solver|set_solver].
  - rewrite Hst, Hv. simpl. by rewrite app_nil_r.
  - rewrite Hd1, Hd in Hd'. injection Hd' as <- <-. by rewrite Hv1, Hv, <-app_assoc.
Qed.

(** ** Theorems *)

(** When none of the configurations names hosts of its own and the monitor
    configuration parses, the node exporter has a host: there is one node exporter per
    host of the topology, whatever hosts it was configured with, and one Prometheus, one
    Grafana and one synchroniser, all on the first host of the node exporter, whether they
    are configured or not; without a host for the node exporter the parse does not
    succeed. *)
Theorem ParseMonitorInfo_services (os : OS) (o : MapOrder) (parse_hosts : string → option Hosts_)
    (parse : string → option Topology_) (stack : nat) (uuid : nat → string)
    (read_file read_data : string → option Monitor) (cli : DingoCli) (info t : string)
    (config : Monitor) (mcs : list MonitorConfig) :
  read_monitor read_file read_data info t = Ok config →
  no_host (NodeExporter config) → no_host (Prometheus config) → no_host (Grafana config) →
  ParseMonitorInfo os parse_hosts parse stack uuid read_file read_data cli info t = Ok mcs →
  ∃ c dcs hosts h0 l,
    cli_ParseTopology os parse_hosts parse stack uuid cli = Ok (c, dcs) ∧
    NoDup hosts ∧ (∀ h, h ∈ hosts ↔ ∃ dc, dc ∈ dcs ∧ DeployConfig.GetHost dc = h) ∧
    sv_Deploy (NodeExporter config) = Some (h0 :: l) ∧
    monitor_view <$> mcs = concat (role_views hosts h0 <$> ALL_MONITOR_ROLES).
Proof.
  intros Hread Hn1 Hn2 Hn3.
  intros ([[hosts hostIps] dcs] & Hp & (config' & Hread' & (c & Hc & Hr)%bind_Ok)%bind_Ok)%bind_Ok.
  assert (config' = config) as -> by congruence.
  destruct dcs as [|dc dcs]; [done|].
  apply bind_Ok in Hr as (path & Hpath & (st & Hf & [= <-])%bind_Ok).
  apply bind_Ok in Hp as ([c' dcs'] & Hp & Hh). cbn [snd] in Hh.
  destruct dcs' as [|dc' dcs']; [done|]. apply bind_Ok in Hh as (ips & _ & [= <- <- <- <-]).
  exists c', (dc' :: dcs').
  destruct (range_keys (DeployConfig.GetHost <$> dc' :: dcs')) as [Hnd Hk].
  apply role_steps_Ok in Hf; [|..].
  - destruct Hf as [[Hroles _]|(h0 & l & Hd & Hv)].
    { exfalso. unfold monitor_roles, cfg_get in *.
      destruct (sv_Deploy (NodeExporter config)), (sv_Deploy (Prometheus config)), (sv_Deploy (Grafana config)); try done.
      destruct (sv_Config (MonitroSync config)); done. }
    exists (range (key_set (DeployConfig.GetHost <$> dc' :: dcs'))).*1, h0, l.
    split; [done|]. split; [done|]. split.
    { intros h. rewrite Hk, list_elem_of_fmap. naive_solver. }
    split; [done|]. unfold monitor_roles in Hv. rewrite Hd in Hv. exact Hv.
  - unfold monitor_roles, ALL_MONITOR_ROLES. repeat case_match; set_solver.
  - unfold monitor_roles. repeat case_match; apply (bool_decide_unpack _); reflexivity.
  - intros r Hr Hne.
    assert (r ∈ ALL_MONITOR_ROLES) as Hin.
    { revert Hr. unfold monitor_roles, ALL_MONITOR_ROLES. repeat case_match; set_solver. }
    unfold ALL_MONITOR_ROLES in Hin. repeat (apply elem_of_cons in Hin as [->|Hin]; [done|]).
    by apply elem_of_nil in Hin.
Qed.

(** A node exporter on [h1], a Prometheus configured for [h2]. *)
Definition sample_monitor : Monitor :=
  mkMonitor None
    (mkService (Some {[KEY_LISTEN_PORT := VInt 9100]}) (Some ["h1"]))
    (mkService (Some {[KEY_LISTEN_PORT := VInt 9090]}) (Some ["h2"]))
    (mkService (Some {[KEY_LISTEN_PORT := VInt 3000]}) None)
    (mkService (Some {[KEY_DATA_DIR := VString "/monitor"]}) None).
Definition parse_monitor (m : Monitor) (o : MapOrder) (info : string) : res error (list MonitorConfig) :=
  ParseMonitorInfo sample_os (H := o) (λ _, Some sample_hosts) (reads (store_topology "h1" "h2" "" 1 2)) 20
    sample_uuid (λ _, None) (λ _, Some m) sample_cli info INFO_TYPE_DATA.

Lemma ParseMonitorInfo_services_witness :
  monitor_view <$> res_get [] (parse_monitor sample_monitor canonical_order "monitor")
  = [("node_exporter_h1", "node_exporter", "h1", 0, 1); ("node_exporter_h2", "node_exporter", "h2", 1, 1);
     ("prometheus_h1", "prometheus", "h1", 0, 2); ("grafana_h1", "grafana", "h1", 0, 3);
     ("monitor_sync_h1", "monitor_sync", "h1", 0, 0)]%Z ∧
  ∃ h0 l, sv_Deploy (NodeExporter sample_monitor) = Some (h0 :: l).
Proof.
  split; [vm_compute; reflexivity|].
  destruct (ParseMonitorInfo_services sample_os canonical_order (λ _, Some sample_hosts)
    (reads (store_topology "h1" "h2" "" 1 2)) 20 sample_uuid (λ _, None) (λ _, Some sample_monitor)
    sample_cli "monitor" INFO_TYPE_DATA sample_monitor
    (res_get [] (parse_monitor sample_monitor canonical_order "monitor"))) as (c & dcs & hosts & h0 & l & _ & _ & _ & Hd & _).
  - reflexivity.
  - vm_compute. reflexivity.
  - vm_compute. reflexivity.
  - vm_compute. reflexivity.
  - apply res_get_Ok. vm_compute. reflexivity.
  - exists h0, l. exact Hd.
Defined.

(** The targets handed to Prometheus are, in some order, one group per role of the
    topology, labelled with the role, that has the metrics address of each service of the
    role in the order of the topology.  The address is empty for the roles the code does not
    list, such as the executor and the mds client. *)
Theorem parsePrometheusTarget_spec (o : MapOrder) (dcs : list DeployConfig) (text : string) :
  parsePrometheusTarget dcs = Ok text →
  ∃ roles targets,
    text = json_array (json_target <$> targets) ∧
    NoDup roles ∧ (∀ r, r ∈ roles ↔ ∃ dc, dc ∈ dcs ∧ GetRole dc = r) ∧
    Forall2 (λ r t, Labels t = {["job" := r]} ∧
               map_res target_item (filter (λ dc, GetRole dc = r) dcs) = Ok (Targets t)) roles targets ∧
    ∀ dc addr, dc ∈ dcs → GetRole dc ∈ [ROLE_FS_MDS_CLI; ROLE_DINGODB_EXECUTOR] →
      target_item dc = Ok addr → addr = "".
Proof.
  intros (m & Hm & [= <-])%bind_Ok. exists (range m).*1, (range m).*2.
  assert (∀ r, ∃ items, map_res target_item (filter (λ dc, GetRole dc = r) dcs) = Ok items ∧
            m !! r = match items with [] => None | _ => Some (mkTarget items {["job" := r]}) end) as Hf.
  { intros r. destruct (target_fold dcs ∅ m Hm r) as (items & Hi & Hr). exists items.
    by rewrite lookup_empty in Hr. }
  split; [done|]. split; [apply NoDup_range_fst|]. split; [|split].
  - intros r. destruct (Hf r) as (items & Hi & Hr). rewrite list_elem_of_fmap. split.
    + intros ([r' t] & -> & Hin%elem_of_range). simpl. simpl in *. rewrite Hin in Hr.
      destruct items as [|it items]; [done|]. apply map_res_Ok in Hi.
      apply Forall2_cons_inv_r in Hi as (dc & dcs' & _ & _ & Hfil). exists dc.
      assert (dc ∈ filter (λ dc, GetRole dc = r') dcs) as Hdc by (rewrite Hfil; left).
      by apply list_elem_of_filter in Hdc as [? ?].
    + intros (dc & Hdc & <-). destruct items as [|it items].
      { apply map_res_Ok, Forall2_nil_inv_r in Hi.
        assert (dc ∈ filter (λ d, GetRole d = GetRole dc) dcs) as Hin by (by apply list_elem_of_filter).
        rewrite Hi in Hin. by apply elem_of_nil in Hin. }
      eexists (_, _). split; [|apply elem_of_range; exact Hr]. done.
  - apply Forall2_fmap_l, Forall2_fmap_r, Forall_Forall2_diag, Forall_forall.
    intros [r t] Hin%elem_of_range. simpl. destruct (Hf r) as (items & Hi & Hr).
    rewrite Hin in Hr. destruct items as [|it items]; [done|]. injection Hr as ->. simpl. done.
  - intros dc addr _ Hr. unfold target_item. intros (ip & _ & Ha)%bind_Ok. revert Ha.
    repeat (apply elem_of_cons in Hr as [->|Hr]; [by intros [= <-]|]). by apply elem_of_nil in Hr.
Qed.

Lemma parsePrometheusTarget_spec_witness :
  let dcs := sample_dcs (store_topology "h1" "h2" "" 1 2) in
  let text := json_array (json_target <$>
    [mkTarget ["10.0.0.1:6600"; "10.0.0.2:6600"; "10.0.0.2:6600"] {["job" := "store"]};
     mkTarget ["10.0.0.1:6500"] {["job" := "coordinator"]}]) in
  @parsePrometheusTarget canonical_order dcs = Ok text ∧
  ∃ (roles : list string) targets, text = json_array (json_target <$> targets) ∧ NoDup roles.
Proof.
  intros dcs text.
  assert (@parsePrometheusTarget canonical_order dcs = Ok text) as Ht by (vm_compute; reflexivity).
  split; [exact Ht|].
  destruct (parsePrometheusTarget_spec canonical_order dcs text Ht) as (roles & targets & H1 & H2 & _).
  exists roles, targets. split; [exact H1|exact H2].
Defined.

(** The comparison of two monitor configurations is exact on the configs of the two
    parses: a config is reported as deleted (added) only if no config of the other side has
    its id, every id on one side only is reported, and as changed only if both sides have
    its id and the hashes of the configurations differ. *)
Theorem DiffMonitor_exact (o : MapOrder) (Hash : gmap string val → option Z)
    (parse0 parse1 parse2 : string → res error (list MonitorConfig)) (data1 data2 : string)
    (diffs : list MonitorDiff) :
  DiffMonitor Hash parse0 parse1 parse2 data1 data2 = Ok diffs →
  data1 ≠ "" ∧ ∃ old new, parse1 data1 = Ok old ∧ parse2 data2 = Ok new ∧
    (∀ mc, (DIFF_DELETE, mc) ∈ diffs → mc ∈ old ∧ ∀ d, d ∈ new → mc_id d ≠ mc_id mc) ∧
    (∀ mc, (DIFF_ADD, mc) ∈ diffs → mc ∈ new ∧ ∀ d, d ∈ old → mc_id d ≠ mc_id mc) ∧
    (∀ mc, mc ∈ old → (∀ d, d ∈ new → mc_id d ≠ mc_id mc) →
       ∃ d, mc_id d = mc_id mc ∧ (DIFF_DELETE, d) ∈ diffs) ∧
    (∀ mc, mc ∈ new → (∀ d, d ∈ old → mc_id d ≠ mc_id mc) →
       ∃ d, mc_id d = mc_id mc ∧ (DIFF_ADD, d) ∈ diffs) ∧
    (∀ mc, (DIFF_CHANGE, mc) ∈ diffs →
       mc ∈ new ∧ ∃ d, d ∈ old ∧ mc_id d = mc_id mc ∧
         same (λ m, Hash (mc_config m)) d mc = Ok false).
Proof.
  unfold DiffMonitor. case_decide as He; [done|]. intros (mcs & _ & Hd)%bind_Ok.
  case_decide; [done|]. apply bind_Ok in Hd as (old & Ho & (new & Hn & Hd)%bind_Ok).
  split; [done|]. exists old, new. split; [done|]. split; [done|]. by apply (diff_exact mc_id).
Qed.

(** A hash of the targets of a config. *)
Fixpoint text_hash (s : string) (h : Z) : Z :=
  match s with "" => h | String a s => text_hash s (wrapu64 (31 * h + Z.of_nat (nat_of_ascii a))) end.
Definition target_hash (cfg : gmap string val) : option Z :=
  Some (match map_get cfg KEY_PROMETHEUS_TARGET with VString s => text_hash s 7 | _ => 0%Z end).

Lemma DiffMonitor_exact_witness :
  let p o := parse_monitor sample_monitor o in
  @DiffMonitor target_hash (p canonical_order) (p canonical_order) (p canonical_order)
    canonical_order "a" "b" = Ok [] ∧ "a" ≠ "".
Proof.
  intros p.
  assert (@DiffMonitor target_hash (p canonical_order) (p canonical_order) (p canonical_order)
            canonical_order "a" "b" = Ok []) as Hd by (vm_compute; reflexivity).
  split; [exact Hd|].
  exact (proj1 (DiffMonitor_exact canonical_order target_hash (p canonical_order) (p canonical_order)
    (p canonical_order) "a" "b" [] Hd)).
Defined.

(** The targets are listed in the order in which a map is iterated, so two parses of
    the same configuration can differ: comparing a configuration with itself can report
    that Prometheus has changed. *)
Theorem DiffMonitor_unstable :
  let p o := parse_monitor sample_monitor o in
  ∃ mc, mc_id mc = "prometheus_h1" ∧
    @DiffMonitor target_hash (p canonical_order) (p canonical_order) (p reverse_order)
      canonical_order "monitor" "monitor" = Ok [(DIFF_CHANGE, mc)].
Proof.
  eexists. split; [|vm_compute; reflexivity]. reflexivity.
Qed.
