(* ===== verification/Playbook.v ===== *)
(** Playbooks (src/internal/playbook: factory.go, playbook.go, configs.go).

    A playbook is a list of steps, a step a kind of task and the configs it is created for;
    [createTasks] makes the tasks of a step and [Run] runs the steps one after the other,
    the tasks of each concurrently (Tasks.v).  The constructors of the tasks are parameters:
    a constructor reads the world and returns a task, no task or an error. *)

From S2P Require Import Prelude Errno GoLib Utils DeployConfig Hosts Monitor Tasks TasksFacts.

(** The kinds of steps, in the order of their numbers. *)
Inductive StepType : Type :=
| CHECK_TOPOLOGY | CHECK_SSH_CONNECT | CHECK_PERMISSION | CHECK_KERNEL_VERSION
| CHECK_KERNEL_MODULE | CHECK_PORT_IN_USE | CHECK_DESTINATION_REACHABLE | START_HTTP_SERVER
| CHECK_NETWORK_FIREWALL | GET_HOST_DATE | CHECK_HOST_DATE | CHECK_S3 | CLEAN_PRECHECK_ENVIRONMENT
| PULL_IMAGE | CREATE_CONTAINER | CREATE_MDSV2_CLI_CONTAINER | SYNC_CONFIG | START_SERVICE
| START_ETCD | START_MDS | START_CHUNKSERVER | START_SNAPSHOTCLONE | START_METASERVER
| START_FS_MDS | START_COORDINATOR | START_STORE | START_MDSV2_CLI_CONTAINER
| START_DINGODB_EXECUTOR | STOP_SERVICE | RESTART_SERVICE | CREATE_META_TABLES | INIT_SERVIE_STATUS
| GET_SERVICE_STATUS | CLEAN_SERVICE | BACKUP_ETCD_DATA | CHECK_MDS_ADDRESS | CHECK_STORE_HEALTH
| INIT_CLIENT_STATUS | GET_CLIENT_STATUS | START_DINGODB_DOCUMENT | START_DINGODB_INDEX
| START_DINGODB_DISKANN | START_DINGODB_PROXY | START_DINGODB_WEB | FORMAT_CHUNKFILE_POOL
| GET_FORMAT_STATUS | STOP_FORMAT | BALANCE_LEADER | START_NEBD_SERVICE | CREATE_VOLUME | MAP_IMAGE
| UNMAP_IMAGE | PULL_MONITOR_IMAGE | CREATE_MONITOR_CONTAINER | SYNC_MONITOR_ORIGIN_CONFIG
| SYNC_MONITOR_ALT_CONFIG | SYNC_HOSTS_MAPPING | CLEAN_CONFIG_CONTAINER | START_MONITOR_SERVICE
| RESTART_MONITOR_SERVICE | STOP_MONITOR_SERVICE | INIT_MONITOR_STATUS | GET_MONITOR_STATUS
| CLEAN_MONITOR_SERVICE | SYNC_GRAFANA_DASHBOARD | CHECK_CLIENT_S3 | CREATE_DINGOFS
| MOUNT_FILESYSTEM | UMOUNT_FILESYSTEM | CREATE_PLAYGROUND | INIT_PLAYGROUND | START_PLAYGROUND
| REMOVE_PLAYGROUND | GET_PLAYGROUND_STATUS | SYNC_JAVA_OPTS | UNKNOWN.

#[export] Instance StepType_eq_dec : EqDecision StepType.
Proof. solve_decision. Defined.

(** [sort.Slice] sorts; it does not say how it orders equal elements. *)
Class SliceSort := {
  sort_by : ∀ {A : Type}, (A → Z) → list A → list A;
  sort_by_perm : ∀ {A} (f : A → Z) l, sort_by f l ≡ₚ l;
  sort_by_sorted : ∀ {A} (f : A → Z) l, Sorted (λ x y, f x ≤ f y)%Z (sort_by f l);
}.

(** ** Configs (configs.go) *)

Inductive ConfigType : Type :=
| TYPE_CONFIG_HOST | TYPE_CONFIG_FORMAT | TYPE_CONFIG_DEPLOY | TYPE_CONFIG_CLIENT
| TYPE_CONFIG_PLAYGROUND | TYPE_CONFIG_MONITOR | TYPE_CONFIG_GATEWAY | TYPE_CONFIG_ANY
| TYPE_CONFIG_NULL.
#[export] Instance ConfigType_eq_dec : EqDecision ConfigType.
Proof. solve_decision. Defined.

Section configs.
(** Client configs and the values of an untyped slice. *)
Context {CC ANY : Type}.

(** What a step is given as its [Configs]. *)
Inductive Configs_ : Type :=
| HostConfigs (l : list HostConfig)
| DeployConfigs (l : list DeployConfig)
| ClientConfigs (l : list CC)
| MonitorConfigs (l : list MonitorConfig)
| Anys (l : list ANY)
| OneHostConfig (c : HostConfig)
| OneDeployConfig (c : DeployConfig)
| OneClientConfig (c : CC)
| OneMonitorConfig (c : MonitorConfig)
| NilConfig
| OtherConfig.

Record SmartConfig : Type := mkSmartConfig {
  sc_ctype : ConfigType;
  sc_len : nat;
  sc_hcs : list HostConfig;
  sc_dcs : list DeployConfig;
  sc_ccs : list CC;
  sc_mcs : list MonitorConfig;
  sc_anys : list ANY;
}.

Definition sc_get {A} (t : ConfigType) (l : SmartConfig → list A) (c : SmartConfig) (index : nat) : option A :=
  if decide (sc_len c ≤ index ∨ sc_ctype c ≠ t) then None else l c !! index.
Definition GetHC : SmartConfig → nat → option HostConfig := sc_get TYPE_CONFIG_HOST sc_hcs.
Definition GetDC : SmartConfig → nat → option DeployConfig := sc_get TYPE_CONFIG_DEPLOY sc_dcs.
Definition GetCC : SmartConfig → nat → option CC := sc_get TYPE_CONFIG_CLIENT sc_ccs.
Definition GetMC : SmartConfig → nat → option MonitorConfig := sc_get TYPE_CONFIG_MONITOR sc_mcs.
Definition GetAny : SmartConfig → nat → option ANY := sc_get TYPE_CONFIG_ANY sc_anys.

Definition NewSmartConfig `{SliceSort} (configs : Configs_) : res error SmartConfig :=
  match configs with
  | HostConfigs l => Ok (mkSmartConfig TYPE_CONFIG_HOST (length l) l [] [] [] [])
  | DeployConfigs l => Ok (mkSmartConfig TYPE_CONFIG_DEPLOY (length l) [] l [] [] [])
  | ClientConfigs l => Ok (mkSmartConfig TYPE_CONFIG_CLIENT (length l) [] [] l [] [])
  | MonitorConfigs l =>
      let l := sort_by mc_order l in
      Ok (mkSmartConfig TYPE_CONFIG_MONITOR (length l) [] [] [] l [])
  | Anys l => Ok (mkSmartConfig TYPE_CONFIG_ANY (length l) [] [] [] [] l)
  | OneHostConfig c => Ok (mkSmartConfig TYPE_CONFIG_HOST 1 [c] [] [] [] [])
  | OneDeployConfig c => Ok (mkSmartConfig TYPE_CONFIG_DEPLOY 1 [] [c] [] [] [])
  | OneClientConfig c => Ok (mkSmartConfig TYPE_CONFIG_CLIENT 1 [] [] [c] [] [])
  | OneMonitorConfig c => Ok (mkSmartConfig TYPE_CONFIG_MONITOR 1 [] [] [] [c] [])
  | NilConfig => Ok (mkSmartConfig TYPE_CONFIG_NULL 1 [] [] [] [] [])
  | OtherConfig => Err (ECode ERR_UNSUPPORT_CONFIG_TYPE)
  end.

(** The argument a constructor is called with; a getter of the wrong type returns nil. *)
Inductive arg : Type :=
| ArgDC (c : option DeployConfig)
| ArgCC (c : option CC)
| ArgMC (c : option MonitorConfig)
| ArgAny (c : option ANY)
| ArgNil.

(** The switch over the step types: which getter the constructor of the type is given;
    [None] for the default case. *)
Definition task_arg (t : StepType) (c : SmartConfig) (i : nat) : option arg :=
  match t with
  | CHECK_TOPOLOGY | CHECK_HOST_DATE => Some ArgNil
  | CHECK_SSH_CONNECT | CHECK_PERMISSION | CHECK_KERNEL_VERSION | CHECK_PORT_IN_USE
  | CHECK_DESTINATION_REACHABLE | START_HTTP_SERVER | CHECK_NETWORK_FIREWALL | GET_HOST_DATE
  | CHECK_S3 | CHECK_STORE_HEALTH | CLEAN_PRECHECK_ENVIRONMENT
  | PULL_IMAGE | CREATE_CONTAINER | CREATE_MDSV2_CLI_CONTAINER | SYNC_CONFIG
  | START_SERVICE | START_ETCD | START_MDS | START_CHUNKSERVER | START_SNAPSHOTCLONE
  | START_METASERVER | START_FS_MDS | START_COORDINATOR | START_STORE
  | START_DINGODB_DOCUMENT | START_DINGODB_INDEX | START_DINGODB_DISKANN
  | START_MDSV2_CLI_CONTAINER | START_DINGODB_EXECUTOR | START_DINGODB_PROXY
  | START_DINGODB_WEB | STOP_SERVICE | RESTART_SERVICE | CREATE_META_TABLES
  | INIT_SERVIE_STATUS | GET_SERVICE_STATUS | CLEAN_SERVICE | SYNC_JAVA_OPTS =>
      Some (ArgDC (GetDC c i))
  | CHECK_KERNEL_MODULE | CHECK_MDS_ADDRESS | CHECK_CLIENT_S3 => Some (ArgCC (GetCC c i))
  | INIT_CLIENT_STATUS | GET_CLIENT_STATUS => Some (ArgAny (GetAny c i))
  | PULL_MONITOR_IMAGE | CREATE_MONITOR_CONTAINER | SYNC_MONITOR_ORIGIN_CONFIG
  | SYNC_MONITOR_ALT_CONFIG | SYNC_HOSTS_MAPPING | CLEAN_CONFIG_CONTAINER
  | START_MONITOR_SERVICE | RESTART_MONITOR_SERVICE | STOP_MONITOR_SERVICE
  | INIT_MONITOR_STATUS | GET_MONITOR_STATUS | CLEAN_MONITOR_SERVICE | SYNC_GRAFANA_DASHBOARD =>
      Some (ArgMC (GetMC c i))
  | _ => None
  end.

(** A method of a config called on nil. *)
Definition on {A B} (c : option A) (f : A → res error B) : res error B :=
  match c with Some c => f c | None => Panic end.

(** The rules that leave a config out, in the order of the code: the first switch with its
    map [once], and the check of the role in the second.  [true] to continue. *)
Definition once_step (once : gmap string bool) (k : string) : bool * gmap string bool :=
  match once !! k with Some true => (true, once) | _ => (false, <[k := true]> once) end.
Definition skipped (t : StepType) (c : SmartConfig) (i : nat) (once : gmap string bool)
    : res error (bool * gmap string bool) :=
  match t with
  | CHECK_SSH_CONNECT | GET_HOST_DATE =>
      on (GetDC c i) (λ dc, Ok (once_step once (DeployConfig.GetHost dc)))
  | PULL_IMAGE =>
      on (GetDC c i) (λ dc, image ← GetContainerImage dc;
                            Ok (once_step once (DeployConfig.GetHost dc +:+ "_" +:+ image)))
  | SYNC_MONITOR_ORIGIN_CONFIG =>
      on (GetMC c i) (λ mc, Ok (bool_decide (mc_role mc ≠ ROLE_MONITOR_SYNC), once))
  | SYNC_MONITOR_ALT_CONFIG =>
      on (GetMC c i) (λ mc, Ok (bool_decide (mc_role mc = ROLE_MONITOR_SYNC), once))
  | SYNC_GRAFANA_DASHBOARD =>
      on (GetMC c i) (λ mc, Ok (bool_decide (mc_role mc ≠ ROLE_GRAFANA), once))
  | CHECK_PERMISSION | CHECK_PORT_IN_USE | CHECK_DESTINATION_REACHABLE | START_HTTP_SERVER
  | CLEAN_PRECHECK_ENVIRONMENT =>
      on (GetDC c i) (λ dc, Ok (bool_decide (GetRole dc = ROLE_FS_MDS_CLI), once))
  | _ => Ok (false, once)
  end.
End configs.
Arguments Configs_ : clear implicits.
Arguments SmartConfig : clear implicits.
Arguments arg : clear implicits.

(** ** Tasks of a step, runs of a playbook *)

Section playbook.
Context {W SSHConfig Client CC ANY OPT : Type}.
Notation Task := (Tasks.Task W SSHConfig Client).
Context (ssh : SSH W SSHConfig Client) (bar_id : nat → nat).
Context `{MapOrder} `{SliceSort}.
(** The memory storage of the command, and the constructor of the tasks of a type. *)
Context (mem_set : string → OPT → W → W) (new_task : StepType → arg CC ANY → eff error W (option Task)).

Record PlaybookStep : Type := mkStep {
  Type_ : StepType;
  Configs : Configs_ CC ANY;
  Options : gmap string OPT;
  StepOptions : ExecOptions;
}.
Record Playbook : Type := mkPlaybook { pb_steps : list PlaybookStep; pb_postSteps : list PlaybookStep }.

Definition NewPlaybook : Playbook := mkPlaybook [] [].
Definition pb_AddStep (p : Playbook) (s : PlaybookStep) : Playbook :=
  mkPlaybook (pb_steps p ++ [s]) (pb_postSteps p).
Definition pb_AddPostStep (p : Playbook) (s : PlaybookStep) : Playbook :=
  mkPlaybook (pb_steps p) (pb_postSteps p ++ [s]).

(** "merge task status into one" *)
Definition identify (c : SmartConfig CC ANY) (i : nat) (t : Task) : res error Task :=
  if decide (sc_ctype c = TYPE_CONFIG_DEPLOY) then
    on (GetDC c i) (λ dc, Ok (SetPtid (SetTid t (GetId dc)) (GetParentId dc)))
  else Ok t.

(** One iteration of the loop over the configs. *)
Definition task_step (t : StepType) (c : SmartConfig CC ANY)
    (st : gmap string bool * list Task) (i : nat) : eff error W (gmap string bool * list Task) :=
  let '(once, ts) := st in
  '(skip, once) ← pure_eff (skipped t c i once);
  if skip : bool then mret (once, ts) else
  match task_arg t c i with
  | None => pure_eff (Err (ECode ERR_UNKNOWN_TASK_TYPE))
  | Some a =>
      o ← new_task t a;
      match o with
      | None => mret (once, ts)
      | Some task => task ← pure_eff (identify c i task); mret (once, ts ++ [task])
      end
  end.

Definition set_options (s : PlaybookStep) (w : W) : W :=
  foldl (λ w '(k, v), mem_set k v w) w (range (Options s)).

(** The tasks of a step; their constructors act on the world, as they read the storage. *)
Definition tasks_of (t : StepType) (c : SmartConfig CC ANY) : eff error W (list Task) :=
  st ← fold_eff (task_step t c) (seq 0 (sc_len c)) (∅, []); mret st.2.

Definition createTasks (s : PlaybookStep) (w : W) : W * res error (list Task) :=
  match NewSmartConfig (Configs s) with
  | Ok c => tasks_of (Type_ s) c (set_options s w)
  | Err e => (w, Err e)
  | Panic => (w, Panic)
  end.

(** [Tasks.Execute]: some interleaving of the tasks. *)
Definition executes (ts : list Task) (opts : ExecOptions) (w w' : W) (r : option terror) : Prop :=
  if decide (length ts = 0) then w' = w ∧ r = None
  else ∃ s, rtc (Tasks.step ssh bar_id (initOptions opts)) (init bar_id (initOptions opts) ts w) s ∧
            main s = MReturn r ∧ w' = world s.

(** How a call ends: it returns, or the process is gone. *)
Inductive outcome : Type := Returned (r : option terror) | Crashed.

(** [run]. *)
Inductive runs : list PlaybookStep → W → W → outcome → Prop :=
| runs_nil w : runs [] w w (Returned None)
| runs_create s l w w1 e :
    createTasks s w = (w1, Err e) → runs (s :: l) w w1 (Returned (Some (EOther e)))
| runs_panic s l w w1 : createTasks s w = (w1, Panic) → runs (s :: l) w w1 Crashed
| runs_stop s l w w1 ts w2 e :
    createTasks s w = (w1, Ok ts) → executes ts (StepOptions s) w1 w2 (Some e) →
    Type_ s ≠ CHECK_PORT_IN_USE → runs (s :: l) w w2 (Returned (Some e))
| runs_next s l w w1 ts w2 r w3 out :
    createTasks s w = (w1, Ok ts) → executes ts (StepOptions s) w1 w2 r →
    r = None ∨ Type_ s = CHECK_PORT_IN_USE → runs l w2 w3 out → runs (s :: l) w w3 out.

(** [Run]: the deferred call runs the post steps however the steps ended. *)
Inductive Run (p : Playbook) : W → W → outcome → Prop :=
| Run_plain w w1 out : runs (pb_steps p) w w1 out → pb_postSteps p = [] → Run p w w1 out
| Run_post w w1 out w2 out2 :
    runs (pb_steps p) w w1 out → pb_postSteps p ≠ [] → runs (pb_postSteps p) w1 w2 out2 →
    Run p w w2 (match out2 with Crashed => Crashed | Returned _ => out end).
End playbook.
