(* ===== verification/PlaybookFacts.v ===== *)
(** What running a playbook does (src/internal/playbook): which tasks a step has, and how
    far the steps run. *)

From S2P Require Import Prelude Errno GoLib Utils DeployConfig Hosts Monitor Tasks TasksFacts Playbook.

(** ** The configs that get a task *)

(** The first element of each key. *)
Fixpoint first_by {A} (key : A → string) (seen : list string) (l : list A) : list A :=
  match l with
  | [] => []
  | a :: l => if decide (key a ∈ seen) then first_by key seen l else a :: first_by key (key a :: seen) l
  end.

Definition host_image (dc : DeployConfig) : string :=
  DeployConfig.GetHost dc +:+ "_" +:+ res_get "" (GetContainerImage dc).

Definition eligible (t : StepType) (l : list DeployConfig) : list DeployConfig :=
  match t with
  | CHECK_SSH_CONNECT | GET_HOST_DATE => first_by DeployConfig.GetHost [] l
  | PULL_IMAGE => first_by host_image [] l
  | CHECK_PERMISSION | CHECK_PORT_IN_USE | CHECK_DESTINATION_REACHABLE | START_HTTP_SERVER
  | CLEAN_PRECHECK_ENVIRONMENT => filter (λ dc, GetRole dc ≠ ROLE_FS_MDS_CLI) l
  | _ => l
  end.

Lemma first_by_spec {A} (key : A → string) seen l :
  NoDup (key <$> first_by key seen l) ∧
  (∀ a, a ∈ first_by key seen l → a ∈ l ∧ key a ∉ seen) ∧
  ∀ a, a ∈ l → key a ∈ seen ∨ key a ∈ key <$> first_by key seen l.
Proof.
  revert seen; induction l as [|a l IH]; intros seen; simpl.
  { split; [constructor|]. split; [by intros a ?%elem_of_nil|by intros a ?%elem_of_nil]. }
  case_decide as Hs.
  - destruct (IH seen) as (H1 & H2 & H3). split; [done|]. split.
    + intros b Hb. destruct (H2 b Hb). split; [by right|done].
    + intros b [->|Hb]%elem_of_cons; [by left|auto].
  - destruct (IH (key a :: seen)) as (H1 & H2 & H3). simpl. split; [|split].
    + apply NoDup_cons. split; [|done]. intros (b & Hk & Hb)%list_elem_of_fmap.
      destruct (H2 b Hb) as [_ Hn]. apply Hn. rewrite <-Hk. left.
    + intros b [->|Hb]%elem_of_cons; [split; [by left|done]|]. destruct (H2 b Hb) as [? Hn].
      split; [by right|]. set_solver.
    + intros b [->|Hb]%elem_of_cons; [right; left|]. destruct (H3 b Hb) as [[->|?]%elem_of_cons|?]; auto.
      * right. left.
      * right. by right.
Qed.

(** The types whose constructors are given the deploy config. *)
Definition is_dc_type (t : StepType) : bool :=
  match task_arg (CC := unit) (ANY := unit) t (mkSmartConfig TYPE_CONFIG_NULL 0 [] [] [] [] []) 0 with
  | Some (ArgDC _) => true
  | _ => false
  end.

Section facts.
Context {W SSHConfig Client CC ANY OPT : Type}.
Notation Task := (Tasks.Task W SSHConfig Client).
Context (ssh : SSH W SSHConfig Client) (bar_id : nat → nat).
Context (o : MapOrder) (srt : SliceSort).
Context (mem_set : string → OPT → W → W) (new_task : StepType → arg CC ANY → eff error W (option Task)).
Notation PlaybookStep := (PlaybookStep (CC := CC) (ANY := ANY) (OPT := OPT)).
Notation createTasks := (createTasks mem_set new_task).
Notation executes := (executes ssh bar_id).
Notation runs := (runs ssh bar_id mem_set new_task).
Notation Run := (Run ssh bar_id mem_set new_task).

(** *** Tasks of a step *)

Definition deploy_sc (l : list DeployConfig) : SmartConfig CC ANY :=
  mkSmartConfig TYPE_CONFIG_DEPLOY (length l) [] l [] [] [].

Lemma GetDC_deploy l i : GetDC (deploy_sc l) i = l !! i.
Proof.
  unfold GetDC, sc_get. simpl. case_decide as Hd; [|done].
  destruct Hd as [Hd|Hd]; [|done]. symmetry. by apply lookup_ge_None.
Qed.

(** The task of one config. *)
Definition owned (dc : DeployConfig) (task : Task) : Task :=
  SetPtid (SetTid task (GetId dc)) (GetParentId dc).
Definition task_for (t : StepType) (dc : DeployConfig) : eff error W (list Task) :=
  ot ← new_task t (ArgDC (Some dc));
  mret (match ot with None => [] | Some task => [owned dc task] end).

Definition takes_dc (t : StepType) : Prop :=
  ∀ (c : SmartConfig CC ANY) i, task_arg t c i = Some (ArgDC (GetDC c i)).
Lemma is_dc_type_takes t : is_dc_type t = true → takes_dc t.
Proof. destruct t; by intros ? ? ?. Qed.

(** One iteration: the config of the index, or none when the first rules leave it out. *)
Lemma task_step_deploy t l w once ts i dc :
  takes_dc t → l !! i = Some dc →
  task_step new_task t (deploy_sc l) (once, ts) i w =
  ('(skip, once) ← pure_eff (skipped t (deploy_sc l) i once);
   if skip : bool then mret (once, ts)
   else (ot ← task_for t dc; mret (once, ts ++ ot))) w.
Proof.
  intros Ht Hi. unfold task_step, task_for, mbind, eff_bind, pure_eff.
  destruct (skipped t (deploy_sc l) i once) as [[[] once']|e|]; simpl; try done.
  rewrite Ht, GetDC_deploy, Hi.
  destruct (new_task t (ArgDC (Some dc)) w) as [w' [[task|]|e|]]; simpl; try done.
  - unfold identify. simpl. by rewrite GetDC_deploy, Hi.
  - by rewrite app_nil_r.
Qed.

(** A rule that decides from the map [once] and a config whether the config is left out,
    and the configs it keeps. *)
Definition rule : Type := gmap string bool → DeployConfig → bool * gmap string bool.
Fixpoint kept (r : rule) (once : gmap string bool) (l : list DeployConfig) : list DeployConfig :=
  match l with
  | [] => []
  | dc :: l => let '(skip, once) := r once dc in
               if skip then kept r once l else dc :: kept r once l
  end.

Lemma task_steps_kept t (r : rule) l :
  takes_dc t →
  (∀ i dc once, l !! i = Some dc → skipped t (deploy_sc l) i once = Ok (r once dc)) →
  ∀ l' pre once ts w, l = pre ++ l' →
  (st ← fold_eff (task_step new_task t (deploy_sc l)) (seq (length pre) (length l')) (once, ts); mret st.2) w =
  (tss ← map_eff (task_for t) (kept r once l'); mret (ts ++ concat tss)) w.
Proof.
  intros Ht Hr. induction l' as [|dc l' IH]; intros pre once ts w Hl; cbn [length seq fold_eff kept map_eff].
  { unfold mbind, eff_bind, mret, eff_ret. simpl. by rewrite app_nil_r. }
  assert (l !! length pre = Some dc) as Hi by (rewrite Hl; by apply list_lookup_middle).
  rewrite !eff_assoc. unfold mbind at 1, eff_bind at 1. rewrite (task_step_deploy _ _ _ _ _ _ _ Ht Hi), (Hr _ _ _ Hi).
  destruct (r once dc) as [skip once'].
  specialize (IH (pre ++ [dc]) once'). rewrite length_app, Nat.add_1_r in IH.
  unfold mbind at 1, eff_bind at 1, pure_eff. destruct skip.
  - apply IH. by rewrite <-app_assoc.
  - cbn [map_eff]. rewrite !eff_assoc. unfold mbind at 1 3, eff_bind at 1 3.
    destruct (task_for t dc w) as [w' [tl|e|]]; try done.
    unfold mret at 1, eff_ret at 1. rewrite IH by (by rewrite <-app_assoc).
    unfold mbind, eff_bind. destruct (map_eff (task_for t) (kept r once' l') w') as [w'' [tss|e|]]; try done.
    unfold mret, eff_ret. simpl. by rewrite <-app_assoc.
Qed.

Lemma tasks_of_kept t (r : rule) l w :
  takes_dc t →
  (∀ i dc once, l !! i = Some dc → skipped t (deploy_sc l) i once = Ok (r once dc)) →
  tasks_of new_task t (deploy_sc l) w =
  (tss ← map_eff (task_for t) (kept r ∅ l); mret (concat tss)) w.
Proof. intros Ht Hr. unfold tasks_of. apply (task_steps_kept t r l Ht Hr l []). done. Qed.

(** The three kinds of rules. *)
Definition plain_rule : rule := λ once dc, (false, once).
Definition role_rule : rule := λ once dc, (bool_decide (GetRole dc = ROLE_FS_MDS_CLI), once).
Definition key_rule (key : DeployConfig → string) : rule := λ once dc, once_step once (key dc).

Lemma kept_plain once l : kept plain_rule once l = l.
Proof. induction l as [|dc l IH]; simpl; congruence. Qed.
Lemma kept_role once l : kept role_rule once l = filter (λ dc, GetRole dc ≠ ROLE_FS_MDS_CLI) l.
Proof.
  induction l as [|dc l IH]; simpl; [done|]. rewrite filter_cons.
  case_bool_decide; case_decide; congruence.
Qed.
Lemma kept_key key once seen l :
  (∀ k, once !! k = Some true ↔ k ∈ seen) → kept (key_rule key) once l = first_by key seen l.
Proof.
  revert once seen; induction l as [|dc l IH]; intros once seen Hs; simpl; [done|].
  unfold key_rule at 1, once_step. case_decide as Hd.
  - apply Hs in Hd as Ho. rewrite Ho. by apply IH.
  - assert (once !! key dc ≠ Some true) as Hn by (by rewrite Hs).
    assert (∀ A (x y : A), match once !! key dc with Some true => x | _ => y end = y) as Hm.
    { intros A x y. destruct (once !! key dc) as [[]|]; done. }
    rewrite Hm. f_equal. apply IH. intros k. rewrite elem_of_cons, <-Hs.
    destruct (decide (k = key dc)) as [->|Hne]; [rewrite lookup_insert_eq|rewrite lookup_insert_ne by done];
      naive_solver.
Qed.

(** The tasks of a step over deploy configs. *)
Lemma tasks_of_deploy t l w :
  takes_dc t → (t = PULL_IMAGE → Forall (λ dc, is_Ok (GetContainerImage dc) = true) l) →
  tasks_of new_task t (deploy_sc l) w =
  (tss ← map_eff (task_for t) (eligible t l); mret (concat tss)) w.
Proof.
  intros Ht Hi.
  assert (∃ r, kept r ∅ l = eligible t l ∧
    ∀ i dc once, l !! i = Some dc → skipped t (deploy_sc l) i once = Ok (r once dc)) as (r & <- & Hr);
    [|by apply tasks_of_kept].
  assert (∀ k, (∅ : gmap string bool) !! k = Some true ↔ k ∈ []) as He.
  { intros k. rewrite lookup_empty, elem_of_nil. done. }
  assert (∀ i dc (f : DeployConfig → res error (bool * gmap string bool)),
    l !! i = Some dc → on (GetDC (deploy_sc l) i) f = f dc) as Hon.
  { intros i dc f Hl. by rewrite GetDC_deploy, Hl. }
  destruct t; try (exists plain_rule; split; [apply kept_plain|done]);
    try (exists role_rule; split; [apply kept_role|];
         intros i dc once Hl; simpl; by rewrite (Hon _ _ _ Hl));
    try (exists (key_rule DeployConfig.GetHost); split; [by apply kept_key|];
         intros i dc once Hl; simpl; by rewrite (Hon _ _ _ Hl)).
  all: try (by specialize (Ht (deploy_sc l) 0)).
  exists (key_rule host_image). split; [by apply kept_key|]. intros i dc once Hl. simpl.
  rewrite (Hon _ _ _ Hl). specialize (Hi eq_refl). rewrite Forall_lookup in Hi. specialize (Hi _ _ Hl).
  unfold key_rule, host_image. by destruct (GetContainerImage dc).
Qed.

(** *** Runs *)

Lemma executes_total ts opts w : ∃ w' r, executes ts opts w w' r.
Proof.
  unfold Playbook.executes. case_decide; [eauto|].
  assert (∀ n s, size s = n → rtc (Tasks.step ssh bar_id (initOptions opts)) (init bar_id (initOptions opts) ts w) s →
    ∃ s' r, rtc (Tasks.step ssh bar_id (initOptions opts)) (init bar_id (initOptions opts) ts w) s' ∧ main s' = MReturn r) as Hrun.
  { intros n. induction (lt_wf n) as [n _ IH]. intros s <- Hs.
    destruct (progress ssh bar_id _ _ _ (initOptions_pos opts) (reach_inv _ _ _ _ _ _ Hs)) as [[r Hr]|[s' Hst]]; [eauto|].
    eapply (IH (size s')); [by eapply step_size|done|]. by eapply rtc_r. }
  destruct (Hrun _ _ eq_refl (rtc_refl _ _)) as (s' & r & Hs & Hm). exists (world s'), r. eauto.
Qed.

(** All tasks of a step report, whatever the others do, and its error is one of theirs. *)
Lemma executes_reports ts opts w w' r :
  executes ts opts w w' r →
  ∃ lg : list (Task * option terror), lg.*1 ≡ₚ ts ∧
    (r = None ↔ Forall (λ x, x.2 = None) lg) ∧ ∀ e, r = Some e → ∃ t, (t, Some e) ∈ lg.
Proof.
  unfold Playbook.executes. case_decide as Hl.
  { intros [-> ->]. exists []. apply nil_length_inv in Hl as ->. done. }
  intros (s & Hs & Hm & ->). destruct (returned_log _ _ _ _ _ _ _ _ Hs Hm) as (Hp & _ & ->).
  apply reach_inv in Hs as Hi. exists ((λ x : Task * nat * option terror, (x.1.1, x.2)) <$> log s).
  split; [|split].
  - rewrite <-list_fmap_compose, Hp, <-list_fmap_compose. done.
  - rewrite Forall_fmap, Forall_forall. destruct (inv_ret _ _ _ Hi _ Hm) as [_ Hr].
    split.
    + intros Hn [[t id] r] Hin. simpl. revert Hin. by apply (inv_none _ _ _ Hi).
    + intros Hn. destruct (m_err (mon s)) as [e|] eqn:E; [|done].
      destruct (inv_some _ _ _ Hi e E) as (t & id & Hin). by specialize (Hn _ Hin).
  - intros e E. destruct (inv_some _ _ _ Hi e E) as (t & id & Hin). exists t.
    apply list_elem_of_fmap. by exists (t, id, Some e).
Qed.

(** A step that lets the run go on, and one that ends it. *)
Definition step_goes_on (s : PlaybookStep) (w w' : W) : Prop :=
  ∃ w1 ts r lg, createTasks s w = (w1, Ok ts) ∧ executes ts (StepOptions s) w1 w' r ∧ lg.*1 ≡ₚ ts ∧
    (Type_ s ≠ CHECK_PORT_IN_USE → Forall (λ x : Task * option terror, x.2 = None) lg).
Inductive step_ends (s : PlaybookStep) (w : W) : W → outcome → Prop :=
| ends_create w1 e : createTasks s w = (w1, Err e) → step_ends s w w1 (Returned (Some (EOther e)))
| ends_panic w1 : createTasks s w = (w1, Panic) → step_ends s w w1 Crashed
| ends_error w1 ts w2 lg t e :
    createTasks s w = (w1, Ok ts) → executes ts (StepOptions s) w1 w2 (Some e) →
    Type_ s ≠ CHECK_PORT_IN_USE → lg.*1 ≡ₚ ts → (t, Some e) ∈ lg →
    step_ends s w w2 (Returned (Some e)).

Inductive chain : list PlaybookStep → W → W → Prop :=
| chain_nil w : chain [] w w
| chain_cons s l w w1 w2 : step_goes_on s w w1 → chain l w1 w2 → chain (s :: l) w w2.

Lemma runs_chain l w w' out :
  runs l w w' out →
  (out = Returned None ∧ chain l w w') ∨
  ∃ pre s suf w1, l = pre ++ s :: suf ∧ chain pre w w1 ∧ step_ends s w1 w' out.
Proof.
  induction 1 as [w|s l w w1 e Hc|s l w w1 Hc|s l w w1 ts w2 e Hc He Hne|s l w w1 ts w2 r w3 out Hc He Hr _ IH].
  - left. split; [done|constructor].
  - right. exists [], s, l, w. split; [done|]. split; [constructor|]. by constructor.
  - right. exists [], s, l, w. split; [done|]. split; [constructor|]. by constructor.
  - right. exists [], s, l, w. split; [done|]. split; [constructor|].
    destruct (executes_reports _ _ _ _ _ He) as (lg & Hlg & _ & Hex).
    destruct (Hex e eq_refl) as [t Ht]. by econstructor.
  - assert (step_goes_on s w w2) as Hs.
    { destruct (executes_reports _ _ _ _ _ He) as (lg & Hlg & Hn & _).
      exists w1, ts, r, lg. split_and!; [done..|]. intros Hne. apply Hn. by destruct Hr. }
    destruct IH as [[-> Hch]|(pre & s' & suf & wm & -> & Hch & Hend)].
    + left. split; [done|]. by econstructor.
    + right. exists (s :: pre), s', suf, wm. split; [done|]. split; [by econstructor|done].
Qed.

Lemma runs_total l w : ∃ w' out, runs l w w' out.
Proof.
  revert w; induction l as [|s l IH]; intros w; [do 2 eexists; constructor|].
  destruct (createTasks s w) as [w1 [ts|e|]] eqn:Hc; [|do 2 eexists; by constructor..].
  destruct (executes_total ts (StepOptions s) w1) as (w2 & r & He).
  destruct (IH w2) as (w3 & out & Hr).
  destruct r as [e|]; [|do 2 eexists; eapply runs_next; eauto].
  destruct (decide (Type_ s = CHECK_PORT_IN_USE)) as [Ht|Ht].
  - do 2 eexists. eapply runs_next; eauto.
  - do 2 eexists. eapply runs_stop; eauto.
Qed.
End facts.

(** ** Theorems *)

Section theorems.
Context {W SSHConfig Client CC ANY OPT : Type}.
Notation Task := (Tasks.Task W SSHConfig Client).
Context (ssh : SSH W SSHConfig Client) (bar_id : nat → nat).
Context (o : MapOrder) (srt : SliceSort).
Context (mem_set : string → OPT → W → W) (new_task : StepType → arg CC ANY → eff error W (option Task)).
Notation Run := (Run (CC := CC) (ANY := ANY) ssh bar_id mem_set new_task).

(** The tasks of a step over deploy configs.  There is one for each config in order, as
    its constructor returns it and under the ids of the config, up to the first error -
    for the ssh check and the dates of the first config of each host, for the image of the
    first of each host and image, and for the environment checks of the configs other than
    the mds client. *)
Theorem createTasks_deploy (t : StepType) (l : list DeployConfig) (opts : gmap string OPT)
    (so : ExecOptions) (w : W) :
  is_dc_type t = true → (t = PULL_IMAGE → Forall (λ dc, is_Ok (GetContainerImage dc) = true) l) →
  (let w0 := set_options mem_set (CC := CC) (ANY := ANY) (mkStep t (DeployConfigs l) opts so) w in
   createTasks mem_set new_task (mkStep t (DeployConfigs l) opts so) w
   = (tss ← map_eff (task_for new_task t) (eligible t l); mret (concat tss)) w0) ∧
  (let same_keys (key : DeployConfig → string) :=
     NoDup (key <$> eligible t l) ∧ ∀ k, k ∈ key <$> eligible t l ↔ k ∈ key <$> l in
   (t = CHECK_SSH_CONNECT ∨ t = GET_HOST_DATE → same_keys DeployConfig.GetHost) ∧
   (t = PULL_IMAGE → same_keys host_image)).
Proof.
  intros Ht Hi. split.
  - unfold createTasks. simpl. change (mkSmartConfig _ _ _ _ _ _ _) with (deploy_sc (CC := CC) (ANY := ANY) l).
    apply (tasks_of_deploy mem_set); [by apply is_dc_type_takes|done].
  - assert (∀ key, NoDup (key <$> first_by key [] l) ∧ ∀ k, k ∈ key <$> first_by key [] l ↔ k ∈ key <$> l) as Hk.
    { intros key. destruct (first_by_spec key [] l) as (H1 & H2 & H3). split; [done|]. intros k.
      rewrite !list_elem_of_fmap. split; [intros (a & -> & Ha%H2); naive_solver|].
      intros (a & -> & [Hn%elem_of_nil|(b & Hb)%list_elem_of_fmap]%H3); [done|eauto]. }
    split; [intros [-> | ->]; apply Hk|intros ->; apply Hk].
Qed.

(** Every run of a playbook ends, whatever its steps, the constructors and the tasks. *)
Theorem Run_returns (p : Playbook) (w : W) : ∃ w' out, Run p w w' out.
Proof.
  destruct (runs_total ssh bar_id o srt mem_set new_task (pb_steps p) w) as (w1 & out & H1).
  destruct (runs_total ssh bar_id o srt mem_set new_task (pb_postSteps p) w1) as (w2 & out2 & H2).
  destruct (pb_postSteps p) as [|s l] eqn:E.
  - exists w1, out. by constructor.
  - do 2 eexists. eapply Run_post; rewrite ?E; done.
Qed.

(** C10: how a playbook ends.  Its steps run in order and each of them goes on to the next
    one when its tasks were created and none of them failed, or when it is the check of the
    ports; [Run] returns nil exactly when all of them went on, and otherwise the error of
    the first that did not, after which no further step is run.  The post steps run in each
    case, from the world the steps left, and their errors are dropped. *)
Theorem Run_spec (p : Playbook) (w w' : W) (out : outcome) :
  Run p w w' out →
  ∃ w1 steps_out,
    ((steps_out = Returned None ∧ chain ssh bar_id o srt mem_set new_task (pb_steps p) w w1) ∨
     ∃ pre s suf w0, pb_steps p = pre ++ s :: suf ∧
       chain ssh bar_id o srt mem_set new_task pre w w0 ∧
       step_ends ssh bar_id o srt mem_set new_task s w0 w1 steps_out) ∧
    (if decide (pb_postSteps p = []) then w' = w1 ∧ out = steps_out
     else ∃ post_out,
       ((post_out = Returned None ∧ chain ssh bar_id o srt mem_set new_task (pb_postSteps p) w1 w') ∨
        ∃ pre s suf w0, pb_postSteps p = pre ++ s :: suf ∧
          chain ssh bar_id o srt mem_set new_task pre w1 w0 ∧
          step_ends ssh bar_id o srt mem_set new_task s w0 w' post_out) ∧
       (out = steps_out ∨ post_out = Crashed ∧ out = Crashed)).
Proof.
  intros [w0 w1 out0 Hr Hp|w0 w1 out0 w2 out2 Hr Hp Hr2]; exists w1, out0; (split; [by apply runs_chain|]).
  - by rewrite decide_True.
  - rewrite decide_False by done. exists out2. split; [by apply runs_chain|].
    destruct out2; auto.
Qed.
End theorems.

(** ** Samples *)

#[export] Instance Zle_on_dec {A} (f : A → Z) : RelDecision (λ x y, f x ≤ f y)%Z.
Proof. intros x y. apply Z_le_dec. Defined.
#[export] Instance Zle_on_total {A} (f : A → Z) : Total (λ x y, f x ≤ f y)%Z.
Proof. intros x y. lia. Qed.
Program Definition merge_slice_sort : SliceSort := {|
  sort_by := λ A f l, merge_sort (λ x y, f x ≤ f y)%Z l;
|}.
Next Obligation. intros A f l. apply merge_sort_Permutation. Qed.
Next Obligation.
  intros A f l. apply (Sorted_merge_sort (λ x y, f x ≤ f y)%Z).
Qed.

(** A world that counts commands, and a constructor whose tasks run one command, which
    fails for the type [bad]. *)
Definition sample_dc (h : string) (r : string) : DeployConfig :=
  mkDeployConfig KIND_DINGOFS (r +:+ "_" +:+ h) r r h h "" 1 0 0 ∅ ∅ None None.
Definition sample_new (bad : StepType) (t : StepType) (a : arg unit unit)
    : eff error nat (option (Tasks.Task nat string string)) :=
  match a with
  | ArgDC (Some dc) =>
      mret (Some (mkTask "" "" "task" (DeployConfig.GetHost dc)
        [command (if decide (t = bad) then Some (EOther (EText "failed")) else None)] [] None))
  | _ => mret None
  end.
Definition sample_step (t : StepType) : PlaybookStep (CC := unit) (ANY := unit) (OPT := unit) :=
  mkStep t (DeployConfigs [sample_dc "h1" ROLE_FS_MDS; sample_dc "h1" ROLE_FS_MDS_CLI;
                           sample_dc "h2" ROLE_FS_MDS]) ∅ sample_opts.

Lemma createTasks_deploy_witness :
  let l := [sample_dc "h1" ROLE_FS_MDS; sample_dc "h1" ROLE_FS_MDS_CLI; sample_dc "h2" ROLE_FS_MDS] in
  (match (@createTasks nat string string unit unit unit canonical_order merge_slice_sort (λ _ _ w, w)
            (sample_new UNKNOWN) (sample_step GET_HOST_DATE) 0).2 with
   | Ok ts => (λ t, (tid t, subname t)) <$> ts
   | _ => [] end) = [("mds_h1", "h1"); ("mds_h2", "h2")] ∧
  NoDup (DeployConfig.GetHost <$> eligible GET_HOST_DATE l).
Proof.
  intros l. split; [vm_compute; reflexivity|].
  destruct (createTasks_deploy (W := nat) (SSHConfig := string) (Client := string) (CC := unit)
    (ANY := unit) (OPT := unit) canonical_order merge_slice_sort (λ _ _ w, w) (sample_new UNKNOWN)
    GET_HOST_DATE l ∅ sample_opts 0) as [_ [Hk _]].
  - reflexivity.
  - intros Hc. discriminate Hc.
  - exact (proj1 (Hk (or_intror eq_refl))).
Defined.

Definition sample_drive (ts : list (Tasks.Task nat string string)) (w : nat) : St nat string string :=
  drive sample_ssh Datatypes.id canonical_order (initOptions sample_opts) [None; Some 0] 60
    (init Datatypes.id (initOptions sample_opts) ts w).
Lemma executes_drive ts w w' r :
  length ts ≠ 0 → (main (sample_drive ts w), world (sample_drive ts w)) = (MReturn r, w') →
  executes (H := canonical_order) sample_ssh Datatypes.id ts sample_opts w w' r.
Proof.
  intros Hl [= Hm Hw]. unfold executes. rewrite decide_False by done.
  exists (sample_drive ts w). split; [apply drive_reach|]. done.
Qed.

(** The check of the ports fails, the run goes on; the dates fail, the run ends before the
    check of the topology; the post step runs. *)
Definition sample_playbook : Playbook :=
  mkPlaybook [sample_step CHECK_PORT_IN_USE; sample_step GET_HOST_DATE; sample_step CHECK_S3]
    [sample_step CLEAN_PRECHECK_ENVIRONMENT].
Definition sample_bad (t : StepType) (a : arg unit unit)
    : eff error nat (option (Tasks.Task nat string string)) :=
  sample_new (if decide (t = CHECK_PORT_IN_USE ∨ t = GET_HOST_DATE) then t else UNKNOWN) t a.
Notation sample_Run := (@Run nat string string unit unit unit sample_ssh Datatypes.id canonical_order
  merge_slice_sort (λ _ _ w, w) sample_bad).

Lemma sample_run : sample_Run sample_playbook 0 6 (Returned (Some (EOther (EText "failed")))).
Proof.
  assert (∀ ts w w' r, length ts ≠ 0 →
    (main (sample_drive ts w), world (sample_drive ts w)) = (MReturn r, w') →
    executes (H := canonical_order) sample_ssh Datatypes.id ts sample_opts w w' r) as He
    by apply executes_drive.
  eapply (Run_post _ _ _ _ _ _ 4 (Returned (Some (EOther (EText "failed")))) 6 (Returned None)); [|done|].
  - eapply runs_next with (w2 := 2) (r := Some (EOther (EText "failed"))); [reflexivity| |by right|].
    + apply He; [done|]. vm_compute. reflexivity.
    + eapply runs_stop; [reflexivity| |done]. apply He; [done|]. vm_compute. reflexivity.
  - eapply runs_next with (w2 := 6) (r := None); [reflexivity| |by left|constructor].
    apply He; [done|]. vm_compute. reflexivity.
Qed.

Lemma Run_spec_witness :
  sample_Run sample_playbook 0 6 (Returned (Some (EOther (EText "failed")))) ∧
  ∃ (w1 : nat) (steps_out post_out : outcome),
    Returned (Some (EOther (EText "failed"))) = steps_out ∨
    post_out = Crashed ∧ Returned (Some (EOther (EText "failed"))) = Crashed.
Proof.
  split; [exact sample_run|].
  destruct (Run_spec sample_ssh Datatypes.id canonical_order merge_slice_sort (λ _ _ w, w) sample_bad
    sample_playbook 0 6 _ sample_run) as (w1 & steps_out & _ & Hpost).
  destruct Hpost as (post_out & _ & Ho). exists w1, steps_out, post_out. exact Ho.
Defined.
