(* ===== verification/Checker.v ===== *)
(** The topology check (src/internal/task/task/checker: topology.go, common.go) and
    the options the precheck, commit and add commands run it with
    (src/cli/command/cluster/precheck.go, add.go, config/commit.go).

    [CheckTopology] runs the steps of [NewCheckTopologyTask] in their order, as
    [Task.Execute] does, and returns the first error. *)

From S2P Require Import Prelude Errno GoLib Utils Vars DeployConfig Topology TopologyTyped TopologyParse TopologySamples ItemSet Hosts HostsFacts Cli.

Definition S3_TEMPLATE_VALUE : string := "<>".
Definition KEY_SKIP_CHECKS_ROLES : string := "SKIP_CHECKS_ROLES".
Definition KEY_CHECK_WITH_WEAK : string := "CHECK_WITH_WEAK".
Definition KEY_CHECK_SKIP_SNAPSHOECLONE : string := "CHECK_SKIP_SNAPSHOTCLONE".
Definition LOG_DIR : string := "log_dir".
Definition DATA_DIR : string := "data_dir".
Definition CORE_DIR : string := "core_dir".

(** ** What a service listens on and where it writes (common.go) *)

Record Address : Type := mkAddress { a_Role : string; a_IP : string; a_Port : Z }.
Record Directory : Type := mkDirectory { d_Type : string; d_Path : string }.

Definition CONNECT (r : string) : list string :=
  if decide (r = ROLE_ETCD) then [ROLE_ETCD]
  else if decide (r = ROLE_FS_MDS) then [ROLE_FS_MDS; ROLE_ETCD]
  else if decide (r = ROLE_CHUNKSERVER) then [ROLE_CHUNKSERVER; ROLE_FS_MDS]
  else if decide (r = ROLE_SNAPSHOTCLONE) then [ROLE_SNAPSHOTCLONE]
  else if decide (r = ROLE_METASERVER) then [ROLE_METASERVER; ROLE_FS_MDS]
  else [].

(** One entry of the list: the listen address of the config with one of its ports. *)
Definition listen (dc : DeployConfig) (r : string) (port : DeployConfig → res error Z)
    : res error Address :=
  ip ← GetListenIp dc; p ← port dc; Ok (mkAddress r ip p).
Definition listen2 (dc : DeployConfig) (r : string) (p1 p2 : DeployConfig → res error Z)
    : res error (list Address) :=
  a ← listen dc r p1; b ← listen dc r p2; Ok [a; b].
Definition listen1 (dc : DeployConfig) (r : string) (p : DeployConfig → res error Z)
    : res error (list Address) := a ← listen dc r p; Ok [a].

Definition getServiceListenAddresses (dc : DeployConfig) : res error (list Address) :=
  let r := GetRole dc in
  if decide (r = ROLE_ETCD) then listen2 dc r GetListenPort GetListenClientPort
  else if decide (r = ROLE_METASERVER) then
    a ← listen dc r GetListenPort;
    ext ← GetEnableExternalServer dc;
    if (ext : bool) then
      ip ← GetListenExternalIp dc; p ← GetListenExternalPort dc; Ok [a; mkAddress r ip p]
    else Ok [a]
  else if decide (r = ROLE_FS_MDS) then
    v ← ctx_Lookup (GetCtx dc) CTX_KEY_MDS_VERSION;
    if decide (v = CTX_VAL_MDS_V1) then listen2 dc r GetListenPort GetListenDummyPort
    else listen1 dc r GetDingoServerPort
  else if decide (r ∈ [ROLE_COORDINATOR; ROLE_STORE; ROLE_DINGODB_DOCUMENT]) then
    listen2 dc r GetDingoServerPort GetDingoStoreRaftPort
  else if decide (r = ROLE_DINGODB_DISKANN) then listen1 dc r GetDingoServerPort
  else if decide (r = ROLE_DINGODB_INDEX) then listen2 dc r GetDingoServerPort GetDingoStoreRaftPort
  else if decide (r = ROLE_DINGODB_EXECUTOR) then listen2 dc r GetDingoDBServerPort GetDingoDBMySQLPort
  else if decide (r = ROLE_DINGODB_WEB) then listen2 dc r GetDingoDBServerPort GetDingoDBExportPort
  else if decide (r = ROLE_DINGODB_PROXY) then listen1 dc r GetDingoDBServerPort
  else Ok [].

Definition connect_step (from : DeployConfig) (address : list Address) (to : DeployConfig)
    : res error (list Address) :=
  if decide (GetId from = GetId to) then Ok address
  else if decide (GetRole to ∈ CONNECT (GetRole from)) then
    l ← getServiceListenAddresses to; Ok (address ++ l)
  else Ok address.
Definition getServiceConnectAddress (from : DeployConfig) (dcs : list DeployConfig)
    : res error (list Address) := fold_res (connect_step from) dcs [].

Definition getServiceDirectorys (dc : DeployConfig) : res error (list Directory) :=
  logDir ← GetLogDir dc;
  dataDir ← GetDataDir dc;
  sourceCoreDir ← GetSourceCoreDir dc;
  targetCoreDir ← GetTargetCoreDir dc;
  Ok (filter (λ d, d_Path d ≠ "")
        [mkDirectory LOG_DIR logDir; mkDirectory DATA_DIR dataDir;
         mkDirectory CORE_DIR sourceCoreDir; mkDirectory CORE_DIR targetCoreDir]).

(** ** The steps (topology.go) *)

Section checker.
Context (os : OS) `{MapOrder} (parse_hosts : string → option Hosts_) (md5 : string → string).

(** Running a check on each element of a list. *)
Definition each {A} (f : A → res error unit) (l : list A) : res error unit :=
  fold_res (λ _ a, f a) l tt.

Definition step2CheckSSHConfigure (cli : DingoCli) (dc : DeployConfig) : res error unit :=
  _ ← cli_GetHost os parse_hosts cli (DeployConfig.GetHost dc); Ok tt.

Definition step2CheckS3Configure (cli : DingoCli) (dc : DeployConfig) : res error unit :=
  skip ← assert_bool (map_get (memStorage cli) KEY_CHECK_SKIP_SNAPSHOECLONE);
  if (skip : bool) then Ok tt else
  access ← GetS3AccessKey dc;
  secret ← GetS3SecretKey dc;
  address ← GetS3Address dc;
  bucket ← GetS3BucketName dc;
  weak ← assert_bool (map_get (memStorage cli) KEY_CHECK_WITH_WEAK);
  each (λ '(value, err),
          if decide (value = S3_TEMPLATE_VALUE) then Err (ECode err)
          else if bool_decide (value = "") && negb weak then Err (ECode err)
          else Ok tt)
    [(access, ERR_INVALID_S3_ACCESS_KEY); (secret, ERR_INVALID_S3_SECRET_KEY);
     (address, ERR_INVALID_S3_ADDRESS); (bucket, ERR_INVALID_S3_BUCKET_NAME)].

Definition step2CheckDirectoryPath (dc : DeployConfig) : res error unit :=
  dirs ← getServiceDirectorys dc;
  each (λ dir,
          if decide (d_Path dir = SERVICE_DIR_ABSENT) then Ok tt
          else if HasPrefix (d_Path dir) "/" then Ok tt
          else Err (ECode ERR_DIRECTORY_REQUIRE_ABSOLUTE_PATH)) dirs.

(** Entering a key into a map where it must be new. *)
Definition claim (e : ErrorCode) (used : gmap string bool) (k : string)
    : res error (gmap string bool) :=
  match used !! k with Some _ => Err (ECode e) | None => Ok (<[k := true]> used) end.

Definition data_dir_key (dc : DeployConfig) : res error (option string) :=
  dataDir ← GetDataDir dc;
  Ok (if decide (dataDir = "" ∨ dataDir = SERVICE_DIR_ABSENT) then None
      else Some (DeployConfig.GetHost dc +:+ ":" +:+ dataDir)).

Definition step2CheckDataDirectoryDuplicate (dcs : list DeployConfig) : res error unit :=
  _ ← fold_res (λ used dc,
        k ← data_dir_key dc;
        match k with None => Ok used | Some k => claim ERR_DATA_DIRECTORY_ALREADY_IN_USE used k end)
      dcs ∅;
  Ok tt.

Definition address_key (a : Address) : string := a_IP a +:+ ":" +:+ Itoa (a_Port a).

Definition step2CheckAddressDuplicate (dcs : list DeployConfig) : res error unit :=
  _ ← fold_res (λ m dc,
        addresses ← getServiceListenAddresses dc;
        fold_res (claim ERR_DUPLICATE_LISTEN_ADDRESS) (address_key <$> addresses) m) dcs ∅;
  Ok tt.

Definition host_num_step (st : nat * gmap string bool) (dc : DeployConfig) : nat * gmap string bool :=
  let '(num, seen) := st in
  match seen !! GetParentId dc with
  | Some _ => st
  | None => (S num, <[GetParentId dc := true]> seen)
  end.
Definition getHostNum (dcs : list DeployConfig) : nat := (foldl host_num_step (0, ∅) dcs).1.

Definition check_skip (dcs : list DeployConfig) (skipRoles : list string) (r : string)
    : res error bool :=
  match dcs with
  | [] => Panic (* index out of range *)
  | dc :: _ =>
      let k := GetKind dc in
      Ok (if Contains skipRoles r then true
          else if decide (k = KIND_DINGOFS) then
            bool_decide (r = ROLE_CHUNKSERVER ∨ r = ROLE_SNAPSHOTCLONE)
          else if decide (k = KIND_DINGOSTORE ∨ k = KIND_DINGODB) then
            negb (bool_decide (r = ROLE_COORDINATOR ∨ r = ROLE_STORE))
          else false)
  end.

Definition service_items : list (string * ErrorCode) :=
  [(ROLE_ETCD, ERR_ETCD_REQUIRES_3_SERVICES); (ROLE_FS_MDS, ERR_MDS_REQUIRES_3_SERVICES);
   (ROLE_CHUNKSERVER, ERR_CHUNKSERVER_REQUIRES_3_SERVICES);
   (ROLE_SNAPSHOTCLONE, ERR_SNAPSHOTCLONE_REQUIRES_3_SERVICES);
   (ROLE_METASERVER, ERR_METASERVER_REQUIRES_3_SERVICES);
   (ROLE_COORDINATOR, ERR_COORDINATOR_REQUIRES_3_SERVICES);
   (ROLE_STORE, ERR_STORE_REQUIRES_3_SERVICES)].
Definition host_items : list (string * ErrorCode) :=
  [(ROLE_ETCD, ERR_ETCD_REQUIRES_3_HOSTS); (ROLE_FS_MDS, ERR_MDS_REQUIRES_3_HOSTS);
   (ROLE_CHUNKSERVER, ERR_CHUNKSERVER_REQUIRES_3_HOSTS);
   (ROLE_SNAPSHOTCLONE, ERR_SNAPSHOTCLONE_REQUIRES_3_HOSTS);
   (ROLE_METASERVER, ERR_METASERVER_REQUIRES_3_HOSTS)].

(** One iteration of the two loops, [count] being the number of services or hosts. *)
Definition check_role (cli : DingoCli) (dcs : list DeployConfig) (skipRoles : list string)
    (weak : bool) (count : list DeployConfig → nat) (item : string * ErrorCode) : res error unit :=
  let '(r, err) := item in
  skip ← check_skip dcs skipRoles r;
  if (skip : bool) then Ok tt else
  let num := count (FilterDeployConfigByRole md5 cli dcs r) in
  if weak && bool_decide (r = ROLE_SNAPSHOTCLONE) then
    if decide (num = 0 ∨ 3 ≤ num) then Ok tt else Err (ECode err)
  else if decide (num < 3) then Err (ECode err) else Ok tt.

Definition step2CheckServices (cli : DingoCli) (dcs : list DeployConfig) (skipRoles : list string)
    : res error unit :=
  weak ← assert_bool (map_get (memStorage cli) KEY_CHECK_WITH_WEAK);
  _ ← each (check_role cli dcs skipRoles weak length) service_items;
  each (check_role cli dcs skipRoles weak getHostNum) host_items.

Definition CheckTopology (cli : DingoCli) (dcs : list DeployConfig) : res error unit :=
  match dcs with
  | [] => Panic (* index out of range *)
  | _ =>
      skipRoles ← assert_strings (map_get (memStorage cli) KEY_SKIP_CHECKS_ROLES);
      _ ← each (step2CheckSSHConfigure cli) dcs;
      _ ← each step2CheckDirectoryPath dcs;
      _ ← step2CheckDataDirectoryDuplicate dcs;
      _ ← step2CheckAddressDuplicate dcs;
      _ ← step2CheckServices cli dcs skipRoles;
      each (step2CheckS3Configure cli) dcs
  end.

(** ** The options of the commands *)

(** [createTasks] stores the options of a playbook step. *)
Definition set_options (options : list (string * val)) (cli : DingoCli) : DingoCli :=
  mkDingoCli (cli_hosts cli) (clusterId cli) (clusterUUId cli) (clusterName cli)
    (clusterTopologyData cli) (clusterPoolData cli)
    (foldl (λ m '(k, v), <[k := v]> m) (memStorage cli) options).

Definition precheck_options (skipRoles : list string) : list (string * val) :=
  [(KEY_CHECK_WITH_WEAK, VBool false); (KEY_SKIP_CHECKS_ROLES, VStrings skipRoles)].
Definition commit_options (skipRoles : list string) : list (string * val) :=
  [(KEY_CHECK_SKIP_SNAPSHOECLONE, VBool false); (KEY_CHECK_WITH_WEAK, VBool true);
   (KEY_SKIP_CHECKS_ROLES, VStrings skipRoles)].
End checker.
