(* ===== verification/ClusterCmd.v ===== *)
(** The commands on the clusters table (src/cli/command/cluster: add.go, remove.go,
    rename.go, checkout.go, list.go).

    Each command looks a name up with [GetClusters], which reads the name as a LIKE
    pattern, and then acts with a statement that compares the name exactly. *)

From S2P Require Import Prelude Errno GoLib Utils Storage StorageFacts Vars DeployConfig Topology TopologyParse TopologySamples TopologyDiff ItemSet Hosts HostsFacts Cli Session Checker.
From Stdlib Require Import Ascii.

Record addOptions : Type := mkAddOptions {
  ao_name : string; ao_descriotion : string; ao_filename : string; ao_allowAbsent : bool }.

Definition lift {A} (r : res error A) : M A := λ d, (r, d).

Section commands.
Context `{Driver} (os : OS) `{MapOrder}.
Context (parse_hosts : string → option Hosts_) (parse : string → option Topology_).
Context (stack : nat) (uuid : nat → string) (md5 : string → string).
(** [None] for a path that does not exist, [Some None] for a file that cannot be read. *)
Context (file : string → option (option string)).
(** The answer to the prompt, and a new uuid. *)
Context (yes : bool) (newUUId : string).

Definition readTopology (filename : string) : res error string :=
  if decide (filename = "") then Ok "" else
  match file filename with
  | None => Err (ECode ERR_TOPOLOGY_FILE_NOT_FOUND)
  | Some None => Err (ECode ERR_READ_TOPOLOGY_FILE_FAILED)
  | Some (Some data) => Ok data
  end.

(** The playbook has one step, which runs the check of Checker.v once. *)
Definition checkTopology (cli : DingoCli) (data : string) (o : addOptions) : res error unit :=
  if decide (ao_filename o = "") then Ok tt else
  p ← ParseTopologyData os parse_hosts parse stack uuid cli data;
  match p.2 with
  | [] => Panic (* index out of range *)
  | dc :: _ =>
      skipRoles ← FetchSkipRoles (GetKind dc) p.2 (GetRoles p.2);
      CheckTopology os parse_hosts md5 (set_options (commit_options skipRoles) cli) p.2
  end.

Definition runAdd (cli : DingoCli) (o : addOptions) : M unit :=
  clusters ← as_code ERR_GET_ALL_CLUSTERS_FAILED (GetClusters (ao_name o));
  if decide (clusters ≠ []) then fail (ECode ERR_CLUSTER_ALREADY_EXIST) else
  data ← lift (readTopology (ao_filename o));
  _ ← lift (checkTopology cli data o);
  as_code ERR_INSERT_CLUSTER_FAILED (InsertCluster (ao_name o) newUUId (ao_descriotion o) data).

Definition checkAllServicesRemoved (force : bool) (clusterId : Z) : M unit :=
  if force then mret tt else
  services ← as_code ERR_GET_ALL_SERVICES_CONTAINER_ID_FAILED (GetServices clusterId);
  if existsb (λ s, bool_decide (sv_ContainerId s ≠ "") && bool_decide (sv_ContainerId s ≠ CLEANED_CONTAINER_ID))
       services
  then fail (ECode ERR_ACTIVE_SERVICE_IN_CLUSTER) else mret tt.

Definition runRemove (clusterName : string) (force : bool) : M unit :=
  clusters ← as_code ERR_GET_ALL_CLUSTERS_FAILED (GetClusters clusterName);
  match clusters with
  | [] => fail (ECode ERR_CLUSTER_NOT_FOUND)
  | c :: _ =>
      _ ← checkAllServicesRemoved force (c_Id c);
      if negb force && negb yes then fail (ECode ERR_CANCEL_OPERATION) else
      as_code ERR_DELETE_CLUSTER_FAILED (DeleteCluster clusterName)
  end.

Definition runRename (clusterOldName clusterNewName : string) (force : bool) : M unit :=
  clusters ← as_code ERR_GET_ALL_CLUSTERS_FAILED (GetClusters clusterOldName);
  match clusters with
  | [] => fail (ECode ERR_CLUSTER_NOT_FOUND)
  | _ =>
      if negb force && negb yes then fail (ECode ERR_CANCEL_OPERATION) else
      as_code ERR_RENAME_CLUSTER_FAILED (RenameClusterName clusterOldName clusterNewName)
  end.

Definition runCheckout (clusterName : string) : M unit :=
  clusters ← as_code ERR_GET_ALL_CLUSTERS_FAILED (GetClusters clusterName);
  match clusters with
  | [] => fail (ECode ERR_CLUSTER_NOT_FOUND)
  | _ => as_code ERR_CHECKOUT_CLUSTER_FAILED (CheckoutCluster clusterName)
  end.

Definition runList : M (list Cluster) := as_code ERR_GET_ALL_CLUSTERS_FAILED (GetClusters "%").
End commands.

(** ** Lemmas *)

Lemma read_chars_concat lead c s : sconcat (read_chars lead c s) = c +:+ s.
Proof.
  revert lead c; induction s as [|a s IH]; intros lead c; simpl; [done|].
  destruct (lead && continuation_byte a); simpl; rewrite IH; [|done]. by rewrite app_assoc_string.
Qed.
Lemma utf8_chars_concat s : sconcat (utf8_chars s) = s.
Proof. destruct s as [|a s]; [done|]. apply read_chars_concat. Qed.

(** Letters have one byte. *)
Lemma lower_byte_class a :
  lead_byte (lower_byte a) = lead_byte a ∧ continuation_byte (lower_byte a) = continuation_byte a.
Proof. destruct a as [[] [] [] [] [] [] [] []]; vm_compute; done. Qed.
Lemma ToLower_app s t : ToLower (s +:+ t) = ToLower s +:+ ToLower t.
Proof. induction s as [|a s IH]; simpl; by rewrite ?IH. Qed.
Lemma read_chars_lower lead c s :
  read_chars lead (ToLower c) (ToLower s) = ToLower <$> read_chars lead c s.
Proof.
  revert lead c; induction s as [|a s IH]; intros lead c; simpl; [done|].
  destruct (lower_byte_class a) as [-> ->]. destruct (lead && continuation_byte a); simpl.
  - by rewrite <-IH, ToLower_app.
  - by rewrite <-IH.
Qed.
Lemma utf8_chars_lower s : utf8_chars (ToLower s) = ToLower <$> utf8_chars s.
Proof.
  destruct s as [|a s]; [done|]. simpl. destruct (lower_byte_class a) as [-> _].
  apply (read_chars_lower _ (String a EmptyString)).
Qed.

Lemma read_chars_no_char x lead c s :
  no_char x s → c ≠ String x EmptyString →
  Forall (λ y, y ≠ String x EmptyString) (read_chars lead c s).
Proof.
  revert lead c; induction s as [|a s IH]; intros lead c; simpl; [by repeat constructor|].
  intros [Ha Hs] Hc. destruct (lead && continuation_byte a).
  - apply IH; [done|]. destruct c as [|b [|b' c]]; simpl; congruence.
  - constructor; [done|]. apply IH; [done|congruence].
Qed.
Lemma utf8_chars_no_char x s : no_char x s → Forall (λ y, y ≠ String x EmptyString) (utf8_chars s).
Proof. destruct s as [|a s]; [constructor|]. simpl. intros [Ha Hs]. apply read_chars_no_char; congruence. Qed.

(** Without wildcards a pattern matches the texts equal to it up to the case of letters. *)
Lemma like_chars_plain p s :
  Forall (λ y, y ≠ "%") p → Forall (λ y, y ≠ "_") p →
  like_chars p s = bool_decide (ToLower <$> p = ToLower <$> s).
Proof.
  revert s; induction p as [|c p IH]; intros [|a s]; simpl; try done.
  - intros [Hc _]%Forall_cons _. by rewrite decide_False.
  - intros [Hc Hp]%Forall_cons [Hc' Hp']%Forall_cons. rewrite decide_False by done.
    rewrite (bool_decide_eq_false_2 (c = "_")) by done. simpl. rewrite IH by done.
    apply eq_bool_prop_intro. rewrite andb_True, !bool_decide_spec.
    split; [intros [H1 H2]; by f_equal|intros Heq; by injection Heq].
Qed.
Lemma like_plain p s :
  no_char "%" p → no_char "_" p → like p s = bool_decide (ToLower p = ToLower s).
Proof.
  intros Hp Hu. unfold like. rewrite like_chars_plain by (by apply (utf8_chars_no_char _ _)).
  apply bool_decide_ext. rewrite <-!utf8_chars_lower. split; [|by intros ->].
  intros He. by rewrite <-(utf8_chars_concat (ToLower p)), <-(utf8_chars_concat (ToLower s)), He.
Qed.

Lemma like_any s : like "%" s = true.
Proof.
  unfold like. change (utf8_chars "%") with ["%"]. induction (utf8_chars s) as [|a l IH]; [done|].
  simpl in *. by rewrite IH.
Qed.

(** The wildcard [_] is one character of however many bytes. *)
Example like_one_character :
  like "a_c" ("a" +:+ String "195" (String "169" "c")) = true ∧
  like "a__c" ("a" +:+ String "195" (String "169" "c")) = false.
Proof. split; vm_compute; reflexivity. Qed.

Section facts.
Context `{Driver} (Hf : ∀ n, fault n = None).

(** A call that the specification allows returns. *)
Lemma exec_Ok op d r0 s0 :
  db_ok d → ids_left d → spec_step op (abs d) r0 s0 →
  ∃ r d', exec op d = (Ok r, d') ∧ db_ok d' ∧ spec_step op (abs d) r (abs d').
Proof.
  intros Hd Hs Hst. destruct (exec_run op d Hd) as [Hd' Hr].
  pose proof (λ e, exec_Err op d e Hd Hs) as He.
  destruct (exec op d) as [[r|e|] d']; simpl in *; [eauto| |done].
  destruct (He e eq_refl) as [Hx|[Hx|Hx]]; rewrite ?Hf in Hx; try done. by destruct (Hx _ _ Hst).
Qed.

Lemma exec_unit_Ok (m : M unit) d r d' :
  (_ ← m; mret (None : option Z)) d = (Ok r, d') → m d = (Ok tt, d').
Proof. unfold mbind, M_bind. destruct (m d) as [[[]|e|] d1]; intros [=]; by subst. Qed.

Lemma as_code_Ok {A} c (m : M A) d a d' : m d = (Ok a, d') → as_code c m d = (Ok a, d').
Proof. intros Hm. unfold as_code. by rewrite Hm. Qed.

(** The clusters that match a name. *)
Lemma GetClusters_Ok name d :
  db_ok d →
  ∃ l, GetClusters name d = (Ok l, tick d) ∧
    (∀ c, c ∈ l → sp_clusters (abs d) !! c_Name c = Some (cluster_val c) ∧ like name (c_Name c) = true) ∧
    (∀ n, is_Some (sp_clusters (abs d) !! n) → like name n = true → n ∈ c_Name <$> l).
Proof.
  intros (_ & _ & (Hn & _) & _). eexists. unfold GetClusters, getClusters.
  rewrite Query_Ok by apply Hf. split; [done|]. split.
  - intros c Hc. rewrite scan_perm in Hc. apply list_elem_of_filter in Hc as [Hl Hc].
    split; [|done]. apply tab_lookup; eauto.
  - intros n Hs Hl. apply (tab_dom c_Name cluster_val) in Hs.
    apply list_elem_of_fmap in Hs as (c & -> & Hc).
    apply list_elem_of_fmap_2. rewrite scan_perm. by apply list_elem_of_filter.
Qed.

Lemma GetServices_Ok id d :
  db_ok d →
  ∃ l, GetServices id d = (Ok l, tick d) ∧
    ∀ i x, sp_services (abs d) !! i = Some (id, x) → ∃ r, r ∈ l ∧ sv_Id r = i ∧ sv_ContainerId r = x.
Proof.
  intros (_ & _ & _ & Hn & _). eexists. unfold GetServices, getServices.
  rewrite Query_Ok by apply Hf. split; [done|].
  intros i x (r & Hr & Hi & Hx)%(tab_lookup sv_Id service_val); [|done].
  unfold service_val in Hx. simplify_eq. exists r. split; [|done].
  rewrite scan_perm. apply list_elem_of_filter. rewrite bool_decide_eq_true. done.
Qed.
End facts.

(** ** Theorems *)

(** [checkout] fails for a name that matches no cluster.  Otherwise it reports
    success, and the cluster of exactly that name is then current - or, when the name only
    matches a cluster as a pattern, no cluster is current any more. *)
Theorem checkout_spec (D : Driver) (name : string) (d : DB) :
  (∀ n, fault n = None) → db_ok d → ids_left d →
  let out := runCheckout name d in
  ((∀ n, is_Some (sp_clusters (abs d) !! n) → like name n = false) →
     out.1 = Err (ECode ERR_CLUSTER_NOT_FOUND) ∧ abs out.2 = abs d) ∧
  (∀ n, is_Some (sp_clusters (abs d) !! n) → like name n = true →
     out.1 = Ok tt ∧
     abs out.2 = set_clusters (abs d) (sp_clusters (abs d)) (sp_clusters (abs d) !! name ≫= λ _, Some name)).
Proof.
  intros Hf Hd Hs. unfold runCheckout.
  destruct (GetClusters_Ok Hf name d Hd) as (l & Hl & Hin & Hall).
  rewrite (bind_Ok_M _ _ _ l (tick d)) by by apply as_code_Ok. split.
  - intros Hno. destruct l as [|c l]; [done|]. exfalso.
    destruct (Hin c) as [Hc Hlike]; [left|]. rewrite Hno in Hlike; eauto. done.
  - intros n Hn Hlike. pose proof (Hall n Hn Hlike) as Hm. destruct l as [|c l]; [by apply elem_of_nil in Hm|].
    destruct (exec_Ok Hf (OCheckoutCluster name) (tick d) None _ Hd Hs (conj eq_refl eq_refl))
      as (r & d' & He & Hd' & _ & Ha).
    apply exec_unit_Ok in He. rewrite (as_code_Ok _ _ _ _ _ He). by split.
Qed.

(** C27: removing a cluster without force, when no other name matches the given one as a
    pattern: it succeeds only after a prompt that was answered with yes, and then the
    cluster existed, none of its services had a container left, and exactly its row is
    gone. *)
Theorem remove_safe (D : Driver) (yes : bool) (name : string) (d : DB) :
  (∀ n, fault n = None) → db_ok d → ids_left d →
  (∀ n, is_Some (sp_clusters (abs d) !! n) → like name n = true → n = name) →
  (runRemove yes name false d).1 = Ok tt →
  yes = true ∧ ∃ c, sp_clusters (abs d) !! name = Some c ∧
    (∀ i x, sp_services (abs d) !! i = Some (ci_Id c, x) → x = "" ∨ x = CLEANED_CONTAINER_ID) ∧
    spec_step (ODeleteCluster name) (abs d) None (abs (runRemove yes name false d).2).
Proof.
  intros Hf Hd Hs Hu. unfold runRemove.
  destruct (GetClusters_Ok Hf name d Hd) as (l & Hl & Hin & Hall).
  rewrite (bind_Ok_M _ _ _ l (tick d)) by by apply as_code_Ok.
  destruct l as [|c l]; [done|]. destruct (Hin c) as [Hc Hlike]; [left|].
  rewrite (Hu (c_Name c)) in Hc by eauto.
  destruct (GetServices_Ok Hf (c_Id c) (tick d) Hd) as (ss & Hss & Hsv).
  unfold checkAllServicesRemoved.
  assert ((services ← as_code ERR_GET_ALL_SERVICES_CONTAINER_ID_FAILED (GetServices (c_Id c));
           if existsb (λ s, bool_decide (sv_ContainerId s ≠ "") &&
                bool_decide (sv_ContainerId s ≠ CLEANED_CONTAINER_ID)) services
           then fail (ECode ERR_ACTIVE_SERVICE_IN_CLUSTER) else mret tt) (tick d)
          = ((if existsb (λ s, bool_decide (sv_ContainerId s ≠ "") &&
                bool_decide (sv_ContainerId s ≠ CLEANED_CONTAINER_ID)) ss
           then fail (ECode ERR_ACTIVE_SERVICE_IN_CLUSTER) else mret tt) (tick (tick d)))) as Hck
    by (rewrite (bind_Ok_M _ _ _ ss (tick (tick d))) by (by apply as_code_Ok); done).
  destruct (existsb _ ss) eqn:Hact.
  { unfold mbind at 1, M_bind at 1. rewrite Hck. done. }
  rewrite (bind_Ok_M _ _ _ tt (tick (tick d))) by done. cbn [negb andb].
  destruct yes; cbn [negb]; [|done]. intros Hok. split; [done|].
  exists (cluster_val c). split; [done|]. split.
  - intros i x Hix. destruct (Hsv i x Hix) as (r & Hr & _ & <-).
    destruct (decide (sv_ContainerId r = "")) as [|Hne]; [by left|].
    destruct (decide (sv_ContainerId r = CLEANED_CONTAINER_ID)) as [|Hne']; [by right|]. exfalso.
    apply not_true_iff_false in Hact. apply Hact, existsb_exists. exists r.
    split; [by apply list_elem_of_In|]. by rewrite !bool_decide_eq_true_2.
  - destruct (exec_Ok Hf (ODeleteCluster name) (tick (tick d)) None _ Hd Hs (conj eq_refl eq_refl))
      as (r & d' & He & Hd' & Ha).
    apply exec_unit_Ok in He. rewrite (as_code_Ok _ _ _ _ _ He). destruct Ha as [-> Ha]. by split.
Qed.

(** Adding a cluster without a topology: a name that, as a pattern, matches a cluster
    is refused; any other name gets a new row with an empty topology, and the current
    cluster stays. *)
Theorem add_spec (D : Driver) (os : OS) (o : MapOrder) (parse_hosts : string → option Hosts_)
    (parse : string → option Topology_) (stack : nat) (uuid : nat → string) (md5 : string → string)
    (file : string → option (option string)) (id : string) (cli : DingoCli) (name desc : string)
    (absent : bool) (d : DB) :
  (∀ n, fault n = None) → db_ok d → ids_left d →
  let out := runAdd os parse_hosts parse stack uuid md5 file id cli (mkAddOptions name desc "" absent) d in
  ((∃ n, is_Some (sp_clusters (abs d) !! n) ∧ like name n = true) →
     out.1 = Err (ECode ERR_CLUSTER_ALREADY_EXIST) ∧ abs out.2 = abs d) ∧
  ((∀ n, is_Some (sp_clusters (abs d) !! n) → like name n = false) →
     out.1 = Ok tt ∧ spec_step (OInsertCluster name id desc "") (abs d) None (abs out.2)).
Proof.
  intros Hf Hd Hs. unfold runAdd. cbn [ao_name ao_descriotion ao_filename].
  destruct (GetClusters_Ok Hf name d Hd) as (l & Hl & Hin & Hall).
  rewrite (bind_Ok_M _ _ _ l (tick d)) by by apply as_code_Ok. split.
  - intros (n & Hn & Hlike). pose proof (Hall n Hn Hlike) as Hm.
    rewrite decide_True by (by intros ->; apply elem_of_nil in Hm). done.
  - intros Hno. assert (l = []) as ->.
    { destruct l as [|c l]; [done|]. destruct (Hin c) as [Hc Hlike]; [left|].
      rewrite Hno in Hlike; eauto. done. }
    rewrite decide_False by naive_solver.
    rewrite (bind_Ok_M _ _ _ "" (tick d)) by done. rewrite (bind_Ok_M _ _ _ tt (tick d)) by done.
    assert (sp_clusters (abs d) !! name = None) as Hnone.
    { destruct (sp_clusters (abs d) !! name) eqn:E; [|done]. exfalso.
      assert (like name name = false) as Hx by eauto. by rewrite like_refl in Hx. }
    destruct (exec_Ok Hf (OInsertCluster name id desc "") (tick d) None
      (set_clusters (abs d) (<[name := mkClusterInfo (seq_ (t_clusters d) + 1) id desc "" ""]>
        (sp_clusters (abs d))) (sp_current (abs d))) Hd Hs) as (r & d' & He & Hd' & Ha).
    { split; [done|]. split; [done|]. eexists. split; [|done].
      destruct Hd as (_ & _ & (Hn & Hi & _) & _).
      intros n c (r & Hr & _ & <-)%(tab_lookup c_Name cluster_val); [|done].
      by eapply (ids_ok_fresh c_Id). }
    apply exec_unit_Ok in He. rewrite (as_code_Ok _ _ _ _ _ He). destruct Ha as [-> Ha]. by split.
Qed.

(** ** Where pattern and name differ *)

(** A cluster [prodx1], and a cluster [prod_1] with a running service. *)
Definition two_prods : DB := (exec_all (H := sample_driver)
  [OInsertCluster "prodx1" "u1" "" ""; OInsertCluster "prod_1" "u2" "" ""; OCheckoutCluster "prod_1";
   OInsertService 2 "s1" "c1"] empty_db).2.

(** [rm prod_1] without force deletes that cluster although a container of it runs: the
    services it looks at are those of [prodx1], which the name matches as a pattern. *)
Theorem remove_active_cluster :
  let out := runRemove (H := sample_driver) true "prod_1" false two_prods in
  sp_services (abs two_prods) !! "s1" = Some (2%Z, "c1") ∧
  (ci_Id <$> sp_clusters (abs two_prods) !! "prod_1") = Some 2%Z ∧
  out.1 = Ok tt ∧ sp_clusters (abs out.2) !! "prod_1" = None ∧ sp_current (abs out.2) = None.
Proof. split_and!; vm_compute; reflexivity. Qed.

(** [checkout] with a name in other letters reports success and leaves no current
    cluster; a cluster cannot be renamed to a name in other letters. *)
Theorem checkout_other_case :
  let out := runCheckout (H := sample_driver) "PROD_1" two_prods in
  sp_current (abs two_prods) = Some "prod_1" ∧ out.1 = Ok tt ∧ sp_current (abs out.2) = None ∧
  (runRename (H := sample_driver) true "prod_1" "Prod_1" true two_prods).1 = Err (ECode ERR_RENAME_CLUSTER_FAILED).
Proof. split_and!; vm_compute; reflexivity. Qed.

(** ** Witnesses *)

Lemma two_prods_ok : db_ok two_prods ∧ ids_left two_prods.
Proof. split; [apply (reachable_ok (H := sample_driver))|]. unfold ids_left. by vm_compute. Qed.

Lemma checkout_spec_witness :
  (runCheckout (H := sample_driver) "prodx1" two_prods).1 = Ok tt ∧
  (runCheckout (H := sample_driver) "none" two_prods).1 = Err (ECode ERR_CLUSTER_NOT_FOUND).
Proof.
  split.
  - destruct (checkout_spec sample_driver "prodx1" two_prods) as [_ H].
    + done.
    + apply two_prods_ok.
    + apply two_prods_ok.
    + destruct (H "prodx1") as [Hr _]; [vm_compute; eauto|reflexivity|exact Hr].
  - vm_compute. reflexivity.
Defined.

Lemma remove_safe_witness :
  let out := runRemove (H := sample_driver) true "prodx1" false two_prods in
  out.1 = Ok tt ∧ true = true.
Proof.
  split; [vm_compute; reflexivity|].
  refine (proj1 (remove_safe sample_driver true "prodx1" two_prods _ _ _ _ _)).
  - done.
  - apply two_prods_ok.
  - apply two_prods_ok.
  - intros n Hn Hl. assert (n = "prodx1" ∨ n = "prod_1") as [->| ->]; [|done|].
    + apply (tab_dom c_Name cluster_val) in Hn. vm_compute in Hn.
      apply elem_of_cons in Hn as [->|Hn]; [by left|]. apply elem_of_cons in Hn as [->|Hn]; [by right|].
      by apply elem_of_nil in Hn.
    + vm_compute in Hl. discriminate.
  - vm_compute. reflexivity.
Defined.

Lemma add_spec_witness :
  let add n := runAdd (H := sample_driver) sample_os (H0 := canonical_order) (λ _, None) (λ _, None) 20
    sample_uuid (λ s, s) (λ _, None) "u9" sample_cli (mkAddOptions n "" "" false) two_prods in
  (add "prod_2").1 = Ok tt ∧ (add "PRODX1").1 = Err (ECode ERR_CLUSTER_ALREADY_EXIST).
Proof.
  split; [vm_compute; reflexivity|].
  destruct (add_spec sample_driver sample_os canonical_order (λ _, None) (λ _, None) 20
    sample_uuid (λ s, s) (λ _, None) "u9" sample_cli "PRODX1" "" false two_prods) as [H _].
  - done.
  - apply two_prods_ok.
  - apply two_prods_ok.
  - destruct H as [Hr _]; [|exact Hr]. exists "prodx1". split; [vm_compute; eauto|reflexivity].
Defined.
