(* ===== verification/CheckerFacts.v ===== *)
(** Theorems about the topology check: exactly what it accepts, that three services
    on one machine pass for three hosts, and that the precheck command panics on a
    topology that passes every other check. *)

From S2P Require Import Prelude Errno GoLib Utils Vars DeployConfig Topology TopologyTyped TopologyParse TopologySamples ItemSet Hosts HostsFacts Cli Checker.

Lemma each_Ok {A} (f : A → res error unit) l : each f l = Ok tt ↔ ∀ a, a ∈ l → f a = Ok tt.
Proof.
  unfold each. induction l as [|a l IH]; simpl.
  { split; [|done]. intros _ a Ha. by apply elem_of_nil in Ha. }
  setoid_rewrite elem_of_cons. destruct (f a) as [[]|e|] eqn:Hf; simpl.
  - rewrite IH. naive_solver.
  - split; [done|]. intros H. by rewrite (H a (or_introl eq_refl)) in Hf.
  - split; [done|]. intros H. by rewrite (H a (or_introl eq_refl)) in Hf.
Qed.

Lemma bind_tt {A} (m : res error A) (f : A → res error unit) :
  m ≫= f = Ok tt ↔ ∃ a, m = Ok a ∧ f a = Ok tt.
Proof. apply bind_Ok. Qed.

(** ** Claiming keys *)

Definition claim_all (m : gmap string bool) (ks : list string) : gmap string bool :=
  foldl (λ m k, <[k := true]> m) m ks.

Lemma claim_all_None m ks k : claim_all m ks !! k = None ↔ k ∉ ks ∧ m !! k = None.
Proof.
  unfold claim_all. revert m; induction ks as [|k' ks IH]; intros m; simpl.
  { rewrite elem_of_nil. tauto. }
  rewrite IH, elem_of_cons. destruct (decide (k = k')) as [->|Hne].
  - rewrite lookup_insert_eq. naive_solver.
  - rewrite lookup_insert_ne by done. naive_solver.
Qed.

Lemma claims_Ok e ks m m' :
  fold_res (claim e) ks m = Ok m' ↔
  NoDup ks ∧ (∀ k, k ∈ ks → m !! k = None) ∧ m' = claim_all m ks.
Proof.
  revert m; induction ks as [|k ks IH]; intros m; simpl.
  { split; [intros [= <-]|by intros (_ & _ & ->)].
    split_and!; [by apply NoDup_nil|by intros k ?%elem_of_nil|done]. }
  rewrite NoDup_cons. setoid_rewrite elem_of_cons.
  assert (claim e m k = match m !! k with Some _ => Err (ECode e) | None => Ok (<[k := true]> m) end)
    as -> by done.
  destruct (m !! k) eqn:Hk; simpl.
  - split; [done|]. intros (_ & Hn & _). by rewrite (Hn k (or_introl eq_refl)) in Hk.
  - rewrite IH. split.
    + intros (Hnd & Hn & ->). split_and!; [|done| |done].
      * intros Hin. specialize (Hn k Hin). by rewrite lookup_insert_eq in Hn.
      * intros k' [->|Hin]; [done|]. specialize (Hn k' Hin).
        by apply lookup_insert_None in Hn as [? _].
    + intros ([Hni Hnd] & Hn & ->). split_and!; [done| |done].
      intros k' Hin. apply lookup_insert_None. split; [by apply Hn; right|by intros ->].
Qed.

Lemma claim_loop_Ok {A} e (keys : A → res error (list string)) l m :
  (∃ m', fold_res (λ m a, ks ← keys a; fold_res (claim e) ks m) l m = Ok m') ↔
  ∃ kss, Forall2 (λ a ks, keys a = Ok ks) l kss ∧ NoDup (concat kss) ∧
         ∀ k, k ∈ concat kss → m !! k = None.
Proof.
  revert m; induction l as [|a l IH]; intros m; simpl.
  { split; [|by eauto]. intros _. exists []. split_and!; [constructor|apply NoDup_nil; done|].
    by intros k ?%elem_of_nil. }
  split.
  - intros (m' & (m1 & (ks & Hks & (Hnd & Hn & ->)%claims_Ok)%bind_Ok & Hf)%bind_Ok).
    destruct (proj1 (IH _) (ex_intro _ m' Hf)) as (kss & H2 & Hnd' & Hn').
    exists (ks :: kss). split_and!; [by constructor| |]; simpl.
    + apply NoDup_app. split_and!; [done| |done]. intros k Hk Hk'.
      specialize (Hn' k Hk'). apply claim_all_None in Hn' as [? _]. done.
    + intros k [Hk|Hk]%elem_of_app; [by apply Hn|].
      specialize (Hn' k Hk). by apply claim_all_None in Hn' as [_ ?].
  - intros (kss & H2 & Hnd & Hn). inversion H2 as [|? ks ? kss' Hks H2']; subst. simpl in *.
    apply NoDup_app in Hnd as (Hnd1 & Hdis & Hnd2).
    rewrite Hks. simpl. rewrite (proj2 (claims_Ok e ks m (claim_all m ks))).
    2:{ split_and!; [done| |done]. intros k Hk. apply Hn, elem_of_app. by left. }
    simpl. apply IH. exists kss'. split_and!; [done..|].
    intros k Hk. apply claim_all_None. split; [|apply Hn, elem_of_app; by right].
    intros Hk'. by eapply Hdis.
Qed.

(** ** Counting hosts *)

Lemma host_num_fold dcs n (m : gmap string bool) l :
  NoDup l → n = length l → (∀ p, is_Some (m !! p) ↔ p ∈ l) →
  ∃ l', NoDup l' ∧ (foldl host_num_step (n, m) dcs).1 = length l' ∧
    ∀ p, p ∈ l' ↔ p ∈ l ∨ ∃ dc, dc ∈ dcs ∧ GetParentId dc = p.
Proof.
  revert n m l; induction dcs as [|dc dcs IH]; intros n m l Hnd Hn Hm; simpl.
  { exists l. split_and!; [done..|]. intros p. split; [by left|]. intros [?|(dc & Hin & _)]; [done|].
    by apply elem_of_nil in Hin. }
  destruct (m !! GetParentId dc) as [b|] eqn:E.
  - assert (GetParentId dc ∈ l) as Hin by (apply Hm; eauto).
    destruct (IH n m l Hnd Hn Hm) as (l' & H1 & H2 & H3). exists l'. split_and!; [done..|].
    intros p. rewrite H3. setoid_rewrite elem_of_cons. split; [naive_solver|].
    intros [?|(d & [->|Hd] & <-)]; eauto.
  - assert (GetParentId dc ∉ l) as Hni by (rewrite <-Hm, E; by intros []).
    destruct (IH (S n) (<[GetParentId dc := true]> m) (GetParentId dc :: l)) as (l' & H1 & H2 & H3).
    + by constructor.
    + simpl. lia.
    + intros p. rewrite elem_of_cons, <-Hm. destruct (decide (p = GetParentId dc)) as [->|Hne].
      * rewrite lookup_insert_eq. naive_solver.
      * rewrite lookup_insert_ne by done. naive_solver.
    + exists l'. split_and!; [done..|]. intros p. rewrite H3, elem_of_cons.
      setoid_rewrite elem_of_cons. naive_solver.
Qed.

(** The number of "hosts" is the number of distinct parent ids. *)
Lemma getHostNum_spec dcs :
  ∃ l, NoDup l ∧ getHostNum dcs = length l ∧ ∀ p, p ∈ l ↔ ∃ dc, dc ∈ dcs ∧ GetParentId dc = p.
Proof.
  destruct (host_num_fold dcs 0 ∅ []) as (l & H1 & H2 & H3).
  - by apply NoDup_nil.
  - done.
  - intros p. rewrite lookup_empty, elem_of_nil. split; [by intros []|done].
  - exists l. split_and!; [done..|]. intros p. rewrite H3, elem_of_nil. tauto.
Qed.

(** ** What the check accepts *)

Definition option_keys (o : option string) : list string := match o with Some k => [k] | None => [] end.

Lemma data_dirs_Ok dcs :
  step2CheckDataDirectoryDuplicate dcs = Ok tt ↔
  ∃ ks, Forall2 (λ dc k, data_dir_key dc = Ok k) dcs ks ∧ NoDup (concat (option_keys <$> ks)).
Proof.
  unfold step2CheckDataDirectoryDuplicate.
  assert (∀ l m, fold_res (λ used dc, k ← data_dir_key dc;
            match k with None => Ok used | Some k => claim ERR_DATA_DIRECTORY_ALREADY_IN_USE used k end) l m
          = fold_res (λ used dc, ks ← (option_keys <$> data_dir_key dc);
              fold_res (claim ERR_DATA_DIRECTORY_ALREADY_IN_USE) ks used) l m) as Heq.
  { intros l. induction l as [|dc l IH]; intros m; simpl; [done|].
    destruct (data_dir_key dc) as [[k|]|e|]; simpl; [|by rewrite IH|done..].
    destruct (claim _ m k); simpl; [by rewrite IH|done..]. }
  rewrite Heq, bind_tt.
  pose proof (claim_loop_Ok ERR_DATA_DIRECTORY_ALREADY_IN_USE (λ dc, option_keys <$> data_dir_key dc) dcs ∅)
    as Hc. split.
  - intros (m' & Hm & _). destruct (proj1 Hc (ex_intro _ m' Hm)) as (kss & H2 & Hnd & _).
    clear Hc Hm Heq. revert Hnd. cut (∃ ks, Forall2 (λ dc k, data_dir_key dc = Ok k) dcs ks ∧
                                        kss = option_keys <$> ks).
    { intros (ks & Hks & ->) Hnd. by exists ks. }
    induction H2 as [|dc ks dcs kss Hk _ (ks' & H2 & ->)]; [by exists []|].
    destruct (data_dir_key dc) as [k| |] eqn:E; simplify_eq/=.
    exists (k :: ks'). split; [by constructor|done].
  - intros (ks & H2 & Hnd). destruct (proj2 Hc) as [m' Hm]; [|by exists m'].
    exists (option_keys <$> ks). split_and!.
    + clear -H2. induction H2 as [|? ? ? ? Hk]; simpl; constructor; [|done]. by rewrite Hk.
    + done.
    + intros k _. apply lookup_empty.
Qed.

Definition address_keys (l : list Address) : list string := address_key <$> l.

Lemma addresses_Ok dcs :
  step2CheckAddressDuplicate dcs = Ok tt ↔
  ∃ ls, Forall2 (λ dc l, getServiceListenAddresses dc = Ok l) dcs ls ∧
        NoDup (address_key <$> concat ls).
Proof.
  unfold step2CheckAddressDuplicate.
  assert (∀ l m, fold_res (λ m dc, addresses ← getServiceListenAddresses dc;
            fold_res (claim ERR_DUPLICATE_LISTEN_ADDRESS) (address_key <$> addresses) m) l m
          = fold_res (λ m dc, ks ← (address_keys <$> getServiceListenAddresses dc);
              fold_res (claim ERR_DUPLICATE_LISTEN_ADDRESS) ks m) l m) as Heq.
  { intros l. induction l as [|dc l IH]; intros m; simpl; [done|].
    destruct (getServiceListenAddresses dc) as [as_|e|]; simpl; [|done..].
    destruct (fold_res _ _ m); simpl; [by rewrite IH|done..]. }
  rewrite Heq, bind_tt.
  pose proof (claim_loop_Ok ERR_DUPLICATE_LISTEN_ADDRESS
                (λ dc, address_keys <$> getServiceListenAddresses dc) dcs ∅) as Hc.
  assert (∀ ls : list (list Address), concat (address_keys <$> ls) = address_key <$> concat ls) as Hcc.
  { intros ls. induction ls; simpl; [done|]. rewrite fmap_app. by f_equal. }
  split.
  - intros (m' & Hm & _). destruct (proj1 Hc (ex_intro _ m' Hm)) as (kss & H2 & Hnd & _).
    clear Hc Hm Heq. revert Hnd.
    cut (∃ ls, Forall2 (λ dc l, getServiceListenAddresses dc = Ok l) dcs ls ∧
               kss = address_keys <$> ls).
    { intros (ls & Hls & ->) Hnd. exists ls. split; [done|]. by rewrite <-Hcc. }
    induction H2 as [|dc ks dcs kss Hk _ (ls & H2 & ->)]; [by exists []|].
    destruct (getServiceListenAddresses dc) as [l| |] eqn:E; simplify_eq/=.
    exists (l :: ls). split; [by constructor|done].
  - intros (ls & H2 & Hnd). destruct (proj2 Hc) as [m' Hm]; [|by exists m'].
    exists (address_keys <$> ls). split_and!.
    + clear -H2. induction H2 as [|? ? ? ? Hk]; simpl; constructor; [|done]. by rewrite Hk.
    + by rewrite Hcc.
    + intros k _. apply lookup_empty.
Qed.

Lemma directories_Ok dc :
  step2CheckDirectoryPath dc = Ok tt ↔
  ∃ dirs, getServiceDirectorys dc = Ok dirs ∧
    ∀ d, d ∈ dirs → d_Path d = SERVICE_DIR_ABSENT ∨ HasPrefix (d_Path d) "/" = true.
Proof.
  unfold step2CheckDirectoryPath. rewrite bind_tt. f_equiv. intros dirs. f_equiv.
  rewrite each_Ok. split; intros Hd d Hin; specialize (Hd d Hin); repeat case_decide; try tauto.
  - right. by destruct (HasPrefix _ _).
  - destruct Hd as [?| ->]; done.
Qed.

(** The count a role needs: none, or three; any count is fine for a skipped role and,
    in the weak check, none for snapshotclone. *)
Definition enough (md5 : string → string) (cli : DingoCli) dcs skipRoles weak (count : list DeployConfig → nat) (r : string) : Prop :=
  check_skip dcs skipRoles r = Ok false →
  3 ≤ count (FilterDeployConfigByRole md5 cli dcs r) ∨
  (weak = true ∧ r = ROLE_SNAPSHOTCLONE ∧ count (FilterDeployConfigByRole md5 cli dcs r) = 0).

Lemma check_role_Ok md5 cli dcs skipRoles weak count item :
  dcs ≠ [] →
  check_role md5 cli dcs skipRoles weak count item = Ok tt ↔ enough md5 cli dcs skipRoles weak count item.1.
Proof.
  intros Hne. unfold check_role, enough. destruct item as [r err]. simpl.
  destruct (check_skip dcs skipRoles r) as [[]|e|] eqn:E; simpl.
  - naive_solver.
  - destruct weak; simpl; [destruct (bool_decide_reflect (r = ROLE_SNAPSHOTCLONE)) as [->|Hr]|].
    + case_decide; [naive_solver lia|]. split; [done|]. intros Hx. destruct (Hx eq_refl); lia.
    + case_decide; [|naive_solver lia]. split; [done|]. intros Hx. destruct (Hx eq_refl); [lia|tauto].
    + case_decide; [|naive_solver lia]. split; [done|]. intros Hx. destruct (Hx eq_refl) as [?|[? _]]; [lia|done].
  - unfold check_skip in E. by destruct dcs.
  - unfold check_skip in E. by destruct dcs.
Qed.

(** The four S3 settings of a config. *)
Definition s3_values dc (l : list string) : Prop :=
  ∃ a b c d, l = [a; b; c; d] ∧ GetS3AccessKey dc = Ok a ∧ GetS3SecretKey dc = Ok b ∧
    GetS3Address dc = Ok c ∧ GetS3BucketName dc = Ok d.

Lemma s3_Ok cli dc weak :
  map_get (memStorage cli) KEY_CHECK_WITH_WEAK = VBool weak →
  step2CheckS3Configure cli dc = Ok tt ↔
  map_get (memStorage cli) KEY_CHECK_SKIP_SNAPSHOECLONE = VBool true ∨
  map_get (memStorage cli) KEY_CHECK_SKIP_SNAPSHOECLONE = VBool false ∧
    ∃ l, s3_values dc l ∧ Forall (λ v, v ≠ S3_TEMPLATE_VALUE ∧ (v = "" → weak = true)) l.
Proof.
  intros Hw. unfold step2CheckS3Configure. rewrite Hw.
  destruct (map_get (memStorage cli) KEY_CHECK_SKIP_SNAPSHOECLONE) as [|[]| | | | | | | |];
    simpl; try (split; [done|naive_solver]); [naive_solver|].
  split.
  - intros (a & Ha & (b & Hb & (c & Hc & (d & Hd & He)%bind_Ok)%bind_Ok)%bind_Ok)%bind_Ok. right. split; [done|].
    exists [a; b; c; d]. split; [by exists a, b, c, d|]. rewrite each_Ok in He.
    assert (∀ v e, (v, e) ∈ [(a, ERR_INVALID_S3_ACCESS_KEY); (b, ERR_INVALID_S3_SECRET_KEY);
              (c, ERR_INVALID_S3_ADDRESS); (d, ERR_INVALID_S3_BUCKET_NAME)] →
              v ≠ S3_TEMPLATE_VALUE ∧ (v = "" → weak = true)) as Hv.
    { intros v e Hin. specialize (He (v, e) Hin). simpl in He. case_decide; [done|].
      split; [done|]. intros ->. by destruct weak. }
    do 4 (apply Forall_cons; split; [eapply Hv; repeat first [left|right]|]). constructor.
  - intros [?|(_ & l & (a & b & c & d & -> & Ha & Hb & Hc & Hd) & Hl)]; [done|].
    rewrite Ha. simpl. rewrite Hb. simpl. rewrite Hc. simpl. rewrite Hd. apply each_Ok. intros [v e] Hin.
    assert (v ∈ [a; b; c; d]) as Hv.
    { apply (list_elem_of_fmap_2 fst) in Hin. exact Hin. }
    rewrite Forall_forall in Hl. destruct (Hl v Hv) as [H1 H2]. rewrite decide_False by done.
    destruct (bool_decide_reflect (v = "")); [by rewrite H2|done].
Qed.

(** C11: the topology check succeeds exactly when every host is in the hosts file, every
    directory is absolute or absent, no data directory is used twice on a host, no
    two listen addresses coincide, every role that is not skipped has three services
    and - for the roles with a host check - three parents, and the S3 settings are
    filled in (in the weak check: no template value) or skipped. *)
Theorem CheckTopology_accepts (os : OS) (o : MapOrder) (parse_hosts : string → option Hosts_)
    (md5 : string → string) (cli : DingoCli) (dcs : list DeployConfig) (weak : bool) :
  map_get (memStorage cli) KEY_CHECK_WITH_WEAK = VBool weak →
  CheckTopology os parse_hosts md5 cli dcs = Ok tt ↔
  dcs ≠ [] ∧
  (∀ dc, dc ∈ dcs → ∃ hc, cli_GetHost os parse_hosts cli (DeployConfig.GetHost dc) = Ok hc) ∧
  (∀ dc, dc ∈ dcs → ∃ dirs, getServiceDirectorys dc = Ok dirs ∧
     ∀ d, d ∈ dirs → d_Path d = SERVICE_DIR_ABSENT ∨ HasPrefix (d_Path d) "/" = true) ∧
  (∃ ks, Forall2 (λ dc k, data_dir_key dc = Ok k) dcs ks ∧ NoDup (concat (option_keys <$> ks))) ∧
  (∃ ls, Forall2 (λ dc l, getServiceListenAddresses dc = Ok l) dcs ls ∧
         NoDup (address_key <$> concat ls)) ∧
  (∃ skipRoles, map_get (memStorage cli) KEY_SKIP_CHECKS_ROLES = VStrings skipRoles ∧
     (∀ r, r ∈ service_items.*1 → enough md5 cli dcs skipRoles weak length r) ∧
     (∀ r, r ∈ host_items.*1 → enough md5 cli dcs skipRoles weak getHostNum r)) ∧
  (∀ dc, dc ∈ dcs →
     map_get (memStorage cli) KEY_CHECK_SKIP_SNAPSHOECLONE = VBool true ∨
     map_get (memStorage cli) KEY_CHECK_SKIP_SNAPSHOECLONE = VBool false ∧
       ∃ l, s3_values dc l ∧ Forall (λ v, v ≠ S3_TEMPLATE_VALUE ∧ (v = "" → weak = true)) l).
Proof.
  intros Hw. setoid_rewrite <-(directories_Ok). setoid_rewrite <-(s3_Ok cli _ weak Hw).
  rewrite <-data_dirs_Ok, <-addresses_Ok.
  assert (∀ skipRoles count items, dcs ≠ [] →
    each (check_role md5 cli dcs skipRoles weak count) items = Ok tt ↔
    ∀ r, r ∈ items.*1 → enough md5 cli dcs skipRoles weak count r) as Hroles.
  { intros skipRoles count items Hne. rewrite each_Ok.
    setoid_rewrite (λ it, check_role_Ok md5 cli dcs skipRoles weak count it Hne). split.
    - intros Hi r (it & -> & Hin)%list_elem_of_fmap. by apply Hi.
    - intros Hi it Hin. by apply Hi, list_elem_of_fmap_2. }
  assert (each (step2CheckSSHConfigure os parse_hosts cli) dcs = Ok tt ↔
    ∀ dc, dc ∈ dcs → ∃ hc, cli_GetHost os parse_hosts cli (DeployConfig.GetHost dc) = Ok hc) as Hssh.
  { rewrite each_Ok. unfold step2CheckSSHConfigure. setoid_rewrite bind_Ok. naive_solver. }
  rewrite <-!each_Ok, <-Hssh. clear Hssh.
  unfold CheckTopology, step2CheckServices. rewrite Hw.
  destruct (decide (dcs = [])) as [->|E]; [split; [done|by intros [? _]]|].
  destruct dcs as [|dc0 dcs0]; [done|].
  split.
  - intros (sr & Hsr & ([] & H1 & ([] & H2 & ([] & H3 & ([] & H4 & ([] & H5 & H6)%bind_Ok)%bind_Ok)%bind_Ok)%bind_Ok)%bind_Ok)%bind_Ok.
    apply bind_Ok in H5 as (w & [= <-] & ([] & H7 & H8)%bind_Ok). split_and!; try done.
    exists sr. split_and!; [|by apply Hroles..].
    destruct (map_get _ KEY_SKIP_CHECKS_ROLES); by simplify_eq/=.
  - intros (_ & H1 & H2 & H3 & H4 & (sr & Hsr & H7%Hroles & H8%Hroles) & H6); [|done..].
    rewrite Hsr. simpl. by rewrite H1, H2, H3, H4, H7, H8.
Qed.

(** The precheck command runs the check without the option that says whether S3
    is checked, which the last steps read with a type assertion: on a topology that
    passes every other check it panics, and it succeeds on none. *)
Theorem precheck_panics (os : OS) (o : MapOrder) (parse_hosts : string → option Hosts_)
    (md5 : string → string) (cli : DingoCli) (dcs : list DeployConfig) (skipRoles : list string) :
  map_get (memStorage cli) KEY_CHECK_SKIP_SNAPSHOECLONE = VNil →
  CheckTopology os parse_hosts md5 (set_options (precheck_options skipRoles) cli) dcs ≠ Ok tt ∧
  (CheckTopology os parse_hosts md5
     (set_options ((KEY_CHECK_SKIP_SNAPSHOECLONE, VBool true) :: precheck_options skipRoles) cli) dcs
     = Ok tt →
   CheckTopology os parse_hosts md5 (set_options (precheck_options skipRoles) cli) dcs = Panic).
Proof.
  intros Hnil.
  set (c1 := set_options _ cli).
  set (c2 := set_options ((KEY_CHECK_SKIP_SNAPSHOECLONE, VBool true) :: _) cli).
  assert (map_get (memStorage c1) KEY_CHECK_SKIP_SNAPSHOECLONE = VNil) as H1.
  { unfold c1, map_get. simpl. by rewrite !lookup_insert_ne by done. }
  assert (∀ dc, step2CheckS3Configure c1 dc = Panic) as Hs3.
  { intros dc. unfold step2CheckS3Configure. by rewrite H1. }
  assert (∀ k, k ∈ [KEY_CHECK_WITH_WEAK; KEY_SKIP_CHECKS_ROLES] →
            map_get (memStorage c1) k = map_get (memStorage c2) k) as Hk.
  { intros k Hin. unfold c1, c2, map_get. simpl.
    rewrite !elem_of_cons, elem_of_nil in Hin. destruct Hin as [->|[->|[]]];
      repeat (rewrite lookup_insert_eq || rewrite lookup_insert_ne by done); done. }
  assert (CheckTopology os parse_hosts md5 c1 dcs =
    match dcs with [] => Panic | _ =>
      skipRoles ← assert_strings (map_get (memStorage c2) KEY_SKIP_CHECKS_ROLES);
      _ ← each (step2CheckSSHConfigure os parse_hosts c2) dcs;
      _ ← each step2CheckDirectoryPath dcs;
      _ ← step2CheckDataDirectoryDuplicate dcs;
      _ ← step2CheckAddressDuplicate dcs;
      _ ← step2CheckServices md5 c2 dcs skipRoles;
      Panic
    end) as Heq.
  { unfold CheckTopology, step2CheckServices. destruct dcs as [|dc l] eqn:E; [done|].
    rewrite !Hk by (by repeat constructor). repeat f_equal. cbn. by rewrite Hs3. }
  rewrite Heq. split.
  - destruct dcs; [done|]. intros Hx. repeat (apply bind_Ok in Hx as (? & _ & Hx)). done.
  - destruct dcs as [|dc l]; [done|].
    intros (sr & Hsr & ([] & X1 & ([] & X2 & ([] & X3 & ([] & X4 & ([] & X5 & X6)%bind_Ok)%bind_Ok)%bind_Ok)%bind_Ok)%bind_Ok)%bind_Ok.
    rewrite Hsr. simpl. by rewrite X1, X2, X3, X4, X5.
Qed.

(** ** Examples *)

Definition sample_md5 (s : string) : string := s.
Definition on_host (h n : string) (cfg : gmap string val) : Deploy := mkDeploy h n 0 0 1 (Some cfg).
Definition ports (n : Z) : gmap string val :=
  {["listen.port" := VInt (7000 + n); "listen.client_port" := VInt (8000 + n);
    "data_dir" := VString ("/data/" +:+ Itoa n)]}.

(** Three etcd and three metaserver services, with a name each. *)
Definition dingofs_topology (h1 h2 h3 : string) : Topology_ :=
  let z := zero_Service in
  mkTopology KIND_DINGOFS None
    (services [on_host h1 "a" (ports 1); on_host h2 "b" (ports 2); on_host h3 "c" (ports 3)])
    (services [on_host h1 "a" (ports 4)])
    (services [on_host h1 "a" (ports 5); on_host h2 "b" (ports 6); on_host h3 "c" (ports 7)])
    z z z z z z z z z z z.
Definition one_host_dcs : list DeployConfig :=
  (res_get (None, []) (sample_parse (dingofs_topology "h1" "h1" "h1"))).2.
Definition one_host_skips : list string :=
  res_get [] (FetchSkipRoles KIND_DINGOFS one_host_dcs (GetRoles one_host_dcs)).
Definition sample_check (options : list (string * val)) (dcs : list DeployConfig) : res error unit :=
  CheckTopology (H := canonical_order) sample_os (λ _, Some sample_hosts) sample_md5
    (set_options options sample_cli) dcs.


(** The check for three hosts counts parent ids, which contain the name of the
    deploy entry: three etcd and three metaserver entries with different names on one
    machine pass the whole check. *)
Theorem three_hosts_on_one_machine :
  sample_check (commit_options one_host_skips) one_host_dcs = Ok tt ∧
  Forall (λ dc, host dc = "h1" ∧ hostname dc = "10.0.0.1") one_host_dcs ∧
  getHostNum (FilterDeployConfigByRole sample_md5 sample_cli one_host_dcs ROLE_ETCD) = 3 ∧
  ∀ dcs, ∃ l, NoDup l ∧ getHostNum dcs = length l ∧
    ∀ p, p ∈ l ↔ ∃ dc, dc ∈ dcs ∧ GetParentId dc = p.
Proof.
  split; [vm_compute; reflexivity|]. split.
  { apply (bool_decide_unpack _). vm_compute. exact I. }
  split; [vm_compute; reflexivity|]. apply getHostNum_spec.
Qed.

Lemma CheckTopology_accepts_witness :
  one_host_dcs ≠ [] ∧ map_get (memStorage (set_options (commit_options one_host_skips) sample_cli))
    KEY_CHECK_WITH_WEAK = VBool true.
Proof.
  split; [|vm_compute; reflexivity].
  refine (proj1 (proj1 (CheckTopology_accepts sample_os canonical_order (λ _, Some sample_hosts)
    sample_md5 (set_options (commit_options one_host_skips) sample_cli) one_host_dcs true _) _)).
  - vm_compute. reflexivity.
  - vm_compute. reflexivity.
Defined.

(** The S3 settings of the sample are empty, which the option to skip them allows. *)
Lemma precheck_panics_witness :
  sample_check (precheck_options one_host_skips) one_host_dcs = Panic.
Proof.
  refine (proj2 (precheck_panics sample_os canonical_order (λ _, Some sample_hosts)
    sample_md5 sample_cli one_host_dcs one_host_skips _) _).
  - vm_compute. reflexivity.
  - vm_compute. reflexivity.
Defined.
