(* ===== verification/Deploy.v ===== *)
(** Deploying a cluster (src/cli/command/cluster/deploy.go): the steps of the deploy
    playbook and the services each of them works on. *)

From S2P Require Import Prelude Errno GoLib Utils Vars DeployConfig Topology TopologySamples Hosts Cli Monitor Tasks Playbook.

(** The values of the options of a step, kept in the memory storage while it runs. *)
Inductive optval : Type :=
| ODcs (l : list DeployConfig)
| OBool (b : bool)
| OStrings (l : list string)
| OString (s : string).

(** deploy.go: [START_MDSV2] is the start of the mds. *)
Definition START_MDSV2 : StepType := START_FS_MDS.

Record deployOptions : Type := mkDeployOptions {
  o_skip : list string; o_insecure : bool; o_useLocalImage : bool }.

Definition ROLE_ALT : string := "ALT".
Definition CAN_SKIP_ROLES : list string := [ROLE_ALT].

Definition DINGOFS_MDSV2_ONLY_DEPLOY_STEPS : list StepType :=
  [CLEAN_PRECHECK_ENVIRONMENT; PULL_IMAGE; CREATE_CONTAINER; CREATE_MDSV2_CLI_CONTAINER;
   SYNC_CONFIG; START_MDSV2_CLI_CONTAINER; CREATE_META_TABLES; START_MDSV2].
Definition DINGOFS_MDSV2_FOLLOW_DEPLOY_STEPS : list StepType :=
  [CLEAN_PRECHECK_ENVIRONMENT; PULL_IMAGE; CREATE_CONTAINER; CREATE_MDSV2_CLI_CONTAINER;
   SYNC_CONFIG; START_COORDINATOR; START_STORE; CHECK_STORE_HEALTH; START_MDSV2_CLI_CONTAINER;
   CREATE_META_TABLES; START_MDSV2; START_DINGODB_EXECUTOR].
Definition DINGOSTORE_DEPLOY_STEPS : list StepType :=
  [CLEAN_PRECHECK_ENVIRONMENT; PULL_IMAGE; CREATE_CONTAINER; SYNC_CONFIG; START_COORDINATOR;
   START_STORE; CHECK_STORE_HEALTH; START_DINGODB_EXECUTOR].
Definition DINGODB_DEPLOY_STEPS : list StepType :=
  [CLEAN_PRECHECK_ENVIRONMENT; PULL_IMAGE; CREATE_CONTAINER; SYNC_CONFIG; START_COORDINATOR;
   START_STORE; CHECK_STORE_HEALTH; START_DINGODB_DOCUMENT; START_DINGODB_DISKANN;
   START_DINGODB_INDEX; START_DINGODB_EXECUTOR; START_DINGODB_WEB; START_DINGODB_PROXY].

(** A missing entry reads as the empty string, and as zero. *)
Definition DEPLOY_FILTER_ROLE (s : StepType) : string :=
  match s with
  | START_MDS | BALANCE_LEADER | START_FS_MDS => ROLE_FS_MDS
  | START_COORDINATOR => ROLE_COORDINATOR
  | START_STORE | CHECK_STORE_HEALTH => ROLE_STORE
  | START_DINGODB_DOCUMENT => ROLE_DINGODB_DOCUMENT
  | START_DINGODB_INDEX => ROLE_DINGODB_INDEX
  | START_DINGODB_DISKANN => ROLE_DINGODB_DISKANN
  | START_MDSV2_CLI_CONTAINER | CREATE_META_TABLES | CREATE_MDSV2_CLI_CONTAINER => ROLE_FS_MDS_CLI
  | START_DINGODB_EXECUTOR | SYNC_JAVA_OPTS => ROLE_DINGODB_EXECUTOR
  | START_DINGODB_WEB => ROLE_DINGODB_WEB
  | START_DINGODB_PROXY => ROLE_DINGODB_PROXY
  | _ => ""
  end.
Definition DEPLOY_LIMIT_SERVICE (s : StepType) : nat :=
  match s with
  | BALANCE_LEADER | CREATE_META_TABLES | CREATE_MDSV2_CLI_CONTAINER | CHECK_STORE_HEALTH
  | SYNC_JAVA_OPTS => 1
  | _ => 0
  end.

Definition checkDeployOptions (o : deployOptions) : res error unit :=
  let supported := Slice2Map CAN_SKIP_ROLES in
  fold_res (λ _ r, if in_map supported r then Ok tt
                   else Err (ECode ERR_UNSUPPORT_SKIPPED_SERVICE_ROLE)) (o_skip o) tt.

Definition skipServiceRole (dcs : list DeployConfig) (o : deployOptions) : list DeployConfig :=
  let skipped := Slice2Map (o_skip o) in filter (λ dc, in_map skipped (GetRole dc) = false) dcs.

Definition skipDeploySteps (deploySteps : list StepType) : list StepType := deploySteps.

(** Removing the first [PULL_IMAGE]. *)
Fixpoint remove_pull (steps : list StepType) : list StepType :=
  match steps with
  | [] => []
  | s :: l => if decide (s = PULL_IMAGE) then l else s :: remove_pull l
  end.

(** [config[:n]] with a bound of 0 or 1: an empty slice has no capacity. *)
Definition slice_to (l : list DeployConfig) (n : nat) : res error (list DeployConfig) :=
  if decide (n ≤ length l) then Ok (take n l) else Panic.

Section deploy.
Context (md5 : string → string) {CC ANY : Type}.
Notation Playbook := (Playbook (CC := CC) (ANY := ANY) (OPT := optval)).

(** The steps of a kind, before the image step is dropped. *)
Definition deploy_steps (dcs : list DeployConfig) : res error (list StepType) :=
  match dcs with
  | [] => Panic (* index out of range *)
  | dc :: _ =>
      let k := GetKind dc in
      let roles := GetRoles dcs in
      if decide (k = KIND_DINGOFS) then
        if Contains roles ROLE_COORDINATOR then
          Ok (if Contains roles ROLE_DINGODB_EXECUTOR then DINGOFS_MDSV2_FOLLOW_DEPLOY_STEPS
              else take (length DINGOFS_MDSV2_FOLLOW_DEPLOY_STEPS - 1) DINGOFS_MDSV2_FOLLOW_DEPLOY_STEPS)
        else if ContainsList roles [ROLE_FS_MDS; ROLE_FS_MDS_CLI] then
          Ok DINGOFS_MDSV2_ONLY_DEPLOY_STEPS
        else Ok []
      else if decide (k = KIND_DINGOSTORE) then Ok DINGOSTORE_DEPLOY_STEPS
      else if decide (k = KIND_DINGODB) then Ok DINGODB_DEPLOY_STEPS
      else Err (ECode ERR_UNSUPPORT_CLUSTER_KIND)
  end.

(** One iteration of the loop over the steps. *)
Definition step_configs (cli : DingoCli) (dcs : list DeployConfig) (s : StepType)
    : res error (list DeployConfig) :=
  let config := if decide (DEPLOY_FILTER_ROLE s = "") then dcs
                else FilterDeployConfigByRole md5 cli dcs (DEPLOY_FILTER_ROLE s) in
  if decide (DEPLOY_LIMIT_SERVICE s = 0) then Ok config
  else slice_to config (DEPLOY_LIMIT_SERVICE s).

(** The options of the zero value. *)
Definition no_options : ExecOptions := mkExecOptions 0 false false false.

Definition genDeployPlaybook (cli : DingoCli) (dcs : list DeployConfig) (o : deployOptions)
    : res error Playbook :=
  steps ← deploy_steps dcs;
  let steps := if o_useLocalImage o then remove_pull steps else steps in
  let steps := skipDeploySteps steps in
  fold_res (λ pb s,
    config ← step_configs cli dcs s;
    Ok (pb_AddStep pb (mkStep s (DeployConfigs config) ∅ no_options))) steps NewPlaybook.

(** ** The precheck (precheck.go) *)

Definition CHECK_ITEM_TOPOLOGY : string := "topology".
Definition CHECK_ITEM_SSH : string := "ssh".
Definition CHECK_ITEM_PERMISSION : string := "permission".
Definition CHECK_ITEM_KERNEL : string := "kernel".
Definition CHECK_ITEM_NERWORK : string := "network".
Definition CHECK_ITEM_DATE : string := "date".
Definition CHECK_ITEM_SERVICE : string := "service".

Definition DINGOFS_PRECHECK_STEPS : list StepType :=
  [CHECK_TOPOLOGY; CHECK_SSH_CONNECT; CHECK_PERMISSION; CLEAN_PRECHECK_ENVIRONMENT;
   CHECK_PORT_IN_USE; START_HTTP_SERVER; CHECK_DESTINATION_REACHABLE; GET_HOST_DATE; CHECK_HOST_DATE].
Definition PRECHECK_POST_STEPS : list StepType := [CLEAN_PRECHECK_ENVIRONMENT].

Definition BELONG_CHECK_ITEM (s : StepType) : string :=
  match s with
  | CHECK_TOPOLOGY => CHECK_ITEM_TOPOLOGY
  | CHECK_SSH_CONNECT => CHECK_ITEM_SSH
  | CHECK_PERMISSION => CHECK_ITEM_PERMISSION
  | CHECK_KERNEL_VERSION => CHECK_ITEM_KERNEL
  | CHECK_PORT_IN_USE | CHECK_DESTINATION_REACHABLE | CHECK_NETWORK_FIREWALL => CHECK_ITEM_NERWORK
  | GET_HOST_DATE | CHECK_HOST_DATE => CHECK_ITEM_DATE
  | CHECK_S3 => CHECK_ITEM_SERVICE
  | _ => ""
  end.
Definition CHECK_ITEMS : list string :=
  [CHECK_ITEM_TOPOLOGY; CHECK_ITEM_SSH; CHECK_ITEM_PERMISSION; CHECK_ITEM_KERNEL;
   CHECK_ITEM_NERWORK; CHECK_ITEM_DATE; CHECK_ITEM_SERVICE].

Record precheckOptions : Type := mkPrecheckOptions { p_skip : list string; p_useLocalImage : bool }.

Definition checkPrecheckOptions (o : precheckOptions) : res error unit :=
  let supported := Slice2Map CHECK_ITEMS in
  fold_res (λ _ item, if in_map supported item then Ok tt
                      else Err (ECode ERR_UNSUPPORT_SKIPPED_CHECK_ITEM)) (p_skip o) tt.

Definition skipPrecheckSteps (steps : list StepType) (o : precheckOptions) : list StepType :=
  let skipped := Slice2Map (p_skip o) in
  let steps := if p_useLocalImage o then remove_pull steps else steps in
  filter (λ s, in_map skipped (BELONG_CHECK_ITEM s) = false) steps.

Definition KEY_ALL_DEPLOY_CONFIGS : string := "ALL_DEPLOY_CONFIGS".
Definition KEY_CHECK_WITH_WEAK : string := "CHECK_WITH_WEAK".
Definition KEY_SKIP_CHECKS_ROLES : string := "SKIP_CHECKS_ROLES".

Definition precheck_configs (cli : DingoCli) (dcs : list DeployConfig) (s : StepType)
    : res error (list DeployConfig) :=
  match s with
  | CHECK_TOPOLOGY | CHECK_HOST_DATE => slice_to dcs 1
  | CHECK_KERNEL_VERSION => Ok (FilterDeployConfigByRole md5 cli dcs ROLE_ALT)
  | _ => Ok dcs
  end.

Definition genPrecheckPlaybook (cli : DingoCli) (dcs : list DeployConfig) (o : precheckOptions)
    : res error Playbook :=
  match dcs with
  | [] => Panic (* index out of range *)
  | dc :: _ =>
      skipRoles ← FetchSkipRoles (GetKind dc) dcs (GetRoles dcs);
      let steps := skipPrecheckSteps DINGOFS_PRECHECK_STEPS o in
      pb ← fold_res (λ pb s,
             configs ← precheck_configs cli dcs s;
             Ok (pb_AddStep pb (mkStep s (DeployConfigs configs)
                  (list_to_map [(KEY_ALL_DEPLOY_CONFIGS, ODcs dcs); (KEY_CHECK_WITH_WEAK, OBool false);
                                (KEY_SKIP_CHECKS_ROLES, OStrings skipRoles)])
                  (mkExecOptions 0 false (bool_decide (s = CHECK_HOST_DATE)) false))))
           steps NewPlaybook;
      Ok (foldl (λ pb s, pb_AddPostStep pb (mkStep s (DeployConfigs dcs) ∅ (mkExecOptions 0 false true false)))
            pb PRECHECK_POST_STEPS)
  end.

(** The playbooks of a deployment: the one of the precheck, unless it is skipped, and the
    one that deploys, generated when the precheck has passed. *)
Definition precheckBeforeDeploy (cli : DingoCli) (dcs : list DeployConfig) (o : deployOptions)
    : res error (option Playbook) :=
  if o_insecure o then Ok None else Some <$> genPrecheckPlaybook cli dcs (mkPrecheckOptions [] false).
End deploy.

Definition statistics (dcs : list DeployConfig) : gmap string Z :=
  foldl (λ count dc, <[GetRole dc := (default 0 (count !! GetRole dc) + 1)%Z]> count) ∅ dcs.

Definition serviceStats (dcs : list DeployConfig) : res error string :=
  let count := statistics dcs in
  let n r := Itoa (default 0%Z (count !! r)) in
  match dcs with
  | [] => Panic (* index out of range *)
  | dc :: _ =>
      let k := GetKind dc in
      Ok (if decide (k = KIND_DINGOFS) then
            if Contains (GetRoles dcs) ROLE_FS_MDS_CLI then
              "coordinator*" +:+ n ROLE_COORDINATOR +:+ ", store*" +:+ n ROLE_STORE +:+
              ", mds*" +:+ n ROLE_FS_MDS +:+ ", executor*" +:+ n ROLE_DINGODB_EXECUTOR
            else
              "etcd*" +:+ n ROLE_ETCD +:+ ", mds*" +:+ n ROLE_FS_MDS +:+
              ", metaserver*" +:+ n ROLE_METASERVER
          else if decide (k = KIND_DINGOSTORE) then
            "coordinator*" +:+ n ROLE_COORDINATOR +:+ ", store*" +:+ n ROLE_STORE +:+
            ", executor*" +:+ n ROLE_DINGODB_EXECUTOR
          else if decide (k = KIND_DINGODB) then
            "coordinator*" +:+ n ROLE_COORDINATOR +:+ ", store*" +:+ n ROLE_STORE +:+
            ", document*" +:+ n ROLE_DINGODB_DOCUMENT +:+ ", diskann*" +:+ n ROLE_DINGODB_DISKANN +:+
            ", index*" +:+ n ROLE_DINGODB_INDEX +:+ ", executor*" +:+ n ROLE_DINGODB_EXECUTOR
          else "unknown")
  end.

(** ** The commands *)

Section run.
Context {W SSHConfig Client CC ANY : Type} (md5 : string → string).
Context (ssh : SSH W SSHConfig Client) (bar_id : nat → nat).
Context `{MapOrder} `{SliceSort}.
Context (mem_set : string → optval → W → W)
  (new_task : StepType → arg CC ANY → eff error W (option (Task W SSHConfig Client))).
Notation Run := (Run (CC := CC) (ANY := ANY) ssh bar_id mem_set new_task).

Definition of_res {A} (r : res error A) : outcome + A :=
  match r with Ok a => inr a | Err e => inl (Returned (Some (EOther e))) | Panic => inl Crashed end.

(** [runDeploy] on the parsed topology [dcs]. *)
Inductive runDeploy (cli : DingoCli) (dcs : list DeployConfig) (o : deployOptions) (w : W)
    : W → outcome → Prop :=
| deploy_bad out :
    of_res (precheckBeforeDeploy md5 (CC := CC) (ANY := ANY) cli (skipServiceRole dcs o) o) = inl out →
    runDeploy cli dcs o w w out
| deploy_precheck_fails pb w1 out :
    precheckBeforeDeploy md5 (CC := CC) (ANY := ANY) cli (skipServiceRole dcs o) o = Ok (Some pb) →
    Run pb w w1 out → out ≠ Returned None → runDeploy cli dcs o w w1 out
| deploy_gen_fails ob w1 out :
    precheckBeforeDeploy md5 (CC := CC) (ANY := ANY) cli (skipServiceRole dcs o) o = Ok ob →
    match ob with None => w1 = w | Some pb => Run pb w w1 (Returned None) end →
    of_res (genDeployPlaybook md5 (CC := CC) (ANY := ANY) cli (skipServiceRole dcs o) o) = inl out →
    runDeploy cli dcs o w w1 out
| deploy_runs ob pb w1 w2 out :
    precheckBeforeDeploy md5 (CC := CC) (ANY := ANY) cli (skipServiceRole dcs o) o = Ok ob →
    match ob with None => w1 = w | Some pb => Run pb w w1 (Returned None) end →
    genDeployPlaybook md5 (CC := CC) (ANY := ANY) cli (skipServiceRole dcs o) o = Ok pb →
    Run pb w1 w2 out → runDeploy cli dcs o w w2 out.
End run.
