(* ===== verification/DeployFacts.v ===== *)
(** What the deploy playbook contains (src/cli/command/cluster/deploy.go) and which
    deployments it serves. *)

From S2P Require Import Prelude Errno GoLib Utils Vars DeployConfig Topology TopologySamples Hosts Cli Monitor Tasks TasksFacts Playbook PlaybookFacts Deploy.

Section facts.
Context (md5 : string → string) {CC ANY : Type}.
Notation PlaybookStep := (PlaybookStep (CC := CC) (ANY := ANY) (OPT := optval)).
Notation genDeployPlaybook := (genDeployPlaybook md5 (CC := CC) (ANY := ANY)).

Lemma filter_all {A} (P : A → Prop) `{∀ x, Decision (P x)} (l : list A) :
  (∀ x, x ∈ l → P x) → filter P l = l.
Proof.
  induction l as [|x l IH]; intros Hl; [done|]. rewrite filter_cons_True by (apply Hl; left).
  f_equal. apply IH. intros y Hy. apply Hl. by right.
Qed.

(** ** Filtering by role *)

Lemma FilterDeployConfigByRole_spec cli dcs r :
  r ≠ "*" → FilterDeployConfigByRole md5 cli dcs r = filter (λ dc, GetRole dc = r) dcs.
Proof.
  intros Hr. unfold FilterDeployConfigByRole, FilterDeployConfig. apply list_filter_iff. intros dc.
  unfold matches. simpl. rewrite (bool_decide_eq_false_2 (r = "*")) by done. simpl.
  rewrite andb_true_r, bool_decide_eq_true. naive_solver.
Qed.

(** ** The playbook *)

Definition of_role (s : StepType) (dcs : list DeployConfig) : list DeployConfig :=
  if decide (DEPLOY_FILTER_ROLE s = "") then dcs else filter (λ dc, GetRole dc = DEPLOY_FILTER_ROLE s) dcs.
Definition limited (s : StepType) (dcs : list DeployConfig) : list DeployConfig :=
  if decide (DEPLOY_LIMIT_SERVICE s = 0) then of_role s dcs else take (DEPLOY_LIMIT_SERVICE s) (of_role s dcs).
Definition plan_step (dcs : list DeployConfig) (s : StepType) : PlaybookStep :=
  mkStep s (DeployConfigs (limited s dcs)) ∅ no_options.

(** The step has a service if it is limited to a number of them. *)
Definition served (dcs : list DeployConfig) (s : StepType) : Prop :=
  DEPLOY_LIMIT_SERVICE s ≠ 0 → of_role s dcs ≠ [].
#[export] Instance served_dec dcs s : Decision (served dcs s).
Proof. unfold served. apply _. Defined.

Lemma filter_role_star s : DEPLOY_FILTER_ROLE s ≠ "*".
Proof. by destruct s. Qed.

Lemma limit_le s : DEPLOY_LIMIT_SERVICE s ≤ 1.
Proof. destruct s; simpl; lia. Qed.

Lemma step_configs_spec cli dcs s :
  step_configs md5 cli dcs s = if decide (served dcs s) then Ok (limited s dcs) else Panic.
Proof.
  unfold step_configs, limited.
  rewrite FilterDeployConfigByRole_spec by apply filter_role_star. fold (of_role s dcs).
  destruct (decide (DEPLOY_LIMIT_SERVICE s = 0)) as [Hz|Hz].
  - rewrite decide_True; [done|]. by intros ?.
  - unfold slice_to. pose proof (limit_le s).
    destruct (decide (served dcs s)) as [Hs|Hs]; unfold served in Hs.
    + rewrite decide_True; [done|]. specialize (Hs Hz). destruct (of_role s dcs); simpl; [done|lia].
    + rewrite decide_False; [done|]. intros Hle. apply Hs. intros _ Hn. rewrite Hn in Hle. simpl in Hle. lia.
Qed.

Definition deploy_types (dcs : list DeployConfig) (o : deployOptions) : res error (list StepType) :=
  steps ← deploy_steps dcs; Ok (if o_useLocalImage o then remove_pull steps else steps).

Lemma plan_fold cli dcs types (pb : Playbook (CC := CC) (ANY := ANY) (OPT := optval)) :
  fold_res (λ pb s, config ← step_configs md5 cli dcs s;
                    Ok (pb_AddStep pb (mkStep s (DeployConfigs config) ∅ no_options))) types pb
  = if decide (Forall (served dcs) types)
    then Ok (mkPlaybook (pb_steps pb ++ (plan_step dcs <$> types)) (pb_postSteps pb)) else Panic.
Proof.
  revert pb; induction types as [|s types IH]; intros pb; cbn [fold_res].
  { rewrite decide_True by constructor. simpl. rewrite app_nil_r. by destruct pb. }
  rewrite step_configs_spec. destruct (decide (served dcs s)) as [Hs|Hs].
  - cbn [mbind res_bind]. rewrite IH. destruct (decide (Forall (served dcs) types)) as [Hf|Hf].
    + rewrite decide_True by (by constructor). simpl. by rewrite <-app_assoc.
    + rewrite decide_False; [done|]. by intros [_ ?]%Forall_cons.
  - rewrite decide_False; [done|]. by intros [? _]%Forall_cons.
Qed.

Lemma genDeployPlaybook_eq cli dcs o :
  genDeployPlaybook cli dcs o =
  (types ← deploy_types dcs o;
   if decide (Forall (served dcs) types) then Ok (mkPlaybook (plan_step dcs <$> types) []) else Panic).
Proof.
  unfold Deploy.genDeployPlaybook, deploy_types. destruct (deploy_steps dcs) as [steps|e|]; [|done..].
  cbn [mbind res_bind]. unfold skipDeploySteps. by rewrite plan_fold.
Qed.
End facts.

(** ** Starting every service *)

(** The types whose tasks [NewStartServiceTask] makes. *)
Definition is_start (t : StepType) : bool :=
  match t with
  | START_SERVICE | START_ETCD | START_MDS | START_CHUNKSERVER | START_SNAPSHOTCLONE
  | START_METASERVER | START_FS_MDS | START_COORDINATOR | START_STORE | START_DINGODB_DOCUMENT
  | START_DINGODB_INDEX | START_DINGODB_DISKANN | START_MDSV2_CLI_CONTAINER
  | START_DINGODB_EXECUTOR | START_DINGODB_PROXY | START_DINGODB_WEB => true
  | _ => false
  end.
(** The step starts the services of a role, its own or, without one, every role. *)
Definition starts (r : string) (t : StepType) : bool :=
  is_start t && (bool_decide (DEPLOY_FILTER_ROLE t = "") || bool_decide (DEPLOY_FILTER_ROLE t = r)).

Lemma start_limit t : is_start t = true → DEPLOY_LIMIT_SERVICE t = 0.
Proof. by destruct t. Qed.

Lemma limited_starts t dcs dc :
  is_start t = true → dc ∈ limited t dcs ↔ dc ∈ dcs ∧ starts (GetRole dc) t = true.
Proof.
  intros Hs. unfold limited, of_role, starts. rewrite start_limit, decide_True, Hs by done. simpl.
  rewrite orb_true_iff, !bool_decide_eq_true. case_decide as Hr; [naive_solver|].
  rewrite list_elem_of_filter. naive_solver.
Qed.

(** The step that creates the container of a service of a role: [NewCreateContainerTask]
    makes no task for the mds client. *)
Definition creates (r : string) : StepType :=
  if decide (r = ROLE_FS_MDS_CLI) then CREATE_MDSV2_CLI_CONTAINER else CREATE_CONTAINER.

(** [b] stands behind [a]. *)
Definition in_order (a b : StepType) (l : list StepType) : bool :=
  existsb (λ i, bool_decide (l !! i = Some b) && bool_decide (a ∈ take i l)) (seq 0 (length l)).

Lemma in_order_spec a b l :
  in_order a b l = true → ∃ l1 l2 l3, l = l1 ++ a :: l2 ++ b :: l3.
Proof.
  unfold in_order. intros (i & _ & [Hb Ha]%andb_true_iff)%existsb_exists.
  apply bool_decide_eq_true in Hb, Ha. apply list_elem_of_split in Ha as (l1 & l2 & Ht).
  exists l1, l2, (drop (S i) l). rewrite <-(take_drop_middle l i b Hb) at 1.
  rewrite Ht, <-(assoc_L (++)). done.
Qed.

(** The steps of a role: one start, after the containers and then their configuration. *)
Definition types_ok (types : list StepType) (r : string) : bool :=
  existsb (λ i,
    match types !! i with
    | Some t => is_start t && bool_decide (DEPLOY_FILTER_ROLE t = r) &&
                forallb (λ t', negb (starts r t')) (take i types ++ drop (S i) types) &&
                in_order (creates r) SYNC_CONFIG (take i types)
    | None => false
    end) (seq 0 (length types)).

Lemma types_ok_spec types r :
  types_ok types r = true →
  ∃ l1 l2 l3 t suf, types = (l1 ++ creates r :: l2 ++ SYNC_CONFIG :: l3) ++ t :: suf ∧
    is_start t = true ∧ DEPLOY_FILTER_ROLE t = r ∧
    ∀ t', t' ∈ (l1 ++ creates r :: l2 ++ SYNC_CONFIG :: l3) ++ suf → starts r t' = false.
Proof.
  unfold types_ok. intros (i & _ & Hi)%existsb_exists. destruct (types !! i) as [t|] eqn:Ht; [|done].
  rewrite !andb_true_iff, bool_decide_eq_true in Hi.
  destruct Hi as (((Hs & Hr) & Hu) & (l1 & l2 & l3 & Hl)%in_order_spec).
  exists l1, l2, l3, t, (drop (S i) types). rewrite <-Hl.
  split; [symmetry; by apply take_drop_middle|]. split_and!; [done..|].
  intros t' Hin. rewrite forallb_forall in Hu. specialize (Hu t').
  rewrite <-list_elem_of_In in Hu. apply Hu in Hin. by apply negb_true_iff in Hin.
Qed.

(** The topologies the deploy playbooks are made for: those of the parser except the ones
    with etcd. *)
Definition deployable (dcs : list DeployConfig) : Prop :=
  match dcs with
  | [] => False
  | dc0 :: _ =>
      let has r := r ∈ GetRole <$> dcs in
      let only (l : list string) := ∀ dc, dc ∈ dcs → GetRole dc ∈ l in
      (GetKind dc0 = KIND_DINGOFS ∧ has ROLE_COORDINATOR ∧ only (DINGOFS_MDSV2_FOLLOW_ROLES ++ [ROLE_DINGODB_EXECUTOR])) ∨
      (GetKind dc0 = KIND_DINGOFS ∧ has ROLE_FS_MDS ∧ has ROLE_FS_MDS_CLI ∧ only DINGOFS_MDSV2_ONLY_ROLES) ∨
      (GetKind dc0 = KIND_DINGOSTORE ∧ only DINGOSTORE_ROLES) ∨
      (GetKind dc0 = KIND_DINGODB ∧ only DINGODB_ROLES)
  end.

(** [Contains] trims spaces; the roles have none. *)
Definition all_roles : list string := DINGOFS_ROLES ++ DINGOFS_MDSV2_ONLY_ROLES ++ DINGODB_ROLES.
Lemma Contains_role roles r :
  (∀ x, x ∈ roles → x ∈ all_roles) → r ∈ all_roles → Contains roles r = bool_decide (r ∈ roles).
Proof.
  intros Hr Hin.
  assert (Forall (λ x, TrimSpace x = x) all_roles) as Htrim.
  { apply (bool_decide_unpack _). vm_compute. exact I. }
  rewrite Forall_forall in Htrim. apply eq_bool_prop_intro. rewrite bool_decide_spec. unfold Contains.
  rewrite Is_true_true, existsb_exists. setoid_rewrite <-list_elem_of_In. setoid_rewrite bool_decide_eq_true.
  split.
  - intros (x & Hx & Ht). rewrite (Htrim x (Hr x Hx)), (Htrim r Hin) in Ht. by subst.
  - eauto.
Qed.

Lemma Contains_GetRoles dcs r (l : list string) :
  (∀ dc, dc ∈ dcs → GetRole dc ∈ l) → (∀ x, x ∈ l → x ∈ all_roles) → r ∈ all_roles →
  Contains (GetRoles dcs) r = bool_decide (r ∈ GetRole <$> dcs).
Proof.
  intros Hd Hl Hr. destruct (GetRoles_spec dcs) as [_ Hg]. rewrite Contains_role; [|by intros x (dc & Hdc & <-)%Hg; auto|done].
  apply bool_decide_ext. rewrite Hg, list_elem_of_fmap. naive_solver.
Qed.

(** The checks that every role has its steps, with and without the image step. *)
Definition roles_ok (steps : list StepType) (roles : list string) : bool :=
  forallb (λ r, types_ok steps r && types_ok (remove_pull steps) r) roles.

Lemma roles_ok_spec steps roles r :
  roles_ok steps roles = true → r ∈ roles → types_ok steps r = true ∧ types_ok (remove_pull steps) r = true.
Proof.
  intros H Hr. unfold roles_ok in H. rewrite forallb_forall in H. apply andb_true_iff, H.
  by apply list_elem_of_In.
Qed.

Ltac in_all := first
  [ apply (bool_decide_unpack _); vm_compute; exact I
  | apply (proj1 (Forall_forall (λ x, x ∈ all_roles) _)), (bool_decide_unpack _); vm_compute; exact I ].

Lemma deploy_steps_ok dcs :
  deployable dcs → ∃ steps, deploy_steps dcs = Ok steps ∧
    ∀ dc, dc ∈ dcs → types_ok steps (GetRole dc) = true ∧ types_ok (remove_pull steps) (GetRole dc) = true.
Proof.
  destruct dcs as [|dc0 l]; [done|]. unfold deployable, deploy_steps. set (dcs := dc0 :: l).
  assert (∀ steps roles, roles_ok steps roles = true → (∀ dc, dc ∈ dcs → GetRole dc ∈ roles) →
    ∀ dc, dc ∈ dcs → types_ok steps (GetRole dc) = true ∧ types_ok (remove_pull steps) (GetRole dc) = true) as Hok.
  { intros steps roles Hs Ho dc Hdc. eapply roles_ok_spec; eauto. }
  intros [(-> & Hc & Ho)|[(-> & Hm & Hmc & Ho)|[(-> & Ho)|(-> & Ho)]]]; simpl decide.
  - rewrite (Contains_GetRoles dcs ROLE_COORDINATOR _ Ho), bool_decide_true by first [done|in_all].
    rewrite (Contains_GetRoles dcs ROLE_DINGODB_EXECUTOR _ Ho) by in_all.
    case_bool_decide as He; eexists; (split; [reflexivity|]).
    + eapply Hok; [|exact Ho]. vm_compute. reflexivity.
    + apply (Hok _ DINGOFS_MDSV2_FOLLOW_ROLES); [vm_compute; reflexivity|]. intros dc Hdc.
      specialize (Ho dc Hdc) as [?|Hx]%elem_of_app; [done|].
      apply list_elem_of_singleton in Hx. destruct He. apply list_elem_of_fmap. eauto.
  - rewrite (Contains_GetRoles dcs ROLE_COORDINATOR _ Ho) by in_all.
    rewrite bool_decide_false.
    2: { intros (dc & Hr & Hdc)%list_elem_of_fmap. specialize (Ho dc Hdc). rewrite <-Hr in Ho. set_solver. }
    unfold ContainsList. simpl.
    rewrite !(Contains_GetRoles dcs _ _ Ho) by in_all.
    rewrite !bool_decide_true by done. simpl. eexists. split; [reflexivity|]. apply (Hok _ DINGOFS_MDSV2_ONLY_ROLES); [vm_compute; reflexivity|done].
  - eexists. split; [reflexivity|]. apply (Hok _ DINGOSTORE_ROLES); [vm_compute; reflexivity|done].
  - eexists. split; [reflexivity|]. apply (Hok _ DINGODB_ROLES); [vm_compute; reflexivity|done].
Qed.

Lemma deployable_role dcs dc : deployable dcs → dc ∈ dcs → GetRole dc ≠ "".
Proof.
  intros Hd Hdc. assert (GetRole dc ∈ all_roles) as Hr.
  { destruct dcs as [|dc0 l]; [done|].
    destruct Hd as [(_ & _ & Ho)|[(_ & _ & _ & Ho)|[(_ & Ho)|(_ & Ho)]]]; specialize (Ho dc Hdc);
      revert Ho; generalize (GetRole dc); apply Forall_forall; apply (bool_decide_unpack _); vm_compute; exact I. }
  revert Hr. generalize (GetRole dc). apply Forall_forall. apply (bool_decide_unpack _). vm_compute. exact I.
Qed.

(** The one service of its role comes first among them. *)
Lemma only_first dcs dc r :
  dc ∈ dcs → GetRole dc = r → (∀ dc', dc' ∈ dcs → GetRole dc' = r → dc' = dc) →
  dc ∈ take 1 (filter (λ d, GetRole d = r) dcs).
Proof.
  intros Hdc Hr Hu. assert (dc ∈ filter (λ d, GetRole d = r) dcs) as Hin by (by apply list_elem_of_filter).
  destruct (filter _ dcs) as [|d l] eqn:E; [by apply elem_of_nil in Hin|].
  assert (d ∈ filter (λ d, GetRole d = r) dcs) as [Hrd Hd]%list_elem_of_filter by (rewrite E; left).
  rewrite (Hu d Hd Hrd). simpl. left.
Qed.

(** ** Theorems *)

(** The deploy playbook of a topology is the list of the steps of its kind, in order
    and without the image step when the local image is used; each step has the services of
    its role, or all, and only the first when it is limited to one.  It exists unless a
    limited step has no service, which panics. *)
Theorem genDeployPlaybook_spec (md5 : string → string) (CC ANY : Type) (cli : DingoCli)
    (dcs : list DeployConfig) (o : deployOptions) (steps : list StepType) :
  deploy_steps dcs = Ok steps →
  let types := if o_useLocalImage o then remove_pull steps else steps in
  let mine t (dc : DeployConfig) := DEPLOY_FILTER_ROLE t = "" ∨ GetRole dc = DEPLOY_FILTER_ROLE t in
  let has_services := ∀ t, t ∈ types → DEPLOY_LIMIT_SERVICE t ≠ 0 → ∃ dc, dc ∈ dcs ∧ mine t dc in
  let configs t := if decide (DEPLOY_LIMIT_SERVICE t = 0) then filter (mine t) dcs
                   else take (DEPLOY_LIMIT_SERVICE t) (filter (mine t) dcs) in
  (has_services → genDeployPlaybook md5 (CC := CC) (ANY := ANY) cli dcs o =
     Ok (mkPlaybook ((λ t, mkStep t (DeployConfigs (configs t)) ∅ no_options) <$> types) [])) ∧
  (¬ has_services → genDeployPlaybook md5 (CC := CC) (ANY := ANY) cli dcs o = Panic).
Proof.
  intros Hs types mine has_services configs.
  assert (∀ t, of_role t dcs = filter (mine t) dcs) as Hrole.
  { intros t. unfold of_role, mine. case_decide as Ht.
    - symmetry. apply filter_all. intros dc _. by left.
    - apply list_filter_iff. tauto. }
  assert (Forall (served dcs) types ↔ has_services) as Hiff.
  { rewrite Forall_forall. unfold served, has_services. setoid_rewrite Hrole.
    assert (∀ t, filter (mine t) dcs ≠ [] ↔ ∃ dc, dc ∈ dcs ∧ mine t dc) as Hne.
    { intros t. split.
      - destruct (filter (mine t) dcs) as [|dc l] eqn:E; [done|]. intros _. exists dc.
        assert (dc ∈ filter (mine t) dcs) as Hin by (rewrite E; left).
        by apply list_elem_of_filter in Hin as [? ?].
      - intros (dc & Hdc & Hm) Hnil. assert (dc ∈ filter (mine t) dcs) as Hin by (by apply list_elem_of_filter).
        rewrite Hnil in Hin. by apply elem_of_nil in Hin. }
    setoid_rewrite Hne. done. }
  rewrite genDeployPlaybook_eq. unfold deploy_types. rewrite Hs. cbn [mbind res_bind]. fold types.
  split.
  - intros Hh. rewrite decide_True by (by apply Hiff). do 2 f_equal. apply list_fmap_ext. intros _ t _.
    unfold plan_step, limited, configs. by rewrite Hrole.
  - intros Hh. rewrite decide_False; [done|]. by rewrite Hiff.
Qed.

(** C9: deploying starts everything, once, in time.  In the playbook of a topology of mds,
    coordinators and stores, of mds alone, of a dingo-store or of a dingodb, every service
    is in exactly one of the steps that start services (all the types the factory starts
    services for), the one of its role with all services of the role; before it come, in
    this order, the step that creates the container of the service - the mds client, of
    which there is to be only one, has a step of its own for that - and the one that
    writes the configuration of all services. *)
Theorem deploy_starts_all (md5 : string → string) (CC ANY : Type) (cli : DingoCli)
    (dcs : list DeployConfig) (o : deployOptions) (pb : Playbook (CC := CC) (ANY := ANY)) (dc : DeployConfig) :
  deployable dcs → genDeployPlaybook md5 cli dcs o = Ok pb → dc ∈ dcs →
  (GetRole dc = ROLE_FS_MDS_CLI → ∀ dc', dc' ∈ dcs → GetRole dc' = ROLE_FS_MDS_CLI → dc' = dc) →
  ∃ pre1 c pre2 y pre3 s suf,
    let pre := pre1 ++ c :: pre2 ++ y :: pre3 in
    pb_steps pb = pre ++ s :: suf ∧
    is_start (Type_ s) = true ∧ Configs s = DeployConfigs (filter (λ d, GetRole d = GetRole dc) dcs) ∧
    (∀ s' l, s' ∈ pre ++ suf → is_start (Type_ s') = true → Configs s' = DeployConfigs l → dc ∉ l) ∧
    Type_ c = creates (GetRole dc) ∧ (∃ l, Configs c = DeployConfigs l ∧ dc ∈ l) ∧
    Type_ y = SYNC_CONFIG ∧ Configs y = DeployConfigs dcs.
Proof.
  intros Hd Hpb Hdc Hcli. destruct (deploy_steps_ok dcs Hd) as (steps & Hs & Hok).
  rewrite genDeployPlaybook_eq in Hpb. unfold deploy_types in Hpb. rewrite Hs in Hpb. cbn [mbind res_bind] in Hpb.
  set (types := if o_useLocalImage o then remove_pull steps else steps) in *.
  case_decide; [|done]. injection Hpb as <-. cbn [pb_steps].
  assert (types_ok types (GetRole dc) = true) as Hty.
  { unfold types. destruct (Hok dc Hdc). by destruct (o_useLocalImage o). }
  apply types_ok_spec in Hty as (l1 & l2 & l3 & t & suf & -> & Hstart & Hrole & Hu).
  exists (plan_step dcs <$> l1), (plan_step dcs (creates (GetRole dc))), (plan_step dcs <$> l2),
    (plan_step dcs SYNC_CONFIG), (plan_step dcs <$> l3), (plan_step dcs t), (plan_step dcs <$> suf).
  cbv zeta. split; [by rewrite !fmap_app, !fmap_cons, !fmap_app|]. split; [done|]. split.
  { unfold plan_step, limited, of_role. simpl. rewrite (start_limit t), decide_True, Hrole by done.
    rewrite decide_False; [done|]. intros Hr. pose proof (deployable_role dcs dc Hd Hdc) as Hne. by destruct Hne. }
  split.
  { intros s' l Hin Hs' Hl Hdl.
    assert (s' ∈ plan_step dcs <$> ((l1 ++ creates (GetRole dc) :: l2 ++ SYNC_CONFIG :: l3) ++ suf))
      as (t' & -> & Hin')%list_elem_of_fmap by (by rewrite !fmap_app, !fmap_cons, !fmap_app).
    injection Hl as <-. apply limited_starts in Hdl as [_ Hdl]; [|done]. by rewrite (Hu t' Hin') in Hdl. }
  split_and!; [done| |done|done].
  eexists. split; [reflexivity|]. unfold creates. case_decide as Hc; [|done].
  unfold limited, of_role. simpl.
  apply only_first; [done..|]. intros dc' Hin Hr. by apply Hcli.
Qed.

(** A dingofs topology without coordinators and without the mds client, which is what
    the parser makes of a topology with etcd, gets a playbook without steps: deploying it
    does nothing and reports success. *)
Theorem deploy_etcd_does_nothing (md5 : string → string) {W SSHConfig Client CC ANY : Type}
    (ssh : SSH W SSHConfig Client) (bar_id : nat → nat) (o : MapOrder) (srt : SliceSort)
    (mem_set : string → optval → W → W)
    (new_task : StepType → arg CC ANY → eff error W (option (Task W SSHConfig Client)))
    (cli : DingoCli) (dcs : list DeployConfig) (opts : deployOptions) (w : W) :
  o_insecure opts = true → o_skip opts = [] → dcs ≠ [] →
  (∀ dc, dc ∈ dcs → GetKind dc = KIND_DINGOFS ∧ GetRole dc ∈ DINGOFS_ROLES ∧ GetRole dc ≠ ROLE_COORDINATOR) →
  runDeploy md5 ssh bar_id mem_set new_task cli dcs opts w w (Returned None) ∧
  ∀ w' out, runDeploy md5 ssh bar_id mem_set new_task cli dcs opts w w' out → w' = w ∧ out = Returned None.
Proof.
  intros Hins Hskip Hne Hroles.
  assert (skipServiceRole dcs opts = dcs) as Hsk.
  { unfold skipServiceRole. rewrite Hskip. by apply filter_all. }
  assert (precheckBeforeDeploy md5 (CC := CC) (ANY := ANY) cli dcs opts = Ok None) as Hpre.
  { unfold precheckBeforeDeploy. by rewrite Hins. }
  assert (genDeployPlaybook md5 (CC := CC) (ANY := ANY) cli dcs opts = Ok NewPlaybook) as Hgen.
  { rewrite genDeployPlaybook_eq. unfold deploy_types, deploy_steps.
    assert (∀ r, r ∈ all_roles → (∀ dc, dc ∈ dcs → GetRole dc ≠ r) → Contains (GetRoles dcs) r = false) as Hno.
    { intros r Hr Hno. rewrite (Contains_GetRoles dcs r DINGOFS_ROLES); [|naive_solver|in_all|done].
      apply bool_decide_false. intros (dc & Hx & Hdc)%list_elem_of_fmap. by apply (Hno dc). }
    destruct dcs as [|dc0 l]; [done|]. destruct (Hroles dc0) as [-> _]; [left|]. simpl decide.
    rewrite Hno; [|in_all|by intros dc (_ & _ & ?)%Hroles]. unfold ContainsList. cbn [forallb].
    rewrite (Hno ROLE_FS_MDS_CLI), andb_false_r; [|in_all|].
    - destruct (o_useLocalImage opts); done.
    - intros dc (_ & Hr & _)%Hroles Hx. rewrite Hx in Hr. revert Hr. apply (bool_decide_unpack _). vm_compute. exact I. }
  assert (∀ w' out, Run ssh bar_id mem_set new_task (NewPlaybook (CC := CC) (ANY := ANY)) w w' out →
            w' = w ∧ out = Returned None) as Hrun.
  { intros w' out [w0 w1 out0 Hr _|w0 w1 out0 w2 out2 _ Hp _]; [|done]. by inversion Hr. }
  split.
  - eapply deploy_runs with (ob := None); rewrite ?Hsk; [exact Hpre|done|exact Hgen|].
    apply Run_plain; [constructor|done].
  - intros w' out Hd. inversion Hd as [out0 Hb|pb w1 out0 Hb|ob w1 out0 Hb Hob Hg|ob pb w1 w2 out0 Hb Hob Hg Hr]; subst;
      rewrite Hsk, ?Hpre in *; simpl in *; try done; simplify_eq; rewrite Hgen in *; simpl in *; try done.
    simplify_eq. by apply Hrun.
Qed.

(** ** Samples *)

Definition sample_cluster : list DeployConfig :=
  [sample_dc "h1" ROLE_COORDINATOR; sample_dc "h1" ROLE_STORE; sample_dc "h2" ROLE_STORE;
   sample_dc "h1" ROLE_FS_MDS; sample_dc "h1" ROLE_FS_MDS_CLI].
Definition default_deploy : deployOptions := mkDeployOptions [] true false.
Definition plan_view (pb : Playbook (CC := unit) (ANY := unit) (OPT := optval)) : list (StepType * list string) :=
  (λ s, (Type_ s, match Configs s with DeployConfigs l => GetId <$> l | _ => [] end)) <$> pb_steps pb.
Definition sample_plan (dcs : list DeployConfig) (o : deployOptions) :=
  genDeployPlaybook (λ s, s) (CC := unit) (ANY := unit) sample_cli dcs o.

Lemma genDeployPlaybook_spec_witness :
  deploy_steps sample_cluster = Ok (take 11 DINGOFS_MDSV2_FOLLOW_DEPLOY_STEPS) ∧
  plan_view <$> sample_plan (drop 3 sample_cluster) (mkDeployOptions [] false true) =
    Ok [(CLEAN_PRECHECK_ENVIRONMENT, ["mds_h1"; "mds-client_h1"]); (CREATE_CONTAINER, ["mds_h1"; "mds-client_h1"]);
        (CREATE_MDSV2_CLI_CONTAINER, ["mds-client_h1"]); (SYNC_CONFIG, ["mds_h1"; "mds-client_h1"]);
        (START_MDSV2_CLI_CONTAINER, ["mds-client_h1"]); (CREATE_META_TABLES, ["mds-client_h1"]);
        (START_FS_MDS, ["mds_h1"])] ∧
  sample_plan [sample_dc "h1" ROLE_COORDINATOR] default_deploy = Panic.
Proof.
  split; [vm_compute; reflexivity|]. split; [vm_compute; reflexivity|].
  refine (proj2 (genDeployPlaybook_spec (λ s, s) unit unit sample_cli [sample_dc "h1" ROLE_COORDINATOR]
    default_deploy (take 11 DINGOFS_MDSV2_FOLLOW_DEPLOY_STEPS) _) _).
  - vm_compute. reflexivity.
  - intros H. destruct (H CHECK_STORE_HEALTH) as (dc & Hdc & Hm).
    + apply (bool_decide_unpack _). vm_compute. exact I.
    + discriminate.
    + apply list_elem_of_singleton in Hdc as ->. destruct Hm as [Hm|Hm]; discriminate Hm.
Defined.

Lemma deploy_starts_all_witness :
  let pb := res_get NewPlaybook (sample_plan sample_cluster default_deploy) in
  (START_MDSV2_CLI_CONTAINER, ["mds-client_h1"]) ∈ plan_view pb ∧
  ∃ pre1 c pre2, Type_ c = CREATE_MDSV2_CLI_CONTAINER ∧ prefix (pre1 ++ c :: pre2) (pb_steps pb) ∧
    ∃ l, Configs c = DeployConfigs l ∧ sample_dc "h1" ROLE_FS_MDS_CLI ∈ l.
Proof.
  intros pb. split; [apply (bool_decide_unpack _); vm_compute; exact I|].
  destruct (deploy_starts_all (λ s, s) unit unit sample_cli sample_cluster default_deploy pb
    (sample_dc "h1" ROLE_FS_MDS_CLI)) as (pre1 & c & pre2 & y & pre3 & s & suf & H1 & _ & _ & _ & H2 & H3 & _).
  - left. split; [reflexivity|]. split; [apply (bool_decide_unpack _); vm_compute; exact I|].
    apply (proj1 (Forall_forall (λ dc, GetRole dc ∈ DINGOFS_MDSV2_FOLLOW_ROLES ++ [ROLE_DINGODB_EXECUTOR]) sample_cluster)).
    apply (bool_decide_unpack _). vm_compute. exact I.
  - apply res_get_Ok. vm_compute. reflexivity.
  - right. right. right. right. left.
  - intros _ dc' Hin Hr.
    repeat (apply elem_of_cons in Hin as [->|Hin]; [first [reflexivity|vm_compute in Hr; discriminate Hr]|]).
    by apply elem_of_nil in Hin.
  - exists pre1, c, pre2. split; [exact H2|]. split; [|exact H3].
    exists (y :: pre3 ++ s :: suf). rewrite H1, <-!(assoc_L (++)). simpl. by rewrite <-!(assoc_L (++)).
Defined.

Lemma deploy_etcd_does_nothing_witness :
  runDeploy (CC := unit) (ANY := unit) (H := canonical_order) (H0 := merge_slice_sort) (λ s, s) sample_ssh
    Datatypes.id (λ _ _ w, w) (sample_new UNKNOWN) sample_cli [sample_dc "h1" ROLE_ETCD; sample_dc "h2" ROLE_FS_MDS]
    default_deploy 5 5 (Returned None).
Proof.
  refine (proj1 (deploy_etcd_does_nothing (λ s, s) sample_ssh Datatypes.id canonical_order merge_slice_sort
    (λ _ _ w, w) (sample_new UNKNOWN) sample_cli [sample_dc "h1" ROLE_ETCD; sample_dc "h2" ROLE_FS_MDS]
    default_deploy 5 eq_refl eq_refl _ _)).
  - discriminate.
  - apply (proj1 (Forall_forall (λ dc, GetKind dc = KIND_DINGOFS ∧ GetRole dc ∈ DINGOFS_ROLES ∧ GetRole dc ≠ ROLE_COORDINATOR) _)).
    apply (bool_decide_unpack _). vm_compute. exact I.
Defined.
