(* ===== verification/ServiceCmd.v ===== *)
(** The commands that work on the services of a cluster (src/cli/command/cluster: start.go,
    stop.go, restart.go, clean.go, upgrade.go, and the playbook of status.go).

    A command selects services, makes a playbook for them and, once it is confirmed, runs
    it.  The answer of the user is an argument. *)

From S2P Require Import Prelude Errno GoLib Utils Vars DeployConfig Topology TopologyParse TopologySamples Hosts Cli Monitor Tasks TasksFacts Playbook PlaybookFacts Deploy DeployFacts.

Record serviceOptions : Type := mkServiceOptions {
  s_id : string; s_role : string; s_host : string; s_force : bool }.

Definition CLEAN_ITEM_LOG : string := "log".
Definition CLEAN_ITEM_DATA : string := "data".
Definition CLEAN_ITEM_CONTAINER : string := "container".
Definition CLEAN_ITEM_RAFT : string := "raft".
Definition CLEAN_ITEM_DOC : string := "doc".
Definition CLEAN_ITEM_VECTOR : string := "vector".
Definition CLEAN_ITEMS : list string :=
  [CLEAN_ITEM_LOG; CLEAN_ITEM_DATA; CLEAN_ITEM_CONTAINER; CLEAN_ITEM_RAFT; CLEAN_ITEM_DOC; CLEAN_ITEM_VECTOR].
Definition KEY_CLEAN_ITEMS : string := "CLEAN_ITEMS".
Definition KEY_CLEAN_BY_RECYCLE : string := "CLEAN_BY_RECYCLE".
Definition KEY_SKIP_MDSV2_CLI : string := "SKIP_MDSV2_CLI".
Definition KEY_UPGRADE_FLAG : string := "UPGRADE_FLAG".

(** The three checks of [checkCommonOptions] are the ones of the command line (Cli.v). *)
Definition check_item (key : string) (callback : string → res error unit) : res error unit :=
  if decide (key = "*") then Ok tt else callback key.
Definition checkCommonOptions (CheckId CheckRole CheckHost : string → res error unit)
    (id role host : string) : res error unit :=
  _ ← check_item id CheckId; _ ← check_item role CheckRole; check_item host CheckHost.

Record cleanOptions : Type := mkCleanOptions {
  c_options : serviceOptions; c_only : list string; c_withoutRecycle : bool }.

Definition checkCleanOptions (CheckId CheckRole CheckHost : string → res error unit) (o : cleanOptions)
    : res error unit :=
  let supported := Slice2Map CLEAN_ITEMS in
  _ ← fold_res (λ _ item, if in_map supported item then Ok tt else Err (ECode ERR_UNSUPPORT_CLEAN_ITEM))
        (c_only o) tt;
  checkCommonOptions CheckId CheckRole CheckHost (s_id (c_options o)) (s_role (c_options o)) (s_host (c_options o)).

(** Removing the first occurrence. *)
Fixpoint remove_item (item : string) (l : list string) : list string :=
  match l with
  | [] => []
  | x :: l => if decide (x = item) then l else x :: remove_item item l
  end.

(** The items that are cleaned: those the roles have. *)
Definition clean_items (roles only : list string) : list string :=
  let only := if Existed roles [ROLE_COORDINATOR; ROLE_STORE; ROLE_DINGODB_DOCUMENT; ROLE_DINGODB_INDEX]
              then only else remove_item CLEAN_ITEM_RAFT only in
  let only := if Contains roles ROLE_DINGODB_DOCUMENT then only else remove_item CLEAN_ITEM_DOC only in
  if Contains roles ROLE_DINGODB_INDEX then only else remove_item CLEAN_ITEM_VECTOR only.

Definition UPGRADE_PLAYBOOK_STEPS : list StepType :=
  [PULL_IMAGE; STOP_SERVICE; CLEAN_SERVICE; CREATE_CONTAINER; SYNC_CONFIG; START_SERVICE].
Definition UPGRADE_STORE_FS_STEPS : list StepType :=
  [PULL_IMAGE; STOP_SERVICE; CLEAN_SERVICE; CREATE_CONTAINER; SYNC_CONFIG; START_COORDINATOR;
   START_STORE; CHECK_STORE_HEALTH; START_FS_MDS; START_DINGODB_EXECUTOR].
(** The two slices are variables of the program. *)
Record stepVars : Type := mkStepVars { v_playbook_steps : list StepType; v_store_fs_steps : list StepType }.
Definition initial_steps : stepVars := mkStepVars UPGRADE_PLAYBOOK_STEPS UPGRADE_STORE_FS_STEPS.
(** [append(steps[:i], steps[i+1:]...)] moves the rest of the shared array one place to the
    left; the variable keeps its length, so its last element stays where it was. *)
Definition pull_removed (steps : list StepType) : list StepType :=
  remove_pull steps ++ drop (length (remove_pull steps)) steps.
(** The steps of an upgrade, and the variables afterwards. *)
Definition upgrade_steps (v : stepVars) (mds_cli useLocalImage : bool) : list StepType * stepVars :=
  let steps := if mds_cli then v_store_fs_steps v else v_playbook_steps v in
  if useLocalImage then
    (remove_pull steps, if mds_cli then mkStepVars (v_playbook_steps v) (pull_removed steps)
                        else mkStepVars (pull_removed steps) (v_store_fs_steps v))
  else (steps, v).
Definition GET_STATUS_PLAYBOOK_STEPS : list StepType := [INIT_SERVIE_STATUS; GET_SERVICE_STATUS].

Section commands.
Context (md5 : string → string) {CC ANY : Type}.
Notation Playbook := (Playbook (CC := CC) (ANY := ANY) (OPT := optval)).

(** The services the options select. *)
Definition selected (cli : DingoCli) (dcs : list DeployConfig) (id role host : string)
    : res error (list DeployConfig) :=
  let dcs := FilterDeployConfig md5 cli dcs (mkFilterOption id role host) in
  if decide (length dcs = 0) then Err (ECode ERR_NO_SERVICES_MATCHED) else Ok dcs.

(** [genStartPlaybook], [genStopPlaybook], [genRestartPlaybook]: one step. *)
Definition genServicePlaybook (steps : list StepType) (cli : DingoCli) (dcs : list DeployConfig)
    (o : serviceOptions) : res error Playbook :=
  dcs ← selected cli dcs (s_id o) (s_role o) (s_host o);
  Ok (foldl (λ pb s, pb_AddStep pb (mkStep s (DeployConfigs dcs) ∅ no_options)) NewPlaybook steps).
Definition genStartPlaybook := genServicePlaybook [START_SERVICE].
Definition genStopPlaybook := genServicePlaybook [STOP_SERVICE].
Definition genRestartPlaybook := genServicePlaybook [RESTART_SERVICE].

Definition genCleanPlaybook (cli : DingoCli) (dcs : list DeployConfig) (o : cleanOptions)
    : res error Playbook :=
  let so := c_options o in
  dcs ← selected cli dcs (s_id so) (s_role so) (s_host so);
  let only := clean_items (GetRoles dcs) (c_only o) in
  let steps := if Contains only CLEAN_ITEM_CONTAINER then [STOP_SERVICE; CLEAN_SERVICE] else [CLEAN_SERVICE] in
  Ok (foldl (λ pb s, pb_AddStep pb (mkStep s (DeployConfigs dcs)
        (list_to_map [(KEY_CLEAN_ITEMS, OStrings only); (KEY_CLEAN_BY_RECYCLE, OBool (negb (c_withoutRecycle o)))])
        no_options)) NewPlaybook steps).

(** The loop that removes the mds clients. *)
Fixpoint without_mds_cli (dcs : list DeployConfig) : list DeployConfig :=
  match dcs with
  | [] => []
  | dc :: l => if decide (GetRole dc = ROLE_FS_MDS_CLI) then without_mds_cli l else dc :: without_mds_cli l
  end.
Definition genStatusPlaybook (cli : DingoCli) (dcs : list DeployConfig) (id role host : string)
    : res error Playbook :=
  let dcs := without_mds_cli (FilterDeployConfig md5 cli dcs (mkFilterOption id role host)) in
  if decide (length dcs = 0) then Err (ECode ERR_NO_SERVICES_MATCHED) else
  Ok (foldl (λ pb s, pb_AddStep pb (mkStep s (DeployConfigs dcs) ∅
        (mkExecOptions 0 (bool_decide (s = INIT_SERVIE_STATUS)) true true))) NewPlaybook
        GET_STATUS_PLAYBOOK_STEPS).

(** [genUpgradePlaybook]: a step whose role has no service is left out. *)
Definition upgrade_step (cli : DingoCli) (dcs : list DeployConfig) (pb : Playbook) (s : StepType)
    : res error Playbook :=
  let r := DEPLOY_FILTER_ROLE s in
  let stepDcs := if decide (r = "") then dcs else FilterDeployConfigByRole md5 cli dcs r in
  if decide (r ≠ "" ∧ length stepDcs = 0) then Ok pb else
  stepDcs ← (if decide (DEPLOY_LIMIT_SERVICE s = 0) then Ok stepDcs
             else slice_to stepDcs (DEPLOY_LIMIT_SERVICE s));
  Ok (pb_AddStep pb (mkStep s (DeployConfigs stepDcs)
        (list_to_map [(KEY_CLEAN_ITEMS, OStrings [CLEAN_ITEM_CONTAINER]); (KEY_CLEAN_BY_RECYCLE, OBool true);
                      (KEY_SKIP_MDSV2_CLI, OBool true); (KEY_UPGRADE_FLAG, OBool true)]) no_options)).
Definition genUpgradePlaybook (v : stepVars) (cli : DingoCli) (dcs : list DeployConfig)
    (o : serviceOptions) (useLocalImage : bool) : res error (Playbook * stepVars) :=
  dcs ← selected cli dcs (s_id o) (s_role o) (s_host o);
  let '(steps, v) := upgrade_steps v (Contains (GetRoles dcs) ROLE_FS_MDS_CLI) useLocalImage in
  pb ← fold_res (upgrade_step cli dcs) steps NewPlaybook;
  Ok (pb, v).

(** [runStart], [runStop], [runRestart], [runClean] on the parsed topology: the playbook
    they run, unless the user does not confirm. *)
Definition confirm (force answer : bool) (pb : Playbook) : res error Playbook :=
  if force || answer then Ok pb else Err (ECode ERR_CANCEL_OPERATION).
Definition start_plan (cli : DingoCli) (dcs : list DeployConfig) (o : serviceOptions) (answer : bool) :=
  pb ← genStartPlaybook cli dcs o; confirm (s_force o) answer pb.
Definition stop_plan (cli : DingoCli) (dcs : list DeployConfig) (o : serviceOptions) (answer : bool) :=
  pb ← genStopPlaybook cli dcs o; confirm (s_force o) answer pb.
Definition restart_plan (cli : DingoCli) (dcs : list DeployConfig) (o : serviceOptions) (answer : bool) :=
  pb ← genRestartPlaybook cli dcs o; confirm (s_force o) answer pb.
Definition clean_plan (cli : DingoCli) (dcs : list DeployConfig) (o : cleanOptions) (answer : bool) :=
  pb ← genCleanPlaybook cli dcs o; confirm (s_force (c_options o)) answer pb.
End commands.

Section run.
Context {W SSHConfig Client CC ANY : Type} (md5 : string → string).
Context (ssh : SSH W SSHConfig Client) (bar_id : nat → nat).
Context `{MapOrder} `{SliceSort}.
Context (mem_set : string → optval → W → W)
  (new_task : StepType → arg CC ANY → eff error W (option (Task W SSHConfig Client))).
Notation Run := (Run (CC := CC) (ANY := ANY) ssh bar_id mem_set new_task).

(** Running the playbook of a plan. *)
Inductive runs_plan (plan : res error (Playbook (CC := CC) (ANY := ANY) (OPT := optval))) (w : W)
    : W → outcome → Prop :=
| plan_fails out : of_res plan = inl out → runs_plan plan w w out
| plan_runs pb w' out : plan = Ok pb → Run pb w w' out → runs_plan plan w w' out.

(** [upgradeOneByOne] and [runUpgrade]; [answers] are the confirmations, one per service. *)
Inductive upgrade_each (cli : DingoCli) (o : serviceOptions) (useLocalImage : bool)
    : stepVars → list DeployConfig → list bool → W → W → outcome → Prop :=
| each_nil v answers w : upgrade_each cli o useLocalImage v [] answers w w (Returned None)
| each_cancel v dc l answers w :
    head answers ≠ Some true →
    upgrade_each cli o useLocalImage v (dc :: l) answers w w
      (Returned (Some (EOther (ECode ERR_CANCEL_OPERATION))))
| each_stop v dc l answers w w' out :
    runs_plan (fst <$> genUpgradePlaybook md5 v cli [dc] o useLocalImage) w w' out → out ≠ Returned None →
    upgrade_each cli o useLocalImage v (dc :: l) (true :: answers) w w' out
| each_next v v' pb dc l answers w w1 w2 out :
    genUpgradePlaybook md5 v cli [dc] o useLocalImage = Ok (pb, v') →
    Run pb w w1 (Returned None) →
    upgrade_each cli o useLocalImage v' l answers w1 w2 out →
    upgrade_each cli o useLocalImage v (dc :: l) (true :: answers) w w2 out.

Inductive runUpgrade (cli : DingoCli) (dcs : list DeployConfig) (o : serviceOptions)
    (useLocalImage : bool) (answers : list bool) (w : W) : W → outcome → Prop :=
| upgrade_none out :
    of_res (selected md5 cli dcs (s_id o) (s_role o) (s_host o)) = inl out →
    runUpgrade cli dcs o useLocalImage answers w w out
| upgrade_at_once l w' out :
    selected md5 cli dcs (s_id o) (s_role o) (s_host o) = Ok l → s_force o = true →
    runs_plan (fst <$> genUpgradePlaybook md5 initial_steps cli l o useLocalImage) w w' out →
    runUpgrade cli dcs o useLocalImage answers w w' out
| upgrade_one_by_one l w' out :
    selected md5 cli dcs (s_id o) (s_role o) (s_host o) = Ok l → s_force o = false →
    upgrade_each cli o useLocalImage initial_steps l answers w w' out →
    runUpgrade cli dcs o useLocalImage answers w w' out.
End run.

(** ** Lemmas *)

Lemma remove_item_elem item l x :
  NoDup l → x ∈ remove_item item l ↔ x ∈ l ∧ x ≠ item.
Proof.
  induction l as [|y l IH]; intros Hnd; simpl.
  { rewrite elem_of_nil. tauto. }
  apply NoDup_cons in Hnd as [Hy Hnd]. case_decide as Hd.
  - subst. rewrite elem_of_cons. split; [intros Hx; split; [by right|congruence]|naive_solver].
  - rewrite !elem_of_cons, IH by done. naive_solver.
Qed.

Lemma NoDup_remove_item item l : NoDup l → NoDup (remove_item item l).
Proof.
  induction l as [|y l IH]; intros Hnd; simpl; [done|]. apply NoDup_cons in Hnd as [Hy Hnd].
  case_decide; [done|]. apply NoDup_cons. split; [|auto]. rewrite remove_item_elem by done. tauto.
Qed.

Lemma without_mds_cli_filter dcs :
  without_mds_cli dcs = filter (λ dc, GetRole dc ≠ ROLE_FS_MDS_CLI) dcs.
Proof.
  induction dcs as [|dc l IH]; simpl; [done|]. rewrite filter_cons.
  case_decide; case_decide; congruence.
Qed.

Lemma Existed_roles roles l :
  (∀ x, x ∈ roles → x ∈ all_roles) → (∀ r, r ∈ l → r ∈ all_roles) →
  Existed roles l = true ↔ ∃ r, r ∈ l ∧ r ∈ roles.
Proof.
  intros Hr Hl. unfold Existed. rewrite existsb_exists. setoid_rewrite <-list_elem_of_In. split.
  - intros (r & Hin & Hc). rewrite Contains_role in Hc by auto. apply bool_decide_eq_true in Hc. eauto.
  - intros (r & Hin & Hc). exists r. split; [done|]. rewrite Contains_role by auto. by apply bool_decide_eq_true.
Qed.

Section facts.
Context (md5 : string → string) {CC ANY : Type}.
Notation Playbook := (Playbook (CC := CC) (ANY := ANY) (OPT := optval)).

Lemma add_steps_fold (f : StepType → PlaybookStep (CC := CC) (ANY := ANY) (OPT := optval)) steps pb :
  foldl (λ pb s, pb_AddStep pb (f s)) pb steps = mkPlaybook (pb_steps pb ++ (f <$> steps)) (pb_postSteps pb).
Proof.
  revert pb; induction steps as [|s steps IH]; intros pb; simpl.
  - rewrite app_nil_r. by destruct pb.
  - rewrite IH. simpl. by rewrite <-app_assoc.
Qed.

Lemma selected_Ok cli dcs id role host l :
  selected md5 cli dcs id role host = Ok l ↔
  l = filter (λ dc, matches md5 cli (mkFilterOption id role host) dc = true) dcs ∧ l ≠ [].
Proof.
  unfold selected, FilterDeployConfig. case_decide as Hd.
  - apply nil_length_inv in Hd. rewrite Hd. split; [done|]. by intros [-> ?].
  - split; [intros [= <-]; split; [done|]|by intros [-> _]]. intros Hn. by rewrite Hn in Hd.
Qed.

(** The steps of an upgrade that have services. *)
Definition upgrade_types (dcs : list DeployConfig) (steps : list StepType) : list StepType :=
  filter (λ s, DEPLOY_FILTER_ROLE s = "" ∨ of_role s dcs ≠ []) steps.
Definition upgrade_opts : gmap string optval :=
  list_to_map [(KEY_CLEAN_ITEMS, OStrings [CLEAN_ITEM_CONTAINER]); (KEY_CLEAN_BY_RECYCLE, OBool true);
               (KEY_SKIP_MDSV2_CLI, OBool true); (KEY_UPGRADE_FLAG, OBool true)].

Definition upgrade_plan (dcs : list DeployConfig) (s : StepType) : PlaybookStep (CC := CC) (ANY := ANY) (OPT := optval) :=
  mkStep s (DeployConfigs (limited s dcs)) upgrade_opts no_options.

Lemma upgrade_step_eq cli dcs (pb : Playbook) s :
  dcs ≠ [] →
  upgrade_step md5 cli dcs pb s =
  Ok (if decide (DEPLOY_FILTER_ROLE s = "" ∨ of_role s dcs ≠ []) then pb_AddStep pb (upgrade_plan dcs s) else pb).
Proof.
  intros Hne. unfold upgrade_step. cbv zeta.
  rewrite FilterDeployConfigByRole_spec by apply filter_role_star. fold (of_role s dcs).
  destruct (decide (DEPLOY_FILTER_ROLE s ≠ "" ∧ length (of_role s dcs) = 0)) as [[Hr Hl]|Hd].
  - apply nil_length_inv in Hl. rewrite decide_False; [done|]. tauto.
  - assert (of_role s dcs ≠ []) as Hs.
    { intros Hn. apply Hd. rewrite Hn. split; [|done]. intros Hr. unfold of_role in Hn. by rewrite decide_True in Hn. }
    rewrite (decide_True _ _ (P := _ ∨ _)) by auto.
    assert ((if decide (DEPLOY_LIMIT_SERVICE s = 0) then Ok (of_role s dcs)
             else slice_to (of_role s dcs) (DEPLOY_LIMIT_SERVICE s))
            = Ok (limited s dcs)) as ->; [|done].
    unfold limited. case_decide; [done|]. unfold slice_to. rewrite decide_True; [done|].
    pose proof (limit_le s). destruct (of_role s dcs); simpl; [done|lia].
Qed.

Lemma upgrade_fold cli dcs steps (pb : Playbook) :
  dcs ≠ [] →
  fold_res (upgrade_step md5 cli dcs) steps pb =
  Ok (mkPlaybook (pb_steps pb ++ (upgrade_plan dcs <$> upgrade_types dcs steps)) (pb_postSteps pb)).
Proof.
  intros Hne. revert pb; induction steps as [|s steps IH]; intros pb; cbn [fold_res].
  { unfold upgrade_types. simpl. rewrite app_nil_r. by destruct pb. }
  rewrite upgrade_step_eq by done. cbn [mbind res_bind]. rewrite IH. unfold upgrade_types.
  rewrite filter_cons. case_decide; [|done]. simpl. by rewrite <-app_assoc.
Qed.

Lemma genUpgradePlaybook_eq v cli dcs sel o useLocalImage :
  selected md5 cli dcs (s_id o) (s_role o) (s_host o) = Ok sel → sel ≠ [] →
  genUpgradePlaybook md5 (CC := CC) (ANY := ANY) v cli dcs o useLocalImage =
  let sv := upgrade_steps v (Contains (GetRoles sel) ROLE_FS_MDS_CLI) useLocalImage in
  Ok (mkPlaybook (upgrade_plan sel <$> upgrade_types sel sv.1) [], sv.2).
Proof.
  intros Hsel Hne. unfold genUpgradePlaybook. rewrite Hsel. cbn [mbind res_bind].
  destruct (upgrade_steps _ _ _) as [steps v']. by rewrite upgrade_fold.
Qed.
End facts.

Definition raft_roles : list string :=
  [ROLE_COORDINATOR; ROLE_STORE; ROLE_DINGODB_DOCUMENT; ROLE_DINGODB_INDEX].

Lemma drop_item_elem (b : bool) item l :
  NoDup l → NoDup (if b then l else remove_item item l) ∧
  ∀ x, x ∈ (if b then l else remove_item item l) ↔ x ∈ l ∧ (x = item → b = true).
Proof.
  intros Hl. destruct b; (split; [by try apply NoDup_remove_item|]); intros x; [tauto|].
  rewrite remove_item_elem by done. split; [intros [? ?]; by split|]. intros [? Hi]. split; [done|].
  intros ->. by specialize (Hi eq_refl).
Qed.

Lemma clean_items_elem roles only x :
  (∀ r, r ∈ roles → r ∈ all_roles) → NoDup only →
  x ∈ clean_items roles only ↔ x ∈ only ∧
    (x = CLEAN_ITEM_RAFT → ∃ r, r ∈ raft_roles ∧ r ∈ roles) ∧
    (x = CLEAN_ITEM_DOC → ROLE_DINGODB_DOCUMENT ∈ roles) ∧ (x = CLEAN_ITEM_VECTOR → ROLE_DINGODB_INDEX ∈ roles).
Proof.
  intros Hr Hnd. unfold clean_items.
  destruct (drop_item_elem (Existed roles raft_roles) CLEAN_ITEM_RAFT _ Hnd) as [Hnd1 H1].
  destruct (drop_item_elem (Contains roles ROLE_DINGODB_DOCUMENT) CLEAN_ITEM_DOC _ Hnd1) as [Hnd2 H2].
  destruct (drop_item_elem (Contains roles ROLE_DINGODB_INDEX) CLEAN_ITEM_VECTOR _ Hnd2) as [_ H3].
  unfold raft_roles in *. rewrite H3, H2, H1, Existed_roles by first [done|in_all].
  rewrite !Contains_role, !bool_decide_eq_true by first [done|in_all]. tauto.
Qed.

(** The items have no spaces around them. *)
Lemma Contains_container l :
  (∀ x, x ∈ l → x ∈ CLEAN_ITEMS) →
  Contains l CLEAN_ITEM_CONTAINER = bool_decide (CLEAN_ITEM_CONTAINER ∈ l).
Proof.
  intros Hl. assert (Forall (λ x, TrimSpace x = x) CLEAN_ITEMS) as Htrim
    by (apply (bool_decide_unpack _); vm_compute; exact I).
  rewrite Forall_forall in Htrim. apply eq_bool_prop_intro. rewrite bool_decide_spec, Is_true_true.
  unfold Contains. rewrite existsb_exists. setoid_rewrite <-list_elem_of_In. setoid_rewrite bool_decide_eq_true.
  split; [|eauto]. intros (x & Hx & Ht).
  rewrite (Htrim x), (Htrim CLEAN_ITEM_CONTAINER) in Ht; [by subst| |auto].
  apply (bool_decide_unpack _). vm_compute. exact I.
Qed.



(** ** Theorems *)

(** The items that a clean removes are the chosen ones that some selected service has:
    raft directories for coordinators, stores, documents and indexes, documents and vectors
    for their roles only.  Containers are stopped first exactly when they are chosen. *)
Theorem clean_items_spec (md5 : string → string) {CC ANY : Type} (cli : DingoCli) (dcs sel : list DeployConfig)
    (o : cleanOptions) :
  NoDup (c_only o) → (∀ x, x ∈ c_only o → x ∈ CLEAN_ITEMS) → (∀ dc, dc ∈ dcs → GetRole dc ∈ all_roles) →
  selected md5 cli dcs (s_id (c_options o)) (s_role (c_options o)) (s_host (c_options o)) = Ok sel →
  ∃ pb items,
    genCleanPlaybook md5 (CC := CC) (ANY := ANY) cli dcs o = Ok pb ∧
    Type_ <$> pb_steps pb = (if bool_decide (CLEAN_ITEM_CONTAINER ∈ c_only o) then [STOP_SERVICE; CLEAN_SERVICE] else [CLEAN_SERVICE]) ∧
    (∀ s, s ∈ pb_steps pb → Configs s = DeployConfigs sel ∧ Options s !! KEY_CLEAN_ITEMS = Some (OStrings items)) ∧
    (∀ x, x ∈ items ↔ x ∈ c_only o ∧
       let has (roles : list string) := ∃ dc, GetRole dc ∈ roles ∧ dc ∈ sel in
       (x = CLEAN_ITEM_RAFT → has [ROLE_COORDINATOR; ROLE_STORE; ROLE_DINGODB_DOCUMENT; ROLE_DINGODB_INDEX]) ∧
       (x = CLEAN_ITEM_DOC → has [ROLE_DINGODB_DOCUMENT]) ∧ (x = CLEAN_ITEM_VECTOR → has [ROLE_DINGODB_INDEX])).
Proof.
  intros Hnd Hitems Hroles Hsel. apply selected_Ok in Hsel as Hs. destruct Hs as [Hs Hne].
  assert (∀ r, r ∈ GetRoles sel → r ∈ all_roles) as Hg.
  { intros r (dc & Hdc & <-)%GetRoles_spec. rewrite Hs in Hdc. apply list_elem_of_filter in Hdc as [_ Hdc]. auto. }
  assert (∀ l : list string, (∃ r, r ∈ l ∧ r ∈ GetRoles sel) ↔ ∃ dc, GetRole dc ∈ l ∧ dc ∈ sel) as Hhas.
  { intros l. split; [intros (r & Hin & (dc & Hdc & <-)%GetRoles_spec); eauto|].
    intros (dc & Hdc & Hin). exists (GetRole dc). split; [done|]. apply GetRoles_spec. eauto. }
  assert (∀ r, r ∈ GetRoles sel ↔ ∃ dc, GetRole dc ∈ [r] ∧ dc ∈ sel) as Hhas1.
  { intros r. rewrite <-Hhas. setoid_rewrite list_elem_of_singleton. naive_solver. }
  set (items := clean_items (GetRoles sel) (c_only o)).
  assert (∀ x, x ∈ items → x ∈ CLEAN_ITEMS) as Hi.
  { intros x [Hx _]%clean_items_elem; auto. }
  exists (mkPlaybook ((λ s, mkStep s (DeployConfigs sel)
    (list_to_map [(KEY_CLEAN_ITEMS, OStrings items); (KEY_CLEAN_BY_RECYCLE, OBool (negb (c_withoutRecycle o)))]) no_options) <$>
    (if Contains items CLEAN_ITEM_CONTAINER then [STOP_SERVICE; CLEAN_SERVICE] else [CLEAN_SERVICE])) []), items.
  split; [|split; [|split]].
  - unfold genCleanPlaybook. rewrite Hsel. cbn [mbind res_bind]. fold items. by rewrite add_steps_fold.
  - simpl. rewrite <-list_fmap_compose, list_fmap_id, Contains_container by done.
    erewrite bool_decide_ext; [done|]. unfold items. rewrite clean_items_elem by done. naive_solver.
  - intros s (t & -> & _)%list_elem_of_fmap. done.
  - intros x. unfold items. rewrite clean_items_elem by done. unfold raft_roles. by rewrite Hhas, !Hhas1.
Qed.

(** The start, stop, restart and clean commands run a playbook only when they were
    forced or confirmed, and all its steps are over exactly the services of the topology
    that the id, the role and the host select; when there is none they report that no
    service matched. *)
Theorem service_commands_select (md5 : string → string) {CC ANY : Type} (cli : DingoCli)
    (dcs : list DeployConfig) (o : serviceOptions) (only : list string) (withoutRecycle answer : bool) :
  let sel := filter (λ dc, matches md5 cli (mkFilterOption (s_id o) (s_role o) (s_host o)) dc = true) dcs in
  Forall (λ plan : res error (Playbook (CC := CC) (ANY := ANY)),
      match plan with
      | Ok pb => sel ≠ [] ∧ (s_force o = true ∨ answer = true) ∧ pb_steps pb ≠ [] ∧ pb_postSteps pb = [] ∧
                 Forall (λ s, Configs s = DeployConfigs sel) (pb_steps pb)
      | Err e => (sel = [] ∧ e = ECode ERR_NO_SERVICES_MATCHED) ∨
                 (sel ≠ [] ∧ s_force o = false ∧ answer = false ∧ e = ECode ERR_CANCEL_OPERATION)
      | Panic => False
      end)
    [start_plan md5 cli dcs o answer; stop_plan md5 cli dcs o answer; restart_plan md5 cli dcs o answer;
     clean_plan md5 cli dcs (mkCleanOptions o only withoutRecycle) answer].
Proof.
  intros sel. unfold start_plan, stop_plan, restart_plan, clean_plan, genStartPlaybook, genStopPlaybook,
    genRestartPlaybook, genServicePlaybook, genCleanPlaybook, selected, FilterDeployConfig. cbn [c_options].
  fold sel. case_decide as Hl.
  { apply nil_length_inv in Hl. rewrite !Forall_cons. cbn [mbind res_bind]. split_and!; [by left..|constructor]. }
  assert (sel ≠ []) as Hne by (by intros Hn; rewrite Hn in Hl).
  assert (∀ steps (f : StepType → PlaybookStep), steps ≠ [] → (∀ s, Configs (f s) = DeployConfigs sel) →
    match confirm (CC := CC) (ANY := ANY) (s_force o) answer (foldl (λ pb s, pb_AddStep pb (f s)) NewPlaybook steps) with
    | Ok pb => sel ≠ [] ∧ (s_force o = true ∨ answer = true) ∧ pb_steps pb ≠ [] ∧ pb_postSteps pb = [] ∧
               Forall (λ s, Configs s = DeployConfigs sel) (pb_steps pb)
    | Err e => (sel = [] ∧ e = ECode ERR_NO_SERVICES_MATCHED) ∨
               (sel ≠ [] ∧ s_force o = false ∧ answer = false ∧ e = ECode ERR_CANCEL_OPERATION)
    | Panic => False
    end) as Hc.
  { intros steps f Hs Hf. unfold confirm. rewrite add_steps_fold. simpl.
    destruct (s_force o), answer; simpl; try (by right);
      (split; [done|]; split; [auto|]; split; [by destruct steps|]; split; [done|];
       apply Forall_fmap, Forall_forall; intros; apply Hf). }
  rewrite !Forall_cons. cbn [mbind res_bind]. split_and!; [by apply Hc..| |constructor].
  apply Hc; [by destruct (Contains _ _)|done].
Qed.




(** Upgrading one by one with local images.  The image step is removed from the shared
    list of steps, whose last step then stands there twice: from the second service on, an
    upgrade starts the service a second time. *)
Theorem second_upgrade_starts_twice (md5 : string → string) {CC ANY : Type} (cli : DingoCli)
    (dc1 dc2 : DeployConfig) (o : serviceOptions) :
  GetRole dc1 ∈ all_roles → GetRole dc1 ≠ ROLE_FS_MDS_CLI → selected md5 cli [dc1] (s_id o) (s_role o) (s_host o) = Ok [dc1] →
  GetRole dc2 ∈ all_roles → GetRole dc2 ≠ ROLE_FS_MDS_CLI → selected md5 cli [dc2] (s_id o) (s_role o) (s_host o) = Ok [dc2] →
  ∃ pb1 v1 pb2 v2,
    genUpgradePlaybook md5 (CC := CC) (ANY := ANY) initial_steps cli [dc1] o true = Ok (pb1, v1) ∧
    Type_ <$> pb_steps pb1 = [STOP_SERVICE; CLEAN_SERVICE; CREATE_CONTAINER; SYNC_CONFIG; START_SERVICE] ∧
    genUpgradePlaybook md5 (CC := CC) (ANY := ANY) v1 cli [dc2] o true = Ok (pb2, v2) ∧
    Type_ <$> pb_steps pb2 =
      [STOP_SERVICE; CLEAN_SERVICE; CREATE_CONTAINER; SYNC_CONFIG; START_SERVICE; START_SERVICE].
Proof.
  intros Hr1 Hn1 H1 Hr2 Hn2 H2.
  assert (∀ dc, GetRole dc ∈ all_roles → GetRole dc ≠ ROLE_FS_MDS_CLI →
          Contains (GetRoles [dc]) ROLE_FS_MDS_CLI = false) as Hc.
  { intros dc Hr Hn. rewrite (Contains_GetRoles [dc] _ all_roles).
    - apply bool_decide_eq_false. intros Hin%list_elem_of_singleton. by apply Hn.
    - intros x Hin. apply list_elem_of_singleton in Hin. by subst.
    - done.
    - in_all. }
  do 4 eexists. split.
  { rewrite (genUpgradePlaybook_eq _ _ _ _ [dc1]), Hc by done. reflexivity. }
  split; [reflexivity|]. split.
  { rewrite (genUpgradePlaybook_eq _ _ _ _ [dc2]), Hc by done. reflexivity. }
  reflexivity.
Qed.

(** ** Samples *)

Definition all_services (force : bool) : serviceOptions := mkServiceOptions "*" "*" "*" force.
Definition role_services (r : string) : serviceOptions := mkServiceOptions "*" r "*" true.
Definition step_ids (pb : Playbook (CC := unit) (ANY := unit) (OPT := optval)) : list (StepType * list string) :=
  plan_view pb.

Lemma clean_items_spec_witness :
  let o := mkCleanOptions (role_services ROLE_FS_MDS) CLEAN_ITEMS false in
  (step_ids <$> genCleanPlaybook (λ s, s) sample_cli sample_cluster o)
    = Ok [(STOP_SERVICE, ["mds_h1"]); (CLEAN_SERVICE, ["mds_h1"])] ∧
  ∃ items : list string, ∀ x, x ∈ items → x ∈ CLEAN_ITEMS.
Proof.
  intros o. split; [vm_compute; reflexivity|].
  destruct (clean_items_spec (λ s, s) (CC := unit) (ANY := unit) sample_cli sample_cluster
    [sample_dc "h1" ROLE_FS_MDS] o) as (pb & items & _ & _ & _ & Hx).
  - apply (bool_decide_unpack _). vm_compute. exact I.
  - intros x Hin. exact Hin.
  - apply (proj1 (Forall_forall (λ dc, GetRole dc ∈ all_roles) sample_cluster)).
    apply (bool_decide_unpack _). vm_compute. exact I.
  - vm_compute. reflexivity.
  - exists items. intros x Hin. exact (proj1 (proj1 (Hx x) Hin)).
Defined.


Lemma second_upgrade_starts_twice_witness :
  ∃ pb1 v1 pb2 v2,
    genUpgradePlaybook (λ s, s) (CC := unit) (ANY := unit) initial_steps sample_cli [sample_dc "h1" ROLE_STORE]
      (all_services false) true = Ok (pb1, v1) ∧
    genUpgradePlaybook (λ s, s) (CC := unit) (ANY := unit) v1 sample_cli [sample_dc "h2" ROLE_STORE]
      (all_services false) true = Ok (pb2, v2) ∧
    length (pb_steps pb1) = 5 ∧ length (pb_steps pb2) = 6.
Proof.
  destruct (second_upgrade_starts_twice (λ s, s) (CC := unit) (ANY := unit) sample_cli
    (sample_dc "h1" ROLE_STORE) (sample_dc "h2" ROLE_STORE) (all_services false))
    as (pb1 & v1 & pb2 & v2 & E1 & T1 & E2 & T2);
    [apply (bool_decide_unpack _); vm_compute; exact I|done|reflexivity
    |apply (bool_decide_unpack _); vm_compute; exact I|done|reflexivity|].
  exists pb1, v1, pb2, v2. split; [exact E1|]. split; [exact E2|].
  split; [rewrite <-(length_fmap Type_), T1|rewrite <-(length_fmap Type_), T2]; reflexivity.
Defined.
