(* ===== verification/ServiceEnv.v ===== *)
(** What the container of a service is created with (src/internal/task/task/common:
    create_container.go): command, environment, volumes, restart policy, directories.

    A getter of a config that panics makes the task constructor panic. *)

From S2P Require Import Prelude Errno GoLib Hosts Vars Tasks Shell Steps DeployConfig Topology.
From Stdlib Require Import Ascii.

Definition POLICY_ALWAYS_RESTART : string := "always".
Definition POLICY_NEVER_RESTART : string := "no".
Definition ENV_DINGOSTORE_SERVER_LISTEN_HOST : string := "SERVER_LISTEN_HOST".
Definition ENV_DINGOSTORE_RAFT_LISTEN_HOST : string := "RAFT_LISTEN_HOST".
Definition ENV_DINGO_SERVER_LISTEN_HOST : string := "SERVER_LISTEN_HOST".
Definition ENV_DINGO_SERVER_HOST : string := "SERVER_HOST".
Definition ENV_DINGOSTORE_RAFT_HOST : string := "RAFT_HOST".
Definition ENV_DINGOSTORE_DEFAULT_REPLICA_NUM : string := "DEFAULT_REPLICA_NUM".
Definition ENV_DINGOSTORE_COOR_RAFT_PEERS : string := "COOR_RAFT_PEERS".
Definition ENV_DINGOSTORE_COOR_SRV_PEERS : string := "COOR_SRV_PEERS".
Definition ENV_DINGOSTROE_FLAGS_ROLE : string := "FLAGS_role".
Definition ENV_DINGOSTROE_FLAGS_CLEAN_LOG : string := "FLAGS_clean_log".
Definition ENV_DINGOSTORE_COORDINATOR_SERVER_START_PORT : string := "COORDINATOR_SERVER_START_PORT".
Definition ENV_DINGOSTORE_COORDINATOR_RAFT_START_PORT : string := "COORDINATOR_RAFT_START_PORT".
Definition ENV_DINGO_SERVER_START_PORT : string := "SERVER_START_PORT".
Definition ENV_DINGOSTORE_RAFT_START_PORT : string := "RAFT_START_PORT".
Definition ENV_DINGOSTORE_INSTANCE_START_ID : string := "INSTANCE_START_ID".
Definition ENV_DINGOSTORE_ENABLE_LITE : string := "ENABLE_LITE".
Definition ENV_DINGOSTORE_DISKANN_SERVER_HOST : string := "DISKANN_SERVER_HOST".
Definition ENV_DINGOSTORE_DISKANN_SERVER_START_PORT : string := "DISKANN_SERVER_START_PORT".
Definition ENV_DINGOSTORE_DISKANN_INSTANCE_START_ID : string := "DISKANN_INSTANCE_START_ID".
Definition ENV_DINGOSTORE_INDEX_SERVER_START_PORT : string := "INDEX_SERVER_START_PORT".
Definition ENV_DINGOSTORE_INDEX_RAFT_START_PORT : string := "INDEX_RAFT_START_PORT".
Definition ENV_DINGOSTORE_INDEX_INSTANCE_START_ID : string := "INDEX_INSTANCE_START_ID".
Definition ENV_DINGOFS_V2_FLAGS_ROLE : string := "FLAGS_role".
Definition ENV_DINGOFS_V2_FLAGS_CLEAN_LOG : string := "FLAGS_clean_log".
Definition ENV_DINGOFS_V2_FLAGS_SERVER_NUM : string := "FLAGS_server_num".
Definition ENV_DINGOSTORE_COORDINATOR_ADDR : string := "COORDINATOR_ADDR".
Definition ENV_DINGOFS_V2_INSTANCE_START_ID : string := "MDS_INSTANCE_START_ID".
Definition ENV_DINGOFS_V2_CLUSTER_ID : string := "CLUSTER_ID".
Definition ENV_DINGODB_EXECUTOR_ROLE : string := "DINGO_ROLE".
Definition ENV_DINGODB_EXECUTOR_HOSTNAME : string := "DINGO_HOSTNAME".
Definition ENV_DINGODB_EXECUTOR_COORDINATORS : string := "DINGO_COORDINATORS".
Definition SERVICE_DIR_ABSENT : string := "-".

Definition getContainerCMD (dc : DeployConfig) : res error string :=
  let cmd := "deploystart" in
  let r := GetRole dc in
  if decide (GetKind dc = KIND_DINGOFS) then
    if decide (r = ROLE_DINGODB_EXECUTOR) then Ok ""
    else if decide (r = ROLE_COORDINATOR ∨ r = ROLE_STORE) then Ok cmd
    else
      v2 ← (if decide (r = ROLE_FS_MDS) then
              v ← ctx_Lookup (GetCtx dc) CTX_KEY_MDS_VERSION; Ok (bool_decide (v = CTX_VAL_MDS_V2))
            else Ok false);
      Ok (if v2 : bool then "" else "--role " +:+ r +:+ " ")
  else if decide (GetKind dc = KIND_DINGOSTORE ∨ GetKind dc = KIND_DINGODB) then
    if decide (r = ROLE_DINGODB_EXECUTOR ∨ r = ROLE_DINGODB_WEB ∨ r = ROLE_DINGODB_PROXY) then Ok ""
    else Ok cmd
  else Ok ("--role " +:+ r +:+ " ").

(** ** Environment *)

Definition env (name value : string) : string := name +:+ "=" +:+ value.
(** [GetVariables().Get] *)
Definition dc_var (dc : DeployConfig) (name : string) : res error (option string) :=
  match GetVariables dc with
  | None => Panic (* nil dereference *)
  | Some vars => Ok (match Vars.Get vars name with Ok v => Some v | _ => None end)
  end.
Definition opt_env (name : string) (v : option string) : list string :=
  match v with Some v => [env name v] | None => [] end.

(** The coordinators: a configured address of one character stands for the ones of the cluster. *)
Definition coordinator_addr (dc : DeployConfig) : res error string :=
  addr ← GetDingoStoreCoordinatorAddr dc;
  if decide (String.length addr = 1) then v ← dc_var dc "coordinator_addr"; Ok (default "" v)
  else Ok addr.

Definition configExecutorENV (envs : list string) (dc : DeployConfig) : res error (list string) :=
  addr ← coordinator_addr dc;
  Ok (envs ++ [env ENV_DINGODB_EXECUTOR_ROLE (GetRole dc); env ENV_DINGODB_EXECUTOR_HOSTNAME (GetHostname dc);
               env ENV_DINGODB_EXECUTOR_COORDINATORS addr]).

Definition configMdsv2ENV (envs : list string) (dc : DeployConfig) : res error (list string) :=
  lh ← GetDingoServerListenHost dc;
  port ← GetDingoServerPort dc;
  addr ← coordinator_addr dc;
  iid ← GetDingoInstanceId dc;
  cid ← GetDingoClusterId dc;
  Ok (envs ++ [env ENV_DINGOFS_V2_FLAGS_ROLE ROLE_FS_MDS; env ENV_DINGOFS_V2_FLAGS_CLEAN_LOG "0";
               env ENV_DINGO_SERVER_LISTEN_HOST lh; env ENV_DINGO_SERVER_HOST (GetHostname dc);
               env ENV_DINGO_SERVER_START_PORT (Itoa port); env ENV_DINGOSTORE_COORDINATOR_ADDR addr;
               env ENV_DINGOFS_V2_INSTANCE_START_ID (Itoa iid); env ENV_DINGOFS_V2_CLUSTER_ID (Itoa cid)]).

Definition configDingoStoreENV (envs : list string) (dc : DeployConfig) : res error (list string) :=
  slh ← GetDingoStoreServerListenHost dc;
  rlh ← GetDingoStoreRaftListenHost dc;
  replica ← GetDingoStoreReplicaNum dc;
  port ← GetDingoServerPort dc;
  raft ← GetDingoStoreRaftPort dc;
  iid ← GetDingoInstanceId dc;
  srv ← dc_var dc "cluster_coor_srv_peers";
  peers ← dc_var dc "cluster_coor_raft_peers";
  Ok (envs ++ [env ENV_DINGOSTROE_FLAGS_ROLE (GetRole dc); env ENV_DINGOSTROE_FLAGS_CLEAN_LOG "1";
               env ENV_DINGOSTORE_SERVER_LISTEN_HOST slh; env ENV_DINGOSTORE_RAFT_LISTEN_HOST rlh;
               env ENV_DINGO_SERVER_HOST (GetHostname dc); env ENV_DINGOSTORE_RAFT_HOST (GetHostname dc);
               env ENV_DINGOSTORE_DEFAULT_REPLICA_NUM (Itoa replica);
               env ENV_DINGOSTORE_COORDINATOR_SERVER_START_PORT (Itoa port);
               env ENV_DINGOSTORE_COORDINATOR_RAFT_START_PORT (Itoa raft);
               env ENV_DINGO_SERVER_START_PORT (Itoa port); env ENV_DINGOSTORE_RAFT_START_PORT (Itoa raft);
               env ENV_DINGOSTORE_INSTANCE_START_ID (Itoa iid); env ENV_DINGOSTORE_ENABLE_LITE "false"]
           ++ opt_env ENV_DINGOSTORE_COOR_SRV_PEERS srv ++ opt_env ENV_DINGOSTORE_COORDINATOR_ADDR srv
           ++ opt_env ENV_DINGOSTORE_COOR_RAFT_PEERS peers).

Definition configDingoVectorENV (envs : list string) (dc : DeployConfig) : res error (list string) :=
  envs ← configDingoStoreENV envs dc;
  start ← dc_var dc "diskann_server_start_port";
  port ← GetDingoServerPort dc;
  raft ← GetDingoStoreRaftPort dc;
  iid ← GetDingoInstanceId dc;
  Ok (envs ++ [env ENV_DINGOSTORE_DISKANN_SERVER_HOST (GetHostname dc)]
           ++ opt_env ENV_DINGOSTORE_DISKANN_SERVER_START_PORT (Itoa <$> (start ≫= Atoi))
           ++ [env ENV_DINGOSTORE_DISKANN_INSTANCE_START_ID (Itoa iid);
               env ENV_DINGOSTORE_INDEX_SERVER_START_PORT (Itoa port);
               env ENV_DINGOSTORE_INDEX_RAFT_START_PORT (Itoa raft);
               env ENV_DINGOSTORE_INDEX_INSTANCE_START_ID (Itoa iid)]).

(** The variables of the item [env], separated by spaces. *)
Definition own_env (dc : DeployConfig) (envs : list string) : res error (list string) :=
  e ← GetEnv dc;
  Ok (if decide (e = "") then envs else envs ++ Split e " "%char).

Definition store_roles : list string :=
  [ROLE_COORDINATOR; ROLE_STORE; ROLE_DINGODB_DOCUMENT; ROLE_DINGODB_INDEX; ROLE_DINGODB_DISKANN].
Definition executor_roles : list string := [ROLE_DINGODB_EXECUTOR; ROLE_DINGODB_PROXY; ROLE_DINGODB_WEB].

Definition GetEnvironments (dc : DeployConfig) : res error (list string) :=
  let r := GetRole dc in
  if decide (GetKind dc = KIND_DINGOFS) then
    envs ← (if decide (r = ROLE_FS_MDS ∨ r = ROLE_FS_MDS_CLI) then
              v ← ctx_Lookup (GetCtx dc) CTX_KEY_MDS_VERSION;
              if decide (v = CTX_VAL_MDS_V2) then configMdsv2ENV [] dc else Ok []
            else if decide (r = ROLE_COORDINATOR ∨ r = ROLE_STORE) then configDingoStoreENV [] dc
            else if decide (r = ROLE_DINGODB_EXECUTOR) then configExecutorENV [] dc
            else
              rdma ← GetEnableRDMA dc;
              let preloads := "/usr/local/lib/libjemalloc.so" ::
                              (if rdma : bool then ["/usr/local/lib/libsmc-preload.so"] else []) in
              Ok [env "LD_PRELOAD" (Join preloads " ")]);
    own_env dc envs
  else if decide (GetKind dc = KIND_DINGOSTORE) then
    envs ← (if decide (r ∈ store_roles) then configDingoStoreENV [] dc
            else if decide (r ∈ executor_roles) then configExecutorENV [] dc
            else Ok []);
    envs ← configDingoStoreENV envs dc;
    own_env dc envs
  else if decide (GetKind dc = KIND_DINGODB) then
    envs ← (if decide (r ∈ store_roles) then configDingoVectorENV [] dc
            else if decide (r ∈ executor_roles) then configExecutorENV [] dc
            else Ok []);
    own_env dc envs
  else Ok [].

(** ** Volumes, restart policy, directories *)

Definition getUlimits : list string := ["nofile=1048576:1048576"; "core=-1"].

Definition raft_volume_roles : list string :=
  [ROLE_COORDINATOR; ROLE_STORE; ROLE_DINGODB_DOCUMENT; ROLE_DINGODB_INDEX].

Definition getMountVolumes (dc : DeployConfig) : res error (list Volume) :=
  let r := GetRole dc in
  layout ← dc_GetProjectLayout dc;
  logDir ← GetLogDir dc;
  dataDir ← GetDataDir dc;
  sourceCoreDir ← GetSourceCoreDir dc;
  targetCoreDir ← GetTargetCoreDir dc;
  let vol (b : bool) h c := if b then [mkVolume h c] else [] in
  let nonempty s := negb (bool_decide (s = "")) in
  raft ← (if decide (r ∈ raft_volume_roles) then
            d ← GetDingoRaftDir dc; Ok [mkVolume d (DingoStoreRaftDir layout)]
          else Ok []);
  let nas := if decide (r = ROLE_STORE) then
               match GetServiceConfig dc !! "mount.volumes" with Some v => [mkVolume v v] | None => [] end
             else [] in
  doc ← (if decide (r = ROLE_DINGODB_DOCUMENT) then
           d ← GetDingoStoreDocDir dc; Ok [mkVolume d (DingoStoreDocumentDir layout)]
         else Ok []);
  vec ← (if decide (r = ROLE_DINGODB_INDEX) then
           d ← GetDingoStoreVectorDir dc; Ok [mkVolume d (DingoStoreVectorDir layout)]
         else Ok []);
  Ok (vol (nonempty logDir) logDir (ServiceLogDir layout) ++
      vol (nonempty dataDir && negb (bool_decide (dataDir = SERVICE_DIR_ABSENT))) dataDir (ServiceDataDir layout) ++
      vol (nonempty targetCoreDir) targetCoreDir sourceCoreDir ++
      raft ++ nas ++ doc ++ vec).

Definition getRestartPolicy (dc : DeployConfig) : string :=
  let r := GetRole dc in
  if decide (r = ROLE_ETCD) then POLICY_ALWAYS_RESTART
  else if decide (r = ROLE_COORDINATOR ∨ r = ROLE_STORE ∨ r = ROLE_FS_MDS) then
    let restartPolicy := default "" (GetServiceConfig dc !! "restart_policy") in
    if decide (restartPolicy ≠ "") then restartPolicy else POLICY_ALWAYS_RESTART
  else POLICY_NEVER_RESTART.

(** The directories of the host that are created first. *)
Definition create_dirs (dc : DeployConfig) : res error (list string) :=
  let r := GetRole dc in
  logDir ← GetLogDir dc;
  dataDir ← GetDataDir dc;
  raft ← (if decide (r ∈ raft_volume_roles) then d ← GetDingoRaftDir dc; Ok [d] else Ok []);
  doc ← (if decide (r = ROLE_DINGODB_DOCUMENT) then d ← GetDingoStoreDocDir dc; Ok [d] else Ok []);
  vec ← (if decide (r = ROLE_DINGODB_INDEX) then d ← GetDingoStoreVectorDir dc; Ok [d] else Ok []);
  Ok ([logDir; dataDir] ++ raft ++ doc ++ vec).

(** The containers of [NewCreateContainerTask] and [NewCreateMdsv2CliContainerTask]. *)
Definition container_name (dc : DeployConfig) (serviceId : string) : string :=
  GetKind dc +:+ "-" +:+ GetRole dc +:+ "-" +:+ serviceId.
Definition service_container (dc : DeployConfig) (serviceId : string) : res error CreateContainer_ :=
  image ← GetContainerImage dc;
  cmd ← getContainerCMD dc;
  envs ← GetEnvironments dc;
  volumes ← getMountVolumes dc;
  let h := container_name dc serviceId in
  Ok (mkCreate image cmd [h +:+ ":127.0.0.1"] [] "" envs h true [] "" h "" "" "" "" true false
        (getRestartPolicy dc) [] getUlimits volumes).
Definition cli_container (dc : DeployConfig) (serviceId : string) : res error CreateContainer_ :=
  image ← GetContainerImage dc;
  envs ← GetEnvironments dc;
  let h := container_name dc serviceId in
  Ok (mkCreate image ("-c " +:+ bytes [34] +:+ "while true; do sleep 3600; done" +:+ bytes [34])
        [h +:+ ":127.0.0.1"] [] "bash" envs h true [] "" h "" "" "" "" true false
        POLICY_NEVER_RESTART [] [] []).
