(* ===== verification/Services.v ===== *)
(** The tasks of services (src/internal/task/task/common: create_container.go,
    start_service.go, stop_service.go, restart_service.go, clean_service.go, pull_image.go,
    check_service.go, create_meta_table.go, sync_java_opts.go, service_status.go).

    A constructor looks the container of a service up in the database and makes a task whose
    steps run commands of the container engine on the host of the service.  The world has
    the database (Storage.v), the options in the memory storage and the machines. *)

From S2P Require Import Prelude Errno GoLib Utils Storage CliConfig Hosts Cli Tasks Playbook Deploy ServiceCmd Shell Steps Vars DeployConfig Topology ServiceEnv.
From Stdlib Require Import Ascii.

Definition SERVICE_STATUS_CLEANED : string := "Cleaned".
Definition SERVICE_STATUS_LOSED : string := "Losed".
Definition SERVICE_STATUS_UNKNOWN : string := "Unknown".

Record ServiceStatus : Type := mkServiceStatus {
  ss_Id : string; ss_ParentId : string; ss_Role : string; ss_Host : string; ss_Instances : string;
  ss_ContainerId : string; ss_Ports : string; ss_IsLeader : bool; ss_Status : string;
  ss_LogDir : string; ss_DataDir : string; ss_RaftDir : string; ss_DocDir : string;
  ss_VectorDir : string; ss_Config : DeployConfig }.

(** The world of the tasks.  The statuses are what the memory storage has under
    [KEY_ALL_SERVICE_STATUS]; they are written in transactions (SafeMap.v), so each write
    is one step here. *)
Class World (W : Type) := {
  #[global] world_machine :: Machine W;
  db : W → DB; set_db : DB → W → W;
  mem : W → gmap string optval;
  statuses : W → gmap string ServiceStatus; set_statuses : gmap string ServiceStatus → W → W;
  Sleep : Z → W → W;
  WriteOutln : string → W → W;
  NewUUID : W → W * string;
  (** what a panic in the goroutine of a task leaves: the process ends *)
  crash : W → W;
}.

(** ** Texts *)

Definition quoted (s : string) : string := bytes [34] +:+ s +:+ bytes [34].
Definition ID_FORMAT : string := quoted "{{.ID}}".
Definition STATUS_FORMAT : string := quoted "{{.Status}}".
Definition INSPECT_STATUS : string := "'{{.State.Status}}'".

(** [strings.TrimRight] of carriage returns and newlines. *)
Fixpoint TrimRight_crlf (s : string) : string :=
  match s with
  | "" => ""
  | String a s =>
      let t := TrimRight_crlf s in
      if bool_decide (t = "") && (bool_decide (a = byte 13) || bool_decide (a = byte 10)) then ""
      else String a t
  end.
Definition TrimContainerId (containerId : string) : string :=
  let containerId := TrimRight_crlf containerId in
  if decide (String.length containerId ≤ 12) then containerId else String.substring 0 12 containerId.

(** [strings.Split(s, newline)] is never empty. *)
Definition last_line (s : string) : string := List.last (Split s (byte 10)) "".

Section services.
Context {W : Type} `{World W} `{Driver}.
Context (os : OS) `{MapOrder} (parse_hosts : string → option Hosts_) (md5 : string → string).
Context (cli : DingoCli) (cfg : DingoCliConfig).
Notation Task := (Tasks.Task W SSHConfig SSHConfig).
Notation Step := (Tasks.Step (W := W) (Client := SSHConfig)).
Notation Eff := (eff error W).

(** [dingocli.ExecOptions()]. *)
Definition cli_ExecOptions : ExecOptions :=
  mkModuleOptions true false (GetSudoAlias cfg) (Timeout cfg) (Engine cfg).
Definition without_sudo (o : ExecOptions) : ExecOptions :=
  mkModuleOptions false (ExecInLocal o) (ExecSudoAlias o) (ExecTimeoutSec o) (ExecWithEngine o).

(** ** The database in the world *)

Definition storage {A} (m : M A) : Eff A := λ w, let '(r, d) := m (db w) in (set_db d w, r).
(** A query whose error is looked at. *)
Definition container_of (serviceId : string) : Eff (option string) := λ w,
  match storage (st_GetContainerId serviceId) w with
  | (w, Ok c) => (w, Ok (Some c))
  | (w, _) => (w, Ok None)
  end.
Definition svc_GetContainerId (serviceId : string) : Eff (res error string) :=
  o ← container_of serviceId; mret (GetContainerId (λ _, o) serviceId).
Definition svc_IsSkip (dc : DeployConfig) : Eff bool :=
  o ← container_of (GetServiceId md5 cli (GetId dc)); mret (IsSkip md5 (λ _, o) cli dc).

(** The common beginning of the constructors: the container, unless the service is skipped. *)
Definition find_container (dc : DeployConfig) : Eff (option string) :=
  r ← svc_GetContainerId (GetServiceId md5 cli (GetId dc));
  skip ← svc_IsSkip dc;
  if skip : bool then mret None else c ← pure_eff r; mret (Some c).

Definition skip_mds_cli (dc : DeployConfig) : Eff bool := λ w,
  if decide (GetRole dc = ROLE_FS_MDS_CLI) then
    match mem w !! KEY_SKIP_MDSV2_CLI with
    | None => (w, Ok false)
    | Some (OBool b) => (w, Ok b)
    | Some _ => (w, Panic)
    end
  else (w, Ok false).

Definition dc_host (dc : DeployConfig) : res error HostConfig :=
  cli_GetHost os parse_hosts cli (DeployConfig.GetHost dc).
Definition host_ssh (hc : HostConfig) : res error SSHConfig :=
  GetSSHConfig os (SSHTimeout cfg) (SSHRetries cfg) hc.
Definition dc_ssh (dc : DeployConfig) : res error SSHConfig := hc ← dc_host dc; host_ssh hc.
Definition new_task (name subname : string) (c : option SSHConfig) : Eff Task := λ w,
  let '(w, u) := NewUUID w in (w, Ok (NewTask (String.substring 0 12 u) name subname c)).
(** The connections a task opens and closes. *)
Definition task_ssh : SSH W SSHConfig SSHConfig := Tasks.mkSSH Shell.NewSSHClient ssh_close.
Definition add_steps (l : list Step) (t : Task) : Task := foldl AddStep t l.

Definition host_role (dc : DeployConfig) : string :=
  "host=" +:+ DeployConfig.GetHost dc +:+ " role=" +:+ GetRole dc.
Definition host_role_container (dc : DeployConfig) (containerId : string) : string :=
  host_role dc +:+ " containerId=" +:+ TrimContainerId containerId.

(** ** Creating *)

Definition Step2GetService (serviceId ContainerId : string) : Step := λ _ reg w,
  match storage (st_GetContainerId serviceId) w with
  | (w, Ok c) =>
      if decide (c ≠ CLEANED_CONTAINER_ID ∧ c ≠ "") then (reg, w, Some ERR_SKIP_TASK)
      else (set_str ContainerId c reg, w, None)
  | (w, _) => (reg, w, Some (EOther (ECode ERR_GET_SERVICE_CONTAINER_ID_FAILED)))
  end.
Definition Step2InsertService (serviceId ContainerId OldContainerId : string) : Step := λ _ reg w,
  let containerId := str_var reg ContainerId in
  let '(m, ec) := if decide (str_var reg OldContainerId = CLEANED_CONTAINER_ID)
                  then (SetContainId serviceId containerId, ERR_SET_SERVICE_CONTAINER_ID_FAILED)
                  else (InsertService (clusterId cli) serviceId containerId,
                        ERR_INSERT_SERVICE_CONTAINER_ID_FAILED) in
  match storage m w with
  | (w, Ok _) => (reg, w, None)
  | (w, _) => (reg, w, Some (EOther (ECode ec)))
  end.
Definition last_line_of (v : string) : Step :=
  Lambda (λ reg w, (set_str v (last_line (str_var reg v)) reg, w, None)).
Definition TrimContainerId_step : string → Step := last_line_of.

(** [oldContainerId] and [containerId] are the variables of the task. *)
Definition create_steps (serviceId : string) (dirs : option (list string)) (c : CreateContainer_) : list Step :=
  [Step2GetService serviceId "oldContainerId"] ++
  (match dirs with
   | Some dirs => [CreateDirectory dirs None None (without_sudo cli_ExecOptions)]
   | None => []
   end) ++
  [CreateContainer c (Some "containerId") cli_ExecOptions;
   TrimContainerId_step "containerId";
   Step2InsertService serviceId "containerId" "oldContainerId"].

Definition NewCreateContainerTask (dc : DeployConfig) : Eff (option Task) :=
  if decide (GetRole dc = ROLE_FS_MDS_CLI) then mret None else
  c ← pure_eff (dc_ssh dc);
  let serviceId := GetServiceId md5 cli (GetId dc) in
  t ← new_task "Create Container" (host_role dc) (Some c);
  dirs ← pure_eff (create_dirs dc);
  create ← pure_eff (service_container dc serviceId);
  mret (Some (add_steps (create_steps serviceId (Some dirs) create) t)).

Definition NewCreateMdsv2CliContainerTask (dc : DeployConfig) : Eff (option Task) :=
  c ← pure_eff (dc_ssh dc);
  let serviceId := GetServiceId md5 cli (GetId dc) in
  t ← new_task "Create mds client Container" (host_role dc) (Some c);
  create ← pure_eff (cli_container dc serviceId);
  mret (Some (add_steps (create_steps serviceId None create) t)).

Definition NewPullImageTask (dc : DeployConfig) : Eff (option Task) :=
  c ← pure_eff (dc_ssh dc);
  image ← pure_eff (GetContainerImage dc);
  t ← new_task "Pull Image" ("host=" +:+ DeployConfig.GetHost dc +:+ " image=" +:+ image) (Some c);
  mret (Some (add_steps [PullImage image None cli_ExecOptions] t)).

(** ** Starting, stopping, restarting *)

(** [docker ps --all] for the container, without output when there is none. *)
Definition list_container (containerId Format Out : string) : Step :=
  ListContainers Format ("id=" +:+ containerId) false true (Some Out) cli_ExecOptions.
Definition CheckContainerExist (out : string) : Step :=
  Lambda (λ reg w, (reg, w, if decide (str_var reg out = "") then Some ERR_SKIP_TASK else None)).
Definition checkContainerId (containerId : string) : Step :=
  Lambda (λ reg w, (reg, w, if decide (containerId = CLEANED_CONTAINER_ID) then Some ERR_SKIP_TASK else None)).
Definition WaitContainerStart (seconds : Z) : Step := Lambda (λ reg w, (reg, Sleep seconds w, None)).
Definition Step2CheckPostStart (ContainerId Success : string) : Step := λ cl reg w,
  if bool_var reg Success then (reg, w, None) else
  match InspectContainer ContainerId INSPECT_STATUS None (Some "status") cli_ExecOptions cl reg w with
  | (reg, w, Some _) => (reg, w, Some (EOther (ECode ERR_START_CRONTAB_IN_CONTAINER_FAILED)))
  | (reg, w, None) =>
      (reg, w, if decide (str_var reg "status" ≠ "running")
               then Some (EOther (ECode ERR_CONTAINER_IS_ABNORMAL)) else None)
  end.

(** A task on the container of a service, made unless the service is skipped. *)
Definition container_task (name : string) (dc : DeployConfig) (steps : string → res error (list Step))
    : Eff (option Task) :=
  o ← find_container dc;
  match o with
  | None => mret None
  | Some containerId =>
      c ← pure_eff (dc_ssh dc);
      t ← new_task name (host_role_container dc containerId) (Some c);
      l ← pure_eff (steps containerId);
      mret (Some (add_steps l t))
  end.

Definition exist_steps (containerId : string) : list Step :=
  [list_container containerId ID_FORMAT "out"; CheckContainerExist "out"].

Definition NewStartServiceTask (dc : DeployConfig) : Eff (option Task) :=
  skip ← skip_mds_cli dc;
  if skip : bool then mret None else
  container_task "Start Service" dc (λ containerId, Ok (exist_steps containerId ++
    [StartContainer containerId None None cli_ExecOptions; WaitContainerStart 3;
     Step2CheckPostStart containerId "success"])).

Definition NewStopServiceTask (dc : DeployConfig) : Eff (option Task) :=
  hc ← pure_eff (dc_host dc);
  skip ← skip_mds_cli dc;
  if skip : bool then mret None else
  o ← find_container dc;
  match o with
  | None => mret None
  | Some containerId =>
      c ← pure_eff (host_ssh hc);
      t ← new_task "Stop Service" (host_role_container dc containerId) (Some c);
      mret (Some (add_steps ([checkContainerId containerId] ++ exist_steps containerId ++
        [StopContainer containerId 0 (Some "out") cli_ExecOptions]) t))
  end.

Definition NewRestartServiceTask (dc : DeployConfig) : Eff (option Task) :=
  container_task "Restart Service" dc (λ containerId, Ok (exist_steps containerId ++
    [RestartContainer containerId None cli_ExecOptions; WaitContainerStart 3;
     Step2CheckPostStart containerId "success"])).

(** ** Cleaning *)

(** The result of [docker rm] is not looked at. *)
Definition Step2CleanContainer (serviceId containerId : string) : Step := λ cl reg w,
  if decide (containerId = "" ∨ containerId = CLEANED_CONTAINER_ID) then (reg, w, None) else
  let '(w, _) := docker_Execute cl (docker_RemoveContainer [containerId] NewShell) cli_ExecOptions w in
  match storage (SetContainId serviceId CLEANED_CONTAINER_ID) w with
  | (w, Ok _) => (reg, w, None)
  | (w, Err e) => (reg, w, Some (EOther e))
  | (w, Panic) => (reg, crash w, None)
  end.

(** The directories of one item. *)
Definition clean_item_files (dc : DeployConfig) (item : string) : res error (list string) :=
  let one (r : res error string) := f ← r; Ok [f] in
  let role_in (l : list string) (r : res error string) := if decide (GetRole dc ∈ l) then one r else Ok [] in
  if decide (item = CLEAN_ITEM_LOG) then one (GetLogDir dc)
  else if decide (item = CLEAN_ITEM_DATA) then one (GetDataDir dc)
  else if decide (item = CLEAN_ITEM_RAFT) then role_in raft_volume_roles (GetDingoRaftDir dc)
  else if decide (item = CLEAN_ITEM_DOC) then role_in [ROLE_DINGODB_DOCUMENT] (GetDingoStoreDocDir dc)
  else if decide (item = CLEAN_ITEM_VECTOR) then role_in [ROLE_DINGODB_INDEX] (GetDingoStoreVectorDir dc)
  else Ok [].
Definition getCleanFiles (clean : gmap string bool) (dc : DeployConfig) : res error (list string) :=
  fold_res (λ files item, l ← clean_item_files dc item; Ok (files ++ l)) (range clean).*1 [].

Definition clean_steps (serviceId containerId : string) (clean : gmap string bool) (files : list string)
    : list Step :=
  [RemoveFile files None cli_ExecOptions] ++
  (if in_map clean CLEAN_ITEM_CONTAINER then [Step2CleanContainer serviceId containerId] else []).

Definition already_cleaned (dc : DeployConfig) (serviceId : string) : Eff (option Task) := λ w,
  let '(w, _) := storage (SetContainId serviceId CLEANED_CONTAINER_ID) w in
  (WriteOutln ("[SKIP] clean service: " +:+ host_role dc +:+ " ") w, Ok None).
Definition clean_option : Eff (list string) := λ w,
  (w, match mem w !! KEY_CLEAN_ITEMS with Some (OStrings l) => Ok l | _ => Panic end).

Definition NewCleanServiceTask (dc : DeployConfig) : Eff (option Task) :=
  let serviceId := GetServiceId md5 cli (GetId dc) in
  r ← svc_GetContainerId serviceId;
  if decide (r = Ok CLEANED_CONTAINER_ID) then already_cleaned dc serviceId else
  skip ← svc_IsSkip dc;
  if skip : bool then mret None else
  containerId ← pure_eff r;
  hc ← pure_eff (dc_host dc);
  skip ← skip_mds_cli dc;
  if skip : bool then mret None else
  only ← clean_option;
  c ← pure_eff (host_ssh hc);
  t ← new_task "Clean Service" (host_role_container dc containerId +:+ " clean=" +:+ Join only ",") (Some c);
  let clean := Slice2Map only in
  files ← pure_eff (getCleanFiles clean dc);
  mret (Some (add_steps (clean_steps serviceId containerId clean files) t)).

(** ** Checks and scripts inside the container *)

Definition NewCheckStoreHealthTask (dc : DeployConfig) : Eff (option Task) :=
  container_task "Check dingo-store Service" dc (λ containerId,
    layout ← dc_GetProjectLayout dc;
    Ok (exist_steps containerId ++
        [ContainerExec containerId ("bash " +:+ DingoStoreScriptDir layout +:+ "/" +:+ SCRIPT_CHECK_STORE_HEALTH)
           (Some "success") (Some "out") cli_ExecOptions])).

Definition checkCreateTableSuccess (success : string) : Step :=
  Lambda (λ reg w, (reg, w, if bool_var reg success then None
                            else Some (EOther (ECode ERR_CREATE_META_TABLE_FAILED)))).
Definition NewCreateMetaTablesTask (dc : DeployConfig) : Eff (option Task) :=
  o ← find_container dc;
  match o with
  | None => mret None
  | Some containerId =>
      c ← pure_eff (dc_ssh dc);
      t ← new_task "Create Meta Tables" "Create Meta Tables" (Some c);
      layout ← pure_eff (dc_GetProjectLayout dc);
      mret (Some (add_steps (exist_steps containerId ++
        [ContainerExec containerId ("bash " +:+ FSMdsCliBinDir layout +:+ "/" +:+ SCRIPT_CREATE_MDSV2_TABLES +:+ " "
                                    +:+ FSMdsCliBinaryPath layout) (Some "success") (Some "out") cli_ExecOptions;
         checkCreateTableSuccess "success"]) t))
  end.

Definition NewSyncJavaOptsTask (dc : DeployConfig) : Eff (option Task) :=
  container_task "Sync dingo-executor Java Opts" dc (λ containerId,
    layout ← dc_GetProjectLayout dc;
    let bin := DingoExecutorBinDir layout in
    Ok (exist_steps containerId ++
        [ContainerExec containerId ("bash " +:+ bin +:+ "/" +:+ SCRIPT_SYNC_JAVA_OPTS +:+ " " +:+ bin +:+ "/" +:+
                                    SCRIPT_START_EXECUTOR) (Some "success") (Some "out") cli_ExecOptions])).

(** ** Status *)

Definition SIGNATURE_LEADER : string := "leader".
Definition step_crash {A} (r : res error A) (s : A → Step) : Step := λ cl reg w,
  match r with Ok a => s a cl reg w | _ => (reg, crash w, None) end.

Definition setServiceStatus (id : string) (s : ServiceStatus) (w : W) : W :=
  set_statuses (<[id := s]> (statuses w)) w.

(** The two steps that write a status differ in the ports, the leader and the status. *)
Definition service_status (dc : DeployConfig) (serviceId containerId ports : string) (isLeader : bool)
    (status : string) : res error ServiceStatus :=
  l ← GetLogDir dc; d ← GetDataDir dc; r ← GetDingoRaftDir dc; doc ← GetDingoStoreDocDir dc;
  v ← GetDingoStoreVectorDir dc;
  Ok (mkServiceStatus serviceId (GetParentId dc) (GetRole dc) (DeployConfig.GetHost dc)
        ("1/" +:+ Itoa (GetInstances dc)) (TrimContainerId containerId) ports isLeader status l d r doc v dc).

Definition step2InitStatus (dc : DeployConfig) (serviceId containerId : string) : Step :=
  step_crash (service_status dc serviceId containerId "" false SERVICE_STATUS_UNKNOWN) (λ s _ reg w,
    (reg, setServiceStatus serviceId s w, None)).

(** The regular expressions of [extractPort]: the last colon before digits that [users]
    follows, the first three colons before digits that a final [/java] follows. *)
Fixpoint span_digits (s : string) : string * string :=
  match s with
  | String a s' => if bool_decide (digit_of a ≠ None) then let '(d, r) := span_digits s' in (String a d, r) else ("", s)
  | "" => ("", "")
  end.
Fixpoint TrimRight_spaces (s : string) : string :=
  match s with
  | "" => ""
  | String a s =>
      let t := TrimRight_spaces s in
      if bool_decide (t = "") && bool_decide (a ∈ [byte 9; byte 10; byte 12; byte 13; byte 32]) then ""
      else String a t
  end.
Fixpoint port_ss (s : string) : string :=
  match s with
  | "" => ""
  | String a s =>
      let later := port_ss s in
      if bool_decide (later ≠ "") then later else
      let '(d, r) := span_digits s in
      if bool_decide (a = ":"%char) && bool_decide (d ≠ "") && StrContains r "users" then d else ""
  end.
Fixpoint port_netstat (s : string) : string :=
  match s with
  | "" => ""
  | String a s' =>
      let '(d, r) := span_digits (String.substring 3 (String.length s) s) in
      if HasPrefix s ":::" && bool_decide (d ≠ "") && HasSuffix (TrimRight_spaces r) "/java" then d
      else port_netstat s'
  end.
Definition extractPort (line network_type : string) : string :=
  if decide (network_type = "netstat") then port_netstat line else port_ss line.

Definition ss_shell : Shell :=
  AddOption "--listening" (AddOption "--processes" (AddOption "--no-header" (AddOption "-n"
    (sh_SocketStatistics "" NewShell)))).
Definition netstat_shell : Shell := AddOption "-tulnp" (sh_Netstat "" NewShell).
Definition exec_in (ContainerId command : string) : Shell := docker_ContainerExec ContainerId command NewShell.
Definition ports_of (out network_type : string) : string :=
  Join (filter (λ p, p ≠ "") ((λ line, extractPort line network_type) <$> Split out (byte 10))) ",".

Definition Step2GetListenPorts (ContainerId Status Ports : string) (o : ExecOptions) : Step := λ cl reg w,
  if negb (HasPrefix (str_var reg Status) "Up") then (reg, w, None) else
  match docker_Execute cl (exec_in ContainerId (sh_String ss_shell)) o w with
  | (w, (out, None)) => (set_str Ports (ports_of out "ss") reg, w, None)
  | (w, (_, Some _)) =>
      match docker_Execute cl (exec_in ContainerId (sh_String netstat_shell)) o w with
      | (w, (out, None)) => (set_str Ports (ports_of out "netstat") reg, w, None)
      | (w, (_, Some _)) => (reg, w, None)
      end
  end.

Definition leader_url (dc : DeployConfig) : res error string :=
  ip ← GetListenIp dc; port ← GetListenDummyPort dc;
  Ok ("http://" +:+ ip +:+ ":" +:+ Itoa port +:+ "/vars/dingofs_mds_status?console=1").
Definition step2GetLeader (dc : DeployConfig) (containerId status isLeader : string) (o : ExecOptions)
    : Step := λ cl reg w,
  if negb (HasPrefix (str_var reg status) "Up") then (reg, w, None)
  else if decide (GetRole dc ≠ ROLE_FS_MDS) then (reg, w, None)
  else step_crash (leader_url dc) (λ url cl reg w,
    let '(w, (out, _)) :=
      docker_Execute cl (exec_in containerId ("curl " +:+ url +:+ " --connect-timeout 1 --max-time 3")) o w in
    (set_bool isLeader (StrContains out SIGNATURE_LEADER) reg, w, None)) cl reg w.

Definition format_status (containerId status : string) : string :=
  if decide (containerId = CLEANED_CONTAINER_ID) then SERVICE_STATUS_CLEANED
  else if decide (status = "") then SERVICE_STATUS_LOSED else status.
Definition step2FormatServiceStatus (dc : DeployConfig) (serviceId containerId isLeader ports status : string)
    : Step := λ cl reg w,
  step_crash (service_status dc serviceId containerId (str_var reg ports) (bool_var reg isLeader)
                (format_status containerId (str_var reg status)))
    (λ s _ reg w, (reg, setServiceStatus serviceId s w, None)) cl reg w.

Definition NewInitServiceStatusTask (dc : DeployConfig) : Eff (option Task) :=
  let serviceId := GetServiceId md5 cli (GetId dc) in
  o ← find_container dc;
  match o with
  | None => mret None
  | Some containerId =>
      t ← new_task "Init Service Status" (host_role_container dc containerId) None;
      mret (Some (add_steps [step2InitStatus dc serviceId containerId] t))
  end.

Definition status_steps (dc : DeployConfig) (serviceId containerId : string) : list Step :=
  [list_container containerId STATUS_FORMAT "status"; last_line_of "status";
   Step2GetListenPorts containerId "status" "ports" cli_ExecOptions;
   step2GetLeader dc containerId "status" "isLeader" cli_ExecOptions;
   step2FormatServiceStatus dc serviceId containerId "isLeader" "ports" "status"].
Definition NewGetServiceStatusTask (dc : DeployConfig) : Eff (option Task) :=
  container_task "Get Service Status" dc (λ containerId,
    Ok (status_steps dc (GetServiceId md5 cli (GetId dc)) containerId)).
End services.
