(* ===== verification/ClientCfg.v ===== *)
(** The configuration of a client (src/internal/configure/client.go): its options, the ones
    that are handed to the service, the checks and the getters. *)

From S2P Require Import Prelude Errno GoLib Utils Vars DeployConfig Topology.

(** ** Keys *)

Definition KEY_KIND : string := "kind".
Definition KEY_CONTAINER_IMAGE : string := "container_image".
Definition KEY_LOG_DIR : string := "log_dir".
Definition KEY_DATA_DIR : string := "data_dir".
Definition KEY_CORE_DIR : string := "core_dir".
Definition KEY_CACHE_DIR : string := "mount_dirs".
Definition KEY_DINGOFS_LISTEN_MDS_ADDRS : string := "mdsOpt.rpcRetryOpt.addrs".
Definition KEY_DINGOFS_LISTEN_MDSV2_ADDRS : string := "mds.addr".
Definition KEY_CONTAINER_PID : string := "container_pid".
Definition KEY_ENVIRONMENT : string := "env".
Definition KEY_DISK_CACHE_CACHE_DIR : string := "disk_cache.cache_dir".
Definition KEY_STORAGE_TYPE : string := "storage.type".
Definition KEY_CLIENT_S3_ACCESS_KEY : string := "s3.ak".
Definition KEY_CLIENT_S3_SECRET_KEY : string := "s3.sk".
Definition KEY_CLIENT_S3_ADDRESS : string := "s3.endpoint".
Definition KEY_CLIENT_S3_BUCKET_NAME : string := "s3.bucket_name".
Definition KEY_QUOTA_CAPACITY : string := "quota.capacity".
Definition KEY_QUOTA_INODES : string := "quota.inodes".
Definition DEFAULT_CORE_LOCATE_DIR : string := "/core".
Definition FS_TYPE_VKS_V2 : string := "vfs_v2".
Definition DEFAULT_DINGOFS_CLIENT_CONTAINER_IMAGE : string := "dingodatabase/dingofs:latest".

Definition excludeClientConfig : list string :=
  [KEY_CONTAINER_IMAGE; KEY_LOG_DIR; KEY_DATA_DIR; KEY_CORE_DIR; KEY_CACHE_DIR; KEY_CONTAINER_PID; KEY_ENVIRONMENT].

Record ClientConfig : Type := mkClientConfig {
  cc_config : gmap string val;
  cc_serviceConfig : gmap string string;
  cc_variables : Variables;
  cc_data : string }.

(** ** Reading an option

    The assertion of its type panics. *)
Definition cc_getString (cc : ClientConfig) (key : string) : res error string :=
  match cc_config cc !! ToLower key with
  | None | Some VNil => Ok ""
  | Some (VString s) => Ok s
  | Some _ => Panic
  end.
Definition cc_getBool (cc : ClientConfig) (key : string) : res error bool :=
  match cc_config cc !! ToLower key with
  | None | Some VNil => Ok false
  | Some (VBool b) => Ok b
  | Some _ => Panic
  end.
Definition cc_getDigital (cc : ClientConfig) (key : string) : res error Z :=
  match cc_config cc !! ToLower key with
  | None | Some VNil => Ok 0%Z
  | Some (VInt z) => Ok z
  | Some _ => Panic
  end.

Definition cc_GetKind cc := cc_getString cc KEY_KIND.
Definition cc_GetDataDir cc := cc_getString cc KEY_DATA_DIR.
Definition cc_GetLogDir cc := cc_getString cc KEY_LOG_DIR.
Definition cc_GetCoreDir cc := cc_getString cc KEY_CORE_DIR.
Definition cc_GetMapperCacheDir cc := cc_getString cc KEY_CACHE_DIR.
Definition cc_GetStorageType cc := cc_getString cc KEY_STORAGE_TYPE.
Definition cc_GetS3AccessKey cc := cc_getString cc KEY_CLIENT_S3_ACCESS_KEY.
Definition cc_GetS3SecretKey cc := cc_getString cc KEY_CLIENT_S3_SECRET_KEY.
Definition cc_GetS3Address cc := cc_getString cc KEY_CLIENT_S3_ADDRESS.
Definition cc_GetS3BucketName cc := cc_getString cc KEY_CLIENT_S3_BUCKET_NAME.
Definition cc_GetContainerPid cc := cc_getString cc KEY_CONTAINER_PID.
Definition cc_GetEnvironments cc := cc_getString cc KEY_ENVIRONMENT.
Definition cc_GetQuotaCapacity cc := cc_getDigital cc KEY_QUOTA_CAPACITY.
Definition cc_GetQuotaInodes cc := cc_getDigital cc KEY_QUOTA_INODES.
Definition cc_GetContainerImage (cc : ClientConfig) : res error string :=
  containerImage ← cc_getString cc KEY_CONTAINER_IMAGE;
  Ok (if decide (containerImage = "") then DEFAULT_DINGOFS_CLIENT_CONTAINER_IMAGE else containerImage).
Definition cc_GetClusterMDSAddr (cc : ClientConfig) (mountFSType : string) : res error string :=
  if decide (mountFSType = FS_TYPE_VKS_V2) then cc_getString cc KEY_DINGOFS_LISTEN_MDSV2_ADDRS
  else cc_getString cc KEY_DINGOFS_LISTEN_MDS_ADDRS.

(** ** Paths in the container *)

Definition GetFSClientPrefix : res error string :=
  l ← GetDingoFSProjectLayout; Ok (ProjectRootDir l +:+ "/client").
Definition GetFSClientConfPath : res error string :=
  l ← GetDingoFSProjectLayout; Ok (ProjectRootDir l +:+ "/client/conf/client.conf").
Definition GetFSClientMountPath (subPath : string) : string := "/host" +:+ subPath.

(** ** Making a configuration *)

(** The options of the service, in the order the map is walked. *)
Fixpoint service_config (l : list (string * val)) (m : gmap string string) : res error (gmap string string) :=
  match l with
  | [] => Ok m
  | (k, v) :: l =>
      match All2Str v with
      | None => Err (ECode ERR_UNSUPPORT_CLIENT_CONFIGURE_VALUE_TYPE)
      | Some value => service_config l (if decide (k ∈ excludeClientConfig) then m else <[k := value]> m)
      end
  end.

Section config.
Context (stack : nat) `{MapOrder}.

Definition client_variables : res error Variables :=
  let '(vars, _) := Register NewVariables (mkVariable "prefix" "" "/dingofs/client" false) in
  wrap_err ERR_RESOLVE_CLIENT_VARIABLE_FAILED (vars_Build stack vars).

Definition NewClientConfig (config : gmap string val) (mountFSType : string) : res error ClientConfig :=
  serviceConfig ← service_config (range config) ∅;
  vars ← client_variables;
  let cc := mkClientConfig config serviceConfig vars "" in
  kind ← cc_GetKind cc;
  if decide (kind ≠ KIND_DINGOFS) then Err (ECode ERR_UNSUPPORT_CLIENT_CONFIGURE_KIND) else
  addr ← cc_GetClusterMDSAddr cc mountFSType;
  if decide (addr = "") then Err (ECode ERR_INVALID_CLUSTER_LISTEN_MDS_ADDRESS) else
  Ok cc.

(** Reading the text is the library's. *)
Context (read_yaml : string → option (gmap string val)).

Definition ParseClientCfg (data : string) : res error ClientConfig :=
  match read_yaml data with
  | None => Err (ECode ERR_PARSE_CLIENT_CONFIGURE_FAILED)
  | Some config => NewClientConfig config ""
  end.

(** The file is read twice, once for its text and once by the library, which adds the
    default of an option the file does not set. *)
Definition ParseClientConfig (text text' : option string) (mountFSType : string) : res error ClientConfig :=
  match text with
  | None => Err (ECode ERR_PARSE_CLIENT_CONFIGURE_FAILED)
  | Some data =>
      match text' ≫= read_yaml with
      | None => Err (ECode ERR_PARSE_CLIENT_CONFIGURE_FAILED)
      | Some m =>
          let m := match m !! KEY_DISK_CACHE_CACHE_DIR with
                   | None => <[KEY_DISK_CACHE_CACHE_DIR := VString ""]> m | Some _ => m end in
          cfg ← NewClientConfig m mountFSType;
          Ok (mkClientConfig (cc_config cfg) (cc_serviceConfig cfg) (cc_variables cfg) data)
      end
  end.
End config.

(** ** What an accepted configuration is *)

(** The text of every option but the excluded ones. *)
Definition service_option (config : gmap string val) (k : string) : option string :=
  if decide (k ∈ excludeClientConfig) then None else config !! k ≫= All2Str.

Lemma service_config_spec l m m' :
  NoDup l.*1 → service_config l m = Ok m' →
  ∀ k, m' !! k = match (list_to_map l : gmap string val) !! k with
                 | Some v => if decide (k ∈ excludeClientConfig) then m !! k else All2Str v
                 | None => m !! k end.
Proof.
  revert m; induction l as [|[k0 v0] l IH]; intros m; simpl; [by intros _ [= <-] k; rewrite lookup_empty|].
  intros [Hk0 Hnd]%NoDup_cons. destruct (All2Str v0) as [s|] eqn:Hv; [|done]. intros Hs k.
  rewrite (IH _ Hnd Hs k). destruct (decide (k = k0)) as [->|Hk].
  - rewrite lookup_insert_eq, not_elem_of_list_to_map_1 by done. case_decide; [done|]. by rewrite lookup_insert_eq.
  - rewrite lookup_insert_ne by done. case_decide; [done|]. by rewrite lookup_insert_ne.
Qed.
Lemma service_config_typed l m m' k v :
  service_config l m = Ok m' → (k, v) ∈ l → is_Some (All2Str v).
Proof.
  revert m; induction l as [|[k0 v0] l IH]; intros m; simpl; [by intros _ ?%elem_of_nil|].
  destruct (All2Str v0) as [s|] eqn:Hv; [|done]. intros Hs [[= -> ->]|Hin]%elem_of_cons; [by eexists|by eapply IH].
Qed.
Lemma service_config_total l m :
  Forall (λ kv, is_Some (All2Str kv.2)) l → ∃ m', service_config l m = Ok m'.
Proof.
  intros Hl. revert m; induction Hl as [|[k v] l [s Hs] _ IH]; intros m; simpl in *; [by eexists|].
  rewrite Hs. apply IH.
Qed.

Lemma range_one `{MapOrder} {V} k (v : V) : range {[k := v]} = [(k, v)].
Proof. apply Permutation_singleton_r. by rewrite range_perm, map_to_list_singleton. Qed.
Lemma range_map `{MapOrder} {V} (m : gmap string V) : list_to_map (range m) = m.
Proof.
  rewrite <-(list_to_map_to_list m) at 2. apply list_to_map_proper; [|apply range_perm].
  rewrite range_perm. apply NoDup_fst_map_to_list.
Qed.
Lemma range_keys_nodup `{MapOrder} {V} (m : gmap string V) : NoDup (range m).*1.
Proof. rewrite range_perm. apply NoDup_fst_map_to_list. Qed.

Section accepted.
Context `{MapOrder} (stack : nat).

Lemma client_variables_ok : client_variables (S stack) =
  Ok {| vmap := {["prefix" := mkVariable "prefix" "" "/dingofs/client" true]}; vr := true |}.
Proof.
  unfold client_variables, Register, vars_Build, Build. cbn [vmap NewVariables Name].
  rewrite lookup_empty. cbn [vmap]. rewrite insert_empty, range_one. cbn -[refs insert lookup].
  rewrite lookup_singleton_eq. cbn -[refs insert lookup]. replace (refs _) with (@nil string) by by vm_compute.
  by rewrite insert_singleton_eq.
Qed.

Lemma service_config_range config m :
  service_config (range config) ∅ = Ok m → ∀ k, m !! k = service_option config k.
Proof.
  intros Hs k. rewrite (service_config_spec _ _ _ (range_keys_nodup config) Hs), range_map, lookup_empty.
  unfold service_option. by destruct (config !! k); case_decide.
Qed.

Definition mds_address_key (mountFSType : string) : string :=
  ToLower (if decide (mountFSType = FS_TYPE_VKS_V2) then KEY_DINGOFS_LISTEN_MDSV2_ADDRS else KEY_DINGOFS_LISTEN_MDS_ADDRS).

Lemma getString_option cc key t :
  t ≠ "" → cc_getString cc key = Ok t ↔ cc_config cc !! ToLower key = Some (VString t).
Proof.
  intros Ht. unfold cc_getString.
  split; [intros Hc; by destruct (cc_config cc !! _) as [[]|]; simplify_eq|by intros ->].
Qed.
Lemma address_option cc fs addr :
  addr ≠ "" → cc_GetClusterMDSAddr cc fs = Ok addr ↔ cc_config cc !! mds_address_key fs = Some (VString addr).
Proof. intros Ha. unfold cc_GetClusterMDSAddr, mds_address_key. by case_decide; apply getString_option. Qed.
Lemma kind_option cc : cc_GetKind cc = Ok KIND_DINGOFS ↔ cc_config cc !! KEY_KIND = Some (VString KIND_DINGOFS).
Proof. by apply (getString_option cc KEY_KIND). Qed.

(** A configuration is accepted exactly when every option is a text, a number or a truth
    value, the kind is the one of the file system and the servers of the file system have
    an address. *)
Theorem NewClientConfig_accepts config fs :
  (∃ cc, NewClientConfig (S stack) config fs = Ok cc) ↔
  (∀ k v, config !! k = Some v → is_Some (All2Str v)) ∧
  config !! KEY_KIND = Some (VString KIND_DINGOFS) ∧
  ∃ addr, addr ≠ "" ∧ config !! mds_address_key fs = Some (VString addr).
Proof.
  unfold NewClientConfig. rewrite client_variables_ok. split.
  - intros (cc & (m & Hs & Hc)%bind_Ok). simpl in Hc. apply bind_Ok in Hc as (kind & Hk & Hc).
    case_decide as Hd; [done|]. subst kind. apply bind_Ok in Hc as (addr & Ha & Hc).
    case_decide; [done|]. split_and!.
    + intros k v Hkv. eapply service_config_typed; [done|].
      by rewrite range_perm, elem_of_map_to_list.
    + by apply kind_option in Hk.
    + exists addr. split; [done|]. by apply address_option in Ha.
  - intros (Hall & Hk & addr & Hne & Ha). destruct (service_config_total (range config) ∅) as [m Hm].
    { apply Forall_forall. intros [k v]. rewrite range_perm, elem_of_map_to_list. apply Hall. }
    rewrite Hm. simpl. rewrite (proj2 (kind_option (mkClientConfig config m _ "")) Hk). simpl.
    rewrite (proj2 (address_option (mkClientConfig config m _ "") fs addr Hne) Ha). simpl.
    rewrite decide_False by done. by eexists.
Qed.

(** What is made of it: the service gets the text of every option but the excluded ones,
    whatever the order in which the options are walked. *)
Theorem NewClientConfig_options config fs cc :
  NewClientConfig (S stack) config fs = Ok cc →
  cc_config cc = config ∧ (∀ k, cc_serviceConfig cc !! k = service_option config k) ∧
  Vars.Get (cc_variables cc) "prefix" = Ok "/dingofs/client".
Proof.
  unfold NewClientConfig. rewrite client_variables_ok. intros (m & Hs & Hc)%bind_Ok. simpl in Hc.
  apply bind_Ok in Hc as (kind & _ & Hc). case_decide; [done|]. apply bind_Ok in Hc as (addr & _ & Hc).
  case_decide; [done|]. injection Hc as <-. simpl. split_and!; [done| |done]. by apply service_config_range.
Qed.
End accepted.

(** A kind that is not a text is not an error: the process ends. *)
Example numeric_kind_panics :
  NewClientConfig (H := canonical_order) 10 {["kind" := VInt 1]} "" = Panic.
Proof. by vm_compute. Qed.
