(* ===== verification/EnvChecks.v ===== *)
(** The checks of the environment (src/internal/task/task/checker: ssh.go, permission.go,
    kernel.go, network.go, service.go, date.go): the tasks the precheck runs on the host of every
    service before anything is deployed. *)

From S2P Require Import Prelude Errno GoLib SafeMap HostDate Utils Storage CliConfig Hosts Cli Tasks Playbook Deploy ServiceCmd Shell Steps Vars DeployConfig Topology ServiceEnv Services Checker ClientCfg.
From Stdlib Require Import Ascii.

(** ** Texts *)

Definition SIGNATURE_USER_NOT_FOUND : string := "unknown user".
Definition SIGNATURE_PERMISSION_DENIED : string := "permission denied".
Definition SIGNATURE_PERMISSION_WITH_PASSWORD : string := "respect the privacy of others".
Definition SIGNATURE_COMMAND_NOT_FOUND : string := "not found".
Definition SIGNATURE_DOCKER_DEAMON_IS_NOT_RUNNING : string := "is the docker daemon running".

Definition CHUNKSERVER_LEAST_KERNEL_VERSION : string := "3.15.0".
Definition HTTP_SERVER_CONTAINER_NAME : string := "dingocli-precheck-nginx".
Definition CHECK_PORT_CONTAINER_NAME : string := "dingocli-precheck-port".
Definition RTNETLINK_INVALID : string := "RTNETLINK answers: Invalid argument".
Definition KERNERL_MODULE_NBD : string := "nbd".
Definition KERNERL_MODULE_FUSE : string := "fuse".
Definition KEY_CLIENT_HOST : string := "CLIENT_HOST".
Definition KEY_CHECK_KERNEL_MODULE_NAME : string := "CHECK_KERNEL_MODULE_NAME".
Definition KEY_FSTYPE : string := "FSTYPE".

(** ** Versions of kernels *)

(** [strconv.Atoi] without a look at its error: zero for a text that is no number, the end of
    the range for a number outside it. *)
Definition Atoi_value (s : string) : Z :=
  match Atoi s with
  | Some n => n
  | None => if bool_decide (s ≠ "" ∧ (span_digits s).2 = "") then 2 ^ 63 - 1 else 0
  end.
Definition calcKernelVersion (version : string) : Z :=
  foldl (λ num item, wrap64 (num * 1000 + Atoi_value item)) 0%Z (Split version "."%char).

(** One number and what follows it. *)
Definition number (s : string) : option (string * string) :=
  let '(d, r) := span_digits s in if decide (d = "") then None else Some (d, r).
Definition after_dot (s : string) : option string :=
  match s with String "."%char s => Some s | _ => None end.
(** [(?:[-_].+)?$]: nothing, or a dash or an underscore and a text without newline. *)
Definition kernel_suffix (s : string) : bool :=
  match s with
  | "" => true
  | String a s => bool_decide (a = "-"%char ∨ a = "_"%char) && negb (bool_decide (s = "")) &&
                  negb (StrContains s newline)
  end.
(** The submatch of [^(\d+\.\d+\.\d+)(?:[-_].+)?$]. *)
Definition kernel_release (s : string) : option string :=
  '(a, s) ← number s; s ← after_dot s;
  '(b, s) ← number s; s ← after_dot s;
  '(c, s) ← number s;
  if kernel_suffix s then Some (a +:+ "." +:+ b +:+ "." +:+ c) else None.

Section checks.
Context {W : Type} `{World W} `{Driver}.
Context (os : OS) `{MapOrder} (parse_hosts : string → option Hosts_) (md5 : string → string).
Context (START_NGINX : string).
Context (cli : DingoCli) (cfg : DingoCliConfig).
Notation Task := (Tasks.Task W SSHConfig SSHConfig).
Notation Step := (Tasks.Step (W := W) (Client := SSHConfig)).
Notation Eff := (eff error W).
Notation options := (cli_ExecOptions cfg).

Definition fail (e : ErrorCode) : option terror := Some (EOther (ECode e)).
(** A lambda that only looks at the variables. *)
Definition verdict (f : Tasks.Register → option terror) : Step := Lambda (λ reg w, (reg, w, f reg)).

(** ** ssh.go *)

Definition host_error (r : res error unit) : Step := λ cl reg w,
  match r with Ok _ => (reg, w, None) | Err e => (reg, w, Some (EOther e)) | Panic => (reg, crash w, None) end.
Definition checkHost (hc : HostConfig) : Step := host_error (
  privateKeyFile ← GetPrivateKeyFile os hc;
  agent ← GetForwardAgent hc;
  if agent : bool then Ok () else
  match file_mode os privateKeyFile with
  | None => Err (ECode ERR_PRIVATE_KEY_FILE_NOT_EXIST)
  | Some mode => if decide (mode ≠ PERMISSIONS_600)
                 then Err (ECode ERR_PRIVATE_KEY_FILE_REQUIRE_600_PERMISSIONS) else Ok ()
  end).
Definition doNothing : Step := Lambda (λ reg w, (reg, w, None)).

(** A task on the host of a service. *)
Definition host_task (name : string) (dc : DeployConfig) (subname : HostConfig → res error string)
    (l : HostConfig → res error (list Step)) : Eff (option Task) :=
  hc ← pure_eff (dc_host os parse_hosts cli dc);
  sub ← pure_eff (subname hc);
  c ← pure_eff (host_ssh os cfg hc);
  t ← new_task name sub (Some c);
  l ← pure_eff (l hc);
  mret (Some (add_steps l t)).

Definition NewCheckSSHConnectTask (dc : DeployConfig) : Eff (option Task) :=
  host_task "Check SSH Connect <ssh>" dc
    (λ hc, agent ← GetForwardAgent hc;
           Ok ("host=" +:+ DeployConfig.GetHost dc +:+ " method=" +:+ Choose agent "forwardAgent" "privateKey"))
    (λ hc, Ok [checkHost hc; doNothing]).

(** ** permission.go *)

Definition checkUser (success out : string) : Step := verdict (λ reg,
  if bool_var reg success then None
  else if StrContains (str_var reg out) SIGNATURE_USER_NOT_FOUND then fail ERR_USER_NOT_FOUND
  else fail ERR_UNKNOWN).
Definition checkHostname (success : string) : Step := verdict (λ reg,
  if bool_var reg success then None else fail ERR_HOSTNAME_NOT_RESOLVED).

(** A failure that is not one of permissions is no error. *)
Definition directory_failure (out : string) : option terror :=
  if StrContains out SIGNATURE_PERMISSION_DENIED then fail ERR_CREATE_DIRECOTRY_PERMISSION_DENIED
  else if StrContains out SIGNATURE_PERMISSION_WITH_PASSWORD
  then fail ERR_CREATE_DIRECOTRY_PERMISSION_DENIED
  else None.
Definition checkCreateDirectory (success out : string) : Step := Lambda (λ reg w,
  if bool_var reg success then (reg, w, None) else
  let text := ToLower (str_var reg out) in (set_str out text reg, w, directory_failure text)).

Definition engine_failure (out : string) : ErrorCode :=
  if StrContains out SIGNATURE_COMMAND_NOT_FOUND then ERR_CONTAINER_ENGINE_NOT_INSTALLED
  else if StrContains out SIGNATURE_PERMISSION_DENIED
  then ERR_EXECUTE_CONTAINER_ENGINE_COMMAND_PERMISSION_DENIED
  else if StrContains out SIGNATURE_PERMISSION_WITH_PASSWORD
  then ERR_EXECUTE_CONTAINER_ENGINE_COMMAND_PERMISSION_DENIED
  else if StrContains out SIGNATURE_DOCKER_DEAMON_IS_NOT_RUNNING then ERR_DOCKER_DAEMON_IS_NOT_RUNNING
  else ERR_UNKNOWN.
Definition CheckEngineInfo (success out : string) : Step := Lambda (λ reg w,
  if bool_var reg success then (reg, w, None) else
  let text := ToLower (str_var reg out) in (set_str out text reg, w, fail (engine_failure text))).

Definition directory_steps (dir : Directory) : list Step :=
  [CreateDirectory [d_Path dir] (Some "success") (Some "out") (without_sudo options);
   checkCreateDirectory "success" "out"].
Definition permission_steps (dirs : list Directory) : list Step :=
  [Whoami (Some "success") (Some "out") (without_sudo options);
   checkUser "success" "out";
   Hostname_ None (Some "hostname") options;
   (λ cl reg, Ping (str_var reg "hostname") 1 1 (Some "success") None options cl reg);
   checkHostname "success"] ++
  (dirs ≫= directory_steps) ++
  [EngineInfo (Some "success") (Some "out") options; CheckEngineInfo "success" "out"].

Definition NewCheckPermissionTask (dc : DeployConfig) : Eff (option Task) :=
  host_task "Check Permission <permission>" dc (λ _, Ok (host_role dc))
    (λ _, dirs ← getServiceDirectorys dc; Ok (permission_steps dirs)).

(** ** kernel.go *)

(** What a release is, when the option for renameat2 is on. *)
Definition kernel_verdict (out : string) : option terror :=
  match kernel_release out with
  | None => fail ERR_UNRECOGNIZED_KERNEL_VERSION
  | Some current =>
      if (calcKernelVersion current <? calcKernelVersion CHUNKSERVER_LEAST_KERNEL_VERSION)%Z
      then fail ERR_RENAMEAT_NOT_SUPPORTED_IN_CURRENT_KERNEL else None
  end.
Definition checkKernelVersion (out : string) (dc : DeployConfig) : Step :=
  step_crash (GetEnableRenameAt2 dc) (λ enabled, verdict (λ reg,
    if enabled : bool then kernel_verdict (str_var reg out) else None)).
Definition NewCheckKernelVersionTask (dc : DeployConfig) : Eff (option Task) :=
  host_task "Check Kernel Version <kernel>" dc
    (λ _, Ok (host_role dc +:+ " require=(>=" +:+ CHUNKSERVER_LEAST_KERNEL_VERSION +:+ ")"))
    (λ _, Ok [UnixName true (Some "out") options; checkKernelVersion "out" dc]).

Definition checkKernelModule (name success : string) : Step := verdict (λ reg,
  if bool_var reg success then None
  else if decide (name = KERNERL_MODULE_NBD) then fail ERR_KERNEL_NBD_MODULE_NOT_LOADED
  else if decide (name = KERNERL_MODULE_FUSE) then fail ERR_KERNEL_FUSE_MODULE_NOT_LOADED
  else None).
(** A text of the memory storage: without one the assertion of its type panics. *)
Definition mem_string (key : string) : Eff string := λ w,
  (w, match mem w !! key with Some (OString s) => Ok s | _ => Panic end).
Definition NewCheckKernelModuleTask : Eff (option Task) :=
  host ← mem_string KEY_CLIENT_HOST;
  hc ← pure_eff (cli_GetHost os parse_hosts cli host);
  name ← mem_string KEY_CHECK_KERNEL_MODULE_NAME;
  c ← pure_eff (host_ssh os cfg hc);
  t ← new_task "Check Kernel Module" ("host=" +:+ host +:+ " module=" +:+ name) (Some c);
  mret (Some (add_steps [ModInfo name (Some "success") (Some "out") options;
                         checkKernelModule name "success"] t)).

(** ** network.go: ports *)

Definition port_verdict (success : bool) (out : string) : option terror :=
  if negb success then fail ERR_GET_CONNECTION_INFORMATION_FAILED
  else if decide (out = "" ∨ out = RTNETLINK_INVALID) then None
  else fail ERR_PORT_ALREADY_IN_USE.
Definition checkPortInUse (success out : string) : Step := verdict (λ reg,
  port_verdict (bool_var reg success) (str_var reg out)).

Definition joinPorts (dc : DeployConfig) (addresses : list Address) : string :=
  Join (((λ a, Itoa (a_Port a)) <$> addresses) ++ (if (1 <? GetInstances dc)%Z then ["..."] else [])) ",".
Definition check_container_name (prefix : string) (dc : DeployConfig) : string :=
  prefix +:+ "-" +:+ GetRole dc +:+ "-" +:+ GetServiceId md5 cli (GetId dc).
Definition getCheckPortContainerName : DeployConfig → string :=
  check_container_name CHECK_PORT_CONTAINER_NAME.

(** [ss] for the sockets that listen on the port, run inside the container. *)
Definition ss_command (port : Z) : string :=
  sh_String (AddOption "--listening" (AddOption "--no-header"
    (sh_SocketStatistics ("( sport = :" +:+ Itoa port +:+ " )") NewShell))).
Definition step2CheckPortStatus (containerId success : string) (port : Z) : Step := λ cl reg w,
  each_step [ContainerExec (str_var reg containerId) (ss_command port) (Some success) (Some "ss") options;
             checkPortInUse success "ss"] cl reg w.

Definition check_container (image name entry_command : string) : CreateContainer_ :=
  mkCreate image entry_command [] [] "/bin/bash" [] "" false [] "" name "" "" "" "" false true "" [] [] [].
Definition started (containerId : string) : Step := λ cl reg,
  StartContainer (str_var reg containerId) (Some "success") (Some "out") options cl reg.
Definition port_steps (image name : string) (addresses : list Address) : list Step :=
  [PullImage image None options;
   CreateContainer (check_container image name "-c 'sleep infinity'") (Some "containerId") options;
   started "containerId"] ++
  ((λ a, step2CheckPortStatus "containerId" "success" (a_Port a)) <$> addresses).

Definition ports_subname (dc : DeployConfig) (addresses : list Address) : string :=
  host_role dc +:+ " ports={" +:+ joinPorts dc addresses +:+ "}".
Definition NewCheckPortInUseTask (dc : DeployConfig) : Eff (option Task) :=
  _ ← pure_eff (dc_host os parse_hosts cli dc);
  if decide (GetRole dc = ROLE_FS_MDS_CLI ∨ GetRole dc = ROLE_DINGODB_EXECUTOR) then mret None else
  addresses ← pure_eff (getServiceListenAddresses dc);
  host_task "Check Port In Use <network>" dc (λ _, Ok (ports_subname dc addresses))
    (λ _, image ← GetContainerImage dc; Ok (port_steps image (getCheckPortContainerName dc) addresses)).

(** ** network.go: reachability *)

Definition unique (addresses : list Address) : list string :=
  (foldl (λ '(out, m) a, (if decide (a_IP a ∈ (m : gset string)) then out else out ++ [a_IP a], {[a_IP a]} ∪ m))
     ([], ∅) addresses).1.
Definition checkReachable (success : string) : Step := verdict (λ reg,
  if bool_var reg success then None else fail ERR_DESTINATION_UNREACHABLE).
(** The configs of all services, from the memory storage. *)
Definition all_configs : Eff (list DeployConfig) := λ w,
  (w, match mem w !! KEY_ALL_DEPLOY_CONFIGS with Some (ODcs l) => Ok l | _ => Panic end).
Definition TrimAddress (address : string) : string :=
  if decide (30 < String.length address) then String.substring 0 30 address +:+ "..." else address.

Definition ping_steps (address : string) : list Step :=
  [Ping address 1 0 (Some "success") (Some "out") options; checkReachable "success"].
Definition NewCheckDestinationReachableTask (dc : DeployConfig) : Eff (option Task) :=
  _ ← pure_eff (dc_host os parse_hosts cli dc);
  dcs ← all_configs;
  connect ← pure_eff (getServiceConnectAddress dc dcs);
  let addresses := unique connect in
  host_task "Check Destination Reachable <network>" dc
    (λ _, Ok (host_role dc +:+ " ping={" +:+ TrimAddress (Join addresses ",") +:+ "}"))
    (λ _, Ok (addresses ≫= ping_steps)).

(** ** network.go: servers and firewall *)

Definition getNginxListens (addresses : list Address) : string :=
  Join ((λ a, "listen " +:+ address_key a +:+ ";") <$> addresses) " ".
Definition getHTTPServerContainerName : DeployConfig → string :=
  check_container_name HTTP_SERVER_CONTAINER_NAME.
Definition waitNginxStarted (seconds : Z) : Step := Lambda (λ reg w, (reg, Sleep seconds w, None)).

Definition NGINX_SCRIPT : string := "/usr/bin/start_nginx".
Definition server_steps (image name : string) (addresses : list Address) : list Step :=
  [PullImage image None options;
   CreateContainer (check_container image name (NGINX_SCRIPT +:+ " '" +:+ getNginxListens addresses +:+ "'"))
     (Some "containerId") options;
   InstallFile (λ _, START_NGINX) "" (λ reg, str_var reg "containerId") NGINX_SCRIPT options;
   started "containerId";
   waitNginxStarted 5].
Definition NewStartHTTPServerTask (dc : DeployConfig) : Eff (option Task) :=
  _ ← pure_eff (dc_host os parse_hosts cli dc);
  addresses ← pure_eff (getServiceListenAddresses dc);
  host_task "Start Mock HTTP Server <network>" dc (λ _, Ok (ports_subname dc addresses))
    (λ _, image ← GetContainerImage dc; Ok (server_steps image (getHTTPServerContainerName dc) addresses)).

Definition step2CheckConnectStatus (success : string) : Step := verdict (λ reg,
  if bool_var reg success then None else fail ERR_CONNET_MOCK_SERVICE_ADDRESS_FAILED).
Definition connect_steps (a : Address) : list Step :=
  [Curl ("http://" +:+ address_key a) "" false "/dev/null" false (Some "success") (Some "out") options;
   step2CheckConnectStatus "success"].
Definition NewCheckNetworkFirewallTask (dc : DeployConfig) : Eff (option Task) :=
  _ ← pure_eff (dc_host os parse_hosts cli dc);
  dcs ← all_configs;
  addresses ← pure_eff (getServiceConnectAddress dc dcs);
  host_task "Check Network Firewall <network>" dc (λ _, Ok (host_role dc)) (λ _, Ok (addresses ≫= connect_steps)).

(** ** network.go: cleaning up *)

(** The container whose id a step before has printed. *)
Definition step2StopContainer (containerId : string) : Step := λ cl reg w,
  let id := str_var reg containerId in
  if decide (id = "") then (reg, w, None) else
  each_step [StopContainer id 1 (Some containerId) options;
             RemoveContainer id (Some "removed") None options] cl reg w.
Definition list_named (name : string) : Step :=
  ListContainers ID_FORMAT ("name=" +:+ name) false true (Some "out") options.
Definition clean_environment_steps (dc : DeployConfig) : list Step :=
  [list_named (getCheckPortContainerName dc); step2StopContainer "out";
   list_named (getHTTPServerContainerName dc); step2StopContainer "out"].
Definition NewCleanEnvironmentTask (dc : DeployConfig) : Eff (option Task) :=
  host_task "Clean Precheck Environment" dc (λ _, Ok (host_role dc)) (λ _, Ok (clean_environment_steps dc)).

(** ** service.go *)

(** The task of the check of S3 does nothing: its step always succeeds. *)
Definition NewCheckS3Task (dc : DeployConfig) : Eff (option Task) :=
  t ← new_task "Check S3" (host_role dc) None;
  _ ← pure_eff (GetS3AccessKey dc);
  _ ← pure_eff (GetS3SecretKey dc);
  _ ← pure_eff (GetS3Address dc);
  _ ← pure_eff (GetS3BucketName dc);
  mret (Some (add_steps [doNothing] t)).

(** The options of the client that reach its storage, in the order they are looked at. *)
Definition s3_items (cc : ClientConfig) : list (res error string * ErrorCode) :=
  [(cc_GetS3AccessKey cc, ERR_INVALID_DINGOFS_CLIENT_S3_ACCESS_KEY);
   (cc_GetS3SecretKey cc, ERR_INVALID_DINGOFS_CLIENT_S3_SECRET_KEY);
   (cc_GetS3Address cc, ERR_INVALID_DINGOFS_CLIENT_S3_ADDRESS);
   (cc_GetS3BucketName cc, ERR_INVALID_DINGOFS_CLIENT_S3_BUCKET_NAME)].
Fixpoint check_items (l : list (string * ErrorCode)) : res error unit :=
  match l with
  | [] => Ok ()
  | (value, e) :: l => if decide (value = S3_TEMPLATE_VALUE ∨ value = "") then Err (ECode e) else check_items l
  end.
(** All the values are read before the first is looked at. *)
Fixpoint read_items (l : list (res error string * ErrorCode)) : res error (list (string * ErrorCode)) :=
  match l with
  | [] => Ok []
  | (v, e) :: l => v ← v; l ← read_items l; Ok ((v, e) :: l)
  end.
Definition step2CheckClientS3Configure (cc : ClientConfig) : Step :=
  host_error (l ← read_items (s3_items cc); check_items l).

Definition NewCheckMdsAddressTask (cc : ClientConfig) : Eff (option Task) :=
  host ← mem_string KEY_CLIENT_HOST;
  hc ← pure_eff (cli_GetHost os parse_hosts cli host);
  fstype ← mem_string KEY_FSTYPE;
  address ← pure_eff (cc_GetClusterMDSAddr cc fstype);
  c ← pure_eff (host_ssh os cfg hc);
  t ← new_task "Check MDS Address" ("host=" +:+ host +:+ " address=" +:+ address) (Some c);
  mret (Some t).
Definition NewClientS3ConfigureTask (cc : ClientConfig) : Eff (option Task) :=
  t ← new_task "Check S3 Configure <service>" "" None;
  mret (Some (add_steps [step2CheckClientS3Configure cc] t)).
(** No task at all. *)
Definition NewCheckDiskUsageTask (cc : ClientConfig) : Eff (option Task) := mret None.

(** ** date.go

    The dates are in the shared map of the memory storage; what a goroutine does with it, and
    when, is the matter of HostDate.v.  The local clock is only shown. *)
Context (now : W → Z) (on_dates : cmd HostDate.Time → W → W) (all_dates : W → gmap string HostDate.Time).

Definition step2Pre : Step := Lambda (λ reg w, (reg, w, None)).
Definition date_step2Post (host out : string) : Step := Lambda (λ reg w,
  match HostDate.step2Post host (str_var reg out) with
  | Ok c => (reg, on_dates c w, None)
  | Err e => (reg, w, Some (EOther e))
  | Panic => (reg, crash w, None)
  end).
Definition NewGetHostDate (dc : DeployConfig) : Eff (option Task) :=
  hc ← pure_eff (dc_host os parse_hosts cli dc);
  start ← (λ w, (w, Ok (now w)));
  c ← pure_eff (host_ssh os cfg hc);
  t ← new_task "Get Host Date <date>"
        ("host=" +:+ DeployConfig.GetHost dc +:+ " start=" +:+ Itoa start) (Some c);
  mret (Some (add_steps [step2Pre; Date "+%s" (Some "out") options;
                         date_step2Post (DeployConfig.GetHost dc) "out"] t)).
Definition NewCheckDate : Eff (option Task) :=
  t ← new_task "Check Host Date <date>" "" None;
  mret (Some (add_steps [(λ cl reg w, host_error (checkDate (all_dates w)) cl reg w)] t)).
End checks.
