(* ===== verification/ServicesFacts.v ===== *)
(** What the tasks of services promise: creating a container records its id, starting and
    restarting reach a running container or report an error unless there is no container,
    cleaning forgets the container, the status of a service is what the engine says.

    The laws a world has are the classes [WorldLaws] (the database, the statuses and the
    containers are separate) and [EngineLaws] (what [docker create], [docker ps] and
    [docker inspect] answer). *)

From S2P Require Import Prelude Errno GoLib Utils Storage StorageFacts CliConfig Hosts Cli Tasks Playbook Deploy ServiceCmd Shell Steps Vars DeployConfig Topology ServiceEnv Services.
From Stdlib Require Import Ascii.

(** ** Laws *)

(** The id of a container, not the text of a cleaned or missing one. *)
Definition has_container (c : string) : Prop := c ≠ CLEANED_CONTAINER_ID ∧ c ≠ "".

(** The containers of a host, their states by their ids.  Only commands change them and
    commands change nothing else; in a sleep a container may change its state. *)
Class WorldLaws (W : Type) `{World W} := {
  containers : option SSHConfig → W → gmap string string;
  db_set_db d w : db (set_db d w) = d;
  db_run p t c w : db (run p t c w).1 = db w;
  db_Sleep n w : db (Sleep n w) = db w;
  db_NewUUID w : db (NewUUID w).1 = db w;
  db_dial c w : db (ssh_dial c w).1 = db w;
  db_close c w : db (ssh_close c w) = db w;
  db_crash w : db (crash w) = db w;
  db_set_statuses s w : db (set_statuses s w) = db w;
  statuses_set_statuses s w : statuses (set_statuses s w) = s;
  statuses_run p t c w : statuses (run p t c w).1 = statuses w;
  statuses_set_db d w : statuses (set_db d w) = statuses w;
  statuses_NewUUID w : statuses (NewUUID w).1 = statuses w;
  statuses_dial c w : statuses (ssh_dial c w).1 = statuses w;
  statuses_close c w : statuses (ssh_close c w) = statuses w;
  containers_set_db cl d w : containers cl (set_db d w) = containers cl w;
  containers_NewUUID cl w : containers cl (NewUUID w).1 = containers cl w;
  containers_dial cl c w : containers cl (ssh_dial c w).1 = containers cl w;
  containers_close cl c w : containers cl (ssh_close c w) = containers cl w;
  mem_set_db d w : mem (set_db d w) = mem w;
  mem_NewUUID w : mem (NewUUID w).1 = mem w;
  mem_dial c w : mem (ssh_dial c w).1 = mem w;
  mem_close c w : mem (ssh_close c w) = mem w;
}.

(** What the engine of a host answers.  A created container is known by the last line of
    the output, its id; [ps --all] on an id prints nothing exactly when there is no such
    container; [inspect] prints the state; a container that was stopped does not run. *)
Class EngineLaws (W : Type) `{WorldLaws W} (cl : option SSHConfig) (o : ExecOptions) := {
  engine_create c w w' out :
    docker_Execute cl (create_shell c) o w = (w', (out, None)) →
    let id := last_line (TrimNewlines out) in
    has_container id ∧ containers cl w' !! id = Some "created";
  engine_ps id w w' out :
    docker_Execute cl (list_shell ID_FORMAT ("id=" +:+ id) false true) o w = (w', (out, None)) →
    containers cl w' = containers cl w ∧ (TrimNewlines out = "" ↔ containers cl w !! id = None);
  engine_inspect id w w' out :
    docker_Execute cl (inspect_shell id INSPECT_STATUS) o w = (w', (out, None)) →
    containers cl w' !! id = Some (TrimNewlines out);
  engine_stop id w w' out :
    docker_Execute cl (docker_StopContainer [id] NewShell) o w = (w', (out, None)) →
    containers cl w' !! id ≠ Some "running";
}.

(** ** What steps keep *)

Section keeps.
Context {W A : Type} `{World W} (f : W → A).
Notation Step := (Tasks.Step (W := W) (Client := SSHConfig)).

Definition keeps (s : Step) : Prop := ∀ cl reg w, f (s cl reg w).1.2 = f w.

Lemma keeps_steps cl l reg w : Forall keeps l → f (execute_steps cl l reg w).1.2 = f w.
Proof.
  intros Hl. revert reg w; induction Hl as [|s l Hs Hl IH]; intros reg w; [done|]. simpl.
  specialize (Hs cl reg w). destruct (s cl reg w) as [[reg1 w1] err]. simpl in Hs.
  destruct (after_step err); simpl; [done|by rewrite IH].
Qed.

Lemma keeps_each l : Forall keeps l → keeps (each_step l).
Proof.
  intros Hl cl. induction Hl as [|s l Hs Hl IH]; intros reg w; [done|]. simpl.
  specialize (Hs cl reg w). destruct (s cl reg w) as [[reg1 w1] [e|]]; simpl in *; [done|by rewrite IH].
Qed.

Lemma keeps_crash {B} (r : res error B) (s : B → Step) :
  (∀ w, f (crash w) = f w) → (∀ b, keeps (s b)) → keeps (step_crash r s).
Proof. intros Hc Hs cl reg w. unfold step_crash. destruct r; simpl; [apply Hs|apply Hc..]. Qed.

Hypothesis f_run : ∀ p t c w, f (run p t c w).1 = f w.

Lemma keeps_docker S O ec o s : keeps (docker_step S O ec o s).
Proof.
  intros cl reg w. unfold docker_step, docker_Execute, execCommand.
  pose proof (f_run (if ExecInLocal o then Local else Remote cl)
    (if decide (0 < ExecTimeoutSec o)%Z then ExecTimeoutSec o else 0%Z)
    (add_become cl o (add_sudo o (render (sh_tmpl s) (<["engine":=ExecWithEngine o]> (with_options s))))) w) as Hr.
  destruct (run _ _ _ _) as [w' [out err]]. by destruct (PostHandle _ _ _ _ _ _).
Qed.

Lemma keeps_shell S O ec o s : keeps (shell_step S O ec o s).
Proof.
  intros cl reg w. unfold shell_step, sh_Execute, execCommand.
  pose proof (f_run (if ExecInLocal o then Local else Remote cl)
    (if decide (0 < ExecTimeoutSec o)%Z then ExecTimeoutSec o else 0%Z)
    (add_become cl o (add_sudo o (render (sh_tmpl s) (with_options s)))) w) as Hr.
  destruct (run _ _ _ _) as [w' [out err]]. by destruct (PostHandle _ _ _ _ _ _).
Qed.

Lemma keeps_create_directory paths S O o : keeps (CreateDirectory paths S O o).
Proof. apply keeps_each, Forall_fmap, Forall_true. intros. apply keeps_shell. Qed.

Lemma keeps_remove_file files O o : keeps (RemoveFile files O o).
Proof.
  apply keeps_each, Forall_fmap, Forall_true. intros file cl reg w. simpl.
  unfold remove_one. pose proof (keeps_shell None O ERR_REMOVE_FILES_OR_DIRECTORIES_FAILED o
    (AddOption "--recursive" (AddOption "--force" (sh_Remove [file] NewShell))) cl reg w) as Hk.
  unfold shell_step in Hk. destruct (sh_Execute _ _ _ _) as [w' [out err]].
  by destruct (PostHandle _ _ _ _ _ _).
Qed.

Lemma keeps_stop id n O o : keeps (StopContainer id n O o).
Proof. intros cl reg w. unfold StopContainer. case_decide; [done|]. apply keeps_docker. Qed.
End keeps.

(** ** The services table *)

Section database.
Context {W : Type} `{WorldLaws W} `{Driver}.

(** What the database says of the services: the cluster and the container. *)
Definition services (w : W) : gmap string (Z * string) := sp_services (abs (db w)).
Definition recorded (w : W) (serviceId : string) : string := from_option snd "" (services w !! serviceId).

Lemma unit_run (op : Op) (m : M unit) d :
  exec op = (_ ← m; mret None) → db_ok d →
  db_ok (m d).2 ∧
  match (m d).1 with
  | Ok _ => spec_step op (abs d) None (abs (m d).2)
  | Err _ => abs (m d).2 = abs d
  | Panic => False
  end.
Proof.
  intros Hop Hd. destruct (exec_run op d Hd) as [Hok Hr]. rewrite Hop in Hok, Hr.
  unfold mbind, M_bind in *. by destruct (m d) as [[[]|e|] d'].
Qed.

Lemma get_container serviceId (w : W) :
  db_ok (db w) →
  ∃ w', storage (st_GetContainerId serviceId) w =
          (w', match fault (ticks (db w)) with Some e => Err e | None => Ok (recorded w serviceId) end) ∧
    w' = set_db (tick (db w)) w.
Proof.
  intros Hd. unfold storage. destruct (fault (ticks (db w))) as [e|] eqn:Hf.
  - eexists. unfold st_GetContainerId, getServices, Query, mbind, M_bind. by rewrite Hf.
  - rewrite read_container by done. eauto.
Qed.

Lemma db_ok_tick d : db_ok d → db_ok (tick d).
Proof. done. Qed.
Lemma services_tick (w : W) : services (set_db (tick (db w)) w) = services w.
Proof. unfold services. by rewrite db_set_db. Qed.

(** A write of the services table: what it leaves, also when it fails. *)
Lemma storage_unit (op : Op) (m : M unit) (w w' : W) r :
  exec op = (_ ← m; mret None) → db_ok (db w) → storage m w = (w', r) →
  db_ok (db w') ∧ (∀ cl, containers cl w' = containers cl w) ∧
  match r with
  | Ok _ => spec_step op (abs (db w)) None (abs (db w'))
  | Err _ => services w' = services w
  | Panic => False
  end.
Proof.
  intros Hop Hd Hs. destruct (unit_run op m (db w) Hop Hd) as [Hok Hr].
  unfold storage in Hs. destruct (m (db w)) as [r1 d']. simplify_eq. simpl in *.
  split; [by rewrite db_set_db|]. split; [intros cl; apply containers_set_db|].
  unfold services. rewrite db_set_db. destruct r; [done|by rewrite Hr|done].
Qed.

(** What the step that records the container leaves. *)
Lemma insert_service cli serviceId c old cl reg (w w' : W) reg' err :
  db_ok (db w) → str_var reg old = recorded w serviceId →
  Step2InsertService cli serviceId c old cl reg w = (reg', w', err) →
  db_ok (db w') ∧ (∀ cl, containers cl w' = containers cl w) ∧
  match err with
  | None => ∃ n, services w' = <[serviceId := (n, str_var reg c)]> (services w)
  | Some e => services w' = services w ∧ ∃ x, e = EOther x
  end.
Proof.
  intros Hd Hold. unfold Step2InsertService. rewrite Hold. case_decide as Hc.
  - destruct (storage _ w) as [w1 r] eqn:Hs. intros He.
    destruct (storage_unit (OSetContainId serviceId (str_var reg c)) _ w w1 r eq_refl Hd Hs) as (Hok & Hcont & Hr).
    destruct r as [[]|e|]; [|simplify_eq; by eauto|done]. simplify_eq. split_and!; [done..|].
    destruct Hr as [_ Hr]. unfold services in *. rewrite Hr. simpl. unfold recorded, services in Hc.
    destruct (sp_services (abs (db w)) !! serviceId) as [[n x]|] eqn:Hl; [|done].
    exists n. apply map_eq. intros i. destruct (decide (i = serviceId)) as [->|Hi].
    + rewrite lookup_alter_eq, lookup_insert_eq. simpl in Hl. by rewrite Hl.
    + by rewrite lookup_alter_ne, lookup_insert_ne by done.
  - destruct (storage _ w) as [w1 r] eqn:Hs. intros He.
    destruct (storage_unit (OInsertService (clusterId cli) serviceId (str_var reg c)) _ w w1 r eq_refl Hd Hs)
      as (Hok & Hcont & Hr).
    destruct r as [[]|e|]; [|simplify_eq; by eauto|done]. simplify_eq. split_and!; [done..|].
    destruct Hr as (_ & _ & Hr). unfold services. rewrite Hr. simpl. eauto.
Qed.
End database.

(** ** Running steps *)

Section running.
Context {W : Type} `{WorldLaws W} `{Driver}.
Notation Step := (Tasks.Step (W := W) (Client := SSHConfig)).

Lemma docker_step_inv S O ec o s cl reg (w w' : W) reg' err :
  docker_step S O ec o s cl reg w = (reg', w', err) →
  ∃ out x, docker_Execute cl s o w = (w', (out, x)) ∧ PostHandle S O out x (Some ec) reg = (reg', err).
Proof.
  unfold docker_step. destruct (docker_Execute cl s o w) as [w1 [out x]].
  destruct (PostHandle _ _ _ _ _ _) as [reg1 r] eqn:Hp. intros [= <- <- <-]. eauto.
Qed.

(** A step with an output and no success. *)
Lemma PostHandle_out v out x ec reg reg' err :
  PostHandle None (Some v) out x ec reg = (reg', err) →
  reg' = set_str v (TrimNewlines out) reg ∧
  (x = None ∧ err = None ∨ x ≠ None ∧ ∃ e, err = Some (EOther e)).
Proof. unfold PostHandle. destruct x as [[]|]; intros [= <- <-]; eauto 10. Qed.

Lemma PostHandle_err S O out x ec reg : (PostHandle S O out x ec reg).2 = None ∨
  ∃ e, (PostHandle S O out x ec reg).2 = Some (EOther e).
Proof. unfold PostHandle. destruct S, x as [[]|]; simpl; eauto. Qed.

Lemma db_docker_Execute cl s o (w : W) : db (docker_Execute cl s o w).1 = db w.
Proof. apply db_run. Qed.

Lemma each_inv (P : Step → Prop) (f : Tasks.Register → W → Prop) l cl reg w reg' w' err :
  (∀ s reg w reg' w' err, P s → f reg w → s cl reg w = (reg', w', err) →
     f reg' w' ∧ (err = None ∨ ∃ e, err = Some (EOther e))) →
  Forall P l → f reg w → each_step l cl reg w = (reg', w', err) →
  f reg' w' ∧ (err = None ∨ ∃ e, err = Some (EOther e)).
Proof.
  intros Hs Hl. revert reg w. induction Hl as [|s l Hp Hl IH]; intros reg w Hf; simpl.
  - intros [= <- <- <-]. auto.
  - destruct (s cl reg w) as [[reg1 w1] err1] eqn:E. destruct (Hs _ _ _ _ _ _ Hp Hf E) as [Hf1 He].
    destruct err1; [intros [= <- <- <-]; auto|]. by apply IH.
Qed.

Lemma create_directory_inv paths o cl reg (w w' : W) reg' err :
  CreateDirectory paths None None o cl reg w = (reg', w', err) →
  reg' = reg ∧ db w' = db w ∧ (err = None ∨ ∃ e, err = Some (EOther e)).
Proof.
  intros Hc. apply and_assoc.
  apply (each_inv (λ s, ∃ path, s = shell_step None None ERR_CREATE_DIRECTORY_FAILED o
            (AddOption "--parents" (sh_Mkdir [path] NewShell))) (λ r v, r = reg ∧ db v = db w)) in Hc;
    [done| | |done].
  - intros s r v r' v' e [path ->] [-> Hv] Hs.
    pose proof (keeps_shell (A := DB) db db_run None None ERR_CREATE_DIRECTORY_FAILED o
      (AddOption "--parents" (sh_Mkdir [path] NewShell)) cl reg v) as Hk. rewrite Hs in Hk. simpl in Hk.
    unfold shell_step in Hs. destruct (sh_Execute _ _ _ _) as [v1 [out x]].
    destruct x as [[]|]; simpl in Hs; simplify_eq; split_and!; eauto; congruence.
  - apply Forall_fmap, Forall_true. intros path. by exists path.
Qed.
End running.

Lemma str_var_set reg v s : str_var (set_str v s reg) v = s.
Proof. unfold str_var, set_str, map_get, Register_Set, Tasks.Register in *. by rewrite lookup_insert_eq. Qed.
Lemma str_var_ne reg v v' s : v ≠ v' → str_var (set_str v s reg) v' = str_var reg v'.
Proof. intros. unfold str_var, set_str, map_get, Register_Set, Tasks.Register in *. by rewrite lookup_insert_ne. Qed.

(** ** Creating *)

Section create.
Context {W : Type} `{WorldLaws W} `{Driver} (cli : DingoCli) (cfg : DingoCliConfig).

(** The three ways a creation ends. *)
Definition create_skipped (serviceId : string) (w w' : W) (err : option terror) : Prop :=
  err = None ∧ has_container (recorded w serviceId) ∧ w' = set_db (tick (db w)) w.
Definition create_done (cl : option SSHConfig) (serviceId : string) (c : CreateContainer_) (w w' : W)
    (err : option terror) : Prop :=
  err = None ∧ ¬ has_container (recorded w serviceId) ∧
  ∃ n wa wb out, docker_Execute cl (create_shell c) (cli_ExecOptions cfg) wa = (wb, (out, None)) ∧
    services w' = <[serviceId := (n, last_line (TrimNewlines out))]> (services w) ∧
    ∀ cl, containers cl w' = containers cl wb.

Definition create_result (cl : option SSHConfig) (serviceId : string) (c : CreateContainer_) (w w' : W)
    (err : option terror) : Prop :=
  db_ok (db w') ∧
  (create_skipped serviceId w w' err ∨ create_done cl serviceId c w w' err ∨
   (∃ e, err = Some (EOther e)) ∧ services w' = services w).

Lemma create_tail cl serviceId c reg (w0 w w' : W) reg' err :
  db_ok (db w) → ¬ has_container (recorded w0 serviceId) → services w = services w0 →
  str_var reg "oldContainerId" = recorded w serviceId →
  execute_steps cl [CreateContainer c (Some "containerId") (cli_ExecOptions cfg);
     TrimContainerId_step "containerId";
     Step2InsertService cli serviceId "containerId" "oldContainerId"] reg w = (reg', w', err) →
  create_result cl serviceId c w0 w' err.
Proof.
  intros Hd Hno Hsv Hold. cbn [execute_steps].
  destruct (CreateContainer _ _ _ cl reg w) as [[reg1 w1] err1] eqn:Hc.
  apply docker_step_inv in Hc as (out & x & Hx & Hp).
  pose proof (db_docker_Execute cl (create_shell c) (cli_ExecOptions cfg) w) as Hdb. rewrite Hx in Hdb. simpl in Hdb.
  assert (services w1 = services w) as Hsv1 by (unfold services; by rewrite Hdb).
  apply PostHandle_out in Hp as [-> [[-> ->]|[_ [e ->]]]]; simpl; intros He.
  2: { simplify_eq. split; [by rewrite Hdb|]. right. right. split; [eauto|congruence]. }
  rewrite str_var_set in He.
  set (reg1 := set_str _ _ _) in He.
  destruct (Step2InsertService _ _ _ _ cl reg1 w1) as [[reg2 w2] err2] eqn:Hi.
  apply insert_service in Hi as (Hd2 & Hcont & Hi); [|by rewrite Hdb|].
  2: { unfold reg1. rewrite !str_var_ne by done. rewrite Hold. unfold recorded. by rewrite Hsv1. }
  destruct err2 as [e|].
  - destruct Hi as [Hi [x ->]]. simplify_eq/=. split; [done|]. right. right. split; [eauto|congruence].
  - simplify_eq/=. split; [done|]. right. left. split; [done|]. split; [done|].
    destruct Hi as [n Hi]. exists n, w, w1, out. split_and!; [done| |done].
    rewrite Hi. unfold reg1. rewrite str_var_set. congruence.
Qed.

Lemma create_run cl serviceId dirs c (w w' : W) reg' err :
  db_ok (db w) →
  execute_steps cl (create_steps cli cfg serviceId dirs c) NewRegister w = (reg', w', err) →
  create_result cl serviceId c w w' err.
Proof.
  intros Hd. unfold create_steps. simpl.
  destruct (get_container serviceId w Hd) as (w1 & Hg & Hw1).
  assert (services w1 = services w) as Hs1 by (rewrite Hw1; apply services_tick).
  assert (db_ok (db w1)) as Hd1 by (rewrite Hw1, db_set_db; by apply db_ok_tick).
  unfold Step2GetService. rewrite Hg. destruct (fault _) as [e|]; simpl.
  { intros He. simplify_eq. split; [done|]. right. right. eauto. }
  case_decide as Hc; simpl.
  { intros He. simplify_eq. split; [done|]. left. done. }
  assert (¬ has_container (recorded w serviceId)) as Hno by (intros [??]; by apply Hc).
  destruct dirs as [dirs|]; intros He.
  - cbn [app execute_steps] in He.
    destruct (CreateDirectory _ _ _ _ cl _ w1) as [[reg2 w2] err2] eqn:Hdir.
    apply create_directory_inv in Hdir as (-> & Hdb & Herr).
    destruct Herr as [->|[e ->]]; simpl in He.
    + apply (create_tail cl serviceId c _ w) in He; [done| |done| |].
      * by rewrite Hdb.
      * unfold services in *. by rewrite Hdb.
      * rewrite str_var_set. unfold recorded, services in *. by rewrite Hdb, Hs1.
    + simplify_eq. split; [by rewrite Hdb|]. right. right. split; [eauto|].
      unfold services in *. by rewrite Hdb.
  - apply (create_tail cl serviceId c _ w) in He; [done..|].
    rewrite str_var_set. unfold recorded. by rewrite Hs1.
Qed.
End create.

(** ** Making and running tasks *)

(** Nothing of what the theorems are about has changed. *)
Definition untouched {W} `{WorldLaws W} (w w' : W) : Prop :=
  (db_ok (db w) → db_ok (db w')) ∧ services w' = services w ∧ (∀ cl, containers cl w' = containers cl w) ∧
  mem w' = mem w ∧ statuses w' = statuses w.

#[export] Instance untouched_preorder {W} `{WorldLaws W} : PreOrder (untouched (W := W)).
Proof.
  split; [by intros w|]. intros w1 w2 w3 (H1 & H2 & H3 & H4 & H5) (H6 & H7 & H8 & H9 & H10).
  split_and!; [tauto|congruence| |congruence..]. intros cl. by rewrite H8.
Qed.

(** The container the database has for a service, [CLEANED_CONTAINER_ID] for none. *)
Definition container_id {W} `{WorldLaws W} (w : W) (serviceId : string) : string :=
  if decide (recorded w serviceId = "") then CLEANED_CONTAINER_ID else recorded w serviceId.
Lemma container_id_cleaned {W} `{WorldLaws W} (w : W) serviceId :
  container_id w serviceId = CLEANED_CONTAINER_ID ↔ ¬ has_container (recorded w serviceId).
Proof.
  unfold container_id, has_container. case_decide as Hr; [rewrite Hr; naive_solver|].
  destruct (decide (recorded w serviceId = CLEANED_CONTAINER_ID)); naive_solver.
Qed.
#[export] Instance has_container_dec c : Decision (has_container c).
Proof. unfold has_container. apply _. Defined.

Section tasks.
Context {W : Type} `{WorldLaws W} `{Driver} `{MapOrder}.
Context (os : OS) (parse_hosts : string → option Hosts_) (md5 : string → string).
Context (cli : DingoCli) (cfg : DingoCliConfig).
Notation Task := (Tasks.Task W SSHConfig SSHConfig).

Lemma untouched_db d (w : W) :
  (db_ok (db w) → db_ok d) → sp_services (abs d) = services w → untouched w (set_db d w).
Proof.
  intros Hd Hs. unfold untouched, services. rewrite db_set_db.
  split_and!; [done..| |apply mem_set_db|apply statuses_set_db]. intros cl. apply containers_set_db.
Qed.

Lemma container_of_inv serviceId (w w' : W) r :
  db_ok (db w) → container_of serviceId w = (w', r) →
  untouched w w' ∧ (r = Ok (Some (recorded w serviceId)) ∨ r = Ok None).
Proof.
  intros Hd. unfold container_of. destruct (get_container serviceId w Hd) as (w1 & -> & ->).
  intros Hc. assert (untouched w (set_db (tick (db w)) w)) by by apply untouched_db.
  destruct (fault _); simplify_eq; auto.
Qed.

Lemma find_container_inv dc (w w' : W) c :
  db_ok (db w) → find_container md5 cli dc w = (w', Ok (Some c)) →
  untouched w w' ∧ c = container_id w (GetServiceId md5 cli (GetId dc)).
Proof.
  intros Hd. set (serviceId := GetServiceId md5 cli (GetId dc)). unfold find_container, svc_GetContainerId, svc_IsSkip.
  fold serviceId. intros (w1 & r & (w2 & o & Ho & Hr)%eff_bind_Ok & Hs)%eff_bind_Ok.
  apply container_of_inv in Ho as [Hu Ho]; [|done]. apply pair_eq in Hr as [<- [= <-]].
  apply eff_bind_Ok in Hs as (w3 & skip & (w4 & o' & Ho' & Hs')%eff_bind_Ok & Hf).
  apply container_of_inv in Ho' as [Hu' _]; [|by apply Hu]. apply pair_eq in Hs' as [<- [= <-]].
  destruct (IsSkip _ _ _); [done|]. apply eff_bind_Ok in Hf as (w5 & c' & Hc & Hf).
  apply pair_eq in Hf as [<- [= ->]]. apply pair_eq in Hc as [<- Hc].
  split; [by transitivity w2|]. unfold GetContainerId, container_id in *.
  destruct Ho as [[= ->]|[= ->]]; [|done]. case_decide; by simplify_eq.
Qed.

Lemma new_task_inv name subname c (w w' : W) t :
  new_task name subname c w = (w', Ok t) →
  untouched w w' ∧ ∃ i, t = NewTask i name subname c.
Proof.
  unfold new_task. pose proof (db_NewUUID w) as Hdb. pose proof (λ cl, containers_NewUUID cl w) as Hc.
  pose proof (mem_NewUUID w) as Hm. pose proof (statuses_NewUUID w) as Hs.
  destruct (NewUUID w) as [w1 u]. intros [= <- <-]. simpl in *.
  split; [|eauto]. unfold untouched, services. rewrite Hdb. done.
Qed.

Lemma add_steps_inv l (t : Task) :
  steps (add_steps l t) = steps t ++ l ∧ postSteps (add_steps l t) = postSteps t ∧
  sshConfig (add_steps l t) = sshConfig t.
Proof.
  revert t; induction l as [|s l IH]; intros t; simpl; [by rewrite app_nil_r|].
  destruct (IH (AddStep t s)) as (-> & -> & ->). simpl. by rewrite <-app_assoc.
Qed.

(** A task with these steps on the host of the service. *)
Definition task_of (dc : DeployConfig) (l : list Step) (t : Task) : Prop :=
  steps t = l ∧ postSteps t = [] ∧ ∃ c, dc_ssh os parse_hosts cli cfg dc = Ok c ∧ sshConfig t = Some c.

Lemma container_task_inv name dc f (w w' : W) t :
  db_ok (db w) → container_task os parse_hosts md5 cli cfg name dc f w = (w', Ok (Some t)) →
  untouched w w' ∧ ∃ l, f (container_id w (GetServiceId md5 cli (GetId dc))) = Ok l ∧ task_of dc l t.
Proof.
  intros Hd. unfold container_task. intros (w1 & o & Hf & Ht)%eff_bind_Ok.
  destruct o as [c|]; [|done]. apply find_container_inv in Hf as [Hu ->]; [|done].
  apply eff_bind_Ok in Ht as (w2 & s & [= <- Hs] & Ht).
  apply eff_bind_Ok in Ht as (w3 & t0 & Hn & Ht). apply new_task_inv in Hn as [Hu1 [i ->]].
  apply eff_bind_Ok in Ht as (w4 & l & [= <- Hl] & Ht). apply pair_eq in Ht as [<- [= <-]].
  split; [by transitivity w1|]. exists l. split; [done|].
  destruct (add_steps_inv l (NewTask i name (host_role_container dc (container_id w (GetServiceId md5 cli (GetId dc)))) (Some s)))
    as (E1 & E2 & E3).
  unfold task_of. rewrite E1, E2, E3. eauto.
Qed.
End tasks.

(** ** Connections *)

Section connections.
Context {W : Type} `{WorldLaws W}.

Lemma dial_untouched c (w : W) : untouched w (ssh_dial c w).1.
Proof. unfold untouched, services. rewrite db_dial. split_and!; [done..| |apply mem_dial|apply statuses_dial]. intros. apply containers_dial. Qed.
Lemma close_untouched c (w : W) : untouched w (ssh_close c w).
Proof. unfold untouched, services. rewrite db_close. split_and!; [done..| |apply mem_close|apply statuses_close]. intros. apply containers_close. Qed.

Lemma dial_loop_untouched fuel c n (w w' : W) k e :
  dial_loop fuel c n w = Some (w', k, e) → untouched w w'.
Proof.
  revert n w; induction fuel as [|fuel IH]; intros n w; simpl; [done|].
  pose proof (dial_untouched c w) as Hd. destruct (ssh_dial c w) as [w1 [x|]]; simpl in *.
  - case_decide; intros Hl; [|by simplify_eq]. by transitivity w1; [|eapply IH].
  - intros Hl. by simplify_eq.
Qed.

Lemma client_untouched c (w w' : W) r :
  Shell.NewSSHClient c w = (w', r) → untouched w w' ∧ ∀ c', r = inl c' → c' = c.
Proof.
  unfold Shell.NewSSHClient. destruct (ssh_auth c w); [by intros [= <- <-]|].
  destruct (dial_loop _ c 0 w) as [[[w1 k] [e|]]|] eqn:Hl; intros [= <- <-].
  - split; [by eapply dial_loop_untouched|done].
  - split; [by eapply dial_loop_untouched|by intros c' [= ->]].
  - done.
Qed.

(** A task without post steps: connecting and closing touch nothing. *)
Lemma task_run (t : Tasks.Task W SSHConfig SSHConfig) c (w w' : W) r :
  postSteps t = [] → sshConfig t = Some c → task_Execute task_ssh t w = (w', r) →
  (∃ e, r = Some (EOther e) ∧ untouched w w') ∨
  ∃ reg w1 w2, untouched w w1 ∧ execute_steps (Some c) (steps t) NewRegister w1 = (reg, w2, r) ∧ untouched w2 w'.
Proof.
  intros Hp Hc. unfold task_Execute, connect. rewrite Hp, Hc. simpl.
  destruct (Shell.NewSSHClient c w) as [w1 [c'|e]] eqn:Hn; apply client_untouched in Hn as [Hu Hc'].
  - rewrite (Hc' c' eq_refl). destruct (execute_steps _ _ _ w1) as [[reg w2] r2] eqn:He.
    intros [= <- <-]. right. exists reg, w1, w2. split_and!; [done..|]. apply close_untouched.
  - intros [= <- <-]. left. eauto.
Qed.
End connections.

(** ** Starting and restarting *)

Section starting.
Context {W : Type} (cl : option SSHConfig) (cfg : DingoCliConfig) `{EngineLaws W cl (cli_ExecOptions cfg)}.
Notation Step := (Tasks.Step (W := W) (Client := SSHConfig)).

(** The check that the container exists: it ends the task or the steps after it run on the
    same containers. *)
Lemma exist_run id l reg (w w' : W) reg' err :
  execute_steps cl (exist_steps cfg id ++ l) reg w = (reg', w', err) →
  (err = None ∧ containers cl w !! id = None ∧ containers cl w' = containers cl w) ∨
  (∃ e, err = Some (EOther e)) ∨
  ∃ out w1, containers cl w1 = containers cl w ∧ containers cl w !! id ≠ None ∧ TrimNewlines out ≠ "" ∧
    execute_steps cl l (set_str "out" (TrimNewlines out) reg) w1 = (reg', w', err).
Proof.
  unfold exist_steps, list_container, ListContainers. simpl.
  destruct (docker_step _ _ _ _ _ cl reg w) as [[reg1 w1] err1] eqn:Hs.
  apply docker_step_inv in Hs as (out & x & Hx & Hp).
  apply PostHandle_out in Hp as [-> [[-> ->]|[_ [e ->]]]]; simpl.
  2: { intros He. simplify_eq. eauto. }
  apply engine_ps in Hx as [Hc Hout].
  rewrite str_var_set. case_decide as Ho; simpl.
  - intros He. simplify_eq. left. tauto.
  - intros He. right. right. exists out, w1. tauto.
Qed.

Lemma check_started id reg (w w' : W) reg' :
  bool_var reg "success" = false →
  execute_steps cl [WaitContainerStart 3; Step2CheckPostStart cfg id "success"] reg w = (reg', w', None) →
  containers cl w' !! id = Some "running".
Proof.
  intros Hb. simpl. unfold Step2CheckPostStart, InspectContainer. rewrite Hb.
  destruct (docker_step _ _ _ _ _ cl reg _) as [[reg1 w1] err1] eqn:Hs.
  apply docker_step_inv in Hs as (out & x & Hx & Hp).
  apply PostHandle_out in Hp as [-> [[-> ->]|[_ [e ->]]]]; simpl; [|done].
  apply engine_inspect in Hx. rewrite str_var_set. case_decide as Hr; simpl; [by intros; simplify_eq|].
  intros He. simplify_eq. by rewrite Hx, Hr.
Qed.

(** A command, then the check that the container runs. *)
Lemma run_checked id ec o s (w w' : W) reg' :
  execute_steps cl (exist_steps cfg id ++ [docker_step None None ec o s; WaitContainerStart 3;
    Step2CheckPostStart cfg id "success"]) NewRegister w = (reg', w', None) →
  containers cl w !! id = None ∧ containers cl w' = containers cl w ∨
  containers cl w !! id ≠ None ∧ containers cl w' !! id = Some "running".
Proof.
  intros [(_ & Hn & Hw)|[[e He]|(out & w1 & Hw1 & Hn & Ho & He)]]%exist_run; [by left|done|].
  right. split; [done|]. cbn [execute_steps] in He.
  destruct (docker_step _ _ _ _ _ cl _ w1) as [[reg2 w2] err2] eqn:Hs.
  apply docker_step_inv in Hs as (out2 & x & _ & Hp).
  assert (reg2 = set_str "out" (TrimNewlines out) NewRegister ∧ (err2 = None ∨ ∃ e, err2 = Some (EOther e)))
    as [-> [->|[e ->]]] by (unfold PostHandle in Hp; destruct x as [[]|]; simplify_eq; eauto); simpl in He; [|done].
  eapply check_started; [|exact He]. done.
Qed.
End starting.

(** ** The tasks *)

Section services.
Context {W : Type} `{WorldLaws W} `{Driver} `{MapOrder}.
Context (os : OS) (parse_hosts : string → option Hosts_) (md5 : string → string).
Context (cli : DingoCli) (cfg : DingoCliConfig).
Notation Task := (Tasks.Task W SSHConfig SSHConfig).
Notation serviceId dc := (GetServiceId md5 cli (GetId dc)).

Lemma skip_mds_cli_inv dc (w w' : W) b : skip_mds_cli dc w = (w', Ok b) → w' = w.
Proof.
  unfold skip_mds_cli. case_decide; [|by intros [= <- <-]].
  destruct (mem w !! KEY_SKIP_MDSV2_CLI) as [[]|]; by intros [= <- <-].
Qed.

(** A task that runs and reports no error: what its steps did. *)
Lemma task_ran dc l (t : Task) c (w w' : W) r :
  task_of os parse_hosts cli cfg dc l t → dc_ssh os parse_hosts cli cfg dc = Ok c →
  task_Execute task_ssh t w = (w', r) →
  (∃ e, r = Some (EOther e)) ∧ untouched w w' ∨
  ∃ reg w1 w2, untouched w w1 ∧ execute_steps (Some c) l NewRegister w1 = (reg, w2, r) ∧ untouched w2 w'.
Proof.
  intros (<- & Hp & c' & Hc' & Hs) Hc He. rewrite Hc' in Hc. injection Hc as ->.
  destruct (task_run t c w w' r Hp Hs He) as [(e & ? & ?)|?]; eauto.
Qed.

Lemma create_task_inv dc (w w' : W) t :
  NewCreateContainerTask os parse_hosts md5 cli cfg dc w = (w', Ok (Some t)) →
  untouched w w' ∧ ∃ dirs c, create_dirs dc = Ok dirs ∧ service_container dc (serviceId dc) = Ok c ∧
    task_of os parse_hosts cli cfg dc (create_steps cli cfg (serviceId dc) (Some dirs) c) t.
Proof.
  unfold NewCreateContainerTask. case_decide; [done|].
  intros (w1 & s & [= <- Hs] & Ht)%eff_bind_Ok.
  apply eff_bind_Ok in Ht as (w2 & t0 & Hn & Ht). apply new_task_inv in Hn as [Hu [i ->]].
  apply eff_bind_Ok in Ht as (w3 & dirs & [= <- Hd] & Ht).
  apply eff_bind_Ok in Ht as (w4 & c & [= <- Hc] & Ht). apply pair_eq in Ht as [<- [= <-]].
  split; [done|]. exists dirs, c. split_and!; [done..|].
  unfold task_of. simpl. eauto.
Qed.

(** The tasks that reach a running container. *)
Lemma started_task_inv new dc (w w' : W) t :
  new = NewStartServiceTask os parse_hosts md5 cli cfg ∨ new = NewRestartServiceTask os parse_hosts md5 cli cfg →
  db_ok (db w) → new dc w = (w', Ok (Some t)) →
  untouched w w' ∧ ∃ ec s, let id := container_id w (serviceId dc) in
    task_of os parse_hosts cli cfg dc (exist_steps cfg id ++
      [docker_step None None ec (cli_ExecOptions cfg) s; WaitContainerStart 3;
       Step2CheckPostStart cfg id "success"]) t.
Proof.
  intros [-> | ->] Hd Hn.
  - unfold NewStartServiceTask in Hn. apply eff_bind_Ok in Hn as (w1 & b & Hb%skip_mds_cli_inv & Hn). subst w1.
    destruct b; [done|]. apply container_task_inv in Hn as [Hu (l & [= <-] & Ht)]; [|done].
    split; [done|]. eexists _, _. exact Ht.
  - apply container_task_inv in Hn as [Hu (l & [= <-] & Ht)]; [|done].
    split; [done|]. eexists _, _. exact Ht.
Qed.

Lemma started_keeps id ec s :
  Forall (keeps (W := W) db) (exist_steps cfg id ++
    [docker_step None None ec (cli_ExecOptions cfg) s; WaitContainerStart 3; Step2CheckPostStart cfg id "success"]).
Proof.
  unfold exist_steps. cbn [app]. rewrite !Forall_cons, Forall_nil. split_and!; [| | | | |done].
  - apply keeps_docker, db_run.
  - done.
  - apply keeps_docker, db_run.
  - intros cl reg w. apply db_Sleep.
  - intros cl reg w. unfold Step2CheckPostStart. destruct (bool_var _ _); [done|].
    pose proof (keeps_docker db db_run None (Some "status") ERR_INSPECT_CONTAINER_FAILED (cli_ExecOptions cfg)
      (inspect_shell id INSPECT_STATUS) cl reg w) as Hk.
    unfold InspectContainer. by destruct (docker_step _ _ _ _ _ _ _ _) as [[? ?] [?|]].
Qed.

Lemma untouched_of_db (w w' : W) : db w' = db w → (db_ok (db w) → db_ok (db w')) ∧ services w' = services w.
Proof. unfold services. by intros ->. Qed.

(** The outcome of starting or restarting. *)
Definition reached_running (cl : option SSHConfig) (id : string) (w w' : W) : Prop :=
  containers cl w !! id = None ∧ containers cl w' !! id = None ∨
  containers cl w !! id ≠ None ∧ containers cl w' !! id = Some "running".

Lemma started_run new dc c (w w1 w2 : W) t :
  EngineLaws W (Some c) (cli_ExecOptions cfg) → dc_ssh os parse_hosts cli cfg dc = Ok c →
  new = NewStartServiceTask os parse_hosts md5 cli cfg ∨ new = NewRestartServiceTask os parse_hosts md5 cli cfg →
  db_ok (db w) → new dc w = (w1, Ok (Some t)) → task_Execute task_ssh t w1 = (w2, None) →
  services w2 = services w ∧ reached_running (Some c) (container_id w (serviceId dc)) w w2.
Proof.
  intros HL Hc Hnew Hd Hn He. set (id := container_id w (serviceId dc)).
  apply started_task_inv in Hn as [Hu (ec & s & Ht)]; [|done..]. fold id in Ht.
  destruct (task_ran dc _ t c w1 w2 None Ht Hc He) as [[[e ?] _]|(reg & w3 & w4 & Hu1 & Hs & Hu2)]; [done|].
  pose proof (keeps_steps db (Some c) _ NewRegister w3 (started_keeps id ec s)) as Hdb.
  rewrite Hs in Hdb. simpl in Hdb. apply untouched_of_db in Hdb as [_ Hsv].
  apply (run_checked (Some c) cfg) in Hs. destruct Hu as (_ & Hu & Hk & _), Hu1 as (_ & Hu1 & Hk1 & _), Hu2 as (_ & Hu2 & Hk2 & _).
  split; [congruence|]. unfold reached_running. rewrite Hk2.
  rewrite Hk1, Hk in Hs. destruct Hs as [[Hs1 Hs2]|Hs]; [left|by right]. split; [done|]. by rewrite Hs2.
Qed.
End services.

Section composition.
Context {W : Type} `{WorldLaws W} `{Driver} `{MapOrder}.
Context (os : OS) (parse_hosts : string → option Hosts_) (md5 : string → string).
Context (cli : DingoCli) (cfg : DingoCliConfig).
Notation serviceId dc := (GetServiceId md5 cli (GetId dc)).

(** The outcome of a creation: [id] is printed by a [docker create] that succeeded. *)
Definition created (cl : option SSHConfig) (dc : DeployConfig) (id : string) (w w' : W) : Prop :=
  ∃ n cc wa wb out, service_container dc (serviceId dc) = Ok cc ∧
    docker_Execute cl (create_shell cc) (cli_ExecOptions cfg) wa = (wb, (out, None)) ∧
    id = last_line (TrimNewlines out) ∧
    services w' = <[serviceId dc := (n, id)]> (services w) ∧ ∀ cl, containers cl w' = containers cl wb.

Lemma created_run dc c (w w1 w2 : W) t r :
  db_ok (db w) → dc_ssh os parse_hosts cli cfg dc = Ok c →
  NewCreateContainerTask os parse_hosts md5 cli cfg dc w = (w1, Ok (Some t)) →
  task_Execute task_ssh t w1 = (w2, r) →
  db_ok (db w2) ∧
  match r with
  | None => has_container (recorded w (serviceId dc)) ∧ untouched w w2 ∨
            ¬ has_container (recorded w (serviceId dc)) ∧ ∃ id, created (Some c) dc id w w2
  | Some _ => services w2 = services w
  end.
Proof.
  intros Hd Hc Hn He. apply create_task_inv in Hn as [Hu (dirs & cc & _ & Hcc & Ht)].
  assert (recorded w1 (serviceId dc) = recorded w (serviceId dc)) as Hrec
    by (unfold recorded; by rewrite (proj1 (proj2 Hu))).
  destruct (task_ran os parse_hosts cli cfg dc _ t c w1 w2 r Ht Hc He)
    as [[[e ->] Hu1]|(reg & w3 & w4 & Hu1 & Hs & Hu2)].
  { split; [by apply Hu1, Hu|]. destruct Hu as (_ & <- & _), Hu1 as (_ & <- & _). done. }
  apply create_run in Hs as [Hd4 Hs]; [|by apply Hu1, Hu].
  assert (recorded w3 (serviceId dc) = recorded w (serviceId dc)) as Hrec3.
  { rewrite <-Hrec. unfold recorded. by rewrite (proj1 (proj2 Hu1)). }
  split; [by apply Hu2|]. unfold create_skipped, create_done in Hs. rewrite Hrec3 in Hs.
  destruct Hs as [(-> & Hh & Hw)|[(-> & Hh & n & wa & wb & out & Hx & Hsv & Hcont)|[[e ->] Hsv]]].
  - left. split; [done|]. transitivity w1; [done|]. transitivity w3; [done|]. transitivity w4; [|done].
    subst w4. by apply untouched_db.
  - right. split; [done|]. exists (last_line (TrimNewlines out)), n, cc, wa, wb, out. split_and!; [done..| |].
    + rewrite (proj1 (proj2 Hu2)), Hsv, (proj1 (proj2 Hu1)), (proj1 (proj2 Hu)). done.
    + intros cl. rewrite (proj1 (proj2 (proj2 Hu2))). apply Hcont.
  - rewrite (proj1 (proj2 Hu2)), Hsv, (proj1 (proj2 Hu1)), (proj1 (proj2 Hu)). done.
Qed.

Lemma created_recorded cl dc id (w w' : W) :
  EngineLaws W cl (cli_ExecOptions cfg) → created cl dc id w w' →
  recorded w' (serviceId dc) = id ∧ container_id w' (serviceId dc) = id ∧ has_container id ∧
  containers cl w' !! id = Some "created".
Proof.
  intros HL (n & cc & wa & wb & out & _ & Hx & -> & Hs & Hc).
  destruct (engine_create _ _ _ _ Hx) as [Hh Hr].
  assert (recorded w' (serviceId dc) = last_line (TrimNewlines out)) as Hrec
    by (unfold recorded; by rewrite Hs, lookup_insert_eq).
  split_and!; [done| |apply Hh..|by rewrite Hc].
  unfold container_id. rewrite Hrec. by rewrite decide_False by apply Hh.
Qed.
End composition.

(** ** Stopping, cleaning, scripts *)

Section others.
Context {W : Type} `{WorldLaws W} `{Driver} `{MapOrder}.
Context (os : OS) (parse_hosts : string → option Hosts_) (md5 : string → string).
Context (cli : DingoCli) (cfg : DingoCliConfig).
Notation serviceId dc := (GetServiceId md5 cli (GetId dc)).
Notation o := (cli_ExecOptions cfg).

Definition stop_steps (id : string) : list Step :=
  [checkContainerId id] ++ exist_steps cfg id ++ [StopContainer id 0 (Some "out") o].

Lemma stop_task_inv dc (w w' : W) t :
  db_ok (db w) → NewStopServiceTask os parse_hosts md5 cli cfg dc w = (w', Ok (Some t)) →
  untouched w w' ∧
  task_of os parse_hosts cli cfg dc (stop_steps (container_id w (serviceId dc))) t.
Proof.
  intros Hd. unfold NewStopServiceTask. intros (w1 & hc & [= <- Hhc] & Ht)%eff_bind_Ok.
  apply eff_bind_Ok in Ht as (w2 & b & ->%skip_mds_cli_inv & Ht). destruct b; [done|].
  apply eff_bind_Ok in Ht as (w3 & r & Hf & Ht). destruct r as [id|]; [|done].
  apply find_container_inv in Hf as [Hu ->]; [|done].
  apply eff_bind_Ok in Ht as (w5 & s & [= <- Hs] & Ht).
  apply eff_bind_Ok in Ht as (w4 & t0 & Hn & Ht). apply new_task_inv in Hn as [Hu1 [i ->]].
  apply pair_eq in Ht as [<- [= <-]]. split; [by transitivity w3|]. unfold task_of. simpl.
  split_and!; [done..|]. exists s. split; [|done]. unfold dc_ssh. by rewrite Hhc.
Qed.

Lemma stop_keeps id : Forall (keeps (W := W) db) (stop_steps id).
Proof.
  unfold stop_steps, exist_steps. cbn [app]. rewrite !Forall_cons, Forall_nil. split_and!; [| | | |done].
  - done.
  - apply keeps_docker, db_run.
  - done.
  - apply keeps_stop, db_run.
Qed.

Lemma stop_steps_run cl id (w w' : W) reg' :
  EngineLaws W cl o → execute_steps cl (stop_steps id) NewRegister w = (reg', w', None) →
  id = CLEANED_CONTAINER_ID ∨ containers cl w' !! id ≠ Some "running".
Proof.
  intros HL. unfold stop_steps. cbn [app execute_steps]. unfold checkContainerId, Lambda.
  case_decide as Hid; simpl; [by left|]. intros Hs.
  apply (exist_run cl cfg id [StopContainer id 0 (Some "out") o]) in Hs
    as [(_ & Hn & Hw)|[[e He]|(out & w1 & Hw1 & Hn & Ho & He)]]; [right; by rewrite Hw, Hn|done|].
  right. cbn [execute_steps] in He. unfold StopContainer in He. simpl in He. rewrite str_var_set in He.
  rewrite decide_False in He by done.
  destruct (docker_step _ _ _ _ _ cl _ w1) as [[reg2 w2] err2] eqn:Hs.
  apply docker_step_inv in Hs as (out2 & x & Hx & Hp).
  apply PostHandle_out in Hp as [-> [[-> ->]|[_ [e ->]]]]; simpl in He; [|done].
  simplify_eq. eapply engine_stop, Hx.
Qed.

(** ** Cleaning *)

Lemma remove_file_inv files cl reg (w w' : W) reg' err :
  RemoveFile files None o cl reg w = (reg', w', err) →
  reg' = reg ∧ db w' = db w ∧ (err = None ∨ ∃ e, err = Some (EOther e)).
Proof.
  intros Hc. apply and_assoc.
  apply (each_inv (λ s, ∃ file, s = remove_one None o file) (λ r v, r = reg ∧ db v = db w)) in Hc;
    [done| | |done].
  - intros s r v r' v' e [file ->] [-> Hv] Hs. unfold remove_one in Hs.
    pose proof (db_run (if ExecInLocal o then Local else Remote cl)) as Hr.
    unfold sh_Execute, execCommand in Hs. specialize (Hr (if decide (0 < ExecTimeoutSec o)%Z then ExecTimeoutSec o else 0%Z)
      (add_become cl o (add_sudo o (render (sh_tmpl (AddOption "--recursive" (AddOption "--force" (sh_Remove [file] NewShell))))
        (with_options (AddOption "--recursive" (AddOption "--force" (sh_Remove [file] NewShell))))))) v).
    destruct (run _ _ _ v) as [v1 [out x]]. simpl in Hr.
    destruct x as [[]|]; simpl in Hs; simplify_eq; (split; [split; [done|congruence]|]); case_match; eauto.
  - apply Forall_fmap, Forall_true. intros file. by exists file.
Qed.

(** The container of the service is forgotten, whatever the engine says of removing it. *)
Lemma clean_container_inv sid id cl reg (w w' : W) reg' err :
  db_ok (db w) → has_container id →
  Step2CleanContainer cfg sid id cl reg w = (reg', w', err) →
  match err with
  | None => services w' = alter (λ p, (p.1, CLEANED_CONTAINER_ID)) sid (services w)
  | Some e => services w' = services w ∧ ∃ x, e = EOther x
  end.
Proof.
  intros Hd [Hn1 Hn2]. unfold Step2CleanContainer. rewrite decide_False by (intros [?|?]; done).
  pose proof (db_docker_Execute cl (docker_RemoveContainer [id] NewShell) o w) as Hdb.
  destruct (docker_Execute _ _ _ w) as [w1 out]. simpl in Hdb.
  destruct (storage _ w1) as [w2 r] eqn:Hs. intros He.
  apply (storage_unit (OSetContainId sid CLEANED_CONTAINER_ID)) in Hs as (_ & _ & Hr); [|done|by rewrite Hdb].
  assert (services w1 = services w) as Hsv by (unfold services; by rewrite Hdb).
  destruct r as [[]|e|]; [simplify_eq|simplify_eq; split; [congruence|by eauto]|done].
  destruct Hr as [_ Hr]. unfold services in *. rewrite Hr. simpl. simpl in Hsv. by rewrite Hsv.
Qed.

Lemma clean_run sid id clean files cl (w w' : W) reg' err :
  db_ok (db w) → has_container id →
  execute_steps cl (clean_steps cfg sid id clean files) NewRegister w = (reg', w', err) →
  match err with
  | None => services w' = if in_map clean CLEAN_ITEM_CONTAINER
                          then alter (λ p, (p.1, CLEANED_CONTAINER_ID)) sid (services w) else services w
  | Some _ => services w' = services w
  end.
Proof.
  intros Hd Hid. unfold clean_steps. cbn [app execute_steps].
  destruct (RemoveFile _ _ _ cl _ w) as [[reg1 w1] err1] eqn:Hr.
  apply remove_file_inv in Hr as (-> & Hdb & Herr).
  assert (services w1 = services w) as Hsv by (unfold services; by rewrite Hdb).
  destruct Herr as [->|[e ->]]; simpl; [|intros He; by simplify_eq].
  destruct (in_map clean CLEAN_ITEM_CONTAINER); [|intros He; by simplify_eq/=].
  cbn [execute_steps]. destruct (Step2CleanContainer _ _ _ cl _ w1) as [[reg2 w2] err2] eqn:Hs.
  apply clean_container_inv in Hs; [|by rewrite Hdb|done].
  destruct err2 as [x|]; [destruct Hs as [Hs [y ->]]|]; simpl; intros He; simplify_eq; congruence.
Qed.

Lemma clean_task_inv dc only (w w' : W) t :
  db_ok (db w) → mem w !! KEY_CLEAN_ITEMS = Some (OStrings only) →
  NewCleanServiceTask os parse_hosts md5 cli cfg dc w = (w', Ok (Some t)) →
  untouched w w' ∧ ∃ files, let id := container_id w (serviceId dc) in has_container id ∧
    getCleanFiles (Slice2Map only) dc = Ok files ∧
    task_of os parse_hosts cli cfg dc (clean_steps cfg (serviceId dc) id (Slice2Map only) files) t.
Proof.
  intros Hd Hm. set (id := container_id w (serviceId dc)). unfold NewCleanServiceTask, svc_GetContainerId.
  intros (w1 & r & (w2 & oc & Ho & Hr)%eff_bind_Ok & Hs)%eff_bind_Ok.
  apply container_of_inv in Ho as [Hu Ho]; [|done]. apply pair_eq in Hr as [<- [= <-]].
  case_decide as Hcl; [unfold already_cleaned in Hs; by destruct (storage _ _) as [? ?]|].
  apply eff_bind_Ok in Hs as (w3 & skip & (w4 & o' & Ho' & Hs')%eff_bind_Ok & Hs).
  apply container_of_inv in Ho' as [Hu' _]; [|by apply Hu]. apply pair_eq in Hs' as [<- [= <-]].
  destruct (IsSkip _ _ _); [done|].
  apply eff_bind_Ok in Hs as (w5 & c & [= <- Hc] & Hs).
  apply eff_bind_Ok in Hs as (w6 & hc & [= <- Hhc] & Hs).
  apply eff_bind_Ok in Hs as (w7 & b & ->%skip_mds_cli_inv & Hs). destruct b; [done|].
  assert (untouched w w4) as Hu4 by by transitivity w2.
  apply eff_bind_Ok in Hs as (w8 & l & Hl & Hs). unfold clean_option in Hl.
  rewrite (proj1 (proj2 (proj2 (proj2 Hu4)))), Hm in Hl.
  apply pair_eq in Hl as [<- [= <-]].
  apply eff_bind_Ok in Hs as (w11 & sc & [= <- Hsc] & Hs).
  apply eff_bind_Ok in Hs as (w9 & t0 & Hn & Hs). apply new_task_inv in Hn as [Hu9 [i ->]].
  apply eff_bind_Ok in Hs as (w10 & files & [= <- Hf] & Hs). apply pair_eq in Hs as [<- Ht].
  assert (c = id ∧ has_container id) as [-> Hid].
  { unfold GetContainerId in *. unfold has_container, id, container_id in *.
    destruct Ho as [[= ->]|[= ->]]; [|done]. case_decide; [by simplify_eq|]. simplify_eq.
    split; [done|]. split; [|done]. intros E. apply Hcl. by rewrite E. }
  split; [by transitivity w4|]. exists files. split_and!; [done..|].
  set (t0 := NewTask _ _ _ _) in Ht. assert (t = add_steps (clean_steps cfg (serviceId dc) id (Slice2Map only) files) t0)
    as -> by congruence.
  destruct (add_steps_inv (clean_steps cfg (serviceId dc) id (Slice2Map only) files) t0) as (E1 & E2 & E3).
  unfold task_of. rewrite E1, E2, E3. split_and!; [done..|]. exists sc. split; [|done]. unfold dc_ssh. by rewrite Hhc.
Qed.
End others.

(** ** Status and scripts *)

Section status.
Context {W : Type} `{WorldLaws W} `{Driver}.
Context (cfg : DingoCliConfig).
Notation o := (cli_ExecOptions cfg).

(** A status with the ports, the leader and the state that were found. *)
Definition found_status (s : ServiceStatus) (ports : string) (leader : bool) (status : string) : ServiceStatus :=
  mkServiceStatus (ss_Id s) (ss_ParentId s) (ss_Role s) (ss_Host s) (ss_Instances s) (ss_ContainerId s)
    ports leader status (ss_LogDir s) (ss_DataDir s) (ss_RaftDir s) (ss_DocDir s) (ss_VectorDir s) (ss_Config s).

Lemma service_status_found dc sid id s ports leader status :
  service_status dc sid id "" false SERVICE_STATUS_UNKNOWN = Ok s →
  service_status dc sid id ports leader status = Ok (found_status s ports leader status).
Proof.
  unfold service_status.
  destruct (GetLogDir dc), (GetDataDir dc), (GetDingoRaftDir dc), (GetDingoStoreDocDir dc),
    (GetDingoStoreVectorDir dc); try done.
  by intros [= <-].
Qed.

Lemma statuses_docker_Execute cl s o (w : W) : statuses (docker_Execute cl s o w).1 = statuses w.
Proof. apply statuses_run. Qed.

Lemma statuses_docker_inv cl s o (w w' : W) r : docker_Execute cl s o w = (w', r) → statuses w' = statuses w.
Proof. intros Hx. pose proof (statuses_docker_Execute cl s o w) as Hs. by rewrite Hx in Hs. Qed.

Lemma ports_inv id cl reg (w w' : W) reg' err :
  Step2GetListenPorts id "status" "ports" o cl reg w = (reg', w', err) →
  err = None ∧ statuses w' = statuses w ∧
  (reg' = reg ∨ HasPrefix (str_var reg "status") "Up" = true ∧ ∃ ports, reg' = set_str "ports" ports reg).
Proof.
  unfold Step2GetListenPorts. destruct (HasPrefix _ _); simpl.
  2: { intros [= <- <- <-]. auto. }
  pose proof (statuses_docker_Execute cl (exec_in id (sh_String ss_shell)) o w) as Hs1.
  destruct (docker_Execute _ _ _ w) as [w1 [out1 [x1|]]]; simpl in Hs1.
  - pose proof (statuses_docker_Execute cl (exec_in id (sh_String netstat_shell)) o w1) as Hs2.
    destruct (docker_Execute _ _ _ w1) as [w2 [out2 [x2|]]]; simpl in Hs2; intros [= <- <- <-].
    + split_and!; [done|congruence|auto].
    + split_and!; [done|congruence|eauto].
  - intros [= <- <- <-]. split_and!; [done..|eauto].
Qed.

Lemma leader_inv dc id cl reg (w w' : W) reg' err u :
  leader_url dc = Ok u → step2GetLeader dc id "status" "isLeader" o cl reg w = (reg', w', err) →
  err = None ∧ statuses w' = statuses w ∧
  (reg' = reg ∨ HasPrefix (str_var reg "status") "Up" = true ∧ GetRole dc = ROLE_FS_MDS ∧
                ∃ b, reg' = set_bool "isLeader" b reg).
Proof.
  intros Hu. unfold step2GetLeader. destruct (HasPrefix _ _); simpl.
  2: { intros [= <- <- <-]. auto. }
  case_decide as Hr; [intros [= <- <- <-]; auto|]. rewrite Hu. simpl.
  destruct (docker_Execute _ _ _ w) as [w1 [out1 x1]] eqn:Hx. intros [= <- <- <-].
  apply statuses_docker_inv in Hx. split_and!; [done..|]. right. split_and!; [done| |eauto]. exact Hr.
Qed.

Lemma bool_var_set_str reg v v' s : v ≠ v' → bool_var (set_str v s reg) v' = bool_var reg v'.
Proof.
  intros. unfold bool_var, set_str, map_get, Register_Set, Tasks.Register in *. by rewrite lookup_insert_ne.
Qed.
Lemma str_var_set_bool reg v v' b : v ≠ v' → str_var (set_bool v b reg) v' = str_var reg v'.
Proof.
  intros. unfold str_var, set_bool, map_get, Register_Set, Tasks.Register in *. by rewrite lookup_insert_ne.
Qed.

Lemma status_run dc sid id cl (w w' : W) reg' err s u :
  service_status dc sid id "" false SERVICE_STATUS_UNKNOWN = Ok s → leader_url dc = Ok u →
  execute_steps cl (status_steps cfg dc sid id) NewRegister w = (reg', w', err) →
  ∃ out x w1, docker_Execute cl (list_shell STATUS_FORMAT ("id=" +:+ id) false true) o w = (w1, (out, x)) ∧
  match x with
  | Some _ => (∃ e, err = Some (EOther e)) ∧ statuses w' = statuses w
  | None => err = None ∧ ∃ ports leader,
      let status := last_line (TrimNewlines out) in
      statuses w' = <[sid := found_status s ports leader (format_status id status)]> (statuses w) ∧
      (HasPrefix status "Up" = true ∨ ports = "" ∧ leader = false) ∧
      (GetRole dc = ROLE_FS_MDS ∨ leader = false)
  end.
Proof.
  intros Hst Hu. unfold status_steps, list_container, ListContainers. cbn [execute_steps].
  destruct (docker_step _ _ _ _ _ cl _ w) as [[reg1 w1] err1] eqn:Hs.
  apply docker_step_inv in Hs as (out & x & Hx & Hp). intros He. exists out, x, w1. split; [done|].
  pose proof (statuses_docker_inv _ _ _ _ _ _ Hx) as Hs1.
  apply PostHandle_out in Hp as [-> [[-> ->]|[Hn [e ->]]]].
  2: { destruct x; [|done]. simpl in He. simplify_eq. eauto. }
  unfold last_line_of, Lambda in He. cbn [after_step] in He. rewrite str_var_set in He.
  set (status := last_line (TrimNewlines out)) in *.
  set (reg1 := set_str "status" (TrimNewlines out) NewRegister) in *.
  destruct (Step2GetListenPorts _ _ _ _ cl _ w1) as [[reg2 w2] err2] eqn:Hp.
  apply ports_inv in Hp as (-> & Hs2 & Hr2). cbn [after_step] in He. rewrite str_var_set in Hr2.
  destruct (step2GetLeader _ _ _ _ _ cl reg2 w2) as [[reg3 w3] err3] eqn:Hl.
  apply (leader_inv _ _ _ _ _ _ _ _ u Hu) in Hl as (-> & Hs3 & Hr3). cbn [after_step] in He.
  assert (str_var reg2 "status" = status) as Hst2.
  { destruct Hr2 as [->|[_ [p ->]]]; [|rewrite str_var_ne by done]; apply str_var_set. }
  rewrite Hst2 in Hr3.
  assert (str_var reg3 "status" = status) as Hst3.
  { destruct Hr3 as [->|(_ & _ & b & ->)]; [|rewrite str_var_set_bool by done]; done. }
  unfold step2FormatServiceStatus, step_crash in He.
  rewrite (service_status_found _ _ _ _ _ _ _ Hst) in He. cbn [after_step] in He. rewrite Hst3 in He.
  simplify_eq. split; [done|]. exists (str_var reg' "ports"), (bool_var reg' "isLeader").
  unfold setServiceStatus. rewrite statuses_set_statuses, Hs3, Hs2, Hs1. split; [done|].
  assert (bool_var reg2 "isLeader" = false) as Hb.
  { destruct Hr2 as [->|[_ [p ->]]]; by rewrite !bool_var_set_str by done. }
  assert (HasPrefix (last_line (TrimNewlines out)) "Up" = true ∨ str_var reg2 "ports" = "") as Hports.
  { destruct Hr2 as [->|[? [p ->]]]; [|by left]. right. by rewrite !str_var_ne by done. }
  destruct Hr3 as [->|(Hup & Hrole & b & ->)]; [rewrite Hb; split; [tauto|by right]|].
  split; [by left|by left].
Qed.
End status.
