(* ===== verification/EnvChecksFacts.v ===== *)
(** What the checks of the environment promise: a check that passes has seen every port of
    the service free, every address of its peers answer, a kernel that is new enough. *)

From S2P Require Import Prelude Errno GoLib Utils Storage StorageFacts CliConfig Hosts Cli Tasks Playbook Deploy ServiceCmd Shell Steps Vars DeployConfig Topology ServiceEnv Services ServicesFacts Checker Session EnvChecks.
From stdpp Require Import pretty.
From Stdlib Require Import Ascii.

(** ** Steps that end a task by an error only *)

Section plain.
Context {W : Type} `{World W}.
Notation Step := (Tasks.Step (W := W) (Client := SSHConfig)).

Definition plain_result (r : option terror) : Prop := r = None ∨ ∃ e, r = Some (EOther e).
Definition plain (s : Step) : Prop := ∀ cl reg w, plain_result (s cl reg w).2.

Lemma plain_shell S O ec o s : plain (shell_step S O ec o s).
Proof.
  intros cl reg w. unfold shell_step. destruct (sh_Execute _ _ _ _) as [w1 [out x]].
  pose proof (PostHandle_err S O out x (Some ec) reg) as Hp.
  by destruct (PostHandle _ _ _ _ _ _).
Qed.
Lemma plain_docker S O ec o s : plain (docker_step S O ec o s).
Proof.
  intros cl reg w. unfold docker_step. destruct (docker_Execute _ _ _ _) as [w1 [out x]].
  pose proof (PostHandle_err S O out x (Some ec) reg) as Hp.
  by destruct (PostHandle _ _ _ _ _ _).
Qed.
Lemma plain_verdict f : (∀ reg, plain_result (f reg)) → plain (verdict f).
Proof. intros Hf cl reg w. apply Hf. Qed.
Lemma plain_each l : Forall plain l → plain (each_step l).
Proof.
  intros Hl cl. induction Hl as [|s l Hs _ IH]; intros reg w; simpl; [by left|].
  specialize (Hs cl reg w). destruct (s cl reg w) as [[reg1 w1] [e|]]; [done|apply IH].
Qed.

(** Steps in the middle of steps that passed have passed. *)
Lemma passed cl l m r reg w reg' w' :
  Forall plain (l ++ m ++ r) → execute_steps cl (l ++ m ++ r) reg w = (reg', w', None) →
  ∃ reg1 w1 reg2 w2, execute_steps cl l reg w = (reg1, w1, None) ∧
    execute_steps cl m reg1 w1 = (reg2, w2, None).
Proof.
  revert reg w; induction l as [|s l IH]; intros reg w; simpl.
  - intros Hm He. exists reg, w. revert reg w Hm He. induction m as [|s m IH]; intros reg w; simpl; [eauto|].
    intros [Hs Hm]%Forall_cons. specialize (Hs cl reg w). destruct (s cl reg w) as [[reg1 w1] err]; simpl in *.
    destruct Hs as [-> | [e ->]]; simpl; [|done]. intros He.
    destruct (IH _ _ Hm He) as (reg2 & w2 & _ & Hx). eauto.
  - intros [Hs Hall]%Forall_cons. specialize (Hs cl reg w).
    destruct (s cl reg w) as [[reg1 w1] err]; simpl in *.
    destruct Hs as [-> | [e ->]]; simpl; [by apply IH|done].
Qed.

Lemma execute_cons cl s l reg w reg' w' :
  plain s → execute_steps cl (s :: l) reg w = (reg', w', None) →
  ∃ reg1 w1, s cl reg w = (reg1, w1, None) ∧ execute_steps cl l reg1 w1 = (reg', w', None).
Proof.
  intros Hs. simpl. specialize (Hs cl reg w). destruct (s cl reg w) as [[reg1 w1] err]; simpl in *.
  destruct Hs as [-> | [e ->]]; simpl; [eauto|done].
Qed.
End plain.

Lemma bool_var_set reg v b : bool_var (set_bool v b reg) v = b.
Proof. unfold bool_var, set_bool, map_get, Register_Set, Tasks.Register in *. by rewrite lookup_insert_eq. Qed.

Lemma PostHandle_both v out x ec O reg :
  PostHandle (Some v) O out x ec reg =
    (set_bool v (bool_decide (x = None))
       (match O with Some u => set_str u (TrimNewlines out) reg | None => reg end), None).
Proof. done. Qed.

(** ** What [ss] answers

    Asked for a port, inside a container on the network of its host, it changes nothing and
    says nothing - or complains about the address family - exactly when no socket of the
    host listens on the port. *)
Class NetLaws (W : Type) `{World W} (cl : option SSHConfig) (o : ExecOptions) := {
  listening : W → gset Z;
  ss_answers id port w w' out :
    docker_Execute cl (docker_ContainerExec id (ss_command port) NewShell) o w = (w', (out, None)) →
    listening w' = listening w ∧
    (TrimNewlines out = "" ∨ TrimNewlines out = RTNETLINK_INVALID ↔ port ∉ listening w);
}.

Section checks.
Context {W : Type} `{WorldLaws W} `{Driver} (os : OS) `{MapOrder} (parse_hosts : string → option Hosts_)
  (md5 : string → string) (cli : DingoCli) (cfg : DingoCliConfig) (c : SSHConfig).
Notation Step := (Tasks.Step (W := W) (Client := SSHConfig)).
Notation options := (cli_ExecOptions cfg).

(** A command of the host that succeeds. *)
Definition succeeds (s : Shell) (o : ExecOptions) (w : W) : Prop :=
  ∃ w' out, sh_Execute (Some c) s o w = (w', (out, None)).

(** ** Tasks *)

Lemma host_task_inv name dc sub l (w w' : W) t :
  host_task os parse_hosts cli cfg name dc sub l w = (w', Ok (Some t)) →
  dc_ssh os parse_hosts cli cfg dc = Ok c →
  untouched w w' ∧ ∃ hc ls, dc_host os parse_hosts cli dc = Ok hc ∧ l hc = Ok ls ∧
    steps t = ls ∧ postSteps t = [] ∧ sshConfig t = Some c.
Proof.
  unfold host_task. intros Hn Hc.
  apply eff_bind_Ok in Hn as (w0 & hc & [= <- Hhc] & Hn).
  apply eff_bind_Ok in Hn as (w0 & s & [= <- _] & Hn).
  apply eff_bind_Ok in Hn as (w0 & s' & [= <- Hs] & Hn).
  unfold dc_ssh in Hc. rewrite Hhc in Hc. simpl in Hc. rewrite Hs in Hc. injection Hc as ->.
  apply eff_bind_Ok in Hn as (w0 & t0 & Hn & Hm). apply new_task_inv in Hn as [Hu [n ->]].
  apply eff_bind_Ok in Hm as (w1 & ls & [= <- Hl] & Hm). apply pair_eq in Hm as [<- [= <-]].
  split; [done|]. exists hc, ls. destruct (add_steps_inv ls (NewTask n name s (Some c))) as (-> & -> & ->). done.
Qed.

(** [wa] is a moment of the run of [t] from [w]: some steps have passed. *)
Definition moment (t : Tasks.Task W SSHConfig SSHConfig) (w wa : W) : Prop :=
  ∃ wc n reg, untouched w wc ∧ execute_steps (Some c) (take n (steps t)) NewRegister wc = (reg, wa, None).

(** A task that passed: steps in a row have passed from some moment of its run. *)
Lemma task_passed (t : Tasks.Task W SSHConfig SSHConfig) (w w' : W) l m r :
  postSteps t = [] → sshConfig t = Some c → steps t = l ++ m ++ r → Forall plain (steps t) →
  task_Execute task_ssh t w = (w', None) →
  ∃ reg wa reg' wb, moment t w wa ∧ execute_steps (Some c) m reg wa = (reg', wb, None).
Proof.
  intros Hp Hs Hl Hall Ht. destruct (task_run t c w w' _ Hp Hs Ht) as [(e & ? & _)|(reg & wc & wd & Hu & He & _)]; [done|].
  rewrite Hl in Hall, He. destruct (passed _ _ _ _ _ _ _ _ Hall He) as (reg1 & wa & reg2 & wb & Hb & Hm).
  exists reg1, wa, reg2, wb. split; [|done]. exists wc, (length l), reg1. split; [done|].
  by rewrite Hl, take_app_length.
Qed.

Lemma plain_verdict_fail (f : Tasks.Register → option terror) :
  (∀ r, f r = None ∨ ∃ e, f r = fail e) → plain (W := W) (verdict f).
Proof. intros Hf. apply plain_verdict. intros r. destruct (Hf r) as [-> | [e ->]]; [by left|by right; eexists]. Qed.

(** A command whose success the next step wants. *)
Lemma wanted v O ec o s f reg reg' (w w' : W) :
  (∀ r, f r = None ∨ ∃ e, f r = fail e) → (∀ r, bool_var r v = false → f r ≠ None) →
  execute_steps (Some c) [shell_step (Some v) O ec o s; verdict f] reg w = (reg', w', None) → succeeds s o w.
Proof.
  intros Hp Hf He. apply execute_cons in He as (reg1 & w1 & Hs & He); [|apply plain_shell].
  apply execute_cons in He as (reg2 & w2 & Hv & _); [|by apply plain_verdict_fail].
  unfold shell_step in Hs. destruct (sh_Execute _ s o w) as [w3 [out x]] eqn:Hx.
  rewrite PostHandle_both in Hs. injection Hs as <- <-. injection Hv as _ _ Hv.
  destruct x as [x|]; [|by exists w3, out]. exfalso. eapply Hf, Hv. apply bool_var_set.
Qed.

(** ** Ports *)

Lemma port_verdict_plain b out : port_verdict b out = None ∨ ∃ e, port_verdict b out = fail e.
Proof. unfold port_verdict. repeat case_match; eauto. Qed.

Lemma plain_port id v port : plain (W := W) (step2CheckPortStatus cfg id v port).
Proof.
  intros cl reg w. apply plain_each. apply Forall_cons_2; [unfold ContainerExec; apply plain_docker|].
  apply Forall_singleton, plain_verdict_fail. intros r. apply port_verdict_plain.
Qed.

Lemma plain_ports image name l : Forall (plain (W := W)) (port_steps cfg image name l).
Proof.
  unfold port_steps. apply Forall_app. split.
  - apply Forall_cons_2; [unfold PullImage; apply plain_docker|].
    apply Forall_cons_2; [unfold CreateContainer; apply plain_docker|].
    apply Forall_singleton. intros cl reg w. exact (plain_docker _ _ _ _ _ cl reg w).
  - apply Forall_fmap, Forall_true. intros a. exact (plain_port "containerId" "success" (a_Port a)).
Qed.

Lemma port_passed `{!NetLaws W (Some c) options} id port reg reg' (w w' : W) :
  step2CheckPortStatus cfg id "success" port (Some c) reg w = (reg', w', None) → port ∉ listening w.
Proof.
  unfold step2CheckPortStatus. simpl. unfold ContainerExec, docker_step.
  destruct (docker_Execute _ _ _ w) as [w1 [out x]] eqn:Hd. rewrite PostHandle_both.
  unfold checkPortInUse, verdict, Lambda. rewrite bool_var_set, str_var_set_bool by done.
  rewrite str_var_set. unfold port_verdict. case_bool_decide as Hx; [|done]. subst x.
  simpl. case_decide as Ho; [|done]. intros _.
  apply ss_answers in Hd as [_ Hd]. by apply Hd.
Qed.

(** The check of ports.  When the task of a service has passed, every port of the service
    was free when it was asked for: no socket of the host listened on it. *)
Theorem port_check_passes `{!NetLaws W (Some c) options} dc (w w1 w2 : W) t :
  NewCheckPortInUseTask os parse_hosts md5 cli cfg dc w = (w1, Ok (Some t)) →
  dc_ssh os parse_hosts cli cfg dc = Ok c → task_Execute task_ssh t w1 = (w2, None) →
  ∃ addresses, getServiceListenAddresses dc = Ok addresses ∧
    ∀ a, a ∈ addresses → ∃ wa, moment t w1 wa ∧ a_Port a ∉ listening wa.
Proof.
  unfold NewCheckPortInUseTask. intros Hn Hc Ht.
  apply eff_bind_Ok in Hn as (w0 & hc & [= <- _] & Hn). case_decide; [done|].
  apply eff_bind_Ok in Hn as (w3 & l & [= <- Hl] & Hn). exists l. split; [done|].
  apply host_task_inv in Hn as (_ & _ & ls & _ & Hls & Hsteps & Hp & Hs); [|done].
  destruct (GetContainerImage dc) as [image| |]; [|done..]. simpl in Hls. injection Hls as <-.
  intros a (l1 & l2 & ->)%list_elem_of_split.
  set (name := getCheckPortContainerName md5 cli dc) in *.
  pose proof (plain_ports image name (l1 ++ a :: l2)) as Hall. rewrite <-Hsteps in Hall.
  unfold port_steps in Hsteps. rewrite fmap_app, fmap_cons, cons_middle, app_assoc in Hsteps.
  destruct (task_passed _ w1 w2 _ _ _ Hp Hs Hsteps) as (reg & wa & reg' & wb & Hm & He); [done..|].
  exists wa. split; [done|]. apply execute_cons in He as (reg1 & w4 & He & _); [|apply plain_port].
  by eapply port_passed.
Qed.

(** ** Reachability *)

Lemma unique_step out m a :
  (∀ ip, ip ∈ out ↔ ip ∈ (m : gset string)) →
  let '(out', m') := (if decide (a_IP a ∈ m) then out else out ++ [a_IP a], {[a_IP a]} ∪ m) in
  ∀ ip, ip ∈ out' ↔ ip ∈ (m' : gset string).
Proof. intros Hm ip. case_decide; set_solver. Qed.
Lemma elem_of_unique l ip : ip ∈ unique l ↔ ∃ a, a ∈ l ∧ a_IP a = ip.
Proof.
  unfold unique.
  assert (∀ out m, (∀ ip, ip ∈ out ↔ ip ∈ (m : gset string)) →
    ∀ ip, ip ∈ (foldl (λ '(out, m) a, (if decide (a_IP a ∈ (m : gset string)) then out else out ++ [a_IP a],
                                       {[a_IP a]} ∪ m)) (out, m) l).1 ↔
          ip ∈ out ∨ ∃ a, a ∈ l ∧ a_IP a = ip) as Hg.
  { induction l as [|a l IH]; intros out m Hm i; simpl; [set_solver|].
    rewrite IH by apply (unique_step out m a Hm). case_decide as Ha; [apply Hm in Ha|]; set_solver. }
  rewrite (Hg [] ∅) by set_solver. set_solver.
Qed.

(** A task that asks about each of a list. *)
Lemma each_passed {A} (f : A → list Step) (l : list A) name dc sub hc_steps (w w1 w2 : W) t a :
  host_task os parse_hosts cli cfg name dc sub (λ _, Ok hc_steps) w = (w1, Ok (Some t)) →
  dc_ssh os parse_hosts cli cfg dc = Ok c → task_Execute task_ssh t w1 = (w2, None) →
  hc_steps = l ≫= f → (∀ a, Forall (plain (W := W)) (f a)) → a ∈ l →
  ∃ reg wa reg' wb, moment t w1 wa ∧ execute_steps (Some c) (f a) reg wa = (reg', wb, None).
Proof.
  intros Hn Hc Ht -> Hf Ha. apply host_task_inv in Hn as (_ & _ & ls & _ & [= <-] & Hsteps & Hp & Hs); [|done].
  assert (Forall (plain (W := W)) (steps t)) as Hall by (rewrite Hsteps; by apply Forall_bind, Forall_true).
  apply list_elem_of_split in Ha as (l1 & l2 & ->). rewrite bind_app, bind_cons in Hsteps.
  by eapply task_passed.
Qed.

Lemma all_configs_inv (w w' : W) dcs :
  all_configs w = (w', Ok dcs) → w' = w ∧ mem w !! KEY_ALL_DEPLOY_CONFIGS = Some (ODcs dcs).
Proof. unfold all_configs. intros [= <- Hm]. by destruct (mem w !! KEY_ALL_DEPLOY_CONFIGS) as [[]|]; simplify_eq. Qed.

Lemma success_plain (e : ErrorCode) (r : Tasks.Register) :
  (λ reg, if bool_var reg "success" then None else fail e) r = None ∨
  ∃ e', (λ reg, if bool_var reg "success" then None else fail e) r = fail e'.
Proof. cbv beta. destruct (bool_var r "success"); [by left|right; by eexists]. Qed.
Lemma plain_ping a : Forall (plain (W := W)) (ping_steps cfg a).
Proof.
  apply Forall_cons_2; [unfold Ping; apply plain_shell|].
  apply Forall_singleton, plain_verdict_fail, success_plain.
Qed.
Lemma plain_connect a : Forall (plain (W := W)) (connect_steps cfg a).
Proof.
  apply Forall_cons_2; [unfold Curl; apply plain_shell|].
  apply Forall_singleton, plain_verdict_fail, success_plain.
Qed.

(** The check of reachability.  When the task of a service has passed, the host of the
    service has got an answer from every address that the services it talks to listen on. *)
Theorem reachable_check_passes dc (w w1 w2 : W) t :
  NewCheckDestinationReachableTask os parse_hosts cli cfg dc w = (w1, Ok (Some t)) →
  dc_ssh os parse_hosts cli cfg dc = Ok c → task_Execute task_ssh t w1 = (w2, None) →
  ∃ dcs connect, mem w !! KEY_ALL_DEPLOY_CONFIGS = Some (ODcs dcs) ∧
    getServiceConnectAddress dc dcs = Ok connect ∧
    ∀ a, a ∈ connect → ∃ wa, moment t w1 wa ∧ succeeds (AddOption "-c 1" (sh_Ping (a_IP a) NewShell)) options wa.
Proof.
  unfold NewCheckDestinationReachableTask. intros Hn Hc Ht.
  apply eff_bind_Ok in Hn as (w0 & hc & [= <- _] & Hn).
  apply eff_bind_Ok in Hn as (w0 & dcs & [-> Hdcs]%all_configs_inv & Hn).
  apply eff_bind_Ok in Hn as (w3 & l & [= <- Hl] & Hn). exists dcs, l. split_and!; [done..|].
  intros a Ha. assert (a_IP a ∈ unique l) as Hi by (apply elem_of_unique; eauto).
  destruct (each_passed _ _ _ _ _ _ _ _ _ _ _ Hn Hc Ht eq_refl plain_ping Hi) as (reg & wa & reg' & wb & Hm & He).
  exists wa. split; [done|]. unfold ping_steps, Ping, checkReachable in He.
  eapply wanted, He; [apply success_plain|]. intros r Hr. cbv beta. by rewrite Hr.
Qed.

(** The check of the firewall.  When the task of a service has passed, its host could fetch
    a page from every address that the services it talks to listen on - port by port. *)
Theorem firewall_check_passes dc (w w1 w2 : W) t :
  NewCheckNetworkFirewallTask os parse_hosts cli cfg dc w = (w1, Ok (Some t)) →
  dc_ssh os parse_hosts cli cfg dc = Ok c → task_Execute task_ssh t w1 = (w2, None) →
  ∃ dcs connect, mem w !! KEY_ALL_DEPLOY_CONFIGS = Some (ODcs dcs) ∧
    getServiceConnectAddress dc dcs = Ok connect ∧
    ∀ a, a ∈ connect → ∃ wa, moment t w1 wa ∧
      succeeds (AddOption "--output /dev/null" (sh_Curl ("http://" +:+ address_key a) NewShell)) options wa.
Proof.
  unfold NewCheckNetworkFirewallTask. intros Hn Hc Ht.
  apply eff_bind_Ok in Hn as (w0 & hc & [= <- _] & Hn).
  apply eff_bind_Ok in Hn as (w0 & dcs & [-> Hdcs]%all_configs_inv & Hn).
  apply eff_bind_Ok in Hn as (w3 & l & [= <- Hl] & Hn). exists dcs, l. split_and!; [done..|].
  intros a Ha.
  destruct (each_passed _ _ _ _ _ _ _ _ _ _ _ Hn Hc Ht eq_refl plain_connect Ha) as (reg & wa & reg' & wb & Hm & He).
  exists wa. split; [done|]. unfold connect_steps, Curl, step2CheckConnectStatus in He.
  eapply wanted, He; [apply success_plain|]. intros r Hr. cbv beta. by rewrite Hr.
Qed.

(** ** Permissions *)

(** [mkdir] for a directory. *)
Definition mkdir (path : string) : Shell := AddOption "--parents" (sh_Mkdir [path] NewShell).

(** A directory that the check lets pass: it was made, or what the host said was not about
    permissions. *)
Definition lets_pass (path : string) (w : W) : Prop :=
  ∃ w' out x, sh_Execute (Some c) (mkdir path) (without_sudo options) w = (w', (out, x)) ∧
    (x = None ∨ directory_failure (ToLower (TrimNewlines out)) = None).

Lemma directory_failure_plain out : directory_failure out = None ∨ ∃ e, directory_failure out = fail e.
Proof. unfold directory_failure. repeat case_match; eauto. Qed.
Lemma plain_directory d : Forall (plain (W := W)) (directory_steps cfg d).
Proof.
  unfold directory_steps. apply Forall_cons_2.
  - intros cl reg w. apply plain_each, Forall_fmap, Forall_true. intros p. apply plain_shell.
  - apply Forall_singleton. intros cl reg w. unfold checkCreateDirectory, Lambda.
    destruct (bool_var reg "success"); [by left|]. simpl.
    destruct (directory_failure_plain (ToLower (str_var reg "out"))) as [-> | [e ->]]; [by left|by right; eexists].
Qed.
Lemma plain_engine : Forall (plain (W := W)) [EngineInfo (Some "success") (Some "out") options; CheckEngineInfo "success" "out"].
Proof.
  apply Forall_cons_2; [unfold EngineInfo; apply plain_docker|]. apply Forall_singleton. intros cl reg w.
  unfold CheckEngineInfo, Lambda. destruct (bool_var reg "success"); [by left|by right; eexists].
Qed.
Lemma plain_permission dirs : Forall (plain (W := W)) (permission_steps cfg dirs).
Proof.
  unfold permission_steps. apply Forall_app. split; [|apply Forall_app; split].
  - apply Forall_cons_2; [unfold Whoami; apply plain_shell|].
    apply Forall_cons_2; [apply plain_verdict_fail; intros r; repeat case_match; eauto|].
    apply Forall_cons_2; [unfold Hostname_; apply plain_shell|].
    apply Forall_cons_2; [intros cl reg; unfold Ping; apply plain_shell|].
    apply Forall_singleton, plain_verdict_fail, success_plain.
  - apply Forall_bind, Forall_true, plain_directory.
  - apply plain_engine.
Qed.

Lemma directory_passed d reg reg' (w w' : W) :
  d_Path d ≠ "" → d_Path d ≠ "-" →
  execute_steps (Some c) (directory_steps cfg d) reg w = (reg', w', None) → lets_pass (d_Path d) w.
Proof.
  intros Hd Hd' He. pose proof (plain_directory d) as [Hp _]%Forall_cons.
  apply execute_cons in He as (reg1 & w1 & Hs & He); [|done].
  unfold CreateDirectory in Hs. rewrite filter_cons, filter_nil, decide_True in Hs by done. simpl in Hs.
  unfold shell_step in Hs.
  destruct (sh_Execute _ _ _ w) as [w2 [out x]] eqn:Hx. rewrite PostHandle_both in Hs. injection Hs as <- <-.
  exists w2, out, x. split; [exact Hx|]. simpl in He. unfold checkCreateDirectory, Lambda in He.
  rewrite bool_var_set in He. case_bool_decide; [by left|]. right.
  rewrite str_var_set_bool, str_var_set in He by done. simpl in He.
  by destruct (directory_failure_plain (ToLower (TrimNewlines out))) as [? | [e Hf]]; [|rewrite Hf in He].
Qed.

Lemma getServiceDirectorys_nonempty dc dirs d :
  getServiceDirectorys dc = Ok dirs → d ∈ dirs → d_Path d ≠ "".
Proof.
  unfold getServiceDirectorys. intros (l1 & _ & (l2 & _ & (l3 & _ & (l4 & _ & [= <-])%bind_Ok)%bind_Ok)%bind_Ok)%bind_Ok.
  by intros [? _]%list_elem_of_filter.
Qed.

(** The check of permissions.  When the task of a service has passed, every directory of the
    service was made on its host or failed for another reason than permissions, and the
    container engine answered. *)
Theorem permission_check_passes dc (w w1 w2 : W) t :
  NewCheckPermissionTask os parse_hosts cli cfg dc w = (w1, Ok (Some t)) →
  dc_ssh os parse_hosts cli cfg dc = Ok c → task_Execute task_ssh t w1 = (w2, None) →
  ∃ dirs, getServiceDirectorys dc = Ok dirs ∧
    (∀ d, d ∈ dirs → d_Path d ≠ "-" → ∃ wa, moment t w1 wa ∧ lets_pass (d_Path d) wa) ∧
    ∃ wa wb out, moment t w1 wa ∧ docker_Execute (Some c) (docker_DockerInfo NewShell) options wa = (wb, (out, None)).
Proof.
  unfold NewCheckPermissionTask. intros Hn Hc Ht.
  apply host_task_inv in Hn as (_ & _ & ls & _ & Hls & Hsteps & Hp & Hs); [|done].
  destruct (getServiceDirectorys dc) as [dirs| |] eqn:Hd; [|done..]. simpl in Hls. injection Hls as <-.
  exists dirs. split; [done|]. pose proof (plain_permission dirs) as Hall. rewrite <-Hsteps in Hall.
  unfold permission_steps in Hsteps. split.
  - intros d (l1 & l2 & ->)%list_elem_of_split Hd'.
    assert (d_Path d ≠ "") as Hne.
    { eapply getServiceDirectorys_nonempty; [done|set_solver]. }
    rewrite bind_app, bind_cons, <-!app_assoc, app_assoc in Hsteps.
    destruct (task_passed _ w1 w2 _ _ _ Hp Hs Hsteps) as (reg & wa & reg' & wb & Hm & He); [done..|].
    exists wa. split; [done|]. by eapply directory_passed.
  - rewrite app_assoc, <-(app_nil_r [EngineInfo _ _ _; _]) in Hsteps.
    destruct (task_passed _ w1 w2 _ _ _ Hp Hs Hsteps) as (reg & wa & reg' & wb & Hm & He); [done..|].
    pose proof plain_engine as [He' _]%Forall_cons. apply execute_cons in He as (reg1 & w3 & He & Hv); [|done].
    unfold EngineInfo, docker_step in He. destruct (docker_Execute _ _ _ wa) as [w4 [out x]] eqn:Hx.
    rewrite PostHandle_both in He. injection He as <- <-. simpl in Hv. unfold CheckEngineInfo, Lambda in Hv.
    rewrite bool_var_set in Hv. case_bool_decide; [subst x; eauto|done].
Qed.
End checks.

(** ** Kernels *)

Lemma span_digits_app acc w z s :
  parse_digits acc w = Some z → (∀ a s', s = String a s' → digit_of a = None) →
  span_digits (w +:+ s) = (w, s).
Proof.
  intros Hw Hs. revert acc Hw. induction w as [|a w IH]; intros acc; simpl.
  - intros _. destruct s as [|a s]; [done|]. simpl. by rewrite (Hs a s eq_refl).
  - intros (x & Hx & Hw)%bind_Some. rewrite bool_decide_true by congruence. by rewrite (IH _ Hw).
Qed.
Lemma number_Itoa n s :
  (0 ≤ n)%Z → (∀ a s', s = String a s' → digit_of a = None) → number (Itoa n +:+ s) = Some (Itoa n, s).
Proof.
  intros Hn Hs. assert (Itoa n = pretty (Z.to_N n)) as Hi by (unfold Itoa; destruct n; [done..|lia]).
  pose proof (parse_unsigned_pretty (Z.to_N n)) as Hp. rewrite <-Hi in Hp.
  unfold number, parse_unsigned in *. pose proof (Itoa_ne_empty n) as Hne.
  destruct (Itoa n) as [|a w] eqn:E; [done|]. by rewrite (span_digits_app _ _ _ _ Hp Hs).
Qed.

Lemma kernel_suffix_start s a s' : kernel_suffix s = true → s = String a s' → digit_of a = None.
Proof.
  intros Hs ->. simpl in Hs. apply andb_prop in Hs as [[Ha _]%andb_prop _].
  by apply bool_decide_eq_true in Ha as [-> | ->].
Qed.

Lemma kernel_release_Itoa a b c s :
  (0 ≤ a)%Z → (0 ≤ b)%Z → (0 ≤ c)%Z → kernel_suffix s = true →
  kernel_release (Itoa a +:+ "." +:+ Itoa b +:+ "." +:+ Itoa c +:+ s)
  = Some (Itoa a +:+ "." +:+ Itoa b +:+ "." +:+ Itoa c).
Proof.
  intros Ha Hb Hc Hs. unfold kernel_release.
  rewrite number_Itoa by (done || by intros ? ? [= <- _]). simpl.
  rewrite number_Itoa by (done || by intros ? ? [= <- _]). simpl.
  rewrite number_Itoa by (done || (intros ? ?; by apply kernel_suffix_start)). simpl. by rewrite Hs.
Qed.

Lemma calcKernelVersion_number ns :
  ns ≠ [] → length ns ≤ 6 → Forall component ns → calcKernelVersion (GoLib.Join (Itoa <$> ns) ".") = version_number ns.
Proof.
  intros Hne Hl Hns. unfold calcKernelVersion. rewrite Split_Join.
  - clear Hne. induction ns as [|n ns IH] using rev_ind; [done|].
    apply Forall_app in Hns as [Hns [Hn _]%Forall_cons]. rewrite length_app in Hl. simpl in Hl.
    pose proof (version_number_bound ns Hns) as Hb. unfold component in Hn.
    assert (1000 ^ Z.of_nat (length ns) ≤ 1000 ^ 5)%Z as Hp by (apply Z.pow_le_mono_r; lia).
    change (1000 ^ 5)%Z with 1000000000000000%Z in Hp.
    rewrite fmap_app. change (Itoa <$> [n]) with [Itoa n]. rewrite foldl_snoc, IH by (done || lia). unfold Atoi_value.
    rewrite Atoi_Itoa, (proj2 (in_int64b_spec n)) by (unfold in_int64, MinInt64, MaxInt64; lia).
    unfold version_number. rewrite foldl_snoc. apply wrap64_id.
    fold (version_number ns). unfold in_int64, MinInt64, MaxInt64. lia.
  - by destruct ns.
  - apply Forall_fmap. eapply Forall_impl; [done|]. intros n [Hn _]. by apply Itoa_no_dot.
Qed.

(** The check of kernels.  With three numbers below a thousand, and whatever follows a dash
    or an underscore, a release is accepted exactly when 3.15.0 is not newer. *)
Theorem kernel_version_check a b c s :
  component a → component b → component c → kernel_suffix s = true →
  kernel_verdict (Itoa a +:+ "." +:+ Itoa b +:+ "." +:+ Itoa c +:+ s) = None ↔ ¬ newer [3; 15; 0]%Z [a; b; c].
Proof.
  intros Ha Hb Hc Hs. unfold kernel_verdict. rewrite kernel_release_Itoa by (done || by (unfold component in *; lia)).
  change (Itoa a +:+ "." +:+ Itoa b +:+ "." +:+ Itoa c) with (GoLib.Join (Itoa <$> [a; b; c]) ".").
  assert (Forall component [a; b; c]) as Hf by by rewrite !Forall_cons, Forall_nil.
  rewrite (calcKernelVersion_number [a; b; c]) by (done || (simpl; lia)).
  change (calcKernelVersion CHUNKSERVER_LEAST_KERNEL_VERSION) with (version_number [3; 15; 0]%Z).
  rewrite newer_number by (done || by rewrite !Forall_cons, Forall_nil; unfold component; lia).
  destruct (Z.ltb_spec (version_number [a; b; c]) (version_number [3; 15; 0]%Z)); split; [done|lia|lia|done].
Qed.

(** A number of a thousand carries into the next one: 3.14.1000 is taken for 3.15.0. *)
Example kernel_version_carries : kernel_verdict "3.14.1000" = None ∧ kernel_verdict "3.14.999" ≠ None.
Proof. by vm_compute. Qed.
