(* ===== verification/ServiceContracts.v ===== *)
(** The contracts of the service tasks, and a small container engine on which they are
    evaluated. *)

From S2P Require Import Prelude Errno GoLib Utils Storage StorageFacts CliConfig Hosts HostsFacts Cli Tasks Playbook Deploy ServiceCmd Shell Steps Vars DeployConfig Topology TopologySamples ServiceEnv Services ServicesFacts.
From Stdlib Require Import Ascii.

(** ** A container engine *)

(** One host with containers that run or do not.  A container is created under the id
    [c1]; removing a running container fails, and so does a command inside a container. *)
Record Sim : Type := mkSim {
  sim_db : DB; sim_box : gmap string bool; sim_statuses : gmap string ServiceStatus;
  sim_mem : gmap string optval }.

Definition with_box (w : Sim) (b : gmap string bool) : Sim := mkSim (sim_db w) b (sim_statuses w) (sim_mem w).

Definition PS_ID : string := "sudo docker ps --format " +:+ bytes [34] +:+ "{{.ID}}" +:+ bytes [34] +:+ " --filter id=".
Definition PS_STATUS : string :=
  "sudo docker ps --format " +:+ bytes [34] +:+ "{{.Status}}" +:+ bytes [34] +:+ " --filter id=".

Inductive verb : Type :=
| VCreate | VPs (id : string) | VStatus (id : string) | VInspect (id : string) | VStart (id : string)
| VStop (id : string) | VRm (id : string) | VExec | VOther.
Definition first_of (l : list (option verb)) : verb :=
  foldr (λ v r, match v with Some v => v | None => r end) VOther l.
Definition sim_parse (cmd : string) : verb :=
  first_of [
    (λ _ : string, VCreate) <$> strip_prefix "sudo docker create " cmd;
    (λ r, VPs (TrimSuffix r " --all")) <$> strip_prefix PS_ID cmd;
    (λ r, VStatus (TrimSuffix r " --all")) <$> strip_prefix PS_STATUS cmd;
    VInspect <$> strip_prefix "sudo docker inspect --format='{{.State.Status}}' " cmd;
    VStart <$> strip_prefix "sudo docker start  " cmd;
    VStart <$> strip_prefix "sudo docker restart  " cmd;
    VStop <$> strip_prefix "sudo docker stop  " cmd;
    VRm <$> strip_prefix "sudo docker rm  " cmd;
    (λ _ : string, VExec) <$> strip_prefix "sudo docker exec " cmd ].

Definition state_name (running : bool) : string := if running then "running" else "created".
Definition sim_ok (w : Sim) (out : string) : Sim * (string * option exec_error) := (w, (out +:+ bytes [10], None)).
Definition sim_fail (w : Sim) : Sim * (string * option exec_error) := (w, ("", Some (ExecError "exit status 1"))).
Definition sim_do (w : Sim) (v : verb) : Sim * (string * option exec_error) :=
  let box : gmap string bool := sim_box w in
  match v with
  | VCreate => match box !! "c1" with
               | None => sim_ok (with_box w (<["c1" := false]> box)) "c1"
               | Some _ => sim_fail w
               end
  | VPs id => match box !! id with None => (w, ("", None)) | Some _ => sim_ok w "0123456789ab" end
  | VStatus id => match box !! id with
                  | None => (w, ("", None))
                  | Some b => sim_ok w (if b : bool then "Up 2 hours" else "Created")
                  end
  | VInspect id => match box !! id with None => sim_fail w | Some b => sim_ok w (state_name b) end
  | VStart id => match box !! id with None => sim_fail w | Some _ => sim_ok (with_box w (<[id := true]> box)) id end
  | VStop id => match box !! id with None => sim_fail w | Some _ => sim_ok (with_box w (<[id := false]> box)) id end
  | VRm id => match box !! id with
              | Some false => sim_ok (with_box w (delete id box)) id
              | _ => sim_fail w
              end
  | VExec => sim_fail w
  | VOther => (w, ("", None))
  end.

#[export] Instance sim_machine : Machine Sim := {|
  run := λ _ _ cmd w, sim_do w (sim_parse cmd);
  Upload_ := λ _ _ _ w, (w, None); Download_ := λ _ _ _ w, (w, None);
  RandFilename := λ d w, (w, d +:+ "/tmp"); WriteFile := λ _ _ _ w, (w, None); Shell.ReadFile := λ _ _, ("", None);
  os_Remove := λ _ w, w; os_RemoveAll := λ _ w, w;
  ssh_auth := λ _ _, None; ssh_dial := λ _ w, (w, None); ssh_close := λ _ w, w |}.
#[export] Instance sim_world : World Sim := {|
  world_machine := sim_machine;
  db := sim_db; set_db := λ d w, mkSim d (sim_box w) (sim_statuses w) (sim_mem w);
  mem := sim_mem;
  statuses := sim_statuses; set_statuses := λ s w, mkSim (sim_db w) (sim_box w) s (sim_mem w);
  Sleep := λ _ w, w; WriteOutln := λ _ w, w; NewUUID := λ w, (w, "0123456789abcdef"); crash := λ w, w |}.

Lemma sim_do_keeps (w : Sim) v :
  sim_db (sim_do w v).1 = sim_db w ∧ sim_statuses (sim_do w v).1 = sim_statuses w.
Proof. destruct v; simpl; repeat case_match; done. Qed.

#[export] Instance sim_laws : WorldLaws Sim.
Proof.
  refine (Build_WorldLaws _ _ (λ _ w, state_name <$> sim_box w) _ _ _ _ _ _ _ _ _ _ _ _ _ _ _ _ _ _ _ _ _ _);
    intros; try done; apply sim_do_keeps.
Defined.

(** ** The engine on it *)

Definition sim_cfg : DingoCliConfig := newDefault "/home/dingo".
Definition sim_opts : ExecOptions := cli_ExecOptions sim_cfg.
(** The host of the samples, without a become user. *)
Definition sim_ssh : SSHConfig := mkSSHConfig "dingo" "10.0.0.1" 2222 "/home/dingo/.ssh/id_rsa" false "sudo" "-iu" "" 10 3.

Lemma create_tmpl c : sh_tmpl (create_shell c) = TEMPLATE_CREATE_CONTAINER.
Proof.
  assert (∀ o s, sh_tmpl (AddOption o s) = sh_tmpl s) as H1 by done.
  assert (∀ b o s, sh_tmpl (opt_if b o s) = sh_tmpl s) as H2 by (by intros []).
  assert (∀ p v s, sh_tmpl (opt_str p v s) = sh_tmpl s) as H3 by (intros; apply H2).
  assert (∀ p l s, sh_tmpl (opt_each p l s) = sh_tmpl s) as H4.
  { intros p l. unfold opt_each. induction l as [|v l IH]; intros s; simpl; [done|by rewrite IH]. }
  unfold create_shell. repeat (rewrite ?H1, ?H2, ?H3, ?H4; try case_decide); done.
Qed.

Lemma sim_execute s (w : Sim) :
  docker_Execute (Some sim_ssh) s sim_opts w =
    sim_do w (sim_parse ("sudo " +:+ render (sh_tmpl s) (<["engine" := "docker"]> (with_options s)))).
Proof. reflexivity. Qed.

Lemma TrimSuffix_app r suf : TrimSuffix (r +:+ suf) suf = r.
Proof. unfold TrimSuffix. by rewrite (proj2 (strip_suffix_Some (r +:+ suf) suf r)). Qed.

Lemma sim_parse_create m : sim_parse ("sudo " +:+ render TEMPLATE_CREATE_CONTAINER (<["engine" := "docker"]> m)) = VCreate.
Proof.
  assert (render TEMPLATE_CREATE_CONTAINER (<["engine" := "docker"]> m) = "docker create " +:+
    render "{{.options}} {{.image}} {{.command}}" (<["engine" := "docker"]> m)) as ->; [|reflexivity].
  unfold render, TEMPLATE_CREATE_CONTAINER. cbn [render_go String.append]. by rewrite lookup_insert_eq.
Qed.
Lemma sim_parse_ps id :
  sim_parse ("sudo " +:+ render TEMPLATE_LIST_CONTAINERS (<["engine" := "docker"]>
    (with_options (list_shell ID_FORMAT ("id=" +:+ id) false true)))) = VPs id.
Proof.
  assert (render TEMPLATE_LIST_CONTAINERS (<["engine" := "docker"]>
    (with_options (list_shell ID_FORMAT ("id=" +:+ id) false true))) =
    "docker ps --format " +:+ bytes [34] +:+ "{{.ID}}" +:+ bytes [34] +:+ " --filter id=" +:+ (id +:+ " --all") +:+ "") as ->.
  - vm_compute. reflexivity.
  - rewrite app_nil_r_string. transitivity (VPs (TrimSuffix (id +:+ " --all") " --all")); [reflexivity|].
    by rewrite TrimSuffix_app.
Qed.
Lemma sim_parse_inspect id :
  sim_parse ("sudo " +:+ render (sh_tmpl (inspect_shell id INSPECT_STATUS)) (<["engine" := "docker"]>
    (with_options (inspect_shell id INSPECT_STATUS)))) = VInspect id.
Proof.
  assert (render (sh_tmpl (inspect_shell id INSPECT_STATUS)) (<["engine" := "docker"]>
    (with_options (inspect_shell id INSPECT_STATUS))) =
    "docker inspect --format='{{.State.Status}}' " +:+ (id +:+ "")) as ->.
  - vm_compute. reflexivity.
  - rewrite app_nil_r_string. reflexivity.
Qed.
Lemma sim_parse_stop id :
  sim_parse ("sudo " +:+ render TEMPLATE_STOP_CONTAINER (<["engine" := "docker"]>
    (with_options (docker_StopContainer [id] NewShell)))) = VStop id.
Proof.
  assert (render TEMPLATE_STOP_CONTAINER (<["engine" := "docker"]>
    (with_options (docker_StopContainer [id] NewShell))) = "docker stop  " +:+ (id +:+ "")) as ->.
  - vm_compute. reflexivity.
  - rewrite app_nil_r_string. reflexivity.
Qed.

#[export] Instance sim_engine : EngineLaws Sim (Some sim_ssh) sim_opts.
Proof.
  split.
  - intros c w w' out. rewrite sim_execute, create_tmpl, sim_parse_create. simpl.
    destruct (sim_box w !! "c1") as [b|]; [done|]. intros [= <- <-]. split; [split; vm_compute; discriminate|].
    change (last_line _) with "c1". simpl. by rewrite lookup_fmap, lookup_insert_eq.
  - intros id w w' out. rewrite sim_execute. change (sh_tmpl _) with TEMPLATE_LIST_CONTAINERS.
    rewrite sim_parse_ps. simpl. rewrite lookup_fmap.
    destruct (sim_box w !! id) as [b|]; intros [= <- <-]; (split; [done|]); by vm_compute.
  - intros id w w' out. rewrite sim_execute, sim_parse_inspect. simpl. rewrite lookup_fmap.
    destruct (sim_box w !! id) as [b|] eqn:E; [|done]. intros [= <- <-]. rewrite E. by destruct b.
  - intros id w w' out. rewrite sim_execute. change (sh_tmpl _) with TEMPLATE_STOP_CONTAINER.
    rewrite sim_parse_stop. simpl. rewrite lookup_fmap.
    destruct (sim_box w !! id) as [b|]; [|done]. intros [= <- <-]. simpl. by rewrite lookup_insert_eq.
Qed.

(** ** Contracts *)

Section contracts.
Context {W : Type} `{WorldLaws W} `{Driver} `{MapOrder}.
Context (os : OS) (parse_hosts : string → option Hosts_) (md5 : string → string).
Context (cli : DingoCli) (cfg : DingoCliConfig).
Notation serviceId dc := (GetServiceId md5 cli (GetId dc)).

(** C20: Creating the container of a service.  When the task reports success, either the
    database had a container for the service and nothing was changed, or a [docker create]
    of the container that the config describes succeeded, and the database has the id it
    printed for this service and is the same for all others.  When the task reports an
    error the database is as it was. *)
Theorem create_service dc c (w w1 w2 : W) t r :
  db_ok (db w) → dc_ssh os parse_hosts cli cfg dc = Ok c →
  NewCreateContainerTask os parse_hosts md5 cli cfg dc w = (w1, Ok (Some t)) →
  task_Execute task_ssh t w1 = (w2, r) →
  db_ok (db w2) ∧
  match r with
  | None => has_container (recorded w (serviceId dc)) ∧ untouched w w2 ∨
            ¬ has_container (recorded w (serviceId dc)) ∧ ∃ id, created md5 cli cfg (Some c) dc id w w2
  | Some _ => services w2 = services w
  end.
Proof. apply created_run. Qed.

(** C21: Starting or restarting a service.  When the task reports success the container of the
    service is running, unless there was no such container: the task is skipped then and
    nothing has changed.  The database is not written. *)
Theorem start_reaches_running new dc c (w w1 w2 : W) t :
  EngineLaws W (Some c) (cli_ExecOptions cfg) → dc_ssh os parse_hosts cli cfg dc = Ok c →
  new = NewStartServiceTask os parse_hosts md5 cli cfg ∨ new = NewRestartServiceTask os parse_hosts md5 cli cfg →
  db_ok (db w) → new dc w = (w1, Ok (Some t)) → task_Execute task_ssh t w1 = (w2, None) →
  let id := container_id w (serviceId dc) in
  services w2 = services w ∧
  (containers (Some c) w !! id = None ∧ containers (Some c) w2 !! id = None ∨
   containers (Some c) w !! id ≠ None ∧ containers (Some c) w2 !! id = Some "running").
Proof. intros. by eapply started_run. Qed.

(** C6: A deployment creates the container of a service and starts it.  After both tasks have
    reported success on a service without a container, the database has a container for
    the service and that container is running; the other services are as they were. *)
Theorem create_then_start dc c (w w1 w2 w3 w4 : W) t t' :
  EngineLaws W (Some c) (cli_ExecOptions cfg) → dc_ssh os parse_hosts cli cfg dc = Ok c →
  db_ok (db w) → ¬ has_container (recorded w (serviceId dc)) →
  NewCreateContainerTask os parse_hosts md5 cli cfg dc w = (w1, Ok (Some t)) →
  task_Execute task_ssh t w1 = (w2, None) →
  NewStartServiceTask os parse_hosts md5 cli cfg dc w2 = (w3, Ok (Some t')) →
  task_Execute task_ssh t' w3 = (w4, None) →
  has_container (recorded w4 (serviceId dc)) ∧
  containers (Some c) w4 !! recorded w4 (serviceId dc) = Some "running" ∧
  ∀ s, s ≠ serviceId dc → services w4 !! s = services w !! s.
Proof.
  intros HL Hc Hd Hno Hn1 He1 Hn2 He2.
  destruct (created_run os parse_hosts md5 cli cfg dc c w w1 w2 t None Hd Hc Hn1 He1) as [Hd2 [[? _]|[_ [id Hcr]]]];
    [done|].
  destruct (started_run os parse_hosts md5 cli cfg _ dc c w2 w3 w4 t' HL Hc (or_introl eq_refl) Hd2 Hn2 He2)
    as [Hsv Hrun].
  destruct (created_recorded md5 cli cfg (Some c) dc id w w2 HL Hcr) as (Hrec & Hid & Hh & Hcont).
  rewrite Hid in Hrun. destruct Hcr as (n & cc & wa & wb & out & _ & _ & _ & Hs2 & _).
  assert (recorded w4 (serviceId dc) = id) as -> by (unfold recorded in *; by rewrite Hsv).
  split; [done|]. split.
  - destruct Hrun as [[Hn _]|[_ Hr]]; [by rewrite Hn in Hcont|done].
  - intros s Hs. by rewrite Hsv, Hs2, lookup_insert_ne.
Qed.

(** Stopping a service.  When the task reports success the container of the service is not
    running, if the database has one. *)
Theorem stop_stops dc c (w w1 w2 : W) t :
  EngineLaws W (Some c) (cli_ExecOptions cfg) → dc_ssh os parse_hosts cli cfg dc = Ok c → db_ok (db w) →
  NewStopServiceTask os parse_hosts md5 cli cfg dc w = (w1, Ok (Some t)) →
  task_Execute task_ssh t w1 = (w2, None) →
  let id := container_id w (serviceId dc) in
  services w2 = services w ∧ (id = CLEANED_CONTAINER_ID ∨ containers (Some c) w2 !! id ≠ Some "running").
Proof.
  intros HL Hc Hd Hn He id. apply stop_task_inv in Hn as [Hu Ht]; [|done]. fold id in Ht.
  destruct (task_ran os parse_hosts cli cfg dc _ t c w1 w2 None Ht Hc He)
    as [[[e ?] _]|(reg & w3 & w4 & Hu1 & Hs & Hu2)]; [done|].
  pose proof (keeps_steps db (Some c) _ NewRegister w3 (stop_keeps cfg id)) as Hdb.
  rewrite Hs in Hdb. simpl in Hdb. apply untouched_of_db in Hdb as [_ Hsv].
  apply (stop_steps_run cfg (Some c) id) in Hs; [|done].
  destruct Hu as (_ & Hu & _), Hu1 as (_ & Hu1 & _), Hu2 as (_ & Hu2 & Hk2 & _).
  split; [congruence|]. by rewrite Hk2.
Qed.

(** C31: Cleaning a service.  When the task reports success and the containers are among the
    items to clean, the database has forgotten the container, whether or not the engine has
    removed it; the other services are as they were.  When the task reports an error, the
    database is as it was. *)
Theorem clean_forgets dc c only (w w1 w2 : W) t r :
  db_ok (db w) → dc_ssh os parse_hosts cli cfg dc = Ok c →
  mem w !! KEY_CLEAN_ITEMS = Some (OStrings only) →
  NewCleanServiceTask os parse_hosts md5 cli cfg dc w = (w1, Ok (Some t)) →
  task_Execute task_ssh t w1 = (w2, r) →
  services w2 =
    match r with
    | None => if in_map (Slice2Map only) CLEAN_ITEM_CONTAINER
              then alter (λ p, (p.1, CLEANED_CONTAINER_ID)) (serviceId dc) (services w) else services w
    | Some _ => services w
    end.
Proof.
  intros Hd Hc Hm Hn He. apply (clean_task_inv _ _ _ _ _ _ only) in Hn as [Hu (files & Hid & _ & Ht)]; [|done..].
  destruct (task_ran os parse_hosts cli cfg dc _ t c w1 w2 r Ht Hc He)
    as [[[e ->] Hu1]|(reg & w3 & w4 & Hu1 & Hs & Hu2)].
  - destruct Hu as (_ & Hu & _), Hu1 as (_ & Hu1 & _). congruence.
  - apply clean_run in Hs; [|by apply Hu1, Hu|done].
    destruct Hu as (_ & Hu & _), Hu1 as (_ & Hu1 & _), Hu2 as (_ & Hu2 & _).
    rewrite Hu2. destruct r; [congruence|]. by rewrite Hs, Hu1, Hu.
Qed.

(** C32: Asking for the status of a service whose log, data and other directories and
    address can be read from its configuration, and whose host is among the hosts.  When the
    task reports success the status of the service, under its own id, is [Cleaned] if the database has no container for it,
    [Losed] if the engine does not list the container of the database, and otherwise what
    the engine says of that container; ports and a leader are only looked for when it is
    up, a leader only for an mds; the other statuses are as they were.  When it reports an
    error, no status has changed: there was no connection or the engine could not list the
    containers. *)
Theorem status_of_service dc c (w w1 w2 : W) t r s u :
  db_ok (db w) → dc_ssh os parse_hosts cli cfg dc = Ok c →
  let sid := serviceId dc in
  let id := container_id w sid in
  service_status dc sid id "" false SERVICE_STATUS_UNKNOWN = Ok s → leader_url dc = Ok u →
  NewGetServiceStatusTask os parse_hosts md5 cli cfg dc w = (w1, Ok (Some t)) →
  task_Execute task_ssh t w1 = (w2, r) →
  let listed wa out x := untouched w wa ∧ ∃ wl,
    docker_Execute (Some c) (list_shell STATUS_FORMAT ("id=" +:+ id) false true) (cli_ExecOptions cfg) wa
      = (wl, (out, x)) in
  match r with
  | None => ∃ wa out ports leader, listed wa out None ∧
      let status := last_line (TrimNewlines out) in
      let shown := if decide (has_container (recorded w sid))
                   then (if decide (status = "") then "Losed" else status) else "Cleaned" in
      statuses w2 = <[sid := found_status s ports leader shown]> (statuses w) ∧
      (HasPrefix status "Up" = true ∨ ports = "" ∧ leader = false) ∧
      (GetRole dc = ROLE_FS_MDS ∨ leader = false)
  | Some _ => statuses w2 = statuses w ∧ (untouched w w2 ∨ ∃ wa out x, listed wa out (Some x))
  end.
Proof.
  intros Hd Hc sid id Hs Hu Hn He listed.
  apply container_task_inv in Hn as [Hu0 (l & [= <-] & Ht)]; [|done].
  destruct (task_ran os parse_hosts cli cfg dc _ t c w1 w2 r Ht Hc He)
    as [[[e ->] Hu1]|(reg & w3 & w4 & Hu1 & Hx & Hu2)].
  { assert (untouched w w2) as Hw by by transitivity w1. split; [apply Hw|by left]. }
  assert (untouched w w3) as Hw3 by by transitivity w1.
  assert (statuses w2 = statuses w4) as -> by apply Hu2.
  assert (statuses w3 = statuses w) as Hs3 by apply Hw3.
  destruct (status_run cfg dc sid id (Some c) w3 w4 reg r s u Hs Hu Hx) as (out & x & wl & Hl & Hr).
  destruct x as [x|].
  - destruct Hr as [[e ->] Hr]. split; [congruence|]. right. exists w3, out, x. split; [done|]. by exists wl.
  - destruct Hr as [-> (ports & leader & Hr & Hup & Hlead)]. exists w3, out, ports, leader.
    split; [split; [done|]; by exists wl|]. cbv zeta. rewrite Hr, Hs3. split_and!; [|done..].
    unfold format_status. pose proof (container_id_cleaned w sid) as Hiff. fold id in Hiff.
    destruct (decide (id = CLEANED_CONTAINER_ID)) as [Hid|Hid].
    + by rewrite (decide_False _ _ (proj1 Hiff Hid)).
    + destruct (decide (has_container (recorded w sid))) as [|Hno]; [done|].
      by destruct (Hid (proj2 Hiff Hno)).
Qed.

(** A script that runs inside a container for the health of the stores or the options of
    the executors: the task reports success whatever the script returns, as soon as the
    engine lists the containers. *)
Theorem scripts_never_fail new dc c (w w1 wl : W) t wa out :
  new = NewCheckStoreHealthTask os parse_hosts md5 cli cfg ∨ new = NewSyncJavaOptsTask os parse_hosts md5 cli cfg →
  db_ok (db w) → new dc w = (w1, Ok (Some t)) →
  docker_Execute (Some c) (list_shell ID_FORMAT ("id=" +:+ container_id w (serviceId dc)) false true)
    (cli_ExecOptions cfg) wa = (wl, (out, None)) →
  (execute_steps (Some c) (steps t) NewRegister wa).2 = None.
Proof.
  intros Hnew Hd Hn Hx.
  assert (∃ cmd, steps t = exist_steps cfg (container_id w (serviceId dc)) ++
    [ContainerExec (container_id w (serviceId dc)) cmd (Some "success") (Some "out") (cli_ExecOptions cfg)]) as [cmd ->].
  { destruct Hnew as [-> | ->]; apply container_task_inv in Hn as [_ (l & Hl & [-> _])]; try done;
      apply bind_Ok in Hl as (layout & _ & [= <-]); eauto. }
  unfold exist_steps. cbn [app execute_steps]. unfold list_container, ListContainers, docker_step. rewrite Hx. simpl.
  rewrite str_var_set. case_decide; simpl; [done|]. unfold ContainerExec, docker_step.
  destruct (docker_Execute _ _ _ wl) as [w2 [out2 x2]]. by destruct x2 as [[]|].
Qed.
End contracts.

(** ** Witnesses *)

Definition sim_dc : DeployConfig := default zero_dc (sample_dcs (store_topology "h1" "h2" "" 1 2) !! 1).
Definition sim_parse_hosts (_ : string) : option Hosts_ := Some sample_hosts.
Definition sim_id : string := GetServiceId (λ s, s) sample_cli (GetId sim_dc).
#[local] Existing Instance sample_driver.
#[local] Existing Instance canonical_order.

(** A constructor on the service, with the result of the constructor and of its task. *)
Notation SimTask := (Tasks.Task Sim SSHConfig SSHConfig).
Definition is_made (p : Sim * res error (option SimTask)) : bool :=
  match p.2 with Ok (Some _) => true | _ => false end.
Definition made (p : Sim * res error (option SimTask)) : SimTask :=
  match p.2 with Ok (Some t) => t | _ => NewTask "" "" "" None end.
Definition ran (p : Sim * res error (option SimTask)) : Sim * option terror := task_Execute task_ssh (made p) p.1.

Lemma made_eq p : is_made p = true → p = (p.1, Ok (Some (made p))).
Proof. by destruct p as [w [[t|]|e|]]. Qed.
Definition is_ok (p : Sim * option terror) : bool := match p.2 with None => true | Some _ => false end.
Lemma ran_eq p w' : w' = (ran p).1 → is_ok (ran p) = true → task_Execute task_ssh (made p) p.1 = (w', None).
Proof. unfold ran, is_ok. intros ->. by destruct (task_Execute _ _ _) as [w [e|]]. Qed.

Definition sim_create : Sim → Sim * res error (option SimTask) :=
  NewCreateContainerTask sample_os sim_parse_hosts (λ s, s) sample_cli sim_cfg sim_dc.
Definition sim_start : Sim → Sim * res error (option SimTask) :=
  NewStartServiceTask sample_os sim_parse_hosts (λ s, s) sample_cli sim_cfg sim_dc.
Definition sim_stop : Sim → Sim * res error (option SimTask) :=
  NewStopServiceTask sample_os sim_parse_hosts (λ s, s) sample_cli sim_cfg sim_dc.
Definition sim_clean : Sim → Sim * res error (option SimTask) :=
  NewCleanServiceTask sample_os sim_parse_hosts (λ s, s) sample_cli sim_cfg sim_dc.
Definition sim_health : Sim → Sim * res error (option SimTask) :=
  NewCheckStoreHealthTask sample_os sim_parse_hosts (λ s, s) sample_cli sim_cfg sim_dc.

(** Nothing yet; the container created; started; stopped. *)
Definition sim_empty : Sim := mkSim sample_db ∅ ∅ {[KEY_CLEAN_ITEMS := OStrings [CLEAN_ITEM_CONTAINER]]}.
Definition sim_created : Sim := (ran (sim_create sim_empty)).1.
Definition sim_started : Sim := (ran (sim_start sim_created)).1.
Definition sim_stopped : Sim := (ran (sim_stop sim_started)).1.

Lemma sim_dc_ssh : dc_ssh sample_os sim_parse_hosts sample_cli sim_cfg sim_dc = Ok sim_ssh.
Proof. vm_compute. reflexivity. Qed.
Lemma sim_no_container : ¬ has_container (recorded sim_empty sim_id).
Proof. intros [_ H]. apply H. vm_compute. reflexivity. Qed.

Lemma create_service_witness :
  recorded sim_created sim_id = "c1" ∧ sim_box sim_created = {["c1" := false]} ∧
  ∃ id, created (λ s, s) sample_cli sim_cfg (Some sim_ssh) sim_dc id sim_empty sim_created.
Proof.
  split; [vm_compute; reflexivity|]. split; [vm_compute; reflexivity|].
  destruct (create_service sample_os sim_parse_hosts (λ s, s) sample_cli sim_cfg sim_dc sim_ssh sim_empty
    (sim_create sim_empty).1 sim_created (made (sim_create sim_empty)) None) as [_ [[Hh _]|[_ Hc]]].
  - apply sample_db_ok.
  - exact sim_dc_ssh.
  - apply made_eq. vm_compute. reflexivity.
  - apply ran_eq; [unfold sim_created; reflexivity|vm_compute; reflexivity].
  - destruct (sim_no_container Hh).
  - exact Hc.
Defined.

Lemma db_ok_ticks (d d' : DB) : tick d = mkDB (t_version d') (t_hosts d') (t_clusters d') (t_containers d')
  (t_clients d') (t_playgrounds d') (t_audit d') (t_any d') (t_monitors d') (S (ticks d)) → db_ok d → db_ok d'.
Proof. destruct d, d'. simpl. intros [= -> -> -> -> -> -> -> -> ->] Hd. exact Hd. Qed.

Lemma sim_created_ok : db_ok (db sim_created).
Proof.
  apply (created_run sample_os sim_parse_hosts (λ s, s) sample_cli sim_cfg sim_dc sim_ssh sim_empty
    (sim_create sim_empty).1 sim_created (made (sim_create sim_empty)) None).
  - apply sample_db_ok.
  - exact sim_dc_ssh.
  - apply made_eq. vm_compute. reflexivity.
  - apply ran_eq; [unfold sim_created; reflexivity|vm_compute; reflexivity].
Qed.
Lemma sim_started_ok : db_ok (db sim_started).
Proof. apply (db_ok_ticks (db sim_created)); [vm_compute; reflexivity|exact sim_created_ok]. Qed.

Lemma start_reaches_running_witness :
  sim_box sim_started !! "c1" = Some true ∧ services sim_started = services sim_created ∧
  containers (Some sim_ssh) sim_started !! container_id sim_created sim_id = Some "running".
Proof.
  split; [vm_compute; reflexivity|].
  destruct (start_reaches_running sample_os sim_parse_hosts (λ s, s) sample_cli sim_cfg _ sim_dc sim_ssh sim_created
    (sim_start sim_created).1 sim_started (made (sim_start sim_created)) sim_engine sim_dc_ssh (or_introl eq_refl))
    as [Hs Hr].
  - exact sim_created_ok.
  - apply made_eq. vm_compute. reflexivity.
  - apply ran_eq; [unfold sim_started; reflexivity|vm_compute; reflexivity].
  - split; [exact Hs|]. destruct Hr as [[Hn _]|[_ Hr]]; [exfalso; vm_compute in Hn; discriminate Hn|exact Hr].
Defined.

Lemma create_then_start_witness :
  recorded sim_started sim_id = "c1" ∧ has_container (recorded sim_started sim_id) ∧
  containers (Some sim_ssh) sim_started !! recorded sim_started sim_id = Some "running".
Proof.
  split; [vm_compute; reflexivity|].
  destruct (create_then_start sample_os sim_parse_hosts (λ s, s) sample_cli sim_cfg sim_dc sim_ssh sim_empty
    (sim_create sim_empty).1 sim_created (sim_start sim_created).1 sim_started (made (sim_create sim_empty))
    (made (sim_start sim_created)) sim_engine sim_dc_ssh) as (Hh & Hr & _).
  - apply sample_db_ok.
  - exact sim_no_container.
  - apply made_eq. vm_compute. reflexivity.
  - apply ran_eq; [unfold sim_created; reflexivity|vm_compute; reflexivity].
  - apply made_eq. vm_compute. reflexivity.
  - apply ran_eq; [unfold sim_started; reflexivity|vm_compute; reflexivity].
  - split; [exact Hh|exact Hr].
Defined.

Lemma stop_stops_witness :
  container_id sim_started sim_id = "c1" ∧ containers (Some sim_ssh) sim_stopped !! "c1" = Some "created" ∧
  (container_id sim_started sim_id = CLEANED_CONTAINER_ID ∨
   containers (Some sim_ssh) sim_stopped !! container_id sim_started sim_id ≠ Some "running").
Proof.
  split; [vm_compute; reflexivity|]. split; [vm_compute; reflexivity|].
  refine (proj2 (stop_stops sample_os sim_parse_hosts (λ s, s) sample_cli sim_cfg sim_dc sim_ssh sim_started
    (sim_stop sim_started).1 sim_stopped (made (sim_stop sim_started)) sim_engine sim_dc_ssh sim_started_ok _ _)).
  - apply made_eq. vm_compute. reflexivity.
  - apply ran_eq; [unfold sim_stopped; reflexivity|vm_compute; reflexivity].
Defined.

(** The container runs and cannot be removed: it is forgotten all the same. *)
Definition sim_cleaned : Sim := (ran (sim_clean sim_started)).1.
Lemma clean_forgets_witness :
  sim_box sim_cleaned = {["c1" := true]} ∧ recorded sim_cleaned sim_id = CLEANED_CONTAINER_ID ∧
  services sim_cleaned = alter (λ p, (p.1, CLEANED_CONTAINER_ID)) sim_id (services sim_started).
Proof.
  split; [vm_compute; reflexivity|]. split; [vm_compute; reflexivity|].
  refine (clean_forgets sample_os sim_parse_hosts (λ s, s) sample_cli sim_cfg sim_dc sim_ssh [CLEAN_ITEM_CONTAINER]
    sim_started (sim_clean sim_started).1 sim_cleaned (made (sim_clean sim_started)) None sim_started_ok sim_dc_ssh _ _ _).
  - vm_compute. reflexivity.
  - apply made_eq. vm_compute. reflexivity.
  - apply ran_eq; [unfold sim_cleaned; reflexivity|vm_compute; reflexivity].
Defined.

(** The script cannot run: the task reports success. *)
Lemma scripts_never_fail_witness :
  (docker_Execute (Some sim_ssh) (docker_ContainerExec "c1" "bash" NewShell) sim_opts sim_started).2.2 ≠ None ∧
  (execute_steps (Some sim_ssh) (steps (made (sim_health sim_started))) NewRegister sim_started).2 = None.
Proof.
  split; [vm_compute; discriminate|].
  refine (scripts_never_fail sample_os sim_parse_hosts (λ s, s) sample_cli sim_cfg _ sim_dc sim_ssh sim_started
    (sim_health sim_started).1 sim_started (made (sim_health sim_started)) sim_started ("0123456789ab" +:+ bytes [10]) (or_introl eq_refl)
    sim_started_ok _ _).
  - apply made_eq. vm_compute. reflexivity.
  - rewrite sim_execute. vm_compute. reflexivity.
Defined.

Definition sim_found : ServiceStatus :=
  res_get (mkServiceStatus "" "" "" "" "" "" "" false "" "" "" "" "" "" sim_dc)
    (service_status sim_dc sim_id "c1" "" false SERVICE_STATUS_UNKNOWN).
Definition sim_get_status : Sim → Sim * res error (option SimTask) :=
  NewGetServiceStatusTask sample_os sim_parse_hosts (λ s, s) sample_cli sim_cfg sim_dc.
Definition sim_asked : Sim := (ran (sim_get_status sim_started)).1.

Lemma status_of_service_witness :
  ss_Status <$> (statuses sim_asked !! sim_id) = Some "Up 2 hours" ∧
  ∃ out ports leader, let status := last_line (TrimNewlines out) in
    statuses sim_asked = <[sim_id := found_status sim_found ports leader
      (if decide (has_container (recorded sim_started sim_id))
       then (if decide (status = "") then "Losed" else status) else "Cleaned")]> (statuses sim_started).
Proof.
  split; [vm_compute; reflexivity|].
  destruct (status_of_service sample_os sim_parse_hosts (λ s, s) sample_cli sim_cfg sim_dc sim_ssh sim_started
    (sim_get_status sim_started).1 sim_asked (made (sim_get_status sim_started)) None sim_found
    "http://10.0.0.1:0/vars/dingofs_mds_status?console=1" sim_started_ok sim_dc_ssh)
    as (wa & out & ports & leader & _ & Hs & _).
  - vm_compute. reflexivity.
  - vm_compute. reflexivity.
  - apply made_eq. vm_compute. reflexivity.
  - apply ran_eq; [unfold sim_asked; reflexivity|vm_compute; reflexivity].
  - exists out, ports, leader. exact Hs.
Defined.

(** ** Two samples of the container of a service *)

(** A store without a raft directory gets a volume without a path on the host. *)
Example store_without_raft_dir :
  GetDingoRaftDir sim_dc = Ok "" ∧
  (λ c, filter (λ v, HostPath v = "") (cc_Volumes c)) <$> service_container sim_dc sim_id =
    Ok [mkVolume "" "/opt/dingo-store/dist/store1/data/raft"].
Proof. split; vm_compute; reflexivity. Qed.

(** A service of a dingo-store cluster gets the variables of a store twice. *)
Example store_variables_twice :
  (λ c, length (filter (λ e, e = "FLAGS_role=store") (cc_Envs c))) <$> service_container sim_dc sim_id = Ok 2.
Proof. vm_compute. reflexivity. Qed.
