(* ===== verification/ConfigSync.v ===== *)
(** Writing the configuration files of a service (src/internal/task/step/file.go: Filter,
    SyncFile, TrySyncFile; src/internal/task/task/common/sync_config.go).

    A file is read from the container, each of its lines is split into a key and a value,
    the value is replaced by the one of the topology and its variables are rendered, and
    the file is installed again. *)

From S2P Require Import Prelude Errno GoLib Utils Storage CliConfig Hosts Cli Tasks Playbook Deploy ServiceCmd Shell Steps Vars DeployConfig Topology ServiceEnv Services.
From Stdlib Require Import Ascii.

Definition TOOLS_V2_CONFIG_DELIMITER : string := ": ".
Definition STORE_GFLAGS_PREFIX : string := "-".
Definition MDSV2_CONFIG_PREFIX : string := "--".
Definition KEY_ENV_MDS_ADDR : string := "cluster_mds_addr".
Definition CONFIG_DELIMITER_ASSIGN : string := "=".
Definition CONFIG_DELIMITER_COLON : string := ": ".
Definition DINGOCLI_KEY_MDS_ADDR : string := "mdsaddr".

(** ** Lines *)

(** [bufio.Scanner]: lines without their end, no last empty line; it stops at a line that
    does not fit its buffer of 64 KiB. *)
Definition MaxLine : nat := 65535.
Fixpoint dropCR (s : string) : string :=
  match s with
  | "" => ""
  | String a s' => if bool_decide (s' = "" ∧ a = byte 13) then "" else String a (dropCR s')
  end.
Fixpoint drop_last_empty (l : list string) : list string :=
  match l with
  | [] => []
  | [s] => if decide (s = "") then [] else [s]
  | s :: l => s :: drop_last_empty l
  end.
Fixpoint take_fitting (l : list string) : list string :=
  match l with
  | [] => []
  | s :: l => if decide (String.length s ≤ MaxLine) then dropCR s :: take_fitting l else []
  end.
Definition scan_lines (text : string) : list string := take_fitting (drop_last_empty (Split text (byte 10))).

(** ** Keys and values *)

Fixpoint span (p : ascii → bool) (s : string) : string * string :=
  match s with
  | "" => ("", "")
  | String a s' => if p a then let '(t, r) := span p s' in (String a t, r) else ("", s)
  end.
Fixpoint chars (s : string) : list ascii :=
  match s with "" => [] | String a s => a :: chars s end.
(** The class [\s]. *)
Definition re_space (a : ascii) : bool := bool_decide (a ∈ [byte 9; byte 10; byte 12; byte 13; byte 32]).

(** [REGEX_KV_SPLIT]: a text without the characters of the separator, the separator, blanks,
    and the text up to the next blank or [#]. *)
Definition kv_plain (sep line : string) : string * string :=
  let '(k, rest) := span (λ a, negb (bool_decide (a ∈ chars sep))) line in
  match strip_prefix sep rest with
  | Some v => if decide (k = "") then ("", "") else
              (k, (span (λ a, negb (re_space a) && negb (bool_decide (a = "#"%char))) (span re_space v).2).1)
  | None => ("", "")
  end.
(** [DINGO_REGEX_KV_SPLIT]: blanks and a text without colon and space, colon and space,
    blanks, and the text up to the next [#]. *)
Fixpoint colon_key (k : string) : bool :=
  match k with
  | "" => false
  | String a k' => negb (bool_decide (" "%char ∈ chars k)) || (re_space a && colon_key k')
  end.
Definition kv_colon (line : string) : string * string :=
  let '(k, rest) := span (λ a, negb (bool_decide (a = ":"%char))) line in
  match strip_prefix ": " rest with
  | Some v => if colon_key k then (k, (span (λ a, negb (bool_decide (a = "#"%char))) (span re_space v).2).1)
              else ("", "")
  | None => ("", "")
  end.
Definition kvSplit (sep line : string) : string * string :=
  if decide (sep = TOOLS_V2_CONFIG_DELIMITER) then kv_colon line else kv_plain sep line.

(** ** Filter *)

Definition Mutate : Type := string → string → string → res error string.

Section filter.
Context `{MapOrder}.

Definition split_line (sep line : string) : string * string :=
  if decide (sep = "") then ("", "") else kvSplit sep line.

(** The keys of the topology that the file has not; [Contains] trims both sides. *)
Definition extra_keys (service : gmap string string) (origin : list string) : list string :=
  filter (λ k, HasPrefix k "mds_" = true ∧ Contains origin (MDSV2_CONFIG_PREFIX +:+ k) = false)
    (range service).*1.
Definition extra_lines (sep : string) (service : gmap string string) (extra : list string) : list string :=
  match extra with
  | [] => []
  | _ => "# dynamic config from topology" ::
         ((λ k, MDSV2_CONFIG_PREFIX +:+ k +:+ sep +:+ default "" (service !! k))
          <$> filter (λ k, default "" (service !! k) ≠ "") extra)
  end.
Definition mutate_lines (sep : string) (mutate : Mutate) (lines : list string) : res error (list string) :=
  fold_res (λ out line,
    let '(key, value) := split_line sep line in
    o ← mutate line key value; Ok (out ++ [o])) lines [].
Definition filter_lines (sep : string) (mutate : Mutate) (service : gmap string string) (input : string)
    : res error (list string) :=
  let lines := scan_lines input in
  output ← mutate_lines sep mutate lines;
  Ok (output ++ extra_lines sep service (extra_keys service ((λ line, (split_line sep line).1) <$> lines))).
Definition Filter_ (sep : string) (mutate : Mutate) (service : gmap string string) (input : string)
    : res error string :=
  output ← filter_lines sep mutate service input; Ok (Join output newline).

(** ** NewMutate *)

Definition mute_key (dc : DeployConfig) (key : string) : string :=
  if decide (GetRole dc = ROLE_COORDINATOR ∨ GetRole dc = ROLE_STORE) then
    if HasPrefix key STORE_GFLAGS_PREFIX then "gflags." +:+ TrimPrefix key STORE_GFLAGS_PREFIX else TrimSpace key
  else if decide (GetRole dc = ROLE_FS_MDS) then
    if HasPrefix key MDSV2_CONFIG_PREFIX then TrimPrefix key MDSV2_CONFIG_PREFIX else TrimSpace key
  else TrimSpace key.
Definition NewMutate (dc : DeployConfig) (delimiter : string) (forceRender : bool) : Mutate :=
  λ line key value,
  if decide (key = "") then
    if forceRender then vars ← vars_of dc; Rendering vars line else Ok line
  else
    let muteKey := mute_key dc key in
    let value := default value (GetServiceConfig dc !! ToLower muteKey) in
    vars ← vars_of dc;
    value ← (if decide (muteKey = DINGOCLI_KEY_MDS_ADDR) then Get vars KEY_ENV_MDS_ADDR
             else Rendering vars value);
    Ok (key +:+ delimiter +:+ value).

Definition newCrontab (uuid : string) (dc : DeployConfig) (reportScriptPath : string) : res error string :=
  report ← GetReportUsage dc;
  Ok (if report : bool then
        "0 * * * * bash " +:+ reportScriptPath +:+ " " +:+ GetKind dc +:+ " " +:+ uuid +:+ " " +:+ GetRole dc +:+ newline
      else " " +:+ newline).

(** [fmt] prints a value that is not a text under [%s] as [fmt_s] says. *)
Definition fmt_string (fmt_s : val → string) (v : val) : string :=
  match v with VString s => s | v => fmt_s v end.
Definition syncJavaOpts (fmt_s : val → string) (java_opts : gmap string val)
    (hostSyncJavaOptsScriptPath hostStartExecutorPath : string) : string :=
  if decide (java_opts = ∅) then "" else
  foldl (λ c '(k, v), c +:+ k +:+ "=" +:+ fmt_string fmt_s v +:+ " ") "" (range java_opts) +:+
    " bash " +:+ hostSyncJavaOptsScriptPath +:+ " " +:+ hostStartExecutorPath.
End filter.

(** ** Steps *)

Section sync.
Context {W : Type} `{World W} `{Driver} `{MapOrder}.
Notation Step := (Tasks.Step (W := W) (Client := SSHConfig)).
Notation Task := (Tasks.Task W SSHConfig SSHConfig).
Notation Eff := (eff error W).

(** The variables [input] and [output] are local to a [SyncFile]. *)
Definition Filter_step (sep : string) (mutate : Mutate) (service : gmap string string) : Step := λ _ reg w,
  match Filter_ sep mutate service (str_var reg "input") with
  | Ok out => (set_str "output" out reg, w, None)
  | Err e => (reg, w, Some (EOther e))
  | Panic => (reg, crash w, None)
  end.
Definition SyncFile (ContainerSrcId ContainerSrcPath ContainerDestId ContainerDestPath KVFieldSplit : string)
    (mutate : Mutate) (service : gmap string string) (o : ExecOptions) : Step :=
  each_step [ReadFile_ "" ContainerSrcId ContainerSrcPath "input" o;
             Filter_step KVFieldSplit mutate service;
             InstallFile (λ reg, str_var reg "output") "" (λ _, ContainerDestId) ContainerDestPath o].
Definition TrySyncFile (ContainerSrcId ContainerSrcPath ContainerDestId ContainerDestPath KVFieldSplit : string)
    (mutate : Mutate) (o : ExecOptions) : Step := λ cl reg w,
  match ReadFile_ "" ContainerSrcId ContainerSrcPath "input" o cl reg w with
  | (reg, w, Some _) => (reg, w, None)
  | (reg, w, None) =>
      SyncFile ContainerSrcId ContainerSrcPath ContainerDestId ContainerDestPath KVFieldSplit mutate ∅ o cl reg w
  end.

(** ** The task *)

(** The embedded scripts; the directory of temporary files of the tool. *)
Context (CHECK_STORE_HEALTH_script CREATE_MDS_TABLES SYNC_JAVA_OPTS_script : string) (TempDir : string).
Context (fmt_s : val → string).
Context (os : OS) (parse_hosts : string → option Hosts_) (md5 : string → string).
Context (cli : DingoCli) (cfg : DingoCliConfig).
Notation o := (cli_ExecOptions cfg).

Definition delimiter_of (dc : DeployConfig) : string :=
  if decide (GetRole dc ∈ [ROLE_ETCD; ROLE_DINGODB_EXECUTOR; ROLE_DINGODB_WEB; ROLE_DINGODB_PROXY])
  then CONFIG_DELIMITER_COLON else CONFIG_DELIMITER_ASSIGN.
Definition sync_conf (dc : DeployConfig) (containerId : string) (conf : ConfFile) : Step :=
  SyncFile containerId (SourcePath conf) containerId (TargetPath conf) (delimiter_of dc)
    (NewMutate dc (delimiter_of dc) (bool_decide (cf_Name conf = "nginx.conf"))) (GetServiceConfig dc) o.
Definition install_script (script containerId path : string) : Step :=
  InstallFile (λ _, script) "" (λ _, containerId) path o.
Definition java_steps (containerId binDir : string) (java_opts : gmap string val) : list Step :=
  let hostScript := TempDir +:+ "/" +:+ SCRIPT_SYNC_JAVA_OPTS in
  let hostStart := TempDir +:+ "/" +:+ SCRIPT_START_EXECUTOR in
  let start := binDir +:+ "/" +:+ SCRIPT_START_EXECUTOR in
  [InstallFile (λ _, SYNC_JAVA_OPTS_script) hostScript (λ _, "") "" o;
   CopyFromContainer containerId start hostStart false None o;
   Command_ (syncJavaOpts fmt_s java_opts hostScript hostStart) None (Some "out") o;
   CopyIntoContainer hostStart containerId start None o].

(** What follows the files of the service. *)
Definition role_steps (dc : DeployConfig) (layout : Layout) (containerId : string) : res error (list Step) :=
  let r := GetRole dc in
  if decide (r ∈ [ROLE_DINGODB_DOCUMENT; ROLE_DINGODB_DISKANN; ROLE_DINGODB_INDEX; ROLE_DINGODB_PROXY; ROLE_DINGODB_WEB])
  then Ok []
  else if decide (r = ROLE_COORDINATOR ∨ r = ROLE_STORE) then
    Ok [install_script CHECK_STORE_HEALTH_script containerId
          (DingoStoreScriptDir layout +:+ "/" +:+ SCRIPT_CHECK_STORE_HEALTH)]
  else if decide (r = ROLE_FS_MDS_CLI) then
    Ok [install_script CREATE_MDS_TABLES containerId (FSMdsCliBinDir layout +:+ "/" +:+ SCRIPT_CREATE_MDSV2_TABLES)]
  else if decide (r = ROLE_DINGODB_EXECUTOR) then
    java_opts ← GetDingoExecutorJavaOpts dc;
    Ok (if decide (java_opts = ∅) then [] else java_steps containerId (DingoExecutorBinDir layout) java_opts)
  else Ok [CreateAndUploadDir ".dingo" containerId (FSToolsConfUserDir layout) o;
           TrySyncFile containerId (FSToolsConfSrcPath layout) containerId (FSToolsConfSystemPath layout)
             CONFIG_DELIMITER_COLON (NewMutate dc CONFIG_DELIMITER_COLON false) o].
Definition sync_steps (dc : DeployConfig) (containerId : string) : res error (list Step) :=
  layout ← dc_GetProjectLayout dc;
  l ← (if decide (GetKind dc ∈ [KIND_DINGOFS; KIND_DINGODB; KIND_DINGOSTORE]) then
         l ← role_steps dc layout containerId;
         Ok ((sync_conf dc containerId <$> ServiceConfFiles layout) ++ l)
       else Ok []);
  Ok (exist_steps cfg containerId ++ l).
Definition NewSyncConfigTask (dc : DeployConfig) : Eff (option Task) :=
  skip ← skip_mds_cli dc;
  if skip : bool then mret None else
  container_task os parse_hosts md5 cli cfg "Sync Config" dc (sync_steps dc).
End sync.
