(* ===== verification/ConfigSyncFacts.v ===== *)
(** What the files of a service look like after they are written: every line of the file is
    there in its order, a line without a key as it is, a line with a key with the value of
    the topology; the options of the mds that the topology sets and the file has not are
    added.  Lines are printed as they are parsed. *)

From S2P Require Import Prelude Errno GoLib Utils Storage CliConfig Hosts Cli Tasks Playbook Deploy ServiceCmd Shell Steps Vars DeployConfig Topology TopologySamples ServiceEnv Services ConfigSync.
From Stdlib Require Import Ascii.

(** ** Scanning a text *)

Definition all_chars (p : ascii → bool) (s : string) : Prop := Forall (λ a, p a = true) (chars s).

Lemma span_app p s t : all_chars p s → (∀ a t', t = String a t' → p a = false) → span p (s +:+ t) = (s, t).
Proof.
  induction s as [|a s IH]; simpl; intros Hs Ht.
  - destruct t as [|a t]; [done|]. simpl. by rewrite (Ht a t).
  - apply Forall_cons in Hs as [Ha Hs]. rewrite Ha. by rewrite (IH Hs Ht).
Qed.

Lemma span_spec p s k r : span p s = (k, r) →
  s = k +:+ r ∧ all_chars p k ∧ ∀ a r', r = String a r' → p a = false.
Proof.
  revert k r; induction s as [|a s IH]; intros k r; simpl.
  - intros [= <- <-]. split_and!; [done|constructor|done].
  - destruct (p a) eqn:Ha.
    + destruct (span p s) as [k1 r1]. intros [= <- <-]. destruct (IH k1 r1 eq_refl) as (-> & Hk & Hr).
      split_and!; [done|by constructor|done].
    + intros [= <- <-]. split_and!; [done|constructor|]. by intros b r' [= <- <-].
Qed.

Lemma span_all p s : all_chars p s → span p s = (s, "").
Proof. intros Hs. rewrite <-(app_nil_r_string s) at 1. by apply span_app. Qed.

(** A text whose first character is not a blank. *)
Definition no_blank_first (s : string) : Prop := ∀ a t, s = String a t → re_space a = false.

Lemma span_blanks s : no_blank_first s → span re_space s = ("", s).
Proof. intros Hs. rewrite <-(span_app re_space "" s) by (constructor || done). done. Qed.

(** ** Splitting what was printed *)

Lemma strip_prefix_app p s : strip_prefix p (p +:+ s) = Some s.
Proof. by apply strip_prefix_Some. Qed.

(** A line printed with [=]: the key has no [=], the value no blank and no [#]. *)
Lemma kv_plain_print key value :
  key ≠ "" → all_chars (λ a, negb (bool_decide (a = "="%char))) key →
  all_chars (λ a, negb (re_space a) && negb (bool_decide (a = "#"%char))) value →
  kvSplit "=" (key +:+ "=" +:+ value) = (key, value).
Proof.
  intros Hne Hk Hv. unfold kvSplit. rewrite decide_False by done. unfold kv_plain.
  rewrite span_app; [|eapply Forall_impl; [exact Hk|]|by intros a t [= <- _]].
  2: { simpl. intros a Ha. rewrite bool_decide_false; [done|]. apply not_elem_of_cons.
       apply negb_true_iff, bool_decide_eq_false in Ha. split; [done|apply not_elem_of_nil]. }
  rewrite strip_prefix_app, decide_False by done. rewrite span_blanks.
  - simpl. by rewrite span_all.
  - intros a t ->. apply Forall_cons in Hv as [Ha _]. by apply andb_true_iff in Ha as [Ha%negb_true_iff _].
Qed.

(** A line printed with a colon: the value has no [#] and does not start with a blank. *)
Lemma kv_colon_print key value :
  colon_key key = true → all_chars (λ a, negb (bool_decide (a = ":"%char))) key →
  all_chars (λ a, negb (bool_decide (a = "#"%char))) value → no_blank_first value →
  kvSplit ": " (key +:+ ": " +:+ value) = (key, value).
Proof.
  intros Hk Hc Hv Hb. unfold kvSplit. rewrite decide_True by done. unfold kv_colon.
  rewrite span_app; [|done|by intros a t [= <- _]].
  rewrite strip_prefix_app, Hk, span_blanks by done. simpl. by rewrite span_all.
Qed.

(** ** Splitting a line *)

(** The keys that splitting gives. *)
Definition key_ok (sep key : string) : Prop :=
  if decide (sep = ": ") then colon_key key = true ∧ all_chars (λ a, negb (bool_decide (a = ":"%char))) key
  else key ≠ "" ∧ all_chars (λ a, negb (bool_decide (a ∈ chars sep))) key.

Lemma kvSplit_key sep line : (kvSplit sep line).1 ≠ "" → key_ok sep (kvSplit sep line).1.
Proof.
  unfold kvSplit, key_ok. case_decide as Hs; [case_decide; [|done]|case_decide; [done|]].
  - unfold kv_colon. destruct (span _ line) as [k rest] eqn:E. apply span_spec in E as (_ & Hk & _).
    destruct (strip_prefix _ rest); [|done]. by destruct (colon_key k) eqn:Hc.
  - unfold kv_plain. destruct (span _ line) as [k rest] eqn:E. apply span_spec in E as (_ & Hk & _).
    destruct (strip_prefix _ rest); [|done]. by case_decide.
Qed.

(** A printed line has the key it was printed with. *)
Lemma kvSplit_print_key sep key value :
  sep = "=" ∨ sep = ": " → key_ok sep key → (kvSplit sep (key +:+ sep +:+ value)).1 = key.
Proof.
  intros [-> | ->] Hk; unfold key_ok, kvSplit in *.
  - destruct Hk as [Hne Hk]. rewrite decide_False by done. unfold kv_plain.
    rewrite span_app; [|done|by intros a t [= <- _]]. by rewrite strip_prefix_app, decide_False.
  - destruct Hk as [Hc Hk]. rewrite decide_True by done. unfold kv_colon.
    rewrite span_app; [|done|by intros a t [= <- _]]. by rewrite strip_prefix_app, Hc.
Qed.

(** The values that are read back as they are. *)
Definition value_ok (sep value : string) : Prop :=
  if decide (sep = ": ") then all_chars (λ a, negb (bool_decide (a = "#"%char))) value ∧ no_blank_first value
  else all_chars (λ a, negb (re_space a) && negb (bool_decide (a = "#"%char))) value.

Lemma kvSplit_print sep key value :
  sep = "=" ∨ sep = ": " → key_ok sep key → value_ok sep value →
  kvSplit sep (key +:+ sep +:+ value) = (key, value).
Proof.
  intros [-> | ->] Hk Hv.
  - destruct Hk as [Hne Hk]. apply kv_plain_print; [done| |done].
    eapply Forall_impl; [exact Hk|]. intros a Ha. simpl in *. apply negb_true_iff, bool_decide_eq_false in Ha.
    rewrite bool_decide_false; [done|]. intros ->. apply Ha, list_elem_of_here.
  - destruct Hk as [Hc Hk], Hv as [Hv Hb]. by apply kv_colon_print.
Qed.

Lemma value_no_blank value rest : value ≠ "" → value_ok "=" value → no_blank_first (value +:+ rest).
Proof.
  intros Hne Hv a t He. destruct value as [|b value]; [done|]. injection He as <- _.
  apply Forall_cons in Hv as [Hb _]. by apply andb_true_iff in Hb as [Hb%negb_true_iff _].
Qed.

(** ** The lines of the file *)

Section lines.
Context `{MapOrder}.

Lemma mutate_lines_spec sep (mutate : Mutate) lines out :
  mutate_lines sep mutate lines = Ok out →
  Forall2 (λ line o, mutate line (split_line sep line).1 (split_line sep line).2 = Ok o) lines out.
Proof.
  intros Hf. apply (fold_res_ind (λ lines out,
    Forall2 (λ line o, mutate line (split_line sep line).1 (split_line sep line).2 = Ok o) lines out)) in Hf;
    [done|constructor|].
  intros pre line out1 out2 Hpre Hs. destruct (split_line sep line) as [key value] eqn:E.
  apply bind_Ok in Hs as (o & Ho & [= <-]). apply Forall2_app; [done|]. constructor; [by rewrite E|constructor].
Qed.

(** The value a line with a key gets. *)
Definition value_for (dc : DeployConfig) (key value v : string) : Prop :=
  ∃ vars, vars_of dc = Ok vars ∧
    (if decide (mute_key dc key = DINGOCLI_KEY_MDS_ADDR) then Get vars KEY_ENV_MDS_ADDR
     else Rendering vars (default value (GetServiceConfig dc !! ToLower (mute_key dc key)))) = Ok v.
(** What becomes of a line; one without a key is rendered when that is forced, as it is for
    nginx.conf. *)
Definition written (dc : DeployConfig) (forceRender : bool) (sep line o : string) : Prop :=
  let '(key, value) := split_line sep line in
  if decide (key = "") then
    if forceRender then ∃ vars, vars_of dc = Ok vars ∧ Rendering vars line = Ok o else o = line
  else ∃ v, value_for dc key value v ∧ o = key +:+ sep +:+ v.

Lemma NewMutate_written dc b sep line o :
  NewMutate dc sep b line (split_line sep line).1 (split_line sep line).2 = Ok o → written dc b sep line o.
Proof.
  unfold NewMutate, written. destruct (split_line sep line) as [key value]. simpl.
  case_decide; [destruct b; [by intros (vars & ? & ?)%bind_Ok; exists vars|by intros [= ->]]|].
  intros (vars & Hv & Hr)%bind_Ok. apply bind_Ok in Hr as (v & Hr & [= <-]).
  exists v. split; [|done]. by exists vars.
Qed.

(** The keys of the lines of a file. *)
Definition file_keys (sep input : string) : list string :=
  (λ line, (split_line sep line).1) <$> scan_lines input.

Lemma filter_lines_written dc b sep service input out :
  filter_lines sep (NewMutate dc sep b) service input = Ok out →
  ∃ outs, out = outs ++ extra_lines sep service (extra_keys service (file_keys sep input)) ∧
    Forall2 (written dc b sep) (scan_lines input) outs.
Proof.
  intros (outs & Hm & [= <-])%bind_Ok. exists outs. split; [done|].
  apply mutate_lines_spec in Hm. eapply Forall2_impl; [exact Hm|]. intros. by eapply NewMutate_written.
Qed.

(** An option of the topology for which the file has no line, up to blanks around the key. *)
Definition missing (service : gmap string string) (keys : list string) (k : string) : Prop :=
  HasPrefix k "mds_" = true ∧ is_Some (service !! k) ∧
  ∀ key, key ∈ keys → TrimSpace key ≠ TrimSpace ("--" +:+ k).
(** The lines that are added: a title, when an option is missing, and a line for each missing
    one that has a value, in some order. *)
Definition added_lines (sep : string) (service : gmap string string) (keys added : list string) : Prop :=
  ((∀ k, ¬ missing service keys k) ∧ added = []) ∨
  ((∃ k, missing service keys k) ∧ ∃ kvs : list (string * string),
     added = "# dynamic config from topology" :: ((λ '(k, v), "--" +:+ k +:+ sep +:+ v) <$> kvs) ∧
     NoDup kvs.*1 ∧ ∀ k v, (k, v) ∈ kvs ↔ missing service keys k ∧ service !! k = Some v ∧ v ≠ "").

Lemma Contains_false l s : Contains l s = false ↔ ∀ x, x ∈ l → TrimSpace x ≠ TrimSpace s.
Proof.
  unfold Contains. rewrite <-not_true_iff_false, existsb_exists. setoid_rewrite <-list_elem_of_In.
  setoid_rewrite bool_decide_eq_true. naive_solver.
Qed.

Lemma elem_of_extra_keys service keys k : k ∈ extra_keys service keys ↔ missing service keys k.
Proof.
  unfold extra_keys, missing. rewrite list_elem_of_filter, Contains_false.
  assert (k ∈ (range service).*1 ↔ is_Some (service !! k)) as ->; [|naive_solver].
  rewrite list_elem_of_fmap. split.
  - intros ([k' v] & -> & Hin%elem_of_range). by exists v.
  - intros [v Hv]. exists (k, v). split; [done|]. by apply elem_of_range.
Qed.

Lemma extra_lines_added sep service keys :
  added_lines sep service keys (extra_lines sep service (extra_keys service keys)).
Proof.
  unfold added_lines. setoid_rewrite <-elem_of_extra_keys.
  assert (NoDup (extra_keys service keys)) as Hnd.
  { unfold extra_keys. apply NoDup_filter, NoDup_range_fst. }
  assert (∀ k, k ∈ extra_keys service keys → is_Some (service !! k)) as Hs.
  { intros k (_ & Hk & _)%elem_of_extra_keys. done. }
  unfold extra_lines. destruct (extra_keys service keys) as [|k0 l0] eqn:E.
  { left. split; [|done]. intros k. apply not_elem_of_nil. }
  right. rewrite <-E in *. split; [exists k0; rewrite E; left|].
  set (ks := filter (λ k, default "" (service !! k) ≠ "") (extra_keys service keys)).
  exists ((λ k, (k, default "" (service !! k))) <$> ks). split; [|split].
  - f_equal. by rewrite <-list_fmap_compose.
  - rewrite <-list_fmap_compose. change (NoDup (Datatypes.id <$> ks)). rewrite list_fmap_id.
    by apply NoDup_filter.
  - intros k v. rewrite list_elem_of_fmap. split.
    + intros (k' & [= -> ->] & [Hne Hin]%list_elem_of_filter). destruct (Hs _ Hin) as [v' Hv'].
      rewrite Hv' in Hne |- *. by split_and!.
    + intros (Hin & Hv & Hne). exists k. split; [by rewrite Hv|].
      apply list_elem_of_filter. by rewrite Hv.
Qed.
End lines.

(** ** Long lines *)

Lemma Split_sep a c t : Split (a +:+ String c t) c = Split a c ++ Split t c.
Proof.
  induction a as [|b a IH]; simpl; [by rewrite decide_True|].
  case_decide; [by rewrite IH|]. rewrite IH. destruct (Split a c) eqn:E; [|done].
  exfalso. clear IH. destruct a as [|x a]; simpl in E; [done|].
  case_decide; [done|]. by destruct (Split a c).
Qed.
Lemma Split_nonempty a c : Split a c ≠ [].
Proof. destruct a as [|b a]; simpl; [done|]. case_decide; [done|]. by destruct (Split a c). Qed.
Lemma Split_line s c : c ∉ chars s → Split s c = [s].
Proof.
  induction s as [|a s IH]; simpl; [done|]. intros [Ha Hs]%not_elem_of_cons.
  rewrite decide_False by done. by rewrite IH.
Qed.
Lemma drop_last_empty_app l1 l2 : l2 ≠ [] → drop_last_empty (l1 ++ l2) = l1 ++ drop_last_empty l2.
Proof.
  intros Hl. induction l1 as [|s l1 IH]; [done|]. simpl. rewrite IH.
  destruct l1 as [|s' l1]; [|done]. simpl. by destruct l2.
Qed.
Lemma take_fitting_long l1 s l2 : MaxLine < String.length s → take_fitting (l1 ++ s :: l2) = take_fitting l1.
Proof.
  intros Hs. induction l1 as [|x l1 IH]; simpl; [by rewrite decide_False by lia|].
  case_decide; [by rewrite IH|done].
Qed.

Lemma scan_lines_long a long b :
  byte 10 ∉ chars long → MaxLine < String.length long →
  scan_lines (a +:+ String (byte 10) (long +:+ String (byte 10) b)) = scan_lines (a +:+ String (byte 10) "").
Proof.
  intros Hn Hl. unfold scan_lines. rewrite !Split_sep, (Split_line long) by done.
  rewrite (drop_last_empty_app _ (Split "" _)) by apply Split_nonempty. simpl. rewrite app_nil_r.
  rewrite drop_last_empty_app by done. simpl.
  destruct (Split b (byte 10)) eqn:E; [by apply Split_nonempty in E|]. by apply take_fitting_long.
Qed.

(** ** Theorems *)

Section theorems.
Context `{MapOrder}.

(** C16: The files of a service.  When a file is written, its lines are the ones of the old file
    in their order, and then the options of the topology that start with [mds_] and are
    the key of no line, up to blanks around it: under a title, one line for each that has
    a value, and nothing when there is no such option.  A line without a key stays as it
    is, but for nginx.conf, where its variables are rendered; a line with a key has the
    same key and the value of the topology for it, or else its own, with the variables
    rendered, and for the key [mdsaddr] the addresses of the metadata service.  A line is
    read back with that key and, when the value has no blank or number sign that would end
    it, with that value. *)
Theorem sync_file_lines dc forceRender sep service input out :
  sep = "=" ∨ sep = ": " →
  Filter_ sep (NewMutate dc sep forceRender) service input = Ok out →
  ∃ outs added, out = Join (outs ++ added) newline ∧
    Forall2 (written dc forceRender sep) (scan_lines input) outs ∧
    added_lines sep service (file_keys sep input) added ∧
    Forall2 (λ line o, (kvSplit sep line).1 ≠ "" → (kvSplit sep o).1 = (kvSplit sep line).1 ∧
      ∀ v, value_for dc (kvSplit sep line).1 (kvSplit sep line).2 v →
        value_ok sep v → kvSplit sep o = ((kvSplit sep line).1, v)) (scan_lines input) outs.
Proof.
  intros Hsep (outs0 & Hf & [= <-])%bind_Ok. apply filter_lines_written in Hf as (outs & -> & Hw).
  eexists outs, _. split; [done|]. split; [done|]. split; [apply extra_lines_added|].
  eapply Forall2_impl; [exact Hw|]. intros line o Ho. unfold written, split_line in Ho.
  rewrite decide_False in Ho by (by destruct Hsep as [-> | ->]).
  pose proof (kvSplit_key sep line) as Hk. destruct (kvSplit sep line) as [key value] eqn:E. simpl in *.
  intros Hne. rewrite decide_False in Ho by done.
  specialize (Hk Hne). destruct Ho as (v & Hv & ->). split; [by apply kvSplit_print_key|].
  intros v' Hv' Hok. assert (v' = v) as ->; [|by apply kvSplit_print].
  destruct Hv as (vars & Hvars & Hr), Hv' as (vars' & Hvars' & Hr').
  rewrite Hvars in Hvars'. injection Hvars' as <-. rewrite Hr in Hr'. by injection Hr'.
Qed.

(** C22: Every option of the metadata service that the topology sets - a key that starts with
    [mds_], in lower case, with a value - goes into the file that is written: each line of
    the file with exactly that key gets the value of the topology with its variables
    rendered; when no line has the key, not even with blanks around it, a line with the
    value is added. *)
Theorem mds_options_written dc input out k v :
  GetRole dc = ROLE_FS_MDS →
  filter_lines "=" (NewMutate dc "=" false) (GetServiceConfig dc) input = Ok out →
  GetServiceConfig dc !! k = Some v → v ≠ "" → HasPrefix k "mds_" = true → ToLower k = k →
  (∀ i line, scan_lines input !! i = Some line → (split_line "=" line).1 = "--" +:+ k →
     ∃ vars v', vars_of dc = Ok vars ∧ Rendering vars v = Ok v' ∧
       out !! i = Some ("--" +:+ k +:+ "=" +:+ v')) ∧
  ((∀ line, line ∈ scan_lines input → TrimSpace (split_line "=" line).1 ≠ TrimSpace ("--" +:+ k)) →
     "--" +:+ k +:+ "=" +:+ v ∈ out).
Proof.
  intros Hr Hf Hv Hne Hp Hlow. apply filter_lines_written in Hf as (outs & -> & Hw). split.
  - intros i line Hi Hkey. destruct (Forall2_lookup_l _ _ _ _ _ Hw Hi) as (o & Ho & Hwr).
    rewrite (lookup_app_l_Some _ _ _ _ Ho).
    unfold written in Hwr. destruct (split_line "=" line) as [key value]. cbn [fst] in Hkey. subst key.
    rewrite decide_False in Hwr by done. destruct Hwr as (v' & (vars & Hvars & Hval) & ->).
    assert (mute_key dc (MDSV2_CONFIG_PREFIX +:+ k) = k) as Hmute.
    { unfold mute_key. rewrite Hr. by rewrite decide_False by (intros [?|?]; done). }
    change ("--" +:+ k) with (MDSV2_CONFIG_PREFIX +:+ k) in *. rewrite Hmute, decide_False in Hval.
    + rewrite Hlow, Hv in Hval. exists vars, v'. by split_and!.
    + intros ->. done.
  - intros Hno. apply elem_of_app. right.
    assert (missing (GetServiceConfig dc) (file_keys "=" input) k) as Hm.
    { split_and!; [done|by exists v|]. intros key (line & -> & Hl)%list_elem_of_fmap. by apply Hno. }
    destruct (extra_lines_added "=" (GetServiceConfig dc) (file_keys "=" input))
      as [[Hn _]|(_ & kvs & -> & _ & Hkvs)]; [by destruct (Hn k)|].
    right. apply list_elem_of_fmap. exists (k, v). split; [done|]. by apply Hkvs.
Qed.

(** An option whose key the file has with blanks around it is lost: the line keeps its own
    value, since the topology has nothing under the padded key, and none is added. *)
Theorem spaced_option_lost dc input out k key value i line :
  filter_lines "=" (NewMutate dc "=" false) (GetServiceConfig dc) input = Ok out →
  scan_lines input !! i = Some line → split_line "=" line = (key, value) → key ≠ "" →
  TrimSpace key = TrimSpace ("--" +:+ k) → GetServiceConfig dc !! ToLower (mute_key dc key) = None →
  mute_key dc key ≠ DINGOCLI_KEY_MDS_ADDR →
  (∃ vars v', vars_of dc = Ok vars ∧ Rendering vars value = Ok v' ∧
     out !! i = Some (key +:+ "=" +:+ v')) ∧
  ∃ outs added, out = outs ++ added ∧ length outs = length (scan_lines input) ∧
    added_lines "=" (GetServiceConfig dc) (file_keys "=" input) added ∧
    ¬ missing (GetServiceConfig dc) (file_keys "=" input) k.
Proof.
  intros Hf Hi Hl Hk Ht Hn Hm. apply filter_lines_written in Hf as (outs & -> & Hw). split.
  - destruct (Forall2_lookup_l _ _ _ _ _ Hw Hi) as (o & Ho & Hwr).
    rewrite (lookup_app_l_Some _ _ _ _ Ho). unfold written in Hwr. rewrite Hl in Hwr.
    rewrite decide_False in Hwr by done. destruct Hwr as (v' & (vars & Hvars & Hval) & ->).
    rewrite decide_False, Hn in Hval by done. exists vars, v'. by split_and!.
  - eexists outs, _. split; [done|]. split; [symmetry; by eapply Forall2_length|].
    split; [apply extra_lines_added|]. intros (_ & _ & Hno). apply (Hno key); [|done].
    apply list_elem_of_fmap. exists line. rewrite Hl. split; [done|]. by eapply list_elem_of_lookup_2.
Qed.

(** A line that does not fit the buffer of the scanner ends the file: nothing of it and of
    what follows is written, and no error is reported. *)
Theorem long_line_ends_file sep mutate service a long b :
  byte 10 ∉ chars long → MaxLine < String.length long →
  Filter_ sep mutate service (a +:+ String (byte 10) (long +:+ String (byte 10) b)) =
  Filter_ sep mutate service (a +:+ String (byte 10) "").
Proof. intros Hn Hl. unfold Filter_, filter_lines. by rewrite scan_lines_long. Qed.

(** A value that the topology does not set is cut at its first blank. *)
Theorem unset_value_is_cut dc key value rest vars :
  key ≠ "" → all_chars (λ a, negb (bool_decide (a = "="%char))) key → value ≠ "" → value_ok "=" value →
  GetServiceConfig dc !! ToLower (mute_key dc key) = None → mute_key dc key ≠ DINGOCLI_KEY_MDS_ADDR →
  vars_of dc = Ok vars → Rendering vars value = Ok value →
  let line := key +:+ "=" +:+ value +:+ " " +:+ rest in
  NewMutate dc "=" false line (kvSplit "=" line).1 (kvSplit "=" line).2 = Ok (key +:+ "=" +:+ value).
Proof.
  intros Hne Hk Hvn Hv Hs Hm Hvars Hr line.
  assert (kvSplit "=" line = (key, value)) as ->.
  { unfold kvSplit, line. rewrite decide_False by done. unfold kv_plain.
    rewrite span_app; [|eapply Forall_impl; [exact Hk|]|by intros a t [= <- _]].
    2: { simpl. intros a Ha. rewrite bool_decide_false; [done|]. apply not_elem_of_cons.
         apply negb_true_iff, bool_decide_eq_false in Ha. split; [done|apply not_elem_of_nil]. }
    change (String "=" (value +:+ " " +:+ rest)) with ("=" +:+ (value +:+ " " +:+ rest)).
    rewrite strip_prefix_app, decide_False, span_blanks by done || (apply value_no_blank; [done|exact Hv]).
    simpl. rewrite span_app; [done|exact Hv|by intros a t [= <- _]]. }
  simpl. unfold NewMutate. rewrite decide_False by done. rewrite Hs, Hvars. simpl.
  rewrite decide_False by done. by rewrite Hr.
Qed.
End theorems.

(** ** Witnesses *)

Definition mds_dc : DeployConfig :=
  res_get zero_dc (
    dc ← NewDeployConfig (H := canonical_order) (Some {["h1" := "10.0.0.1"]})
           KIND_DINGOFS ROLE_FS_MDS "h1" "" 2 0 1
           {["variable" := VMap {["base" := VString "/data"]};
             "log_dir" := VString "${base}/log";
             "mds_heartbeat" := VInt 5; "mds_name" := VString "m"]};
    dc ← ResolveHost (H := canonical_order) 10 dc;
    dc_Build (H := canonical_order) 10 dc).
Definition mds_file : string :=
  Join ["# options"; "--log_dir=${base}/x"; "--mds_name=old # the name"; "--other=a b"] newline +:+ newline.
Definition mds_out : list string :=
  ["# options"; "--log_dir=/data/x"; "--mds_name=m"; "--other=a"; "# dynamic config from topology"; "--mds_heartbeat=5"].
#[local] Existing Instance canonical_order.

Lemma mds_filtered :
  filter_lines "=" (NewMutate mds_dc "=" false) (GetServiceConfig mds_dc) mds_file = Ok mds_out.
Proof. vm_compute. reflexivity. Qed.

Lemma sync_file_lines_witness :
  mds_out !! 5 = Some "--mds_heartbeat=5" ∧
  ∃ outs added, Join mds_out newline = Join (outs ++ added) newline ∧
    Forall2 (written mds_dc false "=") (scan_lines mds_file) outs ∧
    added_lines "=" (GetServiceConfig mds_dc) (file_keys "=" mds_file) added.
Proof.
  split; [reflexivity|].
  destruct (sync_file_lines mds_dc false "=" (GetServiceConfig mds_dc) mds_file (Join mds_out newline))
    as (outs & added & He & Hw & Ha & _); [by left|unfold Filter_; by rewrite mds_filtered|].
  exists outs, added. split; [exact He|]. split; [exact Hw|exact Ha].
Defined.

Lemma mds_options_written_witness :
  mds_out !! 5 = Some "--mds_heartbeat=5" ∧
  ∃ vars v', vars_of mds_dc = Ok vars ∧ Rendering vars "m" = Ok v' ∧
    mds_out !! 2 = Some ("--" +:+ "mds_name" +:+ "=" +:+ v').
Proof.
  split; [reflexivity|].
  refine (proj1 (mds_options_written mds_dc mds_file mds_out "mds_name" "m" _ mds_filtered _ _ _ _)
    2 "--mds_name=old # the name" _ _);
    [vm_compute; reflexivity|vm_compute; reflexivity|discriminate|reflexivity|reflexivity
    |vm_compute; reflexivity|vm_compute; reflexivity].
Defined.

(** The name of the topology is nowhere in the file. *)
Lemma spaced_option_lost_witness :
  let out := ["--mds_name =old"; "# dynamic config from topology"; "--mds_heartbeat=5"] in
  filter_lines "=" (NewMutate mds_dc "=" false) (GetServiceConfig mds_dc) "--mds_name = old" = Ok out ∧
  ¬ missing (GetServiceConfig mds_dc) (file_keys "=" "--mds_name = old") "mds_name".
Proof.
  intros out. assert (filter_lines "=" (NewMutate mds_dc "=" false) (GetServiceConfig mds_dc) "--mds_name = old"
    = Ok out) as Hf by (vm_compute; reflexivity).
  split; [exact Hf|].
  destruct (spaced_option_lost mds_dc "--mds_name = old" out "mds_name" "--mds_name " "old" 0 "--mds_name = old" Hf)
    as (_ & _ & _ & _ & _ & _ & Hm); [vm_compute; reflexivity|vm_compute; reflexivity|discriminate
    |vm_compute; reflexivity|vm_compute; reflexivity|vm_compute; discriminate|exact Hm].
Defined.

Fixpoint repeat_char (n : nat) (a : ascii) : string := match n with 0 => "" | S n => String a (repeat_char n a) end.
Definition long_text : string := repeat_char (S MaxLine) "x".
Lemma long_text_ok : byte 10 ∉ chars long_text ∧ MaxLine < String.length long_text.
Proof.
  unfold long_text. split.
  - generalize (S MaxLine). induction n as [|n IH]; simpl; [apply not_elem_of_nil|].
    apply not_elem_of_cons. split; [vm_compute; discriminate|exact IH].
  - assert (∀ n, String.length (repeat_char n "x") = n) as E by (induction n as [|n IH]; simpl; congruence).
    rewrite E. lia.
Qed.

Lemma long_line_ends_file_witness :
  let m : Mutate := λ line _ _, Ok line in
  Filter_ "=" m ∅ ("a" +:+ String (byte 10) (long_text +:+ String (byte 10) "lost=1")) = Ok "a".
Proof.
  cbv zeta. rewrite (long_line_ends_file "=" _ ∅ "a" long_text "lost=1"); [|exact (proj1 long_text_ok)|exact (proj2 long_text_ok)].
  vm_compute. reflexivity.
Defined.

Lemma unset_value_is_cut_witness :
  let line := "--other" +:+ "=" +:+ "a" +:+ " " +:+ "b" in
  NewMutate mds_dc "=" false line (kvSplit "=" line).1 (kvSplit "=" line).2 = Ok ("--other" +:+ "=" +:+ "a").
Proof.
  apply (unset_value_is_cut mds_dc "--other" "a" "b" (res_get (mkVariables ∅ true) (vars_of mds_dc)));
    try (vm_compute; first [reflexivity|discriminate]).
  - apply (bool_decide_unpack _). vm_compute. exact I.
  - apply (bool_decide_unpack _). vm_compute. exact I.
Defined.
