(* ===== verification/MonitorTasks.v ===== *)
(** The tasks on the monitor services (src/internal/task/task/monitor): one task per service
    of the monitor configuration that creates, configures, starts, stops, restarts, cleans or
    asks its container.

    The containers are created and recorded by the steps of the services of a cluster
    (Services.v); the embedded scripts and the reading of JSON are parameters. *)

From S2P Require Import Prelude Errno GoLib Utils Storage CliConfig Hosts Cli Tasks Playbook Deploy ServiceCmd Shell Steps Vars DeployConfig Topology ServiceEnv Services ConfigSync Monitor.

Definition mc_ServiceConfig (mc : MonitorConfig) : gmap string val := mc_config mc.
(** [configure.KEY_ORIGIN_CONFIG_ID]: the assertion that it is a text panics. *)
Definition origin_config_id (mc : MonitorConfig) : res error string :=
  assert_string (map_get (mc_ServiceConfig mc) KEY_ORIGIN_CONFIG_ID).

(** ** What a container is made of (create_container.go) *)

Definition ENGINE_DOCKER : string := "docker".
Definition getEntrypoint (cfg : MonitorConfig) : string :=
  if decide (mc_role cfg = ROLE_MONITOR_SYNC) then "/dingofs/monitor/start_monitor_sync.sh" else "".

(** The arguments of a role; one without value is a bare flag. *)
Definition argsMap (cfg : MonitorConfig) : res error (gmap string (option string)) :=
  if decide (mc_role cfg = ROLE_NODE_EXPORTER) then
    port ← mc_GetListenPort cfg;
    Ok (list_to_map [("path.rootfs", Some "/host"); ("collector.cpu.info", None);
                     ("web.listen-address", Some (":" +:+ Itoa port))])
  else if decide (mc_role cfg = ROLE_PROMETHEUS) then
    time ← mc_GetPrometheusRetentionTime cfg;
    size ← mc_GetPrometheusRetentionSize cfg;
    port ← mc_GetListenPort cfg;
    Ok (list_to_map [("config.file", Some "/etc/prometheus/prometheus.yml"); ("storage.tsdb.path", Some "/prometheus");
                     ("storage.tsdb.retention.time", Some time); ("storage.tsdb.retention.size", Some size);
                     ("web.console.libraries", Some "/usr/share/prometheus/console_libraries");
                     ("web.console.templates", Some "/usr/share/prometheus/consoles");
                     ("web.listen-address", Some (":" +:+ Itoa port))])
  else Ok ∅.
Definition argument (kv : string * option string) : string :=
  match kv with (k, Some v) => "--" +:+ k +:+ "=" +:+ v | (k, None) => "--" +:+ k end.
Definition getArguments `{MapOrder} (cfg : MonitorConfig) : res error string :=
  m ← argsMap cfg; Ok (Join (argument <$> range m) " ").

Definition mon_getMountVolumes (cfg : MonitorConfig) : res error (list Volume) :=
  let r := mc_role cfg in
  if decide (r = ROLE_NODE_EXPORTER) then
    Ok [mkVolume "/" "/host:ro,rslave"; mkVolume "/run/udev/data" "/run/udev/data";
        mkVolume "/run/dbus/system_bus_socket" "/var/run/dbus/system_bus_socket:ro"]
  else if decide (r = ROLE_PROMETHEUS) then
    data ← mc_GetDataDir cfg; conf ← mc_GetConfDir cfg;
    Ok [mkVolume data "/prometheus"; mkVolume conf "/etc/prometheus"]
  else if decide (r = ROLE_GRAFANA) then
    data ← mc_GetDataDir cfg; conf ← mc_GetConfDir cfg; provision ← mc_GetProvisionDir cfg;
    Ok [mkVolume data "/var/lib/grafana"; mkVolume conf "/etc/grafana"; mkVolume provision "/etc/grafana/provisioning"]
  else if decide (r = ROLE_MONITOR_SYNC) then
    data ← mc_GetDataDir cfg; Ok [mkVolume data "/dingofs/monitor"]
  else Ok [].
Definition mon_getEnvironments (cfg : MonitorConfig) : res error (list string) :=
  if decide (mc_role cfg = ROLE_GRAFANA) then
    user ← mc_GetGrafanaUser cfg; password ← mc_GetGrafanaPassword cfg; port ← mc_GetListenPort cfg;
    Ok ["GF_SECURITY_ADMIN_USER=" +:+ user; "GF_SECURITY_ADMIN_PASSWORD=" +:+ password;
        "GF_SERVER_HTTP_PORT=" +:+ Itoa port]
  else Ok [].
(** The directories that are made before the container is. *)
Definition mon_paths (cfg : MonitorConfig) : res error (list string) :=
  data ← mc_GetDataDir cfg;
  if decide (mc_role cfg = ROLE_GRAFANA) then
    conf ← mc_GetConfDir cfg; provision ← mc_GetProvisionDir cfg;
    Ok [data; conf; provision +:+ "/datasources"]
  else if decide (mc_role cfg = ROLE_PROMETHEUS) then conf ← mc_GetConfDir cfg; Ok [data; conf]
  else Ok [data].

(** ** Texts of the configuration (sync_config.go) *)

Definition DINGO_TOOL_DEST_PATH : string := "/root/.dingo/dingo.yaml".
Definition ORIGIN_MONITOR_PATH : string := "/dingofs/monitor".

Definition getNodeExporterAddrs (hosts : list string) (port : Z) : string :=
  "[" +:+ Join ((λ item, "'" +:+ item +:+ ":" +:+ Itoa port +:+ "'") <$> hosts) "," +:+ "]".
Definition combineSedCMD (cfg : MonitorConfig) (prometheusUid : string) : res error string :=
  provision ← mc_GetProvisionDir cfg;
  Ok ("sed -i 's/${PROMETHEUS_UID}/" +:+ prometheusUid +:+ "/g' " +:+ provision +:+ "/dashboards/server_metric_zh.json").
Definition MutateTool (vars : option Variables) (delimiter : string) : Mutate := λ line key value,
  if decide (key = "") then Ok line else
  match vars with
  | None => Panic
  | Some vars => value ← Rendering vars value; Ok (key +:+ delimiter +:+ value)
  end.

(** ** Status *)

Record MonitorStatus : Type := mkMonitorStatus {
  ms_Id : string; ms_Role : string; ms_Host : string; ms_HostSequence : Z; ms_ContainerId : string;
  ms_Ports : string; ms_Status : string; ms_DataDir : string; ms_Config : MonitorConfig }.

(** start_service.go *)
Definition mon_IsSkip (mc : MonitorConfig) (roles : list string) : bool := bool_decide (mc_role mc ∈ roles).
Definition mon_host_role (cfg : MonitorConfig) : string := "host=" +:+ mc_host cfg +:+ " role=" +:+ mc_role cfg.
Definition mon_subname (cfg : MonitorConfig) (containerId : string) : string :=
  mon_host_role cfg +:+ " containerId=" +:+ TrimContainerId containerId.

(** clean_service.go *)
Definition mon_getCleanFiles `{MapOrder} (clean : gmap string bool) (mc : MonitorConfig) : res error (list string) :=
  fold_res (λ files item,
    if decide (item = CLEAN_ITEM_DATA) then d ← mc_GetDataDir mc; Ok (files ++ [d]) else Ok files)
    (range clean).*1 [].

Section tasks.
Context {W : Type} `{World W} `{Driver} `{MapOrder}.
Context (os : OS) (parse_hosts : string → option Hosts_) (md5 : string → string).
Context (cli : DingoCli) (cfg : DingoCliConfig).
(** The embedded scripts; [fmt.Sprintf] of a format without arguments; JSON lists of objects. *)
Context (SYNC_PROMETHEUS START_MONITOR_SYNC GRAFANA_SERVER_METRIC EXTRACT_HOSTS : string).
Context (Sprintf : string → string) (datasources : string → option (list (gmap string val))).
(** The statuses of the monitor services in the memory storage. *)
Context (mon_statuses : W → gmap string MonitorStatus) (set_mon_statuses : gmap string MonitorStatus → W → W).
Notation Task := (Tasks.Task W SSHConfig SSHConfig).
Notation Step := (Tasks.Step (W := W) (Client := SSHConfig)).
Notation Eff := (eff error W).
Notation options := (cli_ExecOptions cfg).

Definition mon_serviceId (mc : MonitorConfig) : string := GetServiceId md5 cli (mc_id mc).
Definition mon_hc (mc : MonitorConfig) : res error HostConfig := cli_GetHost os parse_hosts cli (mc_host mc).
(** The beginning of most constructors: the container, unless the role is skipped. *)
Definition mon_find (skip : list string) (mc : MonitorConfig) : Eff (option string) :=
  r ← svc_GetContainerId (mon_serviceId mc);
  if mon_IsSkip mc skip then mret None else c ← pure_eff r; mret (Some c).
Definition mon_task (skip : list string) (name : string) (mc : MonitorConfig) (l : string → Eff (list Step))
    : Eff (option Task) :=
  o ← mon_find skip mc;
  match o with
  | None => mret None
  | Some containerId =>
      hc ← pure_eff (mon_hc mc);
      c ← pure_eff (host_ssh os cfg hc);
      t ← new_task name (mon_subname mc containerId) (Some c);
      l ← l containerId;
      mret (Some (add_steps l t))
  end.

(** ** Images and containers *)

Definition mon_NewPullImageTask (mc : MonitorConfig) : Eff (option Task) :=
  image ← pure_eff (mc_GetImage mc);
  hc ← pure_eff (mon_hc mc);
  c ← pure_eff (host_ssh os cfg hc);
  t ← new_task "Pull Image" ("host=" +:+ mc_host mc +:+ " image=" +:+ image) (Some c);
  mret (Some (add_steps [PullImage image None options] t)).

Definition mon_hostname (mc : MonitorConfig) : string :=
  mc_kind mc +:+ "-" +:+ mc_role mc +:+ "-" +:+ mon_serviceId mc.
Definition mon_container (mc : MonitorConfig) : res error CreateContainer_ :=
  image ← mc_GetImage mc;
  args ← getArguments mc;
  envs ← mon_getEnvironments mc;
  volumes ← mon_getMountVolumes mc;
  let h := mon_hostname mc in
  Ok (mkCreate image args [h +:+ ":127.0.0.1"] [] (getEntrypoint mc) envs h
        (bool_decide (Engine cfg = ENGINE_DOCKER)) [] "" h "" "0:0" "host" "" true false
        POLICY_NEVER_RESTART [] ["core=-1"] volumes).
Definition mon_NewCreateContainerTask (mc : MonitorConfig) : Eff (option Task) :=
  hc ← pure_eff (mon_hc mc);
  c ← pure_eff (host_ssh os cfg hc);
  t ← new_task "Create Container" (mon_host_role mc) (Some c);
  paths ← pure_eff (mon_paths mc);
  create ← pure_eff (mon_container mc);
  mret (Some (add_steps (create_steps cli cfg (mon_serviceId mc) (Some paths) create) t)).

(** ** Starting, stopping, restarting *)

Definition mon_start_steps (containerId : string) : list Step :=
  exist_steps cfg containerId ++
  [StartContainer containerId None None options; WaitContainerStart 3;
   Step2CheckPostStart cfg containerId "success"].
Definition mon_NewStartServiceTask (mc : MonitorConfig) : Eff (option Task) :=
  mon_task [ROLE_MONITOR_CONF] "Start Service" mc (λ containerId, mret (mon_start_steps containerId)).
Definition mon_stop_steps (containerId : string) : list Step :=
  exist_steps cfg containerId ++ [StopContainer containerId 0 (Some "out") options].
Definition mon_NewStopServiceTask (mc : MonitorConfig) : Eff (option Task) :=
  mon_task [ROLE_MONITOR_CONF] "Stop Service" mc (λ containerId, mret (mon_stop_steps containerId)).
Definition mon_restart_steps (containerId : string) : list Step :=
  exist_steps cfg containerId ++
  [RestartContainer containerId None options; WaitContainerStart 3;
   Step2CheckPostStart cfg containerId "success"].
Definition mon_NewRestartServiceTask (mc : MonitorConfig) : Eff (option Task) :=
  mon_task [ROLE_MONITOR_CONF] "Restart Monitor Service" mc (λ containerId, mret (mon_restart_steps containerId)).

(** ** Cleaning *)

Definition NewCleanConfigContainerTask (mc : MonitorConfig) : Eff (option Task) :=
  if decide (mc_role mc ≠ ROLE_MONITOR_CONF) then mret None else
  hc ← pure_eff (mon_hc mc);
  r ← svc_GetContainerId (mon_serviceId mc);
  containerId ← pure_eff r;
  c ← pure_eff (host_ssh os cfg hc);
  t ← new_task "Clean Config Container" "" (Some c);
  mret (Some (add_steps [Step2CleanContainer cfg (mon_serviceId mc) containerId] t)).
Definition NewCleanMonitorTask (mc : MonitorConfig) : Eff (option Task) :=
  r ← svc_GetContainerId (mon_serviceId mc);
  containerId ← pure_eff r;
  if decide (mc_role mc = ROLE_MONITOR_SYNC ∧ (containerId = "" ∨ containerId = CLEANED_CONTAINER_ID))
  then mret None else
  hc ← pure_eff (mon_hc mc);
  only ← clean_option;
  c ← pure_eff (host_ssh os cfg hc);
  t ← new_task "Clean Monitor" (mon_subname mc containerId +:+ " clean=" +:+ Join only ",") (Some c);
  let clean := Slice2Map only in
  files ← pure_eff (mon_getCleanFiles clean mc);
  mret (Some (add_steps (clean_steps cfg (mon_serviceId mc) containerId clean files) t)).

(** ** Configuration *)

Definition sed_port (port : Z) (file : string) : string :=
  "sed -i 's/localhost:[0-9]*/localhost:" +:+ Itoa port +:+ "/g' " +:+ file.
Definition prometheus_steps (mc : MonitorConfig) : res error (list Step) :=
  port ← mc_GetListenPort mc; conf ← mc_GetConfDir mc;
  nodeHosts ← mc_GetNodeIps mc; nodePort ← mc_GetNodeListenPort mc;
  Ok [Command_ (sed_port port (conf +:+ "/prometheus.yml")) None (Some "out") options;
      InstallFile (λ _, SYNC_PROMETHEUS) (conf +:+ "/sync_prometheus.sh") (λ _, "") "" options;
      Command_ ("bash " +:+ conf +:+ "/sync_prometheus.sh " +:+ conf +:+ "/prometheus.yml "
                +:+ getNodeExporterAddrs nodeHosts nodePort) None (Some "out") options].
Definition grafana_steps (mc : MonitorConfig) : res error (list Step) :=
  port ← mc_GetPrometheusListenPort mc; provision ← mc_GetProvisionDir mc;
  Ok [Command_ (sed_port port (provision +:+ "/datasources/all.yml")) None (Some "out") options].
(** The files come from the container of the configuration. *)
Definition monitor_sync_steps (mc : MonitorConfig) (containerId : string) : Eff (list Step) :=
  confID ← pure_eff (origin_config_id mc);
  r ← svc_GetContainerId (GetServiceId md5 cli confID);
  confContainerId ← pure_eff r;
  dir ← pure_eff (mc_GetDataDir mc);
  mret [TrySyncFile confContainerId DINGO_TOOL_DEST_PATH containerId DINGO_TOOL_DEST_PATH CONFIG_DELIMITER_COLON
          (MutateTool (mc_variables mc) CONFIG_DELIMITER_COLON) options;
        Step2CopyFilesFromContainer [ORIGIN_MONITOR_PATH] confContainerId dir true options;
        InstallFile (λ _, START_MONITOR_SYNC) (dir +:+ "/start_monitor_sync.sh") (λ _, "") "" options;
        Command_ ("chmod +x " +:+ dir +:+ "/start_monitor_sync.sh") None (Some "out") options].
Definition mon_sync_steps (mc : MonitorConfig) (containerId : string) : Eff (list Step) :=
  l ← (if decide (mc_role mc = ROLE_PROMETHEUS) then pure_eff (prometheus_steps mc)
       else if decide (mc_role mc = ROLE_GRAFANA) then pure_eff (grafana_steps mc)
       else if decide (mc_role mc = ROLE_MONITOR_SYNC) then monitor_sync_steps mc containerId
       else mret []);
  mret (exist_steps cfg containerId ++ l).
Definition mon_NewSyncConfigTask (mc : MonitorConfig) : Eff (option Task) :=
  mon_task [ROLE_MONITOR_CONF; ROLE_NODE_EXPORTER] "Sync Config" mc (mon_sync_steps mc).

(** The data sources of Grafana, asked for until it answers with some, ten times at most.
    What the two inner steps return is not looked at. *)
Definition fetch_info (port : Z) : Step :=
  Curl ("-u admin:admin http://localhost:" +:+ Itoa port +:+ "/api/datasources") "" true "" true
    None (Some "prometheusInfo") options.
Definition replace_uid (mc : MonitorConfig) (uid : val) : Step := λ cl reg w,
  match uid with
  | VString v =>
      step_crash (combineSedCMD mc v) (λ cmd cl reg w,
        let '(reg, w, _) := Command_ cmd None None options cl reg w in (reg, w, None)) cl reg w
  | _ => (reg, w, None)
  end.
Definition answered (info : string) : option (list (gmap string val)) :=
  if decide (info = "") then None else datasources info.
Fixpoint fetch_uid (tries : nat) (mc : MonitorConfig) (port : Z) : Step := λ cl reg w,
  match tries with
  | 0 => (reg, w, Some (EOther (EText "failed to fetch prometheus info")))
  | S tries =>
      let '(reg, w, _) := fetch_info port cl reg w in
      match answered (str_var reg "prometheusInfo") with
      | Some (d :: _) => replace_uid mc (map_get d "uid") cl reg w
      | _ => fetch_uid tries mc port cl reg (Sleep 3 w)
      end
  end.
Definition syncPrometheusUid (mc : MonitorConfig) : Step :=
  step_crash (mc_GetListenPort mc) (fetch_uid 10 mc).
Definition NewSyncGrafanaDashboardTask (mc : MonitorConfig) : Eff (option Task) :=
  mon_task [ROLE_MONITOR_CONF; ROLE_NODE_EXPORTER] "Sync Grafana Dashboard" mc (λ containerId,
    provision ← pure_eff (mc_GetProvisionDir mc);
    mret (exist_steps cfg containerId ++
      [InstallFile (λ _, GRAFANA_SERVER_METRIC) (provision +:+ "/dashboards/server_metric_zh.json") (λ _, "") "" options;
       syncPrometheusUid mc])).

(** sync_hosts.go *)
Definition hosts_steps (conf : string) (containerId : string) : list Step :=
  [InstallFile (λ _, EXTRACT_HOSTS) (conf +:+ "/extract_hosts.sh") (λ _, "") "" options;
   Command_ ("bash " +:+ conf +:+ "/extract_hosts.sh " +:+ Sprintf (conf +:+ "/mutate_hosts")) None (Some "out") options;
   ContainerExec containerId "sh -c 'cat /etc/prometheus/mutate_hosts >> /etc/hosts'" None (Some "out") options].
Definition NewSyncHostsMappingTask (mc : MonitorConfig) : Eff (option Task) :=
  if decide (mc_role mc ≠ ROLE_PROMETHEUS) then mret None else
  mon_task [] "Sync Host Mapping" mc (λ containerId,
    conf ← pure_eff (mc_GetConfDir mc);
    mret (exist_steps cfg containerId ++ hosts_steps conf containerId)).

(** ** Status *)

Definition setMonitorStatus (id : string) (s : MonitorStatus) (w : W) : W :=
  set_mon_statuses (<[id := s]> (mon_statuses w)) w.
Definition mon_status (mc : MonitorConfig) (hostSequence : Z) (containerId ports status : string)
    : res error MonitorStatus :=
  d ← mc_GetDataDir mc;
  Ok (mkMonitorStatus (mon_serviceId mc) (mc_role mc) (mc_host mc) hostSequence (TrimContainerId containerId)
        ports status d mc).
Definition step2InitMonitorStatus (mc : MonitorConfig) (containerId : string) : Step :=
  step_crash (mon_status mc (mc_hostSequence mc) containerId "" SERVICE_STATUS_UNKNOWN) (λ s _ reg w,
    (reg, setMonitorStatus (mon_serviceId mc) s w, None)).
(** The second status has no sequence of the host. *)
Definition step2FormatMonitorStatus (mc : MonitorConfig) (containerId ports status : string) : Step := λ cl reg w,
  step_crash (mon_status mc 0 containerId ports (format_status containerId (str_var reg status)))
    (λ s _ reg w, (reg, setMonitorStatus (mon_serviceId mc) s w, None)) cl reg w.
Definition NewInitMonitorStatusTask (mc : MonitorConfig) : Eff (option Task) :=
  o ← mon_find [ROLE_MONITOR_CONF] mc;
  match o with
  | None => mret None
  | Some containerId =>
      t ← new_task "Init Monitor Status" (mon_subname mc containerId) None;
      mret (Some (add_steps [step2InitMonitorStatus mc containerId] t))
  end.
Definition mon_status_steps (mc : MonitorConfig) (containerId ports : string) : list Step :=
  [list_container cfg containerId STATUS_FORMAT "status"; last_line_of "status";
   step2FormatMonitorStatus mc containerId ports "status"].
Definition NewGetMonitorStatusTask (mc : MonitorConfig) : Eff (option Task) :=
  mon_task [ROLE_MONITOR_CONF] "Get Monitor Status" mc (λ containerId,
    port ← pure_eff (mc_GetListenPort mc);
    mret (mon_status_steps mc containerId (Itoa port))).
End tasks.
