(* ===== verification/MonitorCmd.v ===== *)
(** The commands on the monitor services (src/cli/command/monitor): deploy, start, stop,
    restart, reload, clean, status, upgrade and config commit.

    A command selects the services of the monitor configuration, makes a playbook and, once
    it is confirmed, runs it.  The parsed configuration and the answers of the user are
    arguments; the running of playbooks is the one of Playbook.v. *)

From S2P Require Import Prelude Errno GoLib Utils Storage Vars DeployConfig Topology TopologyDiff Cli Monitor Session Tasks Playbook PlaybookFacts Deploy ServiceCmd MonitorTasks.

Definition MONITOR_DEPLOY_STEPS : list StepType :=
  [PULL_MONITOR_IMAGE; CREATE_MONITOR_CONTAINER; SYNC_MONITOR_ORIGIN_CONFIG; SYNC_MONITOR_ALT_CONFIG;
   CLEAN_CONFIG_CONTAINER; START_MONITOR_SERVICE; SYNC_GRAFANA_DASHBOARD; SYNC_HOSTS_MAPPING].
Definition MONITOR_START_STEPS : list StepType := [START_MONITOR_SERVICE].
Definition MONITOR_STOP_STEPS : list StepType := [STOP_MONITOR_SERVICE].
Definition MONITOR_RESTART_STEPS : list StepType := [RESTART_MONITOR_SERVICE].
Definition MONITOR_RELOAD_STEPS : list StepType :=
  [CREATE_MONITOR_CONTAINER; SYNC_MONITOR_ALT_CONFIG; CLEAN_CONFIG_CONTAINER; RESTART_MONITOR_SERVICE].
Definition MONITOR_CLEAN_STEPS : list StepType := [CLEAN_MONITOR_SERVICE].
Definition MONITOR_CLEAN_ITEMS : list string := [CLEAN_ITEM_DATA; CLEAN_ITEM_CONTAINER].
Definition MONITOR_STATUS_STEPS : list StepType := [INIT_MONITOR_STATUS; GET_MONITOR_STATUS].
Definition MONITOR_UPGRADE_STEPS : list StepType :=
  [PULL_MONITOR_IMAGE; STOP_MONITOR_SERVICE; CLEAN_MONITOR_SERVICE; CREATE_MONITOR_CONTAINER;
   START_MONITOR_SERVICE; SYNC_HOSTS_MAPPING].

(** Removing the first pull of images; the slice it is removed from is the variable of the
    program, whose last element stays where it was. *)
Fixpoint remove_monitor_pull (steps : list StepType) : list StepType :=
  match steps with
  | [] => []
  | s :: l => if decide (s = PULL_MONITOR_IMAGE) then l else s :: remove_monitor_pull l
  end.
Definition monitor_pull_removed (steps : list StepType) : list StepType :=
  remove_monitor_pull steps ++ drop (length (remove_monitor_pull steps)) steps.
(** The steps that are run, and the variable afterwards. *)
Definition without_pull (useLocalImage : bool) (steps : list StepType) : list StepType * list StepType :=
  if useLocalImage then (remove_monitor_pull steps, monitor_pull_removed steps) else (steps, steps).

(** [serviceOptions] is the options that select services; force is false where a command
    has no such flag. *)
Section commands.
Context `{Driver} (md5 : string → string) {CC ANY : Type}.
Notation Playbook := (Playbook (CC := CC) (ANY := ANY) (OPT := optval)).
Notation PlaybookStep := (PlaybookStep (CC := CC) (ANY := ANY) (OPT := optval)).

Definition silent : ExecOptions := mkExecOptions 0 true true false.
Definition mon_playbook (f : StepType → PlaybookStep) (steps : list StepType) : Playbook :=
  foldl (λ pb s, pb_AddStep pb (f s)) NewPlaybook steps.

Definition mon_genDeployPlaybook (steps : list StepType) (mcs : list MonitorConfig) (useLocalImage : bool)
    : Playbook * list StepType :=
  let '(steps, v) := without_pull useLocalImage steps in
  (mon_playbook (λ s, mkStep s (MonitorConfigs mcs) ∅
     (if decide (s = CLEAN_CONFIG_CONTAINER) then silent else no_options)) steps, v).

(** The services the options select. *)
Definition mon_selected (cli : DingoCli) (mcs : list MonitorConfig) (o : serviceOptions)
    : res error (list MonitorConfig) :=
  let mcs := FilterMonitorConfig md5 cli mcs (mkFilterMonitor (s_id o) (s_role o) (s_host o)) in
  if decide (length mcs = 0) then Err (ECode ERR_NO_SERVICES_MATCHED) else Ok mcs.

Definition mon_genServicePlaybook (steps : list StepType) (cli : DingoCli) (mcs : list MonitorConfig)
    (o : serviceOptions) : res error Playbook :=
  mcs ← mon_selected cli mcs o;
  Ok (mon_playbook (λ s, mkStep s (MonitorConfigs mcs) ∅ no_options) steps).
Definition mon_genStartPlaybook := mon_genServicePlaybook MONITOR_START_STEPS.
Definition mon_genStopPlaybook := mon_genServicePlaybook MONITOR_STOP_STEPS.
Definition mon_genRestartPlaybook := mon_genServicePlaybook MONITOR_RESTART_STEPS.
Definition genReloadPlaybook (cli : DingoCli) (mcs : list MonitorConfig) (o : serviceOptions)
    : res error Playbook :=
  mcs ← mon_selected cli mcs o;
  Ok (mon_playbook (λ s, mkStep s (MonitorConfigs mcs) ∅
        (if decide (s = CREATE_MONITOR_CONTAINER ∨ s = CLEAN_CONFIG_CONTAINER) then silent else no_options))
        MONITOR_RELOAD_STEPS).
Definition mon_genCleanPlaybook (cli : DingoCli) (mcs : list MonitorConfig) (o : serviceOptions)
    (only : list string) : res error Playbook :=
  mcs ← mon_selected cli mcs o;
  let steps := if Contains only CLEAN_ITEM_CONTAINER then STOP_MONITOR_SERVICE :: MONITOR_CLEAN_STEPS
               else MONITOR_CLEAN_STEPS in
  Ok (mon_playbook (λ s, mkStep s (MonitorConfigs mcs) (list_to_map [(KEY_CLEAN_ITEMS, OStrings only)]) no_options) steps).
Definition mon_genStatusPlaybook (cli : DingoCli) (mcs : list MonitorConfig) (o : serviceOptions)
    : res error Playbook :=
  mcs ← mon_selected cli mcs o;
  Ok (mon_playbook (λ s, mkStep s (MonitorConfigs mcs) ∅
        (mkExecOptions 0 (bool_decide (s = INIT_MONITOR_STATUS)) true true)) MONITOR_STATUS_STEPS).
Definition mon_upgrade_opts : gmap string optval :=
  list_to_map [(KEY_CLEAN_ITEMS, OStrings [CLEAN_ITEM_CONTAINER]); (KEY_CLEAN_BY_RECYCLE, OBool true);
               (KEY_UPGRADE_FLAG, OBool true)].
Definition mon_genUpgradePlaybook (steps : list StepType) (mcs : list MonitorConfig) (useLocalImage : bool)
    : Playbook * list StepType :=
  let '(steps, v) := without_pull useLocalImage steps in
  (mon_playbook (λ s, mkStep s (MonitorConfigs mcs) mon_upgrade_opts no_options) steps, v).

(** The plans of the commands, on what the parsing of the configuration returned. *)
Definition mon_plan (parsed : res error (list MonitorConfig)) (gen : list MonitorConfig → res error Playbook)
    (force answer : bool) : res error Playbook :=
  mcs ← parsed; pb ← gen mcs; confirm force answer pb.
Definition mon_start_plan cli parsed (o : serviceOptions) answer :=
  mon_plan parsed (λ mcs, mon_genStartPlaybook cli mcs o) false answer.
Definition mon_stop_plan cli parsed (o : serviceOptions) answer :=
  mon_plan parsed (λ mcs, mon_genStopPlaybook cli mcs o) (s_force o) answer.
Definition mon_restart_plan cli parsed (o : serviceOptions) answer :=
  mon_plan parsed (λ mcs, mon_genRestartPlaybook cli mcs o) false answer.
Definition mon_reload_plan cli parsed (o : serviceOptions) answer :=
  mon_plan parsed (λ mcs, genReloadPlaybook cli mcs o) false answer.
Definition mon_clean_plan cli parsed (o : serviceOptions) only answer :=
  mon_plan parsed (λ mcs, mon_genCleanPlaybook cli mcs o only) (s_force o) answer.

(** [runDeploy] up to the playbook: the text of the file becomes the configuration of the
    cluster before anything is deployed. *)
Definition mon_deploy_plan (cli : DingoCli) (parsed : res error (list MonitorConfig)) (data : option string)
    (useLocalImage : bool) : M Playbook := λ d,
  match parsed, data with
  | Err e, _ => (Err e, d)
  | Panic, _ => (Panic, d)
  | Ok _, None => (Err (ECode ERR_READ_MONITOR_FILE_FAILED), d)
  | Ok mcs, Some data =>
      match as_code ERR_REPLACE_MONITOR_FAILED (ReplaceMonitor (mkMonitorRow (clusterId cli) data)) d with
      | (Ok _, d) => (Ok (mon_genDeployPlaybook MONITOR_DEPLOY_STEPS mcs useLocalImage).1, d)
      | (Err e, d) => (Err e, d)
      | (Panic, d) => (Panic, d)
      end
  end.

(** The address [displayStatus] shows for Grafana: the first service with its role. *)
Fixpoint grafana_address (mcs : list MonitorConfig) : res error string :=
  match mcs with
  | [] => Ok ""
  | mc :: l =>
      if decide (mc_role mc = ROLE_GRAFANA) then
        ip ← ctx_Lookup (mc_ctx mc) (mc_host mc); port ← mc_GetListenPort mc;
        Ok ("http://" +:+ ip +:+ ":" +:+ Itoa port)
      else grafana_address l
  end.
End commands.

(** ** Upgrading *)

Section run.
Context {W SSHConfig Client CC ANY : Type} (md5 : string → string).
Context (ssh : SSH W SSHConfig Client) (bar_id : nat → nat).
Context `{MapOrder} `{SliceSort}.
Context (mem_set : string → optval → W → W)
  (new_task : StepType → arg CC ANY → eff error W (option (Task W SSHConfig Client))).
Notation Run := (Run (CC := CC) (ANY := ANY) ssh bar_id mem_set new_task).

(** One service after the other, each once it is confirmed. *)
Inductive mon_upgrade_each (useLocalImage : bool)
    : list StepType → list MonitorConfig → list bool → W → W → outcome → Prop :=
| mon_each_nil v answers w : mon_upgrade_each useLocalImage v [] answers w w (Returned None)
| mon_each_cancel v mc l answers w :
    head answers ≠ Some true →
    mon_upgrade_each useLocalImage v (mc :: l) answers w w (Returned (Some (EOther (ECode ERR_CANCEL_OPERATION))))
| mon_each_stop v mc l answers w w' out :
    Run (mon_genUpgradePlaybook v [mc] useLocalImage).1 w w' out → out ≠ Returned None →
    mon_upgrade_each useLocalImage v (mc :: l) (true :: answers) w w' out
| mon_each_next v mc l answers w w1 w2 out :
    Run (mon_genUpgradePlaybook v [mc] useLocalImage).1 w w1 (Returned None) →
    mon_upgrade_each useLocalImage (mon_genUpgradePlaybook (CC := CC) (ANY := ANY) v [mc] useLocalImage).2
      l answers w1 w2 out →
    mon_upgrade_each useLocalImage v (mc :: l) (true :: answers) w w2 out.

Inductive mon_runUpgrade (cli : DingoCli) (parsed : res error (list MonitorConfig)) (o : serviceOptions)
    (useLocalImage : bool) (answers : list bool) (w : W) : W → outcome → Prop :=
| mon_upgrade_none out :
    of_res (mcs ← parsed; mon_selected md5 cli mcs o) = inl out →
    mon_runUpgrade cli parsed o useLocalImage answers w w out
| mon_upgrade_at_once l w' out :
    (mcs ← parsed; mon_selected md5 cli mcs o) = Ok l → s_force o = true →
    Run (mon_genUpgradePlaybook MONITOR_UPGRADE_STEPS l useLocalImage).1 w w' out →
    mon_runUpgrade cli parsed o useLocalImage answers w w' out
| mon_upgrade_one_by_one l w' out :
    (mcs ← parsed; mon_selected md5 cli mcs o) = Ok l → s_force o = false →
    mon_upgrade_each useLocalImage MONITOR_UPGRADE_STEPS l answers w w' out →
    mon_runUpgrade cli parsed o useLocalImage answers w w' out.
End run.

(** ** Committing a configuration (config/commit.go) *)

Record commitOptions : Type := mkCommitOptions { co_filename : string; co_slient : bool; co_force : bool }.

(** [errors.Is]: the errors of a comparison with nothing. *)
Definition mon_skipError (e : error) : bool :=
  bool_decide (e = ECode ERR_EMPTY_CLUSTER_TOPOLOGY ∨ e = ECode ERR_NO_SERVICES_IN_TOPOLOGY).
(** The differences are only shown. *)
Definition mon_checkDiff (diff : string → string → res error (list MonitorDiff)) (old data : string)
    : res error unit :=
  match diff old data with
  | Ok _ => Ok ()
  | Err e => if mon_skipError e then Ok () else Err e
  | Panic => Panic
  end.
Definition mon_checkMonitor (parse : string → res error (list MonitorConfig))
    (diff : string → string → res error (list MonitorDiff)) (old data : string) (o : commitOptions)
    : res error unit :=
  if co_force o then Ok () else
  _ ← parse (co_filename o);
  if decide (old = "") then Ok () else mon_checkDiff diff old data.
(** [file] is [None] for no such file, [Some None] for one that cannot be read. *)
Definition readMonitor (file : option (option string)) (o : commitOptions) : res error string :=
  if decide (co_filename o = "") then Ok "" else
  match file with
  | None => Err (ECode ERR_TOPOLOGY_FILE_NOT_FOUND)
  | Some None => Err (ECode ERR_READ_TOPOLOGY_FILE_FAILED)
  | Some (Some data) => Ok data
  end.
Definition mon_runCommit `{Driver} (cli : DingoCli) (parse : string → res error (list MonitorConfig))
    (diff : string → string → res error (list MonitorDiff)) (file : option (option string)) (old : string)
    (o : commitOptions) (answer : bool) : M unit := λ d,
  match (_ ← parse (co_filename o); data ← readMonitor file o;
         _ ← mon_checkMonitor parse diff old data o; Ok data) with
  | Err e => (Err e, d)
  | Panic => (Panic, d)
  | Ok data =>
      if negb (co_force o || answer) then (Err (ECode ERR_CANCEL_OPERATION), d)
      else ReplaceMonitor (mkMonitorRow (clusterId cli) data) d
  end.
