(* ===== verification/MonitorFacts.v ===== *)
(** What the tasks and the commands on the monitor services promise: the same contracts with
    the database and the container engine as the services of a cluster, the wait for
    Grafana, the plans and the commit of a configuration. *)

From S2P Require Import Prelude Errno GoLib Utils Storage StorageFacts CliConfig Hosts Cli Tasks Playbook PlaybookFacts Deploy ServiceCmd Shell Steps Vars DeployConfig Topology TopologyDiff ServiceEnv Services ServicesFacts ConfigSync Monitor Session MonitorTasks MonitorCmd.

Section tasks.
Context {W : Type} `{WorldLaws W} `{Driver} `{MapOrder}.
Context (os : OS) (parse_hosts : string → option Hosts_) (md5 : string → string).
Context (cli : DingoCli) (cfg : DingoCliConfig).
Notation Task := (Tasks.Task W SSHConfig SSHConfig).
Notation Step := (Tasks.Step (W := W) (Client := SSHConfig)).
Notation o := (cli_ExecOptions cfg).
Notation sid mc := (mon_serviceId md5 cli mc).

Definition mc_ssh (mc : MonitorConfig) : res error SSHConfig :=
  hc ← mon_hc os parse_hosts cli mc; host_ssh os cfg hc.
(** A task with these steps on the host of the service. *)
Definition mc_task_of (mc : MonitorConfig) (l : list Step) (t : Task) : Prop :=
  steps t = l ∧ postSteps t = [] ∧ ∃ c, mc_ssh mc = Ok c ∧ sshConfig t = Some c.

Lemma get_id_inv serviceId (w w' : W) c :
  db_ok (db w) → (r ← svc_GetContainerId serviceId; c ← pure_eff r; mret c) w = (w', Ok c) →
  untouched w w' ∧ c = container_id w serviceId.
Proof.
  intros Hd. unfold svc_GetContainerId. intros (w1 & r & (w2 & oc & Ho & Hr)%eff_bind_Ok & Hs)%eff_bind_Ok.
  apply container_of_inv in Ho as [Hu Ho]; [|done]. apply pair_eq in Hr as [<- [= <-]].
  apply eff_bind_Ok in Hs as (w3 & c' & Hc & Hs). apply pair_eq in Hs as [<- [= ->]]. apply pair_eq in Hc as [<- Hc].
  split; [done|]. unfold GetContainerId, container_id in *.
  destruct Ho as [[= ->]|[= ->]]; [|done]. case_decide; by simplify_eq.
Qed.

Lemma mon_find_inv skip mc (w w' : W) c :
  db_ok (db w) → mon_find md5 cli skip mc w = (w', Ok (Some c)) →
  untouched w w' ∧ c = container_id w (sid mc) ∧ mc_role mc ∉ skip.
Proof.
  intros Hd. unfold mon_find. intros (w1 & r & Hr & Hs)%eff_bind_Ok.
  unfold mon_IsSkip in Hs. case_bool_decide as Hk; [done|].
  apply eff_bind_Ok in Hs as (w2 & c' & Hc & Hs). apply pair_eq in Hs as [<- [= ->]]. apply pair_eq in Hc as [<- Hc].
  destruct (get_id_inv (sid mc) w w1 c Hd) as [Hu Hi]; [|done].
  unfold mbind, eff_bind. rewrite Hr. unfold pure_eff. by rewrite Hc.
Qed.

Lemma mc_task_added mc l name sub c (i : string) :
  mc_ssh mc = Ok c → mc_task_of mc l (add_steps l (NewTask i name sub (Some c))).
Proof.
  intros Hc. destruct (add_steps_inv l (NewTask i name sub (Some c))) as (E1 & E2 & E3).
  unfold mc_task_of. rewrite E1, E2, E3. eauto.
Qed.

Lemma mon_task_inv skip name mc f (w w' : W) t :
  db_ok (db w) → mon_task os parse_hosts md5 cli cfg skip name mc f w = (w', Ok (Some t)) →
  mc_role mc ∉ skip ∧ ∃ w1 l, untouched w w1 ∧ f (container_id w (sid mc)) w1 = (w', Ok l) ∧ mc_task_of mc l t.
Proof.
  intros Hd. unfold mon_task. intros (w1 & oc & Hf & Ht)%eff_bind_Ok.
  destruct oc as [c|]; [|done]. apply mon_find_inv in Hf as (Hu & -> & Hs); [|done]. split; [done|].
  apply eff_bind_Ok in Ht as (w2 & hc & [= <- Hhc] & Ht).
  apply eff_bind_Ok in Ht as (w3 & s & [= <- Hss] & Ht).
  apply eff_bind_Ok in Ht as (w4 & t0 & Hn & Ht). apply new_task_inv in Hn as [Hu1 [i ->]].
  apply eff_bind_Ok in Ht as (w5 & l & Hl & Ht). apply pair_eq in Ht as [<- [= <-]].
  exists w4, l. split; [by transitivity w1|]. split; [done|]. apply mc_task_added.
  unfold mc_ssh. by rewrite Hhc.
Qed.

Lemma mc_task_ran mc l (t : Task) c (w w' : W) r :
  mc_task_of mc l t → mc_ssh mc = Ok c → task_Execute task_ssh t w = (w', r) →
  (∃ e, r = Some (EOther e)) ∧ untouched w w' ∨
  ∃ reg w1 w2, untouched w w1 ∧ execute_steps (Some c) l NewRegister w1 = (reg, w2, r) ∧ untouched w2 w'.
Proof.
  intros (<- & Hp & c' & Hc' & Hs) Hc He. rewrite Hc' in Hc. injection Hc as ->.
  destruct (task_run t c w w' r Hp Hs He) as [(e & ? & ?)|?]; eauto.
Qed.

(** ** Starting *)

(** Starting or restarting a monitor service.  When the task reports success its container
    is running, unless there was none; the database is not written. *)
Theorem monitor_reaches_running new mc c (w w1 w2 : W) t :
  EngineLaws W (Some c) o → mc_ssh mc = Ok c →
  new = mon_NewStartServiceTask os parse_hosts md5 cli cfg ∨ new = mon_NewRestartServiceTask os parse_hosts md5 cli cfg →
  db_ok (db w) → new mc w = (w1, Ok (Some t)) → task_Execute task_ssh t w1 = (w2, None) →
  mc_role mc ≠ ROLE_MONITOR_CONF ∧ services w2 = services w ∧
  reached_running (Some c) (container_id w (sid mc)) w w2.
Proof.
  intros HL Hc Hnew Hd Hn He. set (id := container_id w (sid mc)).
  assert (mc_role mc ∉ [ROLE_MONITOR_CONF] ∧ untouched w w1 ∧ ∃ ec s, mc_task_of mc (exist_steps cfg id ++
    [docker_step None None ec o s; WaitContainerStart 3; Step2CheckPostStart cfg id "success"]) t)
    as (Hr & Hu & ec & s & Ht).
  { destruct Hnew as [-> | ->]; apply mon_task_inv in Hn as (Hr & w3 & l & Hu & [= <- <-] & Ht); try done;
      (split; [done|]); (split; [done|]); eexists _, _; exact Ht. }
  split; [set_solver|].
  destruct (mc_task_ran mc _ t c w1 w2 None Ht Hc He) as [[[e ?] _]|(reg & w3 & w4 & Hu1 & Hs & Hu2)]; [done|].
  pose proof (keeps_steps db (Some c) _ NewRegister w3 (started_keeps cfg id ec s)) as Hdb.
  rewrite Hs in Hdb. simpl in Hdb. apply untouched_of_db in Hdb as [_ Hsv].
  apply (run_checked (Some c) cfg) in Hs.
  destruct Hu as (_ & Hu & Hk & _), Hu1 as (_ & Hu1 & Hk1 & _), Hu2 as (_ & Hu2 & Hk2 & _).
  split; [congruence|]. unfold reached_running. rewrite Hk2.
  rewrite Hk1, Hk in Hs. destruct Hs as [[Hs1 Hs2]|Hs]; [left|by right]. split; [done|]. by rewrite Hs2.
Qed.

(** ** Creating *)

(** Creating the container of a monitor service.  When the task reports success, either the
    database had a container for it and nothing was changed, or a container of the image,
    the arguments, the directories and the environment of its role was made and recorded. *)
Theorem monitor_created mc c (w w1 w2 : W) t r :
  db_ok (db w) → mc_ssh mc = Ok c →
  mon_NewCreateContainerTask os parse_hosts md5 cli cfg mc w = (w1, Ok (Some t)) →
  task_Execute task_ssh t w1 = (w2, r) →
  db_ok (db w2) ∧
  match r with
  | None => has_container (recorded w (sid mc)) ∧ services w2 = services w ∨
            ¬ has_container (recorded w (sid mc)) ∧
            ∃ n cc wa wb out, mon_container md5 cli cfg mc = Ok cc ∧
              docker_Execute (Some c) (create_shell cc) o wa = (wb, (out, None)) ∧
              services w2 = <[sid mc := (n, last_line (TrimNewlines out))]> (services w) ∧
              ∀ cl, containers cl w2 = containers cl wb
  | Some _ => services w2 = services w
  end.
Proof.
  intros Hd Hc Hn He. unfold mon_NewCreateContainerTask in Hn.
  apply eff_bind_Ok in Hn as (w3 & hc & [= <- Hhc] & Hn).
  apply eff_bind_Ok in Hn as (w3 & s & [= <- Hs] & Hn).
  apply eff_bind_Ok in Hn as (w3 & t0 & Ht0 & Hn). apply new_task_inv in Ht0 as [Hu [i ->]].
  apply eff_bind_Ok in Hn as (w4 & paths & [= <- Hp] & Hn).
  apply eff_bind_Ok in Hn as (w4 & cc & [= <- Hcc] & Hn). apply pair_eq in Hn as [<- Ht].
  assert (mc_ssh mc = Ok s) as Hss by (unfold mc_ssh; by rewrite Hhc).
  set (ls := create_steps _ _ _ _ _) in Ht. set (t0 := NewTask _ _ _ _) in Ht.
  assert (t = add_steps ls t0) as -> by congruence.
  destruct (mc_task_ran mc ls _ c w3 w2 r (mc_task_added mc ls _ _ s i Hss) Hc He)
    as [[[e ->] Hu1]|(reg & w5 & w4 & Hu1 & Hx & Hu2)].
  { split; [by apply Hu1, Hu|]. destruct Hu as (_ & <- & _), Hu1 as (_ & <- & _). done. }
  apply create_run in Hx as [Hd4 Hx]; [|by apply Hu1, Hu]. split; [by apply Hu2|].
  destruct Hu as (_ & Hu & _), Hu1 as (_ & Hu1 & _), Hu2 as (_ & Hu2 & Hk2 & _).
  unfold create_skipped, create_done in Hx.
  assert (recorded w5 (sid mc) = recorded w (sid mc)) as Hrec by (unfold recorded; by rewrite Hu1, Hu).
  rewrite Hrec in Hx.
  destruct Hx as [(-> & Hh & Hw)|[(-> & Hh & n & wa & wb & out & Hx & Hsv & Hcont)|[[e ->] Hsv]]].
  - left. split; [done|]. rewrite Hu2, Hw, services_tick. congruence.
  - right. split; [done|]. exists n, cc, wa, wb, out. split_and!; [done..|congruence|]. intros cl. by rewrite Hk2.
  - congruence.
Qed.

(** ** Cleaning *)

(** Cleaning a monitor service: when the task reports success and the containers are among
    the items, the database has forgotten its container; otherwise it is as it was. *)
Theorem monitor_cleaned mc c only (w w1 w2 : W) t r :
  db_ok (db w) → mc_ssh mc = Ok c → mem w !! KEY_CLEAN_ITEMS = Some (OStrings only) →
  has_container (container_id w (sid mc)) →
  NewCleanMonitorTask os parse_hosts md5 cli cfg mc w = (w1, Ok (Some t)) → task_Execute task_ssh t w1 = (w2, r) →
  services w2 =
    match r with
    | None => if in_map (Slice2Map only) CLEAN_ITEM_CONTAINER
              then alter (λ p, (p.1, CLEANED_CONTAINER_ID)) (sid mc) (services w) else services w
    | Some _ => services w
    end.
Proof.
  intros Hd Hc Hm Hh Hn He. unfold NewCleanMonitorTask in Hn.
  apply eff_bind_Ok in Hn as (w3 & rr & Hr & Hn).
  apply eff_bind_Ok in Hn as (w4 & id & [= <- Hid] & Hn).
  destruct (get_id_inv (sid mc) w w3 id Hd) as [Hu ->].
  { unfold mbind, eff_bind. rewrite Hr. unfold pure_eff. by rewrite Hid. }
  rewrite decide_False in Hn by (destruct Hh as [Hh1 Hh2]; intros [_ [E|E]]; congruence).
  apply eff_bind_Ok in Hn as (w4 & hc & [= <- Hhc] & Hn).
  apply eff_bind_Ok in Hn as (w4 & l & Hl & Hn). unfold clean_option in Hl.
  rewrite (proj1 (proj2 (proj2 (proj2 Hu)))), Hm in Hl. apply pair_eq in Hl as [<- [= <-]].
  apply eff_bind_Ok in Hn as (w4 & s & [= <- Hs] & Hn).
  apply eff_bind_Ok in Hn as (w4 & t0 & Ht0 & Hn). apply new_task_inv in Ht0 as [Hu0 [i ->]].
  apply eff_bind_Ok in Hn as (w5 & files & [= <- _] & Hn). apply pair_eq in Hn as [<- Ht].
  assert (mc_ssh mc = Ok s) as Hss by (unfold mc_ssh; by rewrite Hhc).
  set (ls := clean_steps cfg (sid mc) (container_id w (sid mc)) (Slice2Map only) files) in *.
  set (t0 := NewTask _ _ _ _) in Ht. assert (t = add_steps ls t0) as -> by congruence.
  destruct (mc_task_ran mc ls _ c w4 w2 r (mc_task_added mc ls _ _ s i Hss) Hc He)
    as [[[e ->] Hu1]|(reg & w5 & w6 & Hu1 & Hx & Hu2)].
  - destruct Hu as (_ & Hu & _), Hu0 as (_ & Hu0 & _), Hu1 as (_ & Hu1 & _). congruence.
  - apply clean_run in Hx; [|by apply Hu1, Hu0, Hu|done].
    destruct Hu as (_ & Hu & _), Hu0 as (_ & Hu0 & _), Hu1 as (_ & Hu1 & _), Hu2 as (_ & Hu2 & _).
    rewrite Hu2. destruct r; [congruence|]. by rewrite Hx, Hu1, Hu0, Hu.
Qed.
End tasks.

(** ** Waiting for Grafana *)

Section grafana.
Context {W : Type} `{World W} (cfg : DingoCliConfig) (datasources : string → option (list (gmap string val))).
Context (cl : option SSHConfig) (port : Z).

(** So many questions in a row without a list of data sources, three seconds apart. *)
Inductive silent_tries : nat → Tasks.Register → W → Tasks.Register → W → Prop :=
| silent_0 reg w : silent_tries 0 reg w reg w
| silent_S n reg w reg1 w1 e reg2 w2 :
    fetch_info cfg port cl reg w = (reg1, w1, e) →
    (answered datasources (str_var reg1 "prometheusInfo") = None ∨
     answered datasources (str_var reg1 "prometheusInfo") = Some []) →
    silent_tries n reg1 (Sleep 3 w1) reg2 w2 → silent_tries (S n) reg w reg2 w2.

(** The wait for Grafana ends: with the first answer that names a data source, whose
    identifier is then put into the dashboard, and without one as an error after the last
    try. *)
Theorem fetch_uid_ends n mc p reg w reg' w' r :
  mc_GetProvisionDir mc = Ok p → fetch_uid cfg datasources n mc port cl reg w = (reg', w', r) →
  (r = Some (EOther (EText "failed to fetch prometheus info")) ∧ silent_tries n reg w reg' w') ∨
  (r = None ∧ ∃ k reg1 w1 reg2 w2 e d l, k < n ∧ silent_tries k reg w reg1 w1 ∧
     fetch_info cfg port cl reg1 w1 = (reg2, w2, e) ∧
     answered datasources (str_var reg2 "prometheusInfo") = Some (d :: l) ∧
     replace_uid cfg mc (map_get d "uid") cl reg2 w2 = (reg', w', None)).
Proof.
  intros Hp. revert reg w; induction n as [|n IH]; intros reg w; simpl.
  { intros [= <- <- <-]. left. split; [done|constructor]. }
  destruct (fetch_info cfg port cl reg w) as [[reg1 w1] e] eqn:Hf.
  destruct (answered datasources (str_var reg1 "prometheusInfo")) as [[|d l]|] eqn:Ha.
  2: { intros Hr. right. assert (r = None) as ->.
       { unfold replace_uid, combineSedCMD in Hr. rewrite Hp in Hr. simpl in Hr.
         destruct (map_get d "uid"); simpl in Hr; try (by simplify_eq).
         destruct (Command_ _ _ _ _ cl reg1 w1) as [[? ?] ?]. by simplify_eq. }
       split; [done|]. exists 0, reg, w, reg1, w1, e, d, l. split_and!; [lia|constructor|done..]. }
  all: intros [[-> Hs]|(-> & k & r1 & v1 & r2 & v2 & e2 & d & l & Hk & Hs & Hx & Hl & Hr)]%IH;
    [left; split; [done|]; econstructor; eauto
    |right; split; [done|]; exists (S k), r1, v1, r2, v2, e2, d, l; split_and!; [lia|econstructor; eauto|done..]].
Qed.
End grafana.

(** ** Plans *)

Section plans.
Context `{Driver} (md5 : string → string) {CC ANY : Type} (cli : DingoCli).
Notation Playbook := (Playbook (CC := CC) (ANY := ANY) (OPT := optval)).

Lemma mon_playbook_steps (f : StepType → PlaybookStep (CC := CC) (ANY := ANY) (OPT := optval)) steps :
  pb_steps (mon_playbook f steps) = f <$> steps.
Proof. unfold mon_playbook. by rewrite add_steps_fold. Qed.

Lemma mon_selected_Ok mcs o l :
  mon_selected md5 cli mcs o = Ok l →
  l = FilterMonitorConfig md5 cli mcs (mkFilterMonitor (s_id o) (s_role o) (s_host o)) ∧ l ≠ [].
Proof.
  unfold mon_selected. case_decide as Hd; [done|]. intros [= <-]. split; [done|]. intros Hn. by rewrite Hn in Hd.
Qed.

(** The step types and the services of a playbook. *)
Definition plan_of (pb : Playbook) (types : list StepType) (l : list MonitorConfig) : Prop :=
  Type_ <$> pb_steps pb = types ∧ ∀ s, s ∈ pb_steps pb → Configs s = MonitorConfigs l.
Lemma mon_plan_of (f : StepType → PlaybookStep) steps l :
  (∀ s, Type_ (f s) = s) → (∀ s, Configs (f s) = MonitorConfigs l) → plan_of (mon_playbook f steps) steps l.
Proof.
  intros Ht Hc. unfold plan_of. rewrite mon_playbook_steps. split.
  - rewrite <-list_fmap_compose. rewrite <-(list_fmap_id steps) at 2. by apply list_fmap_ext; intros; simpl.
  - by intros s (t & -> & _)%list_elem_of_fmap.
Qed.

Lemma confirm_Ok force answer (pb pb' : Playbook) :
  confirm force answer pb = Ok pb' → pb' = pb ∧ (force = true ∨ answer = true).
Proof. unfold confirm. destruct force, answer; simpl; intros; simplify_eq; eauto. Qed.

(** The commands that work on monitor services select some of them, ask unless they are
    forced, and run their steps on the selected ones. *)
Theorem monitor_plans parsed o only answer pb types force :
     ((mon_start_plan md5 cli parsed o answer = Ok pb ∧ types = [START_MONITOR_SERVICE] ∧ force = false) ∨
     (mon_stop_plan md5 cli parsed o answer = Ok pb ∧ types = [STOP_MONITOR_SERVICE] ∧ force = s_force o) ∨
     (mon_restart_plan md5 cli parsed o answer = Ok pb ∧ types = [RESTART_MONITOR_SERVICE] ∧ force = false) ∨
     (mon_reload_plan md5 cli parsed o answer = Ok pb ∧ types = MONITOR_RELOAD_STEPS ∧ force = false) ∨
     (mon_clean_plan md5 cli parsed o only answer = Ok pb ∧ force = s_force o ∧
      types = (if Contains only CLEAN_ITEM_CONTAINER then [STOP_MONITOR_SERVICE] else []) ++ [CLEAN_MONITOR_SERVICE])) →
  ∃ mcs l, parsed = Ok mcs ∧ l ≠ [] ∧
    l = FilterMonitorConfig md5 cli mcs (mkFilterMonitor (s_id o) (s_role o) (s_host o)) ∧
    plan_of pb types l ∧ (force = true ∨ answer = true).
Proof.
  intros Hp.
  assert (∃ mcs l, parsed = Ok mcs ∧ mon_selected md5 cli mcs o = Ok l ∧ plan_of pb types l ∧
    (force = true ∨ answer = true)) as (mcs & l & -> & Hl & Ht).
  { destruct Hp as [(Hp & -> & ->)|[(Hp & -> & ->)|[(Hp & -> & ->)|[(Hp & -> & ->)|(Hp & -> & ->)]]]];
      apply bind_Ok in Hp as (mcs & -> & (pb' & (l & Hl & [= <-])%bind_Ok & [-> Hf]%confirm_Ok)%bind_Ok);
      exists mcs, l; (split; [done|]); (split; [done|]); (split; [|done]); [by apply mon_plan_of..|].
    case_match; by apply mon_plan_of. }
  apply mon_selected_Ok in Hl as [Hl Hne]. exists mcs, l. eauto.
Qed.

(** Deploying writes the text of the file into the database first, as the configuration of
    the cluster, whatever becomes of the playbook. *)
Theorem monitor_deploy_stores parsed data local (d d' : DB) r :
  db_ok d → mon_deploy_plan (CC := CC) (ANY := ANY) cli parsed data local d = (r, d') →
  db_ok d' ∧
  match r with
  | Ok pb => ∃ mcs text, parsed = Ok mcs ∧ data = Some text ∧
      plan_of pb (if local then tail MONITOR_DEPLOY_STEPS else MONITOR_DEPLOY_STEPS) mcs ∧
      sp_monitors (abs d') = <[clusterId cli := text]> (sp_monitors (abs d))
  | _ => abs d' = abs d
  end.
Proof.
  intros Hd. unfold mon_deploy_plan. destruct parsed as [mcs|e|]; [|by intros [= <- <-]..].
  destruct data as [text|]; [|by intros [= <- <-]].
  destruct (unit_run (OReplaceMonitor (mkMonitorRow (clusterId cli) text)) (ReplaceMonitor (mkMonitorRow (clusterId cli) text))
    d eq_refl Hd) as [Hok Hr].
  unfold as_code. destruct (ReplaceMonitor _ d) as [[[]|e|] d1]; cbn [fst snd] in *; [|by intros [= <- <-]|done].
  intros [= <- <-]. split; [done|]. exists mcs, text. split_and!; [done..| |by destruct Hr as [_ Hr]; rewrite Hr].
  unfold mon_genDeployPlaybook. destruct local; by apply mon_plan_of.
Qed.
End plans.

(** Upgrading one by one with local images: the pull is removed from the shared list of
    steps, whose last step then stands there twice.  From the second service on the hosts
    are appended to the file of the container a second time. *)
Theorem second_monitor_upgrade {CC ANY : Type} mc1 mc2 :
  let '(pb1, v) := mon_genUpgradePlaybook (CC := CC) (ANY := ANY) MONITOR_UPGRADE_STEPS [mc1] true in
  Type_ <$> pb_steps pb1 = [STOP_MONITOR_SERVICE; CLEAN_MONITOR_SERVICE; CREATE_MONITOR_CONTAINER;
                            START_MONITOR_SERVICE; SYNC_HOSTS_MAPPING] ∧
  Type_ <$> pb_steps (mon_genUpgradePlaybook (CC := CC) (ANY := ANY) v [mc2] true).1 =
    [STOP_MONITOR_SERVICE; CLEAN_MONITOR_SERVICE; CREATE_MONITOR_CONTAINER;
     START_MONITOR_SERVICE; SYNC_HOSTS_MAPPING; SYNC_HOSTS_MAPPING].
Proof. by split. Qed.

(** Committing a configuration.  When it succeeds, the user has confirmed or forced it, the
    file was parsed and its text is the configuration of the cluster; when it does not, the
    database is as it was. *)
Theorem monitor_commit `{Driver} cli parse diff file old o answer (d d' : DB) r :
  db_ok d → mon_runCommit cli parse diff file old o answer d = (r, d') →
  db_ok d' ∧
  match r with
  | Ok _ => (co_force o = true ∨ answer = true) ∧ is_Ok (parse (co_filename o)) ∧
      ∃ data, readMonitor file o = Ok data ∧ sp_monitors (abs d') = <[clusterId cli := data]> (sp_monitors (abs d))
  | _ => abs d' = abs d
  end.
Proof.
  intros Hd. unfold mon_runCommit.
  destruct (_ ← parse _; _) as [data|e|] eqn:Hp; [|by intros [= <- <-]..].
  destruct (co_force o || answer) eqn:Hc; simpl; [|by intros [= <- <-]].
  apply bind_Ok in Hp as (mcs & Hm & (data' & Hr & (_ & _ & [= ->])%bind_Ok)%bind_Ok).
  destruct (unit_run (OReplaceMonitor (mkMonitorRow (clusterId cli) data)) (ReplaceMonitor (mkMonitorRow (clusterId cli) data))
    d eq_refl Hd) as [Hok Hs]. intros He. rewrite He in Hok, Hs. cbn [fst snd] in *. split; [done|].
  destruct r as [[]|e|]; [|done..]. apply orb_true_iff in Hc. split; [done|]. split; [by rewrite Hm|].
  exists data. destruct Hs as [_ Hs]. split; [done|]. exact (f_equal sp_monitors Hs).
Qed.
