(* ===== verification/TextTable.v ===== *)
(** Tables and prompts of the terminal (src/internal/tui: common/tui.go, common/prompt.go,
    hosts.go, audit.go, clusters.go): cells, columns that are cut, padding,
    and the texts the user confirms.  Colours are those of a library: parameters. *)

From S2P Require Import Prelude Errno GoLib Utils Storage CliConfig Hosts Cli Shell.

Definition eol : string := bytes [10].

(** ** Cells *)

(** A text, or a text with the function that decorates it. *)
Inductive cell : Type :=
| Text (s : string)
| DecorateMessage (Message : string) (Decorate : string → string).
Definition originMessage (c : cell) : string := match c with Text s => s | DecorateMessage m _ => m end.
Definition realMessage (c : cell) : string := match c with Text s => s | DecorateMessage m f => f m end.

Definition getLength (lines : list (list cell)) : nat * nat :=
  match lines with [] => (0, 0) | l :: _ => (length lines, length l) end.
(** [lines[i][j]]. *)
Definition cell_at (line : list cell) (j : nat) : res error cell :=
  match line !! j with Some c => Ok c | None => Panic end.
Definition column_width (lines : list (list cell)) (j : nat) : res error nat :=
  fold_res (λ maxLen line, c ← cell_at line j;
    Ok (if decide (maxLen < String.length (originMessage c)) then String.length (originMessage c) else maxLen)) lines 0.
Definition fixedLength (lines : list (list cell)) : res error (list nat) :=
  map_res (column_width lines) (seq 0 (getLength lines).2).

(** [strings.Repeat] panics on a negative count. *)
Definition padding (width : nat) (c : cell) : res error string :=
  if decide (width < String.length (originMessage c)) then Panic
  else Ok (repeat_string (width - String.length (originMessage c)) " ").
Definition put_cell (spacing : string) (line : list cell) (st : string * bool) (jw : nat * nat)
    : res error (string * bool) :=
  let '(output, first) := st in let '(j, width) := jw in
  if decide (width = 0) then Ok (output, first) else
  c ← cell_at line j;
  p ← padding width c;
  Ok ((if first : bool then output else output +:+ spacing) +:+ realMessage c +:+ p, false).
Definition put_line (spacing : string) (fixed : list nat) (output : string) (line : list cell) : res error string :=
  '(output, _) ← fold_res (put_cell spacing line) (imap pair fixed) (output, true);
  Ok (output +:+ eol).
Definition FixedFormat (lines : list (list cell)) (nspace : nat) : res error string :=
  let spacing := repeat_string nspace " " in
  fixed ← fixedLength lines;
  fold_res (put_line spacing fixed) lines "".

Definition FormatTitle (title : list string) : list cell * list cell :=
  (Text <$> title, (λ item, Text (repeat_string (String.length item) "-")) <$> title).
Definition CutColumn (lines : list (list cell)) (column : nat) : res error (list (list cell)) :=
  map_res (λ line, if decide (column < length line) then Ok (<[column := Text ""]> line) else Panic) lines.
Definition TrimPluginDescription (d : string) : string :=
  if decide (50 < String.length d) then String.substring 0 47 d +:+ "..." else d.

(** ** Confirming *)

(** The line the user typed, [None] when reading fails. *)
Definition prompt_answer (input : option string) : string :=
  match input with None => "" | Some s => TrimSuffix s eol end.
Definition ConfirmYes (input : option string) : bool := bool_decide (TrimSpace (prompt_answer input) = "yes").

(** ** The tables of hosts, audit logs and clusters *)

Definition FIELD_LIMIT_LENGTH : nat := 30.
Definition HOSTS_TITLE : list string :=
  ["Host"; "Hostname"; "User"; "Port"; "Private Key File"; "Forward Agent"; "Become User"; "Labels"; "Envs"].
Definition or_dash (s : string) : string := if decide (s = "") then "-" else s.
Definition joined (l : list string) : string := match l with [] => "-" | _ => Join l "," end.

Section tables.
Context (os : OS).

Definition shown_key (verbose : bool) (key : string) : string :=
  if decide (key = "") then "-"
  else if decide (verbose = false ∧ FIELD_LIMIT_LENGTH < String.length key)
  then String.substring 0 FIELD_LIMIT_LENGTH key +:+ "..." else key.
Definition host_line (verbose : bool) (hc : HostConfig) : res error (list cell) :=
  host ← Hosts.GetHost hc; hostname ← Hosts.GetHostname hc; user ← Hosts.GetUser os hc; port ← GetSSHPort hc;
  agent ← GetForwardAgent hc; become ← GetBecomeUser hc; labels ← Hosts.GetLabels hc;
  key ← GetPrivateKeyFile os hc;
  Ok (Text <$> [host; hostname; user; Itoa port; shown_key verbose key; Choose agent "Y" "N"; or_dash become;
                joined labels; joined (Hosts.GetEnvs hc)]).
Definition FormatHosts (hcs : list HostConfig) (verbose : bool) : res error string :=
  let '(first, second) := FormatTitle HOSTS_TITLE in
  l ← map_res (host_line verbose) hcs;
  FixedFormat (first :: second :: l) 2.

(** Colours, and the layout of a time. *)
Context (WhiteString GreenString RedString YellowString BlueString : string → string) (Format : string → string).

Definition code2str (status : Z) : string :=
  if decide (status = AUDIT_STATUS_ABORT) then "ABORT" else if decide (status = AUDIT_STATUS_SUCCESS) then "SUCCESS"
  else if decide (status = AUDIT_STATUS_FAIL) then "FAIL" else if decide (status = AUDIT_STATUS_CANCEL) then "CANCEL"
  else "UNKNOWN".
Definition audit_decorate (message : string) : string :=
  if decide (message = "ABORT") then WhiteString message else if decide (message = "SUCCESS") then GreenString message
  else if decide (message = "FAIL") then RedString message else if decide (message = "CANCEL") then YellowString message
  else message.
Definition AUDIT_TITLE (verbose : bool) : list string :=
  ["Id"; "Status"; "Execute Time"; "Command"] ++ (if verbose then ["Work Directory"; "Error Code"] else []).
Definition audit_line (verbose : bool) (a : AuditLog) : list cell :=
  [Text (Itoa (a_Id a)); DecorateMessage (code2str (a_Status a)) audit_decorate; Text (Format (a_ExecuteTime a));
   Text (a_Command a)] ++
  (if verbose then [Text (a_WorkDirectory a); Text (Itoa (a_ErrorCode a))] else []).
Definition FormatAuditLogs (l : list AuditLog) (verbose : bool) : res error string :=
  let '(first, second) := FormatTitle (AUDIT_TITLE verbose) in
  FixedFormat (first :: second :: (audit_line verbose <$> l)) 2.

Definition CLUSTERS_TITLE : list string := [" "; "Cluster"; "Id"; "UUId"; "Create Time"; "Description"].
Definition cluster_line (verbose : bool) (c : Cluster) : list cell :=
  (if c_Current c then [DecorateMessage "*" GreenString; DecorateMessage (c_Name c) GreenString]
   else [Text " "; Text (c_Name c)]) ++
  (if verbose then Text <$> [Itoa (c_Id c); c_UUId c; Format (c_CreateTime c); c_Description c] else []).
(** The first cell below the title is emptied. *)
Definition FormatClusters (l : list Cluster) (verbose : bool) : res error string :=
  let '(first, second) := FormatTitle CLUSTERS_TITLE in
  let lines := cluster_line verbose <$> l in
  if verbose then FixedFormat (first :: <[0 := Text ""]> second :: lines) 2 else FixedFormat lines 1.
End tables.

(** ** Prompts (prompt.go) *)

Definition PROMPT_WARNING : string := "{{.warning}}" +:+ eol.
Definition PROMPT_COMMON_WARNING : string :=
  "{{.warning}} " +:+ eol +:+
  "  - Service id: {{.id}} (" +:+ bytes [34] +:+ "*" +:+ bytes [34] +:+ " means all id)" +:+ eol +:+
  "  - Service role: {{.role}} (" +:+ bytes [34] +:+ "*" +:+ bytes [34] +:+ " means all roles)" +:+ eol +:+
  "  - Service host: {{.host}} (" +:+ bytes [34] +:+ "*" +:+ bytes [34] +:+ " means all hosts)" +:+ eol.
Definition PROMPT_CLEAN_SERVICE : string :=
  "{{.warning}}" +:+ eol +:+
  "  - Service role: {{.role}} (" +:+ bytes [34] +:+ "*" +:+ bytes [34] +:+ " means all roles)" +:+ eol +:+
  "  - Service host: {{.host}} (" +:+ bytes [34] +:+ "*" +:+ bytes [34] +:+ " means all hosts)" +:+ eol +:+
  "  - Clean items : [{{.items}}]" +:+ eol.
Definition PROMPT_TOPOLOGY_CHANGE_NOTICE : string :=
  eol +:+ "NOTICE: If you have modified the configuration of some services while " +:+ eol +:+
  "{{.operation}} and you want make these configurations effect, you " +:+ eol +:+
  "should reload the corresponding services after the {{.operation}} success." +:+ eol.
Definition PROMPT_CANCEL_OPERATION : string := "[x] {{.operation}} canceled".
Definition PROMPT_FORCE_OPERATION : string := "[!] {{.operation}} will be forced".
Definition DEFAULT_CONFIRM_PROMPT : string := "Do you want to continue?".

Section prompts.
Context (YellowString MagentaString : string → string).

(** [NewPrompt] and [Build]. *)
Definition Prompt_Build (text : string) (data : list (string * string)) : string := render text (list_to_map data).
Definition warned (text : string) : string := YellowString text +:+ DEFAULT_CONFIRM_PROMPT.

Definition PromptRemoveCluster (clusterName : string) : string :=
  Prompt_Build (warned PROMPT_WARNING)
    [("warning", "WARNING: cluster '" +:+ clusterName +:+ "' will be removed," +:+ eol
                 +:+ "and all data in it will be cleaned up")].
Definition PromptRenameCluster (clusterOldName clusterNewName : string) : string :=
  Prompt_Build (warned PROMPT_WARNING)
    [("warning", "WARNING: cluster '" +:+ clusterOldName +:+ "' will be renamed to '" +:+ clusterNewName +:+ "'")].
Definition PromptScaleOut : string :=
  Prompt_Build (warned PROMPT_TOPOLOGY_CHANGE_NOTICE) [("operation", "scale out cluster")].
Definition PromptMigrate : string :=
  Prompt_Build (warned PROMPT_TOPOLOGY_CHANGE_NOTICE) [("operation", "migrate services")].
Definition common_prompt (warning id role host : string) : string :=
  Prompt_Build (warned PROMPT_COMMON_WARNING) [("warning", warning); ("id", id); ("role", role); ("host", host)].
Definition PromptStartService := common_prompt "WARNING: service items which matched will start".
Definition PromptStopService := common_prompt "WARNING: stop service may cause client IO be hang".
Definition PromptRestartService := common_prompt "WARNING: service items which matched will restart".
Definition PromptUpgradeService := common_prompt "WARNING: service items which matched will upgrade".
Definition PromptReloadService := common_prompt "WARNING: service items which matched will reload".
Definition PromptCleanService (role host : string) (items : list string) : string :=
  Prompt_Build (warned PROMPT_CLEAN_SERVICE)
    [("warning", "WARNING: service items which matched will be cleaned up"); ("role", role); ("host", host);
     ("items", Join items ",")].
Definition PromptForceOpetation (operation : string) : string :=
  Prompt_Build (YellowString PROMPT_FORCE_OPERATION) [("operation", operation)].
Definition PromptCancelOpetation (operation : string) : string :=
  Prompt_Build (YellowString PROMPT_CANCEL_OPERATION) [("operation", operation)].
Definition PROMPT_AUTO_UPGRADE : string :=
  Join [MagentaString "dingocli {{.version}} released, we recommend you to upgrade it.";
        "Upgrade dingocli to {{.version}}?"] eol.
Definition PromptAutoUpgrade (version : string) : string := Prompt_Build PROMPT_AUTO_UPGRADE [("version", version)].
End prompts.

(** The loop looks at the last item before it looks whether there is one. *)
Fixpoint drop_empty (rev_items : list string) : res error (list string) :=
  match rev_items with
  | [] => Panic (* index out of range *)
  | item :: l => if decide (item ≠ "") then Ok (item :: l) else drop_empty l
  end.
Definition prettyClue (clue : string) : res error string :=
  items ← drop_empty (reverse (Split clue (byte 10)));
  Ok (Join (reverse items) (eol +:+ repeat_string 12 " ")).

(** ** What a table looks like *)

Definition width (lines : list (list cell)) (j : nat) : nat :=
  foldl (λ m line, m `max` from_option (λ c, String.length (originMessage c)) 0 (line !! j)) 0 lines.
Definition widths (lines : list (list cell)) : list nat := width lines <$> seq 0 (getLength lines).2.
Definition padded (w : nat) (c : cell) : string :=
  realMessage c +:+ repeat_string (w - String.length (originMessage c)) " ".
(** The padded cells of a line, without those of the columns that are empty everywhere. *)
Definition shown_cells (ws : list nat) (line : list cell) : list string :=
  (λ '(w, c), padded w c) <$> filter (λ wc, wc.1 ≠ 0) (zip ws line).
Definition table_text (lines : list (list cell)) (nspace : nat) : string :=
  foldr (λ line s, (Join (shown_cells (widths lines) line) (repeat_string nspace " ") +:+ eol) +:+ s) "" lines.

Lemma width_snoc lines line j :
  width (lines ++ [line]) j = width lines j `max` from_option (λ c, String.length (originMessage c)) 0 (line !! j).
Proof. unfold width. by rewrite foldl_snoc. Qed.

Lemma column_width_Ok lines j : Forall (λ l, j < length l) lines → column_width lines j = Ok (width lines j).
Proof.
  intros Hl. induction lines as [|line lines IH] using rev_ind; [done|].
  apply Forall_app in Hl as [Hl [Hj _]%Forall_cons]. unfold column_width in *. rewrite fold_res_app, IH by done. simpl.
  unfold cell_at. apply lookup_lt_is_Some in Hj as [c Hc]. rewrite Hc, width_snoc, Hc. simpl. f_equal. case_decide; lia.
Qed.

Lemma fixedLength_Ok lines :
  Forall (λ l, (getLength lines).2 ≤ length l) lines → fixedLength lines = Ok (widths lines).
Proof.
  intros Hl. apply map_res_pure. intros j [_ Hj]%elem_of_seq. apply column_width_Ok.
  eapply Forall_impl; [done|]. simpl. lia.
Qed.

Lemma width_bound lines line j c : line ∈ lines → line !! j = Some c → String.length (originMessage c) ≤ width lines j.
Proof.
  intros Hin Hc. induction lines as [|l lines IH] using rev_ind; [by apply elem_of_nil in Hin|].
  rewrite width_snoc. apply elem_of_app in Hin as [Hin|<-%list_elem_of_singleton]; [specialize (IH Hin); lia|].
  rewrite Hc. simpl. lia.
Qed.

(** What follows the first cell of a line. *)
Definition tail_text (spacing : string) (l : list string) : string := foldr (λ c s, spacing +:+ c +:+ s) "" l.
Lemma Join_tail x l sep : Join (x :: l) sep = x +:+ tail_text sep l.
Proof.
  revert x; induction l as [|y l IH]; intros x; [by rewrite app_nil_r_string|].
  change (Join (x :: y :: l) sep) with (x +:+ sep +:+ Join (y :: l) sep). by rewrite IH.
Qed.
Definition line_text (first : bool) (spacing : string) (l : list string) : string :=
  if first then Join l spacing else tail_text spacing l.

Lemma put_hidden spacing line st k : put_cell spacing line st (k, 0) = Ok st.
Proof. by destruct st. Qed.
Lemma put_shown spacing line output first k w c :
  w ≠ 0 → line !! k = Some c → String.length (originMessage c) ≤ w →
  put_cell spacing line (output, first) (k, w) =
    Ok ((if first : bool then output else output +:+ spacing) +:+ padded w c, false).
Proof.
  intros H0 Hc Hw. unfold put_cell, cell_at, padding. rewrite decide_False, Hc by done. simpl.
  by rewrite decide_False by lia.
Qed.

Lemma fold_put spacing line ws k output first :
  (∀ j w c, ws !! j = Some w → line !! (k + j) = Some c → String.length (originMessage c) ≤ w) →
  k + length ws ≤ length line →
  ∃ first', fold_res (put_cell spacing line) (imap (λ j w, (k + j, w)) ws) (output, first) =
    Ok (output +:+ line_text first spacing (shown_cells ws (drop k line)), first').
Proof.
  revert k output first; induction ws as [|w ws IH]; intros k output first Hw Hk.
  { exists first. destruct first; simpl; by rewrite app_nil_r_string. }
  simpl in Hk. destruct (lookup_lt_is_Some_2 line k ltac:(lia)) as [c Hc].
  rewrite imap_cons, Nat.add_0_r, (drop_S line c k Hc).
  rewrite (imap_ext _ (λ j w, (S k + j, w))) by (intros; simpl; f_equal; lia).
  assert (∀ j w c, ws !! j = Some w → line !! (S k + j) = Some c → String.length (originMessage c) ≤ w) as Hw'.
  { intros j w' c' Hj Hc'. apply (Hw (S j) w' c'); [done|]. by rewrite Nat.add_succ_r. }
  unfold shown_cells in *. cbn [zip_with zip]. rewrite filter_cons. cbn [fst fold_res].
  destruct (decide (w = 0)) as [-> | H0].
  - rewrite decide_False, put_hidden by tauto. destruct (IH (S k) output first Hw') as [f Hf]; [lia|]. exists f. exact Hf.
  - rewrite decide_True by done. rewrite (put_shown _ _ _ _ _ w c) by (done || by apply (Hw 0); rewrite ?Nat.add_0_r).
    set (output' := (if first then output else output +:+ spacing) +:+ padded w c).
    destruct (IH (S k) output' false Hw') as [f Hf]; [lia|]. exists f. simpl in Hf. simpl.
    rewrite Hf. do 2 f_equal. unfold output', line_text.
    destruct first; [rewrite Join_tail|simpl]; by rewrite !app_assoc_string.
Qed.

Lemma put_line_Ok spacing lines line output :
  line ∈ lines → (getLength lines).2 ≤ length line →
  put_line spacing (widths lines) output line =
    Ok (output +:+ (Join (shown_cells (widths lines) line) spacing +:+ eol)).
Proof.
  intros Hin Hl. unfold put_line.
  assert (length (widths lines) = (getLength lines).2) as Hw by (unfold widths; by rewrite length_fmap, length_seq).
  destruct (fold_put spacing line (widths lines) 0 output true) as [f Hf].
  { intros j w c Hj Hc. unfold widths in Hj. apply list_lookup_fmap_Some in Hj as (j' & -> & [-> _]%lookup_seq).
    by apply (width_bound _ line). }
  { rewrite Hw. lia. }
  rewrite (imap_ext _ pair) in Hf by done. rewrite Hf. simpl. by rewrite app_assoc_string.
Qed.

(** A table whose lines are no shorter than its first one is laid out without a panic: a
    line is its cells, padded to the width of their columns and joined, without the columns
    that are empty everywhere. *)
Theorem FixedFormat_table lines nspace :
  Forall (λ l, (getLength lines).2 ≤ length l) lines → FixedFormat lines nspace = Ok (table_text lines nspace).
Proof.
  intros Hl. unfold FixedFormat. rewrite fixedLength_Ok by done. simpl.
  assert (∀ l output, (∀ line, line ∈ l → line ∈ lines) →
    fold_res (put_line (repeat_string nspace " ") (widths lines)) l output =
    Ok (output +:+ foldr (λ line s, (Join (shown_cells (widths lines) line) (repeat_string nspace " ") +:+ eol) +:+ s) "" l))
    as Hg.
  { induction l as [|line l IH]; intros output Hin; simpl; [by rewrite app_nil_r_string|].
    rewrite put_line_Ok; [|apply Hin; left|exact (proj1 (Forall_forall _ _) Hl line (Hin line (list_elem_of_here _ _)))].
    simpl. rewrite IH by (intros; apply Hin; by right). f_equal. by rewrite !app_assoc_string. }
  rewrite Hg by done. done.
Qed.

(** Cells whose decoration keeps their length fill their columns exactly, so that all lines
    of a table are equally long. *)
Lemma length_repeat_string n s : String.length (repeat_string n s) = n * String.length s.
Proof. induction n as [|n IH]; simpl; [done|]. by rewrite length_app_string, IH. Qed.
Lemma padded_length w c :
  String.length (realMessage c) = String.length (originMessage c) → String.length (originMessage c) ≤ w →
  String.length (padded w c) = w.
Proof. intros Hr Hw. unfold padded. rewrite length_app_string, length_repeat_string, Hr. simpl. lia. Qed.

Theorem table_rectangular lines line j w c :
  line ∈ lines → widths lines !! j = Some w → line !! j = Some c →
  String.length (realMessage c) = String.length (originMessage c) → String.length (padded w c) = w.
Proof.
  intros Hin Hw Hc Hr. apply padded_length; [done|]. unfold widths in Hw.
  apply list_lookup_fmap_Some in Hw as (j' & -> & [-> _]%lookup_seq). by apply (width_bound _ line).
Qed.

(** A clue of nothing but newlines ends the process. *)
Theorem prettyClue_newlines n : prettyClue (repeat_string n eol) = Panic.
Proof.
  unfold prettyClue. assert (Split (repeat_string n eol) (byte 10) = repeat "" (S n)) as ->.
  { induction n as [|n IH]; [done|]. simpl. by rewrite IH. }
  assert (∀ l, Forall (λ x, x = "") l → drop_empty l = Panic) as Hd.
  { induction 1 as [|x l -> _ IH]; simpl; [done|exact IH]. }
  rewrite Hd; [done|]. apply Forall_reverse. rewrite Forall_forall. by intros x ->%list_elem_of_In%repeat_spec.
Qed.
