(* ===== verification/StatusTable.v ===== *)
(** The table of the statuses of services (src/internal/tui/service/status.go) and what the
    status command shows (displayStatus of src/cli/command/cluster/status.go): sorting,
    one line per deploy entry, columns.

    The longest common prefix is the one of a library: a parameter, as the colours are. *)

From S2P Require Import Prelude Errno GoLib Utils Vars DeployConfig Topology Cli ServiceEnv Services Monitor MonitorTasks TextTable.
From Stdlib Require Import Ascii Sorting.Sorted.

(** [sort.Slice]: some arrangement, and a sorted one when the comparison is asymmetric and
    its complement transitive on what is sorted. *)
Definition orders {A} (less : A → A → bool) (l : list A) : Prop :=
  (∀ x y, x ∈ l → y ∈ l → less x y = true → less y x = false) ∧
  (∀ x y z, x ∈ l → y ∈ l → z ∈ l → less y x = false → less z y = false → less z x = false).
Class LessSort := {
  sort_Slice : ∀ {A : Type}, (A → A → bool) → list A → list A;
  sort_Slice_perm : ∀ {A} (less : A → A → bool) l, sort_Slice less l ≡ₚ l;
  sort_Slice_sorted : ∀ {A} (less : A → A → bool) l, orders less l → StronglySorted (λ x y, less y x = false) (sort_Slice less l);
}.

Definition STATUS_RUNNING : string := "RUNNING".
Definition STATUS_STOPPED : string := "STOPPED".
Definition STATUS_ABNORMAL : string := "ABNORMAL".

(** A role that has no score has the score 0. *)
Definition ROLE_SCORE : gmap string Z := list_to_map
  [(ROLE_ETCD, 0%Z); (ROLE_COORDINATOR, 0%Z); (ROLE_STORE, 1%Z); (ROLE_DINGODB_DOCUMENT, 2%Z); (ROLE_CHUNKSERVER, 2%Z);
   (ROLE_SNAPSHOTCLONE, 3%Z); (ROLE_FS_MDS, 3%Z); (ROLE_DINGODB_INDEX, 3%Z); (ROLE_METASERVER, 4%Z);
   (ROLE_DINGODB_DISKANN, 4%Z); (ROLE_DINGODB_EXECUTOR, 5%Z); (ROLE_DINGODB_WEB, 6%Z); (ROLE_DINGODB_PROXY, 7%Z)].
Definition MONITOT_ROLE_SCORE : gmap string Z := list_to_map
  [(ROLE_MONITOR_SYNC, 0%Z); (ROLE_NODE_EXPORTER, 1%Z); (ROLE_PROMETHEUS, 2%Z); (ROLE_GRAFANA, 3%Z)].
Definition score (m : gmap string Z) (r : string) : Z := default 0%Z (m !! r).

Definition status_less (s1 s2 : ServiceStatus) : bool :=
  let c1 := ss_Config s1 in let c2 := ss_Config s2 in
  if decide (ss_Role s1 = ss_Role s2) then
    if (hostSequence c1 =? hostSequence c2)%Z then (instancesSequence c1 <? instancesSequence c2)%Z
    else (hostSequence c1 <? hostSequence c2)%Z
  else (score ROLE_SCORE (ss_Role s1) <? score ROLE_SCORE (ss_Role s2))%Z.
Definition monitor_less (s1 s2 : MonitorStatus) : bool :=
  if decide (ms_Role s1 = ms_Role s2) then (ms_HostSequence s1 <? ms_HostSequence s2)%Z
  else (score MONITOT_ROLE_SCORE (ms_Role s1) <? score MONITOT_ROLE_SCORE (ms_Role s2))%Z.

(** ** Merging the instances of a deploy entry *)

Definition merged_id (items : list string) : string :=
  match items with [x] => x | _ => "<instances>" end.
Definition status_class (item : string) : string :=
  if HasPrefix item "Up" then STATUS_RUNNING else if HasPrefix item "Exited" then STATUS_STOPPED else item.

Definition string_le (x y : string) : Prop := String.leb x y = true.
#[export] Instance string_le_dec : RelDecision string_le.
Proof. intros x y. unfold string_le. apply _. Defined.

Section merge.
Context `{MapOrder} (Prefix : list string → string).

Definition counts (items : list string) : gmap string nat :=
  foldl (λ m item, <[status_class item := S (default 0 (m !! status_class item))]> m) ∅ items.
Fixpoint find_all (n : nat) (l : list (string * nat)) : string :=
  match l with
  | [] => STATUS_ABNORMAL
  | (s, k) :: l => if decide (k = n) then s else find_all n l
  end.
Definition merged_status (items : list string) : string :=
  match items with [x] => x | _ => find_all (length items) (range (counts items)) end.

(** A slice of a text beyond its length panics. *)
Definition text_to (s : string) (n : Z) : res error string :=
  if decide (n < 0 ∨ Z.of_nat (String.length s) < n)%Z then Panic else Ok (String.substring 0 (Z.to_nat n) s).
Definition merged_dir (items : list string) : res error string :=
  match items with
  | [] => Panic (* index out of range *)
  | [x] => Ok x
  | x :: _ =>
      let prefix := Prefix items in
      let first := TrimPrefix x prefix in
      let last := TrimPrefix (List.last items "") prefix in
      limit ← Min [5%Z; Z.of_nat (String.length first); Z.of_nat (String.length last)];
      a ← text_to first limit; b ← text_to last limit;
      Ok (prefix +:+ "{" +:+ a +:+ "..." +:+ b +:+ "}")
  end.

Definition sort_Strings (l : list string) : list string := merge_sort string_le l.
Definition items_of (f : ServiceStatus → string) (g : list ServiceStatus) : list string := sort_Strings (f <$> g).

(** [strings.Split(status.Instances, "/")[1]]. *)
Definition instances_of (s : ServiceStatus) : res error string :=
  match Split (ss_Instances s) "/"%char with _ :: n :: _ => Ok n | _ => Panic end.
(** The directories of documents and vectors, the leader and the config are left out. *)
Definition merge_group (g : list ServiceStatus) : res error ServiceStatus :=
  match g with
  | [] => Panic
  | s :: _ =>
      n ← instances_of s;
      log ← merged_dir (items_of ss_LogDir g); data ← merged_dir (items_of ss_DataDir g);
      raft ← merged_dir (items_of ss_RaftDir g);
      Ok (mkServiceStatus (merged_id (items_of ss_Id g)) "" (ss_Role s) (ss_Host s)
            (Itoa (Z.of_nat (length g)) +:+ "/" +:+ n) (merged_id (items_of ss_ContainerId g)) (merged_id (items_of ss_Ports g))
            false (merged_status (items_of ss_Status g)) log data raft "" "" zero_dc)
  end.

(** The two loops: from each first status on, those with the same parent. *)
Fixpoint split_same (p : string) (l : list ServiceStatus) : list ServiceStatus * list ServiceStatus :=
  match l with
  | s :: l' => if decide (p = ss_ParentId s) then let '(a, b) := split_same p l' in (s :: a, b) else ([], l)
  | [] => ([], [])
  end.
Fixpoint status_groups (fuel : nat) (l : list ServiceStatus) : list (list ServiceStatus) :=
  match fuel, l with
  | S fuel, s :: l => let '(a, b) := split_same (ss_ParentId s) l in (s :: a) :: status_groups fuel b
  | _, _ => []
  end.
Definition mergeStatues (l : list ServiceStatus) : res error (list ServiceStatus) :=
  map_res merge_group (status_groups (length l) l).
End merge.

(** ** The tables *)

Section tables.
Context `{MapOrder} `{LessSort} (Prefix : list string → string) (BlueString RedString : string → string).

Definition statusDecorate (status : string) : string :=
  if decide (status = SERVICE_STATUS_CLEANED) then BlueString status
  else if decide (status ∈ [SERVICE_STATUS_LOSED; SERVICE_STATUS_UNKNOWN; STATUS_ABNORMAL]) then RedString status
  else status.
Definition status_cell (s : string) : cell := DecorateMessage s statusDecorate.
Definition common_line (s : ServiceStatus) : list cell :=
  [Text (ss_Id s); Text (ss_Role s); Text (ss_Host s); Text (ss_Instances s); Text (ss_ContainerId s);
   status_cell (ss_Status s); Text (or_dash (ss_Ports s))].
Definition buildStatusLine (showRaftDir showIndexDir : bool) (s : ServiceStatus) : list cell :=
  common_line s ++ [Text (ss_LogDir s); Text (ss_DataDir s)] ++
  (if showRaftDir then [Text (ss_RaftDir s)] else []) ++
  (if showIndexDir then [Text (ss_DocDir s); Text (ss_VectorDir s)] else []).
Definition buildStatusLineOnlyDir (onlyDirs : list string) (s : ServiceStatus) : list cell :=
  let dir name value := if Contains onlyDirs name then [Text value] else [] in
  common_line s ++ dir "Log Dir" (ss_LogDir s) ++ dir "Data Dir" (ss_DataDir s) ++ dir "Raft Dir" (ss_RaftDir s) ++
  dir "Doc Dir" (ss_DocDir s) ++ dir "Vector Dir" (ss_VectorDir s).

Definition COMMON_TITLE : list string := ["Id"; "Role"; "Host"; "Instances"; "Container Id"; "Status"; "Ports"].
Definition shows_raft (kind : string) (isMdsv2 : bool) : bool :=
  bool_decide (kind = KIND_DINGOSTORE) || isMdsv2 || bool_decide (kind = KIND_DINGODB).
Definition status_title (kind : string) (excludeCols : list string) (isMdsv2 isMdsv2Only : bool) : list string :=
  filter (λ t, t ∉ excludeCols) (COMMON_TITLE ++ ["Log Dir"; "Data Dir"]) ++
  (if shows_raft kind isMdsv2 && negb isMdsv2Only then ["Raft Dir"] else []) ++
  (if decide (kind = KIND_DINGODB) then ["Doc Dir"; "Vector Dir"] else []).

(** [locate[name]] of a name that is not there is 0. *)
Definition cut (title : list string) (name : string) (lines : list (list cell)) : res error (list (list cell)) :=
  CutColumn lines (default 0 (Locate title !! name)).
Definition cut_if (title : list string) (name : string) (lines : list (list cell)) : res error (list (list cell)) :=
  if Contains title name then cut title name lines else Ok lines.
Definition cut_columns (verbose : bool) (title : list string) (lines : list (list cell)) : res error (list (list cell)) :=
  if verbose then Ok lines else
  lines ← cut title "Ports" lines; lines ← cut_if title "Data Dir" lines; lines ← cut title "Log Dir" lines;
  lines ← cut_if title "Raft Dir" lines; lines ← cut_if title "Doc Dir" lines; cut_if title "Vector Dir" lines.

(** The text, and the length of its last line but one. *)
Definition with_width (output : string) : res error (string * nat) :=
  let outlines := Split output (byte 10) in
  match reverse outlines with
  | _ :: l :: _ => Ok (output, String.length l)
  | _ => Panic
  end.
Definition status_lines (expand : bool) (statuses : list ServiceStatus) : res error (list ServiceStatus) :=
  let statuses := sort_Slice status_less statuses in
  if expand then Ok statuses else mergeStatues Prefix statuses.
Definition FormatStatus (kind : string) (statuses : list ServiceStatus) (verbose expand : bool)
    (excludeCols : list string) (isMdsv2 isMdsv2Only : bool) : res error (string * nat) :=
  let title := status_title kind excludeCols isMdsv2 isMdsv2Only in
  let '(first, second) := FormatTitle title in
  statuses ← status_lines expand statuses;
  let showRaftDir := shows_raft kind isMdsv2 in
  let showIndexDir := bool_decide (kind = KIND_DINGODB) in
  lines ← cut_columns verbose title (first :: second :: (buildStatusLine showRaftDir showIndexDir <$> statuses));
  output ← FixedFormat lines 2;
  with_width output.
Definition FormatDirStatus (statuses : list ServiceStatus) (expand : bool) (onlyDirs : list string)
    : res error (string * nat) :=
  let '(first, second) := FormatTitle (COMMON_TITLE ++ onlyDirs) in
  statuses ← status_lines expand statuses;
  output ← FixedFormat (first :: second :: (buildStatusLineOnlyDir onlyDirs <$> statuses)) 2;
  with_width output.

Definition MONITOR_TITLE : list string := ["Id"; "Role"; "Host"; "Container Id"; "Status"; "Ports"; "Data Dir"].
Definition monitor_line (s : MonitorStatus) : list cell :=
  [Text (ms_Id s); Text (ms_Role s); Text (ms_Host s); Text (ms_ContainerId s); status_cell (ms_Status s);
   Text (if decide (ms_Ports s = "" ∨ ms_Ports s = "-1") then "-" else ms_Ports s); Text (ms_DataDir s)].
Definition FormatMonitorStatus (statuses : list MonitorStatus) (verbose : bool) : res error string :=
  let '(first, second) := FormatTitle MONITOR_TITLE in
  let lines := first :: second :: (monitor_line <$> sort_Slice monitor_less statuses) in
  lines ← (if verbose then Ok lines else
           lines ← cut MONITOR_TITLE "Ports" lines; cut MONITOR_TITLE "Data Dir" lines);
  FixedFormat lines 2.

(** ** The status of a cluster (cluster/status.go) *)

Definition variable_or_dash (dcs : list DeployConfig) (name : string) : res error string :=
  match dcs with
  | [] => Panic
  | dc :: _ =>
      match variables dc with
      | None => Panic
      | Some vars => Ok (match Vars.Get vars name with Ok v => v | _ => "-" end)
      end
  end.
Definition getClusterMdsAddr dcs := variable_or_dash dcs "cluster_mds_addr".
Definition getClusterCoorAddr dcs := variable_or_dash dcs "coordinator_addr".
Definition getClusterCoorServerAddr dcs := variable_or_dash dcs "cluster_coor_srv_peers".
Definition getClusterCoorRaftAddr dcs := variable_or_dash dcs "cluster_coor_raft_peers".
Definition getClusterMdsLeader (statuses : list ServiceStatus) : res error string :=
  leaders ← map_res (λ s, ip ← GetListenIp (ss_Config s); port ← GetListenPort (ss_Config s);
                          Ok (ip +:+ ":" +:+ Itoa port +:+ " / " +:+ ss_Id s))
              (filter (λ s, ss_IsLeader s = true) statuses);
  Ok (match leaders with [] => RedString "<no leader>" | _ => Join leaders ", " end).

(** The directories that are asked for, in the order of the columns. *)
Definition only_dirs (dir : string) : list string :=
  let dirStrs := Split dir ","%char in
  let one name column := if Contains dirStrs name then [column] else [] in
  one "log" "Log Dir" ++ one "data" "Data Dir" ++ one "raft" "Raft Dir" ++ one "doc" "Doc Dir" ++ one "vector" "Vector Dir".

(** The lines above the table, by kind. *)
Definition cluster_header (clusterName : string) (dcs : list DeployConfig) (roles : list string) (isMdsv2 : bool)
    (statuses : list ServiceStatus) : res error (list string) :=
  match dcs with
  | [] => Panic
  | dc :: _ =>
      let k := GetKind dc in
      if decide (k = KIND_DINGOFS) then
        mds ← getClusterMdsAddr dcs;
        if isMdsv2 then
          coor ← (if ContainsList roles [ROLE_FS_MDS; ROLE_FS_MDS_CLI] then GetDingoStoreCoordinatorAddr dc
                  else getClusterCoorAddr dcs);
          Ok ["cluster name     : " +:+ clusterName; "cluster kind     : " +:+ k;
              "mds     addr     : " +:+ mds; "coordinator addr : " +:+ coor]
        else
          leader ← getClusterMdsLeader statuses;
          Ok ["cluster name      : " +:+ clusterName; "cluster kind      : " +:+ k;
              "cluster mds addr  : " +:+ mds; "cluster mds leader: " +:+ leader]
      else if decide (k = KIND_DINGOSTORE) then
        server ← getClusterCoorServerAddr dcs; raft ← getClusterCoorRaftAddr dcs;
        Ok ["cluster name             : " +:+ clusterName; "cluster kind             : " +:+ k;
            "cooridinator server addr : " +:+ server; "cooridinator raft   addr : " +:+ raft]
      else if decide (k = KIND_DINGODB) then
        server ← getClusterCoorServerAddr dcs; raft ← getClusterCoorRaftAddr dcs;
        Ok ["cluster name             : " +:+ clusterName; "cluster kind             : " +:+ k;
            "coordinator addr         : " +:+ server; "coordinator raft   addr  : " +:+ raft]
      else Ok []
  end.

(** [displayStatus]: the lines above, the table and its width. *)
Definition mdsv2_only (roles : list string) : bool :=
  ContainsList roles [ROLE_FS_MDS; ROLE_FS_MDS_CLI] && bool_decide (length roles = 2).
Definition displayStatus (clusterName : string) (dcs : list DeployConfig) (m : gmap string ServiceStatus)
    (verbose showInstances : bool) (dir : string) : res error (list string * (string * nat)) :=
  match dcs with
  | [] => Panic
  | dc :: _ =>
      let statuses := (range m).*2 in
      let roles := GetRoles dcs in
      version ← ctx_Lookup (GetCtx dc) CTX_KEY_MDS_VERSION;
      let isMdsv2 := bool_decide (version = CTX_VAL_MDS_V2) in
      let isMdsv2Only := mdsv2_only roles in
      table ← (if decide (dir = "") then
                 FormatStatus (GetKind dc) statuses verbose showInstances (if isMdsv2Only then ["Data Dir"] else [])
                   isMdsv2 isMdsv2Only
               else FormatDirStatus statuses showInstances (only_dirs dir));
      lines ← cluster_header clusterName dcs roles isMdsv2 (sort_Slice status_less statuses);
      Ok (lines, table)
  end.
End tables.
