(* ===== verification/StatusTableFacts.v ===== *)
(** What the table of the statuses shows: columns under their titles, one line per deploy
    entry, and a merged status that does not depend on the order of a map. *)

From S2P Require Import Prelude Errno GoLib Utils Vars DeployConfig Topology TopologyMerge TopologyTyped TopologySamples TopologyParse Cli ServiceEnv Services Monitor MonitorTasks ConfigSyncFacts TextTable StatusTable.
From Stdlib Require Import Ascii Sorting.Sorted.

(** ** A sort *)

Section insertion.
Context {A : Type} (less : A → A → bool).
Fixpoint insert_less (x : A) (l : list A) : list A :=
  match l with [] => [x] | y :: l' => if less y x then y :: insert_less x l' else x :: l end.
Definition insertion_sort (l : list A) : list A := foldr insert_less [] l.

Lemma insert_less_perm x l : insert_less x l ≡ₚ x :: l.
Proof. induction l as [|y l IH]; simpl; [done|]. destruct (less y x); [|done]. rewrite IH. apply Permutation_swap. Qed.
Lemma insertion_sort_perm l : insertion_sort l ≡ₚ l.
Proof. induction l as [|x l IH]; simpl; [done|]. by rewrite insert_less_perm, IH. Qed.
Lemma orders_perm l l' : l ≡ₚ l' → orders less l → orders less l'.
Proof. intros Hp [H1 H2]. split; [intros x y|intros x y z]; rewrite <-!Hp; eauto. Qed.

Lemma insertion_sorted l : orders less l → StronglySorted (λ x y, less y x = false) (insertion_sort l).
Proof.
  induction l as [|x l IH]; simpl; [constructor|]. intros [Ha Ht].
  assert (StronglySorted (λ x y, less y x = false) (insertion_sort l)) as Hs.
  { apply IH. split; [intros u v ? ?|intros u v z ? ? ?]; eauto using list_elem_of_further. }
  assert (∀ y, y ∈ insertion_sort l → y ∈ l) as Hin by (intros y; by rewrite insertion_sort_perm).
  revert Hs Hin. generalize (insertion_sort l) as r. induction r as [|y r IHr]; simpl; intros Hs Hin.
  { repeat constructor. }
  apply StronglySorted_inv in Hs as [Hs Hy]. assert (y ∈ x :: l) as Hyl by (right; apply Hin; left).
  destruct (less y x) eqn:E.
  - constructor; [apply IHr; [done|intros; apply Hin; by right]|].
    rewrite Forall_forall. intros z. rewrite insert_less_perm, elem_of_cons. intros [->|Hz].
    + apply Ha; [done|left|done].
    + by eapply Forall_forall in Hy.
  - constructor; [by constructor|]. constructor; [done|]. rewrite Forall_forall. intros z Hz.
    apply (Ht x y z); [left|done|right; apply Hin; by right|done|by eapply Forall_forall in Hy].
Qed.
End insertion.

Definition canonical_sort : LessSort := {|
  sort_Slice := @insertion_sort;
  sort_Slice_perm := @insertion_sort_perm;
  sort_Slice_sorted := @insertion_sorted;
|}.

(** ** Groups *)

Lemma split_same_app p l : (split_same p l).1 ++ (split_same p l).2 = l.
Proof.
  induction l as [|s l IH]; simpl; [done|]. case_decide; [|done].
  destruct (split_same p l) as [a b]. simpl in *. by rewrite IH.
Qed.
Lemma split_same_all p l : Forall (λ s, ss_ParentId s = p) (split_same p l).1.
Proof.
  induction l as [|s l IH]; simpl; [constructor|]. case_decide; [|constructor].
  destruct (split_same p l) as [a b]. by constructor.
Qed.
Lemma split_same_rest p l s : head (split_same p l).2 = Some s → ss_ParentId s ≠ p.
Proof.
  induction l as [|t l IH]; simpl; [done|]. case_decide as Hd; [|intros [= <-]; congruence].
  by destruct (split_same p l).
Qed.

(** Everything of one parent stands together. *)
Definition contiguous (l : list ServiceStatus) : Prop :=
  ∀ l1 l2 l3 x y z, l = l1 ++ x :: l2 ++ y :: l3 → ss_ParentId x = ss_ParentId y → z ∈ l2 → ss_ParentId z = ss_ParentId x.
Lemma contiguous_suffix l1 l2 : contiguous (l1 ++ l2) → contiguous l2.
Proof. intros Hc m1 m2 m3 x y z ->. apply (Hc (l1 ++ m1) m2 m3). by rewrite <-app_assoc. Qed.

Definition group_parent (g : list ServiceStatus) : string := from_option ss_ParentId "" (head g).

(** The groups: they are the list, cut into pieces of one parent each, and when the parents
    stand together no two pieces have the same one. *)
Lemma status_groups_spec fuel l :
  length l ≤ fuel →
  concat (status_groups fuel l) = l ∧
  Forall (λ g, g ≠ [] ∧ Forall (λ s, ss_ParentId s = group_parent g) g) (status_groups fuel l) ∧
  (contiguous l → NoDup (group_parent <$> status_groups fuel l)).
Proof.
  revert l; induction fuel as [|fuel IH]; intros [|s l] Hl; simpl in *;
    [by split_and!; [|constructor|constructor]|lia|by split_and!; [|constructor|constructor]|].
  pose proof (split_same_app (ss_ParentId s) l) as Happ. pose proof (split_same_all (ss_ParentId s) l) as Hall.
  pose proof (split_same_rest (ss_ParentId s) l) as Hrest.
  destruct (split_same (ss_ParentId s) l) as [a b]. simpl in *.
  destruct (IH b) as (Hc & Hg & Hn). { apply (f_equal length) in Happ. rewrite length_app in Happ. lia. }
  split_and!.
  - rewrite Hc, <-Happ. done.
  - constructor; [|done]. split; [done|]. by constructor.
  - intros Hcont. assert (contiguous b) as Hb by (apply (contiguous_suffix (s :: a)); by rewrite <-app_comm_cons, Happ).
    apply NoDup_cons. split; [|by apply Hn].
    intros (g & Heq & Hin)%list_elem_of_fmap. pose proof (proj1 (Forall_forall _ _) Hg g Hin) as [Hne Hgall].
    destruct g as [|t g']; [done|]. change (ss_ParentId s = ss_ParentId t) in Heq.
    assert (t ∈ b) as Ht. { rewrite <-Hc. apply list_elem_of_In, in_concat. exists (t :: g'). split; [by apply list_elem_of_In|by left]. }
    destruct b as [|u b]; [by apply elem_of_nil in Ht|]. specialize (Hrest u eq_refl).
    apply elem_of_cons in Ht as [->|Ht]; [congruence|].
    apply list_elem_of_split in Ht as (b1 & b2 & ->). apply Hrest.
    apply (Hcont [] (a ++ u :: b1) b2 s t u); [|done|set_solver].
    simpl. f_equal. rewrite <-Happ, <-app_assoc. done.
Qed.

(** ** Sorted statuses *)

(** Roles have scores of their own, and the deploy entry of a status is its role and the
    place of its host. *)
Definition well_placed (l : list ServiceStatus) : Prop :=
  (∀ x y, x ∈ l → y ∈ l → score ROLE_SCORE (ss_Role x) = score ROLE_SCORE (ss_Role y) → ss_Role x = ss_Role y) ∧
  (∀ x y, x ∈ l → y ∈ l → ss_ParentId x = ss_ParentId y ↔
     ss_Role x = ss_Role y ∧ hostSequence (ss_Config x) = hostSequence (ss_Config y)).

Lemma status_less_key l x y :
  well_placed l → x ∈ l → y ∈ l →
  status_less x y = false ↔
  (score ROLE_SCORE (ss_Role y) < score ROLE_SCORE (ss_Role x))%Z ∨
  score ROLE_SCORE (ss_Role y) = score ROLE_SCORE (ss_Role x) ∧
  ((hostSequence (ss_Config y) < hostSequence (ss_Config x))%Z ∨
   hostSequence (ss_Config y) = hostSequence (ss_Config x) ∧
   (instancesSequence (ss_Config y) ≤ instancesSequence (ss_Config x))%Z).
Proof.
  intros [Hs _] Hx Hy. unfold status_less. case_decide as Hd.
  - rewrite Hd. destruct (Z.eqb_spec (hostSequence (ss_Config x)) (hostSequence (ss_Config y))) as [He|He].
    + rewrite Z.ltb_ge. lia.
    + rewrite Z.ltb_ge. lia.
  - rewrite Z.ltb_ge. split; [|lia]. intros Hle.
    destruct (decide (score ROLE_SCORE (ss_Role y) = score ROLE_SCORE (ss_Role x))) as [He|]; [|lia].
    exfalso. apply Hd. symmetry. by apply Hs.
Qed.

Lemma well_placed_orders l : well_placed l → orders status_less l.
Proof.
  intros Hw. split.
  - intros x y Hx Hy Hl. apply (status_less_key l) ; [done..|].
    destruct (decide (status_less x y = false)) as [E|E]; [congruence|].
    rewrite (status_less_key l) in E by done. lia.
  - intros x y z Hx Hy Hz. rewrite !(status_less_key l) by done. lia.
Qed.

Lemma well_placed_perm l l' : l ≡ₚ l' → well_placed l → well_placed l'.
Proof. intros Hp [H1 H2]. split; intros x y; rewrite <-!Hp; auto. Qed.

Lemma StronglySorted_pair {A} (R : A → A → Prop) l1 x l2 y l3 :
  StronglySorted R (l1 ++ x :: l2 ++ y :: l3) → R x y ∧ ∀ z, z ∈ l2 → R x z ∧ R z y.
Proof.
  intros Hs. induction l1 as [|a l1 IH]; simpl in Hs; apply StronglySorted_inv in Hs as [Hs Hx]; [|by apply IH].
  rewrite Forall_forall in Hx. split; [set_solver|]. intros z Hz. split; [set_solver|].
  clear Hx. apply list_elem_of_split in Hz as (m1 & m2 & ->). rewrite <-app_assoc in Hs. simpl in Hs.
  induction m1 as [|b m1 IHm]; simpl in Hs; apply StronglySorted_inv in Hs as [Hs Hx]; [|by apply IHm].
  rewrite Forall_forall in Hx. set_solver.
Qed.

Lemma sorted_contiguous `{LessSort} l : well_placed l → contiguous (sort_Slice status_less l).
Proof.
  intros Hw l1 l2 l3 x y z Heq Hp Hz. pose proof (sort_Slice_perm status_less l) as Hperm.
  pose proof (sort_Slice_sorted status_less l (well_placed_orders l Hw)) as Hs.
  assert (well_placed (sort_Slice status_less l)) as Hw' by by eapply well_placed_perm.
  rewrite Heq in Hs, Hw'. apply StronglySorted_pair in Hs as [_ Hs]. destruct (Hs z Hz) as [Hxz Hzy].
  assert (x ∈ l1 ++ x :: l2 ++ y :: l3) as Hx by set_solver.
  assert (y ∈ l1 ++ x :: l2 ++ y :: l3) as Hy by set_solver.
  assert (z ∈ l1 ++ x :: l2 ++ y :: l3) as Hzl by set_solver.
  rewrite (status_less_key _ z x Hw') in Hxz by done. rewrite (status_less_key _ y z Hw') in Hzy by done.
  apply (proj2 Hw') in Hp as [Hr Hh]; [|done..]. apply (proj2 Hw'); [done..|].
  rewrite Hr, Hh in *. assert (score ROLE_SCORE (ss_Role z) = score ROLE_SCORE (ss_Role y)) as Hsc by lia.
  split; [by apply (proj1 Hw')|lia].
Qed.

(** ** Merged lines *)

Definition class_count (c : string) (items : list string) : nat := length (filter (λ i, status_class i = c) items).
Lemma counts_lookup items c :
  counts items !! c = (if decide (class_count c items = 0) then None else Some (class_count c items)).
Proof.
  unfold counts, class_count. induction items as [|i items IH] using rev_ind; [done|].
  rewrite foldl_app, filter_app, length_app. simpl. rewrite filter_cons, filter_nil.
  destruct (decide (status_class i = c)) as [<-|Hne].
  - rewrite lookup_insert_eq, IH. simpl. case_decide as H0; simpl.
    + rewrite H0. by rewrite decide_False by lia.
    + rewrite decide_False by lia. f_equal. lia.
  - rewrite lookup_insert_ne, IH by done. simpl. by rewrite Nat.add_0_r.
Qed.

Lemma find_all_found n l c : (c, n) ∈ l → (∀ s, (s, n) ∈ l → s = c) → find_all n l = c.
Proof.
  induction l as [|[s k] l IH]; intros Hin Hu; [by apply elem_of_nil in Hin|]. simpl. case_decide as Hk.
  - apply Hu. subst. left.
  - apply elem_of_cons in Hin as [[= -> ->]|Hin]; [done|]. apply IH; [done|]. intros s' ?. apply Hu. by right.
Qed.
Lemma find_all_none n l : (∀ s, (s, n) ∉ l) → find_all n l = STATUS_ABNORMAL.
Proof.
  induction l as [|[s k] l IH]; intros Hn; [done|]. simpl. rewrite decide_False.
  - apply IH. intros s' ?. apply (Hn s'). by right.
  - intros ->. apply (Hn s). left.
Qed.

Lemma class_count_all c items : class_count c items = length items ↔ Forall (λ i, status_class i = c) items.
Proof.
  unfold class_count. induction items as [|i items IH]; [done|]. rewrite filter_cons, Forall_cons, <-IH.
  pose proof (length_filter (λ i, status_class i = c) items) as Hl. case_decide; simpl; [|split; [lia|tauto]].
  rewrite Nat.succ_inj_wd. tauto.
Qed.

Section merged.
Context `{MapOrder} (Prefix : list string → string).

(** The status of several instances: the class they all have, and otherwise abnormal,
    whatever the order of the map of the counts. *)
Theorem merged_status_spec x y items :
  merged_status (x :: y :: items) =
    if decide (Forall (λ i, status_class i = status_class x) (y :: items)) then status_class x else STATUS_ABNORMAL.
Proof.
  unfold merged_status. set (l := x :: y :: items).
  assert (∀ c, (c, length l) ∈ range (counts l) ↔ Forall (λ i, status_class i = c) l) as Hin.
  { intros c. rewrite range_perm, elem_of_map_to_list, counts_lookup, <-class_count_all. simpl.
    case_decide; [split; [done|]; lia|]. split; [by intros [=]|congruence]. }
  case_decide as Hall.
  - apply find_all_found; [apply Hin; by constructor|]. intros s [<- _]%Hin%Forall_cons. done.
  - apply find_all_none. intros s [<- Hs]%Hin%Forall_cons. done.
Qed.

Lemma Min_bounds {E} n0 ns : ∃ m, Min (E:=E) (n0 :: ns) = Ok m ∧ (∀ n, n ∈ n0 :: ns → (m ≤ n)%Z) ∧ m ∈ n0 :: ns.
Proof.
  eexists. split; [reflexivity|]. simpl. rewrite Z.ltb_irrefl.
  induction ns as [|n ns [IH IH']] using rev_ind; simpl; [set_solver by lia|].
  rewrite foldl_app. simpl. destruct (Z.ltb_spec n (foldl (λ ret num, if (num <? ret)%Z then num else ret) n0 ns)).
  - split; [|set_solver]. intros k Hk. rewrite app_comm_cons in Hk. apply elem_of_app in Hk as [Hk|Hk].
    + specialize (IH k Hk). lia.
    + set_solver by lia.
  - split; [|set_solver]. intros k Hk. rewrite app_comm_cons in Hk. apply elem_of_app in Hk as [Hk|Hk]; [auto|].
    apply list_elem_of_singleton in Hk. lia.
Qed.

(** The directory of a group is found whatever the longest prefix is. *)
Lemma merged_dir_total items : items ≠ [] → ∃ d, merged_dir Prefix items = Ok d.
Proof.
  destruct items as [|x [|y items]]; [done|by eexists|]. intros _. unfold merged_dir.
  set (f := TrimPrefix x _). set (la := TrimPrefix (List.last _ _) _).
  destruct (Min_bounds (E:=error) 5%Z [Z.of_nat (String.length f); Z.of_nat (String.length la)]) as (m & -> & Hm & Hin).
  simpl. unfold text_to. pose proof (Hm (Z.of_nat (String.length f)) ltac:(set_solver)).
  pose proof (Hm (Z.of_nat (String.length la)) ltac:(set_solver)).
  assert (0 ≤ m)%Z by (repeat (apply elem_of_cons in Hin as [->|Hin]; [lia|]); by apply elem_of_nil in Hin).
  rewrite !decide_False by lia. simpl. by eexists.
Qed.
End merged.

Section merged_table.
Context `{MapOrder} `{LessSort} (Prefix : list string → string).

(** The status the instances of a deploy entry are shown with. *)
Definition common_status (g : list ServiceStatus) : string :=
  match g with
  | [s] => ss_Status s
  | s :: _ =>
      if decide (Forall (λ t, status_class (ss_Status t) = status_class (ss_Status s)) g)
      then status_class (ss_Status s) else STATUS_ABNORMAL
  | [] => STATUS_ABNORMAL
  end.
Lemma merged_status_group g : g ≠ [] → merged_status (items_of ss_Status g) = common_status g.
Proof.
  intros Hne. unfold items_of, sort_Strings. pose proof (merge_sort_Permutation string_le (ss_Status <$> g)) as Hp.
  revert Hp. generalize (merge_sort string_le (ss_Status <$> g)) as items. intros items Hp.
  destruct g as [|s [|t g]]; [done| |].
  - by apply Permutation_singleton_r in Hp as ->.
  - destruct items as [|x [|y items]]; try by apply Permutation_length in Hp.
    rewrite merged_status_spec. unfold common_status.
    assert (∀ c, Forall (λ i, status_class i = c) (x :: y :: items) ↔
                 Forall (λ u, status_class (ss_Status u) = c) (s :: t :: g)) as He.
    { intros c. rewrite Hp, Forall_fmap. done. }
    destruct (decide (Forall _ (y :: items))) as [Hx|Hx], (decide (Forall _ (s :: t :: g))) as [Hs|Hs]; [| | |done].
    + assert (Forall (λ i, status_class i = status_class x) (x :: y :: items)) as [<- _]%He%Forall_cons by by constructor.
      done.
    + destruct Hs. assert (Forall (λ i, status_class i = status_class x) (x :: y :: items)) as Hs%He by by constructor.
      pose proof Hs as [Hs0 _]%Forall_cons. by rewrite Hs0.
    + destruct Hx. apply He, Forall_cons in Hs as [-> Hs]. done.
Qed.

(** What the line of a group shows.  The directories of documents and vectors are not among
    it. *)
Record line_of (g : list ServiceStatus) (line : ServiceStatus) : Prop := {
  lo_parent : Forall (λ s, ss_ParentId s = group_parent g) g;
  lo_member : ∃ s n, s ∈ g ∧ instances_of s = Ok n ∧ ss_Role line = ss_Role s ∧ ss_Host line = ss_Host s ∧
                     ss_Instances line = Itoa (Z.of_nat (length g)) +:+ "/" +:+ n;
  lo_status : ss_Status line = common_status g;
  lo_id : ∀ s, g = [s] → ss_Id line = ss_Id s ∧ ss_ContainerId line = ss_ContainerId s;
  lo_index : ss_DocDir line = "" ∧ ss_VectorDir line = "";
}.

Lemma items_of_nil f g : g ≠ [] → items_of f g ≠ [].
Proof.
  intros Hne Hn. apply Hne. unfold items_of, sort_Strings in Hn.
  pose proof (merge_sort_Permutation string_le (f <$> g)) as Hp. rewrite Hn in Hp. symmetry in Hp.
  apply Permutation_nil_r in Hp. by apply fmap_nil_inv in Hp.
Qed.

Lemma merge_group_line g :
  g ≠ [] → Forall (λ s, ss_ParentId s = group_parent g) g → Forall (λ s, ∃ n, instances_of s = Ok n) g →
  ∃ line, merge_group Prefix g = Ok line ∧ line_of g line.
Proof.
  intros Hne Hp Hi. destruct (head g) as [s|] eqn:Hd; [|by destruct g].
  assert (s ∈ g) as Hs by (destruct g; [done|]; injection Hd as ->; left).
  destruct (proj1 (Forall_forall _ _) Hi s Hs) as [n Hn].
  assert (merge_group Prefix g = (n ← instances_of s;
      log ← merged_dir Prefix (items_of ss_LogDir g); data ← merged_dir Prefix (items_of ss_DataDir g);
      raft ← merged_dir Prefix (items_of ss_RaftDir g);
      Ok (mkServiceStatus (merged_id (items_of ss_Id g)) "" (ss_Role s) (ss_Host s)
            (Itoa (Z.of_nat (length g)) +:+ "/" +:+ n) (merged_id (items_of ss_ContainerId g)) (merged_id (items_of ss_Ports g))
            false (merged_status (items_of ss_Status g)) log data raft "" "" zero_dc))) as ->.
  { destruct g; [done|]. by injection Hd as ->. }
  rewrite Hn. simpl.
  destruct (merged_dir_total Prefix (items_of ss_LogDir g)) as [d1 ->]; [by apply items_of_nil|]. simpl.
  destruct (merged_dir_total Prefix (items_of ss_DataDir g)) as [d2 ->]; [by apply items_of_nil|]. simpl.
  destruct (merged_dir_total Prefix (items_of ss_RaftDir g)) as [d3 ->]; [by apply items_of_nil|]. simpl.
  eexists. split; [reflexivity|]. constructor; simpl; [done|by exists s, n|by apply merged_status_group| |done].
  intros t ->. done.
Qed.

(** The lines are those of groups of one parent, no two of which have the same. *)
Lemma lines_of_groups l :
  well_placed l → Forall (λ s, ∃ n, instances_of s = Ok n) l →
  ∃ gs lines, mergeStatues Prefix (sort_Slice status_less l) = Ok lines ∧ concat gs ≡ₚ l ∧
    NoDup (group_parent <$> gs) ∧ Forall2 line_of gs lines.
Proof.
  intros Hw Hi. set (sl := sort_Slice status_less l). pose proof (sort_Slice_perm status_less l) as Hp. fold sl in Hp.
  destruct (status_groups_spec (length sl) sl) as (Hc & Hg & Hn); [done|].
  set (gs := status_groups (length sl) sl) in *.
  assert (Forall (Forall (λ s, ∃ n, instances_of s = Ok n)) gs) as Hi'.
  { rewrite Forall_forall. intros g Hin. rewrite Forall_forall in Hi. rewrite Forall_forall. intros s Hs. apply Hi.
    rewrite <-Hp, <-Hc. apply list_elem_of_In, in_concat. exists g. by rewrite <-!list_elem_of_In. }
  assert (∃ lines, Forall2 (λ g line, merge_group Prefix g = Ok line ∧ line_of g line) gs lines) as [lines Hl].
  { clear Hc Hn. induction gs as [|g gs IH]; [by exists []|].
    apply Forall_cons in Hg as [[Hne Hgp] Hg]. apply Forall_cons in Hi' as [Hgi Hi'].
    destruct IH as [lines Hl]; [done..|]. destruct (merge_group_line g Hne Hgp Hgi) as (line & Hm & Ho).
    exists (line :: lines). by constructor. }
  exists gs, lines. split_and!.
  - unfold mergeStatues. fold gs. apply map_res_Ok. eapply Forall2_impl; [exact Hl|]. by intros ?? [? _].
  - by rewrite Hc.
  - apply Hn. by apply sorted_contiguous.
  - eapply Forall2_impl; [exact Hl|]. by intros ?? [_ ?].
Qed.
End merged_table.

(** ** The statuses of a topology *)

(** The deploy entry of a service. *)
Definition dc_entry (dc : DeployConfig) : string * Z := (GetRole dc, hostSequence dc).
Definition entry (s : ServiceStatus) : string * Z := dc_entry (ss_Config s).
(** A service the status command asks for: it leaves the mds client out. *)
Definition asked (dcs : list DeployConfig) (dc : DeployConfig) : Prop := dc ∈ dcs ∧ GetRole dc ≠ ROLE_FS_MDS_CLI.
(** The parent id of a service tells its deploy entry. *)
Definition parents_tell (dcs : list DeployConfig) : Prop :=
  ∀ x y, asked dcs x → asked dcs y → GetParentId x = GetParentId y ↔ dc_entry x = dc_entry y.
Definition all_asked (dcs : list DeployConfig) : list DeployConfig := filter (λ dc, GetRole dc ≠ ROLE_FS_MDS_CLI) dcs.
Definition parents_tellb (dcs : list DeployConfig) : bool :=
  forallb (λ x, forallb (λ y, bool_decide (GetParentId x = GetParentId y ↔ dc_entry x = dc_entry y)) (all_asked dcs))
    (all_asked dcs).
Lemma parents_tellb_spec dcs : parents_tellb dcs = true → parents_tell dcs.
Proof.
  intros Hb x y [Hx Hrx] [Hy Hry]. unfold parents_tellb in Hb. rewrite forallb_forall in Hb.
  assert (∀ z, z ∈ dcs → GetRole z ≠ ROLE_FS_MDS_CLI → In z (all_asked dcs)) as Hin.
  { intros z Hz Hr. by apply list_elem_of_In, list_elem_of_filter. }
  specialize (Hb x (Hin x Hx Hrx)). rewrite forallb_forall in Hb.
  exact (bool_decide_eq_true_1 _ (Hb y (Hin y Hy Hry))).
Qed.

(** What a playbook step recorded of a service. *)
Definition status_of_dc (dcs : list DeployConfig) (s : ServiceStatus) : Prop :=
  ∃ dc sid cid ports leader status, asked dcs dc ∧ service_status dc sid cid ports leader status = Ok s.
Lemma service_status_fields dc sid cid ports leader status s :
  service_status dc sid cid ports leader status = Ok s →
  ss_ParentId s = GetParentId dc ∧ ss_Role s = GetRole dc ∧ ss_Config s = dc ∧ ∃ n, instances_of s = Ok n.
Proof.
  unfold service_status.
  intros (? & _ & (? & _ & (? & _ & (? & _ & (? & _ & [= <-])%bind_Ok)%bind_Ok)%bind_Ok)%bind_Ok)%bind_Ok.
  split_and!; [done..|]. unfold instances_of. cbn [ss_Instances].
  pose proof (Split_sep "1" "/"%char (Itoa (GetInstances dc))) as Hsp.
  change ("1" +:+ String "/" (Itoa (GetInstances dc))) with (String "1" (String "/" (Itoa (GetInstances dc)))) in Hsp.
  rewrite Hsp. clear Hsp. change (Split "1" "/"%char) with ["1"]. cbn [app].
  destruct (Split _ _) as [|n l] eqn:E; [by apply Split_nonempty in E|by exists n].
Qed.

(** The roles that have services. *)
Definition deployed (t : Topology_) (r : string) : Prop :=
  ∃ s, role_services t r = Ok s ∧ s_Deploy s ≠ None.
Lemma role_shapes_role k r ds l : role_shapes k r ds = Ok l → Forall (λ s, s.1.1.1.2 = r) l ∧ (ds = [] → l = []).
Proof.
  intros Hl. split; [|intros ->; by injection Hl as <-]. revert Hl. unfold role_shapes.
  apply fold_res_inv; [|done]. intros s [hs d] s' _ Hs (x & (n & _ & [= <-])%bind_Ok & [= <-])%bind_Ok.
  apply Forall_app. split; [done|]. by apply Forall_fmap, Forall_forall.
Qed.
Lemma shapes_deployed t roles l :
  topology_shapes t roles = Ok l → Forall (λ s, s.1.1.1.2 ∈ roles ∧ deployed t s.1.1.1.2) l.
Proof.
  unfold topology_shapes. apply fold_res_inv; [|done].
  intros l1 r l2 Hr Hl1 (s & Hs & (x & Hx & [= <-])%bind_Ok)%bind_Ok. apply Forall_app. split; [done|].
  apply role_shapes_role in Hx as [Hrole Hempty]. rewrite Forall_forall in *. intros sh Hsh.
  rewrite (Hrole sh Hsh). split; [done|]. exists s. split; [done|]. intros Hnone. rewrite Hnone in Hempty.
  rewrite (Hempty eq_refl) in Hsh. by apply elem_of_nil in Hsh.
Qed.

(** No two roles that have services have the same score, but for the mds client. *)
Definition scores_differ (l : list string) : bool :=
  forallb (λ x, forallb (λ y, bool_decide (score ROLE_SCORE x = score ROLE_SCORE y → x = y)) l) l.
Lemma scores_differ_spec l x y :
  scores_differ l = true → x ∈ l → y ∈ l → score ROLE_SCORE x = score ROLE_SCORE y → x = y.
Proof.
  intros Hb Hx%list_elem_of_In Hy%list_elem_of_In. unfold scores_differ in Hb. rewrite forallb_forall in Hb.
  specialize (Hb x Hx). rewrite forallb_forall in Hb. exact (bool_decide_eq_true_1 _ (Hb y Hy)).
Qed.
Definition shown_roles (coordinators : bool) (roles : list string) : list string :=
  filter (λ r, r ≠ ROLE_FS_MDS_CLI ∧ (coordinators = false → r ≠ ROLE_COORDINATOR)) roles.
Lemma topology_scores c t c' roles :
  topology_roles c t = Ok (c', roles) →
  scores_differ (shown_roles (bool_decide (s_Deploy (CoordinatorServices t) ≠ None)) roles) = true.
Proof.
  intros Hr. assert (∃ b, roles ∈ [DINGOFS_MDSV2_FOLLOW_ROLES ++ [ROLE_DINGODB_EXECUTOR]; DINGOFS_MDSV2_FOLLOW_ROLES;
    DINGOFS_MDSV2_ONLY_ROLES; DINGOSTORE_ROLES; DINGODB_ROLES] ∧ b = true ∨
    roles = DINGOFS_ROLES ∧ s_Deploy (CoordinatorServices t) = None) as [_ [[Hin _]|[-> Hc]]].
  { exists true. revert Hr. unfold topology_roles, ctx_Add.
    repeat case_match; intros Heq; simplify_eq/=; first [by right | left; split; [set_solver|done]]. }
  - destruct (bool_decide _); repeat (apply elem_of_cons in Hin as [->|Hin]; [by vm_compute|]); by apply elem_of_nil in Hin.
  - rewrite bool_decide_false by (rewrite Hc; tauto). by vm_compute.
Qed.
Lemma shown_role t roles r :
  r ∈ roles → deployed t r → r ≠ ROLE_FS_MDS_CLI →
  r ∈ shown_roles (bool_decide (s_Deploy (CoordinatorServices t) ≠ None)) roles.
Proof.
  intros Hr (s & Hs & Hd) Hc. apply list_elem_of_filter. split; [|done]. split; [done|].
  intros Hb%bool_decide_eq_false ->. injection Hs as <-. by destruct Hb.
Qed.

Lemma NoDup_finer {A B C} (f : A → B) (g : A → C) l :
  (∀ x y, x ∈ l → y ∈ l → g x = g y → f x = f y) → NoDup (f <$> l) → NoDup (g <$> l).
Proof.
  induction l as [|x l IH]; intros Hg; cbn; [constructor|]. intros [Hx Hl]%NoDup_cons. apply NoDup_cons. split.
  - intros (y & Hy & Hin)%list_elem_of_fmap. apply Hx. apply list_elem_of_fmap. exists y. split; [|done].
    apply Hg; [by left|by right|done].
  - apply IH; [|done]. intros y z Hy Hz. apply Hg; by right.
Qed.

Section topology_table.
Context `{MapOrder} `{LessSort} (Prefix : list string → string).

Lemma parsed_well_placed stack uuid parse data c c' dcs l :
  ParseTopology stack uuid parse data c = Ok (c', dcs) → parents_tell dcs → Forall (status_of_dc dcs) l →
  well_placed l ∧ Forall (λ s, ∃ n, instances_of s = Ok n) l.
Proof.
  intros (t & roles & _ & Hr & Hsh & _)%ParseTopology_Ok Hp Hl. rewrite Forall_forall in Hl.
  apply shapes_deployed in Hsh. rewrite Forall_fmap, Forall_forall in Hsh.
  assert (∀ s, s ∈ l → ∃ dc, asked dcs dc ∧ ss_ParentId s = GetParentId dc ∧ ss_Role s = GetRole dc ∧ ss_Config s = dc ∧
            ∃ n, instances_of s = Ok n) as Hf.
  { intros s (dc & ? & ? & ? & ? & ? & Ha & Hs)%Hl. exists dc. split; [done|]. by eapply service_status_fields. }
  split; [split|].
  - intros x y (dx & [Hx Hcx] & _ & -> & _ & _)%Hf (dy & [Hy Hcy] & _ & -> & _ & _)%Hf.
    apply (scores_differ_spec (shown_roles (bool_decide (s_Deploy (CoordinatorServices t) ≠ None)) roles));
      [by eapply topology_scores|..]; apply shown_role; try done; by apply Hsh.
  - intros x y (dx & Hx & -> & -> & -> & _)%Hf (dy & Hy & -> & -> & -> & _)%Hf.
    rewrite (Hp dx dy Hx Hy). unfold dc_entry. split; [by intros [= ? ?]|by intros [-> ->]].
  - apply Forall_forall. intros s (dc & _ & _ & _ & _ & Hn)%Hf. exact Hn.
Qed.

(** C38: when the parent ids of the services of a parsed topology tell the deploy entries -
    two services, no mds clients, have the same parent id exactly when they have the same
    role and stand in the same entry of it -, the table without the instances has one line
    for each deploy entry: the statuses of services, as the status command records them,
    fall into one group for each entry that occurs, and each line shows its group, with
    the number of the statuses in it. *)
Theorem one_line_per_entry stack uuid parse data c c' dcs l :
  ParseTopology stack uuid parse data c = Ok (c', dcs) → parents_tell dcs → Forall (status_of_dc dcs) l →
  ∃ gs lines, status_lines Prefix false l = Ok lines ∧ concat gs ≡ₚ l ∧
    Forall (λ g, ∀ x y, x ∈ g → y ∈ g → entry x = entry y) gs ∧ NoDup ((λ g, entry <$> head g) <$> gs) ∧
    Forall2 line_of gs lines.
Proof.
  intros Ht Hp Hl. destruct (parsed_well_placed _ _ _ _ _ _ _ _ Ht Hp Hl) as [Hw Hi].
  destruct (lines_of_groups Prefix l Hw Hi) as (gs & lines & Hm & Hc & Hn & Hlo).
  assert (∀ g, g ∈ gs → g ≠ [] ∧ (∀ x, x ∈ g → ss_ParentId x = group_parent g) ∧ ∀ x, x ∈ g → x ∈ l) as Hg.
  { intros g Hin. assert (g ≠ [] ∧ Forall (λ x, ss_ParentId x = group_parent g) g) as [Hne Hgp].
    { revert g Hin. apply Forall_forall. eapply Forall2_Forall_l; [exact Hlo|]. apply Forall_forall.
      intros line _ g Ho. split; [|by apply (lo_parent _ _ Ho)]. intros ->.
      destruct (lo_member _ _ Ho) as (s & _ & Hs & _). by apply elem_of_nil in Hs. }
    split; [done|]. split; [by apply Forall_forall|].
    intros x Hx. rewrite <-Hc. apply list_elem_of_In, in_concat. exists g. by rewrite <-!list_elem_of_In. }
  assert (∀ x y, x ∈ l → y ∈ l → entry x = entry y ↔ ss_ParentId x = ss_ParentId y) as He.
  { intros x y Hx Hy. rewrite Forall_forall in Hl.
    destruct (Hl x Hx) as (dx & ? & ? & ? & ? & ? & Hax & Hsx). destruct (Hl y Hy) as (dy & ? & ? & ? & ? & ? & Hay & Hsy).
    apply service_status_fields in Hsx as (-> & _ & Ex & _). apply service_status_fields in Hsy as (-> & _ & Ey & _).
    unfold entry. rewrite Ex, Ey. symmetry. by apply Hp. }
  exists gs, lines. split_and!; [done|done| | |done].
  - apply Forall_forall. intros g (_ & Hgp & Hgl)%Hg x y Hx Hy. apply He; [by apply Hgl..|]. by rewrite !Hgp.
  - eapply (NoDup_finer group_parent); [|exact Hn]. intros g1 g2 (Hne1 & Hg1 & Hl1)%Hg (Hne2 & Hg2 & Hl2)%Hg.
    destruct g1 as [|x g1]; [done|]. destruct g2 as [|y g2]; [done|]. cbn [head fmap option_fmap option_map].
    intros Hxy%(inj Some). apply He; [apply Hl1; by left|apply Hl2; by left|exact Hxy].
Qed.
End topology_table.

(** Statuses of a parsed topology, by the numbers of their services. *)
Definition sample_statuses (dcs : list DeployConfig) (ks : list nat) : list ServiceStatus :=
  omap (λ k, dc ← dcs !! k;
    match service_status dc (GetId dc) ("c" +:+ Itoa (Z.of_nat k)) "" false "Up 2 hours" with Ok s => Some s | _ => None end) ks.
Lemma sample_statuses_of dcs ks :
  forallb (λ k, match dcs !! k with Some dc => bool_decide (GetRole dc ≠ ROLE_FS_MDS_CLI) | None => false end) ks = true →
  Forall (status_of_dc dcs) (sample_statuses dcs ks).
Proof.
  intros Hk. rewrite forallb_forall in Hk. apply Forall_forall.
  intros s (k & Hin & (dc & Hdc & Hs)%bind_Some)%list_elem_of_omap. specialize (Hk k (proj1 (list_elem_of_In _ _) Hin)).
  rewrite Hdc in Hk. apply bool_decide_eq_true in Hk.
  destruct (service_status _ _ _ _ _ _) as [s'| |] eqn:E; try discriminate. injection Hs as ->.
  exists dc, (GetId dc), ("c" +:+ Itoa (Z.of_nat k)), "", false, "Up 2 hours". split; [|done].
  split; [by eapply list_elem_of_lookup_2|done].
Qed.
Lemma one_line_per_entry_witness :
  let out := res_get (None, []) (parse_sample (store_topology "h1" "h2" "" 1 2)) in
  let l := sample_statuses out.2 [3; 0; 2; 1] in
  ∃ gs lines, @status_lines canonical_order canonical_sort (λ _, "") false l = Ok lines ∧ concat gs ≡ₚ l ∧
    Forall2 line_of gs lines ∧
    (λ s, (ss_Role s, ss_Host s, ss_Instances s)) <$> lines =
      [(ROLE_COORDINATOR, "h1", "1/1"); (ROLE_STORE, "h1", "1/1"); (ROLE_STORE, "h2", "2/2")].
Proof.
  cbv zeta. set (out := res_get (None, []) (parse_sample (store_topology "h1" "h2" "" 1 2))).
  destruct (@one_line_per_entry canonical_order canonical_sort (λ _, "") 20 sample_uuid (reads (store_topology "h1" "h2" "" 1 2))
    "topo" sample_ctx out.1 out.2 (sample_statuses out.2 [3; 0; 2; 1])) as (gs & lines & Hl & Hc & _ & _ & Ho).
  - transitivity (Ok (E := error) out); [|by destruct out]. apply res_get_Ok. vm_compute. reflexivity.
  - apply parents_tellb_spec. vm_compute. reflexivity.
  - apply sample_statuses_of. vm_compute. reflexivity.
  - exists gs, lines. split_and!; [done..|]. revert Hl. vm_compute. by intros [= <-].
Defined.

(** Two entries with the same host and the same name, which [ParseTopology] accepts, give
    two lines of one parent when another entry stands between them. *)
Definition twice_topology : Topology_ :=
  let store h n := mkDeploy h "a" 0 0 n None in
  mkTopology KIND_DINGOSTORE None zero_Service zero_Service zero_Service zero_Service zero_Service zero_Service
    (services [sample_deploy "h1" 1]) (services [store "h1" 1%Z; store "h2" 1%Z; store "h1" 2%Z])
    zero_Service zero_Service zero_Service zero_Service zero_Service zero_Service.
Lemma two_lines_of_one_parent :
  let dcs := sample_dcs twice_topology in
  is_Ok (parse_sample twice_topology) = true ∧ parents_tellb dcs = false ∧
  (λ dc, (GetId dc, GetParentId dc)) <$> take 3 (drop 1 dcs) ++ drop 4 dcs =
    [("store_h1_a_0", "store_h1_a_0"); ("store_h2_a_0", "store_h2_a_0"); ("store_h1_a_0", "store_h1_a_0");
     ("store_h1_a_1", "store_h1_a_0")] ∧
  (λ s, (ss_Id s, ss_Host s, ss_Instances s)) <$>
    res_get [] (@status_lines canonical_order canonical_sort (λ _, "") false (sample_statuses dcs [1; 2; 4])) =
    [("store_h1_a_0", "h1", "1/1"); ("store_h2_a_0", "h2", "1/1"); ("store_h1_a_1", "h1", "1/2")].
Proof. vm_compute. split_and!; reflexivity. Qed.

(** ** Columns *)

Section columns.
Context `{MapOrder} `{LessSort} (Prefix : list string → string) (BlueString RedString : string → string).
#[local] Notation row := (buildStatusLine BlueString RedString).
#[local] Notation Format := (FormatStatus Prefix BlueString RedString).

(** The cell that belongs under a title. *)
Definition column_cell (name : string) (s : ServiceStatus) : cell :=
  default (Text "") ((list_to_map
    [("Id", Text (ss_Id s)); ("Role", Text (ss_Role s)); ("Host", Text (ss_Host s)); ("Instances", Text (ss_Instances s));
     ("Container Id", Text (ss_ContainerId s)); ("Status", status_cell BlueString RedString (ss_Status s));
     ("Ports", Text (or_dash (ss_Ports s))); ("Log Dir", Text (ss_LogDir s)); ("Data Dir", Text (ss_DataDir s));
     ("Raft Dir", Text (ss_RaftDir s)); ("Doc Dir", Text (ss_DocDir s)); ("Vector Dir", Text (ss_VectorDir s))]
     : gmap string cell) !! name).

(** The options displayStatus calls with: the data directory is left out for a metadata
    server cluster only, which is a file system. *)
Definition shown_options (kind : string) (excludeCols : list string) (isMdsv2Only : bool) : Prop :=
  excludeCols = [] ∧ isMdsv2Only = false ∨
  excludeCols = ["Data Dir"] ∧ isMdsv2Only = true ∧ kind = KIND_DINGOFS.

Definition hidden_columns : list string := ["Ports"; "Data Dir"; "Log Dir"; "Raft Dir"; "Doc Dir"; "Vector Dir"].
(** The cells of a line that is not verbose. *)
Definition shown_line (verbose : bool) (title : list string) (line : list cell) : list cell :=
  if verbose then line else
  imap (λ k c, match title !! k with Some name => if decide (name ∈ hidden_columns) then Text "" else c | None => c end) line.

(** The titles, one list per kind of table. *)
Lemma status_titles kind excludeCols isMdsv2 isMdsv2Only :
  shown_options kind excludeCols isMdsv2Only →
  let dirs := match isMdsv2Only, bool_decide (kind = KIND_DINGODB), shows_raft kind isMdsv2 with
              | true, _, _ => ["Log Dir"]
              | false, true, _ => ["Log Dir"; "Data Dir"; "Raft Dir"; "Doc Dir"; "Vector Dir"]
              | false, false, true => ["Log Dir"; "Data Dir"; "Raft Dir"]
              | false, false, false => ["Log Dir"; "Data Dir"]
              end in
  status_title kind excludeCols isMdsv2 isMdsv2Only = COMMON_TITLE ++ dirs ∧
  (isMdsv2Only = true → bool_decide (kind = KIND_DINGODB) = false) ∧
  (bool_decide (kind = KIND_DINGODB) = true → shows_raft kind isMdsv2 = true).
Proof.
  intros [[-> ->]|(-> & -> & ->)]; unfold status_title, shows_raft; split_and!; try done.
  - destruct (decide (kind = KIND_DINGODB)) as [->|Hd]; [by destruct isMdsv2|].
    rewrite (bool_decide_false (kind = KIND_DINGODB)) by done.
    destruct (bool_decide (kind = KIND_DINGOSTORE) || isMdsv2 || false); rewrite ?decide_False by done; done.
  - intros ->. by rewrite !orb_true_r.
  - by destruct isMdsv2.
Qed.

(** Under each title stands the field it names. *)
Theorem status_columns kind excludeCols isMdsv2 isMdsv2Only s k name :
  shown_options kind excludeCols isMdsv2Only →
  status_title kind excludeCols isMdsv2 isMdsv2Only !! k = Some name →
  row (shows_raft kind isMdsv2) (bool_decide (kind = KIND_DINGODB)) s !! k = Some (column_cell name s).
Proof.
  intros (-> & Hm & Hd)%(status_titles _ _ isMdsv2) Hk. revert Hk.
  destruct isMdsv2Only, (bool_decide (kind = KIND_DINGODB)), (shows_raft kind isMdsv2); simpl;
    try (by specialize (Hm eq_refl)); try (by specialize (Hd eq_refl)); intros Hk;
    repeat (destruct k as [|k]; [by injection Hk as <-|]); discriminate Hk.
Qed.

Definition blank (k : nat) (line : list cell) : list cell := <[k := Text ""]> line.
Definition wide (n : nat) (lines : list (list cell)) : Prop := Forall (λ l, n ≤ length l) lines.
Lemma wide_blank n k lines : wide n lines → wide n (blank k <$> lines).
Proof. intros Hw. apply Forall_fmap. eapply Forall_impl; [exact Hw|]. intros l. simpl. unfold blank. by rewrite length_insert. Qed.
Lemma cut_Ok title name lines k n :
  default 0 (Locate title !! name) = k → k < n → wide n lines → cut title name lines = Ok (blank k <$> lines).
Proof.
  intros <- Hk Hw. apply map_res_pure. intros line Hl. rewrite decide_True; [done|].
  apply (proj1 (Forall_forall _ _) Hw) in Hl. lia.
Qed.
Lemma cut_if_in title name lines : Contains title name = true → cut_if title name lines = cut title name lines.
Proof. unfold cut_if. by intros ->. Qed.
Lemma cut_if_out title name lines : Contains title name = false → cut_if title name lines = Ok lines.
Proof. unfold cut_if. by intros ->. Qed.
End columns.

#[local] Hint Resolve wide_blank : core.
Lemma Ok_then {E A B} (a : A) (f : A → res E B) : (x ← Ok a; f x) = f a.
Proof. done. Qed.
Ltac cut_step n k :=
  first [ rewrite cut_if_out by (vm_compute; reflexivity)
        | rewrite ?cut_if_in by (vm_compute; reflexivity);
          rewrite (cut_Ok _ _ _ k n) by (first [lia | solve [auto 10] | vm_compute; reflexivity]) ];
  rewrite ?Ok_then.
Ltac cut_steps n :=
  intros Hw; unfold cut_columns; cut_step n 6; cut_step n 8; cut_step n 7; cut_step n 9; cut_step n 10; cut_step n 11; try reflexivity.

Lemma cut_mds_table lines :
  wide 8 lines → cut_columns false (COMMON_TITLE ++ ["Log Dir"]) lines = Ok (blank 7 <$> (blank 6 <$> lines)).
Proof. cut_steps 8. Qed.
Lemma cut_plain_table lines :
  wide 9 lines → cut_columns false (COMMON_TITLE ++ ["Log Dir"; "Data Dir"]) lines =
    Ok (blank 7 <$> (blank 8 <$> (blank 6 <$> lines))).
Proof. cut_steps 9. Qed.
Lemma cut_raft_table lines :
  wide 10 lines → cut_columns false (COMMON_TITLE ++ ["Log Dir"; "Data Dir"; "Raft Dir"]) lines =
    Ok (blank 9 <$> (blank 7 <$> (blank 8 <$> (blank 6 <$> lines)))).
Proof. cut_steps 10. Qed.
Lemma cut_index_table lines :
  wide 12 lines → cut_columns false (COMMON_TITLE ++ ["Log Dir"; "Data Dir"; "Raft Dir"; "Doc Dir"; "Vector Dir"]) lines =
    Ok (blank 11 <$> (blank 10 <$> (blank 9 <$> (blank 7 <$> (blank 8 <$> (blank 6 <$> lines)))))).
Proof. cut_steps 12. Qed.

Ltac cut_wide := repeat (constructor; [simpl; lia|]); apply Forall_fmap, Forall_forall; intros; simpl; lia.
Ltac cut_same :=
  apply (f_equal Ok); rewrite <-!list_fmap_compose; repeat (apply (f_equal2 cons); [reflexivity|]);
  apply list_fmap_ext; intros ? ? (s & -> & _)%list_lookup_fmap_Some; reflexivity.

Section table_text.
Context `{MapOrder} `{LessSort} (Prefix : list string → string) (BlueString RedString : string → string).
#[local] Notation row := (buildStatusLine BlueString RedString).

Definition table_lines (kind : string) (isMdsv2 : bool) (title : list string) (l : list ServiceStatus) : list (list cell) :=
  (FormatTitle title).1 :: (FormatTitle title).2 :: (row (shows_raft kind isMdsv2) (bool_decide (kind = KIND_DINGODB)) <$> l).

Lemma cut_columns_Ok kind excludeCols isMdsv2 isMdsv2Only verbose l :
  shown_options kind excludeCols isMdsv2Only →
  let title := status_title kind excludeCols isMdsv2 isMdsv2Only in
  cut_columns verbose title (table_lines kind isMdsv2 title l) =
    Ok (shown_line verbose title <$> table_lines kind isMdsv2 title l).
Proof.
  intros (-> & Hm & Hd)%(status_titles _ _ isMdsv2).
  destruct verbose. { unfold cut_columns, shown_line. by rewrite list_fmap_id. }
  unfold table_lines.
  destruct isMdsv2Only, (bool_decide (kind = KIND_DINGODB)), (shows_raft kind isMdsv2);
    try (by specialize (Hm eq_refl)); try (by specialize (Hd eq_refl)).
  - rewrite cut_mds_table; [cut_same|cut_wide].
  - rewrite cut_mds_table; [cut_same|cut_wide].
  - rewrite cut_index_table; [cut_same|cut_wide].
  - rewrite cut_raft_table; [cut_same|cut_wide].
  - rewrite cut_plain_table; [cut_same|cut_wide].
Qed.

Lemma status_columns_wide kind excludeCols isMdsv2 isMdsv2Only l :
  shown_options kind excludeCols isMdsv2Only →
  let title := status_title kind excludeCols isMdsv2 isMdsv2Only in wide (length title) (table_lines kind isMdsv2 title l).
Proof.
  intros Ho title. unfold wide, table_lines. do 2 (constructor; [cbn; by rewrite length_fmap|]). apply Forall_forall.
  intros line (s & -> & _)%list_elem_of_fmap.
  apply Nat.nlt_ge. intros Hlt. set (n := length (row (shows_raft kind isMdsv2) (bool_decide (kind = KIND_DINGODB)) s)) in *.
  destruct (lookup_lt_is_Some_2 title n Hlt) as [name Hn].
  apply (status_columns BlueString RedString _ _ _ _ s) in Hn; [|done]. apply lookup_lt_Some in Hn. fold n in Hn. lia.
Qed.
Lemma shown_line_length verbose title line : length (shown_line verbose title line) = length line.
Proof. unfold shown_line. destruct verbose; [done|]. by rewrite length_imap. Qed.

Lemma table_text_eol lines n : lines ≠ [] → ∃ t, table_text lines n = t +:+ eol.
Proof.
  unfold table_text. generalize (widths lines) as ws. induction lines as [|line [|line' lines] IH]; intros ws Hne; [done| |].
  - simpl. eexists. by rewrite app_nil_r_string.
  - destruct (IH ws) as [t Ht]; [done|]. eexists. cbn [foldr] in *. rewrite Ht. symmetry. apply app_assoc_string.
Qed.
Lemma with_width_eol s : ∃ width, with_width (s +:+ eol) = Ok (s +:+ eol, width).
Proof.
  unfold with_width. change eol with (String (byte 10) ""). rewrite Split_sep.
  change (Split "" (byte 10)) with [""]. rewrite reverse_snoc.
  destruct (reverse (Split s (byte 10))) as [|x r] eqn:E; [|by eexists].
  exfalso. apply (f_equal reverse) in E. rewrite reverse_involutive in E. by apply Split_nonempty in E.
Qed.

(** The status table is printed without a panic, and it is the table of the titles and the
    lines, columns of ports and directories emptied unless it is verbose. *)
Theorem FormatStatus_text kind excludeCols isMdsv2 isMdsv2Only verbose expand statuses l :
  shown_options kind excludeCols isMdsv2Only → status_lines Prefix expand statuses = Ok l →
  let title := status_title kind excludeCols isMdsv2 isMdsv2Only in
  ∃ width, FormatStatus Prefix BlueString RedString kind statuses verbose expand excludeCols isMdsv2 isMdsv2Only =
    Ok (table_text (shown_line verbose title <$> table_lines kind isMdsv2 title l) 2, width).
Proof.
  intros Ho Hl title. unfold FormatStatus. fold title.
  pose proof (cut_columns_Ok kind excludeCols isMdsv2 isMdsv2Only verbose l Ho) as Hcut.
  cbv zeta in Hcut. fold title in Hcut.
  change (FormatTitle title) with ((FormatTitle title).1, (FormatTitle title).2). cbv beta iota. rewrite Hl, Ok_then.
  unfold table_lines at 1 in Hcut. rewrite Hcut, Ok_then.
  rewrite FixedFormat_table, Ok_then.
  - destruct (table_text_eol (shown_line verbose title <$> table_lines kind isMdsv2 title l) 2) as [t Ht]; [done|].
    rewrite Ht. apply with_width_eol.
  - pose proof (status_columns_wide kind excludeCols isMdsv2 isMdsv2Only l Ho) as Hw. fold title in Hw.
    apply Forall_fmap. eapply Forall_impl; [exact Hw|]. intros line Hline.
    change (length (shown_line verbose title (FormatTitle title).1) ≤ length (shown_line verbose title line)).
    rewrite !shown_line_length. unfold FormatTitle. cbn [fst]. by rewrite length_fmap.
Qed.
End table_text.
