(* ===== verification/StatusCmd.v ===== *)
(** The command that shows the statuses of a cluster's services and, with --with-cluster,
    those of a second cluster (runStatus of src/cli/command/cluster/status.go).

    The playbook is the one of ServiceCmd.v, the table the one of StatusTable.v.  Switching
    to the second cluster replaces the memory storage: the world has none of the statuses
    of the first. *)

From S2P Require Import Prelude Errno GoLib Utils Storage StorageFacts CliConfig Vars DeployConfig Topology Hosts Cli Session Tasks TasksFacts Playbook PlaybookFacts Deploy ServiceCmd Shell Steps ServiceEnv Services TextTable StatusTable.

Record statusOptions : Type := mkStatusOptions {
  so_id : string; so_role : string; so_host : string; so_verbose : bool;
  so_showInstances : bool; so_withCluster : string; so_dir : string }.

(** What is status_text: the lines of the header, a table, or a message. *)
Inductive status_text : Type :=
| PHeader (lines : list string)
| PTable (output : string)
| PRule (width : nat)
| PMessage (text : string).

Section status.
Context {W : Type} `{World W} `{Driver} {CC ANY : Type}.
Context (os : OS) `{MapOrder} `{SliceSort} `{LessSort}.
Context (parse_hosts : string → option Hosts_) (parse : string → option Topology_).
Context (stack : nat) (uuid : nat → string) (md5 : string → string).
Context (ssh : SSH W SSHConfig SSHConfig) (bar_id : nat → nat).
Context (mem_set : string → optval → W → W)
  (new_task : DingoCli → StepType → arg CC ANY → eff error W (option (Task W SSHConfig SSHConfig))).
Context (Prefix : list string → string) (BlueString RedString : string → string).
Context (new_memory : W → W).
Notation Run cli := (Run (CC := CC) (ANY := ANY) ssh bar_id mem_set (new_task cli)).
Notation ParseTopology := (cli_ParseTopology os parse_hosts parse stack uuid).
Notation genStatusPlaybook cli dcs o :=
  (genStatusPlaybook (CC := CC) (ANY := ANY) md5 cli dcs (so_id o) (so_role o) (so_host o)).

(** [displayStatus] on the statuses of the world: what it prints and the width of the table.  It
    returns no error: a getter it calls panics. *)
Definition display (cli : DingoCli) (dcs : list DeployConfig) (o : statusOptions) (w : W)
    : res error (list status_text * nat) :=
  '(lines, (output, width)) ← displayStatus Prefix BlueString RedString (clusterName cli) dcs (statuses w)
                                (so_verbose o) (so_showInstances o) (so_dir o);
  Ok ([PHeader lines; PTable output], width).

(** Topology, playbook, display; the error of the playbook's run is passed on. *)
Definition plan (cli : DingoCli) (o : statusOptions)
    : res error (list DeployConfig * Playbook (CC := CC) (ANY := ANY) (OPT := optval)) :=
  p ← ParseTopology cli;
  pb ← genStatusPlaybook cli p.2 o;
  Ok (p.2, pb).

(** The part after the first table; false when it panics. *)
Inductive with_cluster (cli : DingoCli) (o : statusOptions) (w : W) : W → list status_text → bool → Prop :=
| with_unknown d :
    (∀ c, (GetClusterByName (so_withCluster o) (db w)).1 = Ok c → (c_Id c ≤ 0)%Z) →
    (GetClusterByName (so_withCluster o) (db w)).2 = d →
    with_cluster cli o w (set_db d w) [PMessage ("Not Found cluster: " +:+ so_withCluster o +:+ " ")] true
| with_no_plan c d e :
    GetClusterByName (so_withCluster o) (db w) = (Ok c, d) → (0 < c_Id c)%Z →
    plan (SwitchCluster cli c) o = Err e →
    with_cluster cli o w (new_memory (set_db d w)) [] true
| with_plan_panics c d :
    GetClusterByName (so_withCluster o) (db w) = (Ok c, d) → (0 < c_Id c)%Z →
    plan (SwitchCluster cli c) o = Panic →
    with_cluster cli o w (new_memory (set_db d w)) [] false
| with_run_panics c d dcs pb w1 :
    GetClusterByName (so_withCluster o) (db w) = (Ok c, d) → (0 < c_Id c)%Z →
    plan (SwitchCluster cli c) o = Ok (dcs, pb) →
    Run (SwitchCluster cli c) pb (new_memory (set_db d w)) w1 Crashed →
    with_cluster cli o w w1 [] false
| with_shown c d dcs pb w1 e :
    GetClusterByName (so_withCluster o) (db w) = (Ok c, d) → (0 < c_Id c)%Z →
    plan (SwitchCluster cli c) o = Ok (dcs, pb) →
    Run (SwitchCluster cli c) pb (new_memory (set_db d w)) w1 (Returned e) →
    with_cluster cli o w w1
      match display (SwitchCluster cli c) dcs o w1 with Ok (l, _) => l | _ => [] end
      (is_Ok (display (SwitchCluster cli c) dcs o w1)).

Inductive runStatus (cli : DingoCli) (o : statusOptions) (w : W) : W → list status_text → outcome → Prop :=
| status_fails out :
    of_res (plan cli o) = inl out → runStatus cli o w w [] out
| status_run_panics dcs pb w1 :
    plan cli o = Ok (dcs, pb) → Run cli pb w w1 Crashed → runStatus cli o w w1 [] Crashed
| status_display_panics dcs pb w1 e :
    plan cli o = Ok (dcs, pb) → Run cli pb w w1 (Returned e) → is_Ok (display cli dcs o w1) = false →
    runStatus cli o w w1 [] Crashed
| status_shown dcs pb w1 e l width :
    plan cli o = Ok (dcs, pb) → Run cli pb w w1 (Returned e) → display cli dcs o w1 = Ok (l, width) →
    so_withCluster o = "" → runStatus cli o w w1 l (Returned e)
| status_both dcs pb w1 e l width w2 l2 (ok : bool) :
    plan cli o = Ok (dcs, pb) → Run cli pb w w1 (Returned e) → display cli dcs o w1 = Ok (l, width) →
    so_withCluster o ≠ "" → with_cluster cli o w1 w2 l2 ok →
    runStatus cli o w w2 (l ++ PRule width :: l2) (if ok then Returned e else Crashed).

(** ** Theorems *)

Definition without_cluster (o : statusOptions) : statusOptions :=
  mkStatusOptions (so_id o) (so_role o) (so_host o) (so_verbose o) (so_showInstances o) "" (so_dir o).

(** The second cluster never decides the result: what the command returns is what it returns
    without --with-cluster, and what it prints then comes first - also when the second
    cluster is unknown, has no topology or no matching service, or its playbook fails. *)
Theorem with_cluster_result cli o w w' l e :
  runStatus cli o w w' l (Returned e) →
  ∃ w1 l1, runStatus cli (without_cluster o) w w1 l1 (Returned e) ∧ l1 `prefix_of` l.
Proof.
  intros Hr. remember (Returned e) as out eqn:Hout.
  destruct Hr as [out Hp|dcs pb w1 Hp Hrun|dcs pb w1 e' Hp Hrun Hd|dcs pb w1 e' l width Hp Hrun Hd Hw
                 |dcs pb w1 e' l width w2 l2 ok Hp Hrun Hd Hw Hc]; try discriminate.
  - exists w, []. split; [by apply status_fails|done].
  - exists w1, l. split; [|done]. eapply status_shown; [exact Hp|exact Hrun|exact Hd|done].
  - destruct ok; [|discriminate]. exists w1, l. split; [|by apply prefix_app_r].
    eapply status_shown; [exact Hp|exact Hrun|exact Hd|done].
Qed.

(** The part of the second cluster always comes to an end, and so does the command. *)
Lemma with_cluster_ends cli o w : ∃ w' l ok, with_cluster cli o w w' l ok.
Proof.
  destruct (GetClusterByName (so_withCluster o) (db w)) as [[c| |] d] eqn:Hg;
    [|do 3 eexists; eapply with_unknown; [by rewrite Hg|reflexivity]..].
  destruct (decide (c_Id c ≤ 0)%Z) as [Hc|Hc].
  { do 3 eexists. eapply with_unknown; [|reflexivity]. rewrite Hg. by intros ? [= <-]. }
  assert (0 < c_Id c)%Z as Hc' by lia.
  destruct (plan (SwitchCluster cli c) o) as [[dcs pb]|e|] eqn:Hp.
  - destruct (Run_returns ssh bar_id _ _ mem_set (new_task (SwitchCluster cli c)) pb (new_memory (set_db d w)))
      as (w1 & [e|] & Hr); do 3 eexists; [by eapply with_shown|by eapply with_run_panics].
  - do 3 eexists. by eapply with_no_plan.
  - do 3 eexists. by eapply with_plan_panics.
Qed.

Theorem runStatus_ends cli o w : ∃ w' l out, runStatus cli o w w' l out.
Proof.
  destruct (of_res (plan cli o)) as [out|[dcs pb]] eqn:Hp.
  { do 3 eexists. by apply status_fails. }
  assert (plan cli o = Ok (dcs, pb)) as Hp' by (destruct (plan cli o); by simplify_eq/=).
  destruct (Run_returns ssh bar_id _ _ mem_set (new_task cli) pb w) as (w1 & [e|] & Hr).
  2:{ do 3 eexists. by eapply status_run_panics. }
  destruct (is_Ok (display cli dcs o w1)) eqn:Hd.
  2:{ do 3 eexists. by eapply status_display_panics. }
  destruct (display cli dcs o w1) as [[l width]| |] eqn:Hd'; try discriminate.
  destruct (decide (so_withCluster o = "")) as [Hw|Hw].
  { do 3 eexists. by eapply status_shown. }
  destruct (with_cluster_ends cli o w1) as (w2 & l2 & ok & Hc).
  do 3 eexists. by eapply status_both.
Qed.

(** The statuses the second display reads were written by the second playbook: its run
    starts from the fresh memory of the switch. *)
Theorem with_cluster_fresh cli o w w' l :
  (∀ w, statuses (new_memory w) = ∅) → with_cluster cli o w w' l true →
  (∃ m, l = [PMessage m]) ∨ l = [] ∨
  ∃ c dcs pb w0 w1 e width,
    statuses w0 = ∅ ∧ Run (SwitchCluster cli c) pb w0 w1 (Returned e) ∧
    display (SwitchCluster cli c) dcs o w1 = Ok (l, width).
Proof.
  intros Hn Hc. remember true as ok eqn:Hok. destruct Hc as [| | | |c d dcs pb w1 e Hg Hi Hp Hr]; try discriminate; [by eauto|by auto|].
  destruct (display (SwitchCluster cli c) dcs o w1) as [[l width]| |] eqn:Hd; try discriminate.
  right. right. exists c, dcs, pb, (new_memory (set_db d w)), w1, e, width. by rewrite Hn.
Qed.
End status.
