(* ===== verification/ConfigCmd.v ===== *)
(** The commands on the topology and the hosts (src/cli/command/config: commit.go, diff.go,
    show.go; src/cli/command/hosts: commit.go, list.go, show.go).

    What differs from the old text is only shown: the texts a command prints are left out but
    for those of the two show commands. *)

From S2P Require Import Prelude Errno GoLib Utils Storage StorageFacts Vars DeployConfig Topology TopologyDiff ItemSet Hosts HostsFacts Cli Session SafeMap HostDate Shell Tasks Playbook Deploy ServiceCmd Steps ServiceEnv Services ServicesFacts Checker ClusterCmd Monitor MonitorTasks MonitorCmd TextTable.
From Stdlib Require Import Ascii.

(** A file given on the command line: [None] when there is none, [Some None] when it cannot
    be read. *)
Definition File : Type := option (option string).

Section commands.
Context `{Driver} (os : OS) `{MapOrder}.
Context (parse_hosts : string → option Hosts_) (parse : string → option Topology_).
Context (stack : nat) (uuid : nat → string) (md5 : string → string) (Hash : DeployConfig → option Z).

(** ** config *)

Definition skipError (e : error) : bool :=
  bool_decide (e = ECode ERR_EMPTY_CLUSTER_TOPOLOGY) || bool_decide (e = ECode ERR_NO_SERVICES_IN_TOPOLOGY).
(** Services that are added or deleted are warned of, not refused. *)
Definition checkDiff (uuid1 uuid2 : nat → string) (cli : DingoCli) (newData : string) : res error unit :=
  match cli_DiffTopology os parse_hosts parse stack uuid Hash uuid1 uuid2 cli (clusterTopologyData cli) newData with
  | Ok _ => Ok ()
  | Err e => if skipError e then Ok () else Err e
  | Panic => Panic
  end.

(** The playbook has one step, which runs the check of Checker.v once. *)
Definition check_topology_playbook (cli : DingoCli) (dcs : list DeployConfig) : res error unit :=
  match dcs with
  | [] => Panic (* index out of range *)
  | dc :: _ =>
      skipRoles ← FetchSkipRoles (GetKind dc) dcs (GetRoles dcs);
      CheckTopology os parse_hosts md5 (set_options (commit_options skipRoles) cli) dcs
  end.

Definition cfg_readTopology (file : File) (o : commitOptions) : res error string :=
  if decide (co_filename o = "") then Ok "" else
  match file with
  | None => Err (ECode ERR_TOPOLOGY_FILE_NOT_FOUND)
  | Some None => Err (ECode ERR_READ_TOPOLOGY_FILE_FAILED)
  | Some (Some data) => Ok data
  end.

Definition cfg_checkTopology (uuid1 uuid2 : nat → string) (cli : DingoCli) (data : string) (o : commitOptions)
    : res error unit :=
  if co_force o then Ok () else
  p ← ParseTopologyData os parse_hosts parse stack uuid cli data;
  _ ← check_topology_playbook cli p.2;
  if decide (clusterTopologyData cli = "") then Ok () else checkDiff uuid1 uuid2 cli data.

(** The current topology must parse, unless there is nothing in it. *)
Definition current_topology (cli : DingoCli) : res error unit :=
  match cli_ParseTopology os parse_hosts parse stack uuid cli with
  | Ok _ => Ok ()
  | Err e => if skipError e then Ok () else Err e
  | Panic => Panic
  end.
Definition cfg_runCommit (uuid1 uuid2 : nat → string) (cli : DingoCli) (file : File) (o : commitOptions)
    (yes : bool) : M unit :=
  _ ← lift (current_topology cli);
  data ← lift (cfg_readTopology file o);
  _ ← lift (cfg_checkTopology uuid1 uuid2 cli data o);
  if negb (co_force o) && negb yes then fail (ECode ERR_CANCEL_OPERATION) else
  as_code ERR_UPDATE_CLUSTER_TOPOLOGY_FAILED (SetClusterTopology (clusterId cli) data).

(** The two texts whose difference is printed. *)
Definition runDiff (cli : DingoCli) (file : File) : res error (string * string) :=
  match file with
  | None => Err (ECode ERR_TOPOLOGY_FILE_NOT_FOUND)
  | Some None => Err (ECode ERR_READ_TOPOLOGY_FILE_FAILED)
  | Some (Some data) => Ok (clusterTopologyData cli, data)
  end.

Definition cfg_runShow (cli : DingoCli) : res error string :=
  if decide (clusterId cli = -1)%Z then Err (ECode ERR_NO_CLUSTER_SPECIFIED)
  else Ok (if decide (clusterTopologyData cli = "") then "<empty topology>" +:+ eol else clusterTopologyData cli).

(** ** hosts *)

Definition readAndCheckHosts (file : File) : res error string :=
  match file with
  | None => Err (ECode ERR_HOSTS_FILE_NOT_FOUND)
  | Some None => Err (ECode ERR_READ_HOSTS_FILE_FAILED)
  | Some (Some data) => _ ← ParseHosts os parse_hosts data; Ok data
  end.
Definition hosts_runCommit (file : File) (force yes : bool) : M unit :=
  data ← lift (readAndCheckHosts file);
  if negb force && negb yes then fail (ECode ERR_CANCEL_OPERATION) else
  as_code ERR_UPDATE_HOSTS_FAILED (SetHosts data).

Definition listed_hosts (cli : DingoCli) (labels : string) : res error (list HostConfig) :=
  if decide (cli_hosts cli = "") then Ok [] else Hosts.Filter os parse_hosts (cli_hosts cli) (Split labels ":"%char).
Definition hosts_runList (cli : DingoCli) (verbose : bool) (labels : string) : res error string :=
  hcs ← listed_hosts cli labels; FormatHosts os hcs verbose.
Definition hosts_runShow (cli : DingoCli) : string :=
  if decide (cli_hosts cli = "") then "<empty hosts>" +:+ eol else cli_hosts cli.
End commands.

(** ** Theorems *)

Section facts.
Context `{Driver} (os : OS) `{MapOrder}.
Context (parse_hosts : string → option Hosts_) (parse : string → option Topology_).
Context (stack : nat) (uuid : nat → string) (md5 : string → string) (Hash : DeployConfig → option Z).

Lemma lift_bind {A B} (r : res error A) (f : A → M B) d :
  (a ← lift r; f a) d = match r with Ok a => f a d | Err e => (Err e, d) | Panic => (Panic, d) end.
Proof. by destruct r. Qed.

(** What a statement that is reported under a code does to the database. *)
Lemma as_code_run op (m : M unit) c d r d' :
  exec op = (_ ← m; mret None) → db_ok d → as_code c m d = (r, d') →
  db_ok d' ∧ match r with Ok _ => spec_step op (abs d) None (abs d') | Err _ => abs d' = abs d | Panic => False end.
Proof.
  intros He Hd Hm. destruct (unit_run op m d He Hd) as [Hok Hs]. unfold as_code in Hm.
  destruct (m d) as [[[]|e|] d1]; cbn [fst snd] in *; injection Hm as <- <-; [exact (conj Hok Hs)..|done].
Qed.

(** Committing a topology.  When it succeeds the text of the file is the topology of the
    cluster and nothing else has changed; unless it was forced the user has confirmed, and
    the text parses and passes the topology check, so that the commands that follow can
    parse it.  When it does not succeed the database is as it was. *)
Theorem config_commit uuid1 uuid2 cli file o yes d r d' :
  db_ok d → cfg_runCommit os parse_hosts parse stack uuid md5 Hash uuid1 uuid2 cli file o yes d = (r, d') →
  db_ok d' ∧
  match r with
  | Ok _ => ∃ data, cfg_readTopology file o = Ok data ∧ spec_step (OSetClusterTopology (clusterId cli) data) (abs d) None (abs d') ∧
      (co_force o = true ∨ yes = true ∧ ∃ p, ParseTopologyData os parse_hosts parse stack uuid cli data = Ok p ∧
        p.2 ≠ [] ∧ check_topology_playbook os parse_hosts md5 cli p.2 = Ok ())
  | _ => abs d' = abs d
  end.
Proof.
  intros Hd. unfold cfg_runCommit. rewrite lift_bind.
  destruct (current_topology _ _ _ _ _ cli) as [[]|e|]; [|by intros [= <- <-]..].
  rewrite lift_bind. destruct (cfg_readTopology file o) as [data|e|]; [|by intros [= <- <-]..].
  rewrite lift_bind. destruct (cfg_checkTopology _ _ _ _ _ _ _ _ _ cli data o) as [[]|e|] eqn:Hc; [|by intros [= <- <-]..].
  destruct (negb (co_force o) && negb yes) eqn:Hy; [by intros [= <- <-]|]. intros Hs.
  apply (as_code_run (OSetClusterTopology (clusterId cli) data)) in Hs as [Hok Hs]; [|done..]. split; [done|].
  destruct r as [[]|e|]; [|done..]. exists data. split; [done|]. split; [done|].
  unfold cfg_checkTopology in Hc. destruct (co_force o) eqn:Hforce; [by left|right]. simpl in Hy.
  split; [by destruct yes|].
  apply bind_Ok in Hc as (p & Hp & Hc). apply bind_Ok in Hc as ([] & Hch & _). exists p. split_and!; [done| |done].
  intros Hn. by rewrite Hn in Hch.
Qed.

(** Committing the hosts: what is stored parses, with hosts of different names. *)
Theorem hosts_commit file force yes d r d' :
  db_ok d → hosts_runCommit os parse_hosts file force yes d = (r, d') →
  db_ok d' ∧
  match r with
  | Ok _ => ∃ data hcs, file = Some (Some data) ∧ ParseHosts os parse_hosts data = Ok hcs ∧
      spec_step (OSetHosts data) (abs d) None (abs d') ∧ (force = true ∨ yes = true)
  | _ => abs d' = abs d
  end.
Proof.
  intros Hd. unfold hosts_runCommit. rewrite lift_bind.
  destruct (readAndCheckHosts os parse_hosts file) as [data|e|] eqn:Hr; [|by intros [= <- <-]..].
  destruct (negb force && negb yes) eqn:Hy; [by intros [= <- <-]|]. intros Hs.
  apply (as_code_run (OSetHosts data)) in Hs as [Hok Hs]; [|done..]. split; [done|].
  destruct r as [[]|e|]; [|done..]. destruct file as [[data'|]|]; [|done..]. simpl in Hr.
  apply bind_Ok in Hr as (hcs & Hh & [= ->]). exists data, hcs. split_and!; [done..|].
  destruct force; [by left|]. by destruct yes; [right|].
Qed.

Ltac host_field := first [discriminate | reflexivity | intros _; simpl; eauto].
Lemma host_line_total verbose hc : valid_host os hc → ∃ line, host_line os verbose hc = Ok line ∧ length line = 9.
Proof.
  intros Hv. pose proof (vh_typed os hc Hv) as Ht. unfold host_line.
  destruct (GetHost_total os hc Ht) as [h ->], (vh_hostname os hc Hv) as (hn & -> & _), (vh_port os hc Hv) as (p & -> & _),
    (vh_key os hc Hv) as (f & agent & Hf & _ & Ha & _), (GetLabels_total os hc Ht) as (ls & Hl & _).
  assert (∃ u, Hosts.GetUser os hc = Ok u) as [u ->].
  { unfold Hosts.GetUser. destruct (hc_getString_Ok os hc (CONFIG_USER os) Ht) as [u ->]; [host_field..|].
    simpl. case_decide; eauto. }
  assert (∃ u, GetBecomeUser hc = Ok u) as [b Hb]. { apply (hc_getString_Ok os); [done|host_field..]. }
  simpl. rewrite Ha. simpl. rewrite Hb. simpl. rewrite Hl. simpl. rewrite Hf. simpl. eauto.
Qed.

Lemma lines_total verbose hcs :
  Forall (valid_host os) hcs → ∃ lines, map_res (host_line os verbose) hcs = Ok lines ∧ Forall (λ l, length l = 9) lines.
Proof.
  induction 1 as [|hc hcs Hv _ (lines & Hm & Hl)]; [by exists []|].
  destruct (host_line_total verbose hc Hv) as (line & Hh & Hlen). exists (line :: lines). simpl.
  rewrite Hh. simpl. rewrite Hm. split; [done|by constructor].
Qed.

Lemma filter_step_all hcs out : fold_res (filter_step ∅ ∅ ∅) hcs out = Ok (out ++ hcs).
Proof.
  revert out; induction hcs as [|hc hcs IH]; intros out; simpl; [by rewrite app_nil_r|].
  unfold filter_step at 2. unfold excludeOne, includeOne, intersectOne. rewrite !decide_True by done. simpl.
  by rewrite IH, <-app_assoc.
Qed.
(** The empty label selects every host. *)
Lemma listed_all cli hcs :
  cli_hosts cli ≠ "" → ParseHosts os parse_hosts (cli_hosts cli) = Ok hcs → listed_hosts os parse_hosts cli "" = Ok hcs.
Proof.
  intros Hne Hp. unfold listed_hosts. rewrite decide_False by done. change (Split "" ":"%char) with [""].
  unfold Hosts.Filter. rewrite Hp. apply filter_step_all.
Qed.

(** The list of hosts: it is printed without a panic, and its lines are those of the selected
    hosts in the order of the hosts file, all of them when no label is given. *)
Theorem hosts_list cli verbose labels hcs :
  cli_hosts cli ≠ "" → ParseHosts os parse_hosts (cli_hosts cli) = Ok hcs →
  ∃ out lines, listed_hosts os parse_hosts cli labels = Ok out ∧ out `sublist_of` hcs ∧
    (labels = "" → out = hcs) ∧
    (∀ hc, hc ∈ out ↔ hc ∈ hcs ∧ ∃ ls, Hosts.GetLabels hc = Ok ls ∧ HostsFacts.selected (Split labels ":"%char) ls) ∧
    map_res (host_line os verbose) out = Ok lines ∧
    hosts_runList os parse_hosts cli verbose labels =
      Ok (table_text ((FormatTitle HOSTS_TITLE).1 :: (FormatTitle HOSTS_TITLE).2 :: lines) 2).
Proof.
  intros Hne Hp. destruct (ParseHosts_Ok os parse_hosts _ hcs Hp) as (_ & _ & _ & _ & Hv & _).
  destruct (Filter_selects os _ parse_hosts (cli_hosts cli) (Split labels ":"%char) hcs Hp) as (out & Ho & Hsub & Hin).
  assert (listed_hosts os parse_hosts cli labels = Ok out) as Hl by (unfold listed_hosts; by rewrite decide_False by done).
  destruct (lines_total verbose out) as (lines & Hm & Hw).
  { rewrite Forall_forall in Hv. apply Forall_forall. intros hc Hhc. apply Hv. by apply Hin. }
  exists out, lines. split_and!; [done|done| |done|done|].
  - intros ->. rewrite (listed_all cli hcs) in Hl by done. by injection Hl.
  - unfold hosts_runList. rewrite Hl. cbn [mbind Prelude.res_bind]. unfold FormatHosts.
    change (FormatTitle HOSTS_TITLE) with ((FormatTitle HOSTS_TITLE).1, (FormatTitle HOSTS_TITLE).2). cbv beta iota.
    rewrite Hm. cbn [mbind Prelude.res_bind]. apply FixedFormat_table.
    repeat (constructor; [simpl; lia|]). eapply Forall_impl; [exact Hw|]. simpl. lia.
Qed.
End facts.
