(* ===== verification/ClientStatus.v ===== *)
(** The statuses of clients (src/internal/task/task/common/client_status.go) and their table
    (src/internal/tui/client/status.go).

    A client is a row of the clients table.  The statuses are those the memory storage keeps
    under [KEY_ALL_CLIENT_STATUS]; they are written in transactions (SafeMap.v), so each
    write is one step.  [None] is the storage without that key. *)

From S2P Require Import Prelude Errno GoLib Utils Storage CliConfig Hosts Cli Tasks Deploy Components Shell Steps Services TextTable StatusTable.
From Stdlib Require Import Ascii Sorting.Sorted.

Definition MISSING_CLIENT_CONFIG : string := "-".
Definition CLIENT_STATUS_LOSED : string := "Losed".
Definition CLIENT_STATUS_UNKNOWN : string := "Unknown".

Record ClientStatus : Type := mkClientStatus {
  cs_Id : string; cs_Host : string; cs_Kind : string; cs_ContainerId : string; cs_Status : string;
  cs_AuxInfo : string; cs_CfgPath : string }.
(** The zero value of a status, which a map answers for an id it does not have. *)
Definition no_client_status : ClientStatus := mkClientStatus "" "" "" "" "" "" "".
Definition with_status (status : string) (s : ClientStatus) : ClientStatus :=
  mkClientStatus (cs_Id s) (cs_Host s) (cs_Kind s) (cs_ContainerId s) status (cs_AuxInfo s) (cs_CfgPath s).

(** ** Tasks *)

Section tasks.
Context {W : Type} `{World W} `{Driver} `{MapOrder}.
Context (os : OS) (parse_hosts : string → option Hosts_) (cli : DingoCli) (cfg : DingoCliConfig).
Context (client_statuses : W → option (gmap string ClientStatus)).
Context (set_client_statuses : gmap string ClientStatus → W → W).
Notation Task := (Tasks.Task W SSHConfig SSHConfig).
Notation Step := (Tasks.Step (W := W) (Client := SSHConfig)).
Notation Eff := (eff error W).

(** Dumping the configuration of a client to a file, whose name goes to a variable. *)
Definition dumpCfg (id cfgPath : string) : Step := λ _ reg w,
  let reg := set_str cfgPath MISSING_CLIENT_CONFIG reg in
  match storage (GetClientConfig id) w with
  | (w, Ok []) => (reg, w, None)
  | (w, Ok (c :: _)) =>
      let '(w, path) := RandFilename "/tmp" w in
      match WriteFile path (any_Data c) 420 (* 0644 *) w with
      | (w, Some _) => (reg, w, Some (EOther (ECode ERR_WRITE_FILE_FAILED)))
      | (w, None) => (set_str cfgPath path reg, w, None)
      end
  | (w, _) => (reg, w, Some (EOther (ECode ERR_SELECT_CLIENT_CONFIG_FAILED)))
  end.

Definition setClientStatus (id : string) (s : ClientStatus) (w : W) : W :=
  set_client_statuses (<[id := s]> (default ∅ (client_statuses w))) w.
Definition step2InitClientStatus (client : Client) (cfgPath : string) : Step := λ _ reg w,
  (reg, setClientStatus (cl_Id client)
     (mkClientStatus (cl_Id client) (cl_Host client) (cl_Kind client) (cl_ContainerId client) CLIENT_STATUS_UNKNOWN
        (cl_AuxInfo client) (str_var reg cfgPath)) w, None).
(** Without the statuses of the first task the assertion of their type panics. *)
Definition client_status (status : string) : string :=
  if decide (status = "") then CLIENT_STATUS_LOSED else status.
Definition step2FormatClientStatus (client : Client) (status : string) : Step := λ _ reg w,
  match client_statuses w with
  | None => (reg, crash w, None)
  | Some m =>
      let s := default no_client_status (m !! cl_Id client) in
      (reg, set_client_statuses (<[cl_Id client := with_status (client_status (str_var reg status)) s]> m) w, None)
  end.

Definition NewInitClientStatusTask (client : Client) : Eff (option Task) :=
  t ← new_task "Init Client Status" "" None;
  mret (Some (add_steps [dumpCfg (cl_Id client) "cfgPath"; step2InitClientStatus client "cfgPath"] t)).
Definition NewGetClientStatusTask (client : Client) : Eff (option Task) :=
  hc ← pure_eff (cli_GetHost os parse_hosts cli (cl_Host client));
  h ← pure_eff (Hosts.GetHost hc);
  c ← pure_eff (host_ssh os cfg hc);
  t ← new_task "Get Client Status"
        ("host=" +:+ h +:+ " kind=" +:+ cl_Kind client +:+ " containerId=" +:+ TrimContainerId (cl_ContainerId client))
        (Some c);
  mret (Some (add_steps
    [ListContainers STATUS_FORMAT ("id=" +:+ cl_ContainerId client) false true (Some "status") (cli_ExecOptions cfg);
     step2FormatClientStatus client "status"] t)).
End tasks.

(** ** Table *)

Definition client_less (s1 s2 : ClientStatus) : bool :=
  if decide (cs_Kind s1 = cs_Kind s2) then String.ltb (cs_Host s1) (cs_Host s2)
  else String.ltb (cs_Kind s1) (cs_Kind s2).
Definition CLIENT_TITLE (verbose : bool) : list string :=
  ["Id"; "Kind"; "Host"; "Container Id"; "Status"; "Aux Info"] ++ (if verbose then ["Config Dumpfile"] else []).

Section table.
Context `{LessSort} (RedString : string → string).
Definition client_decorate (status : string) : string :=
  if decide (status = CLIENT_STATUS_LOSED ∨ status = CLIENT_STATUS_UNKNOWN) then RedString status else status.
Definition client_line (verbose : bool) (s : ClientStatus) : list cell :=
  [Text (cs_Id s); Text (cs_Kind s); Text (cs_Host s); Text (TrimContainerId (cs_ContainerId s));
   DecorateMessage (cs_Status s) client_decorate; Text (cs_AuxInfo s)] ++
  (if verbose then [Text (cs_CfgPath s)] else []).
Definition sortStatues : list ClientStatus → list ClientStatus := sort_Slice client_less.
Definition FormatClientStatus (statuses : list ClientStatus) (verbose : bool) : res error string :=
  let '(first, second) := FormatTitle (CLIENT_TITLE verbose) in
  FixedFormat (first :: second :: (client_line verbose <$> sortStatues statuses)) 2.
End table.

(** * Facts *)

(** The statuses are arranged by kind, then by host. *)
Lemma ltb_cotrans x y z : String.ltb x z = true → String.ltb x y = true ∨ String.ltb y z = true.
Proof.
  intros Hxz. destruct (String.compare x y) eqn:Hc.
  - apply String.compare_eq_iff in Hc as ->. by right.
  - left. unfold String.ltb. by rewrite Hc.
  - right. apply (ltb_trans _ x); [|done]. unfold String.ltb. by rewrite String.compare_antisym, Hc.
Qed.
Lemma client_less_spec s1 s2 :
  client_less s1 s2 = true ↔
  String.ltb (cs_Kind s1) (cs_Kind s2) = true ∨
  cs_Kind s1 = cs_Kind s2 ∧ String.ltb (cs_Host s1) (cs_Host s2) = true.
Proof.
  unfold client_less. case_decide as He; [|tauto]. rewrite He, ltb_irrefl. naive_solver.
Qed.
Lemma client_less_cotrans x y z : client_less x z = true → client_less x y = true ∨ client_less y z = true.
Proof.
  rewrite !client_less_spec. intros [Hk|[Hk Hh]].
  - apply (ltb_cotrans _ (cs_Kind y)) in Hk. tauto.
  - rewrite Hk. destruct (decide (cs_Kind z = cs_Kind y)) as [He|Hne].
    + rewrite He. apply (ltb_cotrans _ (cs_Host y)) in Hh. naive_solver.
    + destruct (String.compare (cs_Kind z) (cs_Kind y)) eqn:Hc.
      * by apply String.compare_eq_iff in Hc.
      * left. left. unfold String.ltb. by rewrite Hc.
      * right. left. unfold String.ltb. by rewrite String.compare_antisym, Hc.
Qed.
Lemma client_less_asym x y : client_less x y = true → client_less y x = false.
Proof.
  rewrite <- not_true_iff_false, !client_less_spec. intros [Hk|[Hk Hh]] [Hk'|[Hk' Hh']].
  - pose proof (ltb_trans _ _ _ Hk Hk') as Ht. by rewrite ltb_irrefl in Ht.
  - rewrite Hk' in Hk. by rewrite ltb_irrefl in Hk.
  - rewrite Hk in Hk'. by rewrite ltb_irrefl in Hk'.
  - pose proof (ltb_trans _ _ _ Hh Hh') as Ht. by rewrite ltb_irrefl in Ht.
Qed.
Lemma client_less_orders l : orders client_less l.
Proof.
  split; [intros x y _ _; apply client_less_asym|]. intros x y z _ _ _ Hyx Hzy.
  apply not_true_iff_false. intros [?|?]%(client_less_cotrans _ y); congruence.
Qed.

(** The table of any clients is laid out, a line for each below the two of the title. *)
Theorem FormatClientStatus_text `{LessSort} RedString statuses verbose :
  let lines := (FormatTitle (CLIENT_TITLE verbose)).1 :: (FormatTitle (CLIENT_TITLE verbose)).2 ::
               (client_line RedString verbose <$> sortStatues statuses) in
  FormatClientStatus RedString statuses verbose = Ok (table_text lines 2) ∧
  length lines = 2 + length statuses ∧ sortStatues statuses ≡ₚ statuses ∧
  StronglySorted (λ x y, client_less y x = false) (sortStatues statuses).
Proof.
  cbv zeta. split.
  - unfold FormatClientStatus. change (FormatTitle (CLIENT_TITLE verbose)) with
      ((FormatTitle (CLIENT_TITLE verbose)).1, (FormatTitle (CLIENT_TITLE verbose)).2) at 1.
    apply FixedFormat_table. apply Forall_cons. split; [done|]. apply Forall_cons. split; [destruct verbose; cbn; lia|].
    apply Forall_fmap, Forall_true. intros s. destruct verbose; cbn; lia.
  - split; [|split; [apply sort_Slice_perm|apply sort_Slice_sorted, client_less_orders]].
    rewrite !length_cons, length_fmap. unfold sortStatues. by rewrite (sort_Slice_perm client_less).
Qed.

(** After both tasks of a client have run, its status is what the engine answered, [Losed]
    without an answer; the rest of its entry and the entries of the other clients are those
    of the first task. *)
Section steps.
Context {W : Type} `{World W}.
Context (get : W → option (gmap string ClientStatus)) (set : gmap string ClientStatus → W → W).
Hypothesis get_set : ∀ m w, get (set m w) = Some m.

Theorem client_status_set client cfgPath status cl reg reg' w w1 w2 r1 r2 e1 e2 :
  step2InitClientStatus get set client cfgPath cl reg w = (r1, w1, e1) →
  step2FormatClientStatus get set client status cl reg' w1 = (r2, w2, e2) →
  e1 = None ∧ e2 = None ∧
  get w2 = Some (<[cl_Id client :=
    mkClientStatus (cl_Id client) (cl_Host client) (cl_Kind client) (cl_ContainerId client)
      (client_status (str_var reg' status)) (cl_AuxInfo client) (str_var reg cfgPath)]> (default ∅ (get w))).
Proof.
  unfold step2InitClientStatus, step2FormatClientStatus, setClientStatus. intros [= <- <- <-].
  rewrite get_set. intros [= <- <- <-]. rewrite lookup_insert_eq, insert_insert_eq, get_set. done.
Qed.
End steps.
