(* ===== verification/RemoteCmd.v ===== *)
(** The commands that use ssh of this machine: exec, enter, ssh and playbook
    (src/cli/command/exec.go, enter.go, ssh.go, playbook.go, src/internal/tools/ssh.go).

    A command is a text that is cut at its spaces into the words of a process; what the
    process does is a parameter, the class [Processes].  The playbook command runs one
    goroutine per host and one that shows their results; they are the steps of
    [pb_step]. *)

From stdpp Require Import pretty sorting.
From S2P Require Import Prelude Errno GoLib Utils Storage CliConfig Vars DeployConfig Topology Hosts Cli Session Tasks Deploy Shell Steps ServiceEnv Services.
From Stdlib Require Import Ascii.

Class Processes (W : Type) := {
  (** [CombinedOutput]: the output and the error *)
  proc_output : list string → W → W * (string * option string);
  (** [Run] on the terminal *)
  proc_attach : list string → W → W * option string;
}.

(** ** ssh.go of tools *)

Record sshOptions : Type := mkSshOptions {
  so_user : string; so_host : string; so_port : Z; so_options : string; so_become : string }.

Definition ssh_opts (c : SSHConfig) : string :=
  Join (["-o StrictHostKeyChecking=no"] ++
        (if ssh_ForwardAgent c then [] else ["-i " +:+ ssh_PrivateKeyPath c])) " ".
Definition ssh_become (become : bool) (c : SSHConfig) : string :=
  if negb (bool_decide (ssh_BecomeUser c = "")) && become
  then ssh_BecomeMethod c +:+ " " +:+ ssh_BecomeFlags c +:+ " " +:+ ssh_BecomeUser c else "".
Definition options_of (become : bool) (c : SSHConfig) : sshOptions :=
  mkSshOptions (ssh_User c) (ssh_Host c) (ssh_Port c) (ssh_opts c) (ssh_become become c).

(** The templates, rendered. *)
Definition scp_text (o : sshOptions) (source target : string) : string :=
  "scp -P " +:+ Itoa (so_port o) +:+ " " +:+ so_options o +:+ " " +:+ source +:+ " " +:+
  so_user o +:+ "@" +:+ so_host o +:+ ":" +:+ target.
Definition remote_text (o : sshOptions) (command : string) : string := so_become o +:+ " " +:+ command.
Definition ssh_text (o : sshOptions) (command : string) : string :=
  "ssh " +:+ so_user o +:+ "@" +:+ so_host o +:+ " -p " +:+ Itoa (so_port o) +:+ " " +:+
  so_options o +:+ " " +:+ remote_text o command.
Definition attach_text (o : sshOptions) (command : string) : string :=
  "ssh -tt " +:+ so_user o +:+ "@" +:+ so_host o +:+ " -p " +:+ Itoa (so_port o) +:+ " " +:+
  so_options o +:+ " " +:+ remote_text o command.
Definition in_container (sudo engine args container_id command : string) : string :=
  sudo +:+ " " +:+ engine +:+ " exec " +:+ args +:+ " " +:+ container_id +:+ " /bin/bash -c " +:+ quoted command.

(** [newCommand]: the words of a text. *)
Definition words_of (text : string) : list string := Split text " ".

Section remote.
Context {W : Type} `{World W} `{Driver} `{Processes W}.
Context (os : OS) `{MapOrder} (parse_hosts : string → option Hosts_) (md5 : string → string).
Context (parse : string → option Topology_) (stack : nat) (uuid : nat → string).
Context (cli : DingoCli) (cfg : DingoCliConfig).
Notation Eff := (eff error W).

Definition prepareOptions (host : string) (become : bool) : Eff sshOptions :=
  hc ← pure_eff (cli_GetHost os parse_hosts cli host);
  c ← pure_eff (host_ssh os cfg hc);
  mret (options_of become c).

Definition runCommandOutput (text : string) (w : W) : W * (string * option string) := proc_output (words_of text) w.
(** An error that only says with what status the process ended is none. *)
Definition ssh (o : sshOptions) (command : string) : Eff () := λ w,
  match proc_attach (words_of (attach_text o command)) w with
  | (w, None) => (w, Ok ())
  | (w, Some e) =>
      if HasPrefix e "exit status" then (w, Ok ())
      else (w, Err (ECode ERR_CONNECT_REMOTE_HOST_WITH_INTERACT_BY_SSH_FAILED))
  end.

Definition AttachRemoteHost (host : string) (become : bool) : Eff () :=
  o ← prepareOptions host become; ssh o "/bin/bash".
Definition AttachRemoteContainer (host containerId home : string) : Eff () :=
  o ← prepareOptions host true;
  ssh o (in_container (GetSudoAlias cfg) (Engine cfg) "-it" containerId ("cd " +:+ home +:+ "; /bin/bash")).
Definition AttachLocalContainer (containerId : string) : Eff () := λ w,
  match proc_attach (words_of (Engine cfg +:+ " exec -it " +:+ containerId +:+ " /bin/bash")) w with
  | (w, None) => (w, Ok ())
  | (w, Some e) => (w, Err (EText e))
  end.
Definition ExecCmdInRemoteContainer (host containerId cmd : string) : Eff () :=
  o ← prepareOptions host true;
  ssh o (in_container (GetSudoAlias cfg) (Engine cfg) "-t" containerId cmd).
(** The error of a call, with the output of the process where there was one. *)
Definition ProcOut : Type := string * option error.
Definition with_ssh_options (host : string) (become : bool) (k : sshOptions → W → W * ProcOut) (w : W) : W * res error ProcOut :=
  match prepareOptions host become w with
  | (w, Err e) => (w, Ok ("", Some e))
  | (w, Panic) => (w, Panic)
  | (w, Ok o) => let '(w, r) := k o w in (w, Ok r)
  end.
Definition as_out (r : W * (string * option string)) : W * ProcOut :=
  let '(w, (out, e)) := r in (w, (out, EText <$> e)).
Definition Scp (host source target : string) : Eff ProcOut :=
  with_ssh_options host false (λ o w, as_out (runCommandOutput (scp_text o source target) w)).
Definition ExecuteRemoteCommand (host command : string) : Eff ProcOut :=
  with_ssh_options host true (λ o w, as_out (runCommandOutput (ssh_text o command) w)).

(** ** exec, enter and ssh *)

(** The service with an id and its container. *)
Definition service_container_of (id : string) : Eff (DeployConfig * string) :=
  p ← pure_eff (cli_ParseTopology os parse_hosts parse stack uuid cli);
  match FilterDeployConfig md5 cli p.2 (mkFilterOption id "*" "*") with
  | [] => pure_eff (Err (ECode ERR_NO_SERVICES_MATCHED))
  | dc :: _ =>
      r ← svc_GetContainerId (GetServiceId md5 cli (GetId dc));
      containerId ← pure_eff r;
      mret (dc, containerId)
  end.
Definition runExec (id cmd : string) : Eff () :=
  '(dc, containerId) ← service_container_of id;
  ExecCmdInRemoteContainer (DeployConfig.GetHost dc) containerId cmd.
Definition runEnter (id : string) : Eff () :=
  '(dc, containerId) ← service_container_of id;
  l ← pure_eff (dc_GetProjectLayout dc);
  AttachRemoteContainer (DeployConfig.GetHost dc) containerId (ServiceRootDir l).
Definition runSSH (host : string) (become : bool) : Eff () := AttachRemoteHost host become.
(** The hook of exec: the id is checked before the command runs. *)
Definition NewExecCommand (services : res error (list string)) (args : list string) : Eff () :=
  match args with
  | [] => pure_eff Panic
  | id :: args => _ ← pure_eff (CheckId services id); runExec id (Join args " ")
  end.
Definition NewEnterCommand (services : res error (list string)) (id : string) : Eff () :=
  _ ← pure_eff (CheckId services id); runEnter id.
End remote.

(** ** playbook *)

Record result : Type := mkResult { r_index : nat; r_host : string; r_out : string; r_err : option error }.
Record playbookOptions : Type := mkPlaybookOptions { pb_filepath : string; pb_args : list string; pb_labels : list string }.

Definition ANY_SCRIPT : string := "/tmp/any.sh".
Definition ANY_TEXT : string :=
  "#!/usr/bin/env bash" +:+ bytes [10; 10] +:+ quoted "$@" +:+ bytes [10].
(** The hook of playbook: a lone argument is run by a script that is made for it. *)
Definition pb_options {W} (exists_ : string → W → bool) (write : string → string → W → W * option string)
    (labels : list string) (args : list string) : eff error W playbookOptions := λ w,
  let checked (filepath : string) args w :=
    if exists_ filepath w then (w, Ok (mkPlaybookOptions filepath args labels))
    else (w, Err (EText (filepath +:+ ": no such file"))) in
  match args with
  | [] => (w, Panic)
  | [arg] =>
      if exists_ ANY_SCRIPT w then checked ANY_SCRIPT [arg] w
      else match write ANY_SCRIPT ANY_TEXT w with
           | (w, Some e) => (w, Err (EText ("write any.sh failed: " +:+ e)))
           | (w, None) => checked ANY_SCRIPT [arg] w
           end
  | filepath :: args => checked filepath args w
  end.

(** The goroutine of the host at [idx], up to the send of its result, and what it does
    after it.  The result of a copy that fails keeps the index zero. *)
Section execute.
Context {W : Type} `{World W} `{Driver} `{Processes W}.
Context (os : OS) `{MapOrder} (parse_hosts : string → option Hosts_) (cli : DingoCli) (cfg : DingoCliConfig).

Definition pb_command (o : playbookOptions) (target : string) (hc : HostConfig) : string :=
  Join [Join (GetEnvs hc) " "; "bash"; target; Join (pb_args o) " "] " ".
Definition pb_execute (o : playbookOptions) (target : string) (idx : nat) (hc : HostConfig) : eff error W result :=
  name ← pure_eff (Hosts.GetHost hc);
  '(_, err) ← Scp os parse_hosts cli cfg name (pb_filepath o) target;
  match err with
  | Some e => mret (mkResult 0 name "" (Some e))
  | None =>
      '(out, err) ← ExecuteRemoteCommand os parse_hosts cli cfg name (pb_command o target hc);
      mret (mkResult idx name out err)
  end.
Definition pb_cleanup (target : string) (hc : HostConfig) : eff error W ProcOut :=
  name ← pure_eff (Hosts.GetHost hc);
  ExecuteRemoteCommand os parse_hosts cli cfg name ("rm -rf " +:+ target).
(** The hosts a playbook runs on. *)
Definition pb_hosts (o : playbookOptions) : res error (list HostConfig) :=
  if decide (cli_hosts cli = "") then Ok [] else Filter os parse_hosts (cli_hosts cli) (pb_labels o).
End execute.

(** What is shown of a result; [Error] is the text of an error, whose clue is not kept here. *)
Definition pb_output (Error : error → string) (YellowString GreenString RedString : string → string) (r : result) : list string :=
  [""; YellowString (r_host r) +:+ " [" +:+
       (match r_err r with None => GreenString "SUCCESS" | Some _ => RedString "FAIL" end) +:+ "]"; "---"] ++
  match r_err r with
  | Some e => [r_out r +:+ Error e]
  | None => if decide (r_out r = "") then [] else [r_out r]
  end.

(** *** The receiver *)

Record Receiver : Type := mkReceiver { rc_current : nat; rc_rets : gmap nat result; rc_shown : list result }.
Definition NewReceiver : Receiver := mkReceiver 0 ∅ [].
Fixpoint show_ready (fuel : nat) (r : Receiver) : Receiver :=
  match fuel with
  | O => r
  | S fuel =>
      match rc_rets r !! rc_current r with
      | Some v => show_ready fuel (mkReceiver (S (rc_current r)) (rc_rets r) (rc_shown r ++ [v]))
      | None => r
      end
  end.
Definition receive (r : Receiver) (ret : result) : Receiver :=
  let rets := <[r_index ret := ret]> (rc_rets r) in
  show_ready (S (size rets)) (mkReceiver (rc_current r) rets (rc_shown r)).
Definition received (arrivals : list result) : Receiver := foldl receive NewReceiver arrivals.

(** *** The goroutines *)

(** The results still to be sent, the goroutines between their send and their end, the result
    the receiver is at, the receiver, and whether the command has returned.  The channel has
    no room: a send takes place when the receiver waits for it. *)
Record PbState : Type := mkPb {
  pb_waiting : list result; pb_ending : nat; pb_busy : option result; pb_recv : Receiver; pb_exited : bool }.
Definition pb_init (results : list result) : PbState := mkPb results 0 None NewReceiver false.

Inductive pb_step : PbState → PbState → Prop :=
| pb_send l1 x l2 n rc : pb_step (mkPb (l1 ++ x :: l2) n None rc false) (mkPb (l1 ++ l2) (S n) (Some x) rc false)
| pb_show l n x rc : pb_step (mkPb l n (Some x) rc false) (mkPb l n None (receive rc x) false)
| pb_done l n b rc : pb_step (mkPb l (S n) b rc false) (mkPb l n b rc false)
| pb_exit b rc : pb_step (mkPb [] 0 b rc false) (mkPb [] 0 b rc true).

(** * What the receiver shows *)

Lemma show_ready_rets fuel : ∀ r, rc_rets (show_ready fuel r) = rc_rets r.
Proof. induction fuel as [|n IH]; intros r; [done|]. cbn [show_ready]. destruct (_ !! _); [|done]. by rewrite IH. Qed.

(** The receiver has shown one result per index below the current one, and has a result for
    each of them. *)
Definition rc_ok (r : Receiver) : Prop :=
  length (rc_shown r) = rc_current r ∧ ∀ i, (i < rc_current r)%nat → is_Some (rc_rets r !! i).
Lemma show_ready_ok fuel : ∀ r, rc_ok r → rc_ok (show_ready fuel r).
Proof.
  induction fuel as [|n IH]; intros r [Hl Hi]; [done|]. cbn [show_ready].
  destruct (rc_rets r !! rc_current r) eqn:Hc; [|done]. apply IH. split; cbn.
  - rewrite length_app, Hl. simpl. lia.
  - intros i Hlt. destruct (decide (i = rc_current r)) as [->|]; [eauto|]. apply Hi. lia.
Qed.
(** With more fuel than there are results, the next one is missing at the end. *)
Lemma show_ready_stops fuel : ∀ r,
  rc_ok r → (size (rc_rets r) < rc_current r + fuel)%nat →
  rc_rets r !! rc_current (show_ready fuel r) = None.
Proof.
  induction fuel as [|n IH]; intros r Hr Hs; cbn [show_ready].
  - exfalso. destruct Hr as [_ Hi].
    assert (set_seq (C := gset nat) 0 (rc_current r) ⊆ dom (rc_rets r)) as Hsub%subseteq_size.
    { intros i [_ ?]%elem_of_set_seq. apply elem_of_dom, Hi. lia. }
    rewrite size_set_seq, size_dom in Hsub. lia.
  - destruct (rc_rets r !! rc_current r) eqn:Hc; [|done].
    pose proof (show_ready_ok 1 r Hr) as Hr1. cbn [show_ready] in Hr1. rewrite Hc in Hr1.
    rewrite <- (IH _ Hr1); [done|]. cbn. lia.
Qed.

Lemma receive_rets r x : rc_rets (receive r x) = <[r_index x := x]> (rc_rets r).
Proof. apply show_ready_rets. Qed.
Lemma receive_insert_ok r x : rc_ok r → rc_ok (mkReceiver (rc_current r) (<[r_index x := x]> (rc_rets r)) (rc_shown r)).
Proof.
  intros [Hl Hi]. split; [done|]. intros i Hlt. cbn. destruct (decide (i = r_index x)) as [->|].
  - rewrite lookup_insert_eq. eauto.
  - rewrite lookup_insert_ne by done. by apply Hi.
Qed.
Lemma received_ok l : rc_ok (received l) ∧ rc_rets (received l) !! rc_current (received l) = None.
Proof.
  unfold received. induction l as [|x l [IH _]] using rev_ind; [split; [split; [done|intros i Hi; cbn in Hi; lia]|done]|].
  rewrite foldl_snoc. split.
  - by apply show_ready_ok, receive_insert_ok.
  - rewrite receive_rets. apply (show_ready_stops _ (mkReceiver _ _ _)); [by apply receive_insert_ok|cbn; lia].
Qed.

(** Without a result of index [k], no more than [k] results are shown. *)
Theorem receiver_stalls k l : Forall (λ r, r_index r ≠ k) l → (length (rc_shown (received l)) ≤ k)%nat.
Proof.
  intros Hk. destruct (received_ok l) as [[-> Hi] _]. apply Nat.nlt_ge. intros Hlt.
  assert (rc_rets (received l) !! k = None) as Hn; [|apply Hi in Hlt as [? ?]; congruence].
  clear Hi Hlt. unfold received. induction l as [|x l IH] using rev_ind; [done|].
  apply Forall_app in Hk as [Hk [Hx _]%Forall_cons_1].
  rewrite foldl_snoc, receive_rets, lookup_insert_ne by done. by apply IH.
Qed.

(** *** Results of distinct indices *)

Definition holds_arrivals (l : list result) (m : gmap nat result) : Prop :=
  ∀ i x, m !! i = Some x ↔ x ∈ l ∧ r_index x = i.
Lemma received_rets l : NoDup (r_index <$> l) → holds_arrivals l (rc_rets (received l)).
Proof.
  unfold received. induction l as [|y l IH] using rev_ind; intros Hnd i x.
  { split; [done|]. intros [?%not_elem_of_nil _]. done. }
  rewrite fmap_app in Hnd. apply NoDup_app in Hnd as (Hnd & Hy & _).
  rewrite foldl_snoc, receive_rets, lookup_insert_Some, (IH Hnd i x), elem_of_app, list_elem_of_singleton.
  split; [intros [[<- <-]|(Hne & Hx & Hi)]; auto|].
  intros [[Hx| ->] <-]; [|by left]. right. split; [|done]. intros He.
  apply (Hy (r_index x)); [by apply list_elem_of_fmap_2|]. rewrite <- He. set_solver.
Qed.

(** What is shown is what is kept, as long as no result is replaced. *)
Definition shows_kept (r : Receiver) : Prop :=
  ∀ i x, rc_shown r !! i = Some x → rc_rets r !! i = Some x.
Lemma show_ready_kept fuel : ∀ r, rc_ok r → shows_kept r → shows_kept (show_ready fuel r).
Proof.
  induction fuel as [|n IH]; intros r Hr Hk; [done|]. pose proof (show_ready_ok 1 r Hr) as Hr1.
  cbn [show_ready] in *. destruct (rc_rets r !! rc_current r) as [v|] eqn:Hc; [|done].
  apply IH; [done|]. intros i x. cbn. rewrite lookup_app_Some.
  intros [Hx|[Hle [Hz ->]%list_lookup_singleton_Some]]; [by apply Hk|].
  destruct Hr as [Hl _]. by replace i with (rc_current r) by lia.
Qed.
Lemma received_kept l : NoDup (r_index <$> l) → shows_kept (received l).
Proof.
  induction l as [|y l IH] using rev_ind; intros Hnd; [done|].
  rewrite fmap_app in Hnd. apply NoDup_app in Hnd as (Hnd & Hy & _).
  destruct (received_ok l) as [Hok _]. pose proof (received_rets l Hnd) as Hrets.
  unfold received in *. rewrite foldl_snoc. apply show_ready_kept; [by apply receive_insert_ok|].
  intros i x Hx. cbn in *. apply (IH Hnd) in Hx as Hi. rewrite lookup_insert_ne; [done|].
  intros He. apply Hrets in Hi as [Hin <-].
  apply (Hy (r_index x)); [by apply list_elem_of_fmap_2|]. rewrite <- He. set_solver.
Qed.

(** The results of [n] hosts, each with the index of its host. *)
Definition indexed (results : list result) : Prop := ∀ i r, results !! i = Some r → r_index r = i.
Lemma indexed_NoDup results : indexed results → NoDup (r_index <$> results).
Proof.
  intros Hi. apply NoDup_alt. intros i j x Hx Hy.
  apply list_lookup_fmap_Some in Hx as (r & -> & ?%Hi). apply list_lookup_fmap_Some in Hy as (s & Hs & ?%Hi).
  congruence.
Qed.

(** In whatever order the results of all hosts arrive, they are shown in the order of the
    hosts, each once. *)
Theorem receiver_in_order results arrivals :
  indexed results → arrivals ≡ₚ results → rc_shown (received arrivals) = results.
Proof.
  intros Hidx Hp. pose proof (indexed_NoDup _ Hidx) as Hnd. rewrite <- Hp in Hnd.
  pose proof (received_rets _ Hnd) as Hrets. pose proof (received_kept _ Hnd) as Hkept.
  destruct (received_ok arrivals) as [[Hl Hi] Hnone].
  assert (∀ i x, rc_rets (received arrivals) !! i = Some x → results !! i = Some x) as Hin.
  { intros i x [Hx <-]%Hrets. rewrite Hp in Hx. apply list_elem_of_lookup in Hx as [j Hj].
    by rewrite (Hidx _ _ Hj). }
  apply list_eq. intros i. destruct (rc_shown _ !! i) as [x|] eqn:Hs; [by apply Hkept, Hin in Hs|].
  symmetry. apply lookup_ge_None. apply lookup_ge_None in Hs. rewrite Hl in Hs.
  etrans; [|exact Hs]. apply Nat.nlt_ge. intros [x Hx]%lookup_lt_is_Some.
  assert (rc_rets (received arrivals) !! rc_current (received arrivals) = Some x) as Hy; [|congruence].
  apply Hrets. split; [rewrite Hp; by eapply list_elem_of_lookup_2|by apply Hidx].
Qed.

(** * The goroutines of the command *)

(** The results that have reached the receiver, and the one it is at. *)
Definition pb_invariant (results : list result) (s : PbState) : Prop :=
  ∃ arrivals, pb_recv s = received arrivals ∧
    pb_waiting s ++ arrivals ++ option_list (pb_busy s) ≡ₚ results ∧
    (pb_exited s = true → pb_waiting s = []).
Lemma pb_reachable results s : rtc pb_step (pb_init results) s → pb_invariant results s.
Proof.
  revert s. apply rtc_ind_r.
  { exists []. cbn. by rewrite !app_nil_r. }
  intros s1 s2 _ Hstep (arr & Hr & Hp & He).
  destruct Hstep; cbn in *.
  - exists arr. cbn. split; [done|]. split; [|done]. rewrite <- Hp, app_nil_r. solve_Permutation.
  - exists (arr ++ [x]). cbn. split; [unfold received in *; by rewrite foldl_snoc, Hr|]. split; [|done].
    rewrite <- Hp. by rewrite !app_nil_r.
  - by exists arr.
  - by exists arr.
Qed.

Lemma lookup_prefix {A} (l1 l2 : list A) : (∀ i x, l1 !! i = Some x → l2 !! i = Some x) → l1 `prefix_of` l2.
Proof.
  revert l2. induction l1 as [|x l1 IH]; intros l2 Hl; [apply prefix_nil|].
  destruct l2 as [|y l2]; [by specialize (Hl 0 x eq_refl)|]. pose proof (Hl 0 x eq_refl) as [= ->].
  apply prefix_cons, IH. intros i. apply (Hl (S i)).
Qed.
(** The results that have arrived, each with the index of its host, are shown from the first
    host on as far as they go. *)
Lemma received_prefix results arrivals rest :
  indexed results → rest ++ arrivals ≡ₚ results → rc_shown (received arrivals) `prefix_of` results.
Proof.
  intros Hidx Hp.
  assert (∀ x, x ∈ arrivals → x ∈ results) as Hsub by (intros x Hx; rewrite <- Hp; set_solver).
  assert (NoDup (r_index <$> arrivals)) as Hnd.
  { pose proof (indexed_NoDup _ Hidx) as Hnd. rewrite <- Hp, fmap_app in Hnd. by apply NoDup_app in Hnd as (_ & _ & ?). }
  apply lookup_prefix. intros i x Hx. apply (received_kept _ Hnd), (received_rets _ Hnd) in Hx as [Hin <-].
  apply Hsub, list_elem_of_lookup in Hin as [j Hj]. by rewrite (Hidx _ _ Hj).
Qed.

(** C29: The playbook command shows its results in the order of the hosts, whatever the order in
    which they come in, from the first host on and each of them once - when every result has
    the index of its host, which that of a failed copy has not.  When the command has returned
    and the receiver is not at a result, all of them have been shown. *)
Theorem playbook_in_order results s :
  indexed results → rtc pb_step (pb_init results) s →
  rc_shown (pb_recv s) `prefix_of` results ∧
  (pb_exited s = true → pb_busy s = None → rc_shown (pb_recv s) = results).
Proof.
  intros Hidx (arr & Hr & Hp & He)%pb_reachable. rewrite Hr. split.
  - apply (received_prefix results arr (pb_waiting s ++ option_list (pb_busy s)) Hidx). rewrite <- Hp. solve_Permutation.
  - intros Hx Hb. apply receiver_in_order; [done|]. rewrite (He Hx), Hb, app_nil_r in Hp. exact Hp.
Qed.
Definition sample_results : list result := [mkResult 0 "a" "one" None; mkResult 1 "b" "two" None].
Lemma playbook_in_order_witness :
  let s := mkPb [] 0 None (received (reverse sample_results)) true in
  rtc pb_step (pb_init sample_results) s ∧ rc_shown (pb_recv s) = sample_results.
Proof.
  cbv zeta.
  assert (rtc pb_step (pb_init sample_results) (mkPb [] 0 None (received (reverse sample_results)) true)) as Hr.
  { eapply rtc_l; [apply (pb_send [mkResult 0 "a" "one" None] (mkResult 1 "b" "two" None) [])|].
    eapply rtc_l; [apply pb_show|]. eapply rtc_l; [apply (pb_send [] (mkResult 0 "a" "one" None) [])|].
    eapply rtc_l; [apply pb_show|]. eapply rtc_l; [apply pb_done|]. eapply rtc_l; [apply pb_done|]. apply rtc_once, pb_exit. }
  split; [exact Hr|]. apply (playbook_in_order sample_results _); [|exact Hr|reflexivity|reflexivity].
  intros i r Hi. destruct i as [|[|i]]; [by injection Hi as <-..|discriminate Hi].
Defined.

(** When the command has returned, every result has reached the receiver, and all of them
    but the one it may still be at have been dealt with. *)
Theorem pb_exit_shown results s :
  rtc pb_step (pb_init results) s → pb_exited s = true →
  ∃ arrivals, arrivals ++ option_list (pb_busy s) ≡ₚ results ∧ pb_recv s = received arrivals.
Proof.
  intros (arr & Hr & Hp & He)%pb_reachable Hx. exists arr. by rewrite (He Hx) in Hp.
Qed.

(** The command returns: a state that has not returned has a step, and each step brings the
    end nearer. *)
Definition pb_measure (s : PbState) : nat :=
  3 * length (pb_waiting s) + pb_ending s + (if pb_busy s then 1 else 0) + (if pb_exited s then 0 else 1).
Theorem pb_terminates s s' : pb_step s s' → (pb_measure s' < pb_measure s)%nat.
Proof. destruct 1; unfold pb_measure; cbn; rewrite ?length_app; cbn; try destruct b; lia. Qed.
Theorem pb_progress s : pb_exited s = false → ∃ s', pb_step s s'.
Proof.
  destruct s as [l n [x|] rc []]; [done| |done|]; intros _; [eexists; apply pb_show|].
  destruct l as [|x l]; [destruct n; [eexists; apply pb_exit|eexists; apply pb_done]|].
  eexists. apply (pb_send [] x l).
Qed.

(** The result of a lone host may not be shown at all: nothing waits for the receiver. *)
Example pb_exit_loses_result x :
  ∃ s, rtc pb_step (pb_init [x]) s ∧ pb_exited s = true ∧ rc_shown (pb_recv s) = [].
Proof.
  exists (mkPb [] 0 (Some x) NewReceiver true). split; [|done].
  eapply rtc_l; [apply (pb_send [] x [])|]. eapply rtc_l; [apply pb_done|]. apply rtc_once, pb_exit.
Qed.

(** The copy to the second host fails: its result takes the place of the first host's, and
    nothing is shown of the third. *)
Example pb_copy_fails :
  let failed := mkResult 0 "b" "" (Some (EText "exit status 1")) in
  let a := mkResult 0 "a" "ok" None in let c := mkResult 2 "c" "ok" None in
  r_host <$> rc_shown (received [failed; a; c]) = ["b"] ∧ r_host <$> rc_shown (received [a; failed; c]) = ["a"].
Proof. by vm_compute. Qed.

(** * The words of a command *)

Lemma parse_digits_no_char c acc s z : digit_of c = None → parse_digits acc s = Some z → no_char c s.
Proof.
  intros Hc. revert acc. induction s as [|a s IH]; intros acc; [done|].
  intros (x & Hx & Hs)%bind_Some. split; [|by eapply IH]. intros ->. congruence.
Qed.
Lemma Itoa_no_char c z : digit_of c = None → (0 ≤ z)%Z → no_char c (Itoa z).
Proof.
  intros Hc Hz. assert (Itoa z = pretty (Z.to_N z)) as ->.
  { unfold Itoa. destruct z; [done|done|lia]. }
  pose proof (parse_unsigned_pretty (Z.to_N z)) as Hp. unfold parse_unsigned in Hp.
  destruct (pretty (Z.to_N z)) eqn:E; [done|]. by eapply parse_digits_no_char.
Qed.
Lemma no_char_app c a b : no_char c a → no_char c b → no_char c (a +:+ b).
Proof. intros Ha Hb. induction a as [|x a IH]; [done|]. destruct Ha as [? ?]. split; [done|by apply IH]. Qed.
Lemma append_assoc (a b c : string) : (a +:+ b) +:+ c = a +:+ (b +:+ c).
Proof. induction a as [|x a IH]; [done|]. change (String x ((a +:+ b) +:+ c) = String x (a +:+ (b +:+ c))). by rewrite IH. Qed.
Lemma words_word w r : no_char " " w → words_of (w +:+ " " +:+ r) = w :: words_of r.
Proof. apply Split_word. Qed.

(** The words of a command on a remote host: those ssh reads itself, and the rest, which ssh
    puts together again with spaces before the remote shell reads it. *)
Theorem ssh_words become c command :
  no_char " " (ssh_User c) → no_char " " (ssh_Host c) → no_char " " (ssh_PrivateKeyPath c) → (0 ≤ ssh_Port c)%Z →
  let o := options_of become c in
  words_of (ssh_text o command) =
    ["ssh"; ssh_User c +:+ "@" +:+ ssh_Host c; "-p"; Itoa (ssh_Port c); "-o"; "StrictHostKeyChecking=no"] ++
    (if ssh_ForwardAgent c then [] else ["-i"; ssh_PrivateKeyPath c]) ++ words_of (remote_text o command) ∧
  Join (words_of (remote_text o command)) " " = remote_text o command.
Proof.
  intros Hu Hh Hk Hp. cbv zeta. split; [|apply Join_Split]. unfold ssh_text.
  generalize (remote_text (options_of become c) command) as r. intros r.
  cbn [so_user so_host so_port so_options options_of]. unfold ssh_opts.
  assert (no_char " " (ssh_User c +:+ "@" +:+ ssh_Host c)) as Huh by (by repeat apply no_char_app).
  transitivity (words_of ("ssh" +:+ " " +:+ ((ssh_User c +:+ "@" +:+ ssh_Host c) +:+ " " +:+ ("-p" +:+ " " +:+
    (Itoa (ssh_Port c) +:+ " " +:+ ("-o" +:+ " " +:+ ("StrictHostKeyChecking=no" +:+ " " +:+
    (if ssh_ForwardAgent c then r else "-i" +:+ " " +:+ (ssh_PrivateKeyPath c +:+ " " +:+ r))))))))).
  { f_equal. rewrite !append_assoc. destruct (ssh_ForwardAgent c); reflexivity. }
  rewrite !words_word by first [done | by apply Itoa_no_char].
  destruct (ssh_ForwardAgent c); [done|]. by rewrite !words_word.
Qed.
