(* ===== verification/Mds.v ===== *)
(** The metadata service as the tool sees it: the messages of its protocol, the caches of
    src/internal/common (mds_meta.go, fs_meta.go) and the routers of mds_router.go, which
    choose the server of an inode.

    The protocol is generated from files outside the sources.  A message is the record of
    the fields that the sources read or write; a message that may be missing is an
    [option], on which a getter returns the zero value, as the generated getters do.  The
    numbers of the enumerations are parameters ([Proto]). *)

From S2P Require Import Prelude GoLib Errno.
Local Open Scope Z_scope.

(** * Messages *)

(** The iteration order of maps with integer keys. *)
Class ZMapOrder := {
  zrange : ∀ {V : Type}, gmap Z V → list (Z * V);
  zrange_perm : ∀ {V} (m : gmap Z V), zrange m ≡ₚ map_to_list m;
}.
Definition canonical_zorder : ZMapOrder := {|
  zrange := λ V m, map_to_list m;
  zrange_perm := λ V m, reflexivity _;
|}.
Program Definition reverse_zorder : ZMapOrder := {| zrange := λ V m, reverse (map_to_list m) |}.
Next Obligation. intros V m. apply reverse_Permutation. Qed.

(** The constants of the enumerations, and that those the sources tell apart differ. *)
Class Proto := {
  Errno_OK : Z;
  Errno_EREQUEST_FULL : Z;
  Errno_EREDIRECT : Z;
  Errno_ENOT_SERVE : Z;
  Errno_EPARTIAL_SUCCESS : Z;
  Errno_ESTORE_MAYBE_RETRY : Z;
  FileType_FILE : Z;
  FileType_DIRECTORY : Z;
  PartitionType_MONOLITHIC_PARTITION : Z;
  PartitionType_PARENT_ID_HASH_PARTITION : Z;
  FsType_S3 : Z;
  FsType_RADOS : Z;
  FsStatus_NORMAL : Z;
  CacheGroupMemberStateOnline : Z;
  CacheGroupMemberStateOffline : Z;
  CacheGroupMemberStateUnstable : Z;
  FileType_distinct : FileType_FILE ≠ FileType_DIRECTORY;
  PartitionType_distinct :
    PartitionType_MONOLITHIC_PARTITION ≠ PartitionType_PARENT_ID_HASH_PARTITION;
  OK_not_retried : Errno_OK ∉ [Errno_EREQUEST_FULL; Errno_EREDIRECT; Errno_ENOT_SERVE;
                               Errno_EPARTIAL_SUCCESS; Errno_ESTORE_MAYBE_RETRY];
}.

(** [mdsError.Error], and the error that every response may carry. *)
Record MdsError : Type := mkMdsError { Errcode : Z; Errmsg : string }.
Definition GetErrcode (e : option MdsError) : Z := default 0 (Errcode <$> e).

Record Response (A : Type) : Type := mkResponse { GetError : option MdsError; body : A }.
Arguments mkResponse {A} _ _.
Arguments GetError {A} _.
Arguments body {A} _.

Record Location : Type := mkLocation { loc_Host : string; loc_Port : Z }.
Record MDS : Type := mkMDS {
  mds_Id : Z; mds_Location : option Location; mds_State : Z; mds_LastOnlineTimeMs : Z;
  mds_IsOnline : bool;
}.

(** The partition of a file system: one server, or servers for the buckets of the parent
    ids.  [Distributions] is a map from ids of servers to their buckets. *)
Record HashPartition : Type := mkHashPartition {
  BucketNum : Z;
  Distributions : gmap Z (list Z);
}.
Record PartitionPolicy : Type := mkPartitionPolicy {
  pp_Type : Z;
  pp_Epoch : Z;
  pp_Mono : option Z;                 (** the id of the server *)
  pp_ParentHash : option HashPartition;
}.
Record S3Info : Type := mkS3Info { Ak : string; Sk : string; Endpoint : string; Bucketname : string }.
Record RadosInfo : Type := mkRadosInfo {
  ra_UserName : string; ra_Key : string; ra_MonHost : string; ra_PoolName : string;
  ra_ClusterName : string;
}.
Record FsExtra : Type := mkFsExtra { fe_S3Info : option S3Info; fe_RadosInfo : option RadosInfo }.
Record MountPoint : Type := mkMountPoint {
  mp_ClientId : string; mp_Hostname : string; mp_Port : Z; mp_Path : string; mp_Cto : bool;
}.
Record FsInfo : Type := mkFsInfo {
  fi_FsId : Z;
  fi_FsName : string;
  fi_Status : Z;
  fi_PartitionPolicy : option PartitionPolicy;
  fi_BlockSize : Z;
  fi_ChunkSize : Z;
  fi_FsType : Z;
  fi_Extra : option FsExtra;
  fi_MountPoints : list MountPoint;
  fi_Uuid : string;
}.
Record Dentry : Type := mkDentry {
  de_Name : string; de_Ino : Z; de_Parent : Z; de_Type : Z;
}.
Record Inode : Type := mkInode {
  in_Ino : Z; in_Length : Z; in_Nlink : Z; in_Parents : list Z;
}.
Record Quota : Type := mkQuota {
  MaxBytes : Z; MaxInodes : Z; UsedBytes : Z; UsedInodes : Z;
}.
Record RequestContext : Type := mkContext { Epoch : Z; IsBypassCache : bool }.

#[export] Instance Location_eq_dec : EqDecision Location.
Proof. solve_decision. Defined.
#[export] Instance MDS_eq_dec : EqDecision MDS.
Proof. solve_decision. Defined.
#[export] Instance Dentry_eq_dec : EqDecision Dentry.
Proof. solve_decision. Defined.

(** The getters that the sources chain through pointers that may be nil. *)
Definition fi_GetFsId (fs : option FsInfo) : Z := default 0 (fi_FsId <$> fs).
Definition fi_GetFsName (fs : option FsInfo) : string := default EmptyString (fi_FsName <$> fs).
Definition GetPartitionPolicy (fs : option FsInfo) : option PartitionPolicy :=
  fs ≫= fi_PartitionPolicy.
Definition pp_GetEpoch (p : option PartitionPolicy) : Z := default 0 (pp_Epoch <$> p).
Definition pp_GetType (p : option PartitionPolicy) : Z := default 0 (pp_Type <$> p).
Definition GetMonoMdsId (p : option PartitionPolicy) : Z := default 0 (p ≫= pp_Mono).
Definition GetParentHash (p : option PartitionPolicy) : option HashPartition :=
  p ≫= pp_ParentHash.
Definition GetDistributions (h : option HashPartition) : gmap Z (list Z) :=
  default ∅ (Distributions <$> h).

(** * Caches *)

(** The maps of servers and of file systems. *)
Definition MDSMeta : Type := gmap Z MDS.
Definition NewMDSMeta : MDSMeta := ∅.
Definition SetMDS (mdsSlice : list MDS) (m : MDSMeta) : MDSMeta :=
  foldl (λ m d, <[mds_Id d := d]> m) m mdsSlice.
Definition meta_GetMDS (mdsId : Z) (m : MDSMeta) : option MDS := m !! mdsId.

Definition FsMeta : Type := gmap Z (option FsInfo).
Definition NewFsMeta : FsMeta := ∅.
Definition SetFsInfo (fsInfo : option FsInfo) (f : FsMeta) : FsMeta := <[fi_GetFsId fsInfo := fsInfo]> f.
Definition meta_GetFsInfo (fsId : Z) (f : FsMeta) : option (option FsInfo) := f !! fsId.

(** * Routers *)

Record HashMDSRouter : Type := mkHashRouter {
  hashPartition : option HashPartition;
  mdsIdMap : gmap Z Z;               (** bucket -> server *)
  h_mdsMeta : MDSMeta;
}.
Record MonoMDSRouter : Type := mkMonoRouter {
  mono_mds : option MDS;
  m_mdsMeta : MDSMeta;
}.
(** The values of the interface [MDSRouter]. *)
Inductive MDSRouter : Type :=
| HashRouter (h : HashMDSRouter)
| MonoRouter (m : MonoMDSRouter).

Section Routers.
Context `{Proto, ZMapOrder}.

Definition NewMDSRouter (partitionType : Z) : MDSRouter :=
  if decide (partitionType = PartitionType_PARENT_ID_HASH_PARTITION)
  then HashRouter {| hashPartition := None; mdsIdMap := ∅; h_mdsMeta := NewMDSMeta |}
  else MonoRouter {| mono_mds := None; m_mdsMeta := NewMDSMeta |}.

(** The loop over the distributions stops at a server that is not in the list: the buckets
    before it stay in the map, and the result is [false]. *)
Definition add_buckets (mdsId : Z) (buckets : list Z) (m : gmap Z Z) : gmap Z Z :=
  foldl (λ m b, <[b := mdsId]> m) m buckets.

Fixpoint fill_buckets (meta : MDSMeta) (l : list (Z * list Z)) (m : gmap Z Z) : gmap Z Z * bool :=
  match l with
  | [] => (m, true)
  | (mdsId, buckets) :: l =>
      match meta_GetMDS (wrap64 mdsId) meta with
      | Some _ => fill_buckets meta l (add_buckets (wrap64 mdsId) buckets m)
      | None => (m, false)
      end
  end.

Definition hash_Init (mdsSlice : list MDS) (policy : option PartitionPolicy) (h : HashMDSRouter)
    : HashMDSRouter * bool :=
  let meta := SetMDS mdsSlice (h_mdsMeta h) in
  let hp := GetParentHash policy in
  let '(m, ok) := fill_buckets meta (zrange (GetDistributions hp)) (mdsIdMap h) in
  ({| hashPartition := hp; mdsIdMap := m; h_mdsMeta := meta |}, ok).

Definition mono_Init (mdsSlice : list MDS) (policy : option PartitionPolicy) (m : MonoMDSRouter)
    : MonoMDSRouter * bool :=
  let meta := SetMDS mdsSlice (m_mdsMeta m) in
  match meta_GetMDS (wrap64 (GetMonoMdsId policy)) meta with
  | None => ({| mono_mds := mono_mds m; m_mdsMeta := meta |}, false)
  | Some d => ({| mono_mds := Some d; m_mdsMeta := meta |}, true)
  end.

Definition router_Init (mdsSlice : list MDS) (policy : option PartitionPolicy) (r : MDSRouter)
    : MDSRouter * bool :=
  match r with
  | HashRouter h => let '(h, ok) := hash_Init mdsSlice policy h in (HashRouter h, ok)
  | MonoRouter m => let '(m, ok) := mono_Init mdsSlice policy m in (MonoRouter m, ok)
  end.

(** The bucket of an inode.  A router without partition is a nil dereference, a partition
    without buckets a division by zero. *)
Definition hash_GetMDS (inodeId : Z) (h : HashMDSRouter) : res error (option MDS) :=
  match hashPartition h with
  | None => Panic
  | Some hp =>
      if decide (BucketNum hp = 0) then Panic
      else
        let bucketId := wrapu32 (inodeId mod BucketNum hp) in
        Ok (mdsId ← mdsIdMap h !! bucketId; meta_GetMDS mdsId (h_mdsMeta h))
  end.
Definition mono_GetMDS (inodeId : Z) (m : MonoMDSRouter) : res error (option MDS) := Ok (mono_mds m).
Definition router_GetMDS (inodeId : Z) (r : MDSRouter) : res error (option MDS) :=
  match r with
  | HashRouter h => hash_GetMDS inodeId h
  | MonoRouter m => mono_GetMDS inodeId m
  end.

End Routers.

(** * Facts *)

(** The server of a list that the caches keep for an id: the last one with it. *)
Definition last_mds (mdsSlice : list MDS) (id : Z) : option MDS :=
  list_find (λ d, mds_Id d = id) (reverse mdsSlice) ≫= λ p, Some p.2.

Lemma SetMDS_snoc l d m : SetMDS (l ++ [d]) m = <[mds_Id d := d]> (SetMDS l m).
Proof. unfold SetMDS. by rewrite foldl_app. Qed.

Lemma SetMDS_lookup l id : meta_GetMDS id (SetMDS l NewMDSMeta) = last_mds l id.
Proof.
  unfold meta_GetMDS, last_mds. induction l as [|d l IH] using rev_ind; [done|].
  rewrite SetMDS_snoc, reverse_snoc. unfold MDSMeta in *. simpl.
  destruct (decide (mds_Id d = id)) as [<-|Hne].
  - by rewrite lookup_insert_eq.
  - rewrite lookup_insert_ne by done. rewrite IH.
    by destruct (list_find _ (reverse l)) as [[]|].
Qed.

Lemma last_mds_Some l id d : last_mds l id = Some d → d ∈ l ∧ mds_Id d = id.
Proof.
  unfold last_mds. intros ([i d'] & (Hi & Hid & _)%list_find_Some & [= ->])%bind_Some.
  split; [|done]. apply elem_of_reverse. by eapply list_elem_of_lookup_2.
Qed.

Lemma last_mds_is_Some l id : is_Some (last_mds l id) ↔ ∃ d, d ∈ l ∧ mds_Id d = id.
Proof.
  split.
  - intros [d Hd]. eauto using last_mds_Some.
  - intros (d & Hd & Hid). unfold last_mds.
    destruct (list_find_elem_of (λ d, mds_Id d = id) (reverse l) d) as [[i d'] ->];
      [by apply elem_of_reverse|done|by eexists].
Qed.

Lemma add_buckets_lookup id bs m b :
  add_buckets id bs m !! b = if decide (b ∈ bs) then Some id else m !! b.
Proof.
  unfold add_buckets. induction bs as [|c bs IH] using rev_ind.
  - rewrite (decide_False (P := b ∈ [])) by set_solver. done.
  - rewrite foldl_app. change (foldl _ (foldl ?f m bs) [c]) with (<[c := id]> (foldl f m bs)).
    destruct (decide (b = c)) as [->|Hne].
    + rewrite lookup_insert_eq, (decide_True (P := c ∈ bs ++ [c])) by set_solver. done.
    + rewrite lookup_insert_ne, IH by done. repeat case_decide; set_solver.
Qed.

Lemma fill_buckets_true meta l m m' :
  fill_buckets meta l m = (m', true) →
  (∀ b v, m' !! b = Some v →
     m !! b = Some v ∨ ∃ id bs, (id, bs) ∈ l ∧ b ∈ bs ∧ v = wrap64 id) ∧
  (∀ b, is_Some (m !! b) ∨ (∃ id bs, (id, bs) ∈ l ∧ b ∈ bs) → is_Some (m' !! b)).
Proof.
  revert m. induction l as [|[id bs] l IH]; intros m; simpl.
  - intros [= <-]. split; [by left|]. intros b [?|(? & ? & ?%not_elem_of_nil & _)]; done.
  - destruct (meta_GetMDS (wrap64 id) meta); [|by intros [=]].
    intros [H1 H2]%IH. split.
    + intros b v [Hb|(id' & bs' & ? & ? & ->)]%H1; [|right; exists id', bs'; set_solver].
      rewrite add_buckets_lookup in Hb. case_decide; [|by left].
      injection Hb as <-. right. exists id, bs. set_solver.
    + intros b Hb. apply H2. rewrite add_buckets_lookup. case_decide; [by left|].
      destruct Hb as [?|(id' & bs' & [[= -> ->]|]%elem_of_cons & ?)]; eauto. done.
Qed.

Lemma zrange_lookup `{ZMapOrder} {V} (m : gmap Z V) k v : (k, v) ∈ zrange m ↔ m !! k = Some v.
Proof. by rewrite zrange_perm, elem_of_map_to_list. Qed.

(** * What routing promises *)

(** The server of an inode under a policy and a list of servers. *)
Definition owns `{Proto} (policy : option PartitionPolicy) (mdsSlice : list MDS) (inodeId : Z)
    (d : MDS) : Prop :=
  if decide (pp_GetType policy = PartitionType_PARENT_ID_HASH_PARTITION) then
    ∃ hp id buckets, GetParentHash policy = Some hp ∧ Distributions hp !! id = Some buckets ∧
      inodeId mod BucketNum hp ∈ buckets ∧ last_mds mdsSlice (wrap64 id) = Some d
  else last_mds mdsSlice (wrap64 (GetMonoMdsId policy)) = Some d.

(** A usable policy: a hash partition has buckets, numbered within 32 bits, and no bucket
    has two servers. *)
Definition policy_wf `{Proto} (policy : option PartitionPolicy) : Prop :=
  pp_GetType policy = PartitionType_PARENT_ID_HASH_PARTITION →
  ∃ hp, GetParentHash policy = Some hp ∧ 0 < BucketNum hp < 2 ^ 32 ∧
    ∀ i j bi bj b, Distributions hp !! i = Some bi → Distributions hp !! j = Some bj →
      b ∈ bi → b ∈ bj → i = j.

(** C23: Routing.  When the router of a usable policy has been initialised and the
    initialisation reported success, it routes every inode to the server that owns it,
    whatever the order of the map of distributions: the server whose buckets contain the
    inode modulo the number of buckets, or the only server of a monolithic partition; and
    to no server exactly when no server owns it. *)
Theorem router_routes `{Proto, ZMapOrder} (mdsSlice : list MDS) (policy : option PartitionPolicy)
    (r : MDSRouter) (inodeId : Z) :
  policy_wf policy → 0 ≤ inodeId →
  router_Init mdsSlice policy (NewMDSRouter (pp_GetType policy)) = (r, true) →
  ∃ o, router_GetMDS inodeId r = Ok o ∧ ∀ d, o = Some d ↔ owns policy mdsSlice inodeId d.
Proof.
  unfold policy_wf, owns, NewMDSRouter. intros Hwf Hi.
  case_decide as Ht; simpl.
  - destruct (Hwf Ht) as (hp & Hhp & Hn & Hdis). unfold hash_Init. rewrite Hhp. simpl.
    destruct (fill_buckets _ _ ∅) as [m ok] eqn:Hf. intros [= <- ->].
    apply fill_buckets_true in Hf as [Hfrom Hto]. simpl. unfold hash_GetMDS. simpl.
    rewrite decide_False by lia.
    assert (wrapu32 (inodeId mod BucketNum hp) = inodeId mod BucketNum hp) as ->.
    { unfold wrapu32. rewrite Z.mod_small; [done|].
      pose proof (Z.mod_pos_bound inodeId (BucketNum hp)). lia. }
    eexists; split; [done|]. intros d. split.
    + intros (id & Hid & Hd)%bind_Some. rewrite SetMDS_lookup in Hd.
      apply Hfrom in Hid as [Hid|(id' & bs & Hin & Hb & ->)]; [by rewrite lookup_empty in Hid|].
      exists hp, id', bs. split_and!; try done. by apply zrange_lookup.
    + intros (hp' & id & bs & [= <-] & Hid & Hb & Hd).
      destruct (Hto (inodeId mod BucketNum hp)) as [v Hv].
      { right. exists id, bs. split; [by apply zrange_lookup|done]. }
      rewrite Hv. simpl. rewrite SetMDS_lookup.
      apply Hfrom in Hv as [Hv|(id' & bs' & Hin & Hb' & ->)]; [by rewrite lookup_empty in Hv|].
      apply zrange_lookup in Hin. by rewrite (Hdis _ _ _ _ _ Hin Hid Hb' Hb).
  - unfold mono_Init. rewrite SetMDS_lookup. destruct (last_mds _ _) as [d'|] eqn:Hd.
    + intros [= <-]. simpl. unfold mono_GetMDS. simpl. eexists; split; [done|]. naive_solver.
    + intros [= ].
Qed.

(** Enumeration numbers for the examples. *)
Program Definition sample_proto : Proto := {|
  Errno_OK := 0; Errno_EREQUEST_FULL := 1; Errno_EREDIRECT := 2; Errno_ENOT_SERVE := 3;
  Errno_EPARTIAL_SUCCESS := 4; Errno_ESTORE_MAYBE_RETRY := 5;
  FileType_FILE := 1; FileType_DIRECTORY := 2;
  PartitionType_MONOLITHIC_PARTITION := 0; PartitionType_PARENT_ID_HASH_PARTITION := 1;
  FsType_S3 := 1; FsType_RADOS := 2; FsStatus_NORMAL := 1;
  CacheGroupMemberStateOnline := 1; CacheGroupMemberStateOffline := 2;
  CacheGroupMemberStateUnstable := 3;
|}.
Next Obligation. by vm_compute. Qed.
Next Obligation. by vm_compute. Qed.
Next Obligation. intros H. repeat (apply elem_of_cons in H as [H|H]; [done|]). set_solver. Qed.

Definition sample_mds (id : Z) : MDS :=
  mkMDS id (Some (mkLocation ("10.0.0." +:+ Itoa id) 7400)) 1 1000 true.
Definition sample_policy : option PartitionPolicy :=
  Some (mkPartitionPolicy 1 5 None
          (Some (mkHashPartition 4 (list_to_map [(1, [0; 2]); (2, [1; 3])])))).

Lemma sample_policy_wf : @policy_wf sample_proto sample_policy.
Proof.
  intros _. eexists. split; [done|]. split; [simpl; lia|]. intros i j bi bj b Hi Hj.
  apply elem_of_list_to_map_2 in Hi, Hj. simpl in Hi, Hj.
  repeat match goal with
  | H : _ ∈ _ :: _ |- _ => apply elem_of_cons in H as [[= -> ->]|H]
  | H : _ ∈ [] |- _ => by apply not_elem_of_nil in H
  end; set_solver by lia.
Qed.

Lemma router_routes_witness :
  ∃ o, router_GetMDS 7
         (@router_Init canonical_zorder [sample_mds 1; sample_mds 2] sample_policy
            (@NewMDSRouter sample_proto 1)).1 = Ok o ∧
       ∀ d, o = Some d ↔ @owns sample_proto sample_policy [sample_mds 1; sample_mds 2] 7 d.
Proof.
  apply (@router_routes sample_proto canonical_zorder [sample_mds 1; sample_mds 2] sample_policy).
  - apply sample_policy_wf.
  - lia.
  - vm_compute. done.
Defined.

(** A server of the partition that is not in the list of servers makes the initialisation
    report failure and stop; the buckets entered before it stay.  Which inodes are routed
    then depends on the order in which the map of distributions is walked. *)
Example init_failure_depends_on_order :
  let init o := @router_Init o [sample_mds 1] sample_policy (@NewMDSRouter sample_proto 1) in
  (init canonical_zorder).2 = false ∧ (init reverse_zorder).2 = false ∧
  router_GetMDS 4 (init canonical_zorder).1 ≠ router_GetMDS 4 (init reverse_zorder).1.
Proof. by vm_compute. Qed.

(** The router of a hash partition without buckets divides by zero; with a policy that has
    no hash partition at all it dereferences nil. *)
Example no_buckets_panics :
  let init p := (@router_Init canonical_zorder [] p (@NewMDSRouter sample_proto 1)).1 in
  router_GetMDS 4 (init (Some (mkPartitionPolicy 1 5 None (Some (mkHashPartition 0 ∅))))) = Panic ∧
  router_GetMDS 4 (init (Some (mkPartitionPolicy 1 5 None None))) = Panic.
Proof. by vm_compute. Qed.
