(* ===== verification/Table.v ===== *)
(** The tables that the commands show (src/internal/table/table.go, the names of columns of
    src/internal/common/table_row.go) and the texts in them (src/internal/utils/pb_utils.go,
    quota_utils.go).

    The drawing of a table is a library; a table is its header and its rows.  Texts of the
    library of sizes, of enumerations and of times are parameters ([Texts]).  Percentages
    are computed on 64-bit floating-point numbers, as in Stdlib's SpecFloat. *)

From Stdlib Require Import Ascii Floats.SpecFloat.
From S2P Require Import Prelude GoLib Errno Mds.
Local Open Scope Z_scope.

Class Texts := {
  IBytes : Z → string;
  Comma : Z → string;
  ParseBytes : string → option Z;
  RedString : string → string;
  FsStatus_String : Z → string;
  FsType_String : Z → string;
  MDSState_String : Z → string;
  time_Format : Z → Z → string;         (** of seconds and nanoseconds, in local time *)
  int_of_non_integer : Z;               (** [int(f)] for NaN, an infinity or too large an [f] *)
}.

(** * Columns *)

Definition ROW_ADDR : string := "addr".
Definition ROW_BLOCKSIZE : string := "blocksize".
Definition ROW_CAPACITY : string := "capacity".
Definition ROW_CHUNK_SIZE : string := "chunkSize".
Definition ROW_CREATE_TIME : string := "create time".
Definition ROW_LASTONLINETIME : string := "last online time".
Definition ROW_FS_ID : string := "fsId".
Definition ROW_FS_NAME : string := "fsName".
Definition ROW_FS_CLIENTID : string := "clientId".
Definition ROW_FS_CTO : string := "cto".
Definition ROW_STORAGE_TYPE : string := "storageType".
Definition ROW_STORAGE : string := "storage".
Definition ROW_GROUP : string := "group".
Definition ROW_ID : string := "id".
Definition ROW_INODE_ID : string := "inodeId".
Definition ROW_IP : string := "ip".
Definition ROW_PORT : string := "port".
Definition ROW_MEMBERID : string := "memberid".
Definition ROW_WEIGHT : string := "weight".
Definition ROW_LOCKED : string := "locked".
Definition ROW_MOUNT_NUM : string := "mountNum".
Definition ROW_MOUNTPOINT : string := "mountpoint".
Definition ROW_UUID : string := "uuid".
Definition ROW_NAME : string := "name".
Definition ROW_ONLINE_STATE : string := "onlineState".
Definition ROW_STATE : string := "state".
Definition ROW_STATUS : string := "status".
Definition ROW_USED : string := "used".
Definition ROW_VALUE_OFFLINE : string := "offline".
Definition ROW_VALUE_ONLINE : string := "online".
Definition ROW_PATH : string := "path".
Definition ROW_USED_PERCNET : string := "use%".
Definition ROW_REAL_USED : string := "realused".
Definition ROW_INODES : string := "inodes".
Definition ROW_INODES_IUSED : string := "iused".
Definition ROW_INODES_PERCENT : string := "iuse%".
Definition ROW_INODES_REAL_IUSED : string := "realiused".
Definition ROW_MDS_NUM : string := "mdsnum".

(** * Tables *)

(** A row of a command, by column; a column that is not there is empty. *)
Definition row : Type := gmap string string.

Definition Map2List (r : row) (headers : list string) : list string :=
  (λ j, default EmptyString (r !! j)) <$> headers.

(** The order of two lines: on the first of the columns [keys] on which they differ. *)
Fixpoint less (keys : list nat) (a b : list string) : bool :=
  match keys with
  | [] => false
  | k :: keys =>
      let x := default EmptyString (a !! k) in let y := default EmptyString (b !! k) in
      if String.ltb x y then true else if String.ltb y x then false else less keys a b
  end.

(** A stable sort. *)
Fixpoint insert (keys : list nat) (x : list string) (l : list (list string)) : list (list string) :=
  match l with
  | [] => [x]
  | y :: l' => if less keys y x then y :: insert keys x l' else x :: l
  end.
Definition SliceStable (keys : list nat) (l : list (list string)) : list (list string) :=
  foldr (insert keys) [] l.

(** The first positions of [target] in [source], without those that are not there. *)
Definition GetIndexSlice (source target : list string) : list nat :=
  omap (λ i, fst <$> list_find (i =.) source) target.

Definition ListMap2ListSortByKeys (rows : list row) (headers keys : list string) : list (list string) :=
  let ret := (λ r, Map2List r headers) <$> rows in
  SliceStable (GetIndexSlice headers keys) ret.

(** What is shown: a table, or the prompt when it has no lines. *)
Inductive shown : Type :=
| Table (header : list string) (lines : list (list string))
| Prompt (text : string).
Definition RenderWithNoData (header : list string) (lines : list (list string)) (prompt : string) : shown :=
  match lines with [] => Prompt prompt | _ => Table header lines end.

(** * Texts *)

Definition LF : string := String "010" EmptyString.

Section Texts.
Context `{Proto, Texts}.

Definition ConvertPbPartitionTypeToString (partitionType : Z) : string :=
  if decide (partitionType = PartitionType_MONOLITHIC_PARTITION) then "MONOLITHIC"
  else if decide (partitionType = PartitionType_PARENT_ID_HASH_PARTITION) then "HASH"
  else "unknown".

Definition ConvertFsExtraToString (fsExtra : option FsExtra) : string :=
  let result :=
    match fsExtra ≫= fe_S3Info with
    | Some s3 => Endpoint s3 +:+ "/" +:+ Bucketname s3
    | None => EmptyString
    end in
  match fsExtra ≫= fe_RadosInfo with
  | Some r =>
      "mon_host: " +:+ ra_MonHost r +:+ LF +:+ "pool_name: " +:+ ra_PoolName r +:+ LF +:+
      "cluster_name: " +:+ ra_ClusterName r
  | None => result
  end.

Definition TranslateCacheGroupMemberState (state : Z) : string :=
  if decide (state = CacheGroupMemberStateOnline) then "online"
  else if decide (state = CacheGroupMemberStateOffline) then "offline"
  else if decide (state = CacheGroupMemberStateUnstable) then "unstable"
  else "unknown".

(** [float64(z)], and [int(math.Round(f))]: half away from zero. *)
Definition float64 (z : Z) : spec_float := binary_normalize 53 1024 z 0 false.
Definition Round (f : spec_float) : Z :=
  match f with
  | S754_zero _ => 0
  | S754_finite s m e =>
      let a := if 0 <=? e then Z.pos m * 2 ^ e else (Z.pos m + 2 ^ (- e - 1)) / 2 ^ (- e) in
      let z := if s then - a else a in
      if in_int64b z then z else int_of_non_integer
  | _ => int_of_non_integer
  end.
Definition percent (used total : Z) : Z :=
  Round (SFdiv 53 1024 (SFmul 53 1024 (float64 used) (float64 100)) (float64 total)).

(** [capacity] and [maxInodes] are unsigned, the others signed. *)
Definition ConvertQuotaToHumanizeValue (capacity usedBytes maxInodes usedInodes : Z) : list string :=
  let '(capacityStr, usedPercentStr) :=
    if capacity =? MaxInt64 then ("unlimited", EmptyString)
    else (IBytes capacity, Itoa (percent usedBytes capacity)) in
  let '(maxInodesStr, maxInodesPercentStr) :=
    if maxInodes =? MaxInt64 then ("unlimited", EmptyString)
    else (Comma (wrap64 maxInodes), Itoa (percent usedInodes maxInodes)) in
  [capacityStr; IBytes (wrapu64 usedBytes); usedPercentStr;
   maxInodesStr; Comma usedInodes; maxInodesPercentStr].

End Texts.

(** * Facts *)

Example percent_examples :
  let _ : Texts := {| IBytes := λ _, EmptyString; Comma := λ _, EmptyString; ParseBytes := λ _, None;
    RedString := id; FsStatus_String := λ _, EmptyString; FsType_String := λ _, EmptyString;
    MDSState_String := λ _, EmptyString; time_Format := λ _ _, EmptyString;
    int_of_non_integer := - 2 ^ 63 |} in
  percent 1 3 = 33 ∧ percent 1 200 = 1 ∧ percent (2 ^ 53) (2 ^ 54) = 50 ∧ percent (-1) 200 = -1 ∧
  percent 5 0 = - 2 ^ 63.
Proof. by vm_compute. Qed.
