(* ===== verification/Flags.v ===== *)
(** The flags of the file system commands (src/internal/utils/fs_config.go): the flags a
    command declares, with their defaults and the configuration keys they are bound to, how
    their values are read, and the checks of addresses and of the file system flags.

    The flags of a command are kept by the cobra library and the configuration by viper;
    what the sources use of them is modelled: a flag has a typed value and remembers
    whether it was set on the command line, redeclaring a flag panics, and viper answers a
    key with a typed value ([Viper]). *)

From Stdlib Require Import Ascii.
From S2P Require Import Prelude GoLib Errno Utils.
Local Open Scope Z_scope.

(** * Names and defaults *)

Definition FORMAT_JSON : string := "json".
Definition FORMAT_PLAIN : string := "plain".

Definition RPCTIMEOUT : string := "rpctimeout".
Definition RPCRETRYTIMES : string := "rpcretrytimes".
Definition RPCRETRYDElAY : string := "rpcretrydelay".
Definition VERBOSE : string := "verbose".
Definition FORMAT : string := "format".
Definition DINGOFS_MDSADDR : string := "mdsaddr".
Definition DINGOFS_FSID : string := "fsid".
Definition DINGOFS_FSNAME : string := "fsname".
Definition DINGOFS_NOCONFIRM : string := "noconfirm".
Definition DINGOFS_BLOCKSIZE : string := "blocksize".
Definition DINGOFS_CHUNKSIZE : string := "chunksize".
Definition DINGOFS_STORAGETYPE : string := "storagetype".
Definition DINGOFS_THREADS : string := "threads".
Definition DINGOFS_FILELIST : string := "filelist".
Definition DINGOFS_DAEMON : string := "daemon".
Definition DINGOFS_QUOTA_PATH : string := "path".
Definition DINGOFS_QUOTA_CAPACITY : string := "capacity".
Definition DINGOFS_QUOTA_INODES : string := "inodes".
Definition DINGOFS_QUOTA_REPAIR : string := "repair".
Definition DINGOFS_PARTITION_TYPE : string := "partitiontype".
Definition DINGOFS_HUMANIZE : string := "humanize".
Definition DINGOFS_MDS_NUM : string := "mdsnum".
Definition DINGOFS_S3_AK : string := "s3.ak".
Definition DINGOFS_S3_SK : string := "s3.sk".
Definition DINGOFS_S3_ENDPOINT : string := "s3.endpoint".
Definition DINGOFS_S3_BUCKETNAME : string := "s3.bucketname".
Definition DINGOFS_RADOS_USERNAME : string := "rados.username".
Definition DINGOFS_RADOS_KEY : string := "rados.key".
Definition DINGOFS_RADOS_MON : string := "rados.mon".
Definition DINGOFS_RADOS_POOLNAME : string := "rados.poolname".
Definition DINGOFS_RADOS_CLUSTERNAME : string := "rados.clustername".
Definition DINGOFS_SUBPATH_UID : string := "uid".
Definition DINGOFS_SUBPATH_GID : string := "gid".
Definition DINGOFS_CACHE_GROUP : string := "group".
Definition DINGOFS_CACHE_MEMBERID : string := "memberid".
Definition DINGOFS_CACHE_WEIGHT : string := "weight".
Definition DINGOFS_CACHE_IP : string := "ip".
Definition DINGOFS_CACHE_PORT : string := "port".

(** The configuration key of each flag.  A name that is not here reads as the empty key. *)
Definition FLAG2VIPER : gmap string string := list_to_map [
  (RPCTIMEOUT, "global.rpctimeout"); (RPCRETRYTIMES, "global.rpcretrytimes");
  (RPCRETRYDElAY, "global.rpcretrydelay"); (VERBOSE, "global.verbose");
  (DINGOFS_MDSADDR, "dingofs.mdsaddr"); (DINGOFS_FSID, "dingofs.fsid");
  (DINGOFS_FSNAME, "dingofs.fsname"); ("mountpoint", "dingofs.mountpoint");
  ("partitionid", "dingofs.partitionid"); (DINGOFS_NOCONFIRM, "dingofs.noconfirm");
  ("user", "dingofs.user"); ("capacity", "dingofs.capacity");
  (DINGOFS_BLOCKSIZE, "dingofs.blocksize"); (DINGOFS_CHUNKSIZE, "dingofs.chunksize");
  (DINGOFS_STORAGETYPE, "dingofs.storagetype"); ("detail", "dingofs.detail");
  ("inodeid", "dingofs.inodeid"); (DINGOFS_THREADS, "dingofs.threads");
  (DINGOFS_FILELIST, "dingofs.filelist"); (DINGOFS_DAEMON, "dingofs.daemon");
  ("storage", "dingofs.storage"); (DINGOFS_QUOTA_PATH, "dingofs.quota.path");
  (DINGOFS_PARTITION_TYPE, "dingofs.partitiontype"); (DINGOFS_HUMANIZE, "dingofs.humanize");
  (DINGOFS_S3_AK, "dingofs.s3.ak"); (DINGOFS_S3_SK, "dingofs.s3.sk");
  (DINGOFS_S3_ENDPOINT, "dingofs.s3.endpoint"); (DINGOFS_S3_BUCKETNAME, "dingofs.s3.bucketname");
  (DINGOFS_RADOS_USERNAME, "dingofs.rados.username"); (DINGOFS_RADOS_KEY, "dingofs.rados.key");
  (DINGOFS_RADOS_MON, "dingofs.rados.mon"); (DINGOFS_RADOS_POOLNAME, "dingofs.rados.poolname");
  (DINGOFS_RADOS_CLUSTERNAME, "dingofs.rados.clustername");
  (DINGOFS_SUBPATH_UID, "dingofs.subpath.uid"); (DINGOFS_SUBPATH_GID, "dingofs.subpath.gid");
  (DINGOFS_CACHE_GROUP, "dingofs.cachegroup.group");
  (DINGOFS_CACHE_MEMBERID, "dingofs.cachegroup.memberid");
  (DINGOFS_CACHE_WEIGHT, "dingofs.cachegroup.weight"); (DINGOFS_CACHE_IP, "dingofs.cachegroup.ip");
  (DINGOFS_CACHE_PORT, "dingofs.cachegroup.port"); (DINGOFS_MDS_NUM, "dingofs.mdsnum");
  ("nfs.path", "dingofs.nfs.path"); ("nfs.conf", "dingofs.nfs.conf");
  ("ssh.host", "dingofs.ssh.host"); ("ssh.port", "dingofs.ssh.port");
  ("ssh.user", "dingofs.ssh.user"); ("ssh.key", "dingofs.ssh.key")].
Definition viper_key (name : string) : string := default EmptyString (FLAG2VIPER !! name).

(** The typed values of flags; a duration is in nanoseconds. *)
Inductive flag_value : Type :=
| FString (s : string)
| FBool (b : bool)
| FUint32 (z : Z)
| FUint64 (z : Z)
| FInt32 (z : Z)
| FInt (z : Z)
| FDuration (ns : Z)
| FStringSlice (l : list string).

#[export] Instance flag_value_eq_dec : EqDecision flag_value.
Proof. solve_decision. Defined.

Definition DEFAULT_RPCTIMEOUT : Z := 30000 * 1000000.
Definition DEFAULT_RPCRETRYTIMES : Z := 5.
Definition DEFAULT_RPCRETRYDELAY : Z := 200 * 1000000.
Definition DEFAULT_DINGOFS_MDSADDR : string := "127.0.0.1:7400".

Definition FLAG2DEFAULT : gmap string flag_value := list_to_map [
  (RPCTIMEOUT, FDuration DEFAULT_RPCTIMEOUT); (RPCRETRYTIMES, FUint32 DEFAULT_RPCRETRYTIMES);
  (RPCRETRYDElAY, FDuration DEFAULT_RPCRETRYDELAY); (VERBOSE, FBool false);
  (DINGOFS_FSID, FUint32 0); (DINGOFS_MDSADDR, FString DEFAULT_DINGOFS_MDSADDR);
  ("detail", FBool false); (DINGOFS_THREADS, FUint32 8); (DINGOFS_DAEMON, FBool false);
  (DINGOFS_BLOCKSIZE, FString "4 MiB"); (DINGOFS_CHUNKSIZE, FString "64 MiB");
  ("storage", FString "disk"); (DINGOFS_QUOTA_PATH, FString EmptyString);
  (DINGOFS_QUOTA_REPAIR, FBool false); (DINGOFS_PARTITION_TYPE, FString "hash");
  (DINGOFS_HUMANIZE, FBool false);
  (DINGOFS_S3_AK, FString EmptyString); (DINGOFS_S3_SK, FString EmptyString);
  (DINGOFS_S3_ENDPOINT, FString EmptyString); (DINGOFS_S3_BUCKETNAME, FString EmptyString);
  (DINGOFS_RADOS_USERNAME, FString EmptyString); (DINGOFS_RADOS_KEY, FString EmptyString);
  (DINGOFS_RADOS_MON, FString EmptyString); (DINGOFS_RADOS_POOLNAME, FString EmptyString);
  (DINGOFS_RADOS_CLUSTERNAME, FString "ceph");
  (DINGOFS_SUBPATH_UID, FUint32 0); (DINGOFS_SUBPATH_GID, FUint32 0);
  (DINGOFS_CACHE_GROUP, FString EmptyString); (DINGOFS_CACHE_MEMBERID, FString EmptyString);
  (DINGOFS_CACHE_WEIGHT, FUint32 0); (DINGOFS_CACHE_IP, FString EmptyString);
  (DINGOFS_CACHE_PORT, FUint32 0); (DINGOFS_MDS_NUM, FUint32 0);
  ("nfs.path", FString EmptyString); ("nfs.conf", FString EmptyString);
  ("ssh.host", FString EmptyString); ("ssh.port", FUint32 22);
  ("ssh.user", FString "current user"); ("ssh.key", FString "~/.ssh/id_rsa")].

(** * Commands and their flags *)

Record Flag : Type := mkFlag { Value : flag_value; Changed : bool }.
Record Cmd : Type := mkCmd {
  flags : gmap string Flag;
  required : gset string;
  bound : gmap string string;      (** viper key -> flag *)
}.
Definition empty_cmd : Cmd := {| flags := ∅; required := ∅; bound := ∅ |}.

(** What viper answers for a key, with the conversions of its typed getters, and the text of
    a duration. *)
Class Viper := {
  viper_GetString : string → string;
  viper_GetBool : string → bool;
  viper_GetUint32 : string → Z;
  viper_GetInt32 : string → Z;
  viper_GetDuration : string → Z;
  viper_GetStringSlice : string → list string;
  Duration_String : Z → string;
}.

(** ** Declaring flags *)

Definition declare (name : string) (v : flag_value) (c : Cmd) : res error Cmd :=
  match flags c !! name with
  | Some _ => Panic
  | None => Ok {| flags := <[name := mkFlag v false]> (flags c);
                  required := required c; bound := bound c |}
  end.
Definition bind_flag (name : string) (c : Cmd) : Cmd :=
  {| flags := flags c; required := required c; bound := <[viper_key name := name]> (bound c) |}.
Definition mark_required (name : string) (c : Cmd) : Cmd :=
  {| flags := flags c; required := {[name]} ∪ required c; bound := bound c |}.

(** The default of a flag of the type wanted; [zero] stands for the untyped constant that
    replaces a missing default.  A default of another type fails the type assertion. *)
Definition AddStringFlag (name : string) (c : Cmd) : res error Cmd :=
  match default (FString EmptyString) (FLAG2DEFAULT !! name) with
  | FString s => bind_flag name <$> declare name (FString s) c
  | _ => Panic
  end.
Definition AddStringRequiredFlag (name : string) (c : Cmd) : res error Cmd :=
  (λ c, bind_flag name (mark_required name c)) <$> declare name (FString EmptyString) c.
Definition AddBoolFlag (name : string) (c : Cmd) : res error Cmd :=
  match default (FBool false) (FLAG2DEFAULT !! name) with
  | FBool b => bind_flag name <$> declare name (FBool b) c
  | _ => Panic
  end.
Definition AddUint64Flag (name : string) (c : Cmd) : res error Cmd :=
  match default (FInt 0) (FLAG2DEFAULT !! name) with
  | FUint64 z => bind_flag name <$> declare name (FUint64 z) c
  | _ => Panic
  end.
Definition AddUint32Flag (name : string) (c : Cmd) : res error Cmd :=
  match default (FInt 0) (FLAG2DEFAULT !! name) with
  | FUint32 z => bind_flag name <$> declare name (FUint32 z) c
  | _ => Panic
  end.
Definition AddUint32RequiredFlag (name : string) (c : Cmd) : res error Cmd :=
  (λ c, bind_flag name (mark_required name c)) <$> declare name (FUint32 0) c.
Definition AddDurationFlag (name : string) (c : Cmd) : res error Cmd :=
  match default (FInt 0) (FLAG2DEFAULT !! name) with
  | FDuration d => bind_flag name <$> declare name (FDuration d) c
  | _ => Panic
  end.
Definition AddInt32Flag (name : string) (c : Cmd) : res error Cmd :=
  match default (FInt32 0) (FLAG2DEFAULT !! name) with
  | FInt32 z => bind_flag name <$> declare name (FInt32 z) c
  | _ => Panic
  end.
Definition AddConfigFileFlag (c : Cmd) : res error Cmd :=
  declare "conf" (FString "$HOME/.dingo/dingo.yaml") c.
(** The format flag is bound to the key of its own name. *)
Definition AddFormatFlag (c : Cmd) : res error Cmd :=
  (λ c, {| flags := flags c; required := required c; bound := <[FORMAT := FORMAT]> (bound c) |})
  <$> declare FORMAT (FString FORMAT_PLAIN) c.

(** ** Reading flags *)

(** [cmd.Flag(name)]: nil when the command has no such flag. *)
Definition cmd_Flag (c : Cmd) (name : string) : option Flag := flags c !! name.
Definition is_changed (c : Cmd) (name : string) : res error bool :=
  match cmd_Flag c name with Some f => Ok (Changed f) | None => Panic end.

(** The typed getters of the flag set: an error for an unknown flag or another type. *)
Definition pflag_GetUint32 (c : Cmd) (name : string) : res error Z :=
  match cmd_Flag c name with
  | Some {| Value := FUint32 z |} => Ok z
  | _ => Err (EText ("trying to get uint32 value of flag: " +:+ name))
  end.
Definition pflag_GetUint64 (c : Cmd) (name : string) : res error Z :=
  match cmd_Flag c name with
  | Some {| Value := FUint64 z |} => Ok z
  | _ => Err (EText ("trying to get uint64 value of flag: " +:+ name))
  end.
Definition pflag_GetBool (c : Cmd) (name : string) : res error bool :=
  match cmd_Flag c name with
  | Some {| Value := FBool b |} => Ok b
  | _ => Err (EText ("trying to get bool value of flag: " +:+ name))
  end.

Section Read.
Context `{Viper}.

(** The text of the value of a flag. *)
Definition value_String (v : flag_value) : string :=
  match v with
  | FString s => s
  | FBool b => FormatBool b
  | FUint32 z | FUint64 z | FInt32 z | FInt z => Itoa z
  | FDuration d => Duration_String d
  | FStringSlice l => "[" +:+ Join l "," +:+ "]"
  end.

(** A flag set on the command line has its own value, any other the one of viper.  A command
    without the flag panics, but for a boolean one, which is false. *)
Definition GetStringFlag (c : Cmd) (name : string) : res error string :=
  match cmd_Flag c name with
  | None => Panic
  | Some f => Ok (if Changed f then value_String (Value f) else viper_GetString (viper_key name))
  end.
Definition GetBoolFlag (c : Cmd) (name : string) : bool :=
  match cmd_Flag c name with
  | None => false
  | Some f => if Changed f then res_get false (pflag_GetBool c name)
              else viper_GetBool (viper_key name)
  end.
Definition GetUint64Flag (c : Cmd) (name : string) : Z := res_get 0 (pflag_GetUint64 c name).
Definition GetUint32Flag (c : Cmd) (name : string) : res error Z :=
  match cmd_Flag c name with
  | None => Panic
  | Some f => Ok (if Changed f then res_get 0 (pflag_GetUint32 c name)
                  else viper_GetUint32 (viper_key name))
  end.
Definition GetDurationFlag (c : Cmd) (name : string) : res error Z :=
  match cmd_Flag c name with
  | None => Panic
  | Some f => Ok (if Changed f then match Value f with FDuration d => d | _ => 0 end
                  else viper_GetDuration (viper_key name))
  end.
Definition GetInt32Flag (c : Cmd) (name : string) : res error Z :=
  match cmd_Flag c name with
  | None => Panic
  | Some f => Ok (if Changed f then match Value f with FInt32 z => z | _ => 0 end
                  else viper_GetInt32 (viper_key name))
  end.
Definition GetStringSliceFlag (c : Cmd) (name : string) : res error (list string) :=
  match cmd_Flag c name with
  | None => Panic
  | Some f => Ok (if Changed f then match Value f with FStringSlice l => l | _ => [] end
                  else viper_GetStringSlice (viper_key name))
  end.

(** ** Checks *)

(** The rests of [s] after a sequence of bytes of the given classes. *)
Definition digits_in (classes : list (nat * nat)) (s : string) : list string :=
  foldl (λ rests c, flat_map (one (digit_between c.1 c.2)) rests) [s] classes.
Definition literal (a : ascii) (s : string) : list string := one (λ b, bool_decide (b = a)) s.

(** [\d|[1-9]\d|1\d{2}|2[0-4]\d|25[0-5]] and the pattern of ports, as the rests after each of
    their alternatives. *)
Definition ip_octet (s : string) : list string :=
  flat_map (λ cs, digits_in cs s)
    [[(0, 9)]; [(1, 9); (0, 9)]; [(1, 1); (0, 9); (0, 9)]; [(2, 2); (0, 4); (0, 9)];
     [(2, 2); (5, 5); (0, 5)]]%nat.
Definition ip_port (s : string) : list string :=
  flat_map (λ cs, digits_in cs s)
    [[(0, 9)]; [(1, 9); (0, 9)]; [(1, 9); (0, 9); (0, 9)]; [(1, 9); (0, 9); (0, 9); (0, 9)];
     [(1, 5); (0, 9); (0, 9); (0, 9); (0, 9)]; [(6, 6); (0, 4); (0, 9); (0, 9); (0, 9); (0, 9)];
     [(6, 6); (5, 5); (0, 4); (0, 9); (0, 9)]; [(6, 6); (5, 5); (5, 5); (0, 2); (0, 9)];
     [(6, 6); (5, 5); (5, 5); (3, 3); (0, 5)]]%nat.
Definition ip_quad (s : string) : list string :=
  let dot := flat_map (literal "."%char) in let oct := flat_map ip_octet in
  oct (dot (oct (dot (oct (dot (ip_octet s)))))).
Definition ip_match (s : string) : list string :=
  flat_map ip_port (flat_map (literal ":"%char) (ip_quad s)) ++ ip_quad s.

Fixpoint suffixes (s : string) : list string :=
  s :: match s with EmptyString => [] | String _ s => suffixes s end.

(** The pattern may match anywhere in the text. *)
Definition isIpAddrValid (addr : string) : bool :=
  existsb (λ s, match ip_match s with [] => false | _ => true end) (suffixes addr).

Definition GetMDSAddrSlice (c : Cmd) : res error (list string) :=
  addrsStr ← GetStringFlag c DINGOFS_MDSADDR;
  let addrslice := Split addrsStr ","%char in
  match find_first (λ a, negb (isIpAddrValid a)) addrslice with
  | Some addr => Err (EText ("invalid address: " +:+ addr))
  | None => Ok addrslice
  end.

(** The id of the file system when it is given, its name otherwise. *)
Definition GetFsInfoFlagValue (c : Cmd) : res error (Z * string) :=
  nameSet ← is_changed c DINGOFS_FSNAME;
  idSet ← (if nameSet : bool then Ok true else is_changed c DINGOFS_FSID);
  if negb (nameSet || idSet) then Err (EText "fsname or fsid is required")
  else
    byId ← is_changed c DINGOFS_FSID;
    fsId ← (if byId : bool then GetUint32Flag c DINGOFS_FSID else Ok 0);
    fsName ← (if byId : bool then Ok EmptyString else GetStringFlag c DINGOFS_FSNAME);
    if decide (fsId = 0 ∧ fsName = EmptyString) then Err (EText "fsname or fsid is invalid")
    else Ok (fsId, fsName).

(** The quota flags, read as [Utils.GetQuotaValue] takes them. *)
Definition quota_flag (c : Cmd) (name : string) : res error flag :=
  b ← is_changed c name;
  Ok (match b : bool return flag with true => Some (pflag_GetUint64 c name) | false => None end).
Definition GetQuotaFlags (c : Cmd) : res error (Z * Z) :=
  capacity ← quota_flag c DINGOFS_QUOTA_CAPACITY;
  inodes ← quota_flag c DINGOFS_QUOTA_INODES;
  GetQuotaValue capacity inodes.

(** Which configuration file is read. *)
Inductive config_source : Type := ConfigFile (path : string) | ConfigDir (dir : string).
Definition ReadCommandConfig (env_CONF home : string) (c : Cmd) : res error config_source :=
  changed ← is_changed c "conf";
  value ← (if changed : bool then GetStringFlag c "conf" else Ok env_CONF);
  Ok (if decide (value = EmptyString) then ConfigDir (home +:+ "/.dingo") else ConfigFile value).
Definition GetConfigFile (home : string) (c : Cmd) : res error string :=
  changed ← is_changed c "conf";
  if changed : bool then GetStringFlag c "conf" else Ok (home +:+ "/.dingo/dingo.yaml").

End Read.

(** * Facts *)

(** The words of a sequence of digit classes. *)
Definition digit_char (d : nat) : ascii := ascii_of_nat (48 + d).
Fixpoint words (classes : list (nat * nat)) : list string :=
  match classes with
  | [] => [EmptyString]
  | (lo, hi) :: cs => flat_map (λ d, String (digit_char d) <$> words cs) (seq lo (S hi - lo))
  end.

Lemma digit_between_char lo hi a :
  (hi ≤ 9)%nat → digit_between lo hi a = true ↔ ∃ d, a = digit_char d ∧ (lo ≤ d ≤ hi)%nat.
Proof.
  intros Hhi. unfold digit_between, digit_char. rewrite andb_true_iff, !Nat.leb_le. split.
  - intros [??]. exists (nat_of_ascii a - 48)%nat. split; [|lia].
    replace (48 + (nat_of_ascii a - 48))%nat with (nat_of_ascii a) by lia.
    by rewrite ascii_nat_embedding.
  - intros (d & -> & ?). rewrite nat_ascii_embedding by lia. lia.
Qed.

Lemma digits_in_cons lo hi cs s :
  digits_in ((lo, hi) :: cs) s = flat_map (digits_in cs) (one (digit_between lo hi) s).
Proof.
  unfold digits_in. simpl. rewrite app_nil_r.
  generalize (one (digit_between lo hi) s) as rs. induction cs as [|c cs IH]; intros rs; simpl.
  - induction rs as [|r rs IHrs]; simpl; [done|]. by rewrite <-IHrs.
  - rewrite IH. induction rs as [|r rs IHrs]; simpl; [done|].
    rewrite flat_map_app, IHrs. by rewrite app_nil_r, <-IH.
Qed.

Lemma elem_of_digits_in cs s r :
  Forall (λ c, c.2 ≤ 9)%nat cs → r ∈ digits_in cs s ↔ ∃ w, w ∈ words cs ∧ s = w +:+ r.
Proof.
  intros Hcs. revert s. induction Hcs as [|[lo hi] cs Hhi _ IH]; intros s.
  - unfold digits_in. simpl. rewrite list_elem_of_singleton. split.
    + intros ->. exists EmptyString. by rewrite list_elem_of_singleton.
    + by intros (w & ->%list_elem_of_singleton & ->).
  - rewrite digits_in_cons, elem_of_flat_map. setoid_rewrite elem_of_one. split.
    + intros (s' & (a & -> & (d & -> & Hd)%digit_between_char) & (w & Hw & ->)%IH); [|done].
      exists (String (digit_char d) w). split; [|done]. simpl. apply elem_of_flat_map.
      exists d. split; [apply elem_of_seq; simpl in *; lia|]. by apply list_elem_of_fmap_2.
    + intros (w & Hw & ->). simpl in Hw. apply elem_of_flat_map in Hw as (d & Hd & Hw).
      apply list_elem_of_fmap in Hw as (w' & -> & Hw'). exists (w' +:+ r). split.
      * exists (digit_char d). split; [done|]. apply digit_between_char; [done|].
        exists d. apply elem_of_seq in Hd. simpl in *. split; [done|lia].
      * apply IH. eauto.
Qed.

(** The decimal numbers from 0 to 255, without leading zeros. *)
Definition octet_word (w : string) : Prop := ∃ n, 0 ≤ n ≤ 255 ∧ w = Itoa n.

Definition octet_classes : list (list (nat * nat)) :=
  [[(0, 9)]; [(1, 9); (0, 9)]; [(1, 1); (0, 9); (0, 9)]; [(2, 2); (0, 4); (0, 9)];
   [(2, 2); (5, 5); (0, 5)]]%nat.

Lemma octet_words w : w ∈ flat_map words octet_classes ↔ octet_word w.
Proof.
  assert (flat_map words octet_classes = Itoa <$> seqZ 0 256) as -> by (vm_compute; done).
  rewrite list_elem_of_fmap. setoid_rewrite elem_of_seqZ. unfold octet_word. split.
  - intros (n & -> & ?). exists n. split; [lia|done].
  - intros (n & ? & ->). exists n. split; [done|lia].
Qed.

Lemma elem_of_ip_octet s r : r ∈ ip_octet s ↔ ∃ w, octet_word w ∧ s = w +:+ r.
Proof.
  unfold ip_octet. fold octet_classes. setoid_rewrite <-octet_words.
  rewrite elem_of_flat_map. setoid_rewrite elem_of_flat_map.
  assert (∀ cs, cs ∈ octet_classes → Forall (λ c, c.2 ≤ 9)%nat cs) as Hcs.
  { apply Forall_forall. repeat constructor; simpl; lia. }
  split.
  - intros (cs & Hin & (w & Hw & ->)%elem_of_digits_in); eauto 10.
  - intros (w & (cs & Hin & Hw) & ->). exists cs. split; [done|].
    apply elem_of_digits_in; eauto.
Qed.

Lemma elem_of_literal a s r : r ∈ literal a s ↔ s = String a r.
Proof.
  unfold literal. rewrite elem_of_one. split.
  - by intros (b & -> & ->%bool_decide_eq_true).
  - intros ->. exists a. by rewrite bool_decide_eq_true.
Qed.

(** A dotted address. *)
Definition quad (q : string) : Prop :=
  ∃ a b c d, octet_word a ∧ octet_word b ∧ octet_word c ∧ octet_word d ∧
    q = a +:+ "." +:+ b +:+ "." +:+ c +:+ "." +:+ d.

Lemma elem_of_ip_quad s r : r ∈ ip_quad s ↔ ∃ q, quad q ∧ s = q +:+ r.
Proof.
  unfold ip_quad, quad. cbv zeta. split.
  - intros (s1 & (s2 & (s3 & (s4 & (s5 & (s6 & Ha & H6)%elem_of_flat_map & Hb)%elem_of_flat_map
      & H4)%elem_of_flat_map & Hc)%elem_of_flat_map & H2)%elem_of_flat_map & Hd)%elem_of_flat_map.
    apply elem_of_literal in H2, H4, H6. apply elem_of_ip_octet in Ha as (a & Ha & ->), Hb as (b & Hb & ->),
      Hc as (c & Hc & ->), Hd as (d & Hd & ->). subst.
    eexists. split; [by exists a, b, c, d|]. by repeat (progress (simpl; rewrite ?app_assoc_string)).
  - intros (q & (a & b & c & d & Ha & Hb & Hc & Hd & ->) & ->).
    repeat (progress (simpl; rewrite ?app_assoc_string)).
    apply elem_of_flat_map; eexists; split; [apply elem_of_flat_map; eexists; split;
      [apply elem_of_flat_map; eexists; split; [apply elem_of_flat_map; eexists; split;
        [apply elem_of_flat_map; eexists; split; [apply elem_of_flat_map; eexists; split|]
        |]|]|]|]; try (apply elem_of_literal; reflexivity); apply elem_of_ip_octet; eauto.
Qed.

Lemma elem_of_suffixes s t : t ∈ suffixes s ↔ ∃ p, s = p +:+ t.
Proof.
  induction s as [|a s IH]; simpl; rewrite elem_of_cons.
  - split; [intros [->|?%not_elem_of_nil]; [by exists EmptyString|done]|].
    intros ([|b p] & [= ->]). by left.
  - rewrite IH. split.
    + intros [->|(p & ->)]; [by exists EmptyString|by exists (String a p)].
    + intros ([|b p] & Hp); [by left|]. injection Hp as -> ->. eauto.
Qed.

(** The addresses of the metadata servers.  A text is accepted exactly when a dotted
    address - four numbers from 0 to 255 without leading zeros - occurs somewhere in it:
    what comes before and after, the port included, is not looked at. *)
Theorem isIpAddrValid_spec (addr : string) :
  isIpAddrValid addr = true ↔ ∃ before q after, quad q ∧ addr = before +:+ q +:+ after.
Proof.
  unfold isIpAddrValid. rewrite existsb_exists. setoid_rewrite <-list_elem_of_In.
  setoid_rewrite elem_of_suffixes.
  assert (∀ s, match ip_match s with [] => false | _ => true end = true ↔
               ∃ q r, quad q ∧ s = q +:+ r) as Hm.
  { intros s. unfold ip_match. destruct (ip_quad s) as [|r rs] eqn:E.
    - simpl. split; [done|]. intros (q & r & Hq).
      assert (r ∈ ip_quad s) as Hr by (apply elem_of_ip_quad; eauto).
      rewrite E in Hr. by apply not_elem_of_nil in Hr.
    - split; [intros _|by destruct (flat_map ip_port _)].
      destruct (proj1 (elem_of_ip_quad s r)) as (q & ? & ?); [rewrite E; set_solver|eauto]. }
  setoid_rewrite Hm. split.
  - intros (s & (p & ->) & (q & r & Hq & ->)). eauto.
  - intros (p & q & r & Hq & ->). eauto 10.
Qed.

Example isIpAddrValid_anything :
  isIpAddrValid "mds=10.0.0.1:99999/x" = true ∧ isIpAddrValid "10.0.0:7400" = false.
Proof. by vm_compute. Qed.

(** A number or a duration without a default cannot be declared: the constant that stands
    for the default has another type. *)
Lemma untyped_default_panics (name : string) (c : Cmd) :
  FLAG2DEFAULT !! name = None →
  AddUint64Flag name c = Panic ∧ AddUint32Flag name c = Panic ∧ AddDurationFlag name c = Panic.
Proof. intros Hn. unfold AddUint64Flag, AddUint32Flag, AddDurationFlag. by rewrite Hn. Qed.

(** [format] is bound to the key of its name, but read under the empty key: without the
    flag, the format that the configuration gives is not what the command sees. *)
Lemma format_read_under_empty_key `{Viper} (c : Cmd) :
  is_changed c FORMAT = Ok false → GetStringFlag c FORMAT = Ok (viper_GetString EmptyString).
Proof.
  unfold is_changed, GetStringFlag. destruct (cmd_Flag c FORMAT) as [f|]; [|done].
  by intros [= ->].
Qed.

(** What an accepted list of addresses is. *)
Lemma GetMDSAddrSlice_Ok `{Viper} (c : Cmd) addrs :
  GetMDSAddrSlice c = Ok addrs → addrs ≠ [] ∧ Forall (λ a, isIpAddrValid a = true) addrs.
Proof.
  unfold GetMDSAddrSlice. intros (s & _ & Hs)%bind_Ok.
  destruct (find_first _ _) as [a|] eqn:Hf; [done|]. injection Hs as <-. split.
  - intros H0. clear -H0. destruct s; simpl in H0; [done|]. by repeat case_match.
  - apply Forall_forall. intros a Ha. apply (proj1 (find_first_None _ _) Hf) in Ha.
    by apply negb_false_iff in Ha.
Qed.
