(* ===== verification/Rpc.v ===== *)
(** Calls of the metadata service (src/internal/rpc: client.go, pool.go, status.go, mds.go,
    cachegroup.go, utils.go): the pool of connections, the request objects with their
    stubs, the retries of [GetRpcResponse], the router of a file system and the choice of
    the server of an inode.

    The gRPC library and the generated client are parameters: dialling ([Grpc]) and one
    function per method of the client ([MDSServiceClient]), which act on a world [W].
    Waiting, logging and the printing of requests are left out. *)

From S2P Require Import Prelude GoLib Errno Mds Flags.
Local Open Scope Z_scope.

(** * Requests and responses *)

Record GetMDSListRequest : Type := mkGetMDSList {}.
Record ListFsInfoRequest : Type := mkListFsInfo {}.
Record GetFsInfoRequest : Type := mkGetFsInfo { gfi_FsId : Z; gfi_FsName : string }.
Record CreateFsRequest : Type := mkCreateFs {
  cf_FsName : string; cf_BlockSize : Z; cf_ChunkSize : Z; cf_FsType : Z; cf_Owner : string;
  cf_Capacity : Z; cf_FsExtra : FsExtra; cf_PartitionType : Z; cf_FsId : Z; cf_ExpectMdsNum : Z;
}.
Record DeleteFsRequest : Type := mkDeleteFs { df_FsName : string }.
Record SetFsQuotaRequest : Type := mkSetFsQuota {
  sfq_Context : RequestContext; sfq_FsId : Z; sfq_Quota : Quota;
}.
Record GetFsQuotaRequest : Type := mkGetFsQuota { gfq_Context : RequestContext; gfq_FsId : Z }.
Record GetInodeRequest : Type := mkGetInode {
  gi_Context : RequestContext; gi_FsId : Z; gi_Ino : Z;
}.
Record MkDirRequest : Type := mkMkDir {
  md_Context : RequestContext; md_FsId : Z; md_Name : string; md_Length : Z; md_Uid : Z;
  md_Gid : Z; md_Mode : Z; md_Parent : Z;
}.
Record GetDentryRequest : Type := mkGetDentry {
  gd_Context : RequestContext; gd_FsId : Z; gd_Parent : Z; gd_Name : string;
}.
Record ListDentryRequest : Type := mkListDentry {
  ld_Context : RequestContext; ld_FsId : Z; ld_Parent : Z;
}.
Record SetDirQuotaRequest : Type := mkSetDirQuota {
  sdq_Context : RequestContext; sdq_FsId : Z; sdq_Ino : Z; sdq_Quota : Quota;
}.
Record GetDirQuotaRequest : Type := mkGetDirQuota {
  gdq_Context : RequestContext; gdq_FsId : Z; gdq_Ino : Z; gdq_NotUseFsQuota : bool;
}.
Record LoadDirQuotasRequest : Type := mkLoadDirQuotas { ldq_Context : RequestContext; ldq_FsId : Z }.
Record DeleteDirQuotaRequest : Type := mkDeleteDirQuota {
  ddq_Context : RequestContext; ddq_FsId : Z; ddq_Ino : Z;
}.
Record UnLinkRequest : Type := mkUnLink {
  ul_Context : RequestContext; ul_FsId : Z; ul_Parent : Z; ul_Name : string;
}.
Record RmDirRequest : Type := mkRmDir {
  rd_Context : RequestContext; rd_FsId : Z; rd_Parent : Z; rd_Name : string;
}.
Record ListGroupsRequest : Type := mkListGroups {}.
Record ListMembersRequest : Type := mkListMembers { lm_GroupName : option string }.
Record ReweightMemberRequest : Type := mkReweightMember {
  rm_MemberId : string; rm_Ip : string; rm_Port : Z; rm_Weight : Z;
}.
Record LeaveCacheGroupRequest : Type := mkLeaveCacheGroup {
  lg_GroupName : string; lg_MemberId : string; lg_Ip : string; lg_Port : Z;
}.
Record DeleteMemberRequest : Type := mkDeleteMember { dm_MemberId : string }.
Record UnLockMemberRequest : Type := mkUnLockMember { um_MemberId : string; um_Ip : string; um_Port : Z }.

Record CacheMember : Type := mkCacheMember {
  cm_MemberId : string; cm_Ip : string; cm_Port : Z; cm_Weight : Z; cm_GroupName : string;
  cm_Locked : bool; cm_State : Z; cm_CreateTimeS : Z; cm_LastOnlineTimeMs : Z;
}.

(** What a response carries besides its error. *)
Definition GetMDSListResponse : Type := Response (list MDS).
Definition ListFsInfoResponse : Type := Response (list FsInfo).
Definition GetFsInfoResponse : Type := Response (option FsInfo).
Definition GetInodeResponse : Type := Response Inode.
Definition GetDentryResponse : Type := Response (option Dentry).
Definition ListDentryResponse : Type := Response (list Dentry).
Definition GetQuotaResponse : Type := Response Quota.
Definition LoadDirQuotasResponse : Type := Response (gmap Z Quota).
Definition EmptyResponse : Type := Response unit.

(** A connection is the handle that the library returns. *)
Definition Conn : Type := Z.

(** [grpc.DialContext] with an address and a timeout: a connection or an error. *)
Class Grpc (W : Type) := dial : string → Z → W → W * res error Conn.

(** A method of the generated client sends a request over a connection. *)
Notation method W Req Resp := (Conn → Req → W → W * res error Resp).
Class MDSServiceClient (W : Type) := {
  client_GetMDSList : method W GetMDSListRequest GetMDSListResponse;
  client_ListFsInfo : method W ListFsInfoRequest ListFsInfoResponse;
  client_GetFsInfo : method W GetFsInfoRequest GetFsInfoResponse;
  client_CreateFs : method W CreateFsRequest GetFsInfoResponse;
  client_DeleteFs : method W DeleteFsRequest EmptyResponse;
  client_SetFsQuota : method W SetFsQuotaRequest EmptyResponse;
  client_GetFsQuota : method W GetFsQuotaRequest GetQuotaResponse;
  client_GetInode : method W GetInodeRequest GetInodeResponse;
  client_MkDir : method W MkDirRequest EmptyResponse;
  client_GetDentry : method W GetDentryRequest GetDentryResponse;
  client_ListDentry : method W ListDentryRequest ListDentryResponse;
  client_SetDirQuota : method W SetDirQuotaRequest EmptyResponse;
  client_GetDirQuota : method W GetDirQuotaRequest GetQuotaResponse;
  client_LoadDirQuotas : method W LoadDirQuotasRequest LoadDirQuotasResponse;
  client_DeleteDirQuota : method W DeleteDirQuotaRequest EmptyResponse;
  client_UnLink : method W UnLinkRequest EmptyResponse;
  client_RmDir : method W RmDirRequest EmptyResponse;
  client_ListGroups : method W ListGroupsRequest (Response (list string));
  client_ListMembers : method W ListMembersRequest (Response (list CacheMember));
  client_ReweightMember : method W ReweightMemberRequest EmptyResponse;
  client_LeaveCacheGroup : method W LeaveCacheGroupRequest EmptyResponse;
  client_DeleteMember : method W DeleteMemberRequest EmptyResponse;
  client_UnlockMember : method W UnLockMemberRequest EmptyResponse;
}.

(** ** The request objects

    One constructor per request type of mds.go and cachegroup.go, with its request; the
    index is the type of what its response carries. *)
Inductive RpcFunc : Type → Type :=
| GetMDSRpc (r : GetMDSListRequest) : RpcFunc (list MDS)
| CreateFsRpc (r : CreateFsRequest) : RpcFunc (option FsInfo)
| DeleteFsRpc (r : DeleteFsRequest) : RpcFunc unit
| ListFsRpc (r : ListFsInfoRequest) : RpcFunc (list FsInfo)
| GetFsRpc (r : GetFsInfoRequest) : RpcFunc (option FsInfo)
| GetMdsRpc (r : GetMDSListRequest) : RpcFunc (list MDS)
| SetFsQuotaRpc (r : SetFsQuotaRequest) : RpcFunc unit
| GetFsQuotaRpc (r : GetFsQuotaRequest) : RpcFunc Quota
| GetInodeRpc (r : GetInodeRequest) : RpcFunc Inode
| MkDirRpc (r : MkDirRequest) : RpcFunc unit
| GetDentryRpc (r : GetDentryRequest) : RpcFunc (option Dentry)
| ListDentryRpc (r : ListDentryRequest) : RpcFunc (list Dentry)
| SetDirQuotaRpc (r : SetDirQuotaRequest) : RpcFunc unit
| GetDirQuotaRpc (r : GetDirQuotaRequest) : RpcFunc Quota
| ListDirQuotaRpc (r : LoadDirQuotasRequest) : RpcFunc (gmap Z Quota)
| DeleteDirQuotaRpc (r : DeleteDirQuotaRequest) : RpcFunc unit
| ListFsInfoRpc (r : ListFsInfoRequest) : RpcFunc (list FsInfo)
| UnlinkFileRpc (r : UnLinkRequest) : RpcFunc unit
| RmDirRpc (r : RmDirRequest) : RpcFunc unit
| ListCacheGroupRpc (r : ListGroupsRequest) : RpcFunc (list string)
| ListCacheMemberRpc (r : ListMembersRequest) : RpcFunc (list CacheMember)
| ReWeightMemberRpc (r : ReweightMemberRequest) : RpcFunc unit
| LeaveCacheMemberRpc (r : LeaveCacheGroupRequest) : RpcFunc unit
| DeleteCacheMemberRpc (r : DeleteMemberRequest) : RpcFunc unit
| UnlockCacheMemberRpc (r : UnLockMemberRequest) : RpcFunc unit.

Definition Stub_Func {W A} `{MDSServiceClient W} (f : RpcFunc A) (c : Conn)
    : W → W * res error (Response A) :=
  match f in RpcFunc A return W → W * res error (Response A) with
  | GetMDSRpc r => client_GetMDSList c r
  | CreateFsRpc r => client_CreateFs c r
  | DeleteFsRpc r => client_DeleteFs c r
  | ListFsRpc r => client_ListFsInfo c r
  | GetFsRpc r => client_GetFsInfo c r
  | GetMdsRpc r => client_GetMDSList c r
  | SetFsQuotaRpc r => client_SetFsQuota c r
  | GetFsQuotaRpc r => client_GetFsQuota c r
  | GetInodeRpc r => client_GetInode c r
  | MkDirRpc r => client_MkDir c r
  | GetDentryRpc r => client_GetDentry c r
  | ListDentryRpc r => client_ListDentry c r
  | SetDirQuotaRpc r => client_SetDirQuota c r
  | GetDirQuotaRpc r => client_GetDirQuota c r
  | ListDirQuotaRpc r => client_LoadDirQuotas c r
  | DeleteDirQuotaRpc r => client_DeleteDirQuota c r
  | ListFsInfoRpc r => client_ListFsInfo c r
  | UnlinkFileRpc r => client_UnLink c r
  | RmDirRpc r => client_RmDir c r
  | ListCacheGroupRpc r => client_ListGroups c r
  | ListCacheMemberRpc r => client_ListMembers c r
  | ReWeightMemberRpc r => client_ReweightMember c r
  | LeaveCacheMemberRpc r => client_LeaveCacheGroup c r
  | DeleteCacheMemberRpc r => client_DeleteMember c r
  | UnlockCacheMemberRpc r => client_UnlockMember c r
  end.

(** * State *)

Definition ConnectionPool : Type := gmap string (list Conn).
Definition NewConnectionPool : ConnectionPool := ∅.
(** [c.connections[address]]: nil for an address that is not there. *)
Definition conns (address : string) (p : ConnectionPool) : list Conn := default [] (p !! address).
Definition Release (address : string) (p : ConnectionPool) : ConnectionPool := delete address p.
Definition PutConnection (address : string) (c : Conn) (p : ConnectionPool) : ConnectionPool :=
  <[address := conns address p ++ [c]]> p.

(** The package variables [pool], [fsMetaCache] and [mdsRouter], and the world. *)
Record RpcState (W : Type) : Type := mkRpcState {
  pool : ConnectionPool;
  fsMetaCache : FsMeta;
  mdsRouter : option MDSRouter;
  net : W;
}.
Arguments mkRpcState {W} _ _ _ _.
Arguments pool {W} _.
Arguments fsMetaCache {W} _.
Arguments mdsRouter {W} _.
Arguments net {W} _.
Definition set_pool {W} (p : ConnectionPool) (s : RpcState W) : RpcState W :=
  mkRpcState p (fsMetaCache s) (mdsRouter s) (net s).
Definition set_cache {W} (f : FsMeta) (s : RpcState W) : RpcState W :=
  mkRpcState (pool s) f (mdsRouter s) (net s).
Definition set_router {W} (r : option MDSRouter) (s : RpcState W) : RpcState W :=
  mkRpcState (pool s) (fsMetaCache s) r (net s).
Definition set_net {W} (w : W) (s : RpcState W) : RpcState W :=
  mkRpcState (pool s) (fsMetaCache s) (mdsRouter s) w.

Record Rpc : Type := mkRpc {
  Addrs : list string;
  RpcTimeout : Z;
  RpcRetryTimes : Z;
  RpcRetryDelay : Z;
  RpcFuncName : string;
  RpcDataShow : bool;
}.
Definition NewRpc (addrs : list string) (timeout retryTimes retryDelay : Z) (dataShow : bool)
    (funcName : string) : Rpc :=
  {| Addrs := addrs; RpcTimeout := timeout; RpcRetryTimes := retryTimes;
     RpcRetryDelay := retryDelay; RpcFuncName := funcName; RpcDataShow := dataShow |}.

Section Calls.
Context {W : Type} `{Proto, Grpc W, MDSServiceClient W}.
Notation call A := (eff error (RpcState W) A).

(** ** Connections *)

(** Dialling, with [retrytimes] further attempts. *)
Fixpoint dial_retry (retrytimes : nat) (address : string) (timeout : Z) (w : W)
    : W * res error Conn :=
  match dial address timeout w with
  | (w, Err e) =>
      match retrytimes with
      | O => (w, Err e)
      | S n => dial_retry n address timeout w
      end
  | r => r
  end.

(** An idle connection to the address is taken from the front of its list. *)
Definition GetConnection (address : string) (timeout retrytimes : Z) : call Conn := λ s,
  match conns address (pool s) with
  | c :: rest => (set_pool (<[address := rest]> (pool s)) s, Ok c)
  | [] => let '(w, r) := dial_retry (Z.to_nat retrytimes) address timeout (net s) in (set_net w s, r)
  end.

(** ** Calls *)

Definition mdsRetryErrors : list Z :=
  [Errno_EREQUEST_FULL; Errno_EREDIRECT; Errno_ENOT_SERVE; Errno_EPARTIAL_SUCCESS;
   Errno_ESTORE_MAYBE_RETRY].
Definition CheckRpcNeedRetry {A} (r : Response A) : bool :=
  bool_decide (GetErrcode (GetError r) ∈ mdsRetryErrors).

(** The loop over a connection: a failure and a status that asks for it are retried while
    there are retries left. *)
Fixpoint call_retry {A} (retryTimes : nat) (f : RpcFunc A) (c : Conn) (w : W)
    : W * res error (Response A) :=
  match Stub_Func f c w with
  | (w, Err e) =>
      match retryTimes with
      | O => (w, Err (ECode ERR_RPC_FAILED))
      | S n => call_retry n f c w
      end
  | (w, Ok r) =>
      match retryTimes with
      | S n => if CheckRpcNeedRetry r then call_retry n f c w else (w, Ok r)
      | O => (w, Ok r)
      end
  | r => r
  end.

(** The loop over the addresses.  [last] is the error of the variable [result]: nil before
    the first address, so that the result of a call without addresses is a nil dereference.
    The first address that connects is the one that is called. *)
Fixpoint call_addresses {A} (rpc : Rpc) (f : RpcFunc A) (addrs : list string)
    (last : option ErrorCode) : call (Response A) := λ s,
  match addrs with
  | [] =>
      match last with
      | Some e => (s, Err (ECode e))
      | None => (s, Panic)
      end
  | address :: addrs =>
      match GetConnection address (RpcTimeout rpc) (RpcRetryTimes rpc) s with
      | (s, Err _) => call_addresses rpc f addrs (Some ERR_RPC_FAILED) s
      | (s, Panic) => (s, Panic)
      | (s, Ok c) =>
          let '(w, r) := call_retry (Z.to_nat (RpcRetryTimes rpc)) f c (net s) in
          let s := set_net w s in
          match r with
          | Panic => (s, Panic)
          | r => (set_pool (PutConnection address c (pool s)) s, r)
          end
      end
  end.

Definition GetRpcResponse {A} (rpc : Rpc) (f : RpcFunc A) : call (Response A) :=
  call_addresses rpc f (Addrs rpc) None.

(** What every caller does with a response: a status other than OK is an error. *)
Definition checked {A} (r : Response A) : res error A :=
  if decide (GetErrcode (GetError r) = Errno_OK) then Ok (body r) else Err (ECode ERR_RPC_FAILED).

Definition request {A} (rpc : Rpc) (f : RpcFunc A) : call A :=
  r ← GetRpcResponse rpc f; pure_eff (checked r).

(** ** Requests of a command *)

Context `{Viper}.

Definition CreateNewMdsRpcWithEndPoint (cmd : Cmd) (endpoint : list string) (serviceName : string)
    : res error Rpc :=
  timeout ← GetDurationFlag cmd RPCTIMEOUT;
  retryTimes ← GetUint32Flag cmd RPCRETRYTIMES;
  retryDelay ← GetDurationFlag cmd RPCRETRYDElAY;
  let verbose := GetBoolFlag cmd VERBOSE in
  Ok (NewRpc endpoint timeout retryTimes retryDelay verbose serviceName).

Definition CreateNewMdsRpc (cmd : Cmd) (serviceName : string) : res error Rpc :=
  endpoints ← GetMDSAddrSlice cmd; CreateNewMdsRpcWithEndPoint cmd endpoints serviceName.

(** ** Inodes and their servers *)

Definition IsDir (inodeId : Z) : bool := Z.land inodeId 1 =? 1.
Definition IsFile (inodeId : Z) : bool := Z.land inodeId 1 =? 0.

Definition GetFsEpochByFsInfo (fsInfo : option FsInfo) : Z := pp_GetEpoch (GetPartitionPolicy fsInfo).

Definition GetFsMDSRouter : call (option MDSRouter) := λ s, (s, Ok (mdsRouter s)).

Definition location_text (l : Location) : string := loc_Host l +:+ ":" +:+ Itoa (loc_Port l).

(** The server of an inode, as a list of at most one address.  Without a router, or with a
    server that has no location, it is a nil dereference. *)
Definition GetEndPoint (inodeId : Z) : call (list string) :=
  r ← GetFsMDSRouter;
  match r with
  | None => pure_eff Panic
  | Some r =>
      o ← pure_eff (router_GetMDS inodeId r);
      match o with
      | None => mret []
      | Some d =>
          match mds_Location d with
          | Some l => mret [location_text l]
          | None => pure_eff Panic
          end
      end
  end.

End Calls.
