(* ===== verification/Operator.v ===== *)
(** Operations on the metadata service (src/internal/rpc: operator.go, utils.go): the lists
    of servers and file systems, dentries and inodes, the path of an inode and the inode of
    a path.  The sizes of directories are in DirWalk.v. *)

From Stdlib Require Import Ascii.
From S2P Require Import Prelude GoLib Errno Mds Flags Rpc.
Local Open Scope Z_scope.

Definition ROOTINODEID : Z := 1.

Section Operator.
Context {W : Type} `{Proto, ZMapOrder, Grpc W, MDSServiceClient W, Viper}.
Notation call A := (eff error (RpcState W) A).

(** ** Servers and file systems *)

Definition GetMDSList (cmd : Cmd) : call (list MDS) :=
  mdsRpc ← pure_eff (CreateNewMdsRpc cmd "GetMDSList");
  request mdsRpc (GetMDSRpc mkGetMDSList).

Definition cache_fs (fsInfo : option FsInfo) : call unit := λ s,
  (set_cache (SetFsInfo fsInfo (fsMetaCache s)) s, Ok ()).

(** The cache is asked for the id, which is 0 when the name is given. *)
Definition GetFsInfo (cmd : Cmd) (fsId : Z) (fsName : string) : call (option FsInfo) := λ s,
  match meta_GetFsInfo fsId (fsMetaCache s) with
  | Some fsInfo => (s, Ok fsInfo)
  | None =>
      (mdsRpc ← pure_eff (CreateNewMdsRpc cmd "GetFsInfo");
       let req := if 0 <? fsId then mkGetFsInfo fsId EmptyString else mkGetFsInfo 0 fsName in
       fsInfo ← request mdsRpc (GetFsRpc req);
       _ ← cache_fs fsInfo;
       mret fsInfo) s
  end.

Definition GetFsId (cmd : Cmd) : call Z :=
  v ← pure_eff (GetFsInfoFlagValue cmd);
  if decide (v.1 = 0) then
    fsInfo ← GetFsInfo cmd 0 v.2;
    if decide (fi_GetFsId fsInfo = 0) then pure_eff (Err (EText "fsid is invalid"))
    else mret (fi_GetFsId fsInfo)
  else mret v.1.

Definition GetFsName (cmd : Cmd) : call string :=
  v ← pure_eff (GetFsInfoFlagValue cmd);
  if decide (v.2 = EmptyString) then
    fsInfo ← GetFsInfo cmd v.1 EmptyString;
    if decide (fi_GetFsName fsInfo = EmptyString) then pure_eff (Err (EText "fsName is invalid"))
    else mret (fi_GetFsName fsInfo)
  else mret v.2.

Definition ListFsInfo (cmd : Cmd) : call (list FsInfo) :=
  mdsRpc ← pure_eff (CreateNewMdsRpc cmd "ListFsInfo");
  fsInfos ← request mdsRpc (ListFsInfoRpc mkListFsInfo);
  _ ← fold_eff (λ _ fsInfo, cache_fs (Some fsInfo)) fsInfos ();
  mret fsInfos.

Definition GetFsEpochByFsId (cmd : Cmd) (fsId : Z) : call Z :=
  fsInfo ← GetFsInfo cmd fsId EmptyString; mret (GetFsEpochByFsInfo fsInfo).

Definition put_router (r : MDSRouter) : call unit := λ s, (set_router (Some r) s, Ok ()).

(** The result of the initialisation of the router is not looked at. *)
Definition InitFsMDSRouter (cmd : Cmd) (fsId : Z) : call unit :=
  fsInfo ← GetFsInfo cmd fsId EmptyString;
  mds ← GetMDSList cmd;
  let policy := GetPartitionPolicy fsInfo in
  put_router (router_Init mds policy (NewMDSRouter (pp_GetType policy))).1.

(** ** Dentries and inodes *)

(** The request is sent to the server of [owner]; without one it is an error. *)
Definition at_server {A} (cmd : Cmd) (owner : Z) (name : string) (f : RpcFunc A) : call A :=
  endpoint ← GetEndPoint owner;
  match endpoint with
  | [] => pure_eff (Err (EText "endpoint is null"))
  | _ =>
      mdsRpc ← pure_eff (CreateNewMdsRpcWithEndPoint cmd endpoint name);
      request mdsRpc f
  end.

Definition GetDentry (cmd : Cmd) (fsId parentId : Z) (name : string) (epoch : Z) : call (option Dentry) :=
  at_server cmd parentId "GetDentry" (GetDentryRpc (mkGetDentry (mkContext epoch false) fsId parentId name)).

Definition DeleteFile (cmd : Cmd) (fsId parentId : Z) (name : string) (epoch : Z) : call unit :=
  at_server cmd parentId "UnLink" (UnlinkFileRpc (mkUnLink (mkContext epoch false) fsId parentId name)).

Definition DeleteDirectory (cmd : Cmd) (fsId parentId : Z) (name : string) (epoch : Z) : call unit :=
  at_server cmd parentId "Rmdir" (RmDirRpc (mkRmDir (mkContext epoch false) fsId parentId name)).

Definition ListDentry (cmd : Cmd) (fsId inodeId epoch : Z) : call (list Dentry) :=
  at_server cmd inodeId "ListDentry" (ListDentryRpc (mkListDentry (mkContext epoch false) fsId inodeId)).

(** A file is asked for at the server of its parent, when that is known; otherwise at the
    server of its own id, past the cache of that server. *)
Definition GetInode (cmd : Cmd) (fsId inodeId parent epoch : Z) : call Inode :=
  let owner := if IsFile inodeId && (0 <? parent) then parent else inodeId in
  let bypass := IsFile inodeId && (parent =? 0) in
  at_server cmd owner "GetInode" (GetInodeRpc (mkGetInode (mkContext epoch bypass) fsId inodeId)).

(** ** From a path to an inode *)

(** [strings.SplitN(path, "/", 2)]: the text before the first slash, and the text after it. *)
Fixpoint split_slash (p : string) : string * option string :=
  match p with
  | EmptyString => (EmptyString, None)
  | String a p =>
      if decide (a = slash) then (EmptyString, Some p)
      else let '(w, rest) := split_slash p in (String a w, rest)
  end.

Definition de_GetType (d : option Dentry) : Z := default 0 (de_Type <$> d).
Definition de_GetIno (d : option Dentry) : Z := default 0 (de_Ino <$> d).

Definition path_step (cmd : Cmd) (fsId epoch inodeId : Z) (name : string) : call Z :=
  if decide (name = EmptyString) then mret inodeId
  else
    dentry ← GetDentry cmd fsId inodeId name epoch;
    if decide (de_GetType dentry = FileType_DIRECTORY) then mret (de_GetIno dentry)
    else pure_eff (Err (EText "not a directory")).

(** The loop of [GetDirPathInodeId]: each round removes a byte at least, so the length of the
    path is fuel enough. *)
Fixpoint path_loop (fuel : nat) (cmd : Cmd) (fsId epoch inodeId : Z) (path : string) : call Z :=
  match fuel with
  | O => mret inodeId
  | S fuel =>
      if decide (path = EmptyString) then mret inodeId
      else
        let names := split_slash path in
        inodeId ← path_step cmd fsId epoch inodeId names.1;
        match names.2 with
        | None => mret inodeId
        | Some path => path_loop fuel cmd fsId epoch inodeId path
        end
  end.

Definition GetDirPathInodeId (cmd : Cmd) (fsId : Z) (path : string) (epoch : Z) : call Z :=
  if decide (path = "/") then mret ROOTINODEID
  else path_loop (String.length path) cmd fsId epoch ROOTINODEID path.

(** ** From an inode to its path *)

(** The loop from an inode to the root.  It follows what the servers answer, so it has no
    bound: [None] is a run that is still going.  An inode without parents is an index out
    of range. *)
Fixpoint path_up (fuel : nat) (cmd : Cmd) (fsId epoch inodeId : Z) (names inodes : list string)
    : call (option (list string * list string)) :=
  match fuel with
  | O => mret None
  | S fuel =>
      if decide (inodeId = ROOTINODEID) then mret (Some (names, inodes))
      else
        inode ← GetInode cmd fsId inodeId 0 epoch;
        match in_Parents inode with
        | [] => pure_eff Panic
        | parentId :: _ =>
            entries ← ListDentry cmd fsId parentId epoch;
            let '(names, inodes) :=
              match find_first (λ e, de_Ino e =? inodeId) entries with
              | Some e => (names ++ [de_Name e], inodes ++ [Itoa inodeId])
              | None => (names, inodes)
              end in
            path_up fuel cmd fsId epoch parentId names inodes
        end
  end.

Definition GetInodePath (fuel : nat) (cmd : Cmd) (fsId inodeId epoch : Z)
    : call (option (string * string)) :=
  if decide (inodeId = ROOTINODEID) then mret (Some ("/", Itoa ROOTINODEID))
  else
    o ← path_up fuel cmd fsId epoch inodeId [] [];
    mret ('(names, inodes) ← o;
          if decide (names = []) then Some (EmptyString, EmptyString)
          else Some (path_Join (reverse (names ++ ["/"])),
                     path_Join (reverse (inodes ++ [Itoa ROOTINODEID])))).

End Operator.
