(* ===== verification/OperatorFacts.v ===== *)
(** What the calls of Rpc.v and Operator.v promise: the retries of [GetRpcResponse], what
    an answer says about the server, and paths. *)

From Stdlib Require Import Ascii.
From S2P Require Import Prelude GoLib Errno Mds Flags Rpc Operator.
Local Open Scope Z_scope.

(** * Retries *)

Section Retries.
Context {W : Type} `{Proto, Grpc W, MDSServiceClient W}.

(** The world after [k] attempts of a request over a connection, and the answer of the
    attempt that follows. *)
Fixpoint after {A} (k : nat) (f : RpcFunc A) (c : Conn) (w : W) : W :=
  match k with O => w | S k => after k f c (Stub_Func f c w).1 end.
Definition answer {A} (k : nat) (f : RpcFunc A) (c : Conn) (w : W) : res error (Response A) :=
  (Stub_Func f c (after k f c w)).2.

(** An answer that is tried again while there are retries left. *)
Definition again {A} (a : res error (Response A)) : bool :=
  match a with Ok r => CheckRpcNeedRetry r | Err _ => true | Panic => false end.

(** How the last answer is reported. *)
Definition reported {A} (a : res error (Response A)) : res error (Response A) :=
  match a with Err _ => Err (ECode ERR_RPC_FAILED) | a => a end.

Lemma after_S {A} k (f : RpcFunc A) c w : after (S k) f c w = (Stub_Func f c (after k f c w)).1.
Proof. revert w. induction k as [|k IH]; intros w; [done|]. simpl. by rewrite <-IH. Qed.

Lemma call_retry_attempts {A} n (f : RpcFunc A) c w :
  ∃ k, (k ≤ n)%nat ∧ (∀ j, (j < k)%nat → again (answer j f c w) = true) ∧
    ((k < n)%nat → again (answer k f c w) = false) ∧
    call_retry n f c w = (after (S k) f c w, reported (answer k f c w)).
Proof.
  revert w. induction n as [|n IH]; intros w.
  - exists O. split_and!; [done|lia|lia|]. unfold answer. simpl.
    by destruct (Stub_Func f c w) as [w' [r|e|]].
  - simpl. destruct (again (answer 0 f c w)) eqn:Ha.
    + destruct (IH (Stub_Func f c w).1) as (k & Hk & Hbefore & Hlast & Heq).
      exists (S k). split_and!; [lia| |intros; by apply Hlast; lia|].
      * intros [|j] Hj; [done|]. apply (Hbefore j). lia.
      * unfold answer, again in Ha. simpl in Ha.
        destruct (Stub_Func f c w) as [w' [r|e|]] eqn:Hs; simpl in *; try done.
        -- rewrite Ha, Heq. unfold answer. simpl. by rewrite Hs.
        -- rewrite Heq. unfold answer. simpl. by rewrite Hs.
    + exists O. split_and!; [lia|lia|done|]. unfold answer, again in *. simpl in *.
      destruct (Stub_Func f c w) as [w' [r|e|]]; simpl in *; try done. by rewrite Ha.
Qed.

Lemma conns_set address l p : conns address (<[address := l]> (p : ConnectionPool)) = l.
Proof. unfold conns, ConnectionPool in *. by rewrite lookup_insert_eq. Qed.

Lemma conns_put address c p : conns address (PutConnection address c p) = conns address p ++ [c].
Proof. apply conns_set. Qed.

(** ** Connections *)

(** The world after [k] dials of an address, and the result of the next one. *)
Fixpoint dialled (k : nat) (a : string) (t : Z) (w : W) : W :=
  match k with O => w | S k => dialled k a t (dial a t w).1 end.
Definition dial_result (k : nat) (a : string) (t : Z) (w : W) : res error Conn :=
  (dial a t (dialled k a t w)).2.
Definition refused (r : res error Conn) : Prop := ∃ e, r = Err e.

Lemma dial_retry_dials n a t w :
  ∃ k, (k ≤ n)%nat ∧ (∀ j, (j < k)%nat → refused (dial_result j a t w)) ∧
    ((k < n)%nat → ¬ refused (dial_result k a t w)) ∧
    dial_retry n a t w = (dialled (S k) a t w, dial_result k a t w).
Proof.
  revert w. induction n as [|n IH]; intros w; simpl.
  - exists O. split_and!; [done|lia|lia|]. unfold dial_result. simpl.
    by destruct (dial a t w) as [w' [c|e|]].
  - destruct (dial a t w) as [w' r] eqn:Hd.
    assert (dial_result 0 a t w = r) as Hz by (unfold dial_result; simpl; by rewrite Hd).
    destruct r as [c|e|].
    + exists O. rewrite Hz. simpl. split_and!; [lia|lia| |done]. by intros _ [e ?].
    + destruct (IH w') as (k & Hk & Hbefore & Hlast & Heq). exists (S k).
      assert (∀ j, dial_result (S j) a t w = dial_result j a t w') as HS
        by (intros j; unfold dial_result; simpl; by rewrite Hd).
      rewrite HS, Heq. simpl. split_and!; [lia| | |done].
      * intros [|j] Hj; [rewrite Hz; by eexists|]. rewrite HS. apply Hbefore. lia.
      * intros Hkn. apply Hlast. lia.
    + exists O. rewrite Hz. simpl. split_and!; [lia|lia| |done]. by intros _ [e ?].
Qed.

(** A connection to an address: the idle one that has waited longest, taken from the pool, or
    else a new one, by at most [RpcRetryTimes] + 1 dials of which only the last succeeds. *)
Definition connected (rpc : Rpc) (a : string) (s s' : RpcState W) (c : Conn) : Prop :=
  (∃ idle, conns a (pool s) = c :: idle ∧ s' = set_pool (<[a := idle]> (pool s)) s) ∨
  (conns a (pool s) = [] ∧ ∃ k, (k ≤ Z.to_nat (RpcRetryTimes rpc))%nat ∧
     (∀ j, (j < k)%nat → refused (dial_result j a (RpcTimeout rpc) (net s))) ∧
     dial_result k a (RpcTimeout rpc) (net s) = Ok c ∧
     s' = set_net (dialled (S k) a (RpcTimeout rpc) (net s)) s).
(** No idle connection, and [RpcRetryTimes] + 1 dials that fail. *)
Definition refuses (rpc : Rpc) (a : string) (s s' : RpcState W) : Prop :=
  let n := Z.to_nat (RpcRetryTimes rpc) in
  conns a (pool s) = [] ∧ (∀ j, (j ≤ n)%nat → refused (dial_result j a (RpcTimeout rpc) (net s))) ∧
  s' = set_net (dialled (S n) a (RpcTimeout rpc) (net s)) s.
Inductive all_refuse (rpc : Rpc) : list string → RpcState W → RpcState W → Prop :=
| refuse_nil s : all_refuse rpc [] s s
| refuse_cons a l s s1 s2 : refuses rpc a s s1 → all_refuse rpc l s1 s2 → all_refuse rpc (a :: l) s s2.

Lemma GetConnection_cases rpc a s s' r :
  GetConnection a (RpcTimeout rpc) (RpcRetryTimes rpc) s = (s', r) →
  match r with
  | Ok c => connected rpc a s s' c
  | Err _ => refuses rpc a s s'
  | Panic => ∃ k, dial_result k a (RpcTimeout rpc) (net s) = Panic
  end.
Proof.
  unfold GetConnection. destruct (conns a (pool s)) as [|c idle] eqn:Hc.
  2: { intros [= <- <-]. left. by exists idle. }
  destruct (dial_retry_dials (Z.to_nat (RpcRetryTimes rpc)) a (RpcTimeout rpc) (net s))
    as (k & Hk & Hbefore & Hlast & ->). intros [= <- <-].
  destruct (dial_result k a (RpcTimeout rpc) (net s)) as [c|e|] eqn:Hr.
  - right. split; [done|]. by exists k.
  - assert (k = Z.to_nat (RpcRetryTimes rpc)) as ->.
    { destruct (decide (k = Z.to_nat (RpcRetryTimes rpc))); [done|]. destruct Hlast; [lia|by eexists]. }
    split_and!; [done| |done]. intros j Hj.
    destruct (decide (j = Z.to_nat (RpcRetryTimes rpc))) as [->|]; [rewrite Hr; by eexists|].
    apply Hbefore. lia.
  - by exists k.
Qed.

(** What a call does over a connection, once it has one. *)
Definition called {A} (rpc : Rpc) (f : RpcFunc A) (a : string) (c : Conn) (s s' : RpcState W)
    (r : res error (Response A)) : Prop :=
  let n := Z.to_nat (RpcRetryTimes rpc) in
  ∃ k, (k ≤ n)%nat ∧ (∀ j, (j < k)%nat → again (answer j f c (net s)) = true) ∧
    ((k < n)%nat → again (answer k f c (net s)) = false) ∧
    r = reported (answer k f c (net s)) ∧
    let s1 := set_net (after (S k) f c (net s)) s in
    s' = match r with Panic => s1 | _ => set_pool (<[a := conns a (pool s) ++ [c]]> (pool s)) s1 end.

Lemma call_addresses_cases {A} rpc (f : RpcFunc A) addrs last s s' r :
  call_addresses rpc f addrs last s = (s', r) →
  (∃ pre a post s1 s2 c, addrs = pre ++ a :: post ∧ all_refuse rpc pre s s1 ∧
     connected rpc a s1 s2 c ∧ called rpc f a c s2 s' r) ∨
  (all_refuse rpc addrs s s' ∧
     r = match addrs, last with
         | [], None => Panic | [], Some e => Err (ECode e) | _, _ => Err (ECode ERR_RPC_FAILED)
         end) ∨
  (∃ pre a post s1 k, addrs = pre ++ a :: post ∧ all_refuse rpc pre s s1 ∧
     dial_result k a (RpcTimeout rpc) (net s1) = Panic ∧ r = Panic).
Proof.
  revert last s. induction addrs as [|a addrs IH]; intros last s; simpl.
  { intros Hr. right. left. destruct last; simplify_eq; (split; [constructor|done]). }
  destruct (GetConnection a (RpcTimeout rpc) (RpcRetryTimes rpc) s) as [s1 [c|e|]] eqn:Hg;
    apply GetConnection_cases in Hg.
  - intros Hr. left. exists [], a, addrs, s, s1, c. split_and!; [done|constructor|done|].
    destruct (call_retry_attempts (Z.to_nat (RpcRetryTimes rpc)) f c (net s1))
      as (k & Hk & Hbefore & Hlast & Heq). rewrite Heq in Hr.
    exists k. split_and!; [done..| |]; destruct (reported (answer k f c (net s1))); by simplify_eq.
  - intros [(pre & b & post & s2 & s3 & c & -> & Hp & Hrest)|[[Hp ->]|(pre & b & post & s2 & k & -> & Hp & Hrest)]]%IH.
    + left. exists (a :: pre), b, post, s2, s3, c. split; [done|]. split; [by econstructor|done].
    + right. left. split; [by econstructor|]. by destruct addrs.
    + right. right. exists (a :: pre), b, post, s2, k. split; [done|]. split; [by econstructor|done].
  - intros [= <- <-]. right. right. destruct Hg as [k Hk]. exists [], a, addrs, s, k.
    split_and!; [done|constructor|done|done].
Qed.

(** C25: Calling the metadata service.  The first address to which there is a connection is the
    one that is called, over the idle connection that has waited longest or one that is
    dialled, by at most [RpcRetryTimes] + 1 dials; each address before it had no idle
    connection and refused so many dials.  The request is sent at most [RpcRetryTimes] + 1
    times: every answer but the last one is a failure or a status that asks for a retry,
    and the last answer is such a one only when all the attempts have been made.  The result
    is the last answer - a failure of the call becomes the error of the rpc -, also when
    its status is an error, and the connection is put back behind the idle ones.  When
    every address refuses, the request is not sent and the error of the rpc is returned;
    without an address the call panics, as it does when a dial or a request panics. *)
Theorem GetRpcResponse_attempts {A} (rpc : Rpc) (f : RpcFunc A) (s s' : RpcState W)
    (r : res error (Response A)) :
  GetRpcResponse rpc f s = (s', r) →
  (∃ pre address post s1 s2 c, Addrs rpc = pre ++ address :: post ∧
     all_refuse rpc pre s s1 ∧ connected rpc address s1 s2 c ∧ called rpc f address c s2 s' r) ∨
  (all_refuse rpc (Addrs rpc) s s' ∧
     r = if decide (Addrs rpc = []) then Panic else Err (ECode ERR_RPC_FAILED)) ∨
  (∃ pre address post s1 k, Addrs rpc = pre ++ address :: post ∧ all_refuse rpc pre s s1 ∧
     dial_result k address (RpcTimeout rpc) (net s1) = Panic ∧ r = Panic).
Proof.
  unfold GetRpcResponse. intros [?|[[Hp ->]|?]]%call_addresses_cases; [by left| |by right; right].
  right. left. split; [done|]. by destruct (Addrs rpc).
Qed.

(** Without an idle connection the addresses are dialled in order; when none of them
    connects the call fails with the error of the rpc, and without any address it is a nil
    dereference. *)
Definition no_dial (w : W) (address : string) : Prop :=
  ∀ t w', ∃ w'' e, dial address t w' = (w'', Err e).

Lemma dial_retry_fails n address t w :
  no_dial w address → ∃ w' e, dial_retry n address t w = (w', Err e).
Proof.
  intros Hd. revert w Hd. induction n as [|n IH]; intros w Hd; simpl;
    destruct (Hd t w) as (w' & e & ->); [eauto|]. by apply IH.
Qed.

Lemma call_addresses_unreachable {A} rpc (f : RpcFunc A) addrs last (s : RpcState W) :
  (∀ a, a ∈ addrs → conns a (pool s) = [] ∧ no_dial (net s) a) →
  (call_addresses rpc f addrs last s).2 =
    match addrs, last with
    | [], None => Panic
    | [], Some e => Err (ECode e)
    | _, _ => Err (ECode ERR_RPC_FAILED)
    end.
Proof.
  revert last s. induction addrs as [|a addrs IH]; intros last s Hall; simpl.
  { by destruct last. }
  destruct (Hall a) as [Hc Hd]; [left|]. unfold GetConnection. rewrite Hc.
  destruct (dial_retry_fails (Z.to_nat (RpcRetryTimes rpc)) a (RpcTimeout rpc) _ Hd) as (w & e & ->).
  rewrite IH; [by destruct addrs|]. intros b Hb. simpl. apply Hall. by right.
Qed.

(** An inode that no server owns has no address, and a request without an address panics. *)
Lemma GetEndPoint_unrouted_panics {A} `{Viper} (r : MDSRouter) (ino : Z) (rpc : Rpc) (f : RpcFunc A)
    (s : RpcState W) :
  mdsRouter s = Some r → router_GetMDS ino r = Ok None → Addrs rpc = [] →
  GetEndPoint ino s = (s, Ok []) ∧ GetRpcResponse rpc f s = (s, Panic).
Proof.
  intros Hr Hd Ha. unfold GetEndPoint, GetFsMDSRouter, GetRpcResponse, mbind, eff_bind, pure_eff.
  by rewrite Hr, Hd, Ha.
Qed.

End Retries.

(** * What the answers say *)

Section Answers.
Context {W : Type} `{Proto, ZMapOrder, Grpc W, MDSServiceClient W, Viper}.
Context (I : W → Prop).

(** [I] is kept by dialling; a request is honest when its sending keeps [I] and [P] holds of
    what a response with status OK carries. *)
Definition dial_keeps : Prop := ∀ a t w, I w → I (dial a t w).1.
Definition honest {A} (f : RpcFunc A) (P : A → Prop) : Prop := ∀ c w w' a,
  I w → Stub_Func f c w = (w', a) →
  I w' ∧ ∀ r, a = Ok r → GetErrcode (GetError r) = Errno_OK → P (body r).

Context (Hdial : dial_keeps).

Lemma dial_retry_keeps n a t w : I w → I (dial_retry n a t w).1.
Proof.
  revert w. induction n as [|n IH]; intros w HI; simpl; pose proof (Hdial a t w HI) as Hw;
    destruct (dial a t w) as [w' [c|e|]]; simpl in *; auto.
Qed.

(** The caches and the router are not touched by a request. *)
Definition same_caches (s s' : RpcState W) : Prop :=
  fsMetaCache s' = fsMetaCache s ∧ mdsRouter s' = mdsRouter s.

Lemma GetConnection_keeps a t n s s' r :
  GetConnection a t n s = (s', r) → I (net s) → I (net s') ∧ same_caches s s'.
Proof.
  unfold GetConnection. destruct (conns a (pool s)) as [|c rest].
  - pose proof (dial_retry_keeps (Z.to_nat n) a t (net s)) as Hd.
    destruct (dial_retry _ a t (net s)) as [w r']. intros [= <- <-] HI. split; [by apply Hd|done].
  - intros [= <- <-] HI. done.
Qed.

Lemma call_retry_honest {A} n (f : RpcFunc A) P c w w' a :
  honest f P → I w → call_retry n f c w = (w', a) →
  I w' ∧ ∀ r, a = Ok r → GetErrcode (GetError r) = Errno_OK → P (body r).
Proof.
  intros Hf. revert w. induction n as [|n IH]; intros w HI; simpl;
    destruct (Stub_Func f c w) as [w1 [r|e|]] eqn:Hs;
    destruct (Hf _ _ _ _ HI Hs) as [HI1 HP].
  - intros [= <- <-]. split; [done|]. intros r' [= <-]. by apply HP.
  - intros [= <- <-]. done.
  - intros [= <- <-]. done.
  - destruct (CheckRpcNeedRetry r); [by apply IH|]. intros [= <- <-].
    split; [done|]. intros r' [= <-]. by apply HP.
  - by apply IH.
  - intros [= <- <-]. done.
Qed.

Lemma call_addresses_honest {A} rpc (f : RpcFunc A) P addrs last s s' a :
  honest f P → call_addresses rpc f addrs last s = (s', a) → I (net s) →
  I (net s') ∧ same_caches s s' ∧
  ∀ r, a = Ok r → GetErrcode (GetError r) = Errno_OK → P (body r).
Proof.
  intros Hf. revert last s. induction addrs as [|addr addrs IH]; intros last s; simpl.
  - destruct last; intros [= <- <-]; done.
  - destruct (GetConnection addr (RpcTimeout rpc) (RpcRetryTimes rpc) s) as [s1 [c|e|]] eqn:Hg; intros Hc HI;
      destruct (GetConnection_keeps _ _ _ _ _ _ Hg HI) as [HI1 Hsame].
    + destruct (call_retry _ f c (net s1)) as [w r] eqn:Hr.
      destruct (call_retry_honest _ _ _ _ _ _ _ Hf HI1 Hr) as [HI2 HP].
      destruct r as [r|e|]; injection Hc as <- <-; (split; [done|]); (split; [done|]); done.
    + destruct (IH _ _ Hc HI1) as (? & [Hs1 Hs2] & ?). destruct Hsame as [Hs3 Hs4].
      split; [done|]. split; [split; congruence|done].
    + injection Hc as <- <-. done.
Qed.

Lemma request_honest {A} rpc (f : RpcFunc A) P s s' a :
  honest f P → request rpc f s = (s', a) → I (net s) →
  I (net s') ∧ same_caches s s' ∧ ∀ b, a = Ok b → P b.
Proof.
  unfold request, GetRpcResponse. intros Hf. unfold mbind, eff_bind.
  destruct (call_addresses rpc f (Addrs rpc) None s) as [s1 r] eqn:Hc. intros Hr HI.
  destruct (call_addresses_honest _ _ _ _ _ _ _ _ Hf Hc HI) as (HI1 & Hs1 & HP).
  destruct r as [r|e|]; try (injection Hr as <- <-; done).
  unfold pure_eff, checked in Hr. case_decide; injection Hr as <- <-; [|done].
  split_and!; [done..|]. intros b [= <-]. by apply HP.
Qed.

Lemma at_server_honest {A} cmd owner name (f : RpcFunc A) P s s' a :
  honest f P → at_server cmd owner name f s = (s', a) → I (net s) →
  I (net s') ∧ same_caches s s' ∧ ∀ b, a = Ok b → P b.
Proof.
  intros Hf. unfold at_server, GetEndPoint, GetFsMDSRouter, mbind, eff_bind, pure_eff.
  destruct (mdsRouter s) as [r|]; [|intros [= <- <-] ?; done].
  destruct (router_GetMDS owner r) as [[d|]|e|]; try (intros [= <- <-] ?; done).
  destruct (mds_Location d); try (intros [= <- <-] ?; done). simpl.
  destruct (CreateNewMdsRpcWithEndPoint _ _ _); try (intros [= <- <-] ?; done).
  by apply request_honest.
Qed.

(** ** Servers that always answer *)

(** [I] is kept, dialling always connects, and a request is always answered with status OK. *)
Definition dial_connects : Prop := ∀ a t w, I w → ∃ w' c, dial a t w = (w', Ok c) ∧ I w'.
Definition answered {A} (f : RpcFunc A) : Prop := ∀ c w, I w →
  ∃ w' r, Stub_Func f c w = (w', Ok r) ∧ I w' ∧ GetErrcode (GetError r) = Errno_OK.

Lemma GetConnection_connects a t n s :
  dial_connects → I (net s) →
  ∃ s1 c, GetConnection a t n s = (s1, Ok c) ∧ I (net s1) ∧ mdsRouter s1 = mdsRouter s.
Proof.
  intros Hd HI. unfold GetConnection. destruct (conns _ (pool s)) as [|c rest]; [|eauto].
  destruct (Hd a t (net s) HI) as (w' & c & Hc & HI').
  exists (set_net w' s), c. split; [|done]. destruct (Z.to_nat n); simpl; by rewrite Hc.
Qed.

Lemma GetRpcResponse_answered {A} rpc (f : RpcFunc A) a l s :
  dial_connects → answered f → Addrs rpc = a :: l → I (net s) →
  ∃ s' r, GetRpcResponse rpc f s = (s', Ok r) ∧ I (net s') ∧ mdsRouter s' = mdsRouter s ∧
    GetErrcode (GetError r) = Errno_OK.
Proof.
  intros Hd Hf Haddr HI. unfold GetRpcResponse. rewrite Haddr. simpl.
  destruct (GetConnection_connects a (RpcTimeout rpc) (RpcRetryTimes rpc) s Hd HI) as (s1 & c & -> & HI1 & Hr1).
  destruct (Hf c (net s1) HI1) as (w' & resp & Hs & HI' & Hok).
  assert (call_retry (Z.to_nat (RpcRetryTimes rpc)) f c (net s1) = (w', Ok resp)) as ->.
  { assert (CheckRpcNeedRetry resp = false) as Hn.
    { apply bool_decide_eq_false. rewrite Hok. apply OK_not_retried. }
    destruct (Z.to_nat (RpcRetryTimes rpc)); simpl; rewrite Hs; [done|by rewrite Hn]. }
  eexists _, resp. split; [done|]. split; [done|]. by split.
Qed.

Lemma request_answered {A} (cmd : Cmd) owner name (f : RpcFunc A) r d l rpc s :
  dial_connects → answered f →
  mdsRouter s = Some r → router_GetMDS owner r = Ok (Some d) → mds_Location d = Some l →
  CreateNewMdsRpcWithEndPoint cmd [location_text l] name = Ok rpc → I (net s) →
  ∃ s' b, at_server cmd owner name f s = (s', Ok b) ∧ I (net s') ∧ mdsRouter s' = mdsRouter s.
Proof.
  intros Hd Hf Hr Hm Hl Hrpc HI. unfold at_server, GetEndPoint, GetFsMDSRouter, mbind, eff_bind, pure_eff.
  rewrite Hr, Hm, Hl. simpl. rewrite Hrpc.
  assert (Addrs rpc = [location_text l]) as Haddr.
  { unfold CreateNewMdsRpcWithEndPoint in Hrpc. by go_ok. }
  unfold request, mbind, eff_bind.
  destruct (GetRpcResponse_answered rpc f _ _ s Hd Hf Haddr HI) as (s' & resp & -> & HI' & Hr' & Hok).
  unfold pure_eff, checked. rewrite decide_True by done. eexists _, _. split; [done|].
  split; [done|congruence].
Qed.

End Answers.
