(* ===== verification/MdsSample.v ===== *)
(** A small metadata service for examples: a fixed tree of directories, servers that answer
    truthfully and count their requests, and a command with its flags. *)

From Stdlib Require Import Ascii.
From S2P Require Import Prelude GoLib Errno Mds Flags Rpc Operator OperatorFacts.
Local Open Scope Z_scope.

#[local] Existing Instance sample_proto.

(** The root holds a file with two links, a directory and a symbolic link; the directory
    holds the other link and a file of its own. *)
Definition sample_children (ino : Z) : list Dentry :=
  if decide (ino = 1) then
    [mkDentry "a" 2 1 FileType_FILE; mkDentry "d" 3 1 FileType_DIRECTORY; mkDentry "s" 6 1 3]
  else if decide (ino = 3) then
    [mkDentry "b" 2 3 FileType_FILE; mkDentry "c" 4 3 FileType_FILE]
  else [].
Definition sample_inode (ino : Z) : Inode :=
  if decide (ino = 2) then mkInode 2 100 2 [1; 3]
  else if decide (ino = 3) then mkInode 3 4096 2 [1]
  else mkInode ino 10 1 [3].

Definition sample_fs (name : string) : FsInfo :=
  mkFsInfo 9 name 1 sample_policy 4194304 67108864 FsType_S3
    (Some (mkFsExtra (Some (mkS3Info "ak" "sk" "http://s3" "bucket")) None)) [] "uuid".

(** The world is the number of requests. *)
Definition sample_grpc : Grpc nat := λ address timeout w, (w, Ok 7).
Definition replies {Req A} (f : Req → A) : Conn → Req → nat → nat * res error (Response A) :=
  λ c r w, (S w, Ok (mkResponse None (f r))).
Definition sample_client : MDSServiceClient nat := {|
  client_GetMDSList := replies (λ _, [sample_mds 1; sample_mds 2]);
  client_ListFsInfo := replies (λ _, []);
  client_GetFsInfo := replies (λ r, Some (sample_fs "fs"));
  client_CreateFs := replies (λ r, Some (sample_fs (cf_FsName r)));
  client_DeleteFs := replies (λ _, ());
  client_SetFsQuota := replies (λ _, ());
  client_GetFsQuota := replies (λ _, mkQuota 0 0 0 0);
  client_GetInode := replies (λ r, sample_inode (gi_Ino r));
  client_MkDir := replies (λ _, ());
  client_GetDentry := replies (λ r,
    find_first (λ e, bool_decide (de_Name e = gd_Name r)) (sample_children (gd_Parent r)));
  client_ListDentry := replies (λ r, sample_children (ld_Parent r));
  client_SetDirQuota := replies (λ _, ());
  client_GetDirQuota := replies (λ _, mkQuota 0 0 0 0);
  client_LoadDirQuotas := replies (λ _, ∅);
  client_DeleteDirQuota := replies (λ _, ());
  client_UnLink := replies (λ _, ());
  client_RmDir := replies (λ _, ());
  client_ListGroups := replies (λ _, []);
  client_ListMembers := replies (λ _, []);
  client_ReweightMember := replies (λ _, ());
  client_LeaveCacheGroup := replies (λ _, ());
  client_DeleteMember := replies (λ _, ());
  client_UnlockMember := replies (λ _, ());
|}.

Definition sample_viper : Viper := {|
  viper_GetString := λ _, "127.0.0.1:7400"; viper_GetBool := λ _, false;
  viper_GetUint32 := λ _, 2; viper_GetInt32 := λ _, 0; viper_GetDuration := λ _, 1000;
  viper_GetStringSlice := λ _, []; Duration_String := λ _, "1us";
|}.

(** A command with the flags of every request. *)
Definition sample_cmd : Cmd := res_get empty_cmd (
  c ← AddDurationFlag RPCTIMEOUT empty_cmd;
  c ← AddDurationFlag RPCRETRYDElAY c;
  c ← AddUint32Flag RPCRETRYTIMES c;
  c ← AddStringFlag DINGOFS_MDSADDR c;
  AddBoolFlag VERBOSE c).

(** The router of a file system on one server. *)
Definition sample_router : MDSRouter :=
  MonoRouter {| mono_mds := Some (sample_mds 1); m_mdsMeta := NewMDSMeta |}.
Definition sample_state : RpcState nat := mkRpcState ∅ ∅ (Some sample_router) O.

Lemma sample_dial_keeps : @dial_keeps nat sample_grpc (λ _, True).
Proof. done. Qed.
Lemma sample_dial_connects : @dial_connects nat sample_grpc (λ _, True).
Proof. intros a t w _. eexists _, _. split; [done|done]. Qed.
Lemma sample_honest {A} (f : RpcFunc A) P :
  (∀ c w r, (Stub_Func (H := sample_client) f c w).2 = Ok r → P (body r)) →
  @honest nat sample_proto sample_client (λ _, True) A f P.
Proof.
  intros Hf c w w' a _ Hs. split; [done|]. intros r -> _. apply (Hf c w). by rewrite Hs.
Qed.

(** A server that does not listen and one whose first dial fails, and which is busy and
    then unreachable before it answers.  The world counts dials and requests. *)
Section Attempts.
Definition flaky_grpc : Grpc nat := λ address timeout w,
  if decide (address = "10.0.0.1:7400") then (S w, Err (EText "refused"))
  else if decide (w = 6)%nat then (S w, Err (EText "timeout")) else (S w, Ok 7).
Definition flaky_client : MDSServiceClient nat :=
  let c := sample_client in
  {| client_GetInode := λ _ r w,
       if decide (w = 8)%nat then (S w, Ok (mkResponse (Some (mkMdsError Errno_EREQUEST_FULL EmptyString)) (sample_inode 0)))
       else if decide (w = 9)%nat then (S w, Err (EText "unavailable"))
       else (S w, Ok (mkResponse None (sample_inode (gi_Ino r))));
     client_GetMDSList := client_GetMDSList; client_ListFsInfo := client_ListFsInfo;
     client_GetFsInfo := client_GetFsInfo; client_CreateFs := client_CreateFs;
     client_DeleteFs := client_DeleteFs; client_SetFsQuota := client_SetFsQuota;
     client_GetFsQuota := client_GetFsQuota; client_MkDir := client_MkDir;
     client_GetDentry := client_GetDentry; client_ListDentry := client_ListDentry;
     client_SetDirQuota := client_SetDirQuota; client_GetDirQuota := client_GetDirQuota;
     client_LoadDirQuotas := client_LoadDirQuotas; client_DeleteDirQuota := client_DeleteDirQuota;
     client_UnLink := client_UnLink; client_RmDir := client_RmDir;
     client_ListGroups := client_ListGroups; client_ListMembers := client_ListMembers;
     client_ReweightMember := client_ReweightMember; client_LeaveCacheGroup := client_LeaveCacheGroup;
     client_DeleteMember := client_DeleteMember; client_UnlockMember := client_UnlockMember |}.
#[local] Existing Instances flaky_grpc flaky_client.

(** Six dials of the first address, two of the second, three requests. *)
Lemma GetRpcResponse_attempts_witness :
  let rpc := NewRpc ["10.0.0.1:7400"; "10.0.0.2:7400"] 1000 5 200 false "GetInode" in
  let f := GetInodeRpc (mkGetInode (mkContext 0 false) 9 2) in
  let s := mkRpcState ∅ ∅ None O in
  let s' := mkRpcState {["10.0.0.2:7400" := [7]]} ∅ None 11%nat in
  let r := Ok (mkResponse None (sample_inode 2)) in
  GetRpcResponse rpc f s = (s', r) ∧
  ∃ pre address post s1 s2 c, Addrs rpc = pre ++ address :: post ∧
     all_refuse rpc pre s s1 ∧ connected rpc address s1 s2 c ∧ called rpc f address c s2 s' r.
Proof.
  intros rpc f s s' r. assert (GetRpcResponse rpc f s = (s', r)) as Hr by (vm_compute; reflexivity).
  split; [exact Hr|].
  destruct (GetRpcResponse_attempts rpc f s s' r Hr) as [Hc|[[_ Hn]|(pre & a & post & s1 & k & _ & _ & _ & Hn)]];
    [exact Hc|discriminate Hn..].
Defined.

End Attempts.
