(* ===== verification/FsCmd.v ===== *)
(** Commands that are one request to the metadata service: file systems (src/cli/command/fs:
    create.go, delete.go, list.go, query.go, mountpoint.go), servers (mds/status.go) and
    caches (src/cli/command/cache: group/list.go, member/list.go, set.go, delete.go,
    leave.go, unlock.go).

    For each: the flags it declares ([New...Command]), the options it reads from them, and
    its run.  A run gives what is printed: the result as JSON, or what [Table.shown] says.
    Help texts, colours and the conversion of messages to JSON are left out.  The answer of
    the user to a question is an argument. *)

From Stdlib Require Import Ascii.
From S2P Require Import Prelude GoLib Errno Mds Table Flags Rpc Operator.
Local Open Scope Z_scope.

(** * Results *)

(** [common.OutputResult]: no error stands for [errno.ERR_OK]. *)
Record OutputResult (A : Type) : Type := mkOutputResult { or_Error : option error; or_Result : option A }.
Arguments mkOutputResult {A} _ _.
Arguments or_Error {A} _.
Arguments or_Result {A} _.

Inductive printed (A : Type) : Type :=
| Json (r : OutputResult A)
| Shown (s : shown).
Arguments Json {A} _.
Arguments Shown {A} _.

(** The end of a command: the result as JSON, whatever it is; otherwise its error, or the
    text or table.  Without an error there is a response. *)
Definition print_result {A} (format : string) (r : OutputResult (Response A)) (show : A → shown)
    : res error (printed (Response A)) :=
  if decide (format = "json") then Ok (Json r)
  else
    match or_Error r, or_Result r with
    | Some e, _ => Err e
    | None, Some v => Ok (Shown (show (body v)))
    | None, None => Panic
    end.

(** The names used by the commands. *)
Definition upper_byte (a : ascii) : ascii :=
  let n := nat_of_ascii a in
  if ((97 <=? n) && (n <=? 122))%nat then ascii_of_nat (n - 32) else a.
Fixpoint ToUpper (s : string) : string :=
  match s with EmptyString => EmptyString | String a s => String (upper_byte a) (ToUpper s) end.

(** ** Flags *)

(** The flags of every command that calls the metadata service. *)
Definition add_rpc_flags (c : Cmd) : res error Cmd :=
  c ← AddBoolFlag VERBOSE c;
  c ← AddConfigFileFlag c;
  c ← AddFormatFlag c;
  c ← AddDurationFlag RPCTIMEOUT c;
  c ← AddDurationFlag RPCRETRYDElAY c;
  c ← AddUint32Flag RPCRETRYTIMES c;
  AddStringFlag DINGOFS_MDSADDR c.

Definition NewFsCreateCommand : res error Cmd :=
  c ← AddUint32Flag DINGOFS_FSID empty_cmd;
  c ← AddStringFlag DINGOFS_BLOCKSIZE c;
  c ← AddStringFlag DINGOFS_CHUNKSIZE c;
  c ← AddStringFlag DINGOFS_STORAGETYPE c;
  c ← AddStringFlag DINGOFS_PARTITION_TYPE c;
  c ← AddUint32Flag DINGOFS_MDS_NUM c;
  c ← AddStringFlag DINGOFS_S3_AK c;
  c ← AddStringFlag DINGOFS_S3_SK c;
  c ← AddStringFlag DINGOFS_S3_ENDPOINT c;
  c ← AddStringFlag DINGOFS_S3_BUCKETNAME c;
  c ← AddStringFlag DINGOFS_RADOS_KEY c;
  c ← AddStringFlag DINGOFS_RADOS_USERNAME c;
  c ← AddStringFlag DINGOFS_RADOS_MON c;
  c ← AddStringFlag DINGOFS_RADOS_POOLNAME c;
  c ← AddStringFlag DINGOFS_RADOS_CLUSTERNAME c;
  add_rpc_flags c.

Definition NewFsDeleteCommand : res error Cmd :=
  c ← AddBoolFlag DINGOFS_NOCONFIRM empty_cmd; add_rpc_flags c.
Definition NewFsListCommand : res error Cmd := add_rpc_flags empty_cmd.
Definition NewFsMountpointCommand : res error Cmd := add_rpc_flags empty_cmd.
Definition NewFsQueryCommand : res error Cmd :=
  c ← AddUint32Flag DINGOFS_FSID empty_cmd; c ← AddStringFlag DINGOFS_FSNAME c; add_rpc_flags c.
Definition NewStatusCommand : res error Cmd := add_rpc_flags empty_cmd.
Definition NewCacheGroupListCommand : res error Cmd := add_rpc_flags empty_cmd.
Definition NewCacheMemberListCommand : res error Cmd :=
  c ← AddStringFlag DINGOFS_CACHE_GROUP empty_cmd; add_rpc_flags c.
Definition NewCacheMemberSetCommand : res error Cmd :=
  c ← AddStringRequiredFlag DINGOFS_CACHE_MEMBERID empty_cmd;
  c ← AddStringRequiredFlag DINGOFS_CACHE_IP c;
  c ← AddUint32RequiredFlag DINGOFS_CACHE_PORT c;
  c ← declare "weight" (FUint32 100) c;
  add_rpc_flags (mark_required "weight" c).
Definition NewCacheMemberDeleteCommand : res error Cmd :=
  c ← AddBoolFlag DINGOFS_NOCONFIRM empty_cmd; add_rpc_flags c.
Definition NewCacheMemberLeaveCommand : res error Cmd :=
  c ← AddStringRequiredFlag DINGOFS_CACHE_GROUP empty_cmd;
  c ← AddStringRequiredFlag DINGOFS_CACHE_MEMBERID c;
  c ← AddStringRequiredFlag DINGOFS_CACHE_IP c;
  c ← AddUint32RequiredFlag DINGOFS_CACHE_PORT c;
  c ← AddBoolFlag DINGOFS_NOCONFIRM c;
  add_rpc_flags c.
Definition NewCacheMemberUnlockCommand : res error Cmd :=
  c ← AddStringRequiredFlag DINGOFS_CACHE_MEMBERID empty_cmd;
  c ← AddStringRequiredFlag DINGOFS_CACHE_IP c;
  c ← AddUint32RequiredFlag DINGOFS_CACHE_PORT c;
  c ← AddBoolFlag DINGOFS_NOCONFIRM c;
  add_rpc_flags c.

(** * Commands *)

Section Commands.
Context {W : Type} `{Proto, ZMapOrder, Grpc W, MDSServiceClient W, Viper, Texts}.
Context (env_CONF home : string).
Notation call A := (eff error (RpcState W) A).

(** The first thing that every command does: a panic when it has no flag [conf]. *)
Definition read_config (c : Cmd) : res error config_source := ReadCommandConfig env_CONF home c.

(** A request whose failure, and whose status other than OK, go to the result. *)
Definition call_result {A} (rpc : Rpc) (f : RpcFunc A) : call (OutputResult (Response A)) := λ s,
  match GetRpcResponse rpc f s with
  | (s, Err e) => (s, Ok (mkOutputResult (Some e) None))
  | (s, Ok r) =>
      (s, Ok (mkOutputResult
                (if decide (GetErrcode (GetError r) = Errno_OK) then None
                 else Some (ECode ERR_RPC_FAILED)) (Some r)))
  | (s, Panic) => (s, Panic)
  end.

(** The shape of these commands. *)
Definition run_request {A} (c : Cmd) (name format : string) (f : RpcFunc A) (show : A → shown)
    : call (printed (Response A)) :=
  mdsRpc ← pure_eff (CreateNewMdsRpc c name);
  r ← call_result mdsRpc f;
  pure_eff (print_result format r show).

(** ** Creating a file system *)

Record fs_createOptions : Type := mkFsCreateOptions {
  fco_fsid : Z; fco_fsname : string; fco_blocksize : Z; fco_chunksize : Z;
  fco_fstype : Z; fco_fsextra : FsExtra; fco_mdsnum : Z; fco_partitiontype : Z; fco_format : string;
}.

Definition SetS3Info (ak sk endpoint bucketname : string) : res error (Z * FsExtra) :=
  if decide (ak = EmptyString ∨ sk = EmptyString ∨ endpoint = EmptyString ∨ bucketname = EmptyString) then
    Err (EText "s3 info is incomplete, please check s3.ak, s3.sk, s3.endpoint, s3.bucketname")
  else Ok (FsType_S3, mkFsExtra (Some (mkS3Info ak sk endpoint bucketname)) None).

Definition SetRadosInfo (username key mon poolname clustername : string) : res error (Z * FsExtra) :=
  if decide (username = EmptyString ∨ key = EmptyString ∨ mon = EmptyString ∨ poolname = EmptyString) then
    Err (EText "rados info is incomplete, please check rados.username, rados.key, rados.mon, rados.poolname")
  else
    let clustername := if decide (clustername = EmptyString) then "ceph" else clustername in
    Ok (FsType_RADOS, mkFsExtra None (Some (mkRadosInfo username key mon poolname clustername))).

Definition fs_size (what text : string) : res error Z :=
  match ParseBytes text with
  | Some n => Ok n
  | None => Err (EText ("invalid " +:+ what +:+ ": " +:+ text))
  end.

Definition fs_storage (c : Cmd) (storagetypeStr : string) : res error (Z * FsExtra) :=
  if decide (storagetypeStr = "S3") then
    ak ← GetStringFlag c DINGOFS_S3_AK;
    sk ← GetStringFlag c DINGOFS_S3_SK;
    endpoint ← GetStringFlag c DINGOFS_S3_ENDPOINT;
    bucketname ← GetStringFlag c DINGOFS_S3_BUCKETNAME;
    SetS3Info ak sk endpoint bucketname
  else if decide (storagetypeStr = "RADOS") then
    username ← GetStringFlag c DINGOFS_RADOS_USERNAME;
    key ← GetStringFlag c DINGOFS_RADOS_KEY;
    mon ← GetStringFlag c DINGOFS_RADOS_MON;
    poolname ← GetStringFlag c DINGOFS_RADOS_POOLNAME;
    clustername ← GetStringFlag c DINGOFS_RADOS_CLUSTERNAME;
    SetRadosInfo username key mon poolname clustername
  else Err (EText ("invalid storage type: " +:+ storagetypeStr)).

Definition fs_partition (partitionTypeStr : string) : res error Z :=
  if decide (partitionTypeStr = "HASH") then Ok PartitionType_PARENT_ID_HASH_PARTITION
  else if decide (partitionTypeStr = "MONOLITHIC") then Ok PartitionType_MONOLITHIC_PARTITION
  else Err (EText ("invalid partition type: " +:+ partitionTypeStr)).

Definition fs_create_options (c : Cmd) (fsname : string) : res error fs_createOptions :=
  _ ← read_config c;
  fsid ← GetUint32Flag c DINGOFS_FSID;
  blocksizeStr ← GetStringFlag c DINGOFS_BLOCKSIZE;
  blocksize ← fs_size "blocksize" blocksizeStr;
  chunksizeStr ← GetStringFlag c DINGOFS_CHUNKSIZE;
  chunksize ← fs_size "chunksize" chunksizeStr;
  storagetype ← GetStringFlag c DINGOFS_STORAGETYPE;
  extra ← fs_storage c (ToUpper storagetype);
  partition ← GetStringFlag c DINGOFS_PARTITION_TYPE;
  partitiontype ← fs_partition (ToUpper partition);
  mdsnum ← GetUint32Flag c DINGOFS_MDS_NUM;
  format ← GetStringFlag c FORMAT;
  Ok (mkFsCreateOptions fsid fsname blocksize chunksize extra.1 extra.2 mdsnum partitiontype format).

Definition fs_create_request (o : fs_createOptions) : CreateFsRequest := {|
  cf_FsName := fco_fsname o; cf_BlockSize := fco_blocksize o; cf_ChunkSize := fco_chunksize o;
  cf_FsType := fco_fstype o; cf_Owner := "anonymous"; cf_Capacity := 2147483647;
  cf_FsExtra := fco_fsextra o; cf_PartitionType := fco_partitiontype o;
  cf_FsId := if 0 <? fco_fsid o then fco_fsid o else 0;
  cf_ExpectMdsNum := if 0 <? fco_mdsnum o then fco_mdsnum o else 0;
|}.

Definition fs_runCreate (c : Cmd) (o : fs_createOptions) : call (printed (Response (option FsInfo))) :=
  run_request c "CreateFs" (fco_format o) (CreateFsRpc (fs_create_request o)) (λ fsInfo,
    Prompt ("Successfully create filesystem " +:+ fco_fsname o +:+ ", uuid: " +:+
            default EmptyString (fi_Uuid <$> fsInfo))).

Definition fs_create (c : Cmd) (fsname : string) : call (printed (Response (option FsInfo))) :=
  o ← pure_eff (fs_create_options c fsname); fs_runCreate c o.

(** ** Deleting a file system *)

(** [answer]: whether the user confirms, when asked. *)
Definition fs_delete (c : Cmd) (fsname : string) (answer : bool) : call (printed (Response unit)) :=
  _ ← pure_eff (read_config c);
  format ← pure_eff (GetStringFlag c FORMAT);
  mdsRpc ← pure_eff (CreateNewMdsRpc c "DeleteFs");
  if negb (GetBoolFlag c DINGOFS_NOCONFIRM) && negb answer then
    pure_eff (Err (EText "abort delete fs"))
  else
    r ← call_result mdsRpc (DeleteFsRpc (mkDeleteFs fsname));
    pure_eff (print_result format r (λ _, Prompt ("Successfully delete filesystem " +:+ fsname))).

(** ** Listing *)

Definition fs_columns : list string :=
  [ROW_FS_ID; ROW_FS_NAME; ROW_STATUS; ROW_BLOCKSIZE; ROW_CHUNK_SIZE; ROW_MDS_NUM; ROW_STORAGE_TYPE;
   ROW_STORAGE; ROW_MOUNT_NUM; ROW_UUID].

Definition fs_row (fsInfo : FsInfo) : row :=
  let fs := Some fsInfo in
  let partitionType := pp_GetType (GetPartitionPolicy fs) in
  let hash := GetParentHash (GetPartitionPolicy fs) in
  let storage := FsType_String (fi_FsType fsInfo) +:+ "(" +:+ ConvertPbPartitionTypeToString partitionType in
  let '(storageType, mdsNum) :=
    if decide (partitionType = PartitionType_PARENT_ID_HASH_PARTITION) then
      (storage +:+ " " +:+ Itoa (default 0 (BucketNum <$> hash)) +:+ ")",
       Itoa (Z.of_nat (size (GetDistributions hash))))
    else (storage +:+ ")", "1") in
  list_to_map [
    (ROW_FS_ID, Itoa (fi_FsId fsInfo)); (ROW_FS_NAME, fi_FsName fsInfo);
    (ROW_STATUS, FsStatus_String (fi_Status fsInfo));
    (ROW_BLOCKSIZE, Itoa (fi_BlockSize fsInfo)); (ROW_CHUNK_SIZE, Itoa (fi_ChunkSize fsInfo));
    (ROW_STORAGE_TYPE, storageType); (ROW_MDS_NUM, mdsNum);
    (ROW_STORAGE, ConvertFsExtraToString (fi_Extra fsInfo));
    (ROW_MOUNT_NUM, Itoa (Z.of_nat (length (fi_MountPoints fsInfo)))); (ROW_UUID, fi_Uuid fsInfo)].

Definition fs_list (c : Cmd) : call (printed (Response (list FsInfo))) :=
  _ ← pure_eff (read_config c);
  format ← pure_eff (GetStringFlag c FORMAT);
  run_request c "ListFsInfo" format (ListFsRpc mkListFsInfo) (λ fsInfos,
    RenderWithNoData fs_columns (ListMap2ListSortByKeys (fs_row <$> fsInfos) fs_columns [ROW_FS_ID])
      "no fs in cluster").

(** The request of a query, by id when that is given; a missing file system in the answer
    is a row of zero values. *)
Definition zero_fs : FsInfo := mkFsInfo 0 EmptyString 0 None 0 0 0 None [] EmptyString.
Definition fs_query_request (fsid : Z) (fsname : string) : res error GetFsInfoRequest :=
  if 0 <? fsid then Ok (mkGetFsInfo fsid EmptyString)
  else if decide (fsname = EmptyString) then Err (EText "fsname or fsid is required")
  else Ok (mkGetFsInfo 0 fsname).
Definition fs_query (c : Cmd) : call (printed (Response (option FsInfo))) :=
  _ ← pure_eff (read_config c);
  fsid ← pure_eff (GetUint32Flag c DINGOFS_FSID);
  fsname ← pure_eff (GetStringFlag c DINGOFS_FSNAME);
  format ← pure_eff (GetStringFlag c FORMAT);
  mdsRpc ← pure_eff (CreateNewMdsRpc c "ListFsInfo");
  req ← pure_eff (fs_query_request fsid fsname);
  r ← call_result mdsRpc (GetFsRpc req);
  pure_eff (print_result format r (λ fsInfo,
    RenderWithNoData fs_columns
      (ListMap2ListSortByKeys [fs_row (default zero_fs fsInfo)] fs_columns [ROW_FS_ID]) EmptyString)).

Definition mountpoint_columns : list string :=
  [ROW_FS_ID; ROW_FS_NAME; ROW_FS_CLIENTID; ROW_MOUNTPOINT; ROW_FS_CTO].
Definition mountpoint_row (fsInfo : FsInfo) (m : MountPoint) : row := list_to_map [
  (ROW_FS_ID, Itoa (fi_FsId fsInfo)); (ROW_FS_NAME, fi_FsName fsInfo);
  (ROW_FS_CLIENTID, mp_ClientId m);
  (ROW_MOUNTPOINT, mp_Hostname m +:+ ":" +:+ Itoa (mp_Port m) +:+ ":" +:+ mp_Path m);
  (ROW_FS_CTO, FormatBool (mp_Cto m))].
Definition fs_mountpoint (c : Cmd) : call (printed (Response (list FsInfo))) :=
  _ ← pure_eff (read_config c);
  format ← pure_eff (GetStringFlag c FORMAT);
  run_request c "ListFsInfo" format (ListFsRpc mkListFsInfo) (λ fsInfos,
    RenderWithNoData mountpoint_columns
      (ListMap2ListSortByKeys (fsInfos ≫= λ i, mountpoint_row i <$> fi_MountPoints i)
         mountpoint_columns [ROW_FS_ID]) "no mountpoint in the cluster").

Definition mds_columns : list string := [ROW_ID; ROW_ADDR; ROW_STATE; ROW_LASTONLINETIME; ROW_ONLINE_STATE].
Definition mds_row (d : MDS) : row :=
  let location := default (mkLocation EmptyString 0) (mds_Location d) in
  let unixTime := wrap64 (mds_LastOnlineTimeMs d) in
  list_to_map [
    (ROW_ID, Itoa (mds_Id d)); (ROW_ADDR, location_text location);
    (ROW_STATE, MDSState_String (mds_State d));
    (ROW_LASTONLINETIME, time_Format (Z.quot unixTime 1000) (Z.rem unixTime 1000 * 1000000));
    (ROW_ONLINE_STATE, if mds_IsOnline d then ROW_VALUE_ONLINE else ROW_VALUE_OFFLINE)].
Definition mds_status (c : Cmd) : call (printed (Response (list MDS))) :=
  _ ← pure_eff (read_config c);
  format ← pure_eff (GetStringFlag c FORMAT);
  run_request c "GetMDSList" format (GetMdsRpc mkGetMDSList) (λ mdses,
    RenderWithNoData mds_columns (ListMap2ListSortByKeys (mds_row <$> mdses) mds_columns [ROW_ID])
      "no mds in cluster").

(** ** Caches *)

Definition cache_group_list (c : Cmd) : call (printed (Response (list string))) :=
  _ ← pure_eff (read_config c);
  format ← pure_eff (GetStringFlag c FORMAT);
  run_request c "ListGroups" format (ListCacheGroupRpc mkListGroups) (λ groups,
    RenderWithNoData [ROW_GROUP]
      (ListMap2ListSortByKeys ((λ g, {[ROW_GROUP := g]}) <$> groups) [ROW_GROUP] [ROW_GROUP])
      "no cachegroup in cluster").

Definition member_columns : list string :=
  [ROW_MEMBERID; ROW_IP; ROW_PORT; ROW_WEIGHT; ROW_LOCKED; ROW_CREATE_TIME; ROW_LASTONLINETIME; ROW_STATE;
   ROW_GROUP].
(** A member without an address shows its id only. *)
Definition member_row (m : CacheMember) : row :=
  let id := {[ROW_MEMBERID := cm_MemberId m]} in
  if negb (bool_decide (cm_Ip m = EmptyString)) && (0 <? cm_Port m) then
    let seconds := wrap64 (cm_CreateTimeS m) in
    let ms := wrap64 (cm_LastOnlineTimeMs m) in
    let r := list_to_map [
      (ROW_IP, cm_Ip m); (ROW_PORT, Itoa (cm_Port m)); (ROW_WEIGHT, Itoa (cm_Weight m));
      (ROW_STATE, TranslateCacheGroupMemberState (cm_State m)); (ROW_GROUP, cm_GroupName m);
      (ROW_LOCKED, FormatBool (cm_Locked m))] ∪ id in
    let r := if 0 <? seconds then <[ROW_CREATE_TIME := time_Format seconds 0]> r else r in
    if 0 <? ms then
      <[ROW_LASTONLINETIME := time_Format (Z.quot ms 1000) (Z.rem ms 1000 * 1000000)]> r
    else r
  else id.
Definition cache_member_list (c : Cmd) : call (printed (Response (list CacheMember))) :=
  _ ← pure_eff (read_config c);
  group ← pure_eff (GetStringFlag c DINGOFS_CACHE_GROUP);
  format ← pure_eff (GetStringFlag c FORMAT);
  let req := mkListMembers (if decide (group = EmptyString) then None else Some group) in
  run_request c "ListMembers" format (ListCacheMemberRpc req) (λ members,
    RenderWithNoData member_columns
      (ListMap2ListSortByKeys (member_row <$> members) member_columns [ROW_GROUP])
      "no cachemember in cluster").

Definition cache_member_set (c : Cmd) : call (printed (Response unit)) :=
  _ ← pure_eff (read_config c);
  memberid ← pure_eff (GetStringFlag c DINGOFS_CACHE_MEMBERID);
  ip ← pure_eff (GetStringFlag c DINGOFS_CACHE_IP);
  port ← pure_eff (GetUint32Flag c DINGOFS_CACHE_PORT);
  weight ← pure_eff (pflag_GetUint32 c "weight");
  format ← pure_eff (GetStringFlag c FORMAT);
  run_request c "ReWeightMember" format (ReWeightMemberRpc (mkReweightMember memberid ip port weight)) (λ _,
    Prompt ("Successfully reweight cachemember " +:+ memberid +:+ " to " +:+ Itoa weight)).

Definition cache_member_delete (c : Cmd) (memberid : string) (answer : bool) : call (printed (Response unit)) :=
  _ ← pure_eff (read_config c);
  format ← pure_eff (GetStringFlag c FORMAT);
  mdsRpc ← pure_eff (CreateNewMdsRpc c "DeleteCacheMember");
  if negb (GetBoolFlag c DINGOFS_NOCONFIRM) && negb answer then
    pure_eff (Err (EText "abort delete cachemember"))
  else
    r ← call_result mdsRpc (DeleteCacheMemberRpc (mkDeleteMember memberid));
    pure_eff (print_result format r (λ _, Prompt ("Successfully delete cachemember " +:+ memberid))).

Definition cache_member_leave (c : Cmd) : call (printed (Response unit)) :=
  _ ← pure_eff (read_config c);
  group ← pure_eff (GetStringFlag c DINGOFS_CACHE_GROUP);
  memberid ← pure_eff (GetStringFlag c DINGOFS_CACHE_MEMBERID);
  ip ← pure_eff (GetStringFlag c DINGOFS_CACHE_IP);
  port ← pure_eff (GetUint32Flag c DINGOFS_CACHE_PORT);
  format ← pure_eff (GetStringFlag c FORMAT);
  run_request c "LeaveCacheMember" format (LeaveCacheMemberRpc (mkLeaveCacheGroup group memberid ip port)) (λ _,
    Prompt ("Successfully leave cachemember " +:+ memberid)).

Definition cache_member_unlock (c : Cmd) : call (printed (Response unit)) :=
  _ ← pure_eff (read_config c);
  memberid ← pure_eff (GetStringFlag c DINGOFS_CACHE_MEMBERID);
  ip ← pure_eff (GetStringFlag c DINGOFS_CACHE_IP);
  port ← pure_eff (GetUint32Flag c DINGOFS_CACHE_PORT);
  format ← pure_eff (GetStringFlag c FORMAT);
  run_request c "UnlockMember" format (UnlockCacheMemberRpc (mkUnLockMember memberid ip port)) (λ _,
    Prompt ("Successfully unlock cachemember " +:+ memberid)).

End Commands.
