(* ===== verification/DirWalk.v ===== *)
(** The concurrent walks over a directory tree (GetDirSummarySize and
    GetDirectorySizeAndInodes of src/internal/rpc/operator.go, deleteDirectoryAndData and
    deleteDirectory of src/cli/command/fs/subpath/delete.go).

    Both functions have the same shape.  A call lists a directory, does something with each
    entry, and for an entry that is a directory recurs: in a new goroutine when the channel
    [concurrent] has room, by itself otherwise.  When the entries are done it waits for its
    goroutines, takes an error that one of them may have left in [errCh], and finishes.  A
    call that meets an error returns at once, and leaves its goroutines running.

    The shape is a small-step system over trees of calls, in which every call may move
    whose own synchronous call, if it has one, has returned.  What the two functions do
    with an entry and at the end of a directory are programs of atomic actions on the
    shared state [Sh]: [summary_entry], [delete_entry], [delete_final].  The listing, too,
    is an action.  An action that panics ends the process ([PCrash]). *)

From S2P Require Import Prelude GoLib Errno Mds Flags Rpc Operator.

(** * The system *)

(** A program: a sequence of atomic actions, each of which chooses how to go on. *)
Inductive prog (Sh : Type) : Type :=
| PEnd
| PAct (f : Sh → Sh * res error (prog Sh)).
Arguments PEnd {Sh}.
Arguments PAct {Sh} _.

(** Where a call is.  [PDo q x es]: in the program [q] for the entry [x], with the entries
    [es] left; [PFinal q]: in the program at the end of the directory. *)
Inductive pc (Sh : Type) : Type :=
| PList
| PLoop (es : list Dentry)
| PDo (q : prog Sh) (x : Dentry) (es : list Dentry)
| PSelect (x : Dentry) (es : list Dentry)
| PCall (es : list Dentry)
| PWait
| PFinal (q : prog Sh)
| PRet (r : option error)
| PCrash.
Arguments PList {Sh}.
Arguments PLoop {Sh} _.
Arguments PDo {Sh} _ _ _.
Arguments PSelect {Sh} _ _.
Arguments PCall {Sh} _.
Arguments PWait {Sh}.
Arguments PFinal {Sh} _.
Arguments PRet {Sh} _.
Arguments PCrash {Sh}.

(** A goroutine: in its call; after it has given its place in [concurrent] back; after it
    has offered its error to [errCh]; after [wg.Done]. *)
Inductive gstate : Type := GRun | GReleased | GSent | GDone.
#[export] Instance gstate_eq_dec : EqDecision gstate.
Proof. solve_decision. Defined.

(** A call on the directory [dir], its channel [errCh] of one place, the synchronous call it
    waits for and the goroutines it started, in the order of their start. *)
Inductive tree (Sh : Type) : Type :=
| Call (dir : Dentry) (p : pc Sh) (errCh : option error) (sync : option (tree Sh))
    (subs : list (gstate * tree Sh)).
Arguments Call {Sh} _ _ _ _ _.

Definition new_call {Sh} (x : Dentry) : tree Sh := Call x PList None None [].

(** The result of a call that has returned. *)
Definition returned {Sh} (t : tree Sh) : option (option error) :=
  match t with Call _ (PRet r) _ _ _ => Some r | _ => None end.

(** The state: the shared data, the number of places of [concurrent] in use, and whether the
    context has been cancelled. *)
Record shared (Sh : Type) : Type := mkShared { data : Sh; slots : nat; cancelled : bool }.
Arguments mkShared {Sh} _ _ _.
Arguments data {Sh} _.
Arguments slots {Sh} _.
Arguments cancelled {Sh} _.
Definition set_data {Sh} (d : Sh) (s : shared Sh) : shared Sh := mkShared d (slots s) (cancelled s).
Definition set_slots {Sh} (n : nat) (s : shared Sh) : shared Sh := mkShared (data s) n (cancelled s).
Definition cancel {Sh} (s : shared Sh) : shared Sh := mkShared (data s) (slots s) true.

Section Walk.
Context `{Proto} {Sh : Type}.
Context (list_dir : Dentry → Sh → Sh * res error (list Dentry)).
Context (entry : Dentry → prog Sh) (final : Dentry → prog Sh).
Context (cancel_error : error) (threads : nat).

Definition is_dir (x : Dentry) : bool := bool_decide (de_Type x = FileType_DIRECTORY).

(** What a failed or panicking action makes of a call. *)
Definition fails (r : res error (prog Sh)) : option (pc Sh) :=
  match r with Ok _ => None | Err e => Some (PRet (Some e)) | Panic => Some PCrash end.

Notation config := (shared Sh * tree Sh)%type.

(** The steps of a call that touch no other call. *)
Inductive local (dir : Dentry) : shared Sh → pc Sh → option error → list (gstate * tree Sh) →
    shared Sh → pc Sh → option error → list (gstate * tree Sh) → Prop :=
| S_list s ch subs d es :
    list_dir dir (data s) = (d, Ok es) → local dir s PList ch subs (set_data d s) (PLoop es) ch subs
| S_list_err s ch subs d e :
    list_dir dir (data s) = (d, Err e) →
    local dir s PList ch subs (set_data d s) (PRet (Some e)) ch subs
| S_list_panic s ch subs d :
    list_dir dir (data s) = (d, Panic) → local dir s PList ch subs (set_data d s) PCrash ch subs
| S_entry s ch subs x es :
    local dir s (PLoop (x :: es)) ch subs s (PDo (entry x) x es) ch subs
| S_entries_done s ch subs :
    local dir s (PLoop []) ch subs s PWait ch subs
| S_act s ch subs f x es d q :
    f (data s) = (d, Ok q) →
    local dir s (PDo (PAct f) x es) ch subs (set_data d s) (PDo q x es) ch subs
| S_act_fails s ch subs f x es d r p :
    f (data s) = (d, r) → fails r = Some p →
    local dir s (PDo (PAct f) x es) ch subs (set_data d s) p ch subs
| S_entry_done s ch subs x es :
    local dir s (PDo PEnd x es) ch subs s (if is_dir x then PSelect x es else PLoop es) ch subs
| S_select_err s x es e subs :
    local dir s (PSelect x es) (Some e) subs (cancel s) (PRet (Some e)) None subs
| S_select_cancelled s x es ch subs :
    cancelled s = true →
    local dir s (PSelect x es) ch subs s (PRet (Some cancel_error)) ch subs
| S_select_go s x es ch subs :
    slots s < threads →
    local dir s (PSelect x es) ch subs (set_slots (S (slots s)) s) (PLoop es) ch
      (subs ++ [(GRun, new_call x)])
| S_wait s subs :
    Forall (λ g, g.1 = GDone) subs →
    local dir s PWait None subs s (PFinal (final dir)) None subs
| S_wait_err s e subs :
    Forall (λ g, g.1 = GDone) subs →
    local dir s PWait (Some e) subs s (PRet (Some e)) None subs
| S_final_act s ch subs f d q :
    f (data s) = (d, Ok q) → local dir s (PFinal (PAct f)) ch subs (set_data d s) (PFinal q) ch subs
| S_final_fails s ch subs f d r p :
    f (data s) = (d, r) → fails r = Some p →
    local dir s (PFinal (PAct f)) ch subs (set_data d s) p ch subs
| S_final_done s ch subs :
    local dir s (PFinal PEnd) ch subs s (PRet None) ch subs.

(** The end of a goroutine, as its parent sees it: giving the place back, offering the error
    - which is dropped when there is one already -, [wg.Done]. *)
Definition offer (r : option error) (ch : option error) : option error :=
  match ch with Some e => Some e | None => r end.

Inductive step : config → config → Prop :=
| St_local s dir p ch subs s' p' ch' subs' :
    local dir s p ch subs s' p' ch' subs' →
    step (s, Call dir p ch None subs) (s', Call dir p' ch' None subs')
| St_call s dir x es subs :
    cancelled s = false → threads ≤ slots s →
    step (s, Call dir (PSelect x es) None None subs)
         (s, Call dir (PCall es) None (Some (new_call x)) subs)
| St_call_ok s dir es ch t subs :
    returned t = Some None →
    step (s, Call dir (PCall es) ch (Some t) subs) (s, Call dir (PLoop es) ch None subs)
| St_call_err s dir es ch t e subs :
    returned t = Some (Some e) →
    step (s, Call dir (PCall es) ch (Some t) subs) (s, Call dir (PRet (Some e)) ch (Some t) subs)
| St_sync s dir p ch t subs s' t' :
    step (s, t) (s', t') →
    step (s, Call dir p ch (Some t) subs) (s', Call dir p ch (Some t') subs)
| St_sub s dir p ch o l g t r s' t' :
    step (s, t) (s', t') →
    step (s, Call dir p ch o (l ++ (g, t) :: r)) (s', Call dir p ch o (l ++ (g, t') :: r))
| St_release s dir p ch o l t r x :
    returned t = Some x →
    step (s, Call dir p ch o (l ++ (GRun, t) :: r))
         (set_slots (pred (slots s)) s, Call dir p ch o (l ++ (GReleased, t) :: r))
| St_send s dir p ch o l t r x :
    returned t = Some x →
    step (s, Call dir p ch o (l ++ (GReleased, t) :: r))
         (s, Call dir p (offer x ch) o (l ++ (GSent, t) :: r))
| St_done s dir p ch o l t r :
    step (s, Call dir p ch o (l ++ (GSent, t) :: r)) (s, Call dir p ch o (l ++ (GDone, t) :: r)).

Definition start (d : Sh) (root : Dentry) : config := (mkShared d 0 false, new_call root).
Definition steps : config → config → Prop := rtc step.

End Walk.
