(* ===== verification/DirWalkFacts.v ===== *)
(** Theory of the walks of DirWalk.v: what a walk that succeeds has done and how many
    goroutines it has at a time, for any programs that satisfy the laws of the sections.
    DirWalkEnds.v shows that walks end; DirSummaryFacts.v applies the theory to the size of
    a directory. *)

From S2P Require Import Prelude GoLib Errno Mds Flags Rpc Operator DirWalk.

(** * Trees *)

Section Trees.
Context {Sh : Type}.
Implicit Types t : tree Sh.
Implicit Types p : pc Sh.
Implicit Types subs : list (gstate * tree Sh).

Lemma tree_ind' (P : tree Sh → Prop) :
  (∀ dir p ch o subs, (∀ t, o = Some t → P t) → Forall (λ g, P g.2) subs →
     P (Call dir p ch o subs)) → ∀ t, P t.
Proof.
  intros Hcall. fix IH 1. intros [dir p ch o subs]. apply Hcall.
  - destruct o as [t|]; intros t' Ho; [|discriminate Ho]. injection Ho as <-. apply (IH t).
  - induction subs as [|[g t] subs IHs]; constructor; [exact (IH t)|exact IHs].
Qed.

(** Some call has returned an error or crashed, or an error is in a channel. *)
Definition pc_failed (p : pc Sh) : Prop :=
  match p with PRet (Some _) | PCrash => True | _ => False end.
Fixpoint failed (t : tree Sh) : Prop :=
  match t with
  | Call _ p ch o subs =>
      pc_failed p ∨ is_Some ch ∨ (match o with Some t => failed t | None => False end) ∨
      foldr (λ g P, failed g.2 ∨ P) False subs
  end.

Lemma foldr_or {A} (P : A → Prop) l : foldr (λ a Q, P a ∨ Q) False l ↔ Exists P l.
Proof. induction l; simpl; rewrite ?Exists_nil, ?Exists_cons; tauto. Qed.

Lemma failed_call dir p ch o subs :
  failed (Call dir p ch o subs) ↔
  pc_failed p ∨ is_Some ch ∨ (∃ t, o = Some t ∧ failed t) ∨ Exists (λ g, failed g.2) subs.
Proof.
  simpl. rewrite (foldr_or (λ g, failed g.2)). destruct o; naive_solver.
Qed.

(** Well-formed trees. *)
Definition sub_wf (p : pc Sh) (ch : option error) (g : gstate * tree Sh) : Prop :=
  (g.1 ≠ GRun → is_Some (returned g.2)) ∧
  ((g.1 = GSent ∨ g.1 = GDone) → ∀ e, returned g.2 = Some (Some e) → is_Some ch ∨ pc_failed p).
Definition pc_wf (p : pc Sh) (ch : option error) (o : option (tree Sh))
    (subs : list (gstate * tree Sh)) : Prop :=
  match p with
  | PCall _ => is_Some o
  | PRet (Some _) | PCrash => True
  | PFinal _ | PRet None => o = None ∧ ch = None ∧ Forall (λ g, g.1 = GDone) subs
  | _ => o = None
  end.
Fixpoint wf (t : tree Sh) : Prop :=
  match t with
  | Call _ p ch o subs =>
      pc_wf p ch o subs ∧ (match o with Some t => wf t | None => True end) ∧
      Forall (sub_wf p ch) subs ∧ foldr (λ g P, wf g.2 ∧ P) True subs
  end.

Lemma foldr_and {A} (P : A → Prop) l : foldr (λ a Q, P a ∧ Q) True l ↔ Forall P l.
Proof. induction l; simpl; rewrite ?Forall_nil, ?Forall_cons; tauto. Qed.

Lemma wf_call dir p ch o subs :
  wf (Call dir p ch o subs) ↔
  pc_wf p ch o subs ∧ (∀ t, o = Some t → wf t) ∧ Forall (sub_wf p ch) subs ∧
  Forall (λ g, wf g.2) subs.
Proof.
  simpl. rewrite (foldr_and (λ g, wf g.2)). destruct o; naive_solver.
Qed.

(** A call that has returned without error has waited for everything below it. *)
Lemma returned_call dir p ch o subs r :
  returned (Call dir p ch o subs) = Some r ↔ p = PRet r.
Proof. destruct p; simpl; naive_solver. Qed.

Lemma done_subs dir o ch subs :
  wf (Call dir (PRet None) ch o subs) →
  o = None ∧ ch = None ∧ Forall (λ g, g.1 = GDone ∧ returned g.2 = Some None ∧ wf g.2) subs.
Proof.
  rewrite wf_call. intros ((-> & -> & Hdone) & _ & Hsub & Hwf). split_and!; [done..|].
  rewrite !Forall_forall in *. intros g Hg. split; [by apply Hdone|]. split; [|by apply Hwf].
  destruct (Hsub g Hg) as [Hret Herr].
  destruct Hret as [[e|] Hr]; [rewrite (Hdone g Hg); done| |done].
  destruct (Herr (or_intror (Hdone g Hg)) e Hr) as [[? [=]]|[]].
Qed.

Lemma done_not_failed t : wf t → returned t = Some None → ¬ failed t.
Proof.
  induction t as [dir p ch o subs IHo IHs] using tree_ind'. intros Hwf ->%returned_call.
  apply done_subs in Hwf as (-> & -> & Hsubs). rewrite failed_call.
  intros [[]|[[? [=]]|[(? & [=] & _)|Hf]]]. apply Exists_exists in Hf as (g & Hg & Hf).
  rewrite Forall_forall in *. destruct (Hsubs g Hg) as (_ & ? & ?). by eapply IHs.
Qed.

(** The process has crashed. *)
Fixpoint crashed (t : tree Sh) : Prop :=
  match t with
  | Call _ p _ o subs =>
      p = PCrash ∨ (match o with Some t => crashed t | None => False end) ∨
      foldr (λ g P, crashed g.2 ∨ P) False subs
  end.

Lemma crashed_call dir p ch o subs :
  crashed (Call dir p ch o subs) ↔
  p = PCrash ∨ (∃ t, o = Some t ∧ crashed t) ∨ Exists (λ g, crashed g.2) subs.
Proof. simpl. rewrite (foldr_or (λ g, crashed g.2)). destruct o; naive_solver. Qed.

(** The goroutines that hold a place of [concurrent]. *)
Definition holds (g : gstate) : nat := match g with GRun => 1 | _ => 0 end.
Fixpoint running (t : tree Sh) : nat :=
  match t with
  | Call _ _ _ o subs =>
      (match o with Some t => running t | None => 0 end) +
      sum_list_with (λ g, holds g.1 + running g.2) subs
  end.

Lemma done_not_running t : wf t → returned t = Some None → running t = 0.
Proof.
  induction t as [dir p ch o subs IHo IHs] using tree_ind'. intros Hwf ->%returned_call.
  apply done_subs in Hwf as (-> & -> & Hsubs). simpl.
  induction Hsubs as [|[g t] subs (Hg & ? & ?) _ IH]; simpl in *; [done|].
  apply Forall_cons in IHs as [IHt IHs]. simpl in IHt. rewrite IHt, Hg by done. by apply IH.
Qed.

End Trees.

(** * Invariants of the steps *)

Section Steps.
Context `{Proto} {Sh : Type}.
Context (list_dir : Dentry → Sh → Sh * res error (list Dentry)).
Context (entry : Dentry → prog Sh) (final : Dentry → prog Sh).
Context (cancel_error : error) (threads : nat).
Notation local := (local list_dir entry final cancel_error threads).
Notation step := (step list_dir entry final cancel_error threads).
Notation steps := (steps list_dir entry final cancel_error threads).

Lemma step_ind' (P : shared Sh → tree Sh → shared Sh → tree Sh → Prop) :
  (∀ s dir p ch subs s' p' ch' subs', local dir s p ch subs s' p' ch' subs' →
     P s (Call dir p ch None subs) s' (Call dir p' ch' None subs')) →
  (∀ s dir x es subs, cancelled s = false → threads ≤ slots s →
     P s (Call dir (PSelect x es) None None subs) s (Call dir (PCall es) None (Some (new_call x)) subs)) →
  (∀ s dir es ch t subs, returned t = Some None →
     P s (Call dir (PCall es) ch (Some t) subs) s (Call dir (PLoop es) ch None subs)) →
  (∀ s dir es ch t e subs, returned t = Some (Some e) →
     P s (Call dir (PCall es) ch (Some t) subs) s (Call dir (PRet (Some e)) ch (Some t) subs)) →
  (∀ s dir p ch t subs s' t', step (s, t) (s', t') → P s t s' t' →
     P s (Call dir p ch (Some t) subs) s' (Call dir p ch (Some t') subs)) →
  (∀ s dir p ch o l g t r s' t', step (s, t) (s', t') → P s t s' t' →
     P s (Call dir p ch o (l ++ (g, t) :: r)) s' (Call dir p ch o (l ++ (g, t') :: r))) →
  (∀ s dir p ch o l t r x, returned t = Some x →
     P s (Call dir p ch o (l ++ (GRun, t) :: r))
       (set_slots (pred (slots s)) s) (Call dir p ch o (l ++ (GReleased, t) :: r))) →
  (∀ s dir p ch o l t r x, returned t = Some x →
     P s (Call dir p ch o (l ++ (GReleased, t) :: r)) s (Call dir p (offer x ch) o (l ++ (GSent, t) :: r))) →
  (∀ s dir p ch o l t r,
     P s (Call dir p ch o (l ++ (GSent, t) :: r)) s (Call dir p ch o (l ++ (GDone, t) :: r))) →
  ∀ s t s' t', step (s, t) (s', t') → P s t s' t'.
Proof.
  intros H1 H2 H3 H4 H5 H6 H7 H8 H9.
  assert (∀ c c', step c c' → P c.1 c.2 c'.1 c'.2) as Hall.
  { induction 1; simpl in *; eauto. }
  intros s t s' t' Hs. by apply (Hall _ _ Hs).
Qed.

(** A call that has returned does not run again. *)
Lemma returned_step s t s' t' x : step (s, t) (s', t') → returned t = Some x → returned t' = Some x.
Proof.
  intros Hs. revert s t s' t' Hs. apply (step_ind' (λ s t s' t', returned t = Some x → returned t' = Some x));
    try (intros; rewrite returned_call in *; done); try (intros; simpl in *; done).
  intros s dir p ch subs s' p' ch' subs' Hl. rewrite returned_call. intros ->. inversion Hl.
Qed.

Lemma local_returned dir s p ch subs s' p' ch' subs' :
  local dir s p ch subs s' p' ch' subs' → ¬ pc_failed p.
Proof. destruct 1; simpl; tauto. Qed.

(** An error does not get lost before the call returns with it. *)
Lemma failed_step s t s' t' : wf t → step (s, t) (s', t') → failed t → failed t'.
Proof.
  intros Hwf Hs. revert s t s' t' Hs Hwf.
  apply (step_ind' (λ s t s' t', wf t → failed t → failed t')).
  - intros s dir p ch subs s' p' ch' subs' Hl Hwf. rewrite !failed_call.
    intros [Hp|[Hch|[(? & [=] & _)|Hs]]]; [by apply local_returned in Hl|..].
    + inversion Hl; subst; simpl; eauto; try (by destruct Hch as [? [=]]).
      all: match goal with H : fails _ = Some _ |- _ => idtac | _ => idtac end; eauto.
    + inversion Hl; subst; simpl; eauto; do 3 right; apply Exists_app; eauto.
  - intros s dir x es subs _ _ _. rewrite !failed_call. simpl.
    intros [[]|[[? [=]]|[(? & [=] & _)|Hs]]]. eauto.
  - intros s dir es ch t subs Ht Hwf. apply wf_call in Hwf as (_ & Hwf & _).
    rewrite !failed_call. intros [[]|[Hch|[(? & [= <-] & Hf)|Hs]]]; eauto.
    exfalso. eapply done_not_failed; eauto.
  - intros. rewrite failed_call. left. done.
  - intros s dir p ch t subs s' t' _ IH Hwf. apply wf_call in Hwf as (_ & Hwf & _).
    rewrite !failed_call. intros [Hp|[Hch|[(? & [= <-] & Hf)|Hs]]]; eauto 10.
  - intros s dir p ch o l g t r s' t' _ IH Hwf. apply wf_call in Hwf as (_ & _ & _ & Hwf).
    apply Forall_app in Hwf as [_ [Hwf _]%Forall_cons]. rewrite !failed_call.
    intros [Hp|[Hch|[Ho|Hs]]]; eauto. do 3 right.
    rewrite Exists_app, Exists_cons in *. naive_solver.
  - intros s dir p ch o l t r x _ _. rewrite !failed_call. rewrite !Exists_app, !Exists_cons. done.
  - intros s dir p ch o l t r x _ _. rewrite !failed_call, !Exists_app, !Exists_cons. simpl.
    intros [?|[[? ->]|?]]; [by left|right; left; by eexists|tauto].
  - intros s dir p ch o l t r _. rewrite !failed_call, !Exists_app, !Exists_cons. done.
Qed.

Lemma sub_wf_mono p ch p' ch' (g : gstate * tree Sh) :
  (is_Some ch ∨ pc_failed p → is_Some ch' ∨ pc_failed p') → sub_wf p ch g → sub_wf p' ch' g.
Proof. unfold sub_wf. naive_solver. Qed.

Lemma subs_wf_mono p ch p' ch' (subs : list (gstate * tree Sh)) :
  (is_Some ch ∨ pc_failed p → is_Some ch' ∨ pc_failed p') →
  Forall (sub_wf p ch) subs → Forall (sub_wf p' ch') subs.
Proof. intros Hm Hs. eapply Forall_impl; [exact Hs|]. intros g. by apply sub_wf_mono. Qed.

Lemma fails_failed r (p : pc Sh) : fails r = Some p → pc_failed p ∧ ∀ ch o subs, pc_wf p ch o subs.
Proof. destruct r; intros [= <-]; done. Qed.

Lemma new_call_wf (x : Dentry) : wf (new_call x : tree Sh).
Proof. simpl. split_and!; auto. Qed.

Lemma local_wf dir s p ch subs s' p' ch' subs' :
  local dir s p ch subs s' p' ch' subs' →
  wf (Call dir p ch None subs) → wf (Call dir p' ch' None subs').
Proof.
  intros Hl. rewrite !wf_call. intros (Hp & _ & Hsub & Hwf).
  inversion Hl; subst; simpl in Hp |- *;
    repeat match goal with
    | H : fails _ = Some _ |- _ => apply fails_failed in H as [Hfail Hfwf]
    end;
    split_and!; try done; try (by apply Hfwf); try (intros ? [=]);
    try tauto; try (eapply subs_wf_mono; [|done]; simpl; first [tauto | by intros [[? [=]]|[]]]).
  - by destruct (is_dir x).
  - apply Forall_app. split; [eapply subs_wf_mono; [|done]; simpl; tauto|].
    apply Forall_singleton. split; simpl; [done|]. by intros [?|?].
  - apply Forall_app. split; [done|]. apply Forall_singleton, new_call_wf.
Qed.

Lemma wf_step s t s' t' : step (s, t) (s', t') → wf t → wf t'.
Proof.
  intros Hs. revert s t s' t' Hs. apply (step_ind' (λ s t s' t', wf t → wf t')).
  - intros. by eapply local_wf.
  - intros s dir x es subs _ _. rewrite !wf_call. intros (_ & _ & Hsub & Hwf).
    split_and!; [by eexists|intros ? [= <-]; apply new_call_wf| |done].
    eapply subs_wf_mono; [|done]. done.
  - intros s dir es ch t subs Ht. rewrite !wf_call. intros (_ & _ & Hsub & Hwf). split_and!; done.
  - intros s dir es ch t e subs Ht. rewrite !wf_call. intros (_ & Ho & Hsub & Hwf).
    split_and!; try done. eapply subs_wf_mono; [|done]. simpl. tauto.
  - intros s dir p ch t subs s' t' _ IH. rewrite !wf_call. intros (Hp & Ho & Hsub & Hwf).
    split_and!; try done; [|intros ? [= <-]; eauto].
    destruct p as [| | | | | | |[]|]; simpl in *; try done; naive_solver.
  - intros s dir p ch o l g t r s' t' Hs IH. rewrite !wf_call.
    rewrite !Forall_app, !Forall_cons. intros (Hp & Ho & (? & Hg & ?) & (? & Hw & ?)).
    unfold pc_wf. split_and!; try done; [| |simpl in *; eauto].
    + destruct p as [| | | | | | |[]|]; simpl in *; try done;
        rewrite !Forall_app, !Forall_cons in *; done.
    + destruct Hg as [Hret Herr]. split; simpl in *.
      * intros Hne. destruct (Hret Hne) as [x Hx]. exists x. exact (returned_step _ _ _ _ _ Hs Hx).
      * intros Hg e Hr. destruct (Hret ltac:(by destruct Hg as [->| ->])) as [x Hx].
        apply (Herr Hg e). rewrite <-Hr, Hx. symmetry. exact (returned_step _ _ _ _ _ Hs Hx).
  - intros s dir p ch o l t r x Hx. rewrite !wf_call. rewrite !Forall_app, !Forall_cons.
    intros (Hp & Ho & (? & Hg & ?) & ?).
    split_and!; try done; [|split; simpl; [by eexists|by intros [?|?]]|simpl in *; tauto..].
    destruct p as [| | | | | | |[]|]; simpl in *; try done;
      rewrite !Forall_app, !Forall_cons in *; naive_solver.
  - intros s dir p ch o l t r x Hx. rewrite !wf_call. intros (Hp & Ho & Hsub & Hwf).
    split_and!; try done; [| |by rewrite Forall_app, Forall_cons in *].
    + destruct p as [| | | | | | |[]|]; simpl in *; try done;
        rewrite !Forall_app, !Forall_cons in *; naive_solver.
    + apply (subs_wf_mono _ _ p (offer x ch)) in Hsub.
      * rewrite !Forall_app, !Forall_cons in *. split_and!; try tauto. split; simpl.
        -- intros _. by eexists.
        -- intros _ e. rewrite Hx. intros [= ->]. left. destruct ch; by eexists.
      * intros [[? ->]|?]; [left; by eexists|by right].
  - intros s dir p ch o l t r. rewrite !wf_call. intros (Hp & Ho & Hsub & Hwf).
    split_and!; try done; [| |by rewrite Forall_app, Forall_cons in *].
    + destruct p as [| | | | | | |[]|]; simpl in *; try done;
        rewrite !Forall_app, !Forall_cons in *; naive_solver.
    + rewrite !Forall_app, !Forall_cons in *. destruct Hsub as (? & [Hret Herr] & ?).
      split; [done|]. split; [|done].
      split; simpl in *; [intros _; by apply Hret|intros _; apply Herr; by left].
Qed.

Lemma wf_steps d root s t : steps (start d root) (s, t) → wf t.
Proof.
  assert (∀ c c', steps c c' → wf c.2 → wf c'.2) as Hall.
  { induction 1 as [|[] [] ? Hs _ IH]; [done|]. intros Hwf. apply IH. by eapply wf_step. }
  intros Hs. apply (Hall _ _ Hs). apply new_call_wf.
Qed.

(** ** The number of goroutines *)

Lemma sum_subs_app (f : gstate * tree Sh → nat) l g r :
  sum_list_with f (l ++ g :: r) = sum_list_with f l + f g + sum_list_with f r.
Proof. rewrite sum_list_with_app. simpl. lia. Qed.

Lemma running_step s t s' t' :
  wf t → step (s, t) (s', t') → ∀ k,
  slots s = running t + k → slots s ≤ threads →
  slots s' = running t' + k ∧ slots s' ≤ threads.
Proof.
  intros Hwf Hs. revert s t s' t' Hs Hwf.
  apply (step_ind' (λ s t s' t', wf t → ∀ k, slots s = running t + k → slots s ≤ threads →
    slots s' = running t' + k ∧ slots s' ≤ threads)).
  - intros s dir p ch subs s' p' ch' subs' Hl _ k Hk. simpl in *.
    inversion Hl; subst; simpl; try lia. rewrite sum_subs_app. simpl. lia.
  - intros. simpl in *. lia.
  - intros s dir es ch t subs Ht (_ & Hwf & _)%wf_call k. simpl.
    rewrite (done_not_running t); eauto.
  - intros. simpl in *. lia.
  - intros s dir p ch t subs s' t' _ IH (_ & Hwf & _)%wf_call k Hk Hle. simpl in *.
    destruct (IH (Hwf t eq_refl) (sum_list_with (λ g, holds g.1 + running g.2) subs + k)); lia.
  - intros s dir p ch o l g t r s' t' _ IH (_ & _ & _ & Hwf)%wf_call k. simpl.
    rewrite !sum_subs_app. simpl. intros Hk Hle.
    apply Forall_app in Hwf as [_ [Hwf _]%Forall_cons]. set (a := match o with Some _ => _ | None => _ end) in *.
    destruct (IH Hwf (a + sum_list_with (λ g, holds g.1 + running g.2) l + holds g
      + sum_list_with (λ g, holds g.1 + running g.2) r + k)); lia.
  - intros s dir p ch o l t r x _ _ k. simpl. rewrite !sum_subs_app. simpl. lia.
  - intros s dir p ch o l t r x _ _ k. simpl. rewrite !sum_subs_app. simpl. lia.
  - intros s dir p ch o l t r _ k. simpl. rewrite !sum_subs_app. simpl. lia.
Qed.

(** At any point, the places of [concurrent] in use are the goroutines that have not given
    theirs back, and there are at most [threads] of them. *)
Lemma walk_goroutines d root s t :
  steps (start d root) (s, t) → slots s = running t ∧ running t ≤ threads.
Proof.
  assert (∀ c c', steps c c' → wf c.2 → slots c.1 = running c.2 → slots c.1 ≤ threads →
    slots c'.1 = running c'.2 ∧ slots c'.1 ≤ threads) as Hall.
  { induction 1 as [|[s1 t1] [s2 t2] c' Hs _ IH]; simpl in *; [auto|].
    intros Hwf Hk Hle. destruct (running_step _ _ _ _ Hwf Hs 0) as [Hk' Hle']; [lia..|].
    apply IH; [by eapply wf_step|lia..]. }
  intros Hs. destruct (Hall _ _ Hs) as [H1 H2]; [apply new_call_wf|done|simpl; lia|].
  simpl in *. split; [done|lia].
Qed.

(** ** Progress *)

Lemma select_progress s dir x es ch subs :
  ∃ c, step (s, Call dir (PSelect x es) ch None subs) c.
Proof.
  destruct ch as [e|].
  { eexists. apply St_local, S_select_err. }
  destruct (cancelled s) eqn:Hc; [eexists; by apply St_local, S_select_cancelled|].
  destruct (decide (slots s < threads)).
  - eexists. apply St_local. by apply S_select_go.
  - eexists. apply St_call; [done|lia].
Qed.

Lemma act_progress s dir p ch subs (f : Sh → Sh * res error (prog Sh)) :
  (∃ x es, p = PDo (PAct f) x es) ∨ p = PFinal (PAct f) → ∃ c, step (s, Call dir p ch None subs) c.
Proof.
  destruct (f (data s)) as [d r] eqn:Hf.
  intros [(x & es & ->)| ->]; destruct r as [q|e|];
    (eexists; apply St_local; first [by eapply S_act | by eapply S_final_act
      | by eapply S_act_fails | by eapply S_final_fails]).
Qed.

(** A walk that has not returned and has not crashed can move: it never waits for ever. *)
Lemma walk_progress s t :
  wf t → ¬ crashed t → returned t = None → ∃ c, step (s, t) c.
Proof.
  induction t as [dir p ch o subs IHo IHs] using tree_ind'.
  rewrite wf_call, crashed_call. intros (Hp & Ho & _ & Hwf) Hc Hr.
  destruct p as [|[|x es]|[|f] x es|x es|es| |[|f]|r|]; simpl in Hp.
  - subst o. destruct (list_dir dir (data s)) as [d [l|e|]] eqn:Hl; eexists; apply St_local;
      [by eapply S_list|by eapply S_list_err|by eapply S_list_panic].
  - subst o. eexists. apply St_local, S_entries_done.
  - subst o. eexists. apply St_local, S_entry.
  - subst o. eexists. apply St_local, S_entry_done.
  - subst o. eapply act_progress; eauto.
  - subst o. apply select_progress.
  - destruct Hp as [t ->]. destruct (returned t) as [[e|]|] eqn:Ht.
    + eexists. by apply St_call_err.
    + eexists. by apply St_call_ok.
    + destruct (IHo t eq_refl (Ho t eq_refl)) as [[s' t'] Hst]; [naive_solver|done|].
      eexists. by apply St_sync.
  - subst o. destruct (decide (Forall (λ g, g.1 = GDone) subs)) as [Hd|Hd].
    { destruct ch as [e|]; eexists; apply St_local; [by apply S_wait_err|by apply S_wait]. }
    apply not_Forall_Exists in Hd; [|intros g; apply _].
    apply Exists_exists in Hd as ([g t] & Hin & Hg). simpl in Hg.
    apply list_elem_of_split in Hin as (l & r & ->).
    rewrite Forall_app, Forall_cons in Hwf. rewrite Forall_app, Forall_cons in IHs.
    destruct IHs as (_ & IHt & _), Hwf as (_ & Hwt & _). simpl in *.
    destruct (returned t) as [x|] eqn:Ht.
    + destruct g; try done; eexists; [by eapply St_release|by eapply St_send|apply St_done].
    + destruct IHt as [[s' t'] Hst]; [done| |done|].
      { rewrite Exists_app, Exists_cons in Hc. tauto. }
      eexists. by apply St_sub.
  - destruct Hp as (-> & _). eexists. apply St_local, S_final_done.
  - destruct Hp as (-> & _). eapply act_progress; eauto.
  - done.
  - naive_solver.
Qed.

(** * What a walk does

    The listing is truthful for [dentries] and the programs handle items: [pre x] in the
    program of an entry, [post x] in the program at the end of a directory.  The effect of
    an item is to add to two 64-bit counters and to change some data [D] ([effect]); a
    program may change the counters later than the data. *)

Context {D : Type} (view : Sh → Z * Z * D) (I : Sh → Prop).
Context (dentries : Dentry → list Dentry) (pre post : Dentry → list Dentry).
Context (effect : Dentry → D → Z * Z * D).
Context (at_stage : prog Sh → list Dentry → Z * Z → Prop).
Implicit Types δ : Z * Z.

(** The counters with what is still to be added. *)
Definition vadd (v : Z * Z * D) δ : Z * Z * D :=
  (wrapu64 (v.1.1 + δ.1), wrapu64 (v.1.2 + δ.2), v.2).
Definition charge (v : Z * Z * D) (x : Dentry) : Z * Z * D :=
  let '(dl, di, d) := effect x v.2 in (wrapu64 (v.1.1 + dl), wrapu64 (v.1.2 + di), d).
Definition padd δ1 δ2 : Z * Z := ((δ1.1 + δ2.1)%Z, (δ1.2 + δ2.2)%Z).

(** The items of the tree below a directory, when it is finite. *)
Inductive Walk : Dentry → list Dentry → Prop :=
| Walk_intro x l : Walks (dentries x) l → Walk x (l ++ post x)
with Walks : list Dentry → list Dentry → Prop :=
| Walks_nil : Walks [] []
| Walks_dir x es lx l : is_dir x = true → Walk x lx → Walks es l → Walks (x :: es) (pre x ++ lx ++ l)
| Walks_file x es l : is_dir x = false → Walks es l → Walks (x :: es) (pre x ++ l).

Inductive Below : Dentry → list Dentry → Prop :=
| Below_dir x l : is_dir x = true → Walk x l → Below x l
| Below_file x : is_dir x = false → Below x [].

(** The items that a call has not handled, and what it has still to add to the counters for
    those it has. *)
Inductive Left_pc (dir : Dentry) : pc Sh → list Dentry → Z * Z → Prop :=
| L_list l : Walk dir l → Left_pc dir PList l (0, 0)%Z
| L_loop es l : Walks es l → Left_pc dir (PLoop es) (l ++ post dir) (0, 0)%Z
| L_do q x es its δ lx l :
    at_stage q its δ → Below x lx → Walks es l →
    Left_pc dir (PDo q x es) (its ++ lx ++ l ++ post dir) δ
| L_select x es lx l :
    Walk x lx → Walks es l → Left_pc dir (PSelect x es) (lx ++ l ++ post dir) (0, 0)%Z
| L_call es l : Walks es l → Left_pc dir (PCall es) (l ++ post dir) (0, 0)%Z
| L_wait : Left_pc dir PWait (post dir) (0, 0)%Z
| L_final q its δ : at_stage q its δ → Left_pc dir (PFinal q) its δ
| L_ret r : Left_pc dir (PRet r) [] (0, 0)%Z
| L_crash : Left_pc dir PCrash [] (0, 0)%Z.

Inductive Left : tree Sh → list Dentry → Z * Z → Prop :=
| Left_call dir p ch o subs l0 δ0 l1 δ1 l2 δ2 :
    Left_pc dir p l0 δ0 → Left_opt o l1 δ1 → Left_subs subs l2 δ2 →
    Left (Call dir p ch o subs) (l0 ++ l1 ++ l2) (padd δ0 (padd δ1 δ2))
with Left_opt : option (tree Sh) → list Dentry → Z * Z → Prop :=
| Left_none : Left_opt None [] (0, 0)%Z
| Left_some t l δ : Left t l δ → Left_opt (Some t) l δ
with Left_subs : list (gstate * tree Sh) → list Dentry → Z * Z → Prop :=
| Left_nil : Left_subs [] [] (0, 0)%Z
| Left_cons g t subs l δ l' δ' :
    Left t l δ → Left_subs subs l' δ' → Left_subs ((g, t) :: subs) (l ++ l') (padd δ δ').

Lemma padd_0_l δ : padd (0, 0)%Z δ = δ.
Proof. by destruct δ. Qed.
Lemma padd_0_r δ : padd δ (0, 0)%Z = δ.
Proof. destruct δ. unfold padd. simpl. f_equal; lia. Qed.
Lemma padd_assoc a b c : padd (padd a b) c = padd a (padd b c).
Proof. unfold padd. simpl. f_equal; lia. Qed.
Lemma padd_comm a b : padd a b = padd b a.
Proof. unfold padd. f_equal; lia. Qed.

Lemma Left_subs_mid subs1 g t subs2 l δ :
  Left_subs (subs1 ++ (g, t) :: subs2) l δ ↔
  ∃ l1 δ1 l0 δ0 l2 δ2, Left_subs subs1 l1 δ1 ∧ Left t l0 δ0 ∧ Left_subs subs2 l2 δ2 ∧
    l = l1 ++ l0 ++ l2 ∧ δ = padd δ1 (padd δ0 δ2).
Proof.
  revert l δ. induction subs1 as [|[g1 t1] subs1 IH]; intros l δ; simpl.
  - split.
    + intros Hl. inversion Hl; subst. eexists [], (0, 0)%Z, _, _, _, _. split_and!;
        [constructor|done|done|done|by rewrite padd_0_l].
    + intros (l1 & δ1 & l0 & δ0 & l2 & δ2 & H1 & ? & ? & -> & ->). inversion H1; subst.
      rewrite padd_0_l. simpl. by constructor.
  - split.
    + intros Hl. inversion Hl as [|? ? ? ? ? ? ? Ht Hsubs]; subst.
      apply IH in Hsubs as (la & δa & lm & δm & lb & δb & ? & ? & ? & -> & ->).
      eexists _, _, _, _, _, _. split_and!; [by econstructor|done..| |].
      * by rewrite <-app_assoc.
      * by rewrite padd_assoc.
    + intros (l1 & δ1 & l0 & δ0 & l2 & δ2 & H1 & ? & ? & -> & ->). inversion H1; subst.
      rewrite <-app_assoc, padd_assoc. constructor; [done|]. apply IH. eauto 15.
Qed.

(** A call that returned without error has nothing left. *)
Lemma done_Left t : wf t → returned t = Some None → ∀ l δ, Left t l δ → l = [] ∧ δ = (0, 0)%Z.
Proof.
  induction t as [dir p ch o subs IHo IHs] using tree_ind'. intros Hwf ->%returned_call l δ Hl.
  apply done_subs in Hwf as (-> & -> & Hsubs). inversion Hl; subst.
  repeat match goal with
  | H : Left_pc _ (PRet _) _ _ |- _ => inversion H; subst; clear H
  | H : Left_opt None _ _ |- _ => inversion H; subst; clear H
  end.
  rewrite !padd_0_l. simpl. clear Hl.
  match goal with H : Left_subs _ _ _ |- _ => revert H end. revert l2 δ2.
  induction Hsubs as [|[g t] subs (_ & Hr & Hw) _ IH]; intros l2 δ2 Hl;
    inversion Hl as [|? ? ? ? ? ? ? Ht Hs]; subst; [done|].
  apply Forall_cons in IHs as [IHt IHs].
  destruct (IHt Hw Hr _ _ Ht) as [-> ->]. by destruct (IH IHs _ _ Hs) as [-> ->].
Qed.

Context (Hlist : ∀ x d d' r, I d → list_dir x d = (d', r) →
  I d' ∧ view d' = view d ∧ ∀ es, r = Ok es → es = dentries x).
Context (Hentry : ∀ x, at_stage (entry x) (pre x) (0, 0)%Z).
Context (Hfinal : ∀ x, at_stage (final x) (post x) (0, 0)%Z).
Context (Hend : ∀ its δ, at_stage PEnd its δ → its = [] ∧ δ = (0, 0)%Z).
Context (Hact : ∀ f its δ d d' r, at_stage (PAct f) its δ → I d → f d = (d', r) →
  I d' ∧ ∀ q, r = Ok q → ∃ c its' δ', its = c ++ its' ∧ at_stage q its' δ' ∧
    vadd (view d') δ' = foldl charge (vadd (view d) δ) c).

Lemma vadd_vadd v a b : vadd (vadd v a) b = vadd v (padd a b).
Proof.
  unfold vadd, padd, wrapu64. simpl. rewrite !Zplus_mod_idemp_l. by rewrite !Z.add_assoc.
Qed.

Lemma charge_vadd v δ x : charge (vadd v δ) x = vadd (charge v x) δ.
Proof.
  unfold charge, vadd. simpl. destruct (effect x v.2) as [[dl di] d]. simpl.
  unfold wrapu64. rewrite !Zplus_mod_idemp_l. do 2 f_equal; f_equal; lia.
Qed.

Lemma charges_vadd v δ c : foldl charge (vadd v δ) c = vadd (foldl charge v c) δ.
Proof. revert v. induction c as [|x c IH]; intros v; simpl; [done|]. by rewrite charge_vadd, IH. Qed.

Lemma new_call_Left x l : Walk x l → Left (new_call x) l (0, 0)%Z.
Proof.
  intros Hw. replace l with (l ++ [] ++ []) by apply app_nil_r.
  apply (Left_call x PList None None [] l (0, 0)%Z [] (0, 0)%Z [] (0, 0)%Z); by constructor.
Qed.

(** What a step of one call does to what is left, to the counters and to its goroutines. *)
Definition moved (l l' c : list Dentry) δ δ' (d d' : Sh) : Prop :=
  l ≡ₚ c ++ l' ∧ vadd (view d') δ' = foldl charge (vadd (view d) δ) c.

Lemma moved_frame l l' c δ δ' d d' l0 δ0 :
  moved l l' c δ δ' d d' → moved (l ++ l0) (l' ++ l0) c (padd δ δ0) (padd δ' δ0) d d'.
Proof.
  intros [Hp Hv]. split; [by rewrite Hp, app_assoc|].
  by rewrite <-!vadd_vadd, Hv, (charges_vadd (vadd (view d) δ)).
Qed.

Lemma moved_same l l' δ d : l ≡ₚ l' → moved l l' [] δ δ d d.
Proof. intros Hp. split; [exact Hp|reflexivity]. Qed.

Lemma local_items dir s p ch subs s' p' ch' subs' l δ :
  local dir s p ch subs s' p' ch' subs' → I (data s) → Left_pc dir p l δ →
  I (data s') ∧ ∃ c l' δ' ls, Left_pc dir p' l' δ' ∧
    (∀ la δa, Left_subs subs la δa → Left_subs subs' (la ++ ls) δa) ∧
    (pc_failed p' ∨ moved l (l' ++ ls) c δ δ' (data s) (data s')).
Proof.
  assert (∀ (subs : list (gstate * tree Sh)) la δa, Left_subs subs la δa → Left_subs subs (la ++ []) δa) as Hsame.
  { intros. by rewrite app_nil_r. }
  assert (∀ dir r p, fails r = Some p → Left_pc dir p [] (0, 0)%Z) as Hfails.
  { intros ? [] ? [= <-]; constructor. }
  intros Hl HI Hleft. inversion Hl; subst; inversion Hleft; subst; simpl.
  - destruct (Hlist _ _ _ _ HI H0) as (HI' & Hv & Hes). rewrite (Hes es eq_refl) in *. split; [done|].
    match goal with H : Walk _ _ |- _ => inversion H; subst end.
    eexists [], _, _, []. split_and!; [by constructor|auto|]. right. rewrite app_nil_r. split; [done|].
    by rewrite Hv.
  - destruct (Hlist _ _ _ _ HI H0) as (HI' & _). split; [done|]. eexists [], _, _, [].
    split_and!; [constructor|auto|]. by left.
  - destruct (Hlist _ _ _ _ HI H0) as (HI' & _). split; [done|]. eexists [], _, _, [].
    split_and!; [constructor|auto|]. by left.
  - split; [done|]. match goal with H : Walks (_ :: _) _ |- _ => inversion H; subst end.
    + eexists [], _, _, []. split_and!; [by constructor; [apply Hentry|by apply Below_dir|]|auto|].
      right. apply moved_same. by rewrite app_nil_r, <-!app_assoc.
    + eexists [], _, _, []. split_and!; [by constructor; [apply Hentry|by apply Below_file|]|auto|].
      right. apply moved_same. by rewrite app_nil_r, <-!app_assoc.
  - split; [done|]. match goal with H : Walks [] _ |- _ => inversion H; subst end.
    eexists [], _, _, []. split_and!; [constructor|auto|]. right. apply moved_same.
    by rewrite app_nil_r.
  - edestruct Hact as [HI' Hq]; [done..|]. split; [done|].
    destruct (Hq q eq_refl) as (c & its' & δ' & -> & Hst & Hv).
    eexists c, _, _, []. split_and!; [by constructor|auto|]. right. rewrite app_nil_r.
    split; [by rewrite <-!app_assoc|done].
  - edestruct Hact as [HI' _]; [done..|]. split; [done|]. eexists [], _, _, [].
    split_and!; [by eapply Hfails|auto|]. left. by eapply fails_failed.
  - split; [done|]. match goal with H : at_stage PEnd _ _ |- _ => apply Hend in H as [-> ->] end.
    match goal with H : Below _ _ |- _ => inversion H; subst end;
      match goal with H : is_dir _ = _ |- _ => rewrite H end;
      (eexists [], _, _, []; split_and!; [by constructor|auto|]; right; apply moved_same; by rewrite app_nil_r).
  - split; [done|]. eexists [], _, _, []. split_and!; [constructor|auto|by left].
  - split; [done|]. eexists [], _, _, []. split_and!; [constructor|auto|by left].
  - split; [done|]. eexists [], _, _, lx. split_and!; [by constructor| |right; apply moved_same].
    + intros la δa Hla. apply Left_subs_mid. exists la, δa, lx, (0, 0)%Z, [], (0, 0)%Z.
      split_and!; [done|by apply new_call_Left|apply Left_nil|by rewrite app_nil_r|by rewrite !padd_0_r].
    + by rewrite (Permutation_app_comm lx).
  - split; [done|]. eexists [], _, _, []. split_and!; [constructor; apply Hfinal|auto|].
    right. apply moved_same. by rewrite app_nil_r.
  - split; [done|]. eexists [], _, _, []. split_and!; [constructor|auto|by left].
  - edestruct Hact as [HI' Hq]; [done..|]. split; [done|].
    destruct (Hq q eq_refl) as (c & its' & δ' & -> & Hst & Hv).
    eexists c, _, _, []. split_and!; [by constructor|auto|]. right. by rewrite app_nil_r.
  - edestruct Hact as [HI' _]; [done..|]. split; [done|]. eexists [], _, _, [].
    split_and!; [by eapply Hfails|auto|]. left. by eapply fails_failed.
  - split; [done|]. match goal with H : at_stage PEnd _ _ |- _ => apply Hend in H as [-> ->] end.
    eexists [], _, _, []. split_and!; [constructor|auto|]. right. by apply moved_same.
Qed.

Lemma Left_intro dir p ch o subs l0 δ0 l1 δ1 l2 δ2 l δ :
  Left_pc dir p l0 δ0 → Left_opt o l1 δ1 → Left_subs subs l2 δ2 →
  l = l0 ++ l1 ++ l2 → δ = padd δ0 (padd δ1 δ2) → Left (Call dir p ch o subs) l δ.
Proof. intros ? ? ? -> ->. by constructor. Qed.

Lemma step_items s t s' t' :
  step (s, t) (s', t') → wf t → I (data s) → ∀ l δ, Left t l δ →
  I (data s') ∧ ∃ c l' δ', Left t' l' δ' ∧ (failed t' ∨ moved l l' c δ δ' (data s) (data s')).
Proof.
  intros Hs. revert s t s' t' Hs.
  apply (step_ind' (λ s t s' t', wf t → I (data s) → ∀ l δ, Left t l δ →
    I (data s') ∧ ∃ c l' δ', Left t' l' δ' ∧ (failed t' ∨ moved l l' c δ δ' (data s) (data s')))).
  - intros s dir p ch subs s' p' ch' subs' Hl _ HI l δ Hleft.
    inversion Hleft as [? ? ? ? ? l0 δ0 l1 δ1 l2 δ2 Hpc Ho Hsubs]; subst.
    inversion Ho; subst. rewrite padd_0_l.
    destruct (local_items _ _ _ _ _ _ _ _ _ _ _ Hl HI Hpc) as (HI' & c & l' & δ' & ls & Hpc' & Hs' & Hm).
    split; [done|]. exists c, (l' ++ [] ++ (l2 ++ ls)), (padd δ' (padd (0, 0)%Z δ2)).
    split; [constructor; [done|constructor|by apply Hs']|]. destruct Hm as [Hf|Hm].
    + left. apply failed_call. by left.
    + right. rewrite padd_0_l. simpl.
      replace (l' ++ l2 ++ ls) with (l' ++ (l2 ++ ls)) by done.
      apply (moved_frame _ _ _ _ _ _ _ l2 δ2) in Hm as [Hp Hv]. split; [|done].
      rewrite Hp. by rewrite (Permutation_app_comm l2 ls), !app_assoc.
  - intros s dir x es subs _ _ _ HI l δ Hleft. split; [done|].
    inversion Hleft as [? ? ? ? ? l0 δ0 l1 δ1 l2 δ2 Hpc Ho Hsubs]; subst.
    inversion Ho; subst. inversion Hpc; subst. rewrite !padd_0_l.
    eexists [], _, _. split; [eapply Left_intro; [by constructor|constructor; by apply new_call_Left|done|done|done]|].
    right. rewrite !padd_0_l. apply moved_same. simpl.
    rewrite <-!app_assoc. rewrite (app_assoc _ (post dir)), (Permutation_app_comm lx), <-!app_assoc.
    solve_Permutation.
  - intros s dir es ch t subs Ht Hwf HI l δ Hleft. split; [done|].
    apply wf_call in Hwf as (_ & Hwf & _).
    inversion Hleft as [? ? ? ? ? l0 δ0 l1 δ1 l2 δ2 Hpc Ho Hsubs]; subst.
    inversion Ho as [|? ? ? Htl]; subst. inversion Hpc; subst.
    destruct (done_Left t (Hwf t eq_refl) Ht _ _ Htl) as [-> ->].
    eexists [], _, _. split; [eapply Left_intro; [by constructor|constructor|done|done|done]|].
    right. by apply moved_same.
  - intros s dir es ch t e subs Ht Hwf HI l δ Hleft. split; [done|].
    inversion Hleft as [? ? ? ? ? l0 δ0 l1 δ1 l2 δ2 Hpc Ho Hsubs]; subst.
    eexists [], _, _. split; [eapply Left_intro; [constructor|done|done|done|done]|].
    left. apply failed_call. by left.
  - intros s dir p ch t subs s' t' _ IH Hwf HI l δ Hleft.
    apply wf_call in Hwf as (_ & Hwf & _).
    inversion Hleft as [? ? ? ? ? l0 δ0 l1 δ1 l2 δ2 Hpc Ho Hsubs]; subst.
    inversion Ho as [|? ? ? Htl]; subst.
    destruct (IH (Hwf t eq_refl) HI _ _ Htl) as (HI' & c & l' & δ' & Hl' & Hm). split; [done|].
    eexists c, _, _. split; [eapply Left_intro; [done|by constructor|done|done|done]|].
    destruct Hm as [Hf|Hm]; [left; apply failed_call; right; right; left; by exists t'|right].
    apply (moved_frame _ _ _ _ _ _ _ (l0 ++ l2) (padd δ0 δ2)) in Hm as [Hp Hv]. split.
    + rewrite (app_assoc l0 l1), (Permutation_app_comm l0 l1), <-app_assoc, Hp. solve_Permutation.
    + rewrite !(padd_comm δ0), !padd_assoc, !(padd_comm δ2). done.
  - intros s dir p ch o la g t ra s' t' _ IH Hwf HI l δ Hleft.
    apply wf_call in Hwf as (_ & _ & _ & Hwf). apply Forall_app in Hwf as [_ [Hwf _]%Forall_cons].
    inversion Hleft as [? ? ? ? ? l0 δ0 l1 δ1 l2 δ2 Hpc Ho Hsubs]; subst.
    apply Left_subs_mid in Hsubs as (lx & δx & lt & δt & ly & δy & Hx & Ht & Hy & -> & ->).
    destruct (IH Hwf HI _ _ Ht) as (HI' & c & l' & δ' & Hl' & Hm). split; [done|].
    eexists c, _, _. split.
    { eapply Left_intro; [done|done| |done|done]. apply Left_subs_mid. eexists _, _, _, _, _, _. done. }
    destruct Hm as [Hf|Hm].
    { left. apply failed_call. do 3 right. rewrite Exists_app, Exists_cons. auto. }
    right. apply (moved_frame _ _ _ _ _ _ _ (l0 ++ l1 ++ lx ++ ly) (padd δ0 (padd δ1 (padd δx δy)))) in Hm as [Hp Hv].
    split.
    + trans (lt ++ l0 ++ l1 ++ lx ++ ly); [solve_Permutation|]. rewrite Hp. solve_Permutation.
    + replace (padd δ0 (padd δ1 (padd δx (padd δ' δy)))) with (padd δ' (padd δ0 (padd δ1 (padd δx δy))))
        by (unfold padd; simpl; f_equal; lia).
      rewrite Hv. do 2 f_equal. unfold padd. simpl. f_equal; lia.
  - intros s dir p ch o la t ra x Hx Hwf HI l δ Hleft. split; [done|].
    inversion Hleft as [? ? ? ? ? l0 δ0 l1 δ1 l2 δ2 Hpc Ho Hsubs]; subst.
    apply Left_subs_mid in Hsubs. eexists [], _, _. split; [|right; by apply moved_same].
    eapply Left_intro; [done|done|by apply Left_subs_mid|done|done].
  - intros s dir p ch o la t ra x Hx Hwf HI l δ Hleft. split; [done|].
    inversion Hleft as [? ? ? ? ? l0 δ0 l1 δ1 l2 δ2 Hpc Ho Hsubs]; subst.
    apply Left_subs_mid in Hsubs. eexists [], _, _. split; [|right; by apply moved_same].
    eapply Left_intro; [done|done|by apply Left_subs_mid|done|done].
  - intros s dir p ch o la t ra Hwf HI l δ Hleft. split; [done|].
    inversion Hleft as [? ? ? ? ? l0 δ0 l1 δ1 l2 δ2 Hpc Ho Hsubs]; subst.
    apply Left_subs_mid in Hsubs. eexists [], _, _. split; [|right; by apply moved_same].
    eapply Left_intro; [done|done|by apply Left_subs_mid|done|done].
Qed.

Lemma steps_items s t s' t' :
  steps (s, t) (s', t') → wf t → I (data s) → ∀ l δ, Left t l δ →
  I (data s') ∧ ∃ c l' δ', Left t' l' δ' ∧ (failed t' ∨ moved l l' c δ δ' (data s) (data s')).
Proof.
  intros Hs. remember (s, t) as c0 eqn:E0. remember (s', t') as c1 eqn:E1.
  revert s t E0. induction Hs as [c|c [s1 t1] c' Hs Hss IH]; intros s t ->.
  - injection E1 as -> ->. intros _ HI l δ Hl. split; [done|]. exists [], l, δ.
    split; [done|right; by apply moved_same].
  - intros Hwf HI l δ Hl. destruct (step_items _ _ _ _ Hs Hwf HI _ _ Hl) as (HI1 & c1 & l1 & δ1 & Hl1 & Hm1).
    assert (wf t1) as Hwf1 by (by eapply wf_step).
    destruct (IH E1 s1 t1 eq_refl Hwf1 HI1 _ _ Hl1) as (HI2 & c2 & l2 & δ2 & Hl2 & Hm2).
    split; [done|]. exists (c1 ++ c2), l2, δ2. split; [done|].
    destruct Hm2 as [?|[Hp2 Hv2]]; [by left|].
    destruct Hm1 as [Hf|[Hp1 Hv1]].
    + left. clear -E1 Hss Hf Hwf1. subst c'. remember (s1, t1) as c0 eqn:E0. remember (s', t') as c1 eqn:E1.
      revert s1 t1 E0 Hf Hwf1. induction Hss as [|c [s2 t2] c' Hs _ IH]; intros s1 t1 ->.
      * injection E1 as -> ->. done.
      * intros Hf Hwf. eapply (IH E1); [done| |]; [by eapply failed_step|by eapply wf_step].
    + right. split; [by rewrite Hp1, Hp2, app_assoc|]. by rewrite Hv2, Hv1, foldl_app.
Qed.

Lemma foldl_charge_perm (Hcomm : ∀ v x y, charge (charge v x) y = charge (charge v y) x) l1 l2 v :
  l1 ≡ₚ l2 → foldl charge v l1 = foldl charge v l2.
Proof.
  intros Hp. revert v. induction Hp as [|x l1 l2 _ IH|x y l|l1 l2 l3 _ IH1 _ IH2]; intros v; simpl.
  - done.
  - apply IH.
  - by rewrite Hcomm.
  - by rewrite IH1.
Qed.

(** A walk that returns without an error has handled every item below its root once: the
    counters and the data are those of any sequential pass over them. *)
Lemma walk_done d root s t all :
  (∀ v x y, charge (charge v x) y = charge (charge v y) x) →
  I d → Walk root all → steps (start d root) (s, t) → returned t = Some None →
  I (data s) ∧ vadd (view (data s)) (0, 0)%Z = foldl charge (vadd (view d) (0, 0)%Z) all.
Proof.
  intros Hcomm HI Hw Hs Hr. assert (wf t) as Hwf by (by eapply wf_steps).
  destruct (steps_items (mkShared d 0 false) (new_call root) s t Hs (new_call_wf root) HI all (0, 0)%Z)
    as (HI' & c & l' & δ' & Hl' & Hm); [by apply new_call_Left|]. split; [done|].
  destruct (done_Left t Hwf Hr _ _ Hl') as [-> ->].
  destruct Hm as [Hf|[Hp Hv]]; [by apply done_not_failed in Hf|]. simpl in Hv. rewrite Hv.
  apply foldl_charge_perm; [done|]. by rewrite Hp, app_nil_r.
Qed.


End Steps.
