(* ===== verification/DirWalkEnds.v ===== *)
(** That the walks of DirWalk.v end: on a tree of directories without cycles every run is
    bounded, and a run fails only when an action does. *)

From S2P Require Import Prelude GoLib Errno Mds Flags Rpc Operator DirWalk DirWalkFacts.

(** * A walk ends

    On a tree of directories without cycles, when the programs are bounded. *)

Section Ends.
Context `{Proto} {Sh : Type}.
Context (list_dir : Dentry → Sh → Sh * res error (list Dentry)).
Context (entry : Dentry → prog Sh) (final : Dentry → prog Sh).
Context (cancel_error : error) (threads : nat).
Notation local := (local list_dir entry final cancel_error threads).
Notation step := (step list_dir entry final cancel_error threads).
Notation steps := (steps list_dir entry final cancel_error threads).
Context (I : Sh → Prop) (dentries : Dentry → list Dentry).
Context (Hlist : ∀ x d d' r, I d → list_dir x d = (d', r) → I d' ∧ ∀ es, r = Ok es → es = dentries x).

(** The program does at most [n] actions. *)
Inductive bounded : prog Sh → nat → Prop :=
| B_end n : bounded PEnd n
| B_act f n :
    (∀ d d' r, I d → f d = (d', r) → I d' ∧ ∀ q, r = Ok q → bounded q n) → bounded (PAct f) (S n).

Context (b : nat) (Hentry : ∀ x, bounded (entry x) b) (Hfinal : ∀ x, bounded (final x) b).

(** The steps that a call on a directory, and the entries of a directory, may take. *)
Inductive Cost : Dentry → nat → Prop :=
| Cost_intro x n : Costs (dentries x) n → Cost x (n + b + 4)
with Costs : list Dentry → nat → Prop :=
| Costs_nil : Costs [] 0
| Costs_cons x es m n : Cost_below x m → Costs es n → Costs (x :: es) (b + 2 + m + n)
with Cost_below : Dentry → nat → Prop :=
| Cost_dir x n : is_dir x = true → Cost x n → Cost_below x (n + 5)
| Cost_file x : is_dir x = false → Cost_below x 0.

Inductive Budget_pc (dir : Dentry) : pc Sh → nat → Prop :=
| U_list n : Cost dir n → Budget_pc dir PList n
| U_loop es n : Costs es n → Budget_pc dir (PLoop es) (n + b + 3)
| U_do q x es k m n :
    bounded q k → Cost_below x m → Costs es n → Budget_pc dir (PDo q x es) (k + 1 + m + n + b + 3)
| U_select x es m n : Cost x m → Costs es n → Budget_pc dir (PSelect x es) (m + 5 + n + b + 3)
| U_call es n : Costs es n → Budget_pc dir (PCall es) (n + b + 4)
| U_wait : Budget_pc dir PWait (b + 2)
| U_final q k : bounded q k → Budget_pc dir (PFinal q) (k + 1)
| U_ret r : Budget_pc dir (PRet r) 0
| U_crash : Budget_pc dir PCrash 0.

Definition weight (g : gstate) : nat :=
  match g with GRun => 3 | GReleased => 2 | GSent => 1 | GDone => 0 end.

Inductive Budget : tree Sh → nat → Prop :=
| U_node dir p ch o subs n0 n1 n2 :
    Budget_pc dir p n0 → Budget_opt o n1 → Budget_subs subs n2 → Budget (Call dir p ch o subs) (n0 + n1 + n2)
with Budget_opt : option (tree Sh) → nat → Prop :=
| U_none : Budget_opt None 0
| U_some t n : Budget t n → Budget_opt (Some t) n
with Budget_subs : list (gstate * tree Sh) → nat → Prop :=
| U_nil : Budget_subs [] 0
| U_cons g t subs n n' : Budget t n → Budget_subs subs n' → Budget_subs ((g, t) :: subs) (weight g + n + n').

Lemma Budget_subs_mid l g t r n :
  Budget_subs (l ++ (g, t) :: r) n ↔
  ∃ a m c, Budget_subs l a ∧ Budget t m ∧ Budget_subs r c ∧ n = a + (weight g + m) + c.
Proof.
  revert n. induction l as [|[g1 t1] l IH]; intros n; simpl.
  - split.
    + intros Hn. inversion Hn; subst. eexists 0, _, _. split_and!; [constructor|done..|lia].
    + intros (a & m & c & Ha & ? & ? & ->). inversion Ha; subst. by constructor.
  - split.
    + intros Hn. inversion Hn as [|? ? ? ? ? Ht Hs]; subst. apply IH in Hs as (a & m & c & ? & ? & ? & ->).
      eexists _, m, c. split_and!; [by constructor|done..|lia].
    + intros (a & m & c & Ha & ? & ? & ->). inversion Ha as [|? ? ? u v Ht Hs]; subst.
      replace (_ + _) with (weight g1 + u + (v + (weight g + m) + c)) by lia.
      constructor; [done|]. apply IH. eauto 10.
Qed.

Lemma new_call_Budget x n : Cost x n → Budget (new_call x) n.
Proof.
  intros Hc. replace n with (n + 0 + 0) by lia. constructor; [by constructor|constructor|constructor].
Qed.

Lemma local_budget dir s p ch subs s' p' ch' subs' n :
  local dir s p ch subs s' p' ch' subs' → I (data s) → Budget_pc dir p n →
  I (data s') ∧ ∃ n' k, Budget_pc dir p' n' ∧ n' + k < n ∧
    ∀ m, Budget_subs subs m → Budget_subs subs' (m + k).
Proof.
  assert (∀ (subs : list (gstate * tree Sh)) m, Budget_subs subs m → Budget_subs subs (m + 0)) as Hsame.
  { intros. by rewrite Nat.add_0_r. }
  assert (∀ dir r p, fails r = Some p → Budget_pc dir p 0) as Hfails by (intros ? [] ? [= <-]; constructor).
  intros Hl HI Hb. inversion Hl; subst; inversion Hb; subst; simpl;
    repeat match goal with
    | H : list_dir _ _ = _ |- _ => apply Hlist in H as [? ?]; [|done]
    | H : Costs [] _ |- _ => inversion H; subst; clear H
    | H : Costs (_ :: _) _ |- _ => inversion H; subst; clear H
    | H : Cost dir _ |- _ => inversion H; subst; clear H
    | H : bounded (PAct _) _ |- _ => inversion H as [|? ? Hq]; subst; clear H
    | H : ?f (data s) = (?d, ?r), Hq : (∀ d d' r, I d → ?f d = (d', r) → _) |- _ =>
        destruct (Hq _ _ _ HI H) as [? ?]; clear Hq
    end; (split; [done|]);
    try (eexists _, 0; split_and!; [econstructor; eauto; fail|lia|by apply Hsame]);
    try (eexists 0, 0; split_and!; [by eapply Hfails|lia|by apply Hsame]).
  - match goal with H : Costs (dentries dir) ?n |- _ => exists (n + b + 3), 0 end.
    split_and!; [|lia|by apply Hsame]. constructor.
    match goal with H : ∀ es, Ok _ = Ok es → _ |- _ => by rewrite (H _ eq_refl) end.
  - match goal with H : Cost_below _ _ |- _ => inversion H; subst end;
      match goal with H : is_dir _ = _ |- _ => rewrite H end;
      (eexists _, 0; split_and!; [by constructor|lia|by apply Hsame]).
  - eexists _, (m + 3). split_and!; [by constructor|lia|].
    intros a Ha. apply Budget_subs_mid. eexists a, m, 0.
    split_and!; [done|by apply new_call_Budget|constructor|simpl; lia].
Qed.

Lemma step_budget s t s' t' :
  step (s, t) (s', t') → I (data s) → ∀ n, Budget t n →
  I (data s') ∧ ∃ n', Budget t' n' ∧ n' < n.
Proof.
  intros Hs. revert s t s' t' Hs.
  apply (step_ind' _ _ _ _ _ (λ s t s' t', I (data s) → ∀ n, Budget t n →
    I (data s') ∧ ∃ n', Budget t' n' ∧ n' < n)); intros s dir; intros *.
  - intros Hl HI n Hn. inversion Hn as [? ? ? ? ? n0 n1 n2 Hpc Ho Hsubs]; subst. inversion Ho; subst.
    destruct (local_budget _ _ _ _ _ _ _ _ _ _ Hl HI Hpc) as (HI' & n' & k & Hpc' & Hlt & Hs').
    split; [done|]. eexists. split; [constructor; [done|constructor|by apply Hs']|]. lia.
  - intros _ _ HI n Hn. split; [done|]. inversion Hn as [? ? ? ? ? n0 n1 n2 Hpc Ho Hsubs]; subst.
    inversion Ho; subst. inversion Hpc; subst. eexists.
    split; [constructor; [by constructor|constructor; by apply new_call_Budget|done]|]. lia.
  - intros Ht HI n Hn. split; [done|]. inversion Hn as [? ? ? ? ? n0 n1 n2 Hpc Ho Hsubs]; subst.
    inversion Hpc; subst. eexists. split; [constructor; [by constructor|constructor|done]|]. lia.
  - intros Ht HI n Hn. split; [done|]. inversion Hn as [? ? ? ? ? n0 n1 n2 Hpc Ho Hsubs]; subst.
    inversion Hpc; subst. eexists. split; [constructor; [by constructor|done|done]|]. lia.
  - intros _ IH HI n Hn. inversion Hn as [? ? ? ? ? n0 n1 n2 Hpc Ho Hsubs]; subst.
    inversion Ho as [|? ? Ht]; subst. destruct (IH HI _ Ht) as (HI' & n' & Hn' & Hlt).
    split; [done|]. eexists. split; [constructor; [done|by constructor|done]|]. lia.
  - intros _ IH HI n Hn. inversion Hn as [? ? ? ? ? n0 n1 n2 Hpc Ho Hsubs]; subst.
    apply Budget_subs_mid in Hsubs as (a & m & c & ? & Ht & ? & ->).
    destruct (IH HI _ Ht) as (HI' & n' & Hn' & Hlt). split; [done|].
    eexists. split; [constructor; [done|done|apply Budget_subs_mid; eauto 10]|]. lia.
  - intros _ HI n Hn. split; [done|]. inversion Hn as [? ? ? ? ? n0 n1 n2 Hpc Ho Hsubs]; subst.
    apply Budget_subs_mid in Hsubs as (a & m & c & ? & Ht & ? & ->).
    eexists. split; [constructor; [done|done|apply Budget_subs_mid; eauto 10]|]. simpl. lia.
  - intros _ HI n Hn. split; [done|]. inversion Hn as [? ? ? ? ? n0 n1 n2 Hpc Ho Hsubs]; subst.
    apply Budget_subs_mid in Hsubs as (a & m & c & ? & Ht & ? & ->).
    eexists. split; [constructor; [done|done|apply Budget_subs_mid; eauto 10]|]. simpl. lia.
  - intros HI n Hn. split; [done|]. inversion Hn as [? ? ? ? ? n0 n1 n2 Hpc Ho Hsubs]; subst.
    apply Budget_subs_mid in Hsubs as (a & m & c & ? & Ht & ? & ->).
    eexists. split; [constructor; [done|done|apply Budget_subs_mid; eauto 10]|]. simpl. lia.
Qed.

(** Every run of a call with a budget has at most that many steps. *)
Lemma walk_bounded s t n k c :
  I (data s) → Budget t n → nsteps step k (s, t) c → k ≤ n.
Proof.
  revert s t n. induction k as [|k IH]; intros s t n HI Hn Hk; [lia|].
  inversion Hk as [|? ? [s1 t1] ? Hs Hks]; subst.
  destruct (step_budget _ _ _ _ Hs HI _ Hn) as (HI' & n' & Hn' & Hlt).
  specialize (IH _ _ _ HI' Hn' Hks). lia.
Qed.

(** Directories without cycles have a cost. *)
Lemma Cost_exists (rank : Dentry → nat) :
  (∀ x y, y ∈ dentries x → is_dir y = true → rank y < rank x) → ∀ x, ∃ n, Cost x n.
Proof.
  intros Hrank x. remember (rank x) as k eqn:Hk. revert x Hk.
  induction (lt_wf k) as [k _ IH]. intros x ->.
  assert (∀ es, (∀ y, y ∈ es → y ∈ dentries x) → ∃ n, Costs es n) as Hes.
  { intros es. induction es as [|y es IHes]; intros Hin; [eexists; constructor|].
    destruct IHes as [n Hn]; [set_solver|]. destruct (is_dir y) eqn:Hy.
    - destruct (IH (rank y)) with (x := y) as [m Hm]; [apply Hrank; set_solver|done|].
      eexists. constructor; [by apply Cost_dir|done].
    - eexists. constructor; [by apply Cost_file|done]. }
  destruct (Hes (dentries x)) as [n Hn]; [done|]. eexists. by constructor.
Qed.

End Ends.

(** * A walk fails only when an action does *)

Section Succeeds.
Context `{Proto} {Sh : Type}.
Context (list_dir : Dentry → Sh → Sh * res error (list Dentry)).
Context (entry : Dentry → prog Sh) (final : Dentry → prog Sh).
Context (cancel_error : error) (threads : nat).
Notation local := (local list_dir entry final cancel_error threads).
Notation step := (step list_dir entry final cancel_error threads).
Notation steps := (steps list_dir entry final cancel_error threads).
Context (J : Sh → Prop).

(** No action of the program fails. *)
Inductive safe : prog Sh → Prop :=
| safe_end : safe PEnd
| safe_act f : (∀ d, J d → ∃ d' q, f d = (d', Ok q) ∧ J d' ∧ safe q) → safe (PAct f).

Context (Hlist : ∀ x d, J d → ∃ d' es, list_dir x d = (d', Ok es) ∧ J d').
Context (Hentry : ∀ x, safe (entry x)) (Hfinal : ∀ x, safe (final x)).

Definition calm_pc (p : pc Sh) : Prop :=
  match p with
  | PDo q _ _ | PFinal q => safe q
  | PRet (Some _) | PCrash => False
  | _ => True
  end.
Fixpoint calm (t : tree Sh) : Prop :=
  match t with
  | Call _ p ch o subs =>
      calm_pc p ∧ ch = None ∧ (match o with Some t => calm t | None => True end) ∧
      foldr (λ g P, calm g.2 ∧ P) True subs
  end.

Lemma calm_call dir p ch o subs :
  calm (Call dir p ch o subs) ↔
  calm_pc p ∧ ch = None ∧ (∀ t, o = Some t → calm t) ∧ Forall (λ g, calm g.2) subs.
Proof. simpl. rewrite (foldr_and (λ g, calm g.2)). destruct o; naive_solver. Qed.

Lemma new_call_calm x : calm (new_call x).
Proof. simpl. auto. Qed.

Lemma calm_local dir s p subs s' p' ch' subs' :
  local dir s p None subs s' p' ch' subs' → J (data s) → cancelled s = false → calm_pc p →
  Forall (λ g, calm g.2) subs →
  J (data s') ∧ cancelled s' = false ∧ calm_pc p' ∧ ch' = None ∧ Forall (λ g, calm g.2) subs'.
Proof.
  intros Hl HJ Hc Hp Hs.
  inversion Hl; subst; simpl in *; try congruence;
    repeat match goal with
    | H : list_dir ?x _ = _ |- _ =>
        destruct (Hlist x _ HJ) as (? & ? & Heq & ?); rewrite H in Heq; simplify_eq; clear H
    | H : safe (PAct _) |- _ => inversion H as [|? Hq]; subst; clear H
    | H : ?f (data s) = _, Hq : (∀ d, J d → ∃ d' q, ?f d = _ ∧ _) |- _ =>
        destruct (Hq _ HJ) as (? & ? & Heq & ? & ?); rewrite H in Heq; simplify_eq; clear H
    | H : fails (Ok _) = Some _ |- _ => discriminate H
    end; split_and!; auto.
  - by destruct (is_dir x).
  - apply Forall_app. split; [done|]. apply Forall_singleton, new_call_calm.
Qed.

Lemma calm_step s t s' t' :
  step (s, t) (s', t') → J (data s) → cancelled s = false → calm t →
  J (data s') ∧ cancelled s' = false ∧ calm t'.
Proof.
  intros Hs. revert s t s' t' Hs.
  apply (step_ind' _ _ _ _ _ (λ s t s' t', J (data s) → cancelled s = false → calm t →
    J (data s') ∧ cancelled s' = false ∧ calm t')); intros s dir; intros *.
  - intros Hl HJ Hc. rewrite !calm_call. intros (Hp & -> & _ & Hs).
    destruct (calm_local _ _ _ _ _ _ _ _ Hl HJ Hc Hp Hs) as (? & ? & ? & ? & ?). split_and!; done.
  - intros _ _ HJ Hc. rewrite !calm_call. intros (_ & _ & _ & Hs). split_and!; try done.
    intros ? [= <-]. apply new_call_calm.
  - intros _ HJ Hc. rewrite !calm_call. intros (_ & ? & _ & Hs). by split_and!.
  - intros Ht HJ Hc. rewrite !calm_call. intros (_ & ? & Ho & Hs). exfalso.
    specialize (Ho t eq_refl). destruct t as [? [] ? ? ?]; try done. injection Ht as ->.
    by apply calm_call in Ho as [[] _].
  - intros _ IH HJ Hc. rewrite !calm_call. intros (? & ? & Ho & Hs).
    destruct (IH HJ Hc (Ho _ eq_refl)) as (? & ? & ?). split_and!; try done. by intros ? [= <-].
  - intros _ IH HJ Hc. rewrite !calm_call, !Forall_app, !Forall_cons. intros (? & ? & Ho & ? & Ht & ?).
    destruct (IH HJ Hc Ht) as (? & ? & ?). split_and!; done.
  - intros _ HJ Hc. rewrite !calm_call, !Forall_app, !Forall_cons. done.
  - intros Ht HJ Hc. rewrite !calm_call, !Forall_app, !Forall_cons. intros (? & -> & Ho & ? & Hct & ?).
    split_and!; try done. destruct t as [? [] ? ? ?]; try done. injection Ht as ->.
    simpl in Hct |- *. destruct x as [e|]; [by destruct Hct as [[] _]|done].
  - intros HJ Hc. rewrite !calm_call, !Forall_app, !Forall_cons. done.
Qed.

Lemma calm_steps d root s t :
  J d → steps (start d root) (s, t) → J (data s) ∧ calm t.
Proof.
  intros HJ Hs.
  assert (∀ c c', steps c c' → J (data c.1) → cancelled c.1 = false → calm c.2 →
    J (data c'.1) ∧ cancelled c'.1 = false ∧ calm c'.2) as Hall.
  { induction 1 as [|[s1 t1] [s2 t2] c' Hst _ IH]; [done|]. simpl. intros ? ? ?.
    destruct (calm_step _ _ _ _ Hst) as (? & ? & ?); auto. }
  destruct (Hall _ _ Hs) as (? & ? & ?); [done|done|apply new_call_calm|done].
Qed.

Lemma calm_not_crashed t : calm t → ¬ crashed t.
Proof.
  induction t as [dir p ch o subs IHo IHs] using tree_ind'. rewrite calm_call, crashed_call.
  intros (Hp & _ & Ho & Hs) [->|[(t & -> & Ht)|Hc]]; [done|exact (IHo t eq_refl (Ho t eq_refl) Ht)|].
  apply Exists_exists in Hc as (g & Hg & Hc). rewrite Forall_forall in IHs, Hs.
  exact (IHs g Hg (Hs g Hg) Hc).
Qed.

(** When no action fails, a run that cannot go on has returned, without an error. *)
Lemma walk_succeeds d root s t :
  J d → steps (start d root) (s, t) → (∀ c, ¬ step (s, t) c) → returned t = Some None.
Proof.
  intros HJ Hs Hstuck. destruct (calm_steps _ _ _ _ HJ Hs) as [_ Hcalm].
  destruct (returned t) as [[e|]|] eqn:Hr; [|done|].
  - destruct t as [? [] ? ? ?]; try done. injection Hr as ->. by apply calm_call in Hcalm as [[] _].
  - destruct (walk_progress list_dir entry final cancel_error threads s t) as [c Hc]; try done.
    + by eapply wf_steps.
    + by apply calm_not_crashed.
    + by apply Hstuck in Hc.
Qed.

(** When the runs are bounded as well, there is one that returns without an error. *)
Lemma walk_returns d root n :
  J d → (∀ k c, nsteps step k (start d root) c → k ≤ n) →
  ∃ s t, steps (start d root) (s, t) ∧ returned t = Some None.
Proof.
  intros HJ Hn.
  assert (∀ m s t, steps (start d root) (s, t) → (∀ k c, nsteps step k (s, t) c → k ≤ m) →
    ∃ s t, steps (start d root) (s, t) ∧ returned t = Some None) as Hm.
  { induction m as [|m IH]; intros s t Hs Hk;
      destruct (returned t) as [[e|]|] eqn:Hr; try (by eauto).
    all: destruct (calm_steps _ _ _ _ HJ Hs) as [_ Hcalm].
    all: try (destruct t as [? [] ? ? ?]; simplify_eq/=; by destruct Hcalm as [[] _]).
    all: destruct (walk_progress list_dir entry final cancel_error threads s t) as [[s1 t1] Hc];
      [by eapply wf_steps|by apply calm_not_crashed|done|].
    - specialize (Hk 1 (s1, t1)). pose proof (Hk (nsteps_once _ _ Hc)). lia.
    - apply (IH s1 t1); [by eapply rtc_r|]. intros k c Hkc.
      assert (S k ≤ S m) by (apply (Hk (S k) c); by econstructor). lia. }
  by apply (Hm n (mkShared d 0 false) (new_call root)); [apply rtc_refl|].
Qed.

End Succeeds.
