(* ===== verification/DirOps.v ===== *)
(** The two users of the walks of DirWalk.v: GetDirSummarySize and GetDirectorySizeAndInodes
    of src/internal/rpc/operator.go, and the deletion of a directory with its contents of
    src/cli/command/fs/subpath/delete.go.

    A request, with its retries, is one action; so is each operation on the shared counters
    and on the shared map of inodes. *)

From Stdlib Require Import Ascii.
From S2P Require Import Prelude GoLib Errno Mds Flags Rpc Operator DirWalk DirWalkFacts.
Local Open Scope Z_scope.

(** What the goroutines of a walk share: the package state with the world, the counters of
    [common.Summary], which are unsigned 64-bit integers, and the keys of [inodeMap]. *)
Record Summary (W : Type) : Type := mkSummary {
  sum_rpc : RpcState W;
  Length : Z;
  Inodes : Z;
  inodeMap : gset Z;
}.
Arguments mkSummary {W} _ _ _ _.
Arguments sum_rpc {W} _.
Arguments Length {W} _.
Arguments Inodes {W} _.
Arguments inodeMap {W} _.
Definition set_rpc {W} (s : RpcState W) (d : Summary W) : Summary W :=
  mkSummary s (Length d) (Inodes d) (inodeMap d).

Section DirOps.
Context {W : Type} `{Proto, ZMapOrder, Grpc W, MDSServiceClient W, Viper}.
Notation Sh := (Summary W).
Notation action A := (Sh → Sh * res error A).

(** A request, as an action. *)
Definition by_rpc {A} (m : eff error (RpcState W) A) : action A := λ d,
  let '(s, r) := m (sum_rpc d) in (set_rpc s d, r).
Definition then_ {A} (m : action A) (k : A → prog Sh) : prog Sh :=
  PAct (λ d, let '(d, r) := m d in (d, k <$> r)).

(** The atomic operations on the shared data. *)
Definition add_length (n : Z) : action () := λ d,
  (mkSummary (sum_rpc d) (wrapu64 (Length d + n)) (Inodes d) (inodeMap d), Ok ()).
Definition add_inodes : action () := λ d,
  (mkSummary (sum_rpc d) (Length d) (wrapu64 (Inodes d + 1)) (inodeMap d), Ok ()).
(** [inodeMap.LoadOrStore]: whether the key was there. *)
Definition load_or_store (ino : Z) : action bool := λ d,
  (mkSummary (sum_rpc d) (Length d) (Inodes d) ({[ino]} ∪ inodeMap d),
   Ok (bool_decide (ino ∈ inodeMap d))).

(** ** The size of a directory *)

Section OneWalk.
Context (cmd : Cmd) (fsId epoch : Z).

Definition list_dentry (x : Dentry) : action (list Dentry) :=
  by_rpc (ListDentry cmd fsId (de_Ino x) epoch).

Definition count_inode : prog Sh := then_ add_inodes (λ _, PEnd).
Definition count_file (n : Z) : prog Sh := then_ (add_length n) (λ _, count_inode).

(** A hard link to an inode that has been met is left out, in a check of the file system. *)
Definition summary_entry (isFsCheck : bool) (x : Dentry) : prog Sh :=
  if decide (de_Type x = FileType_FILE) then
    then_ (by_rpc (GetInode cmd fsId (de_Ino x) (de_Parent x) epoch)) (λ inode,
      if isFsCheck && (2 <=? in_Nlink inode) then
        then_ (load_or_store (in_Ino inode)) (λ seen : bool,
          if seen then PEnd else count_file (in_Length inode))
      else count_file (in_Length inode))
  else count_inode.

Definition summary_final (_ : Dentry) : prog Sh := PEnd.

(** ** Deleting a directory *)

Definition delete_entry (x : Dentry) : prog Sh :=
  if is_dir x then PEnd
  else then_ (by_rpc (DeleteFile cmd fsId (de_Parent x) (de_Name x) epoch)) (λ _, count_inode).

Definition delete_final (x : Dentry) : prog Sh :=
  then_ (by_rpc (DeleteDirectory cmd fsId (de_Parent x) (de_Name x) epoch)) (λ _, count_inode).

End OneWalk.

Definition new_summary (s : RpcState W) : Sh := mkSummary s 0 0 ∅.
Definition cancel_scan : error := EText "cancel scan directory for other goroutine error".
Definition cancel_delete : error := EText "cancel delete directory for other goroutine error".

Definition GetDirSummarySize (cmd : Cmd) (fsId epoch : Z) (isFsCheck : bool) (threads : nat) :
    relation (shared Sh * tree Sh) :=
  step (list_dentry cmd fsId epoch) (summary_entry cmd fsId epoch isFsCheck) summary_final
    cancel_scan threads.
Definition deleteDirectoryAndData (cmd : Cmd) (fsId epoch : Z) (threads : nat) :
    relation (shared Sh * tree Sh) :=
  step (list_dentry cmd fsId epoch) (delete_entry cmd fsId epoch) (delete_final cmd fsId epoch)
    cancel_delete threads.

(** The call at the top is on a directory that is known by its inode only, or by its inode,
    its parent and its name. *)
Definition root_dir (dirInode : Z) : Dentry := mkDentry EmptyString dirInode 0 FileType_DIRECTORY.
Definition named_dir (parentInodeId dirInodeId : Z) (name : string) : Dentry :=
  mkDentry name dirInodeId parentInodeId FileType_DIRECTORY.

(** The possible results of GetDirectorySizeAndInodes, with the package state as it is when
    the function returns; goroutines may still be running then, when the result is an error.
    The counters are returned as signed integers.  A panic in any goroutine ends the
    process. *)
Inductive GetDirectorySizeAndInodes (cmd : Cmd) (fsId dirInode : Z) (isFsCheck : bool)
    (epoch threads : Z) (s : RpcState W) : RpcState W → res error (Z * Z) → Prop :=
| size_ok sh t :
    rtc (GetDirSummarySize cmd fsId epoch isFsCheck (Z.to_nat threads))
      (start (new_summary s) (root_dir dirInode)) (sh, t) →
    returned t = Some None →
    GetDirectorySizeAndInodes cmd fsId dirInode isFsCheck epoch threads s (sum_rpc (data sh))
      (Ok (wrap64 (Length (data sh)), wrap64 (wrapu64 (Inodes (data sh) + 1))))
| size_err sh t e :
    rtc (GetDirSummarySize cmd fsId epoch isFsCheck (Z.to_nat threads))
      (start (new_summary s) (root_dir dirInode)) (sh, t) →
    returned t = Some (Some e) →
    GetDirectorySizeAndInodes cmd fsId dirInode isFsCheck epoch threads s (sum_rpc (data sh)) (Err e)
| size_panic sh t :
    rtc (GetDirSummarySize cmd fsId epoch isFsCheck (Z.to_nat threads))
      (start (new_summary s) (root_dir dirInode)) (sh, t) →
    crashed t →
    GetDirectorySizeAndInodes cmd fsId dirInode isFsCheck epoch threads s (sum_rpc (data sh)) Panic.

(** The possible results of deleteDirectory: the number of inodes deleted, or an error. *)
Inductive deleteDirectory (cmd : Cmd) (fsId epoch parentInodeId dirInodeId : Z) (name : string)
    (threads : Z) (s : RpcState W) : RpcState W → res error Z → Prop :=
| delete_ok sh t :
    rtc (deleteDirectoryAndData cmd fsId epoch (Z.to_nat threads))
      (start (new_summary s) (named_dir parentInodeId dirInodeId name)) (sh, t) →
    returned t = Some None →
    deleteDirectory cmd fsId epoch parentInodeId dirInodeId name threads s (sum_rpc (data sh))
      (Ok (Inodes (data sh)))
| delete_err sh t e :
    rtc (deleteDirectoryAndData cmd fsId epoch (Z.to_nat threads))
      (start (new_summary s) (named_dir parentInodeId dirInodeId name)) (sh, t) →
    returned t = Some (Some e) →
    deleteDirectory cmd fsId epoch parentInodeId dirInodeId name threads s (sum_rpc (data sh)) (Err e)
| delete_panic sh t :
    rtc (deleteDirectoryAndData cmd fsId epoch (Z.to_nat threads))
      (start (new_summary s) (named_dir parentInodeId dirInodeId name)) (sh, t) →
    crashed t →
    deleteDirectory cmd fsId epoch parentInodeId dirInodeId name threads s (sum_rpc (data sh)) Panic.

End DirOps.
