(* ===== verification/DirSummaryFacts.v ===== *)
(** What GetDirectorySizeAndInodes computes, for every number of threads and every
    interleaving, and that it ends. *)

From Stdlib Require Import Ascii.
From S2P Require Import Prelude GoLib Errno Mds Flags Rpc Operator OperatorFacts MdsSample DirWalk DirWalkFacts DirWalkEnds DirOps.
Local Open Scope Z_scope.

Section Size.
Context {W : Type} `{Proto, ZMapOrder, Grpc W, MDSServiceClient W, Viper}.
Context (cmd : Cmd) (fsId epoch : Z) (isFsCheck : bool).
Notation Sh := (Summary W).

(** The file system that the servers hold: the entries of each directory and the inodes. *)
Context (children : Z → list Dentry) (inode_at : Z → Inode) (I : W → Prop).

(** The servers answer according to it, when they answer with status OK. *)
Definition truthful : Prop :=
  dial_keeps I ∧ (∀ ino, in_Ino (inode_at ino) = ino) ∧
  (∀ ino, honest I (ListDentryRpc (mkListDentry (mkContext epoch false) fsId ino))
            (λ es, es = children ino)) ∧
  (∀ bypass ino, honest I (GetInodeRpc (mkGetInode (mkContext epoch bypass) fsId ino))
                   (λ n, n = inode_at ino)).

Definition entries_of (x : Dentry) : list Dentry := children (de_Ino x).

(** [below root all]: the tree of [root] is finite and [all] are the entries in it. *)
Definition below (root : Dentry) (all : list Dentry) : Prop :=
  Walk entries_of (λ x, [x]) (λ _, []) root all.

(** ** The totals *)

Definition file_size (x : Dentry) : Z :=
  if decide (de_Type x = FileType_FILE) then in_Length (inode_at (de_Ino x)) else 0.
(** A file with several links, which a check of the file system counts once. *)
Definition linked (x : Dentry) : bool :=
  isFsCheck && bool_decide (de_Type x = FileType_FILE) && (2 <=? in_Nlink (inode_at (de_Ino x))).
Definition links (all : list Dentry) : gset Z := list_to_set (de_Ino <$> filter linked all).
Definition single (all : list Dentry) : list Dentry := filter (λ x, negb (linked x)) all.

Definition total_length (all : list Dentry) : Z :=
  foldr (λ x n, file_size x + n) 0 (single all) +
  set_fold (λ ino n, in_Length (inode_at ino) + n) 0 (links all).
Definition total_inodes (all : list Dentry) : Z :=
  Z.of_nat (length (single all)) + Z.of_nat (size (links all)).

(** ** The effect of an entry *)

Definition effect (x : Dentry) (seen : gset Z) : Z * Z * gset Z :=
  if linked x then
    if decide (de_Ino x ∈ seen) then (0, 0, seen) else (file_size x, 1, {[de_Ino x]} ∪ seen)
  else (file_size x, 1, seen).

Lemma wrapu64_plus a b : wrapu64 (wrapu64 a + b) = wrapu64 (a + b).
Proof. unfold wrapu64. by rewrite Zplus_mod_idemp_l. Qed.

Lemma wrap64_wrapu64 z : wrap64 (wrapu64 z) = wrap64 z.
Proof. unfold wrap64, wrapu64. by rewrite Zplus_mod_idemp_l. Qed.

Lemma linked_size x : linked x = true → file_size x = in_Length (inode_at (de_Ino x)).
Proof.
  unfold linked, file_size. rewrite !andb_true_iff, bool_decide_eq_true. intros [[_ ->] _].
  by rewrite decide_True.
Qed.

Lemma charge_plain v x : linked x = false →
  charge effect v x = (wrapu64 (v.1.1 + file_size x), wrapu64 (v.1.2 + 1), v.2).
Proof. intros Hx. unfold charge, effect. by rewrite Hx. Qed.
Lemma charge_seen v x : linked x = true → de_Ino x ∈ v.2 →
  charge effect v x = (wrapu64 (v.1.1 + 0), wrapu64 (v.1.2 + 0), v.2).
Proof. intros Hx Hin. unfold charge, effect. rewrite Hx. by rewrite decide_True. Qed.
Lemma charge_new v x : linked x = true → de_Ino x ∉ v.2 →
  charge effect v x =
    (wrapu64 (v.1.1 + file_size x), wrapu64 (v.1.2 + 1), {[de_Ino x]} ∪ v.2).
Proof. intros Hx Hin. unfold charge, effect. rewrite Hx. by rewrite decide_False. Qed.

Ltac by_in := simpl; rewrite ?elem_of_union, ?elem_of_singleton; intuition congruence.
Ltac charge_one :=
  match goal with
  | |- context [charge effect (?a, ?b, ?c) ?x] =>
      first [rewrite (charge_plain (a, b, c) x) by done
            | rewrite (charge_seen (a, b, c) x) by (done || by_in)
            | rewrite (charge_new (a, b, c) x) by (done || by_in)]; simpl
  end.
Lemma triple_eq {A} (a a' b b' : Z) (c c' : A) :
  a = a' → b = b' → c = c' → (wrapu64 a, wrapu64 b, c) = (wrapu64 a', wrapu64 b', c').
Proof. by intros -> -> ->. Qed.

Lemma effect_comm v x y : charge effect (charge effect v x) y = charge effect (charge effect v y) x.
Proof.
  destruct v as [[l n] seen], (linked x) eqn:Hx, (linked y) eqn:Hy;
    destruct (decide (de_Ino x ∈ seen)), (decide (de_Ino y ∈ seen)).
  4: destruct (decide (de_Ino x = de_Ino y)) as [He|Hne];
       [by unfold charge, effect; rewrite Hx, Hy, (linked_size x), (linked_size y), He by done|].
  all: do 4 charge_one; rewrite ?wrapu64_plus; apply triple_eq; first [lia|done|set_solver].
Qed.

Lemma foldr_sum_snoc (l : list Dentry) x :
  foldr (λ x n, file_size x + n) 0 (l ++ [x]) = foldr (λ x n, file_size x + n) 0 l + file_size x.
Proof. induction l as [|y l IH]; simpl; [lia|]. rewrite IH. lia. Qed.

Lemma links_snoc l x : links (l ++ [x]) = if linked x then {[de_Ino x]} ∪ links l else links l.
Proof.
  unfold links. rewrite filter_app. simpl. destruct (linked x) eqn:Hx.
  - rewrite filter_cons_True by (by rewrite Hx). rewrite fmap_app. simpl. set_solver.
  - rewrite filter_cons_False by (rewrite Hx; by intros []). by rewrite fmap_app, app_nil_r.
Qed.

Lemma single_snoc l x : single (l ++ [x]) = if linked x then single l else single l ++ [x].
Proof.
  unfold single. rewrite filter_app. destruct (linked x) eqn:Hx.
  - rewrite filter_cons_False by (rewrite Hx; by intros []). by rewrite app_nil_r.
  - by rewrite filter_cons_True by (by rewrite Hx).
Qed.

Lemma links_fresh (f : Z → Z) (s : gset Z) i :
  i ∉ s → set_fold (λ j n, f j + n) 0 ({[i]} ∪ s) = f i + set_fold (λ j n, f j + n) 0 s.
Proof.
  intros Hi. rewrite (set_fold_disj_union_strong (=)); [|solve_proper|intros; simpl; lia|set_solver].
  rewrite set_fold_singleton.
  assert (∀ z, set_fold (λ j n, f j + n) z s = z + set_fold (λ j n, f j + n) 0 s) as Hz.
  { intros z. unfold set_fold. simpl. induction (elements s) as [|a l IH]; simpl; [lia|].
    rewrite IH. lia. }
  rewrite Hz. lia.
Qed.

(** A pass over the entries adds the totals. *)
Lemma charges_totals all :
  foldl (charge effect) (0, 0, ∅) all =
    (wrapu64 (total_length all), wrapu64 (total_inodes all), links all).
Proof.
  induction all as [|x all IH] using rev_ind; [done|]. rewrite foldl_app, IH. simpl.
  unfold charge, effect, total_length, total_inodes. simpl. rewrite links_snoc, single_snoc.
  destruct (linked x) eqn:Hx; [case_decide as Hin|]; rewrite !wrapu64_plus.
  - replace ({[de_Ino x]} ∪ links all) with (links all) by set_solver. apply triple_eq; [lia|lia|done].
  - rewrite links_fresh by done. rewrite size_union, size_singleton by set_solver.
    rewrite (linked_size x Hx). apply triple_eq; [lia|lia|done].
  - rewrite foldr_sum_snoc, length_app. simpl. apply triple_eq; [lia|lia|done].
Qed.

(** ** The programs *)

Definition after_get (inode : Inode) : prog Sh :=
  if isFsCheck && (2 <=? in_Nlink inode) then
    then_ (load_or_store (in_Ino inode)) (λ seen : bool,
      if seen then PEnd else count_file (in_Length inode))
  else count_file (in_Length inode).

(** Where the program of an entry may be, with the items it has still to take into account
    and what it has still to add to the counters. *)
Inductive stage : prog Sh → list Dentry → Z * Z → Prop :=
| stage_get x :
    de_Type x = FileType_FILE →
    stage (then_ (by_rpc (GetInode cmd fsId (de_Ino x) (de_Parent x) epoch)) after_get) [x] (0, 0)
| stage_other x : de_Type x ≠ FileType_FILE → stage count_inode [x] (0, 0)
| stage_store x :
    linked x = true →
    stage (then_ (load_or_store (de_Ino x)) (λ seen : bool,
             if seen then PEnd else count_file (file_size x))) [x] (0, 0)
| stage_plain x : linked x = false → stage (count_file (file_size x)) [x] (0, 0)
| stage_length n : stage (count_file n) [] (n, 1)
| stage_inode : stage count_inode [] (0, 1)
| stage_end : stage PEnd [] (0, 0).

Definition view (d : Sh) : Z * Z * gset Z := (Length d, Inodes d, inodeMap d).
Definition Inv (d : Sh) : Prop := I (net (sum_rpc d)).

Lemma stage_entry x : stage (summary_entry cmd fsId epoch isFsCheck x) [x] (0, 0).
Proof. unfold summary_entry. case_decide; [by apply stage_get|by apply stage_other]. Qed.

Lemma other_effect x seen : de_Type x ≠ FileType_FILE → effect x seen = (0, 1, seen).
Proof.
  intros Hx. unfold effect, linked, file_size.
  rewrite bool_decide_false, andb_false_r by done. simpl. by rewrite decide_False.
Qed.

Lemma stage_after_get x : truthful → de_Type x = FileType_FILE → stage (after_get (inode_at (de_Ino x))) [x] (0, 0).
Proof.
  intros (_ & Hino & _) Hx. unfold after_get. rewrite Hino.
  assert (file_size x = in_Length (inode_at (de_Ino x))) as <-
    by (unfold file_size; by rewrite decide_True).
  pose proof (stage_store x) as Hs. pose proof (stage_plain x) as Hp. unfold linked in *.
  rewrite (bool_decide_true (de_Type x = _)), andb_true_r in Hs, Hp by done.
  destruct (isFsCheck && (2 <=? in_Nlink (inode_at (de_Ino x)))); [by apply Hs|by apply Hp].
Qed.

Lemma list_truthful x d d' r :
  truthful → Inv d → list_dentry cmd fsId epoch x d = (d', r) →
  Inv d' ∧ view d' = view d ∧ ∀ es, r = Ok es → es = entries_of x.
Proof.
  intros (Hd & _ & Hl & _) HI. unfold list_dentry, by_rpc, ListDentry.
  destruct (at_server _ _ _ _ _) as [s' r'] eqn:Hs. intros [= <- <-].
  by destruct (at_server_honest I Hd _ _ _ _ _ _ _ _ (Hl _) Hs HI) as (? & _ & ?).
Qed.

Lemma get_truthful x d d' r :
  truthful → Inv d → by_rpc (GetInode cmd fsId (de_Ino x) (de_Parent x) epoch) d = (d', r) →
  Inv d' ∧ view d' = view d ∧ ∀ n, r = Ok n → n = inode_at (de_Ino x).
Proof.
  intros (Hd & _ & _ & Hg) HI. unfold by_rpc, GetInode.
  destruct (at_server _ _ _ _ _) as [s' r'] eqn:Hs. intros [= <- <-].
  by destruct (at_server_honest I Hd _ _ _ _ _ _ _ _ (Hg _ _) Hs HI) as (? & _ & ?).
Qed.

Lemma act_truthful f its δ d d' r :
  truthful → stage (PAct f) its δ → Inv d → f d = (d', r) →
  Inv d' ∧ ∀ q, r = Ok q → ∃ c its' δ', its = c ++ its' ∧ stage q its' δ' ∧
    vadd (view d') δ' = foldl (charge effect) (vadd (view d) δ) c.
Proof.
  intros Ht Hst HI Hf. inversion Hst; subst; simpl in Hf.
  - destruct (by_rpc _ d) as [d1 r1] eqn:Hg. injection Hf as <- <-.
    apply get_truthful in Hg as (HI' & Hv & Hr); [|done..]. split; [done|].
    destruct r1 as [n|e|]; intros q [= <-]. rewrite (Hr n eq_refl), Hv.
    exists [], [x], (0, 0). split_and!; [done|by apply stage_after_get|done].
  - injection Hf as <- <-. split; [done|]. intros q [= <-]. exists [x], [], (0, 0).
    split_and!; [done|constructor|]. simpl. unfold charge. rewrite other_effect by done. simpl.
    unfold vadd. simpl. rewrite !wrapu64_plus. apply triple_eq; [lia|lia|done].
  - injection Hf as <- <-. split; [done|]. intros q [= <-].
    exists [x], [], (if decide (de_Ino x ∈ inodeMap d) then (0, 0) else (file_size x, 1)).
    split; [done|]. simpl.
    destruct (decide (de_Ino x ∈ inodeMap d)) as [Hin|Hin].
    + rewrite bool_decide_true by done. split; [constructor|].
      rewrite charge_seen by done. unfold vadd. simpl. rewrite !wrapu64_plus.
      apply triple_eq; [lia|lia|set_solver].
    + rewrite bool_decide_false by done. split; [constructor|].
      rewrite charge_new by done. unfold vadd. simpl. rewrite !wrapu64_plus.
      apply triple_eq; [lia|lia|done].
  - injection Hf as <- <-. split; [done|]. intros q [= <-]. exists [x], [], (0, 1).
    split_and!; [done|constructor|]. simpl. rewrite charge_plain by done. unfold vadd. simpl.
    rewrite !wrapu64_plus. apply triple_eq; [lia|lia|done].
  - injection Hf as <- <-. split; [done|]. intros q [= <-]. exists [], [], (0, 1).
    split_and!; [done|constructor|]. simpl. unfold vadd. simpl.
    rewrite !wrapu64_plus. apply triple_eq; [lia|lia|done].
  - injection Hf as <- <-. split; [done|]. intros q [= <-]. exists [], [], (0, 0).
    split_and!; [done|constructor|]. simpl. unfold vadd. simpl.
    rewrite !wrapu64_plus. apply triple_eq; [lia|lia|done].
Qed.

(** The size of a directory.  Whatever the number of threads and the interleaving of the
    goroutines, when the servers answer truthfully and the function returns without an
    error it returns the totals over the tree below the directory: the lengths of the
    files, and the number of entries and the directory itself; a check of the file system
    counts a file with several links once.  Both are modulo 2^64, as signed numbers. *)
Lemma size_run (dirInode threads : Z) (s s' : RpcState W)
    (v : Z * Z) (all : list Dentry) :
  truthful → I (net s) → below (root_dir dirInode) all →
  GetDirectorySizeAndInodes cmd fsId dirInode isFsCheck epoch threads s s' (Ok v) →
  v = (wrap64 (total_length all), wrap64 (total_inodes all + 1)) ∧ I (net s').
Proof.
  intros Ht HI Hall Hrun. inversion Hrun as [sh t Hsteps Hret| |]; subst.
  destruct (walk_done (list_dentry cmd fsId epoch) (summary_entry cmd fsId epoch isFsCheck)
    summary_final cancel_scan (Z.to_nat threads) view Inv entries_of (λ x, [x]) (λ _, []) effect stage
    (λ x d d' r, list_truthful x d d' r Ht) stage_entry (λ _, stage_end)
    (λ its δ Hst, ltac:(inversion Hst; done)) (λ f its δ d d' r, act_truthful f its δ d d' r Ht)
    (new_summary s) (root_dir dirInode) sh t all) as [HI' Hv];
    [intros; apply effect_comm|done..|].
  split; [|done].
  change (vadd (view (new_summary s)) (0, 0)) with (0, 0, ∅ : gset Z) in Hv.
  rewrite charges_totals in Hv. unfold vadd, view in Hv. simpl in Hv.
  rewrite !Z.add_0_r in Hv. injection Hv as Hl Hn _.
  rewrite <-(wrap64_wrapu64 (Length _)), <-(wrapu64_plus (Inodes _)), Hl, Hn.
  by rewrite wrapu64_plus, !wrap64_wrapu64.
Qed.


(** ** It ends *)

(** No directory is below itself. *)
Definition acyclic (rank : Z → nat) : Prop := ∀ ino y,
  y ∈ children ino → is_dir y = true → (rank (de_Ino y) < rank ino)%nat.

Lemma bounded_mono (q : prog Sh) n m : bounded Inv q n → (n ≤ m)%nat → bounded Inv q m.
Proof.
  revert q m. induction n as [|n IH]; intros q m Hq Hm; inversion Hq as [|f k Hf]; subst;
    try constructor. destruct m as [|m]; [lia|]. constructor. intros d d' r HI Hfd.
  destruct (Hf d d' r HI Hfd) as [HI' Hb]. split; [done|]. intros p Hp. apply IH; [by apply Hb|lia].
Qed.

Lemma bounded_then {A} (m : Sh → Sh * res error A) (k : A → prog Sh) n :
  (∀ d d' r, Inv d → m d = (d', r) → Inv d') → (∀ a, bounded Inv (k a) n) →
  bounded Inv (then_ m k) (S n).
Proof.
  intros Hm Hk. constructor. intros d d' r HI. destruct (m d) as [d1 r1] eqn:Hd.
  intros [= <- <-]. split; [by eapply Hm|]. intros q. by destruct r1; intros [= <-].
Qed.

Lemma bounded_count_file n : bounded Inv (count_file n) 2.
Proof.
  apply bounded_then; [by intros d d' r HI [= <- <-]|]. intros _.
  apply bounded_then; [by intros d d' r HI [= <- <-]|]. intros _. constructor.
Qed.

Lemma bounded_entry x : truthful → bounded Inv (summary_entry cmd fsId epoch isFsCheck x) 4.
Proof.
  intros Ht. unfold summary_entry. case_decide.
  - apply bounded_then; [intros d d' r HI Hd; by apply get_truthful in Hd as (? & _)|].
    intros n. destruct (isFsCheck && _).
    + apply bounded_then; [by intros d d' r HI [= <- <-]|]. intros [|]; [constructor|].
      apply bounded_count_file.
    + eapply bounded_mono; [apply bounded_count_file|lia].
  - eapply bounded_mono; [apply (bounded_then _ _ 0)|lia]; [by intros d d' r HI [= <- <-]|].
    intros _. constructor.
Qed.

Lemma ends rank (threads : nat) root s :
  truthful → I (net s) → acyclic rank →
  ∃ n, ∀ k c, nsteps (GetDirSummarySize cmd fsId epoch isFsCheck threads) k
    (start (new_summary s) root) c → (k ≤ n)%nat.
Proof.
  intros Ht HI Hr.
  assert (∀ x d d' r, Inv d → list_dentry cmd fsId epoch x d = (d', r) →
    Inv d' ∧ ∀ es, r = Ok es → es = entries_of x) as Hlist.
  { intros x d d' r HI' Hd. by apply list_truthful in Hd as (? & _ & ?). }
  destruct (Cost_exists _ _ summary_final Inv entries_of Hlist 4 (λ x, bounded_entry x Ht)
    (λ _, B_end _ _) (λ x, rank (de_Ino x)) (λ x, Hr (de_Ino x)) root) as [n Hn].
  exists n. intros k c.
  apply (walk_bounded _ _ _ _ _ Inv entries_of Hlist 4 (λ x, bounded_entry x Ht) (λ _, B_end _ _));
    [done|by apply new_call_Budget].
Qed.

(** The tree below a directory is finite. *)
Lemma below_exists rank root : acyclic rank → ∃ all, below root all.
Proof.
  intros Hr. remember (rank (de_Ino root)) as k eqn:Hk. revert root Hk.
  induction (lt_wf k) as [k _ IH]. intros x ->.
  assert (∀ es, (∀ y, y ∈ es → y ∈ entries_of x) →
    ∃ l, Walks entries_of (λ x, [x]) (λ _, []) es l) as Hes.
  { intros es. induction es as [|y es IHes]; intros Hin; [eexists; constructor|].
    destruct IHes as [l Hl]; [set_solver|]. destruct (is_dir y) eqn:Hy.
    - destruct (IH (rank (de_Ino y))) with (root := y) as [m Hm]; [apply Hr; set_solver|done|].
      eexists. by apply Walks_dir.
    - eexists. by apply Walks_file. }
  destruct (Hes (entries_of x)) as [l Hl]; [done|]. eexists. by constructor.
Qed.

(** ** Servers that answer *)

(** Every connection is made and every request is answered with status OK; the router knows
    a server with a location for every inode, and the flags of the command are there. *)
Definition answering (r : MDSRouter) : Prop :=
  dial_connects I ∧
  (∀ ino, answered I (ListDentryRpc (mkListDentry (mkContext epoch false) fsId ino))) ∧
  (∀ bypass ino, answered I (GetInodeRpc (mkGetInode (mkContext epoch bypass) fsId ino))) ∧
  (∀ ino, ∃ d l, router_GetMDS ino r = Ok (Some d) ∧ mds_Location d = Some l) ∧
  (∀ a name, ∃ rpc, CreateNewMdsRpcWithEndPoint cmd a name = Ok rpc).

Definition Ready (r : MDSRouter) (d : Sh) : Prop :=
  I (net (sum_rpc d)) ∧ mdsRouter (sum_rpc d) = Some r.

Lemma at_server_answers {A} r owner name (f : RpcFunc A) (d : Sh) :
  answering r → answered I f → Ready r d →
  ∃ d' a, by_rpc (at_server cmd owner name f) d = (d', Ok a) ∧ Ready r d'.
Proof.
  intros (Hd & _ & _ & Hroute & Hflags) Hf [HI Hr].
  destruct (Hroute owner) as (srv & l & Hm & Hl), (Hflags [location_text l] name) as [rpc Hrpc].
  destruct (request_answered I cmd owner name f r srv l rpc (sum_rpc d) Hd Hf Hr Hm Hl Hrpc HI)
    as (s' & a & Hs & HI' & Hr').
  exists (set_rpc s' d), a. unfold by_rpc. rewrite Hs. split; [done|]. split; [done|].
  simpl. congruence.
Qed.

Lemma safe_then {A} r (m : Sh → Sh * res error A) (k : A → prog Sh) :
  (∀ d, Ready r d → ∃ d' a, m d = (d', Ok a) ∧ Ready r d') → (∀ a, safe (Ready r) (k a)) →
  safe (Ready r) (then_ m k).
Proof.
  intros Hm Hk. constructor. intros d HJ. destruct (Hm d HJ) as (d' & a & -> & HJ').
  by exists d', (k a).
Qed.

Lemma safe_count_file r n : safe (Ready r) (count_file n).
Proof.
  apply safe_then; [intros d HJ; by eexists _, ()|]. intros _.
  apply safe_then; [intros d HJ; by eexists _, ()|]. intros _. constructor.
Qed.

Lemma safe_entry r x : answering r → safe (Ready r) (summary_entry cmd fsId epoch isFsCheck x).
Proof.
  intros Ha. unfold summary_entry. case_decide.
  - apply safe_then.
    + intros d HJ. apply (at_server_answers r); [done|apply Ha|done].
    + intros n. destruct (isFsCheck && _); [|apply safe_count_file].
      apply safe_then; [intros d HJ; by eexists _, _|]. intros [|]; [constructor|].
      apply safe_count_file.
  - apply safe_then; [intros d HJ; by eexists _, ()|]. intros _. constructor.
Qed.

Lemma list_safe r x d : answering r → Ready r d →
  ∃ d' es, list_dentry cmd fsId epoch x d = (d', Ok es) ∧ Ready r d'.
Proof. intros Ha HJ. apply (at_server_answers r); [done|apply Ha|done]. Qed.

(** There is a run. *)
Lemma run_exists rank r dirInode threads s :
  truthful → answering r → acyclic rank → I (net s) → mdsRouter s = Some r →
  ∃ s' v, GetDirectorySizeAndInodes cmd fsId dirInode isFsCheck epoch threads s s' (Ok v).
Proof.
  intros Ht Ha Hacyc HI Hr.
  destruct (ends rank (Z.to_nat threads) (root_dir dirInode) s Ht HI Hacyc) as [n Hn].
  destruct (walk_returns (list_dentry cmd fsId epoch) (summary_entry cmd fsId epoch isFsCheck)
    summary_final cancel_scan (Z.to_nat threads) (Ready r) (λ x d, list_safe r x d Ha)
    (λ x, safe_entry r x Ha) (λ _, safe_end _) (new_summary s) (root_dir dirInode) n) as (sh & t & Hs & Ht');
    [by split|done|].
  eexists _, _. by eapply size_ok.
Qed.

(** C35: Concurrency.  At every point of every interleaving, at most [threads] goroutines are
    between taking and giving back their place in the channel, and as many places are in
    use - also with errors, and after the function has returned. *)
Theorem GetDirSummarySize_goroutines (threads : nat) (s : RpcState W) (root : Dentry) sh t :
  rtc (GetDirSummarySize cmd fsId epoch isFsCheck threads) (start (new_summary s) root) (sh, t) →
  slots sh = running t ∧ (running t ≤ threads)%nat.
Proof. apply walk_goroutines. Qed.

(** C7: Total correctness of the size of a directory.  On a file system without cycles whose
    servers answer truthfully and always, every run of the goroutines is finite - there is a
    bound on its steps -, and a run that cannot go on has returned the totals over the tree
    below the directory: the walk neither fails nor blocks, whatever the number of threads
    (also zero) and the interleaving. *)
Theorem GetDirectorySizeAndInodes_returns (rank : Z → nat) (r : MDSRouter) (dirInode threads : Z)
    (s : RpcState W) :
  truthful → answering r → acyclic rank → I (net s) → mdsRouter s = Some r →
  ∃ all n, below (root_dir dirInode) all ∧
    ∀ k c, nsteps (GetDirSummarySize cmd fsId epoch isFsCheck (Z.to_nat threads)) k
             (start (new_summary s) (root_dir dirInode)) c →
      (k ≤ n)%nat ∧
      ((∀ c', ¬ GetDirSummarySize cmd fsId epoch isFsCheck (Z.to_nat threads) c c') →
       GetDirectorySizeAndInodes cmd fsId dirInode isFsCheck epoch threads s (sum_rpc (data c.1))
         (Ok (wrap64 (total_length all), wrap64 (total_inodes all + 1)))).
Proof.
  intros Ht Ha Hacyc HI Hr.
  destruct (below_exists rank (root_dir dirInode) Hacyc) as [all Hall].
  destruct (ends rank (Z.to_nat threads) (root_dir dirInode) s Ht HI Hacyc) as [n Hn].
  exists all, n. split; [done|]. intros k [sh t] Hk. split; [by eapply Hn|].
  intros Hstuck.
  assert (rtc (GetDirSummarySize cmd fsId epoch isFsCheck (Z.to_nat threads))
    (start (new_summary s) (root_dir dirInode)) (sh, t)) as Hs by (apply rtc_nsteps; eauto).
  assert (returned t = Some None) as Hret.
  { eapply (walk_succeeds _ _ summary_final _ _ (Ready r)) with (d := new_summary s); [..|exact Hs|done].
    - intros x d. by apply list_safe.
    - intros x. by apply safe_entry.
    - constructor.
    - done. }
  pose proof (size_ok _ _ _ _ _ _ _ _ _ Hs Hret) as Hrun.
  destruct (size_run _ _ _ _ _ _ Ht HI Hall Hrun) as [Hv _]. by rewrite <-Hv.
Qed.

End Size.

(** * Examples *)

Section Examples.
#[local] Existing Instances sample_proto canonical_zorder sample_grpc sample_client sample_viper.

Lemma sample_truthful fsId epoch :
  @truthful nat _ _ _ fsId epoch sample_children sample_inode (λ _, True).
Proof.
  split_and!.
  - apply sample_dial_keeps.
  - intros ino. unfold sample_inode. by repeat case_decide; subst.
  - intros ino. apply sample_honest. by intros c w r [= <-].
  - intros b ino. apply sample_honest. by intros c w r [= <-].
Qed.

Lemma sample_answering cmd fsId epoch r :
  (∀ ino, ∃ d l, router_GetMDS ino r = Ok (Some d) ∧ mds_Location d = Some l) →
  (∀ a name, ∃ rpc, CreateNewMdsRpcWithEndPoint cmd a name = Ok rpc) →
  @answering nat _ _ _ _ cmd fsId epoch (λ _, True) r.
Proof.
  intros Hr Hc. split_and!; [apply sample_dial_connects| | |done|done].
  - intros ino c w _. by eexists _, _.
  - intros b ino c w _. by eexists _, _.
Qed.

Lemma sample_cmd_answering : answering sample_cmd 5 0 (λ _, True) sample_router.
Proof.
  apply sample_answering; [intros ino; eexists _, _; by split|].
  intros a name. eexists. by vm_compute.
Qed.

Definition sample_rank (ino : Z) : nat := if decide (ino = 1) then 1 else 0.
Lemma sample_acyclic : acyclic sample_children sample_rank.
Proof.
  intros ino y Hy Hd. unfold sample_children in Hy. repeat case_decide; subst;
    repeat (apply elem_of_cons in Hy as [-> |Hy]; [revert Hd; vm_compute; (done || lia)|]);
    by apply not_elem_of_nil in Hy.
Qed.

Definition sample_below : list Dentry :=
  match sample_children 1 with
  | [a; d; s] => [a; d] ++ sample_children 3 ++ [s]
  | _ => []
  end.
Lemma sample_below_root : below sample_children (root_dir 1) sample_below.
Proof.
  assert (∃ all, below sample_children (root_dir 1) all ∧ all = sample_below) as (? & ? & <-); [|done].
  eexists. split; [|shelve]. constructor.
  apply Walks_file; [done|]. apply Walks_dir; [done| |apply Walks_file; [done|constructor]].
  constructor. do 2 (apply Walks_file; [done|]). constructor.
  Unshelve. by vm_compute.
Qed.

(** A check of the file system: the file with two links counts once. *)
Example sample_size :
  ∃ s', GetDirectorySizeAndInodes sample_cmd 5 1 true 0 8 sample_state s' (Ok (110, 5)).
Proof.
  destruct (run_exists sample_cmd 5 0 true sample_children sample_inode (λ _, True) sample_rank
    sample_router 1 8 sample_state (sample_truthful 5 0) sample_cmd_answering sample_acyclic I eq_refl)
    as (s' & v & Hrun).
  exists s'.
  destruct (size_run sample_cmd 5 0 true sample_children sample_inode (λ _, True)
    1 8 sample_state s' v sample_below (sample_truthful 5 0) I sample_below_root Hrun) as [-> _].
  exact Hrun.
Qed.

Lemma GetDirSummarySize_goroutines_witness :
  ∃ sh t, rtc (GetDirSummarySize sample_cmd 5 0 true 8) (start (new_summary sample_state) (root_dir 1)) (sh, t) ∧
    returned t = Some None ∧ slots sh = running t ∧ (running t ≤ 8)%nat.
Proof.
  destruct sample_size as (s' & Hrun). inversion Hrun as [sh t Hs Hr| |].
  repeat match goal with E : _ = 5 |- _ => rewrite E in Hs |- *; clear E end. exists sh, t.
  destruct (GetDirSummarySize_goroutines sample_cmd 5 0 true 8 sample_state (root_dir 1) sh t Hs) as [H1 H2].
  exact (conj Hs (conj Hr (conj H1 H2))).
Defined.

Lemma GetDirectorySizeAndInodes_returns_witness :
  ∃ all n, below sample_children (root_dir 1) all ∧
    ∀ k c, nsteps (GetDirSummarySize sample_cmd 5 0 false 0)
             k (start (new_summary sample_state) (root_dir 1)) c →
      (k ≤ n)%nat ∧
      ((∀ c', ¬ GetDirSummarySize sample_cmd 5 0 false 0 c c') →
       GetDirectorySizeAndInodes sample_cmd 5 1 false 0 0 sample_state (sum_rpc (data c.1))
         (Ok (wrap64 (total_length false sample_inode all), wrap64 (total_inodes false sample_inode all + 1)))).
Proof.
  exact (GetDirectorySizeAndInodes_returns sample_cmd 5 0 false sample_children sample_inode (λ _, True)
    sample_rank sample_router 1 0 sample_state (sample_truthful 5 0) sample_cmd_answering sample_acyclic I eq_refl).
Defined.

End Examples.
