(* ===== verification/DirCmd.v ===== *)
(** Commands on directories: quotas of directories and of file systems (src/cli/command/fs:
    quota/set.go, get.go, delete.go, check.go, list.go, config/set.go, get.go, check.go),
    subpaths (subpath/create.go, delete.go) and the usage of file systems (usage.go).

    A command that walks a directory has as many results as the walk: such a command is a
    relation between the state before, the state after and the result. *)

From Stdlib Require Import Ascii.
From S2P Require Import Prelude GoLib Errno Utils Mds Table Flags Rpc Operator FsCmd DirWalk DirOps.
Local Open Scope Z_scope.

(** * Commands with several results *)

Definition run (St A : Type) : Type := St → St → res error A → Prop.
#[export] Instance run_ret {St} : MRet (run St) := λ A a s s' r, s' = s ∧ r = Ok a.
#[export] Instance run_bind {St} : MBind (run St) := λ A B f m s s' r,
  (∃ s1 a, m s s1 (Ok a) ∧ f a s1 s' r) ∨ (∃ e, m s s' (Err e) ∧ r = Err e) ∨ (m s s' Panic ∧ r = Panic).
Definition lift {St A} (m : eff error St A) : run St A := λ s s' r, m s = (s', r).
Definition pure_run {St A} (r : res error A) : run St A := lift (pure_eff r).

(** ** Paths *)

(** [filepath.Base] and [filepath.Dir]. *)
Definition path_Base (p : string) : string :=
  if decide (p = EmptyString) then "."
  else
    match reverse (filter (λ e, e ≠ EmptyString) (Split p slash)) with
    | name :: _ => name
    | [] => "/"
    end.
Definition path_Dir (p : string) : string :=
  match reverse (Split p slash) with
  | _ :: (e :: es) => path_Clean (Join (reverse (e :: es)) "/" +:+ "/")
  | _ => "."
  end.

(** ** Flags *)

Definition add_fs_flags (c : Cmd) : res error Cmd :=
  c ← declare DINGOFS_FSID (FUint32 0) c; declare DINGOFS_FSNAME (FString EmptyString) c.
Definition add_quota_flags (c : Cmd) : res error Cmd :=
  c ← declare DINGOFS_QUOTA_CAPACITY (FUint64 0) c; declare DINGOFS_QUOTA_INODES (FUint64 0) c.

Definition NewQuotaSetCommand : res error Cmd :=
  c ← add_fs_flags empty_cmd;
  c ← add_quota_flags c;
  c ← declare DINGOFS_THREADS (FUint32 8) c;
  c ← AddStringRequiredFlag DINGOFS_QUOTA_PATH c;
  add_rpc_flags c.
Definition NewQuotaGetCommand : res error Cmd :=
  c ← add_fs_flags empty_cmd; c ← AddStringRequiredFlag DINGOFS_QUOTA_PATH c; add_rpc_flags c.
Definition NewQuotaDeleteCommand : res error Cmd :=
  c ← add_fs_flags empty_cmd; c ← AddStringRequiredFlag DINGOFS_QUOTA_PATH c; add_rpc_flags c.
Definition NewQuotaCheckCommand : res error Cmd :=
  c ← add_fs_flags empty_cmd;
  c ← AddStringRequiredFlag DINGOFS_QUOTA_PATH c;
  c ← declare DINGOFS_THREADS (FUint32 8) c;
  c ← declare DINGOFS_QUOTA_REPAIR (FBool false) c;
  add_rpc_flags c.
Definition NewQuotaListCommand : res error Cmd := c ← add_fs_flags empty_cmd; add_rpc_flags c.
Definition NewFsQuotaSetCommand : res error Cmd :=
  c ← add_fs_flags empty_cmd; c ← add_quota_flags c; add_rpc_flags c.
Definition NewFsQuotaGetCommand : res error Cmd := c ← add_fs_flags empty_cmd; add_rpc_flags c.
Definition NewFsQuotaCheckCommand : res error Cmd :=
  c ← add_fs_flags empty_cmd;
  c ← declare DINGOFS_THREADS (FUint32 8) c;
  c ← declare DINGOFS_QUOTA_REPAIR (FBool false) c;
  add_rpc_flags c.
Definition NewSubpathCreateCommand : res error Cmd :=
  c ← AddUint32Flag DINGOFS_FSID empty_cmd;
  c ← AddStringFlag DINGOFS_FSNAME c;
  c ← AddStringRequiredFlag DINGOFS_QUOTA_PATH c;
  c ← AddUint32Flag DINGOFS_SUBPATH_UID c;
  c ← AddUint32Flag DINGOFS_SUBPATH_GID c;
  add_rpc_flags c.
Definition NewSubpathDeleteCommand : res error Cmd :=
  c ← AddUint32Flag DINGOFS_FSID empty_cmd;
  c ← AddStringFlag DINGOFS_FSNAME c;
  c ← AddStringRequiredFlag DINGOFS_QUOTA_PATH c;
  c ← AddUint32Flag DINGOFS_THREADS c;
  add_rpc_flags c.
Definition NewFsUsageCommand : res error Cmd :=
  c ← AddUint32Flag DINGOFS_FSID empty_cmd;
  c ← AddStringFlag DINGOFS_FSNAME c;
  c ← AddUint32Flag DINGOFS_THREADS c;
  c ← AddBoolFlag DINGOFS_HUMANIZE c;
  add_rpc_flags c.

(** * Commands *)

Section Commands.
Context {W : Type} `{Proto, ZMapOrder, Grpc W, MDSServiceClient W, Viper, Texts}.
Context (env_CONF home : string).
Notation call A := (eff error (RpcState W) A).
Notation run A := (run (RpcState W) A).

(** The epoch, the router and the directory of a path. *)
Definition locate (c : Cmd) (fsid : Z) (path : string) : call (Z * Z) :=
  epoch ← GetFsEpochByFsId c fsid;
  _ ← InitFsMDSRouter c fsid;
  dirInodeId ← GetDirPathInodeId c fsid path epoch;
  mret (epoch, dirInodeId).

(** A request to the server of [owner], as a result. *)
Definition call_owner {A} (c : Cmd) (owner : Z) (name : string) (f : RpcFunc A)
    : call (OutputResult (Response A)) :=
  endpoint ← GetEndPoint owner;
  mdsRpc ← pure_eff (CreateNewMdsRpcWithEndPoint c endpoint name);
  call_result mdsRpc f.

(** ** Quotas of directories *)

Record quota_options : Type := mkQuotaOptions {
  qo_fsid : Z; qo_path : string; qo_threads : Z; qo_repair : bool; qo_capacity : Z; qo_inodes : Z;
  qo_format : string;
}.

Definition quota_set_options (c : Cmd) : call quota_options :=
  _ ← pure_eff (read_config env_CONF home c);
  fsid ← GetFsId c;
  threads ← pure_eff (pflag_GetUint32 c DINGOFS_THREADS);
  path ← pure_eff (GetStringFlag c DINGOFS_QUOTA_PATH);
  q ← pure_eff (GetQuotaFlags c);
  format ← pure_eff (GetStringFlag c FORMAT);
  mret (mkQuotaOptions fsid path threads false q.1 q.2 format).

Definition quota_runSet (c : Cmd) (o : quota_options) : run (printed (Response unit)) :=
  q ← pure_run (GetQuotaFlags c);
  l ← lift (locate c (qo_fsid o) (qo_path o));
  let '(epoch, dirInodeId) := l in
  endpoint ← lift (GetEndPoint dirInodeId);
  mdsRpc ← pure_run (CreateNewMdsRpcWithEndPoint c endpoint "SetDirQuota");
  used ← GetDirectorySizeAndInodes c (qo_fsid o) dirInodeId false epoch (qo_threads o);
  let quota := mkQuota q.1 q.2 used.1 used.2 in
  r ← lift (call_result mdsRpc
    (SetDirQuotaRpc (mkSetDirQuota (mkContext epoch false) (qo_fsid o) dirInodeId quota)));
  pure_run (print_result (qo_format o) r (λ _,
    Prompt ("Successfully set directory[" +:+ qo_path o +:+ "] quota, capacity: " +:+
            IBytes (wrapu64 (qo_capacity o)) +:+ ", inodes: " +:+ Comma (qo_inodes o)))).

Definition quota_set (c : Cmd) : run (printed (Response unit)) :=
  o ← lift (quota_set_options c); quota_runSet c o.

Definition quota_path_options (c : Cmd) : call quota_options :=
  _ ← pure_eff (read_config env_CONF home c);
  fsid ← GetFsId c;
  path ← pure_eff (GetStringFlag c DINGOFS_QUOTA_PATH);
  format ← pure_eff (GetStringFlag c FORMAT);
  mret (mkQuotaOptions fsid path 0 false 0 0 format).

(** The quota of a directory, as a result that holds a response only when all is well. *)
Definition result_or_error {A} (r : OutputResult (Response A)) : OutputResult (Response A) :=
  match or_Error r with Some e => mkOutputResult (Some e) None | None => r end.
Definition GetDirQuotaData (c : Cmd) (fsId dirInodeId epoch : Z) : call (OutputResult (Response Quota)) :=
  r ← call_owner c dirInodeId "GetDirQuota"
        (GetDirQuotaRpc (mkGetDirQuota (mkContext epoch false) fsId dirInodeId true));
  mret (result_or_error r).

Definition quota_cells (quota : Quota) : list (string * string) :=
  zip [ROW_CAPACITY; ROW_USED; ROW_USED_PERCNET; ROW_INODES; ROW_INODES_IUSED; ROW_INODES_PERCENT]
      (ConvertQuotaToHumanizeValue (wrapu64 (MaxBytes quota)) (UsedBytes quota)
         (wrapu64 (MaxInodes quota)) (UsedInodes quota)).
Definition quota_columns : list string :=
  [ROW_CAPACITY; ROW_USED; ROW_USED_PERCNET; ROW_INODES; ROW_INODES_IUSED; ROW_INODES_PERCENT].

Definition quota_get (c : Cmd) : call (printed (Response Quota)) :=
  o ← quota_path_options c;
  l ← locate c (qo_fsid o) (qo_path o);
  let '(epoch, dirInodeId) := l in
  r ← GetDirQuotaData c (qo_fsid o) dirInodeId epoch;
  pure_eff (print_result (qo_format o) r (λ quota,
    let header := [ROW_INODE_ID; ROW_PATH] ++ quota_columns in
    let cells := [(ROW_INODE_ID, Itoa dirInodeId); (ROW_PATH, qo_path o)] ++ quota_cells quota in
    RenderWithNoData header [Map2List (list_to_map cells) header] "no directory quota set")).

Definition quota_delete (c : Cmd) : call (printed (Response unit)) :=
  o ← quota_path_options c;
  l ← locate c (qo_fsid o) (qo_path o);
  let '(epoch, dirInodeId) := l in
  r ← call_owner c dirInodeId "DeleteDirQuota"
        (DeleteDirQuotaRpc (mkDeleteDirQuota (mkContext epoch false) (qo_fsid o) dirInodeId));
  pure_eff (print_result (qo_format o) r (λ _,
    Prompt ("Successfully delete directory[" +:+ qo_path o +:+ "] quota"))).

Definition check_columns (id name : string) : list string :=
  [id; name; ROW_CAPACITY; ROW_USED; ROW_REAL_USED; ROW_INODES; ROW_INODES_IUSED; ROW_INODES_REAL_IUSED;
   ROW_STATUS].
Definition check_table (id name idValue nameValue prompt : string) (checkResult : list string) : shown :=
  let header := check_columns id name in
  RenderWithNoData header [Map2List (list_to_map (zip header (idValue :: nameValue :: checkResult))) header]
    prompt.

(** The repair of a quota: any failure, and a status other than OK, is an error. *)
Definition repair_quota (c : Cmd) (name : string) (f : RpcFunc unit) : call () :=
  mdsRpc ← pure_eff (CreateNewMdsRpc c name);
  request mdsRpc f.

(** The part of a check behind the quota: with JSON the answer is printed and nothing is
    compared; otherwise the usage is computed, and either a wrong one is repaired or the
    comparison is shown. *)
Definition check_usage (format : string) (repair : bool) (r : OutputResult (Response Quota))
    (usage : run (Z * Z)) (fix_it : Z * Z → call ()) (done : string) (show : list string → shown)
    : run (printed (Response Quota)) :=
  if decide (format = "json") then mret (Json r)
  else
    match or_Error r, or_Result r with
    | Some e, _ => pure_run (Err e)
    | None, None => pure_run Panic
    | None, Some response =>
        let quota := body response in
        used ← usage;
        let '(checkResult, ok) :=
          CheckQuota Comma RedString (MaxBytes quota) (UsedBytes quota) (MaxInodes quota) (UsedInodes quota)
            used.1 used.2 in
        if repair && negb ok then
          _ ← lift (fix_it used);
          mret (Shown (Prompt done))
        else mret (Shown (show checkResult))
    end.

Definition quota_check_options (c : Cmd) : call quota_options :=
  _ ← pure_eff (read_config env_CONF home c);
  fsid ← GetFsId c;
  path ← pure_eff (GetStringFlag c DINGOFS_QUOTA_PATH);
  threads ← pure_eff (pflag_GetUint32 c DINGOFS_THREADS);
  repair ← pure_eff (pflag_GetBool c DINGOFS_QUOTA_REPAIR);
  format ← pure_eff (GetStringFlag c FORMAT);
  mret (mkQuotaOptions fsid path threads repair 0 0 format).

Definition quota_runCheck (c : Cmd) (o : quota_options) : run (printed (Response Quota)) :=
  l ← lift (locate c (qo_fsid o) (qo_path o));
  let '(epoch, dirInodeId) := l in
  r ← lift (GetDirQuotaData c (qo_fsid o) dirInodeId epoch);
  check_usage (qo_format o) (qo_repair o) r
    (GetDirectorySizeAndInodes c (qo_fsid o) dirInodeId false epoch (qo_threads o))
    (λ used, repair_quota c "SetDirQuota" (SetDirQuotaRpc
       (mkSetDirQuota (mkContext epoch true) (qo_fsid o) dirInodeId (mkQuota 0 0 used.1 used.2))))
    "Successfully repair dir inconsistent quota"
    (check_table ROW_INODE_ID ROW_NAME (Itoa dirInodeId) (qo_path o) "no dir quota found").

Definition quota_check (c : Cmd) : run (printed (Response Quota)) :=
  o ← lift (quota_check_options c); quota_runCheck c o.

(** The rows of the list of quotas, in the order of the map of quotas; a directory without a
    path is left out.  [fuel] bounds the number of levels of a directory; [None] when it was
    not enough. *)
Definition quota_row (dirInode : Z) (dirPath : string) (quota : Quota) : row :=
  list_to_map ([(ROW_INODE_ID, Itoa dirInode); (ROW_PATH, dirPath)] ++ quota_cells quota).
Fixpoint quota_rows (fuel : nat) (c : Cmd) (fsid epoch : Z) (l : list (Z * Quota))
    : call (option (list row)) :=
  match l with
  | [] => mret (Some [])
  | (dirInode, quota) :: l =>
      o ← GetInodePath fuel c fsid dirInode epoch;
      match o with
      | None => mret None
      | Some (dirPath, _) =>
          rest ← quota_rows fuel c fsid epoch l;
          mret (rows ← rest;
                Some (if decide (dirPath = EmptyString) then rows
                      else quota_row dirInode dirPath quota :: rows))
      end
  end.

Definition quota_list (fuel : nat) (c : Cmd) : call (option (printed (Response (gmap Z Quota)))) :=
  _ ← pure_eff (read_config env_CONF home c);
  fsid ← GetFsId c;
  format ← pure_eff (GetStringFlag c FORMAT);
  mdsRpc ← pure_eff (CreateNewMdsRpc c "LoadDirQuotas");
  epoch ← GetFsEpochByFsId c fsid;
  _ ← InitFsMDSRouter c fsid;
  r ← call_result mdsRpc (ListDirQuotaRpc (mkLoadDirQuotas (mkContext epoch false) fsid));
  if decide (format = "json") then mret (Some (Json r))
  else
    match or_Error r, or_Result r with
    | Some e, _ => pure_eff (Err e)
    | None, None => pure_eff Panic
    | None, Some response =>
        o ← quota_rows fuel c fsid epoch (zrange (body response));
        let header := [ROW_INODE_ID; ROW_PATH] ++ quota_columns in
        mret (rows ← o;
              Some (Shown (RenderWithNoData header (ListMap2ListSortByKeys rows header [ROW_PATH])
                             "no directory quota found")))
    end.

(** ** Quotas of file systems *)

Definition fs_quota_set (c : Cmd) : call (printed (Response unit)) :=
  _ ← pure_eff (read_config env_CONF home c);
  fsid ← GetFsId c;
  q ← pure_eff (GetQuotaFlags c);
  format ← pure_eff (GetStringFlag c FORMAT);
  mdsRpc ← pure_eff (CreateNewMdsRpc c "setFsQuota");
  epoch ← GetFsEpochByFsId c fsid;
  r ← call_result mdsRpc (SetFsQuotaRpc (mkSetFsQuota (mkContext epoch true) fsid (mkQuota q.1 q.2 0 0)));
  pure_eff (print_result format r (λ _,
    Prompt ("Successfully config fs quota, capacity: " +:+ IBytes (wrapu64 q.1) +:+ ", inodes: " +:+
            Comma q.2))).

(** Every failure is reported as the error of an rpc. *)
Definition as_rpc_error {A} (m : call A) : call A := λ s,
  match m s with (s, Err _) => (s, Err (ECode ERR_RPC_FAILED)) | r => r end.
Definition GetFsQuotaData (c : Cmd) (fsId : Z) : call (OutputResult (Response Quota)) := λ s,
  match (mdsRpc ← as_rpc_error (pure_eff (CreateNewMdsRpc c "getFsQuota"));
         epoch ← as_rpc_error (GetFsEpochByFsId c fsId);
         r ← call_result mdsRpc (GetFsQuotaRpc (mkGetFsQuota (mkContext epoch true) fsId));
         mret (result_or_error r)) s with
  | (s, Err e) => (s, Ok (mkOutputResult (Some e) None))
  | r => r
  end.

Definition fs_quota_get (c : Cmd) : call (printed (Response Quota)) :=
  _ ← pure_eff (read_config env_CONF home c);
  fsid ← GetFsId c;
  fsname ← GetFsName c;
  format ← pure_eff (GetStringFlag c FORMAT);
  r ← GetFsQuotaData c fsid;
  pure_eff (print_result format r (λ quota,
    let header := [ROW_FS_ID; ROW_FS_NAME] ++ quota_columns in
    let cells := [(ROW_FS_ID, Itoa fsid); (ROW_FS_NAME, fsname)] ++ quota_cells quota in
    RenderWithNoData header [Map2List (list_to_map cells) header] "no fs quota set")).

Definition fs_quota_check_options (c : Cmd) : call (quota_options * string) :=
  _ ← pure_eff (read_config env_CONF home c);
  fsid ← GetFsId c;
  fsname ← GetFsName c;
  threads ← pure_eff (pflag_GetUint32 c DINGOFS_THREADS);
  repair ← pure_eff (pflag_GetBool c DINGOFS_QUOTA_REPAIR);
  format ← pure_eff (GetStringFlag c FORMAT);
  mret (mkQuotaOptions fsid EmptyString threads repair 0 0 format, fsname).

Definition fs_quota_runCheck (c : Cmd) (o : quota_options) (fsname : string) : run (printed (Response Quota)) :=
  epoch ← lift (GetFsEpochByFsId c (qo_fsid o));
  _ ← lift (InitFsMDSRouter c (qo_fsid o));
  r ← lift (GetFsQuotaData c (qo_fsid o));
  check_usage (qo_format o) (qo_repair o) r
    (GetDirectorySizeAndInodes c (qo_fsid o) ROOTINODEID true epoch (qo_threads o))
    (λ used, repair_quota c "setFsQuota" (SetFsQuotaRpc
       (mkSetFsQuota (mkContext epoch true) (qo_fsid o) (mkQuota 0 0 used.1 used.2))))
    "Successfully repair fs inconsistent quota"
    (check_table ROW_FS_ID ROW_FS_NAME (Itoa (qo_fsid o)) fsname "no fs quota set").

Definition fs_quota_check (c : Cmd) : run (printed (Response Quota)) :=
  o ← lift (fs_quota_check_options c); fs_quota_runCheck c o.1 o.2.

(** ** Subpaths *)

Record subpath_options : Type := mkSubpathOptions {
  so_fsid : Z; so_path : string; so_name : string; so_parent : string; so_uid : Z; so_gid : Z;
  so_threads : Z; so_format : string;
}.
Definition DirectoryLength : Z := 4096.
Definition Mode : Z := 16877.

Definition subpath_create_options (c : Cmd) : call subpath_options :=
  _ ← pure_eff (read_config env_CONF home c);
  fsid ← GetFsId c;
  p ← pure_eff (GetStringFlag c DINGOFS_QUOTA_PATH);
  let path := path_Clean p in
  uid ← pure_eff (GetUint32Flag c DINGOFS_SUBPATH_UID);
  gid ← pure_eff (GetUint32Flag c DINGOFS_SUBPATH_GID);
  format ← pure_eff (GetStringFlag c FORMAT);
  mret (mkSubpathOptions fsid path (path_Base path) (path_Dir path) uid gid 0 format).

(** The entry is there: no error.  It is not: an error. *)
Definition os_ErrNotExist : error := EText "file does not exist".
Definition checkPathIsExist (c : Cmd) (fsid : Z) (name : string) (parentId epoch : Z) : call () :=
  entries ← ListDentry c fsid parentId epoch;
  match find_first (λ e, bool_decide (de_Name e = name)) entries with
  | Some _ => mret ()
  | None => pure_eff (Err os_ErrNotExist)
  end.

Definition mkDir (c : Cmd) (o : subpath_options) (parent epoch : Z) : call (OutputResult (Response unit)) :=
  call_owner c parent "MkDir" (MkDirRpc
    (mkMkDir (mkContext epoch false) (so_fsid o) (so_name o) DirectoryLength (so_uid o) (so_gid o) Mode parent)).

Definition create_result (c : Cmd) (o : subpath_options) (parent epoch : Z)
    : call (OutputResult (Response unit)) := λ s,
  match checkPathIsExist c (so_fsid o) (so_name o) parent epoch s with
  | (s, Err _) => (s, Ok (mkOutputResult (Some (ECode ERR_RPC_FAILED)) None))
  | (s, Panic) => (s, Panic)
  | (s, Ok _) => mkDir c o parent epoch s
  end.

Definition subpath_runCreate (c : Cmd) (o : subpath_options) : call (printed (Response unit)) :=
  l ← locate c (so_fsid o) (so_parent o);
  r ← create_result c o l.2 l.1;
  pure_eff (print_result (so_format o) r (λ _, Prompt ("Successfully create directory: " +:+ so_path o))).

Definition subpath_create (c : Cmd) : call (printed (Response unit)) :=
  o ← subpath_create_options c; subpath_runCreate c o.

Definition subpath_delete_options (c : Cmd) : call subpath_options :=
  _ ← pure_eff (read_config env_CONF home c);
  fsid ← GetFsId c;
  p ← pure_eff (GetStringFlag c DINGOFS_QUOTA_PATH);
  let path := path_Clean p in
  threads ← pure_eff (GetUint32Flag c DINGOFS_THREADS);
  format ← pure_eff (GetStringFlag c FORMAT);
  mret (mkSubpathOptions fsid path (path_Base path) (path_Dir path) 0 0 threads format).

Definition GetInodeId (c : Cmd) (fsid : Z) (name : string) (parentId epoch : Z) : call Z :=
  entries ← ListDentry c fsid parentId epoch;
  match find_first (λ e, bool_decide (de_Name e = name)) entries with
  | Some e => mret (de_Ino e)
  | None => pure_eff (Err os_ErrNotExist)
  end.

(** The end of a deletion.  Nothing is printed as the result; after a failed deletion the
    number of inodes is read through a nil pointer. *)
Definition delete_end (o : subpath_options) (deleted : res error Z) : res error (printed (Response unit)) :=
  match deleted with
  | Ok n =>
      if decide (so_format o = "json") then Ok (Json (mkOutputResult None None))
      else Ok (Shown (Prompt ("Successfully delete directory: " +:+ so_path o +:+ ", deleteInodes: " +:+ Itoa n)))
  | _ => Panic
  end.
(** An entry that is not found is reported through the result. *)
Definition delete_not_found (o : subpath_options) : res error (printed (Response unit)) :=
  if decide (so_format o = "json") then Ok (Json (mkOutputResult (Some (ECode ERR_RPC_FAILED)) None))
  else Err (ECode ERR_RPC_FAILED).

Definition delete_found (c : Cmd) (o : subpath_options) (parent epoch inodeId : Z)
    : run (printed (Response unit)) := λ s s' r,
  ∃ d, deleteDirectory c (so_fsid o) epoch parent inodeId (so_name o) (so_threads o) s s' d ∧
       r = delete_end o d.
Definition delete_entry_of (c : Cmd) (o : subpath_options) (parent epoch : Z)
    : run (printed (Response unit)) := λ s s' r,
  match GetInodeId c (so_fsid o) (so_name o) parent epoch s with
  | (s1, Ok inodeId) => delete_found c o parent epoch inodeId s1 s' r
  | (s1, Err _) => s' = s1 ∧ r = delete_not_found o
  | (s1, Panic) => s' = s1 ∧ r = Panic
  end.
Definition subpath_runDelete (c : Cmd) (o : subpath_options) : run (printed (Response unit)) :=
  if decide (TrimSpace (so_name o) = "/") then pure_run (Err (EText "root directory can not be deleted"))
  else
    l ← lift (locate c (so_fsid o) (so_parent o));
    delete_entry_of c o l.2 l.1.

Definition subpath_delete (c : Cmd) : run (printed (Response unit)) :=
  o ← lift (subpath_delete_options c); subpath_runDelete c o.

(** ** Usage *)

Definition usage_targets (c : Cmd) (fsid : Z) (fsname : string) : call (list (Z * string * Z)) :=
  if decide (fsid = 0 ∧ fsname = EmptyString) then
    fsInfos ← ListFsInfo c;
    mret ((λ i, (fi_FsId i, fi_FsName i, GetFsEpochByFsInfo (Some i))) <$>
          filter (λ i, fi_Status i = FsStatus_NORMAL) fsInfos)
  else
    fsid ← GetFsId c;
    fsname ← GetFsName c;
    epoch ← GetFsEpochByFsId c fsid;
    mret [(fsid, fsname, epoch)].

Definition usage_row (human : bool) (fsid : Z) (fsname : string) (used : Z * Z) : row :=
  list_to_map [
    (ROW_FS_ID, Itoa fsid); (ROW_FS_NAME, fsname);
    (ROW_USED, if human then IBytes (wrapu64 used.1) else Itoa used.1);
    (ROW_INODES_IUSED, if human then Comma used.2 else Itoa used.2)].

(** The rows, and whether all of them are there: a size that cannot be computed leaves the
    loop. *)
Definition usage_size (c : Cmd) (threads fsid epoch : Z) : run (option (Z * Z)) := λ s s' r,
  ∃ u, GetDirectorySizeAndInodes c fsid ROOTINODEID true epoch threads s s' u ∧
       r = match u with Ok used => Ok (Some used) | Err _ => Ok None | Panic => Panic end.
Fixpoint usage_rows (c : Cmd) (human : bool) (threads : Z) (l : list (Z * string * Z))
    : run (list row * bool) :=
  match l with
  | [] => mret ([], true)
  | (fsid, fsname, epoch) :: l =>
      _ ← lift (InitFsMDSRouter c fsid);
      u ← usage_size c threads fsid epoch;
      match u with
      | None => mret ([], false)
      | Some used =>
          p ← usage_rows c human threads l;
          mret (usage_row human fsid fsname used :: p.1, p.2)
      end
  end.

(** With JSON the rows so far and the error are printed; otherwise only the rows are. *)
Inductive usage_printed : Type :=
| UsageJson (error : bool) (rows : list row)
| UsageTable (s : shown).
Definition usage_columns : list string := [ROW_FS_ID; ROW_FS_NAME; ROW_USED; ROW_INODES_IUSED].
Definition fs_usage (c : Cmd) : run usage_printed :=
  _ ← pure_run (read_config env_CONF home c);
  fsid ← pure_run (GetUint32Flag c DINGOFS_FSID);
  fsname ← pure_run (GetStringFlag c DINGOFS_FSNAME);
  threads ← pure_run (GetUint32Flag c DINGOFS_THREADS);
  format ← pure_run (GetStringFlag c FORMAT);
  let human := GetBoolFlag c DINGOFS_HUMANIZE in
  targets ← lift (usage_targets c fsid fsname);
  if decide (targets = []) then pure_run (Err (EText "no fsid is set"))
  else
    p ← usage_rows c human threads targets;
    if decide (format = "json") then mret (UsageJson (negb p.2) p.1)
    else mret (UsageTable (RenderWithNoData usage_columns
                 (ListMap2ListSortByKeys p.1 usage_columns [ROW_FS_ID]) "no fs in the cluster")).

End Commands.
