(* ===== verification/FsCmdFacts.v ===== *)
(** What the commands of FsCmd.v promise: their flags fit what they read, and they do not
    panic. *)

From Stdlib Require Import Ascii.
From S2P Require Import Prelude GoLib Errno Mds Table Flags Rpc Operator MdsSample FsCmd DirWalk DirOps DirCmd.
Local Open Scope Z_scope.

(** * No panic *)

(** A command that was made by [new] and has parsed its arguments has the flags that [new]
    declared, with whatever values. *)
Definition made_by (new : res error Cmd) (c : Cmd) : Prop :=
  ∃ c0, new = Ok c0 ∧ dom (flags c0) ⊆ dom (flags c).
Definition has_flag (c : Cmd) (name : string) : Prop := is_Some (flags c !! name).

Lemma made_by_flag new c name :
  made_by new c → bool_decide (is_Some (flags (res_get empty_cmd new) !! name)) = true → has_flag c name.
Proof.
  intros (c0 & -> & Hsub) Hf%bool_decide_eq_true. simpl in Hf.
  apply elem_of_dom. apply Hsub. by apply elem_of_dom.
Qed.

Definition no_panic {W A} (m : eff error W A) : Prop := ∀ s, (m s).2 ≠ Panic.

Lemma no_panic_bind {W A B} (m : eff error W A) (f : A → eff error W B) :
  no_panic m → (∀ a, no_panic (f a)) → no_panic (m ≫= f).
Proof.
  intros Hm Hf s. unfold mbind, eff_bind. specialize (Hm s).
  destruct (m s) as [s1 [a|e|]]; simpl in *; [apply Hf|done|done].
Qed.
Lemma no_panic_pure {W A} (r : res error A) : r ≠ Panic → no_panic (pure_eff (W := W) r).
Proof. by intros Hr s. Qed.
Lemma no_panic_ret {W A} (a : A) : no_panic (mret (M := eff error W) a).
Proof. by intros s. Qed.
Lemma bind_no_panic {A B} (m : res error A) (f : A → res error B) :
  m ≠ Panic → (∀ a, m = Ok a → f a ≠ Panic) → m ≫= f ≠ Panic.
Proof. destruct m; simpl; auto. Qed.

Create HintDb panics.
#[export] Hint Resolve no_panic_bind no_panic_pure no_panic_ret bind_no_panic : panics.

Section Panics.
Context {W : Type} `{Proto, ZMapOrder, Grpc W, MDSServiceClient W, Viper, Texts}.
Context (env_CONF home : string).
Notation call A := (eff error (RpcState W) A).

(** The library answers a call with a response or an error. *)
Definition library_returns : Prop :=
  (∀ A (f : RpcFunc A) c w, (Stub_Func f c w).2 ≠ Panic) ∧ (∀ a t w, (dial a t w).2 ≠ Panic).

Lemma GetStringFlag_ok c name : has_flag c name → ∃ v, GetStringFlag c name = Ok v.
Proof. unfold GetStringFlag, cmd_Flag. intros [f ->]. eauto. Qed.
Lemma GetUint32Flag_ok c name : has_flag c name → ∃ v, GetUint32Flag c name = Ok v.
Proof. unfold GetUint32Flag, cmd_Flag. intros [f ->]. eauto. Qed.
Lemma GetDurationFlag_ok c name : has_flag c name → ∃ v, GetDurationFlag c name = Ok v.
Proof. unfold GetDurationFlag, cmd_Flag. intros [f ->]. eauto. Qed.
Lemma pflag_GetUint32_no_panic c name : pflag_GetUint32 c name ≠ Panic.
Proof. unfold pflag_GetUint32. by destruct (cmd_Flag c name) as [[[] ?]|]. Qed.

Lemma GetStringFlag_no_panic c name : has_flag c name → GetStringFlag c name ≠ Panic.
Proof. by intros [v ->]%GetStringFlag_ok. Qed.
Lemma GetUint32Flag_no_panic c name : has_flag c name → GetUint32Flag c name ≠ Panic.
Proof. by intros [v ->]%GetUint32Flag_ok. Qed.

Lemma read_config_no_panic c : has_flag c "conf" → read_config env_CONF home c ≠ Panic.
Proof.
  intros Hf. unfold read_config, ReadCommandConfig, is_changed, cmd_Flag.
  destruct (GetStringFlag_ok c "conf" Hf) as [v Hv]. destruct Hf as [f ->]. simpl.
  destruct (Changed f); simpl; [by rewrite Hv|done].
Qed.

(** The flags of every request. *)
Definition has_rpc_flags (c : Cmd) : Prop :=
  Forall (has_flag c) [VERBOSE; "conf"; FORMAT; RPCTIMEOUT; RPCRETRYDElAY; RPCRETRYTIMES; DINGOFS_MDSADDR].

Lemma CreateNewMdsRpc_no_panic c name : has_rpc_flags c → CreateNewMdsRpc c name ≠ Panic.
Proof.
  unfold has_rpc_flags. rewrite !Forall_cons. intros (_ & _ & _ & Ht & Hd & Hr & Ha & _).
  unfold CreateNewMdsRpc, GetMDSAddrSlice, CreateNewMdsRpcWithEndPoint.
  destruct (GetStringFlag_ok _ _ Ha) as [a ->], (GetDurationFlag_ok _ _ Ht) as [t ->],
    (GetUint32Flag_ok _ _ Hr) as [r ->], (GetDurationFlag_ok _ _ Hd) as [d ->].
  simpl. by destruct (find_first _ _).
Qed.

Lemma CreateNewMdsRpc_addrs c name rpc : CreateNewMdsRpc c name = Ok rpc → Addrs rpc ≠ [].
Proof.
  unfold CreateNewMdsRpc. intros (l & [Hl _]%GetMDSAddrSlice_Ok & Hr)%bind_Ok.
  unfold CreateNewMdsRpcWithEndPoint in Hr. by go_ok.
Qed.

Lemma call_retry_no_panic {A} n (f : RpcFunc A) c w :
  library_returns → (call_retry n f c w).2 ≠ Panic.
Proof.
  intros [Hf _]. revert w. induction n as [|n IH]; intros w; simpl; specialize (Hf A f c w);
    destruct (Stub_Func f c w) as [w' [r|e|]]; simpl in *; try done; auto.
  destruct (CheckRpcNeedRetry r); [apply IH|done].
Qed.

Lemma dial_retry_no_panic n a t w : library_returns → (dial_retry n a t w).2 ≠ Panic.
Proof.
  intros [_ Hd]. revert w. induction n as [|n IH]; intros w; simpl; specialize (Hd a t w);
    destruct (dial a t w) as [w' [c|e|]]; simpl in *; try done; auto.
Qed.

Lemma call_addresses_no_panic {A} rpc (f : RpcFunc A) addrs last s :
  library_returns → (addrs ≠ [] ∨ last ≠ None) → (call_addresses rpc f addrs last s).2 ≠ Panic.
Proof.
  intros Hl. revert last s. induction addrs as [|a addrs IH]; intros last s Ho; simpl.
  { destruct last; [done|]. by destruct Ho. }
  destruct (GetConnection a (RpcTimeout rpc) (RpcRetryTimes rpc) s) as [s1 [c|e|]] eqn:Hc.
  - pose proof (call_retry_no_panic (Z.to_nat (RpcRetryTimes rpc)) f c (net s1) Hl) as Hn.
    destruct (call_retry _ f c (net s1)) as [w [r|e|]]; done.
  - apply IH. by right.
  - unfold GetConnection in Hc. destruct (conns a (pool s)); [|done].
    pose proof (dial_retry_no_panic (Z.to_nat (RpcRetryTimes rpc)) a (RpcTimeout rpc) (net s) Hl) as Hn.
    destruct (dial_retry _ a _ (net s)) as [w r]. simpl in Hn. congruence.
Qed.

Lemma call_result_no_panic {A} rpc (f : RpcFunc A) s :
  library_returns → Addrs rpc ≠ [] → (call_result rpc f s).2 ≠ Panic.
Proof.
  intros Hl Ha. unfold call_result, GetRpcResponse.
  pose proof (call_addresses_no_panic rpc f (Addrs rpc) None s Hl (or_introl Ha)) as Hn.
  by destruct (call_addresses rpc f (Addrs rpc) None s) as [s' [r|e|]].
Qed.

(** A result without an error has a response. *)
Lemma call_result_Ok {A} rpc (f : RpcFunc A) s s' r :
  call_result rpc f s = (s', Ok r) → or_Error r = None → is_Some (or_Result r).
Proof.
  unfold call_result. destruct (GetRpcResponse rpc f s) as [s1 [v|e|]]; intros [= <- <-]; simpl; [|done].
  by eexists.
Qed.

Lemma print_result_no_panic {A} format (r : OutputResult (Response A)) show :
  (or_Error r = None → is_Some (or_Result r)) → print_result format r show ≠ Panic.
Proof.
  intros Hr. unfold print_result. case_decide; [done|].
  destruct (or_Error r); [done|]. by destruct (Hr eq_refl) as [v ->].
Qed.

(** A request behind any choice of its address and its check. *)
Lemma called_no_panic {A} (c : Cmd) name (f : RpcFunc A) format show (k : Rpc → bool) (e : error) :
  library_returns → has_rpc_flags c →
  no_panic (mdsRpc ← pure_eff (CreateNewMdsRpc c name);
            if k mdsRpc : bool then pure_eff (Err e)
            else (r ← call_result mdsRpc f; pure_eff (print_result format r show))).
Proof.
  intros Hl Hc s. unfold mbind, eff_bind, pure_eff.
  pose proof (CreateNewMdsRpc_no_panic c name Hc) as Hn.
  destruct (CreateNewMdsRpc c name) as [rpc|e'|] eqn:Hr; [|done|done].
  destruct (k rpc); [done|].
  pose proof (call_result_no_panic rpc f s Hl (CreateNewMdsRpc_addrs _ _ _ Hr)) as Hp.
  destruct (call_result rpc f s) as [s' [r|e'|]] eqn:Hres; [|done|done].
  apply print_result_no_panic. by eapply call_result_Ok.
Qed.

Lemma run_request_no_panic {A} (c : Cmd) name format (f : RpcFunc A) show :
  library_returns → has_rpc_flags c → no_panic (run_request c name format f show).
Proof.
  intros Hl Hc. exact (called_no_panic c name f format show (λ _, false) (EText EmptyString) Hl Hc).
Qed.

Lemma made_by_rpc_flags new c :
  made_by new c →
  forallb (λ n, bool_decide (is_Some (flags (res_get empty_cmd new) !! n)))
    [VERBOSE; "conf"; FORMAT; RPCTIMEOUT; RPCRETRYDElAY; RPCRETRYTIMES; DINGOFS_MDSADDR] = true →
  has_rpc_flags c.
Proof.
  intros Hc Hall. apply Forall_forall. intros n Hn. apply (made_by_flag new); [done|].
  rewrite forallb_forall in Hall. by apply Hall, list_elem_of_In.
Qed.

Lemma fs_storage_no_panic new c s :
  made_by new c →
  forallb (λ n, bool_decide (is_Some (flags (res_get empty_cmd new) !! n)))
    [DINGOFS_S3_AK; DINGOFS_S3_SK; DINGOFS_S3_ENDPOINT; DINGOFS_S3_BUCKETNAME; DINGOFS_RADOS_USERNAME;
     DINGOFS_RADOS_KEY; DINGOFS_RADOS_MON; DINGOFS_RADOS_POOLNAME; DINGOFS_RADOS_CLUSTERNAME] = true →
  fs_storage c s ≠ Panic.
Proof.
  intros Hc Hall. assert (∀ n, n ∈ [DINGOFS_S3_AK; DINGOFS_S3_SK; DINGOFS_S3_ENDPOINT;
    DINGOFS_S3_BUCKETNAME; DINGOFS_RADOS_USERNAME; DINGOFS_RADOS_KEY; DINGOFS_RADOS_MON;
    DINGOFS_RADOS_POOLNAME; DINGOFS_RADOS_CLUSTERNAME] → GetStringFlag c n ≠ Panic) as Hn.
  { intros n Hn. apply GetStringFlag_no_panic, (made_by_flag new); [done|].
    rewrite forallb_forall in Hall. by apply Hall, list_elem_of_In. }
  unfold fs_storage. case_decide; [|case_decide; [|done]].
  - do 4 (apply bind_no_panic; [apply Hn; set_solver|intros ? _]). unfold SetS3Info. by case_decide.
  - do 5 (apply bind_no_panic; [apply Hn; set_solver|intros ? _]). unfold SetRadosInfo. by case_decide.
Qed.

(** [no_flag_panic H] discharges the reads of flags of a command made as [H] says. *)
Ltac no_flag_panic H :=
  repeat first
    [ apply read_config_no_panic; eapply made_by_flag; [exact H|reflexivity]
    | apply GetStringFlag_no_panic; eapply made_by_flag; [exact H|reflexivity]
    | apply GetUint32Flag_no_panic; eapply made_by_flag; [exact H|reflexivity]
    | apply pflag_GetUint32_no_panic
    | apply run_request_no_panic; [done|]; eapply made_by_rpc_flags; [exact H|reflexivity]
    | apply no_panic_bind; [|intros ?]
    | apply no_panic_pure
    | match goal with |- _ ≫= _ ≠ Panic => apply bind_no_panic; [|intros ? _] end ].

Lemma fs_create_no_panic c fsname :
  made_by NewFsCreateCommand c → library_returns → no_panic (fs_create env_CONF home c fsname).
Proof.
  intros Hc Hl. unfold fs_create, fs_create_options, fs_runCreate. no_flag_panic Hc.
  - unfold fs_size. by destruct (ParseBytes _).
  - unfold fs_size. by destruct (ParseBytes _).
  - apply (fs_storage_no_panic NewFsCreateCommand); [done|reflexivity].
  - unfold fs_partition. by repeat case_decide.
  - done.
Qed.

Lemma fs_query_no_panic c : made_by NewFsQueryCommand c → library_returns → no_panic (fs_query env_CONF home c).
Proof.
  intros Hc Hl. unfold fs_query. do 4 (apply no_panic_bind; [no_flag_panic Hc|intros ?]).
  assert (has_rpc_flags c) as Hr by (eapply made_by_rpc_flags; [exact Hc|reflexivity]).
  unfold fs_query_request. destruct (0 <? a0)%Z.
  - exact (called_no_panic c _ _ _ _ (λ _, false) (EText EmptyString) Hl Hr).
  - case_decide.
    + apply no_panic_bind; [by apply no_panic_pure, CreateNewMdsRpc_no_panic|]. by intros rpc s.
    + exact (called_no_panic c _ _ _ _ (λ _, false) (EText EmptyString) Hl Hr).
Qed.

(** C26: The commands that are one request do not panic.  A command that has been made with its
    declared flags, and whose arguments have been parsed, reads only flags that it has; its
    request has an address; and it looks at a response only when there is one.  This holds
    for all values of the flags, of the configuration and of the environment, and for
    servers that answer anything or nothing, as long as the library returns.  (The
    declarations themselves do not panic either: [made_by] says that they succeed.) *)
Theorem commands_no_panic (c : Cmd) (name : string) (answer : bool) :
  library_returns →
  (made_by NewFsCreateCommand c → no_panic (fs_create env_CONF home c name)) ∧
  (made_by NewFsDeleteCommand c → no_panic (fs_delete env_CONF home c name answer)) ∧
  (made_by NewFsListCommand c → no_panic (fs_list env_CONF home c)) ∧
  (made_by NewFsQueryCommand c → no_panic (fs_query env_CONF home c)) ∧
  (made_by NewFsMountpointCommand c → no_panic (fs_mountpoint env_CONF home c)) ∧
  (made_by NewStatusCommand c → no_panic (mds_status env_CONF home c)) ∧
  (made_by NewCacheGroupListCommand c → no_panic (cache_group_list env_CONF home c)) ∧
  (made_by NewCacheMemberListCommand c → no_panic (cache_member_list env_CONF home c)) ∧
  (made_by NewCacheMemberSetCommand c → no_panic (cache_member_set env_CONF home c)) ∧
  (made_by NewCacheMemberDeleteCommand c → no_panic (cache_member_delete env_CONF home c name answer)) ∧
  (made_by NewCacheMemberLeaveCommand c → no_panic (cache_member_leave env_CONF home c)) ∧
  (made_by NewCacheMemberUnlockCommand c → no_panic (cache_member_unlock env_CONF home c)).
Proof.
  intros Hl. split_and!; intros Hc.
  - by apply fs_create_no_panic.
  - unfold fs_delete. do 2 (apply no_panic_bind; [no_flag_panic Hc|intros ?]).
    apply (called_no_panic c _ _ _ _ (λ _, _)); [done|]. eapply made_by_rpc_flags; [exact Hc|reflexivity].
  - unfold fs_list. no_flag_panic Hc.
  - by apply fs_query_no_panic.
  - unfold fs_mountpoint. no_flag_panic Hc.
  - unfold mds_status. no_flag_panic Hc.
  - unfold cache_group_list. no_flag_panic Hc.
  - unfold cache_member_list. no_flag_panic Hc.
  - unfold cache_member_set. no_flag_panic Hc.
  - unfold cache_member_delete. do 2 (apply no_panic_bind; [no_flag_panic Hc|intros ?]).
    apply (called_no_panic c _ _ _ _ (λ _, _)); [done|]. eapply made_by_rpc_flags; [exact Hc|reflexivity].
  - unfold cache_member_leave. no_flag_panic Hc.
  - unfold cache_member_unlock. no_flag_panic Hc.
Qed.

End Panics.

(** * Examples *)

Section Examples.
#[local] Existing Instances sample_proto canonical_zorder sample_grpc sample_client sample_viper.

Definition sample_texts : Texts := {|
  IBytes := λ z, Itoa z +:+ " B"; Comma := Itoa; ParseBytes := λ _, Some 4194304; RedString := id;
  FsStatus_String := Itoa; FsType_String := Itoa; MDSState_String := Itoa;
  time_Format := λ s _, Itoa s; int_of_non_integer := - 2 ^ 63 |}.
#[local] Existing Instance sample_texts.

Lemma sample_library : library_returns (W := nat).
Proof. split; [|done]. intros A f c w. by destruct f. Qed.

(** The command as it is made, with nothing on its command line. *)
Definition bare (new : res error Cmd) : Cmd := res_get empty_cmd new.

Lemma made_by_bare new : is_Ok new = true → made_by new (bare new).
Proof. destruct new as [c|e|]; [|done|done]. intros _. by exists c. Qed.

Lemma commands_no_panic_witness :
  made_by NewFsCreateCommand (bare NewFsCreateCommand) ∧
  no_panic (fs_create (W := nat) "" "/home/u" (bare NewFsCreateCommand) "fs").
Proof.
  assert (made_by NewFsCreateCommand (bare NewFsCreateCommand)) as Hm
    by (apply made_by_bare; vm_compute; reflexivity).
  destruct (commands_no_panic "" "/home/u" (bare NewFsCreateCommand) "fs" false sample_library)
    as [Hcreate _].
  exact (conj Hm (Hcreate Hm)).
Defined.

(** The servers, as a table. *)
Example mds_status_example :
  (mds_status (W := nat) "" "/home/u" (bare NewStatusCommand) sample_state).2 =
  Ok (Shown (Table mds_columns [["1"; "10.0.0.1:7400"; "1"; "1"; "online"];
                                ["2"; "10.0.0.2:7400"; "1"; "1"; "online"]])).
Proof. by vm_compute. Qed.

End Examples.
