(* ===== verification/DirCmdFacts.v ===== *)
(** What the commands on directories promise: the quota that is set and the one that is
    repaired carry the totals over the tree, the check compares with them; and what the
    subpath commands do instead of what they say. *)

From Stdlib Require Import Ascii.
From S2P Require Import Prelude GoLib Errno Utils Mds Table Flags Rpc Operator OperatorFacts MdsSample FsCmd FsCmdFacts DirWalk DirWalkFacts DirWalkEnds DirOps DirSummaryFacts DirCmd.
Local Open Scope Z_scope.

(** * Runs *)

Lemma run_bind_Ok {St A B} (m : run St A) (f : A → run St B) s s' b :
  (m ≫= f) s s' (Ok b) ↔ ∃ s1 a, m s s1 (Ok a) ∧ f a s1 s' (Ok b).
Proof. unfold mbind, run_bind. naive_solver. Qed.

Lemma lift_Ok {St A} (m : eff error St A) s s' r : lift m s s' r ↔ m s = (s', r).
Proof. done. Qed.

Lemma pure_run_Ok {St A} (r : res error A) (s s' : St) a :
  pure_run r s s' (Ok a) ↔ s' = s ∧ r = Ok a.
Proof. unfold pure_run, lift, pure_eff. naive_solver. Qed.

(** [run_ok] opens the binds of runs that succeed. *)
Ltac run_ok :=
  repeat match goal with
  | H : (_ ≫= _) _ _ (Ok _) |- _ =>
      let s1 := fresh "s" in let a := fresh "a" in let H1 := fresh "Hr" in let H2 := fresh "Hk" in
      apply run_bind_Ok in H as (s1 & a & H1 & H2); cbv beta in H2
  | H : lift _ _ _ _ |- _ => unfold lift in H
  | H : pure_run _ _ _ (Ok _) |- _ => unfold pure_run, lift, pure_eff in H; injection H as <- H
  end.

(** The usage that a quota records is the one given. *)
Definition consistent (quota : Quota) (used : Z * Z) : Prop :=
  UsedBytes quota = used.1 ∧ UsedInodes quota = used.2.
#[export] Instance consistent_dec quota used : Decision (consistent quota used).
Proof. unfold consistent. apply _. Defined.

Section Facts.
Context {W : Type} `{Proto, ZMapOrder, Grpc W, MDSServiceClient W, Viper, Texts}.
Notation call A := (eff error (RpcState W) A).

(** * An invariant of the world *)

Context (I : W → Prop).

(** Dialling and every request keep [I]. *)
Definition stable : Prop :=
  dial_keeps I ∧ ∀ A (f : RpcFunc A), honest I f (λ _, True).

Definition keeps {A} (m : call A) : Prop := ∀ s, I (net s) → I (net (m s).1).

Lemma keeps_bind {A B} (m : call A) (f : A → call B) : keeps m → (∀ a, keeps (f a)) → keeps (m ≫= f).
Proof.
  intros Hm Hf s HI. specialize (Hm s HI). unfold mbind, eff_bind.
  destruct (m s) as [s1 [a|e|]]; simpl in *; [by apply Hf|done|done].
Qed.
Lemma keeps_pure {A} (r : res error A) : keeps (pure_eff r).
Proof. intros s HI. exact HI. Qed.
Lemma keeps_ret {A} (a : A) : keeps (mret a).
Proof. intros s HI. exact HI. Qed.
Lemma keeps_caches fsInfo r : keeps (cache_fs fsInfo) ∧ keeps (put_router r).
Proof. split; intros s HI; exact HI. Qed.
#[local] Hint Resolve keeps_pure keeps_ret : core.

Context (Hstable : stable).

Lemma keeps_request {A} rpc (f : RpcFunc A) : keeps (request rpc f).
Proof.
  intros s HI. destruct (request rpc f s) as [s' r] eqn:Hr.
  by destruct (request_honest I (proj1 Hstable) rpc f _ s s' r (proj2 Hstable A f) Hr HI).
Qed.
Lemma keeps_response {A} rpc (f : RpcFunc A) : keeps (GetRpcResponse rpc f).
Proof.
  intros s HI. destruct (GetRpcResponse rpc f s) as [s' r] eqn:Hr.
  by destruct (call_addresses_honest I (proj1 Hstable) rpc f _ _ _ s s' r (proj2 Hstable A f) Hr HI).
Qed.
Lemma keeps_at_server {A} c owner name (f : RpcFunc A) : keeps (at_server c owner name f).
Proof.
  intros s HI. destruct (at_server c owner name f s) as [s' r] eqn:Hr.
  by destruct (at_server_honest I (proj1 Hstable) c owner name f _ s s' r (proj2 Hstable A f) Hr HI).
Qed.
Lemma keeps_GetEndPoint ino : keeps (GetEndPoint ino).
Proof.
  unfold GetEndPoint. apply keeps_bind; [intros s HI; exact HI|]. intros [r|]; [|done].
  apply keeps_bind; [done|]. intros [d|]; [|done]. by destruct (mds_Location d).
Qed.
Lemma keeps_call_result {A} rpc (f : RpcFunc A) : keeps (call_result rpc f).
Proof.
  intros s HI. pose proof (keeps_response rpc f s HI) as Hk. unfold call_result.
  by destruct (GetRpcResponse rpc f s) as [s' [r|e|]].
Qed.
Lemma keeps_GetFsInfo c fsId fsName : keeps (GetFsInfo c fsId fsName).
Proof.
  intros s. unfold GetFsInfo. destruct (meta_GetFsInfo _ _); [done|]. revert s.
  apply keeps_bind; [apply keeps_pure|]. intros rpc. apply keeps_bind; [apply keeps_request|].
  intros i. apply keeps_bind; [apply (keeps_caches i (NewMDSRouter 0))|done].
Qed.
Lemma keeps_path_loop fuel c fsId epoch ino p : keeps (path_loop fuel c fsId epoch ino p).
Proof.
  revert ino p. induction fuel as [|fuel IH]; intros ino p; simpl; [done|].
  case_decide; [done|]. apply keeps_bind.
  - unfold path_step. case_decide; [done|]. apply keeps_bind; [apply keeps_at_server|].
    intros d. by case_decide.
  - intros i. destruct (split_slash p).2; [apply IH|done].
Qed.
Lemma keeps_GetFsEpochByFsId c fsid : keeps (GetFsEpochByFsId c fsid).
Proof. by apply keeps_bind; [apply keeps_GetFsInfo|]. Qed.
Lemma keeps_InitFsMDSRouter c fsid : keeps (InitFsMDSRouter c fsid).
Proof.
  unfold InitFsMDSRouter, GetMDSList. apply keeps_bind; [apply keeps_GetFsInfo|]. intros i.
  apply keeps_bind; [|intros mds; apply (keeps_caches None)].
  apply keeps_bind; [done|]. intros rpc. apply keeps_request.
Qed.
Lemma keeps_locate c fsid path : keeps (locate c fsid path).
Proof.
  unfold locate, GetDirPathInodeId. apply keeps_bind; [apply keeps_GetFsEpochByFsId|]. intros epoch.
  apply keeps_bind; [apply keeps_InitFsMDSRouter|]. intros _. apply keeps_bind; [|done]. case_decide; [done|]. apply keeps_path_loop.
Qed.

Lemma keeps_Ok {A} (m : call A) s s' r : keeps m → m s = (s', r) → I (net s) → I (net s').
Proof. intros Hm Hs HI. specialize (Hm s HI). by rewrite Hs in Hm. Qed.

(** * Results *)

(** A request whose answer has status OK. *)
Definition accepted {A} (f : RpcFunc A) (s s' : RpcState W) (a : A) : Prop :=
  ∃ rpc r, GetRpcResponse rpc f s = (s', Ok r) ∧ GetErrcode (GetError r) = Errno_OK ∧ body r = a.

Lemma call_result_accepted {A} rpc (f : RpcFunc A) s s' r :
  call_result rpc f s = (s', Ok r) → or_Error r = None →
  ∃ v, or_Result r = Some v ∧ accepted f s s' (body v).
Proof.
  unfold call_result. destruct (GetRpcResponse rpc f s) as [s1 [v|e|]] eqn:Hr; intros [= <- <-]; simpl; [|done].
  case_decide as Hok; [|done]. intros _. exists v. split; [done|]. by exists rpc, v.
Qed.

Lemma request_accepted {A} rpc (f : RpcFunc A) s s' a : request rpc f s = (s', Ok a) → accepted f s s' a.
Proof.
  unfold request. intros (s1 & r & Hr & Hc)%eff_bind_Ok. unfold pure_eff, checked in Hc.
  case_decide; [|done]. injection Hc as <- <-. by exists rpc, r.
Qed.

Lemma print_result_shown {A} format (r : OutputResult (Response A)) show p :
  format ≠ "json" → print_result format r show = Ok p →
  or_Error r = None ∧ ∃ v, or_Result r = Some v ∧ p = Shown (show (body v)).
Proof.
  intros Hf. unfold print_result. rewrite decide_False by done.
  destruct (or_Error r); [done|]. destruct (or_Result r) as [v|]; [|done]. intros [= <-]. eauto.
Qed.

(** * Quotas *)

(** The file system that the servers hold, for every epoch. *)
Context (fsId : Z) (children : Z → list Dentry) (inode_at : Z → Inode) (rank : Z → nat).
Definition held : Prop :=
  acyclic children rank ∧ ∀ epoch, truthful fsId epoch children inode_at I.

Lemma walk_totals c dir check epoch threads s s' v :
  held → I (net s) → GetDirectorySizeAndInodes c fsId dir check epoch threads s s' (Ok v) →
  ∃ all, below children (root_dir dir) all ∧
    v = (wrap64 (total_length check inode_at all), wrap64 (total_inodes check inode_at all + 1)).
Proof.
  intros [Hacyc Ht] HI Hrun. destruct (below_exists 0 children inode_at rank (root_dir dir) Hacyc) as [all Hall].
  exists all. split; [done|].
  by destruct (size_run c fsId epoch check children inode_at I _ _ _ _ _ _ (Ht epoch) HI Hall Hrun).
Qed.

(** C12: Setting a quota.  When the command succeeds, and does not print JSON, the server has
    accepted a quota for the directory that the path names, with the limits of the flags and
    with the usage that the tree below the directory has: the lengths of the files, and the
    number of entries and the directory itself. *)
Theorem quota_set_records_usage (c : Cmd) (o : quota_options) (s s' : RpcState W) (p : printed (Response ())) :
  held → I (net s) → qo_fsid o = fsId → qo_format o ≠ "json" → quota_runSet c o s s' (Ok p) →
  ∃ q epoch dir all s1, GetQuotaFlags c = Ok q ∧
    (locate c fsId (qo_path o) s).2 = Ok (epoch, dir) ∧ below children (root_dir dir) all ∧
    accepted (SetDirQuotaRpc (mkSetDirQuota (mkContext epoch false) fsId dir
      (mkQuota q.1 q.2 (wrap64 (total_length false inode_at all))
                       (wrap64 (total_inodes false inode_at all + 1))))) s1 s' ().
Proof.
  intros Hheld HI Hid Hf Hrun. unfold quota_runSet in Hrun. rewrite Hid in Hrun. run_ok.
  match goal with Hl : locate _ _ _ _ = (?s1, Ok ?l) |- _ => destruct l as [epoch dir] end. run_ok.
  match goal with Hp : print_result _ _ _ = Ok _ |- _ =>
    apply print_result_shown in Hp as (Herr & v & Hres & ->); [|done] end.
  match goal with Hc : call_result _ _ _ = _ |- _ =>
    destruct (call_result_accepted _ _ _ _ _ Hc Herr) as (v' & Hres' & Hacc) end.
  match goal with Hw : GetDirectorySizeAndInodes _ _ _ _ _ _ ?s2 _ (Ok ?u) |- _ =>
    assert (I (net s2)) as HI2; [|destruct (walk_totals _ _ _ _ _ _ _ _ Hheld HI2 Hw) as (all & Hall & ->)] end.
  { match goal with He : GetEndPoint _ _ = _, Hl : locate _ _ _ _ = _ |- _ =>
      eapply (keeps_Ok _ _ _ _ (keeps_GetEndPoint _) He), (keeps_Ok _ _ _ _ (keeps_locate _ _ _) Hl HI) end. }
  match goal with Hl : locate _ _ _ _ = _, Hq : GetQuotaFlags c = Ok ?q |- _ =>
    exists q, epoch, dir, all; rewrite Hl end.
  destruct (body v'). eauto 10.
Qed.

(** ** Checks *)

Lemma CheckQuota_consistent quota used :
  (CheckQuota Comma RedString (MaxBytes quota) (UsedBytes quota) (MaxInodes quota) (UsedInodes quota)
    used.1 used.2).2 = true ↔ consistent quota used.
Proof.
  unfold CheckQuota, consistent. simpl.
  destruct (UsedBytes quota =? used.1) eqn:E1, (UsedInodes quota =? used.2) eqn:E2; simpl; lia.
Qed.

(** What a check shows for a quota and a usage. *)
Definition comparison (quota : Quota) (used : Z * Z) : list string :=
  (CheckQuota Comma RedString (MaxBytes quota) (UsedBytes quota) (MaxInodes quota) (UsedInodes quota)
    used.1 used.2).1.

Lemma check_usage_Ok format repair r (usage : run (RpcState W) (Z * Z)) fix_it done_text show s s' p :
  format ≠ "json" → check_usage format repair r usage fix_it done_text show s s' (Ok p) →
  ∃ response used s1, or_Error r = None ∧ or_Result r = Some response ∧ usage s s1 (Ok used) ∧
    ((repair = true ∧ ¬ consistent (body response) used ∧ fix_it used s1 = (s', Ok ()) ∧
      p = Shown (Prompt done_text)) ∨
     ((repair = false ∨ consistent (body response) used) ∧ s' = s1 ∧
      p = Shown (show (comparison (body response) used)))).
Proof.
  intros Hf. unfold check_usage. rewrite decide_False by done.
  destruct (or_Error r); [by intros [_ ?]%pure_run_Ok|].
  destruct (or_Result r) as [response|]; [|by intros [_ ?]%pure_run_Ok].
  intros Hk. apply run_bind_Ok in Hk as (s1 & used & Hu & Hk).
  exists response, used, s1. split_and!; [done..|].
  pose proof (CheckQuota_consistent (body response) used) as Hc. unfold comparison.
  destruct (CheckQuota _ _ _ _ _ _ _ _) as [cells ok]. simpl in *.
  destruct repair; simpl in Hk; [destruct ok; simpl in Hk|].
  - right. destruct Hk as [-> [= <-]]. split_and!; [right; by apply Hc|done|done].
  - left. apply run_bind_Ok in Hk as (s2 & [] & Hfix & [-> [= <-]]). split_and!; [done| |done|done].
    intros Hcons. by apply Hc in Hcons.
  - right. destruct Hk as [-> [= <-]]. split_and!; [by left|done|done].
Qed.

Lemma keeps_call_owner {A} c owner name (f : RpcFunc A) : keeps (call_owner c owner name f).
Proof.
  unfold call_owner. apply keeps_bind; [apply keeps_GetEndPoint|]. intros e.
  apply keeps_bind; [done|]. intros rpc. apply keeps_call_result.
Qed.

Lemma keeps_GetDirQuotaData c fs dir epoch : keeps (GetDirQuotaData c fs dir epoch).
Proof. unfold GetDirQuotaData. by apply keeps_bind; [apply keeps_call_owner|]. Qed.

Lemma result_or_error_None {A} (r : OutputResult (Response A)) :
  or_Error (result_or_error r) = None → or_Error r = None ∧ result_or_error r = r.
Proof. unfold result_or_error. by destruct (or_Error r) eqn:He. Qed.

Lemma GetEndPoint_state ino s : (GetEndPoint (W := W) ino s).1 = s.
Proof.
  unfold GetEndPoint, GetFsMDSRouter, mbind, eff_bind, pure_eff.
  destruct (mdsRouter s) as [r|]; [|done]. destruct (router_GetMDS ino r) as [[d|]|e|]; [|done..].
  by destruct (mds_Location d).
Qed.

(** A request to the owner of an inode is sent from the state in which it is made. *)
Lemma call_owner_accepted {A} c owner name (f : RpcFunc A) s s' r :
  call_owner c owner name f s = (s', Ok r) → or_Error r = None →
  ∃ v, or_Result r = Some v ∧ accepted f s s' (body v).
Proof.
  unfold call_owner. intros (s2 & e & He & Hc)%eff_bind_Ok Herr. apply eff_bind_Ok in Hc as (s3 & rpc & Hp & Hc).
  pose proof (GetEndPoint_state owner s) as Hs. rewrite He in Hs. simpl in Hs. subst s2.
  unfold pure_eff in Hp. injection Hp as <- _. by eapply call_result_accepted.
Qed.

Lemma GetDirQuotaData_accepted c dir epoch s s' r v fs :
  GetDirQuotaData c fs dir epoch s = (s', Ok r) → or_Error r = None → or_Result r = Some v →
  accepted (GetDirQuotaRpc (mkGetDirQuota (mkContext epoch false) fs dir true)) s s' (body v).
Proof.
  unfold GetDirQuotaData. intros (s1 & r1 & Hc & [= <- <-])%eff_bind_Ok Herr Hres.
  apply result_or_error_None in Herr as [Herr Heq]. rewrite Heq in Hres.
  destruct (call_owner_accepted _ _ _ _ _ _ _ Hc Herr) as (v' & Hv & Hacc). by simplify_eq.
Qed.

Lemma repair_accepted c name (f : RpcFunc ()) s s' : repair_quota c name f s = (s', Ok ()) → accepted f s s' ().
Proof.
  unfold repair_quota. intros (s1 & rpc & Hr & Hreq)%eff_bind_Ok. injection Hr as <- _.
  by eapply request_accepted.
Qed.

(** The two ends of a check, as one statement. *)
Lemma check_end c name (f : RpcFunc ()) repair quota used done_text show s1 s' (p : printed (Response Quota)) :
  (repair = true ∧ ¬ consistent quota used ∧ repair_quota c name f s1 = (s', Ok ()) ∧
     p = Shown (Prompt done_text)) ∨
  ((repair = false ∨ consistent quota used) ∧ s' = s1 ∧ p = Shown (show (comparison quota used))) →
  if decide (repair = true ∧ ¬ consistent quota used)
  then p = Shown (Prompt done_text) ∧ accepted f s1 s' ()
  else s' = s1 ∧ p = Shown (show (comparison quota used)).
Proof.
  intros [(Hr & Hn & Hfix & ->)|(Hn & -> & ->)].
  - rewrite decide_True by done. split; [done|]. by eapply repair_accepted.
  - rewrite decide_False; [done|]. intros [Hr Hc]. by destruct Hn; congruence.
Qed.

(** C24: Checking the quota of a directory.  A check that does not print JSON finds the
    directory that the path names, asks for its quota and computes the usage of the tree
    below it.  With the option to repair, and a quota that records another usage, the
    one request behind the walk sets the quota to the usage that was computed, and it was
    accepted; in every other case nothing is sent after the walk and the comparison of the
    quota with the usage is shown. *)
Theorem quota_check_repairs (c : Cmd) (o : quota_options) (s s' : RpcState W) (p : printed (Response Quota)) :
  held → I (net s) → qo_fsid o = fsId → qo_format o ≠ "json" → quota_runCheck c o s s' (Ok p) →
  ∃ epoch dir quota all s1 s2 s3,
    let used := (wrap64 (total_length false inode_at all), wrap64 (total_inodes false inode_at all + 1)) in
    locate c fsId (qo_path o) s = (s1, Ok (epoch, dir)) ∧
    accepted (GetDirQuotaRpc (mkGetDirQuota (mkContext epoch false) fsId dir true)) s1 s2 quota ∧
    below children (root_dir dir) all ∧
    GetDirectorySizeAndInodes c fsId dir false epoch (qo_threads o) s2 s3 (Ok used) ∧
    if decide (qo_repair o = true ∧ ¬ consistent quota used) then
      p = Shown (Prompt "Successfully repair dir inconsistent quota") ∧
      accepted (SetDirQuotaRpc (mkSetDirQuota (mkContext epoch true) fsId dir
        (mkQuota 0 0 used.1 used.2))) s3 s' ()
    else
      s' = s3 ∧ p = Shown (check_table ROW_INODE_ID ROW_NAME (Itoa dir) (qo_path o) "no dir quota found"
                             (comparison quota used)).
Proof.
  intros Hheld HI Hid Hf Hrun. unfold quota_runCheck in Hrun. rewrite Hid in Hrun. run_ok.
  match goal with Hl : locate _ _ _ _ = (?s1, Ok ?l) |- _ => destruct l as [epoch dir] end. run_ok.
  match goal with Hl : locate _ _ _ _ = (?s1, _), Hq : GetDirQuotaData _ _ _ _ _ = (?s2, _) |- _ =>
    assert (I (net s2)) as HI2
      by exact (keeps_Ok _ _ _ _ (keeps_GetDirQuotaData _ _ _ _) Hq
                  (keeps_Ok _ _ _ _ (keeps_locate _ _ _) Hl HI)) end.
  match goal with Hc : check_usage _ _ _ _ _ _ _ _ _ _ |- _ =>
    apply check_usage_Ok in Hc as (response & used & sw & Herr & Hres & Hu & Hend); [|done] end.
  destruct (walk_totals _ _ _ _ _ _ _ _ Hheld HI2 Hu) as (all & Hall & ->).
  match goal with Hl : locate _ _ _ _ = (?s1, _), Hq : GetDirQuotaData _ _ _ _ _ = (?s2, _) |- _ =>
    pose proof (GetDirQuotaData_accepted _ _ _ _ _ _ _ _ Hq Herr Hres) as Hacc;
    exists epoch, dir, (body response), all, s1, s2, sw end.
  cbv zeta. do 4 (split; [done|]). by apply check_end in Hend.
Qed.

(** ** Quotas of file systems *)

Lemma keeps_GetFsQuotaData c fs : keeps (GetFsQuotaData c fs).
Proof.
  assert (∀ A (m : call A), keeps m → keeps (as_rpc_error m)) as Has.
  { intros A m Hm s HI. specialize (Hm s HI). unfold as_rpc_error. by destruct (m s) as [? []]. }
  intros s HI. unfold GetFsQuotaData.
  match goal with |- I (net (match ?m s with _ => _ end).1) => assert (keeps m) as Hm; [|pose proof (Hm s HI); by destruct (m s) as [? []]] end.
  apply keeps_bind; [by apply Has|]. intros rpc.
  apply keeps_bind; [apply Has, keeps_bind; [apply keeps_GetFsInfo|done]|]. intros epoch.
  by apply keeps_bind; [apply keeps_call_result|].
Qed.

Lemma GetFsQuotaData_accepted c fs s s' r v :
  GetFsQuotaData c fs s = (s', Ok r) → or_Error r = None → or_Result r = Some v →
  ∃ epoch s1 s2, accepted (GetFsQuotaRpc (mkGetFsQuota (mkContext epoch true) fs)) s1 s2 (body v).
Proof.
  unfold GetFsQuotaData. intros Hq Herr Hres.
  match type of Hq with match ?m s with _ => _ end = _ => destruct (m s) as [s0 [r0|e|]] eqn:Hm end; simplify_eq/=.
  apply eff_bind_Ok in Hm as (s1 & rpc & _ & Hm). apply eff_bind_Ok in Hm as (s2 & epoch & _ & Hm).
  apply eff_bind_Ok in Hm as (s3 & r1 & Hc & [= <- <-]).
  apply result_or_error_None in Herr as [Herr Heq]. rewrite Heq in Hres.
  destruct (call_result_accepted _ _ _ _ _ Hc Herr) as (v' & Hv & Hacc). simplify_eq. eauto.
Qed.

(** Checking the quota of a file system is the same over the whole tree, with a file of
    several links counted once. *)
Lemma fs_quota_check_repairs (c : Cmd) (o : quota_options) fsname (s s' : RpcState W) (p : printed (Response Quota)) :
  held → I (net s) → qo_fsid o = fsId → qo_format o ≠ "json" → fs_quota_runCheck c o fsname s s' (Ok p) →
  ∃ epoch quota all eq sq sq' s1,
    accepted (GetFsQuotaRpc (mkGetFsQuota (mkContext eq true) fsId)) sq sq' quota ∧
    below children (root_dir ROOTINODEID) all ∧
    let used := (wrap64 (total_length true inode_at all), wrap64 (total_inodes true inode_at all + 1)) in
    if decide (qo_repair o = true ∧ ¬ consistent quota used) then
      p = Shown (Prompt "Successfully repair fs inconsistent quota") ∧
      accepted (SetFsQuotaRpc (mkSetFsQuota (mkContext epoch true) fsId
        (mkQuota 0 0 used.1 used.2))) s1 s' ()
    else
      s' = s1 ∧ p = Shown (check_table ROW_FS_ID ROW_FS_NAME (Itoa fsId) fsname "no fs quota set"
                             (comparison quota used)).
Proof.
  intros Hheld HI Hid Hf Hrun. unfold fs_quota_runCheck in Hrun. rewrite Hid in Hrun. run_ok.
  match goal with
  | He : GetFsEpochByFsId c fsId s = _, Hr : InitFsMDSRouter c fsId _ = _, Hq : GetFsQuotaData _ _ _ = (?s2, _) |- _ =>
    assert (I (net s2)) as HI2 by exact (keeps_Ok _ _ _ _ (keeps_GetFsQuotaData _ _) Hq
      (keeps_Ok _ _ _ _ (keeps_InitFsMDSRouter _ _) Hr (keeps_Ok _ _ _ _ (keeps_GetFsEpochByFsId _ _) He HI)))
  end.
  match goal with Hc : check_usage _ _ _ _ _ _ _ _ _ _ |- _ =>
    apply check_usage_Ok in Hc as (response & used & sw & Herr & Hres & Hu & Hend); [|done] end.
  destruct (walk_totals _ _ _ _ _ _ _ _ Hheld HI2 Hu) as (all & Hall & ->).
  match goal with Hq : GetFsQuotaData _ _ _ = _ |- _ =>
    destruct (GetFsQuotaData_accepted _ _ _ _ _ _ Hq Herr Hres) as (eq & sq & sq' & Hacc) end.
  eexists _, (body response), all, eq, sq, sq', sw. do 2 (split; [done|]).
  simpl. by apply check_end in Hend.
Qed.

End Facts.

(** * Subpaths *)

Section Subpaths.
Context {W : Type} `{Proto, ZMapOrder, Grpc W, MDSServiceClient W, Viper, Texts}.

(** C36: Creating a directory.  The check for an existing entry is the wrong way round.  When
    the parent directory has no entry of the name, or the entries cannot be read, nothing is
    sent after they were asked for - the directory is not created - and the command without
    JSON fails.  Only when there is an entry of that name already is the request to make the
    directory sent, and it was accepted if the command, without JSON, succeeds. *)
Theorem subpath_create_needs_entry (c : Cmd) (o : subpath_options) (s s' : RpcState W)
    (r : res error (printed (Response ()))) :
  subpath_runCreate c o s = (s', r) →
  match locate c (so_fsid o) (so_parent o) s with
  | (s1, Ok (epoch, parent)) =>
      let '(s2, l) := ListDentry c (so_fsid o) parent epoch s1 in
      ((¬ ∃ entries e, l = Ok entries ∧ e ∈ entries ∧ de_Name e = so_name o) →
         s' = s2 ∧ (so_format o ≠ "json" → r = match l with Panic => Panic | _ => Err (ECode ERR_RPC_FAILED) end)) ∧
      ((∃ entries e, l = Ok entries ∧ e ∈ entries ∧ de_Name e = so_name o) →
         s' = (mkDir c o parent epoch s2).1 ∧
         ∀ p, so_format o ≠ "json" → r = Ok p →
           accepted (MkDirRpc (mkMkDir (mkContext epoch false) (so_fsid o) (so_name o) DirectoryLength
             (so_uid o) (so_gid o) Mode parent)) s2 s' ())
  | (s1, Err e) => s' = s1 ∧ r = Err e
  | (s1, Panic) => s' = s1 ∧ r = Panic
  end.
Proof.
  unfold subpath_runCreate, create_result, checkPathIsExist, mbind, eff_bind, pure_eff.
  destruct (locate _ _ _ s) as [s1 [[epoch parent]|e|]]; [|by intros [= <- <-]..]. simpl.
  destruct (ListDentry c (so_fsid o) parent epoch s1) as [s2 [entries|e|]]; simpl.
  2,3: intros [= <- <-]; (split; [|by intros (? & ? & ? & _)]); intros _; split; [done|];
    intros Hf; unfold print_result; by rewrite ?decide_False by done.
  destruct (find_first _ entries) as [e|] eqn:He; simpl.
  - apply find_first_Some in He as [Hin Hname%bool_decide_eq_true]. intros Hr. split.
    { intros Hno. destruct Hno. eauto. }
    intros _. destruct (mkDir c o parent epoch s2) as [s3 [m|e'|]] eqn:Hm; simplify_eq/=;
      (split; [done|]); [|done..]. intros p Hf (Herr & _)%print_result_shown; [|done].
    destruct (call_owner_accepted _ _ _ _ _ _ _ Hm Herr) as (v & _ & Hacc). by destruct (body v).
  - intros [= <- <-]. split.
    + intros _. split; [done|]. intros Hf. unfold print_result. by rewrite decide_False.
    + intros (entries' & e & [= <-] & Hin & Hname). exfalso.
      eapply find_first_None in He; [|exact Hin]. by rewrite bool_decide_true in He.
Qed.

(** Deleting a directory: an error of the deletion is a nil dereference. *)
Lemma delete_failure_panics c o parent epoch inodeId (s s' : RpcState W) e :
  deleteDirectory c (so_fsid o) epoch parent inodeId (so_name o) (so_threads o) s s' (Err e) →
  delete_found c o parent epoch inodeId s s' Panic.
Proof. intros Hd. exists (Err e). by split. Qed.

End Subpaths.

(** * Examples *)

Section Examples.
#[local] Existing Instances sample_proto canonical_zorder sample_grpc sample_client sample_viper sample_texts.

(** Commands as their arguments leave them: a limit of ten GiB, and a repair. *)
Definition set_flag (name : string) (v : flag_value) (c : Cmd) : Cmd :=
  {| flags := <[name := mkFlag v true]> (flags c); required := required c; bound := bound c |}.
Definition sample_set : Cmd := set_flag DINGOFS_QUOTA_CAPACITY (FUint64 10) (bare NewQuotaSetCommand).
Definition sample_check : Cmd := bare NewQuotaCheckCommand.
Definition sample_options : quota_options := mkQuotaOptions 9 "/" 8 true 10737418240 MaxInt64 "plain".
Definition fresh_state : RpcState nat := mkRpcState ∅ ∅ None O.

Lemma sample_stable : stable (W := nat) (λ _, True).
Proof. split; [apply sample_dial_keeps|]. intros A f. by apply sample_honest. Qed.

Lemma sample_held : held (W := nat) (λ _, True) 9 sample_children sample_inode sample_rank.
Proof. split; [apply sample_acyclic|apply sample_truthful]. Qed.

(** The router of the file system, as [locate] leaves it. *)
Definition sample_located (c : Cmd) : RpcState nat := (locate c 9 "/" fresh_state).1.
Definition sample_hash : MDSRouter :=
  Eval vm_compute in default sample_router (mdsRouter (sample_located sample_set)).

Lemma hash_GetMDS_mod i j h hp :
  hashPartition h = Some hp → i mod BucketNum hp = j mod BucketNum hp → hash_GetMDS i h = hash_GetMDS j h.
Proof. unfold hash_GetMDS. intros -> Hm. by rewrite Hm. Qed.

Lemma sample_hash_routes ino :
  ∃ d l, router_GetMDS ino sample_hash = Ok (Some d) ∧ mds_Location d = Some l.
Proof.
  assert (∃ k, (k = 0 ∨ k = 1 ∨ k = 2 ∨ k = 3) ∧ ino mod 4 = k mod 4) as (k & Hk & Hm).
  { exists (ino mod 4). pose proof (Z.mod_pos_bound ino 4). rewrite Zmod_mod. lia. }
  assert (router_GetMDS ino sample_hash = router_GetMDS k sample_hash) as ->.
  { unfold sample_hash, router_GetMDS. eapply hash_GetMDS_mod; [reflexivity|exact Hm]. }
  destruct Hk as [-> |[-> |[-> | ->]]]; eexists _, _; split; reflexivity.
Qed.

(** Both commands find the root, with the router. *)
Lemma sample_locate c : c = sample_set ∨ c = sample_check →
  (locate c 9 "/" fresh_state).2 = Ok (5, 1) ∧ mdsRouter (sample_located c) = Some sample_hash.
Proof. intros [-> | ->]; split; vm_compute; reflexivity. Qed.

Lemma run_bind_intro {St A B} (m : run St A) (f : A → run St B) s s1 s' a r :
  m s s1 (Ok a) → f a s1 s' r → (m ≫= f) s s' r.
Proof. intros Hm Hf. left. eauto. Qed.
Lemma lift_eval {St A} (m : eff error St A) s a : (m s).2 = Ok a → lift m s (m s).1 (Ok a).
Proof. unfold lift. destruct (m s). by intros [= ->]. Qed.

Lemma pure_run_eval {St A} (r : res error A) a (s : St) : r = Ok a → pure_run r s s (Ok a).
Proof. by intros ->. Qed.

Lemma sample_answered {A} (f : RpcFunc A) : answered (W := nat) (λ _, True) f.
Proof. intros c w _. destruct f; by eexists _, _. Qed.

Lemma sample_accepts {A} rpc (f : RpcFunc A) (s : RpcState nat) :
  Addrs rpc ≠ [] → ∃ s' v, call_result rpc f s = (s', Ok (mkOutputResult None (Some v))) ∧ mdsRouter s' = mdsRouter s.
Proof.
  intros Ha. destruct (Addrs rpc) as [|a l] eqn:Haddr; [done|].
  destruct (GetRpcResponse_answered (λ _, True) rpc f a l s) as (s' & v & Hs & _ & Hr & Hok);
    [apply sample_dial_connects|apply sample_answered|done|done|].
  exists s', v. unfold call_result. by rewrite Hs, decide_True.
Qed.

Lemma sample_walk c s threads :
  c = sample_set ∨ c = sample_check → mdsRouter s = Some sample_hash →
  ∃ s' v, GetDirectorySizeAndInodes c 9 1 false 5 threads s s' (Ok v).
Proof.
  intros Hc Hr. apply (run_exists c 9 5 false sample_children sample_inode (λ _, True) sample_rank sample_hash);
    [apply sample_truthful| |apply sample_acyclic|done|done].
  apply sample_answering; [apply sample_hash_routes|].
  intros a name. destruct Hc as [-> | ->]; eexists; vm_compute; reflexivity.
Qed.

Lemma GetEndPoint_known (s : RpcState nat) ino r d l :
  mdsRouter s = Some r → router_GetMDS ino r = Ok (Some d) → mds_Location d = Some l →
  GetEndPoint ino s = (s, Ok [location_text l]).
Proof.
  intros Hr Hd Hl. unfold GetEndPoint, GetFsMDSRouter, mbind, eff_bind, pure_eff. by rewrite Hr, Hd, Hl.
Qed.

Lemma sample_set_runs : ∃ s' p, quota_runSet sample_set sample_options fresh_state s' (Ok p).
Proof.
  destruct (sample_locate sample_set) as [Hl Hr]; [by left|].
  set (s1 := sample_located sample_set) in *.
  assert (∃ e, (GetEndPoint 1 s1).2 = Ok [e] ∧ (GetEndPoint 1 s1).1 = s1) as (e & He & Hs).
  { destruct (sample_hash_routes 1) as (d & l & Hd & Hloc). exists (location_text l).
    pose proof (GetEndPoint_known s1 1 _ _ _ Hr Hd Hloc) as Hg. clearbody s1. rewrite Hg. split; reflexivity. }
  destruct (sample_walk sample_set s1 8) as (s2 & v & Hw); [by left|done|].
  assert (∃ rpc, CreateNewMdsRpcWithEndPoint sample_set [e] "SetDirQuota" = Ok rpc ∧ Addrs rpc = [e])
    as (rpc & Hrpc & Ha) by (eexists; split; vm_compute; reflexivity).
  destruct (sample_accepts rpc (SetDirQuotaRpc (mkSetDirQuota (mkContext 5 false) 9 1
    (mkQuota 10737418240 9223372036854775807 v.1 v.2))) s2) as (s3 & r & Hres & _); [by rewrite Ha|].
  eexists s3, _. unfold quota_runSet, sample_options.
  cbn [qo_fsid qo_path qo_threads qo_format qo_capacity qo_inodes].
  eapply run_bind_intro; [apply pure_run_eval; vm_compute; reflexivity|].
  eapply run_bind_intro; [apply lift_eval; exact Hl|]. cbv beta iota.
  change ((locate sample_set 9 "/" fresh_state).1) with s1.
  eapply run_bind_intro; [apply lift_eval; exact He|]. rewrite Hs.
  eapply run_bind_intro; [apply pure_run_eval; exact Hrpc|].
  eapply run_bind_intro; [exact Hw|].
  eapply run_bind_intro; [exact Hres|]. done.
Qed.

Lemma quota_set_records_usage_witness :
  ∃ s' q epoch dir all s1, GetQuotaFlags sample_set = Ok q ∧
    (locate sample_set 9 "/" fresh_state).2 = Ok (epoch, dir) ∧ below sample_children (root_dir dir) all ∧
    accepted (SetDirQuotaRpc (mkSetDirQuota (mkContext epoch false) 9 dir
      (mkQuota q.1 q.2 (wrap64 (total_length false sample_inode all))
                       (wrap64 (total_inodes false sample_inode all + 1))))) s1 s' ().
Proof.
  destruct sample_set_runs as (s' & p & Hrun). exists s'.
  exact (quota_set_records_usage (λ _, True) sample_stable 9 sample_children sample_inode sample_rank
    sample_set sample_options fresh_state s' p sample_held I eq_refl ltac:(discriminate) Hrun).
Defined.

Lemma sample_repairs name (f : RpcFunc ()) (s : RpcState nat) : ∃ s', repair_quota sample_check name f s = (s', Ok ()).
Proof.
  assert (∃ rpc, CreateNewMdsRpc sample_check name = Ok rpc ∧ Addrs rpc = ["127.0.0.1:7400"])
    as (rpc & Hrpc & Ha) by (eexists; split; vm_compute; reflexivity).
  destruct (GetRpcResponse_answered (λ _, True) rpc f "127.0.0.1:7400" [] s sample_dial_connects)
    as (s' & v & Hs & _ & _ & Hok); [apply sample_answered|exact Ha|done|].
  exists s'. unfold repair_quota, request, mbind, eff_bind, pure_eff, checked. rewrite Hrpc, Hs.
  rewrite decide_True by done. by destruct (body v).
Qed.

Lemma sample_check_runs :
  ∃ s' p, quota_runCheck sample_check (mkQuotaOptions 9 "/" 8 true 0 0 "plain") fresh_state s' (Ok p).
Proof.
  destruct (sample_locate sample_check) as [Hl Hr]; [by right|].
  assert (∃ r, (GetDirQuotaData sample_check 9 1 5 (sample_located sample_check)).2 =
    Ok (mkOutputResult None (Some (mkResponse r (mkQuota 0 0 0 0)))) ∧
    mdsRouter (GetDirQuotaData sample_check 9 1 5 (sample_located sample_check)).1 = Some sample_hash)
    as (r & Hq & Hr2) by (eexists; split; vm_compute; reflexivity).
  revert Hq Hr2. set (s2 := (GetDirQuotaData sample_check 9 1 5 (sample_located sample_check)).1).
  intros Hq Hr2. destruct (sample_walk sample_check s2 8) as (s3 & v & Hw); [by right|done|].
  assert (v = (210, 6)) as ->.
  { destruct (size_run sample_check 9 5 false sample_children sample_inode (λ _, True) 1 8 s2 s3 v
      sample_below (sample_truthful 9 5) I sample_below_root Hw) as [-> _]. vm_compute. reflexivity. }
  destruct (sample_repairs "SetDirQuota" (SetDirQuotaRpc
    (mkSetDirQuota (mkContext 5 true) 9 1 (mkQuota 0 0 210 6))) s3) as (s4 & Hs4).
  eexists s4, _. unfold quota_runCheck. cbn [qo_fsid qo_path qo_threads qo_format qo_repair].
  eapply run_bind_intro; [apply lift_eval; exact Hl|]. cbv beta iota.
  eapply run_bind_intro; [apply lift_eval; exact Hq|]. unfold check_usage.
  rewrite decide_False by discriminate. cbn [or_Error or_Result].
  eapply run_bind_intro; [exact Hw|]. cbn [CheckQuota].
  eapply run_bind_intro; [exact Hs4|]. by split.
Qed.

Lemma quota_check_repairs_witness :
  ∃ s' p, quota_runCheck sample_check (mkQuotaOptions 9 "/" 8 true 0 0 "plain") fresh_state s' (Ok p) ∧
  ∃ epoch dir quota all s1 s2 s3,
    let used := (wrap64 (total_length false sample_inode all), wrap64 (total_inodes false sample_inode all + 1)) in
    locate sample_check 9 "/" fresh_state = (s1, Ok (epoch, dir)) ∧
    accepted (GetDirQuotaRpc (mkGetDirQuota (mkContext epoch false) 9 dir true)) s1 s2 quota ∧
    below sample_children (root_dir dir) all ∧
    GetDirectorySizeAndInodes sample_check 9 dir false epoch 8 s2 s3 (Ok used) ∧
    if decide (true = true ∧ ¬ consistent quota used) then
      p = Shown (Prompt "Successfully repair dir inconsistent quota") ∧
      accepted (SetDirQuotaRpc (mkSetDirQuota (mkContext epoch true) 9 dir
        (mkQuota 0 0 used.1 used.2))) s3 s' ()
    else
      s' = s3 ∧ p = Shown (check_table ROW_INODE_ID ROW_NAME (Itoa dir) "/" "no dir quota found"
                             (comparison quota used)).
Proof.
  destruct sample_check_runs as (s' & p & Hrun). exists s', p. split; [exact Hrun|].
  exact (quota_check_repairs (λ _, True) sample_stable 9 sample_children sample_inode sample_rank
    sample_check (mkQuotaOptions 9 "/" 8 true 0 0 "plain") fresh_state s' p sample_held I eq_refl
    ltac:(discriminate) Hrun).
Defined.

Definition sample_subpath (name : string) : subpath_options :=
  mkSubpathOptions 9 ("/" +:+ name) name "/" 0 0 8 "plain".

(** [d] is a directory of the root: the command says that it has created it.  [new] is not
    there: it is not created, and the command fails. *)
Example create_existing_and_new :
  (subpath_runCreate (bare NewSubpathCreateCommand) (sample_subpath "d") fresh_state).2 =
    Ok (Shown (Prompt "Successfully create directory: /d")) ∧
  (subpath_runCreate (bare NewSubpathCreateCommand) (sample_subpath "new") fresh_state).2 =
    Err (ECode ERR_RPC_FAILED).
Proof. split; vm_compute; reflexivity. Qed.

Lemma pair_of_snd {A B} (m : A * B) b : m.2 = b → m = (m.1, b).
Proof. destruct m. by intros [= ->]. Qed.

(** The directory [new] is not there: nothing is sent behind the list of the root. *)
Lemma subpath_create_needs_entry_witness :
  let c := bare NewSubpathCreateCommand in
  (subpath_runCreate c (sample_subpath "new") fresh_state).1
    = (ListDentry c 9 1 5 (locate c 9 "/" fresh_state).1).1 ∧
  (subpath_runCreate c (sample_subpath "new") fresh_state).2 = Err (ECode ERR_RPC_FAILED).
Proof.
  pose proof (subpath_create_needs_entry (bare NewSubpathCreateCommand) (sample_subpath "new") fresh_state
    _ _ (surjective_pairing _)) as Ht.
  cbn [so_fsid so_parent so_name so_format sample_subpath] in Ht.
  assert ((locate (bare NewSubpathCreateCommand) 9 "/" fresh_state).2 = Ok (5, 1)) as Hl
    by (vm_compute; reflexivity).
  assert (∃ l, (ListDentry (bare NewSubpathCreateCommand) 9 1 5
      (locate (bare NewSubpathCreateCommand) 9 "/" fresh_state).1).2 = Ok l ∧
    Forall (λ e, de_Name e ≠ "new") l) as (l & Hd & Hno).
  { eexists. split; [vm_compute; reflexivity|]. apply (bool_decide_unpack _). vm_compute. exact I. }
  apply pair_of_snd in Hl, Hd. rewrite Hl in Ht. cbv beta iota in Ht. rewrite Hd in Ht.
  cbv beta iota in Ht. destruct Ht as [Ht _].
  destruct Ht as [Hs Hr].
  - intros (l' & e & Hl' & Hin & Hname). injection Hl' as <-. rewrite Forall_forall in Hno.
    exact (Hno e Hin Hname).
  - split; [exact Hs|]. apply Hr. discriminate.
Defined.

End Examples.
