(* ===== verification/ComponentCmd.v ===== *)
(** The commands on components (src/cli/command/component: install.go, list.go, uninstall.go,
    update.go, use.go) over the manager of Components.v, and how a command gets one
    ([NewComponentManager] of src/internal/component/component_manager.go).

    A command takes the manager to a manager and a result; what it prints on success is
    left out, but for the rows of the list. *)

From S2P Require Import Prelude Errno GoLib Utils Components.

(** ** The manager of a command *)

Section start.
Context `{MapOrder} (w : World).
(** The mirror, the data of its repositories, and whether the directory could be made. *)
Context (RepostoryDir Mirror_URL : string) (NewBinaryRepoData : string → string → res error BinaryRepoData).
Context (MkdirAll : bool).

(** [file] is what the file of the installed components holds: nothing when there is none. *)
Definition NewComponentManager (file : res error (option (list Component))) : res error ComponentManager :=
  if negb MkdirAll then Panic else
  repos ← fold_res (λ m name, d ← NewBinaryRepoData Mirror_URL name; Ok (<[name := d]> m)) ALL_COMPONENTS ∅;
  stored ← file;
  let cm := (LoadInstalledComponents (mkManager RepostoryDir [] [] repos Mirror_URL stored)).1 in
  let '(cm, r) := LoadAvailableComponents w cm in
  _ ← r; Ok cm.
End start.

(** ** The commands *)

Definition or_latest (version : string) : string := if decide (version = "") then LASTEST_VERSION else version.

Section commands.
Context `{MapOrder} (w : World).
Implicit Types cm : ComponentManager.

Fixpoint runInstall cm (comps installed_ : list string) : ComponentManager * res error (list string) :=
  match comps with
  | [] => (cm, Ok installed_)
  | comp :: comps =>
      let '(name, version) := ParseComponentVersion comp in
      match InstallComponent w cm name (or_latest version) with
      | (cm, (_, Some e)) => (cm, Err e)
      | (cm, (Some c, None)) => runInstall cm comps (installed_ ++ [Name c +:+ ":" +:+ Components.Version c])
      | (cm, (None, None)) => (cm, Panic)
      end
  end.

(** The error of an update, which looks at the component that came with it. *)
Definition update_error (name version : string) (c : option Component) (e : error) : res error () :=
  if decide (e = ErrAlreadyLatest) then
    match c with
    | None => Panic
    | Some c => Err (EText (name +:+ ":" +:+ Components.Version c +:+ " already with latest build: " +:+ Release c +:+
                            ", commit: " +:+ Commit c +:+ bytes [10]))
    end
  else if decide (e = ErrAlreadyExist) then
    match c with
    | None => Panic
    | Some c => Err (EText (name +:+ ":" +:+ Components.Version c +:+ " already installed" +:+ bytes [10]))
    end
  else Err (EText ("update component " +:+ name +:+ ":" +:+ version +:+ " failed: " +:+
                   match e with EText t => t | ECode _ => "" end)).
Definition updateFunc cm (name version : string) : ComponentManager * res error () :=
  let '(cm, (c, e)) := UpdateComponent w cm name version in
  (cm, match e with Some e => update_error name version c e | None => Ok () end).
Fixpoint update_each cm (l : list (string * string)) : ComponentManager * res error () :=
  match l with
  | [] => (cm, Ok ())
  | (name, version) :: l =>
      match updateFunc cm name version with
      | (cm, Ok _) => update_each cm l
      | r => r
      end
  end.
Definition runUpdate cm (comps : list string) (all : bool) : ComponentManager * res error () :=
  if all then
    let '(cm, l) := LoadInstalledComponents cm in
    match l with
    | [] => (cm, Err (EText "no component installed"))
    | _ => update_each cm ((λ c, (Name c, Components.Version c)) <$> l)
    end
  else update_each cm ((λ comp, let '(name, version) := ParseComponentVersion comp in (name, or_latest version)) <$> comps).

Definition as_res (e : option error) : res error () := match e with Some e => Err e | None => Ok () end.
(** The binaries that are removed twice are not part of the state. *)
Definition runUninstall cm (component : string) (all force : bool) : ComponentManager * res error () :=
  let '(name, version) := ParseComponentVersion component in
  if all then
    if decide (version ≠ "") then (cm, Err (EText "cannot specify version when --all is set")) else
    let '(cm, (_, e)) := RemoveComponents w cm name true in (cm, as_res e)
  else if decide (version = "") then (cm, Err (EText "Must be specify version to uninstall")) else
  let '(cm, e) := RemoveComponent w cm name version force true in (cm, as_res e).

Definition runUse cm (component : string) : ComponentManager * res error () :=
  let '(name, version) := ParseComponentVersion component in
  match SetDefaultVersion cm name (or_latest version) with
  | (cm, Some e) => (cm, Err e)
  | (cm, None) => let '(cm, e) := SaveInstalledComponents w cm in (cm, as_res e)
  end.

(** The rows of the list: their columns are aligned by a library. *)
Definition LIST_TITLE (verbose : bool) : list string :=
  if verbose then ["Name"; "Version"; "Installed"; "Release"; "Commit"; "Active"; "Path"]
  else ["Name"; "Version"; "Installed"; "Commit"; "Active"].
Definition list_row (verbose : bool) (c : Component) : list string :=
  let installText := if IsInstalled c then "Yes" else "" in
  let activeText := if IsInstalled c && IsActive c then "Yes" else "" in
  if verbose then [Name c; Components.Version c; installText; Release c; Commit c; activeText; Path c]
  else [Name c; Components.Version c; installText; Commit c; activeText].
Definition FormatOutput (components : list Component) (verbose installed_ : bool) : list (list string) :=
  LIST_TITLE verbose :: ((λ t, repeat_string (String.length t) "-") <$> LIST_TITLE verbose) ::
  (list_row verbose <$> filter (λ c, negb (installed_ && negb (IsInstalled c)) = true) components).
(** [None]: nothing is available. *)
Definition comp_runList cm (verbose installed_ : bool) : option (list (list string)) :=
  match ListComponents cm with [] => None | l => Some (FormatOutput l verbose installed_) end.
End commands.

(** ** What they do *)

Section facts.
Context `{MapOrder} (w : World).
Implicit Types cm : ComponentManager.

Definition vkey (c : Component) : string * string := (Name c, Components.Version c).

(** The manager after a version was installed or replaced. *)
Record installs cm (name fv : string) (d : BinaryDetail) (cm' : ComponentManager) : Prop := {
  in_repodata : repodata cm' = repodata cm;
  in_disk : disk cm' = Some (installed cm');
  in_has : (name, fv) ∈ vkey <$> installed cm';
  in_keys : ∀ k, k ∈ vkey <$> installed cm → k ∈ vkey <$> installed cm';
  in_active : ∀ e, e ∈ installed cm' → vkey e = (name, fv) → IsActive e = true;
  in_new : ∀ e, e ∈ installed cm' → vkey e = (name, fv) ∨ ∃ e0, e0 ∈ installed cm ∧ e = default_entry name fv e0;
}.

Lemma replace_first_other name version new l c :
  Name new = name → Components.Version new = version →
  c ∈ replace_first name version new l → c = new ∨ c ∈ l.
Proof. intros _ _. apply replace_first_elem. Qed.

Lemma vkey_default name fv c : vkey (default_entry name fv c) = vkey c.
Proof. unfold vkey. by destruct (default_entry_keys name fv c) as [-> ->]. Qed.

Lemma install_Ok cm name fv d replace cm' c :
  (replace = true → (name, fv) ∈ vkey <$> installed cm) →
  install w cm name fv d replace = (cm', (c, None)) → installs cm name fv d cm' ∧ is_Some c.
Proof.
  intros Hrep. unfold install. destruct (download w _ _); [done|].
  set (new := mkComponent _ _ _ _ _ _ _ _). set (l := if replace then _ else _).
  unfold SetDefaultVersion. destruct (existsb _ _); [|done]. unfold SaveInstalledComponents.
  destruct (write_file w); [done|]. intros [= <- <-]. split; [|by eexists].
  assert (vkey new = (name, fv)) as Hnew by done.
  assert (∀ k, k ∈ vkey <$> l ↔ k ∈ vkey <$> installed cm ∨ k = (name, fv)) as Hk.
  { intros k. unfold l. destruct replace.
    - unfold vkey at 1. rewrite (replace_first_keys name fv new) by done. fold vkey. split; [by left|].
      intros [?| ->]; [done|]. by apply Hrep.
    - rewrite fmap_app, elem_of_app. change (vkey <$> [new]) with [(name, fv)]. by rewrite list_elem_of_singleton. }
  assert (vkey <$> (default_entry name fv <$> l) = vkey <$> l) as Hd.
  { rewrite <-list_fmap_compose. apply list_fmap_ext. intros i e _. apply vkey_default. }
  constructor; simpl; [done|done| | | |].
  - rewrite Hd. apply Hk. by right.
  - intros k Hin. rewrite Hd. apply Hk. by left.
  - intros e (e0 & -> & He)%list_elem_of_fmap. rewrite vkey_default. intros [= <- <-].
    by rewrite default_entry_active, decide_True, bool_decide_true.
  - intros e (e0 & -> & He)%list_elem_of_fmap. rewrite vkey_default.
    assert (e0 = new ∨ e0 ∈ installed cm) as [->|He0]; [|by left|right; by exists e0].
    unfold l in He. destruct replace; [by apply replace_first_elem in He|].
    apply elem_of_app in He as [?|?%list_elem_of_singleton]; auto.
Qed.

Lemma update_Ok cm name version cm' c :
  UpdateComponent w cm name version = (cm', (c, None)) →
  ∃ fv d, FindVersion cm name version = Ok (fv, d) ∧ installs cm name fv d cm' ∧
    ((name, fv) ∉ vkey <$> installed cm ∨
     version ≠ LASTEST_VERSION ∧ ∃ c0, c0 ∈ installed cm ∧ vkey c0 = (name, fv) ∧ String.ltb (Release c0) (BuildTime d) = true).
Proof.
  unfold UpdateComponent, installOrUpdateComponent.
  destruct (FindVersion cm name version) as [[fv d]|e|] eqn:Hf; [|done|].
  2: { unfold FindVersion in Hf. repeat (case_match; try done). }
  unfold FindInstallComponent. destruct (find_first _ _) as [c0|] eqn:E; simpl.
  - apply find_first_Some in E as [Hin Hv]. apply is_version_true in Hv as [Hn Hv].
    case_decide as Hl; [done|]. destruct (String.ltb (Release c0) (BuildTime d)) eqn:Hb; simpl; [|done].
    intros (Hi & _)%install_Ok; [|intros _; apply list_elem_of_fmap; exists c0; by rewrite <-Hn, <-Hv].
    exists fv, d. split_and!; [done..|]. right. split; [done|]. exists c0. unfold vkey. by rewrite Hn, Hv.
  - intros (Hi & _)%install_Ok; [|done]. exists fv, d. split_and!; [done..|]. left. by apply find_version_None.
Qed.

Lemma updateFunc_Ok cm name version cm' :
  updateFunc w cm name version = (cm', Ok ()) → ∃ c, UpdateComponent w cm name version = (cm', (c, None)).
Proof.
  unfold updateFunc. destruct (UpdateComponent w cm name version) as [cm1 [c [e|]]]; [|by intros [= ->]; eexists].
  unfold update_error. intros [= _ Hu]. repeat case_match; done.
Qed.

(** The version of [FindVersion] is the one that was asked for, unless that is the latest. *)
Lemma FindVersion_same cm name version fv d :
  FindVersion cm name version = Ok (fv, d) → version ≠ LASTEST_VERSION → fv = version.
Proof. unfold FindVersion. intros Hf Hl. case_match; [|done]. rewrite decide_False in Hf by done. repeat case_match; by simplify_eq. Qed.
Lemma FindVersion_repodata cm cm' name version :
  repodata cm' = repodata cm → FindVersion cm' name version = FindVersion cm name version.
Proof. unfold FindVersion. by intros ->. Qed.

Lemma keys_unique l c d : wf_installed l → c ∈ l → d ∈ l → vkey c = vkey d → c = d.
Proof.
  intros [Hnd _] Hc Hd Hk. apply list_elem_of_lookup in Hc as [i Hi], Hd as [j Hj].
  assert (i = j) as ->; [|congruence]. eapply NoDup_lookup; [exact Hnd| |].
  - by rewrite list_lookup_fmap, Hi.
  - rewrite list_lookup_fmap, Hj. simpl. f_equal. symmetry. exact Hk.
Qed.

(** What is kept of the components that an update is still to come to: their versions and
    their builds. *)
Definition kept (l : list Component) cm : Prop :=
  ∀ c, c ∈ l → ∃ c', c' ∈ installed cm ∧ vkey c' = vkey c ∧ Release c' = Release c.
Lemma kept_installs l c cm cm' fv d :
  NoDup (vkey <$> c :: l) → kept (c :: l) cm → fv = Components.Version c → wf_manager cm → wf_manager cm' →
  installs cm (Name c) fv d cm' → kept l cm'.
Proof.
  intros Hnd Hk -> Hw Hw' Hi e He. destruct (Hk e) as (e' & Hin & Hkey & Hrel); [by right|].
  assert (vkey e ≠ vkey c) as Hne.
  { intros Heq. rewrite fmap_cons in Hnd. apply NoDup_cons in Hnd as [Hnd _]. apply Hnd.
    rewrite <-Heq. by apply list_elem_of_fmap_2. }
  destruct (proj1 (list_elem_of_fmap _ _ _) (in_keys _ _ _ _ _ Hi (vkey e) ltac:(rewrite <-Hkey; by apply list_elem_of_fmap_2)))
    as (e1 & Hk1 & He1).
  exists e1. split_and!; [done|done|].
  destruct (in_new _ _ _ _ _ Hi e1 He1) as [Hbad|(e0 & He0 & ->)]; [by rewrite <-Hk1 in Hbad|].
  rewrite vkey_default in Hk1. pose proof (keys_unique (installed cm) e0 e' (proj1 Hw) He0 Hin ltac:(congruence)) as ->.
  rewrite <-Hrel. unfold default_entry. by case_decide.
Qed.

(** Updating everything that is installed.  It succeeds only when a newer build exists for
    every version that is installed: it stops with an error at the first that is up to
    date. *)
Theorem update_all_needs_newer cm cm' comps l :
  wf_manager cm → disk cm = Some l → Forall (λ c, Components.Version c ≠ LASTEST_VERSION) l →
  runUpdate w cm comps true = (cm', Ok ()) →
  ∀ c, c ∈ l →
  ∃ d, FindVersion cm (Name c) (Components.Version c) = Ok (Components.Version c, d) ∧
       String.ltb (Release c) (BuildTime d) = true.
Proof.
  intros Hw Hd Hlat. unfold runUpdate, LoadInstalledComponents. rewrite Hd.
  assert (wf_manager (set_installed cm l)) as Hw1 by (apply wf_set; [done|]; by apply Hw).
  assert (kept l (set_installed cm l)) as Hk by (intros c Hc; by exists c).
  assert (NoDup (vkey <$> l)) as Hnd by apply (proj1 Hw1).
  assert (repodata (set_installed cm l) = repodata cm) as Hr by done.
  revert Hw1 Hk Hr. generalize (set_installed cm l) as cm1. intros cm1 Hw1 Hk Hr Hu.
  assert (update_each w cm1 (vkey <$> l) = (cm', Ok ())) as Hu' by by destruct l.
  clear Hu Hd. revert cm1 Hw1 Hk Hr Hu'. induction l as [|c l IH]; intros cm1 Hw1 Hk Hr Hu x Hx; [by apply elem_of_nil in Hx|].
  apply Forall_cons in Hlat as [Hc Hlat]. rewrite fmap_cons in Hu. unfold vkey at 1 in Hu. simpl in Hu.
  destruct (updateFunc w cm1 (Name c) (Components.Version c)) as [cm2 [[]|e|]] eqn:Hf; [|done..].
  apply updateFunc_Ok in Hf as [o Ho]. pose proof (wf_installOrUpdate w cm1 (Name c) (Components.Version c) true Hw1) as Hw2.
  pose proof Ho as Ho'. unfold UpdateComponent in Ho'. rewrite Ho' in Hw2. apply update_Ok in Ho as (fv & d & Hv & Hi & Hnew).
  pose proof (FindVersion_same _ _ _ _ _ Hv Hc) as ->. destruct (Hk c) as (c' & Hin & Hkey & Hrel); [left|].
  apply elem_of_cons in Hx as [->|Hx].
  - exists d. rewrite <-(FindVersion_repodata cm cm1) by done. split; [done|].
    destruct Hnew as [Hni|(_ & c0 & Hc0 & Hk0 & Hb)].
    { exfalso. apply Hni. change (vkey c ∈ vkey <$> installed cm1). rewrite <-Hkey. by apply list_elem_of_fmap_2. }
    pose proof (keys_unique (installed cm1) c0 c' (proj1 Hw1) Hc0 Hin ltac:(by rewrite Hk0, Hkey)) as ->.
    by rewrite <-Hrel.
  - eapply (IH Hlat _ cm2); [done| | |exact Hu|done].
    + by eapply (kept_installs l c cm1 cm2 (Components.Version c) d).
    + by rewrite (in_repodata _ _ _ _ _ Hi).
  Unshelve. by apply NoDup_cons in Hnd as [_ Hnd].
Qed.

(** The one version of a name that is active. *)
Definition activates (name version : string) cm : Prop :=
  (name, version) ∈ vkey <$> installed cm ∧
  ∀ e, e ∈ installed cm → Name e = name → IsActive e = bool_decide (Components.Version e = version).
Lemma installs_activates cm name fv d cm' :
  installs cm name fv d cm' → activates name fv cm'.
Proof.
  intros Hi. split; [by eapply in_has|]. intros e He Hn.
  destruct (in_new _ _ _ _ _ Hi e He) as [Hk|(e0 & He0 & ->)].
  - rewrite (in_active _ _ _ _ _ Hi e He Hk). injection Hk as _ ->. by rewrite bool_decide_true.
  - destruct (default_entry_keys name fv e0) as [Hn0 Hv0]. rewrite Hn0 in Hn. rewrite Hv0.
    rewrite default_entry_active. by rewrite decide_True.
Qed.
Lemma installs_other cm name fv d cm' n v :
  installs cm name fv d cm' → n ≠ name → activates n v cm → activates n v cm'.
Proof.
  intros Hi Hne [Hin Ha]. split; [by eapply in_keys|]. intros e He Hn.
  destruct (in_new _ _ _ _ _ Hi e He) as [Hk|(e0 & He0 & ->)]; [injection Hk as Hk _; congruence|].
  destruct (default_entry_keys name fv e0) as [Hn0 Hv0]. rewrite Hn0 in Hn. rewrite Hv0, default_entry_active.
  rewrite decide_False by congruence. by apply Ha.
Qed.
Lemma GetActive_activates name version cm :
  activates name version cm → ∃ c, GetActiveComponent cm name = (Some c, None) ∧ Components.Version c = version.
Proof.
  intros [(c & Hk & Hc)%list_elem_of_fmap Ha]. unfold GetActiveComponent.
  destruct (find_first _ _) as [x|] eqn:E.
  - apply find_first_Some in E as [Hx [Hn Hac]%andb_prop]. apply bool_decide_eq_true in Hn.
    exists x. split; [done|]. rewrite (Ha x Hx Hn) in Hac. by apply bool_decide_eq_true in Hac.
  - pose proof (proj1 (find_first_None _ _) E c Hc) as Hf. injection Hk as Hn Hv. simpl in Hf.
    rewrite (Ha c Hc), !bool_decide_true in Hf by done. done.
Qed.

Lemma update_each_activates l cm cm' :
  Forall (λ p, p.2 ≠ LASTEST_VERSION) l → update_each w cm l = (cm', Ok ()) →
  (∀ n v, n ∉ l.*1 → activates n v cm → activates n v cm') ∧
  ∀ l1 n v l2, l = l1 ++ (n, v) :: l2 → n ∉ l2.*1 → activates n v cm'.
Proof.
  revert cm; induction l as [|[name version] l IH]; intros cm Hl Hu; simpl in Hu.
  { injection Hu as ->. split; [done|]. by intros [|??]. }
  apply Forall_cons in Hl as [Hv Hl]. destruct (updateFunc w cm name version) as [cm1 [[]|e|]] eqn:Hf; [|done..].
  apply updateFunc_Ok in Hf as [c (fv & d & Hfv & Hi & _)%update_Ok].
  pose proof (FindVersion_same _ _ _ _ _ Hfv Hv) as ->. destruct (IH cm1 Hl Hu) as [Hkeep Hlast]. split.
  - intros n v Hn Ha. rewrite fmap_cons, not_elem_of_cons in Hn. destruct Hn as [Hne Hn].
    apply Hkeep; [done|]. by eapply installs_other.
  - intros [|p l1] n v l2 Heq Hn; injection Heq as Hp ->; [|by eapply Hlast].
    simplify_eq. apply Hkeep; [done|]. by eapply installs_activates.
Qed.

(** Updating everything also chooses the versions in use: of each component the last entry
    becomes the default one, whichever was before. *)
Theorem update_all_activates_last cm cm' comps l :
  disk cm = Some l → Forall (λ c, Components.Version c ≠ LASTEST_VERSION) l →
  runUpdate w cm comps true = (cm', Ok ()) →
  ∀ l1 c l2, l = l1 ++ c :: l2 → (∀ e, e ∈ l2 → Name e ≠ Name c) →
  ∃ x, GetActiveComponent cm' (Name c) = (Some x, None) ∧ Components.Version x = Components.Version c.
Proof.
  intros Hd Hlat. unfold runUpdate, LoadInstalledComponents. rewrite Hd. intros Hu l1 c l2 Heq Hn.
  apply GetActive_activates.
  assert (update_each w (set_installed cm l) (vkey <$> l) = (cm', Ok ())) as Hu' by (by destruct l).
  destruct (update_each_activates _ _ _ (proj2 (Forall_fmap vkey (λ p, p.2 ≠ LASTEST_VERSION) l) Hlat) Hu') as [_ Ha].
  apply (Ha (vkey <$> l1) _ _ (vkey <$> l2)); [by rewrite Heq, fmap_app|].
  intros (e & Hne & He)%list_elem_of_fmap. apply list_elem_of_fmap in He as (e0 & -> & He0).
  by apply (Hn e0).
Qed.

Lemma runInstall_keeps comps cm cm' l out k :
  runInstall w cm comps l = (cm', Ok out) → k ∈ vkey <$> installed cm → k ∈ vkey <$> installed cm'.
Proof.
  revert cm l; induction comps as [|comp comps IH]; intros cm l; simpl; [by intros [= ->]|].
  destruct (ParseComponentVersion comp) as [name version].
  destruct (InstallComponent w cm name (or_latest version)) as [cm1 [[c|] [e|]]] eqn:Hi; [done| |done..].
  intros Hr Hk. eapply IH; [exact Hr|]. revert Hi. unfold InstallComponent, installOrUpdateComponent.
  destruct (FindVersion cm name _) as [[fv d]|e|]; [|done..]. destruct (FindInstallComponent cm name fv).1; [done|].
  intros [Hi _]%install_Ok; [|done]. by eapply in_keys.
Qed.
Lemma InstallComponent_Ok cm name version cm' c :
  InstallComponent w cm name version = (cm', (c, None)) →
  ∃ fv d, FindVersion cm name version = Ok (fv, d) ∧ installs cm name fv d cm' ∧ (name, fv) ∉ vkey <$> installed cm.
Proof.
  unfold InstallComponent, installOrUpdateComponent.
  destruct (FindVersion cm name version) as [[fv d]|e|] eqn:Hf; [|done|].
  2: { unfold FindVersion in Hf. repeat (case_match; try done). }
  unfold FindInstallComponent. destruct (find_first _ _) as [c0|] eqn:E; simpl; [done|].
  intros (Hi & _)%install_Ok; [|done]. exists fv, d. split_and!; [done..|]. by apply find_version_None.
Qed.
Lemma runInstall_all comps cm cm' acc out :
  runInstall w cm comps acc = (cm', Ok out) →
  (comps ≠ [] → disk cm' = Some (installed cm')) ∧
  ∀ comp name version, comp ∈ comps → ParseComponentVersion comp = (name, version) →
    ∃ fv d, FindVersion cm name (or_latest version) = Ok (fv, d) ∧
            (name, fv) ∉ vkey <$> installed cm ∧ (name, fv) ∈ vkey <$> installed cm'.
Proof.
  revert cm acc; induction comps as [|comp comps IH]; intros cm acc; simpl.
  { intros [= -> _]. split; [congruence|]. by intros ??? ?%elem_of_nil. }
  destruct (ParseComponentVersion comp) as [name version] eqn:Hp.
  destruct (InstallComponent w cm name (or_latest version)) as [cm1 [[c|] [e|]]] eqn:Hi; [done| |done..].
  intros Hr.  apply InstallComponent_Ok in Hi as (fv & d & Hf & Hi & Hni).
  destruct (IH _ _ Hr) as [Hd Hall]. split.
  - intros _. destruct comps; [injection Hr as <- _; by eapply in_disk|by apply Hd].
  - intros x n v [->|Hx]%elem_of_cons Hx'.
    + rewrite Hp in Hx'. injection Hx' as <- <-. exists fv, d. split_and!; [done..|].
      eapply runInstall_keeps; [exact Hr|]. by eapply in_has.
    + destruct (Hall x n v Hx Hx') as (fv' & d' & Hf' & Hn' & Hin'). exists fv', d'.
      rewrite (FindVersion_repodata cm cm1) in Hf' by by eapply in_repodata. split_and!; [done| |done].
      intros Hk. apply Hn'. by eapply in_keys.
Qed.

(** Installing: on success every component that was named is installed in the version the
    repository has for it, which it was not before, and the file says so. *)
Theorem install_all comps cm cm' out :
  runInstall w cm comps [] = (cm', Ok out) →
  (comps ≠ [] → disk cm' = Some (installed cm')) ∧
  ∀ comp name version, comp ∈ comps → ParseComponentVersion comp = (name, version) →
    ∃ fv d, FindVersion cm name (or_latest version) = Ok (fv, d) ∧
            (name, fv) ∉ vkey <$> installed cm ∧ (name, fv) ∈ vkey <$> installed cm'.
Proof. apply runInstall_all. Qed.

Lemma Save_Ok cm cm' : SaveInstalledComponents w cm = (cm', None) → disk cm' = Some (installed cm') ∧ installed cm' = installed cm.
Proof. unfold SaveInstalledComponents. destruct (write_file w); [done|]. by intros [= <-]. Qed.
Lemma Save_failed cm cm' e : SaveInstalledComponents w cm = (cm', Some e) → disk cm' = disk cm.
Proof. unfold SaveInstalledComponents. destruct (write_file w); [by intros [= <- _]|done]. Qed.

Lemma filter_all_id {A} (P : A → Prop) `{∀ x, Decision (P x)} l : Forall P l → filter P l = l.
Proof. induction 1 as [|x l Hx _ IH]; [done|]. by rewrite filter_cons, decide_True, IH. Qed.

(** Uninstalling.  On success exactly the versions that were named are gone, from the file
    as well; without [--all] a version was named, it was installed, and unless it is forced
    it was not the one in use.  On failure the file is as it was. *)
Theorem uninstall_spec cm component all force cm' r :
  runUninstall w cm component all force = (cm', r) →
  let '(name, version) := ParseComponentVersion component in
  match r with
  | Ok _ => disk cm' = Some (installed cm') ∧
      if all : bool then version = "" ∧ installed cm' = filter (λ c, Name c ≠ name) (installed cm)
      else version ≠ "" ∧ installed cm' = filter (λ c, is_version name version c = false) (installed cm) ∧
           (name, version) ∈ vkey <$> installed cm ∧
           (force = false → ∀ c, c ∈ installed cm → vkey c = (name, version) → IsActive c = false)
  | _ => disk cm' = disk cm
  end.
Proof.
  unfold runUninstall. destruct (ParseComponentVersion component) as [name version]. destruct all.
  - case_decide as Hv; [by intros [= <- <-]|]. unfold RemoveComponents.
    destruct (filter (λ c, Name c = name) (installed cm)) as [|x l]; [by intros [= <- <-]|].
    destruct (SaveInstalledComponents w _) as [cm1 [e|]] eqn:Hs; intros [= <- <-]; simpl; [by apply Save_failed in Hs|].
    by apply Save_Ok in Hs as [Hs Hi].
  - case_decide as Hv; [by intros [= <- <-]|]. unfold RemoveComponent.
    destruct (existsb _ _) eqn:Ha; [by intros [= <- <-]|]. case_decide as Hl; [by intros [= <- <-]|].
    destruct (SaveInstalledComponents w _) as [cm1 [e|]] eqn:Hs; intros [= <- <-]; simpl; [by apply Save_failed in Hs|].
    apply Save_Ok in Hs as [Hs Hi]. split; [done|]. split_and!; [done..| |].
    + destruct (decide ((name, version) ∈ vkey <$> installed cm)) as [|Hn]; [done|]. destruct Hl. f_equal.
      apply filter_all_id, Forall_forall. intros c Hc. destruct (is_version name version c) eqn:E; [|done].
      apply is_version_true in E as [<- <-]. destruct Hn. apply list_elem_of_fmap. by exists c.
    + intros -> c Hc Hk. injection Hk as Hn Hver. destruct (IsActive c) eqn:E; [|done].
      assert (existsb (λ c, is_version name version c && IsActive c && negb false) (installed cm) = true) as Hex; [|congruence].
      apply existsb_exists. exists c. split; [by apply list_elem_of_In|].
      rewrite E. by rewrite (proj2 (is_version_true name version c)).
Qed.

(** Choosing the default version.  On success it is the one in use and the file says so.
    On failure the file is as it was - and without a version it fails, for the name of the
    latest version stands for itself here and not, as in the other commands, for a version
    of the repository. *)
Theorem use_spec cm component cm' r :
  runUse w cm component = (cm', r) →
  let '(name, version) := ParseComponentVersion component in
  match r with
  | Ok _ => disk cm' = Some (installed cm') ∧ activates name (or_latest version) cm' ∧
            vkey <$> installed cm' = vkey <$> installed cm
  | _ => disk cm' = disk cm
  end ∧
  (version = "" → Forall (λ c, Components.Version c ≠ LASTEST_VERSION) (installed cm) → is_Ok r = false).
Proof.
  unfold runUse. destruct (ParseComponentVersion component) as [name version]. unfold SetDefaultVersion.
  set (l := default_entry name (or_latest version) <$> installed cm).
  assert (vkey <$> l = vkey <$> installed cm) as Hk.
  { unfold l. rewrite <-list_fmap_compose. apply list_fmap_ext. intros i c _. apply vkey_default. }
  destruct (existsb _ _) eqn:He.
  - apply existsb_version in He. destruct (SaveInstalledComponents w _) as [cm1 [e|]] eqn:Hs; intros [= <- <-]; simpl.
    { apply Save_failed in Hs. split; [done|]. by intros. }
    apply Save_Ok in Hs as [Hd Hi]. simpl in Hi. split.
    + split; [done|]. rewrite Hi. split; [|done]. split; [rewrite Hi, Hk; exact He|].
      rewrite Hi. intros e (e0 & -> & He0)%list_elem_of_fmap Hn.
      destruct (default_entry_keys name (or_latest version) e0) as [Hn0 Hv0]. rewrite Hn0 in Hn. rewrite Hv0.
      by rewrite default_entry_active, decide_True.
    + intros -> Hl. exfalso. apply list_elem_of_fmap in He as (c & Hc & Hin). injection Hc as _ Hv.
      rewrite Forall_forall in Hl. by apply (Hl c Hin).
  - by intros [= <- <-].
Qed.
End facts.

(** On the samples of Components.v: what was just installed cannot be updated, and stops an
    update of everything. *)
Definition installed_manager : ComponentManager :=
  (runInstall (H := canonical_order) sample_world sample_manager ["dingo-mds"] []).1.
Example update_all_stops :
  is_Ok (runUpdate (H := canonical_order) sample_world installed_manager [] true).2 = false.
Proof. by vm_compute. Qed.
Example use_without_version_fails : is_Ok (runUse sample_world installed_manager "dingo-mds").2 = false.
Proof. by vm_compute. Qed.
