(* ===== verification/NfsCmd.v ===== *)
(** The commands that export directories over nfs-ganesha (src/cli/command/nfs: add.go,
    remove.go; src/internal/utils/nfs.go): they run commands of the shell of this machine,
    Shell.v, and read what these print.

    A command may fail with the exit code of its process: reading it off an error is a
    parameter.  The log messages are left out. *)

From stdpp Require Import pretty.
From S2P Require Import Prelude Errno GoLib Hosts Shell Session TextTable DirCmd.
From Stdlib Require Import Ascii.

Definition NFS_GANESHA_NAME : string := "ganesha.nfsd".
Definition NFS_EXPORT_STORE_PATH : string := "/etc/ganesha/export.d".
Definition nfs_quote : string := bytes [34].

(** ** Texts *)

(** [strings.Fields] on ASCII. *)
Definition is_space (a : ascii) : bool := bool_decide (a ∈ byte <$> [9; 10; 11; 12; 13; 32]).
Fixpoint fields_go (word s : string) : list string :=
  match s with
  | EmptyString => if decide (word = "") then [] else [word]
  | String a s => if is_space a then (if decide (word = "") then fields_go "" s else word :: fields_go "" s)
                  else fields_go (word +:+ String a "") s
  end.
Definition Fields (s : string) : list string := fields_go "" s.
(** [strings.SplitN(s, c, 2)] when it has two parts. *)
Fixpoint SplitN2 (c : ascii) (s : string) : option (string * string) :=
  match s with
  | EmptyString => None
  | String a s => if decide (a = c) then Some ("", s)
                  else match SplitN2 c s with Some (p, q) => Some (String a p, q) | None => None end
  end.
(** [strings.ReplaceAll] of one byte by a text. *)
Fixpoint ReplaceAll (c : ascii) (by_ s : string) : string :=
  match s with
  | EmptyString => ""
  | String a s => if decide (a = c) then by_ +:+ ReplaceAll c by_ s else String a (ReplaceAll c by_ s)
  end.
(** [strconv.ParseInt(s, 10, 32)]. *)
Definition ParseInt32 (s : string) : option Z :=
  z ← Atoi s; if decide (-2 ^ 31 ≤ z < 2 ^ 31)%Z then Some z else None.
Definition exec_text (e : exec_error) : string :=
  match e with
  | TimeoutError n => "execute command timed out (timeout: " +:+ Itoa n +:+ " seconds)"
  | ExecError t => t
  end.
Definition not_a_number (s : string) : error := EText ("strconv: parsing " +:+ nfs_quote +:+ s +:+ nfs_quote).

(** ** The configuration of an export *)

Record ExportConfig : Type := mkExportConfig {
  ExportID : string; ec_Path : string; Pseudo : string; Protocols : string; Access : string;
  Squash : string; Sectype : string; Client : string; FSALName : string }.
Definition DefaultExportConfig : ExportConfig :=
  mkExportConfig "" "" "" "3,4" "RW" "no_root_squash" "sys" "" "VFS".

(** One pair of the text; others are ignored. *)
Definition export_pair (c : ExportConfig) (pair : string) : ExportConfig :=
  match SplitN2 "="%char pair with
  | None => c
  | Some (k, v) =>
      let key := TrimSpace k in let value := TrimSpace v in
      if decide (key = "Access_Type") then
        mkExportConfig (ExportID c) (ec_Path c) (Pseudo c) (Protocols c) value (Squash c) (Sectype c) (Client c) (FSALName c)
      else if decide (key = "Protocols") then
        mkExportConfig (ExportID c) (ec_Path c) (Pseudo c) (ReplaceAll ":" "," value) (Access c) (Squash c) (Sectype c) (Client c) (FSALName c)
      else if decide (key = "Squash") then
        mkExportConfig (ExportID c) (ec_Path c) (Pseudo c) (Protocols c) (Access c) value (Sectype c) (Client c) (FSALName c)
      else c
  end.
Definition with_client (c : ExportConfig) (client : string) : ExportConfig :=
  mkExportConfig (ExportID c) (ec_Path c) (Pseudo c) (Protocols c) (Access c) (Squash c) (Sectype c) client (FSALName c).
(** The default is an object of the program that is changed in place; a command reads it
    once. *)
Definition parseExportConfig (input : string) : res error ExportConfig :=
  if decide (input = "") then Ok DefaultExportConfig else
  match SplitN2 "("%char input with
  | None => Err (EText ("invalid nfs config format: " +:+ input))
  | Some (client, config) =>
      Ok (foldl export_pair (with_client DefaultExportConfig (TrimSpace client)) (Split (TrimSuffix config ")") ","%char))
  end.

Definition nfs_tab : string := bytes [9].
Definition NFS_EXPORT_TEMPLATE : string :=
  "EXPORT" +:+ eol +:+ "{" +:+ eol +:+
  nfs_tab +:+ "Export_Id = {{.ExportID}};" +:+ eol +:+
  nfs_tab +:+ "Path = {{.Path}};" +:+ eol +:+
  nfs_tab +:+ "Pseudo = {{.Pseudo}};" +:+ eol +:+ eol +:+
  nfs_tab +:+ "CLIENT {" +:+ eol +:+
  nfs_tab +:+ nfs_tab +:+ "Clients = {{.Client}};" +:+ eol +:+
  nfs_tab +:+ nfs_tab +:+ "Protocols = {{.Protocols}};" +:+ eol +:+
  nfs_tab +:+ nfs_tab +:+ "Access_Type = {{.Access}};" +:+ eol +:+
  nfs_tab +:+ nfs_tab +:+ "Squash = {{.Squash}};" +:+ eol +:+
  nfs_tab +:+ nfs_tab +:+ "Sectype = {{.Sectype}};" +:+ eol +:+
  nfs_tab +:+ "}" +:+ eol +:+ eol +:+
  nfs_tab +:+ "FSAL {" +:+ eol +:+
  nfs_tab +:+ nfs_tab +:+ "Name = {{.FSALName}};" +:+ eol +:+
  nfs_tab +:+ "}" +:+ eol +:+ "}".
(** The text of the file of an export. *)
Definition export_text (c : ExportConfig) : string :=
  render NFS_EXPORT_TEMPLATE (list_to_map
    [("ExportID", ExportID c); ("Path", ec_Path c); ("Pseudo", Pseudo c); ("Protocols", Protocols c); ("Access", Access c);
     ("Squash", Squash c); ("Sectype", Sectype c); ("Client", Client c); ("FSALName", FSALName c)]).

(** ** What the commands print *)

Definition parse_inode (out : string) : res error Z :=
  match Fields out with
  | [] => Panic (* index out of range *)
  | x :: _ => match ParseUint 64 x with Some n => Ok n | None => Err (not_a_number x) end
  end.
Definition parse_pid (out : string) : res error Z :=
  let s := ReplaceAll (byte 10) "" out in
  match ParseInt32 s with Some n => Ok n | None => Err (not_a_number s) end.
Definition GenerateFileName (inodeId : Z) (exportPath : string) : string :=
  NFS_EXPORT_STORE_PATH +:+ "/" +:+ Itoa inodeId +:+ "-" +:+ path_Base exportPath +:+ ".conf".

Definition export_id_step (maxExportId : Z) (pair : string) : res error Z :=
  match SplitN2 "="%char pair with
  | None => Ok maxExportId
  | Some (_, v) =>
      let value := TrimSpace v in
      match Atoi value with
      | None => Err (not_a_number value)
      | Some exportId => Ok (if (maxExportId <? exportId)%Z then exportId else maxExportId)
      end
  end.
(** One more than the greatest number of the lines; the sum is one of machine integers. *)
Definition next_export_id (out : string) : res error Z :=
  m ← fold_res export_id_step (Split (TrimSpace out) ";"%char) 0%Z; Ok (wrap64 (m + 1)).

(** ** Running *)

(** [os.CreateTemp] and writing the content: the name of the file or an error. *)
Class TempFiles (W : Type) := { CreateTemp : string → W → W * (string + string) }.

Definition NFS_OPTIONS : ExecOptions := mkModuleOptions true true "" 10 "".

Section commands.
Context `{Machine W} `{!TempFiles W} (ExitCode : exec_error → option Z).

Definition nfs_exec (s : Shell) : eff error W (string * option exec_error) :=
  λ w, let '(w, r) := sh_Execute None s NFS_OPTIONS w in (w, Ok r).

(** The shell keeps the template, the data and the options of the last command. *)
Definition nfs_GetInodeId (s : Shell) (path : string) : eff error W (Shell * Z) :=
  let s := AddOption "-di" (ClearOption (sh_List [path] s)) in
  '(out, e) ← nfs_exec s;
  match e with
  | Some e => pure_eff (Err (EText ("get path " +:+ path +:+ " failed, err: " +:+ exec_text e)))
  | None => n ← pure_eff (parse_inode out); mret (s, n)
  end.
Definition GetGaneshaPID (s : Shell) : eff error W (Shell * Z) :=
  let s := ClearOption (sh_Pgrep NFS_GANESHA_NAME s) in
  '(out, e) ← nfs_exec s;
  match e with
  | Some e => pure_eff (Err (EText ("get nfs-ganesha pid: failed, err: " +:+ exec_text e)))
  | None => pid ← pure_eff (parse_pid out); mret (s, pid)
  end.
Definition NotifyGaneshaReLoadConfig (s : Shell) (pid : Z) : eff error W Shell :=
  let s := sh_Kill pid (AddOption "-SIGHUP" (ClearOption s)) in
  '(_, e) ← nfs_exec s;
  match e with
  | Some e => pure_eff (Err (EText ("send SIGHUP signal to nfs-ganesha failed, pid: " +:+ Itoa pid +:+ ", err: " +:+ exec_text e)))
  | None => mret s
  end.
(** Every failure of grep counts as: not exported. *)
Definition CheckPathIsExported (s : Shell) (exportPath storePath : string) : eff error W (Shell * bool) :=
  let s := sh_Grep (nfs_quote +:+ "Path.*=.*" +:+ exportPath +:+ nfs_quote) [storePath] (AddOption "-rh" (ClearOption s)) in
  '(_, e) ← nfs_exec s;
  mret (s, match e with None => true | Some _ => false end).
(** An exit code of 1 says that nothing was found; another failure is ignored. *)
Definition GenetateExportId (s : Shell) (storePath : string) : eff error W (Shell * Z) :=
  let s := sh_Grep (nfs_quote +:+ "Export_Id.*=" +:+ nfs_quote) [storePath] (AddOption "-rh" (ClearOption s)) in
  '(out, e) ← nfs_exec s;
  if decide ((e ≫= ExitCode) = Some 1%Z) then mret (s, 1%Z) else
  n ← pure_eff (next_export_id out); mret (s, n).

(** *** add *)

Definition GenerateExportStoragePath (s : Shell) : eff error W Shell :=
  let s := sh_Test NFS_EXPORT_STORE_PATH (AddOption "-d" (ClearOption s)) in
  '(_, e) ← nfs_exec s;
  match e with
  | None => mret s
  | Some _ =>
      let s := sh_Mkdir [NFS_EXPORT_STORE_PATH] (ClearOption s) in
      '(_, e) ← nfs_exec s;
      match e with
      | None => mret s
      | Some e => pure_eff (Err (EText ("create nfs export directory " +:+ NFS_EXPORT_STORE_PATH +:+ " failed, err: " +:+ exec_text e)))
      end
  end.
Definition InstallTmpFile (content : string) : eff error W string :=
  λ w, let '(w, r) := CreateTemp content w in (w, match r with inl name => Ok name | inr e => Err (EText e) end).
Definition GenerateExportConfigFile (exportID exportPath exportCfg : string) : eff error W string :=
  c ← pure_eff (parseExportConfig exportCfg);
  let c := mkExportConfig exportID exportPath exportPath (Protocols c) (Access c) (Squash c) (Sectype c) (Client c) (FSALName c) in
  InstallTmpFile (export_text c).
Definition SaveToLocal (s : Shell) (src dest : string) : eff error W Shell :=
  let s := sh_Rename src dest (ClearOption s) in
  '(_, e) ← nfs_exec s;
  match e with
  | Some e => pure_eff (Err (EText ("rename file " +:+ src +:+ " to " +:+ dest +:+ " failed, err: " +:+ exec_text e)))
  | None => mret s
  end.
Definition SaveExportConfigFile (s : Shell) (exportPath exportConf : string) : eff error W Shell :=
  '(s, inodeId) ← nfs_GetInodeId s exportPath;
  '(s, exportId) ← GenetateExportId s NFS_EXPORT_STORE_PATH;
  tmpFileName ← GenerateExportConfigFile (Itoa exportId) exportPath exportConf;
  SaveToLocal s tmpFileName (GenerateFileName inodeId exportPath).
Definition nfs_runAdd (exportPath exportConf : string) : eff error W unit :=
  s ← GenerateExportStoragePath NewShell;
  '(s, isExported) ← CheckPathIsExported s exportPath NFS_EXPORT_STORE_PATH;
  if isExported : bool
  then pure_eff (Err (EText ("path " +:+ exportPath +:+ " is already exported in " +:+ NFS_EXPORT_STORE_PATH)))
  else
    s ← SaveExportConfigFile s exportPath exportConf;
    '(s, pid) ← GetGaneshaPID s;
    _ ← NotifyGaneshaReLoadConfig s pid;
    mret ().

(** *** remove *)

Definition nfs_runRemove (exportPath : string) : eff error W unit :=
  '(s, inodeId) ← nfs_GetInodeId NewShell exportPath;
  let configFileName := GenerateFileName inodeId exportPath in
  let s := AddOption "-f" (ClearOption (sh_Remove [configFileName] s)) in
  '(_, e) ← nfs_exec s;
  match e with
  | Some e => pure_eff (Err (EText ("remove export config " +:+ configFileName +:+ " failed, err: " +:+ exec_text e)))
  | None => '(s, pid) ← GetGaneshaPID s; _ ← NotifyGaneshaReLoadConfig s pid; mret ()
  end.
End commands.

(** ** Lemmas on blanks *)

#[local] Notation asciis := String.list_ascii_of_string.

Definition printable (a : ascii) : bool := (33 <=? nat_of_ascii a) && (nat_of_ascii a <=? 126).
Definition blank_text (s : string) : Prop := Forall (λ a, is_space a = true) (asciis s).

Lemma asciis_app s1 s2 : asciis (s1 +:+ s2) = asciis s1 ++ asciis s2.
Proof. induction s1 as [|a s1 IH]; simpl; [done|]. by rewrite IH. Qed.

(** The encodings of white space: none begins or ends with a printable byte, and one that
    begins or ends with a blank is just that. *)
Definition encoding_ok (e : string) : bool :=
  match asciis e, last (asciis e) with
  | a :: _, Some z => negb (printable a) && negb (printable z) &&
                      (negb (is_space a) || bool_decide (e = String a "")) && (negb (is_space z) || bool_decide (e = String z ""))
  | _, _ => false
  end.
Lemma encodings_ok e : e ∈ space_encodings → encoding_ok e = true.
Proof.
  assert (forallb encoding_ok space_encodings = true) as Hall by by vm_compute.
  intros He. by apply (proj1 (forallb_forall _ _) Hall), list_elem_of_In.
Qed.
Lemma encoding_parts e : encoding_ok e = true → ∃ a t z l,
  e = String a t ∧ e = l +:+ String z "" ∧ printable a = false ∧ printable z = false ∧
  (is_space a = true → t = "") ∧ (is_space z = true → l = "").
Proof.
  unfold encoding_ok. destruct e as [|a t]; [done|]. cbn [asciis].
  destruct (last (a :: asciis t)) as [z|] eqn:Hz; [|done].
  intros [[[Ha Hz']%andb_prop H1]%andb_prop H2]%andb_prop. apply last_Some in Hz as [l Hl].
  exists a, t, z, (String.string_of_list_ascii l).
  assert (String a t = String.string_of_list_ascii l +:+ String z "") as He.
  { rewrite <-(String.string_of_list_ascii_of_string (String a t)). cbn [asciis]. rewrite Hl.
    clear. induction l as [|b l IH]; simpl; [done|]. by rewrite IH. }
  split_and!; [done|done|by destruct (printable a)|by destruct (printable z)| |].
  - intros Hs. rewrite Hs in H1. simpl in H1. apply bool_decide_eq_true in H1. by injection H1.
  - intros Hs. rewrite Hs in H2. simpl in H2. apply bool_decide_eq_true in H2. rewrite He in H2.
    apply (f_equal asciis) in H2. rewrite asciis_app in H2. simpl in H2.
    destruct l as [|b l]; [done|]. by destruct l.
Qed.

Lemma omap_empty {A B} (f : A → option B) l : (∀ x, x ∈ l → f x = None) → omap f l = [].
Proof. induction l as [|x l IH]; intros Hn; simpl; [done|]. rewrite Hn by left. apply IH. intros; apply Hn. by right. Qed.
Lemma omap_head {A B} (f : A → option B) l r :
  (∃ x, x ∈ l ∧ f x = Some r) → (∀ x q, x ∈ l → f x = Some q → q = r) → ∃ l', omap f l = r :: l'.
Proof.
  induction l as [|x l IH]; intros (y & Hy & Hf) Hu; [by apply elem_of_nil in Hy|]. simpl.
  destruct (f x) as [q|] eqn:E; [rewrite (Hu x q) by (left || done); by eexists|].
  apply IH; [|intros z q Hz; apply Hu; by right]. apply elem_of_cons in Hy as [->|Hy]; [congruence|eauto].
Qed.

Lemma blank_encoding a : is_space a = true → String a "" ∈ space_encodings.
Proof.
  unfold is_space. intros Ha%bool_decide_eq_true. apply list_elem_of_fmap in Ha as (n & -> & Hn).
  assert (Forall (λ n, String (byte n) "" ∈ space_encodings) [9; 10; 11; 12; 13; 32]) as Hall.
  { repeat constructor; apply bool_decide_eq_true; by vm_compute. }
  rewrite Forall_forall in Hall. by apply Hall.
Qed.

Lemma trim_front pre core a t n :
  core = String a t → printable a = true → blank_text pre → String.length pre ≤ n →
  trim_with strip_prefix n (pre +:+ core) = core.
Proof.
  intros Hc Ha. revert pre; induction n as [|n IH]; intros pre Hp Hn.
  { by destruct pre; [|simpl in Hn; lia]. }
  destruct pre as [|b pre]; cbn [trim_with String.app].
  - rewrite omap_empty; [done|]. intros e He. destruct (strip_prefix e core) as [q|] eqn:E; [|done].
    apply strip_prefix_Some in E. destruct (encoding_parts e (encodings_ok e He)) as (x & u & _ & _ & -> & _ & Hx & _).
    rewrite Hc in E. injection E as -> _. congruence.
  - apply Forall_cons in Hp as [Hb Hp]. destruct (omap_head (λ e, strip_prefix e (String b (pre +:+ core))) space_encodings (pre +:+ core))
      as [l' Hl'].
    + exists (String b ""). split; [by apply blank_encoding|]. by apply strip_prefix_Some.
    + intros e q He E%strip_prefix_Some. destruct (encoding_parts e (encodings_ok e He)) as (x & u & _ & _ & -> & _ & _ & _ & Hu & _).
      injection E as <- E. rewrite (Hu Hb) in E. done.
    + rewrite Hl'. apply IH; [done|]. simpl in Hn. lia.
Qed.

Lemma string_snoc s : s = "" ∨ ∃ r b, s = r +:+ String b "".
Proof.
  induction s as [|a s [->|(r & b & ->)]]; [by left|right; by exists "", a|right; by exists (String a r), b].
Qed.
Lemma trim_back post core l z n :
  core = l +:+ String z "" → printable z = true → blank_text post → String.length post ≤ n →
  trim_with (λ e s, strip_suffix s e) n (core +:+ post) = core.
Proof.
  intros Hc Hz. revert post; induction n as [|n IH]; intros post Hp Hn.
  { destruct post; [|simpl in Hn; lia]. by rewrite app_nil_r_string. }
  cbn [trim_with]. destruct (string_snoc post) as [->|(r & b & ->)].
  - rewrite app_nil_r_string, omap_empty; [done|]. intros e He. destruct (strip_suffix core e) as [q|] eqn:E; [|done].
    apply strip_suffix_Some in E. destruct (encoding_parts e (encodings_ok e He)) as (_ & _ & x & u & _ & -> & _ & Hx & _).
    rewrite Hc in E. apply (f_equal asciis) in E. rewrite !asciis_app in E. simpl in E.
    rewrite (assoc_L (++)) in E. apply app_inj_tail in E as [_ ->]. congruence.
  - unfold blank_text in Hp. rewrite asciis_app, Forall_app in Hp. destruct Hp as [Hr Hb]. apply Forall_cons in Hb as [Hb _].
    destruct (omap_head (λ e, strip_suffix (core +:+ r +:+ String b "") e) space_encodings (core +:+ r)) as [l' ->].
    + exists (String b ""). split; [by apply blank_encoding|]. apply strip_suffix_Some. by rewrite app_assoc_string.
    + intros e q He E%strip_suffix_Some. destruct (encoding_parts e (encodings_ok e He)) as (_ & _ & x & u & _ & -> & _ & _ & _ & Hu).
      rewrite <-!app_assoc_string in E. apply (f_equal asciis) in E. rewrite !(asciis_app _ (String _ "")) in E.
      apply app_inj_tail in E as [E ->]. rewrite (Hu Hb), app_nil_r_string in E.
      apply (f_equal String.string_of_list_ascii) in E. rewrite !String.string_of_list_ascii_of_string in E. done.
    + apply IH; [done|]. rewrite length_app_string in Hn. simpl in Hn. lia.
Qed.

(** Blanks around a text that begins and ends with printable bytes are what is trimmed. *)
Lemma TrimSpace_around pre core post a t l z :
  core = String a t → core = l +:+ String z "" → printable a = true → printable z = true →
  blank_text pre → blank_text post → TrimSpace (pre +:+ core +:+ post) = core.
Proof.
  intros Ha Hz Pa Pz Hpre Hpost. unfold TrimSpace.
  rewrite (trim_front pre (core +:+ post) a (t +:+ post)); [|by rewrite Ha|done|done|rewrite length_app_string; lia].
  apply (trim_back post core l z); [done..|]. rewrite length_app_string. lia.
Qed.

(** ** The number of a new export *)

Lemma parse_digits_digits acc s z : parse_digits acc s = Some z → Forall (λ a, digit_of a ≠ None) (asciis s).
Proof.
  revert acc; induction s as [|a s IH]; intros acc; simpl; [constructor|].
  destruct (digit_of a) as [d|] eqn:E; [|done]. simpl. intros Hs%IH. constructor; [by rewrite E|done].
Qed.
Lemma digit_printable a : digit_of a ≠ None → printable a = true ∧ a ≠ ";"%char ∧ a ≠ "="%char.
Proof.
  unfold digit_of, printable. destruct (_ && _) eqn:E; [|done]. intros _.
  apply andb_prop in E as [H1%Nat.leb_le H2%Nat.leb_le]. split.
  - apply andb_true_intro. split; apply Nat.leb_le; lia.
  - split; intros ->; revert H1 H2; vm_compute; lia.
Qed.
Lemma Itoa_digits n : (0 ≤ n)%Z → Forall (λ a, digit_of a ≠ None) (asciis (Itoa n)).
Proof.
  intros Hn. unfold Itoa. destruct n as [|p|p]; [|change (pretty (Zpos p)) with (pretty (Npos p))|lia].
  - by repeat constructor.
  - pose proof (parse_unsigned_pretty (Npos p)) as Hp. unfold parse_unsigned in Hp.
    destruct (pretty (Npos p)); [done|]. by eapply parse_digits_digits.
Qed.
Lemma Itoa_ends n : (0 ≤ n)%Z → ∃ a t l z, Itoa n = String a t ∧ Itoa n = l +:+ String z "" ∧ printable a = true ∧ printable z = true.
Proof.
  intros Hn. pose proof (Itoa_digits n Hn) as Hd. pose proof (Itoa_ne_empty n) as Hne.
  destruct (string_snoc (Itoa n)) as [|(l & z & Hz)]; [done|]. destruct (Itoa n) as [|a t] eqn:E; [done|].
  exists a, t, l, z. split_and!; [done|done| |].
  - apply Forall_cons in Hd as [Hd _]. by apply digit_printable.
  - rewrite Hz, asciis_app in Hd. apply Forall_app in Hd as [_ Hd]. apply Forall_cons in Hd as [Hd _]. by apply digit_printable.
Qed.

Lemma SplitN2_app c p q : c ∉ asciis p → SplitN2 c (p +:+ String c q) = Some (p, q).
Proof.
  induction p as [|a p IH]; simpl; [by rewrite decide_True|]. intros [Hc Hp]%not_elem_of_cons.
  rewrite decide_False by done. by rewrite IH.
Qed.
Lemma Split_app c p q : c ∉ asciis p → Split (p +:+ String c q) c = p :: Split q c.
Proof.
  induction p as [|a p IH]; simpl; [by rewrite decide_True|]. intros [Hc Hp]%not_elem_of_cons.
  rewrite decide_False by done. by rewrite IH.
Qed.

(** One export as grep prints it. *)
Definition export_line (n : Z) : string := nfs_tab +:+ "Export_Id = " +:+ Itoa n +:+ ";" +:+ eol.
Definition export_piece (pre : string) (n : Z) : string := pre +:+ "Export_Id = " +:+ Itoa n.

Lemma export_id_step_piece m n pre :
  (0 ≤ n < 2 ^ 63)%Z → blank_text pre →
  export_id_step m (export_piece pre n) = Ok (Z.max m n).
Proof.
  intros Hn Hp. unfold export_id_step, export_piece.
  assert ("="%char ∉ asciis (pre +:+ "Export_Id ")) as Hni.
  { rewrite asciis_app, not_elem_of_app. split; [|by vm_compute; set_solver].
    intros Hin. unfold blank_text in Hp. rewrite Forall_forall in Hp. by apply Hp in Hin. }
  replace (pre +:+ "Export_Id = " +:+ Itoa n) with ((pre +:+ "Export_Id ") +:+ String "=" (" " +:+ Itoa n))
    by by rewrite app_assoc_string.
  rewrite SplitN2_app by done. destruct (Itoa_ends n) as (a & t & l & z & Ha & Hz & Pa & Pz); [lia|].
  replace (" " +:+ Itoa n) with (" " +:+ Itoa n +:+ "") by by rewrite app_nil_r_string.
  rewrite (TrimSpace_around " " (Itoa n) "" a t l z) by (done || by repeat constructor).
  rewrite Atoi_Itoa, (proj2 (in_int64b_spec n)) by (unfold in_int64, MinInt64, MaxInt64; lia).
  destruct (Z.ltb_spec m n); f_equal; lia.
Qed.

Fixpoint more_lines (ns : list Z) : string :=
  match ns with [] => "" | n :: ns => export_piece (eol +:+ nfs_tab) n +:+ String ";" (more_lines ns) end.
Lemma export_lines_text n ns :
  sconcat (export_line <$> n :: ns) = nfs_tab +:+ (export_piece "" n +:+ String ";" (more_lines ns)) +:+ eol.
Proof.
  revert n; induction ns as [|m ns IH]; intros n.
  - unfold export_line, export_piece. simpl. by rewrite !app_assoc_string.
  - change (sconcat (export_line <$> n :: m :: ns)) with (export_line n +:+ sconcat (export_line <$> m :: ns)). rewrite IH.
    unfold export_line, export_piece. cbn [more_lines]. unfold export_piece. cbn. rewrite !app_assoc_string. cbn.
    rewrite !app_assoc_string. done.
Qed.

Lemma piece_no_semi pre n : (0 ≤ n)%Z → blank_text pre → ";"%char ∉ asciis (export_piece pre n).
Proof.
  intros Hn Hp. unfold export_piece. rewrite !asciis_app, !not_elem_of_app. split_and!.
  - intros Hin. unfold blank_text in Hp. rewrite Forall_forall in Hp. by apply Hp in Hin.
  - vm_compute. set_solver.
  - intros Hin. pose proof (Itoa_digits n Hn) as Hd. rewrite Forall_forall in Hd. apply Hd, digit_printable in Hin. naive_solver.
Qed.

Lemma fold_more ns m :
  Forall (λ n, 0 ≤ n < 2 ^ 63)%Z ns → (0 ≤ m)%Z →
  fold_res export_id_step (Split (more_lines ns) ";"%char) m = Ok (foldl Z.max m ns).
Proof.
  revert m; induction ns as [|n ns IH]; intros m Hns Hm; [done|].
  apply Forall_cons in Hns as [Hn Hns]. cbn [more_lines]. rewrite Split_app by (apply piece_no_semi; [lia|by repeat constructor]).
  cbn [fold_res]. rewrite export_id_step_piece by (done || by repeat constructor). apply IH; [done|lia].
Qed.

(** The number of a new export is greater than every number in use: what grep prints for the
    files of the exports [ns], each written by this program, gives one more than the
    greatest of them. *)
Theorem next_export_id_fresh ns :
  Forall (λ n, 0 ≤ n < 2 ^ 63 - 1)%Z ns →
  next_export_id (sconcat (export_line <$> ns)) = Ok (foldl Z.max 0 ns + 1)%Z ∧
  Forall (λ n, n < foldl Z.max 0 ns + 1)%Z ns.
Proof.
  intros Hns. assert (∀ l m, m ≤ foldl Z.max m l ∧ Forall (λ n, n ≤ foldl Z.max m l) l)%Z as Hmax.
  { clear. induction l as [|n l IH]; intros m; simpl; [split; [lia|constructor]|].
    destruct (IH (Z.max m n)) as [H1 H2]. split; [lia|]. constructor; [lia|done]. }
  assert (∀ l m, (0 ≤ m < 2 ^ 63 - 1)%Z → Forall (λ n, 0 ≤ n < 2 ^ 63 - 1)%Z l → (0 ≤ foldl Z.max m l < 2 ^ 63 - 1)%Z) as Hb.
  { clear. induction l as [|n l IH]; intros m Hm Hl; simpl; [done|]. apply Forall_cons in Hl as [Hn Hl]. apply IH; [lia|done]. }
  split; [|eapply Forall_impl; [apply (Hmax ns 0%Z)|]; simpl; lia].
  destruct ns as [|n ns]; [by vm_compute|].
  unfold next_export_id. rewrite export_lines_text.
  set (core := export_piece "" n +:+ String ";" (more_lines ns)).
  assert (∃ l, core = l +:+ String ";" "") as [l Hl].
  { unfold core. clear. generalize (export_piece "" n) as p. induction ns as [|m ns IH]; intros p; [by exists p|].
    cbn [more_lines]. destruct (IH (export_piece (eol +:+ nfs_tab) m)) as [l Hl]. exists (p +:+ String ";" l).
    by rewrite Hl, app_assoc_string. }
  rewrite (TrimSpace_around nfs_tab core eol "E" ("xport_Id = " +:+ Itoa n +:+ String ";" (more_lines ns)) l ";");
    [| |done|done|done|by repeat constructor|by repeat constructor].
  2: { unfold core, export_piece. cbn. by rewrite ?app_assoc_string. }
  unfold core. apply Forall_cons in Hns as [Hn Hns'].
  rewrite Split_app by (apply piece_no_semi; [lia|constructor]).
  assert (fold_res export_id_step (export_piece "" n :: Split (more_lines ns) ";"%char) 0%Z = Ok (foldl Z.max 0 (n :: ns))%Z) as ->.
  { cbn [fold_res]. rewrite export_id_step_piece by (lia || constructor). apply (fold_more ns (Z.max 0 n)); [|lia].
    eapply Forall_impl; [exact Hns'|]. simpl. lia. }
  cbn. f_equal. apply wrap64_id. unfold in_int64, MinInt64, MaxInt64.
  pose proof (Hb (n :: ns) 0%Z ltac:(lia) ltac:(by constructor)) as Hbb. simpl in Hbb. lia.
Qed.

(** ** A run *)

(** A machine that answers commands by their text and remembers them. *)
Section traced.
Context (answer : string → string * option exec_error).
#[local] Instance traced_machine : Machine (list string) := {|
  Shell.run := λ _ _ c w, (w ++ [c], answer c);
  Upload_ := λ _ _ _ w, (w, None); Download_ := λ _ _ _ w, (w, None);
  RandFilename := λ d w, (w, d); WriteFile := λ _ _ _ w, (w, None); ReadFile := λ _ w, ("", None);
  os_Remove := λ _ w, w; os_RemoveAll := λ _ w, w;
  ssh_auth := λ _ _, None; ssh_dial := λ _ w, (w, None); ssh_close := λ _ w, w;
|}.
#[local] Instance traced_files : TempFiles (list string) := {| CreateTemp := λ c w, (w ++ [c], inl "/tmp/dingo.1.install") |}.
Definition traced_add (exit_code : exec_error → option Z) (path conf : string) := nfs_runAdd exit_code path conf [].
Definition traced_remove (path : string) := nfs_runRemove path [].
End traced.

Definition exit1 (e : exec_error) : option Z := match e with ExecError "exit status 1" => Some 1%Z | _ => None end.
(** No server runs, nothing is exported yet. *)
Definition without_server (c : string) : string * option exec_error :=
  if StrContains c "ls -di" then ("42 /mnt/export" +:+ eol, None)
  else if StrContains c "grep" then ("", Some (ExecError "exit status 1"))
  else ("", None).

(** The file of the export stays when no server can be told: the command fails, and the next
    one finds the path exported. *)
Example add_without_server :
  let '(commands, r) := traced_add without_server exit1 "/mnt/export" "*(Access_Type=RO,Protocols=3:4)" in
  is_Ok r = false ∧ commands !! 5 = Some "sudo mv  /tmp/dingo.1.install /etc/ganesha/export.d/42-export.conf" ∧
  last commands = Some "sudo pgrep  ganesha.nfsd".
Proof. by vm_compute. Qed.

(** Removing does not look whether the path was exported: [rm -f] succeeds on a file that
    does not exist. *)
Definition with_server (c : string) : string * option exec_error :=
  if StrContains c "ls -di" then ("42 /mnt/export" +:+ eol, None)
  else if StrContains c "grep -rh" then ("", Some (ExecError "exit status 2"))
  else if StrContains c "pgrep" then ("7" +:+ eol, None) else ("", None).
Example remove_commands :
  traced_remove with_server "/mnt/export" =
    (["sudo ls -di /mnt/export"; "sudo rm -f /etc/ganesha/export.d/42-export.conf"; "sudo pgrep  ganesha.nfsd";
      "sudo kill -SIGHUP 7"], Ok ()).
Proof. by vm_compute. Qed.

(** When the directory of the exports cannot be read, the path counts as not exported and
    the numbers begin again with 1. *)
Example unreadable_exports :
  (traced_add with_server exit1 "/mnt/export" "").2 = Ok () ∧
  (traced_add with_server exit1 "/mnt/export" "").1 !! 4 =
    Some (export_text (mkExportConfig "1" "/mnt/export" "/mnt/export" "3,4" "RW" "no_root_squash" "sys" "" "VFS")).
Proof. by vm_compute. Qed.

(** Without a configuration no client is named. *)
Example no_clients :
  parseExportConfig "" = Ok DefaultExportConfig ∧ Client DefaultExportConfig = "" ∧ parse_inode "" = Panic.
Proof. by vm_compute. Qed.
