(* ===== verification/LocalCmd.v ===== *)
(** The commands that start and watch processes of this machine: mounting and unmounting
    (src/cli/command/fs/mount.go, umount.go), starting a metadata server or a cache node
    and its meta tool (mds/start.go, mds/meta.go, cache/start.go), warming files up
    (fs/warmup/add.go, query.go), with the file helpers they use (src/internal/utils/file.go,
    fs.go, mountpoint.go).

    The operating system is a parameter, the class [LocalOS].  What is printed is left out,
    but for the options of a help text. *)

From S2P Require Import Prelude Errno GoLib Utils Components NfsCmd.
From Stdlib Require Import Ascii.

Record FileInfo : Type := mkFileInfo { fi_mode : Z; fi_dir : bool; fi_inode : Z }.
Inductive StatError : Type := NotExist | OtherError (text : string).
Inductive SysError : Type := EINVAL | EPERM | EBUSY | ENOENT | EOPNOTSUPP | EOTHER (text : string).
#[export] Instance SysError_eq_dec : EqDecision SysError.
Proof. solve_decision. Defined.
Record MountInfo : Type := mkMountInfo { MountPoint : string; Root : string; FilesystemType : string }.

Class LocalOS (W : Type) := {
  os_Stat : string → W → FileInfo + StatError;
  os_Chmod : string → Z → W → W * option string;
  os_ReadFile : string → W → string + string;
  os_cwd : W → string;
  (** a process: starting it, waiting for it, and running it for its output *)
  proc_Start : string → list string → W → W * option string;
  proc_Wait : string → list string → W → W * option string;
  proc_Output : string → list string → W → W * (string * option string);
  sys_Unmount : string → Z → W → W * option SysError;
  sys_Setxattr : string → string → string → W → W * option SysError;
  sys_Getxattr : string → string → W → string + string;
  mountinfo : W → option (list MountInfo);
  (** time passes: what other processes do meanwhile *)
  sleep : Z → W → W;
}.

Section helpers.
Context `{LocalOS W}.

(** ** file.go, fs.go, mountpoint.go *)

Definition PathExist (path : string) (w : W) : bool := match os_Stat path w with inl _ => true | inr _ => false end.
Definition IsFileExists (path : string) (w : W) : bool := match os_Stat path w with inr NotExist => false | _ => true end.
Definition HasExecutePermission (path : string) (w : W) : bool :=
  match os_Stat path w with inl i => negb (Z.land (fi_mode i) 73 =? 0)%Z | inr _ => false end. (* 0111 *)
Definition stat_text (path : string) (e : StatError) : string :=
  match e with NotExist => "stat " +:+ path +:+ ": no such file or directory" | OtherError t => t end.
Definition AddExecutePermission (path : string) (w : W) : W * option string :=
  match os_Stat path w with
  | inr e => (w, Some (stat_text path e))
  | inl i => os_Chmod path (Z.lor (fi_mode i) 73) w
  end.
(** [filepath.Abs] of a path that is not empty. *)
Definition Abs (path : string) (w : W) : string :=
  if HasPrefix path "/" then path_Clean path else path_Join [os_cwd w; path].
Definition CheckMountPoint (mountPoint : string) (w : W) : res error () :=
  if negb (PathExist mountPoint w) then Err (EText (mountPoint +:+ ": path not exist"))
  else if negb (HasPrefix mountPoint "/") then Err (EText (mountPoint +:+ ": is not an absolute path")) else Ok ().
Definition GetFileInode (path : string) (w : W) : Z + StatError :=
  match os_Stat path w with inl i => inl (fi_inode i) | inr e => inr e end.

Definition list_inode (listFilePath : string) (w : W) (inodes : list string) (line : string) : res error (list string) :=
  let filePath := TrimSpace line in
  if decide (filePath = "") then Ok inodes
  else if negb (HasPrefix filePath "/")
  then Err (EText ("filelist[" +:+ listFilePath +:+ "] content error, each line requires a full path name"))
  else match GetFileInode filePath w with
       | inr _ => Err (EText (filePath +:+ " not exist"))
       | inl inodeId => Ok (if decide (inodeId = 0%Z) then inodes else inodes ++ [Itoa inodeId])
       end.
(** The duplicates go through a map: the order of the inodes is that of its iteration. *)
Definition GetInodesAsString `{MapOrder} (listFilePath : string) (w : W) : res error string :=
  match os_ReadFile listFilePath w with
  | inr e => Err (EText ("failed to read file list: " +:+ e))
  | inl content =>
      inodes ← fold_res (list_inode listFilePath w) (Split content (byte 10)) [];
      Ok (Join (RemoveDuplicates inodes) ",")
  end.

Definition GetDingoFSMountPoints (w : W) : res error (list MountInfo) :=
  match mountinfo w with
  | None => Err (EText "get mountpoint failed.")
  | Some l => Ok (filter (λ m, FilesystemType m = "fuse.dingofs" ∨ FilesystemType m = "fuse") l)
  end.
End helpers.

(** ** Binaries of components *)

Section commands.
Context `{LocalOS W} `{MapOrder} (cw : Components.World).

(** The active version of a component, or the latest one, which is then installed. *)
Definition component_binary (cm : ComponentManager) (name : string) (label : string)
    : ComponentManager * res error string :=
  match GetActiveComponent cm name with
  | (Some c, None) => (cm, Ok (path_Join [Components.Path c; Name c]))
  | _ =>
      match InstallComponent cw cm name LASTEST_VERSION with
      | (cm, (Some c, None)) => (cm, Ok (path_Join [Components.Path c; Name c]))
      | (cm, (_, Some e)) => (cm, Err (EText ("failed to install " +:+ label +:+ " binary: " +:+
                                              match e with EText t => t | ECode _ => "" end)))
      | (cm, (None, None)) => (cm, Panic)
      end
  end.

(** The flags are read up to the first that asks for help: [None] for help. *)
Fixpoint scan_flags (args : list string) (daemonize : bool) : option bool :=
  match args with
  | [] => Some daemonize
  | arg :: args =>
      if decide (arg = "--help" ∨ arg = "-h") then None
      else scan_flags args (daemonize || bool_decide (arg = "--daemonize" ∨ arg = "-d"))
  end.

(** The lines of the help of a component that are shown: its long options. *)
Definition help_options (output : string) : list string :=
  filter (λ line, HasPrefix line "--" = true) (TrimSpace <$> Split output (byte 10)).
Definition runCommandHelp (command : string) : eff error W (list string) := λ w,
  let '(w, (output, e)) := proc_Output command ["--help"] w in
  match e with
  | Some t => if decide (output = "") then (w, Err (EText t)) else (w, Ok (help_options output))
  | None => (w, Ok (help_options output))
  end.

(** The binary is there and may be executed. *)
Definition ready_binary (path : string) : eff error W () := λ w,
  if negb (IsFileExists path w) then (w, Err (EText (path +:+ " not found")))
  else if HasExecutePermission path w then (w, Ok ())
  else match AddExecutePermission path w with
       | (w, Some e) => (w, Err (EText ("failed to add execute permission for " +:+ path +:+ ",error: " +:+ e)))
       | (w, None) => (w, Ok ())
       end.

Definition of_text (r : W * option string) : W * res error () :=
  match r with (w, None) => (w, Ok ()) | (w, Some t) => (w, Err (EText t)) end.

(** [runStart] of a metadata server or a cache node. *)
Definition runStart (name : string) (args : list string) (daemonize : bool) : eff error W () := λ w,
  match proc_Start name args w with
  | (w, Some e) => (w, Err (EText e))
  | (w, None) => if daemonize then (sleep 2 w, Ok ()) else of_text (proc_Wait name args w)
  end.
Definition runMeta (name : string) (args : list string) : eff error W () := λ w,
  match proc_Start name args w with
  | (w, Some e) => (w, Err (EText e))
  | (w, None) => of_text (proc_Wait name args w)
  end.

(** What a command that runs a component ends with: the options of its help, or nothing. *)
Definition run_component (cm : ComponentManager) (name label : string) (args : list string)
    (run : string → bool → eff error W ()) : eff error W (ComponentManager * list string) :=
  let '(cm, binary) := component_binary cm name label in
  path ← pure_eff binary;
  match scan_flags args false with
  | None => l ← runCommandHelp path; mret (cm, l)
  | Some daemonize => _ ← ready_binary path; _ ← run path daemonize; mret (cm, [])
  end.
Definition NewMdsStartCommand (cm : ComponentManager) (args : list string) : eff error W (ComponentManager * list string) :=
  run_component cm DINGO_MDS "dingo-mds" args (λ path d, runStart path args d).
Definition NewCacheStartCommand (cm : ComponentManager) (args : list string) : eff error W (ComponentManager * list string) :=
  run_component cm DINGO_DACHE "dingo-cache" args (λ path d, runStart path args d).
Definition NewMdsMetaCommand (cm : ComponentManager) (args : list string) : eff error W (ComponentManager * list string) :=
  run_component cm DINGO_MDS_CLIENT "dingo-mds" args (λ path _, runMeta path args).

(** ** Unmounting *)

Definition MNT_FORCE : Z := 1.
Definition MNT_DETACH : Z := 2.
Record umountOptions : Type := mkUmountOptions { um_mountpoint : string; um_force : bool; um_lazy : bool }.

Definition SysError_text (e : SysError) : string :=
  match e with
  | EINVAL => "invalid argument" | EPERM => "operation not permitted" | EBUSY => "device or resource busy"
  | ENOENT => "no such file or directory" | EOPNOTSUPP => "operation not supported" | EOTHER t => t
  end.
Definition runFuseumount (mountpoint : string) (w : W) : W * option string :=
  let '(w, (_, e)) := proc_Output "fusermount3" ["-u"; mountpoint] w in (w, e).
Definition umount_flags (o : umountOptions) : Z :=
  if um_force o then MNT_FORCE else if um_lazy o then MNT_DETACH else 0%Z.
Definition runUmuont (o : umountOptions) : eff error W () := λ w,
  let mountpoint := um_mountpoint o in
  if um_lazy o && um_force o then (w, Err (EText "lazy and force options cannot be used simultaneously"))
  else if negb (IsFileExists mountpoint w) then (w, Err (EText ("mountpoint does not exist: " +:+ mountpoint)))
  else let '(w, err) := sys_Unmount mountpoint (umount_flags o) w in
  match err with
  | None => (w, Ok ())
  | Some EINVAL => (w, Err (EText ("invalid mountpoint: " +:+ mountpoint)))
  | Some EPERM =>
      match runFuseumount mountpoint w with
      | (w, Some e) => (w, Err (EText ("error unmounting: " +:+ e)))
      | (w, None) => (w, Ok ())
      end
  | Some EBUSY => (w, Err (EText ("mountpoint " +:+ mountpoint +:+ " is busy, try lazy unmount or check processes")))
  | Some ENOENT => (w, Err (EText ("mountpoint " +:+ mountpoint +:+ " does not exist")))
  | Some e => (w, Err (EText ("system error: " +:+ SysError_text e)))
  end.

(** ** Mounting *)

(** The goroutine that looks for the statistics file, once a second.  When it is there the
    send to [isReady] can always proceed, the channel having room for one value, so that
    neither the time-out of the inner [select] nor its [default] is ever taken. *)
Fixpoint wait_ready (fuel : nat) (filename : string) (w : W) : option W :=
  match fuel with
  | O => None
  | S fuel => let w := sleep 1 w in if IsFileExists filename w then Some w else wait_ready fuel filename w
  end.

(** [None]: the command is still waiting when the fuel is used up. *)
Definition runMount (fuel : nat) (name : string) (args : list string) (mountpoint : string) (daemonize : bool)
    (w : W) : option (W * res error ()) :=
  match proc_Start name args w with
  | (w, Some e) => Some (w, Err (EText e))
  | (w, None) =>
      if daemonize then w ← wait_ready fuel (path_Join [mountpoint; ".stats"]) w; Some (w, Ok ())
      else Some (of_text (proc_Wait name args w))
  end.

Definition MOUNT_ARGS : string := dquote +:+ "dingocli fs mount" +:+ dquote +:+ " requires exactly 2 arguments" +:+
  String (byte 10) (String (byte 10) "Usage: dingocli fs mount METAURL MOUNTPOINT [OPTIONS]").
Definition NewFsMountCommand (fuel : nat) (cm : ComponentManager) (args : list string) (w : W)
    : option (W * res error (ComponentManager * list string)) :=
  let '(cm, binary) := component_binary cm DINGO_CLIENT "dingo-client" in
  match binary with
  | Err e => Some (w, Err e)
  | Panic => Some (w, Panic)
  | Ok path =>
      match scan_flags args false, args with
      | None, _ => Some ((l ← runCommandHelp path; mret (cm, l)) w)
      | Some daemonize, _ :: mountpoint :: _ =>
          match ready_binary path w with
          | (w, Ok _) =>
              '(w, r) ← runMount fuel path args mountpoint daemonize w;
              Some (w, _ ← r; Ok (cm, []))
          | (w, Err e) => Some (w, Err e)
          | (w, Panic) => Some (w, Panic)
          end
      | _, _ => Some (w, Err (EText MOUNT_ARGS))
      end
  end.

(** ** Warming up *)

Definition DINGOFS_WARMUP_OP_XATTR : string := "dingofs.warmup.op".
Record warmupOptions : Type := mkWarmupOptions { wa_filepath : string; wa_daemon : bool; wa_single : bool }.

(** One answer of the file system, [finished/total/errors]. *)
Inductive WarmupPoll := Progress (finished total : Z) | Finished (total errors : Z) | Malformed | Stop.
Definition warmup_poll (resultStr : string) : WarmupPoll :=
  match Split resultStr "/" with
  | [a; b; c] =>
      match ParseUint 64 a, ParseUint 64 b, ParseUint 64 c with
      | Some finished, Some total, Some errors =>
          if (wrapu64 (finished + errors) =? total)%Z then Finished total errors else Progress finished total
      | _, _, _ => Stop
      end
  | _ => Malformed
  end.
Fixpoint warmup_query (fuel : nat) (path : string) (w : W) : option (W * res error ()) :=
  match fuel with
  | O => None
  | S fuel =>
      match sys_Getxattr path DINGOFS_WARMUP_OP_XATTR w with
      | inr e => Some (w, Err (EText e))
      | inl resultStr =>
          match warmup_poll resultStr with
          | Malformed => Some (w, Err (EText "response data format error, should be [finished/total/errors]"))
          | Stop | Finished _ _ => Some (w, Ok ())
          | Progress _ _ => warmup_query fuel path (sleep 1 w)
          end
      end
  end.

Definition warmup_options (filelist : string) (args : list string) (daemon : bool) : res error warmupOptions :=
  match decide (filelist = ""), args with
  | right _, _ => Ok (mkWarmupOptions filelist daemon false)
  | left _, [] => Err (EText "no warmup file is specified")
  | left _, path :: _ => Ok (mkWarmupOptions path daemon true)
  end.

(** The checks of the path, and the inodes to warm up. *)
Definition warmup_target (o : warmupOptions) (w : W) : res error (string * string) :=
  mountpoints ← GetDingoFSMountPoints w;
  if decide (mountpoints = []) then Err (EText "no dingofs mountpoint found")
  else
    let path := path_Clean (if decide (wa_filepath o = "") then os_cwd w else Abs (wa_filepath o) w) in
    match os_Stat path w with
    | inr NotExist => Err (EText ("[" +:+ path +:+ "]: no such file or directory"))
    | inr (OtherError t) => Err (EText ("stat [" +:+ path +:+ "] fail: " +:+ t))
    | inl info =>
        if negb (wa_single o) && fi_dir info then Err (EText ("[" +:+ path +:+ "]: must be a file"))
        else if negb (existsb (λ m, HasPrefix path (MountPoint m)) mountpoints)
        then Err (EText ("[" +:+ path +:+ "] is not saved in dingofs"))
        else
          inodesStr ← (if wa_single o then
                         match GetFileInode path w with
                         | inl i => Ok (Itoa i) | inr e => Err (EText (stat_text path e)) end
                       else GetInodesAsString path w);
          Ok (path, inodesStr)
    end.

(** What the query answers is dropped. *)
Definition warmup_runAdd (fuel : nat) (o : warmupOptions) (w : W) : option (W * res error ()) :=
  match warmup_target o w with
  | Err e => Some (w, Err e)
  | Panic => Some (w, Panic)
  | Ok (path, inodesStr) =>
      match sys_Setxattr path DINGOFS_WARMUP_OP_XATTR inodesStr w with
      | (w, Some EOPNOTSUPP) => Some (w, Err (EText "filesystem does not support extended attributes"))
      | (w, Some e) => Some (w, Err (EText (DINGOFS_WARMUP_OP_XATTR +:+ ": " +:+ SysError_text e)))
      | (w, None) =>
          if wa_daemon o then Some (w, Ok ())
          else '(w, _) ← warmup_query fuel path (sleep 1 w); Some (w, Ok ())
      end
  end.
End commands.

(** * What the commands do *)

Section facts.
Context `{LocalOS W} `{MapOrder}.

Definition sleeps (n : nat) (w : W) : W := Nat.iter n (sleep 1) w.
Lemma sleeps_S n w : sleeps (S n) w = sleeps n (sleep 1 w).
Proof. apply Nat.iter_succ_r. Qed.

(** A condition that is first met after [S n] sleeps. *)
Definition first_at (P : W → bool) (n : nat) (w : W) : Prop :=
  P (sleeps (S n) w) = true ∧ ∀ i, (i < n)%nat → P (sleeps (S i) w) = false.
Lemma first_at_O P w : first_at P 0 w → P (sleep 1 w) = true.
Proof. by intros [? _]. Qed.
Lemma first_at_S P n w : first_at P (S n) w → P (sleep 1 w) = false ∧ first_at P n (sleep 1 w).
Proof.
  intros [Hn Hlt]. split; [exact (Hlt 0%nat ltac:(lia))|]. split; [by rewrite <- sleeps_S|].
  intros i Hi. rewrite <- sleeps_S. apply Hlt. lia.
Qed.

Lemma wait_ready_first n : ∀ fuel filename w,
  first_at (IsFileExists filename) n w → (n < fuel)%nat → wait_ready fuel filename w = Some (sleeps (S n) w).
Proof.
  induction n as [|n IH]; intros [|fuel] filename w Hw Hf; try lia; cbn [wait_ready]; cbv zeta.
  - by rewrite (first_at_O _ _ Hw).
  - apply first_at_S in Hw as [-> Hw]. rewrite sleeps_S. apply IH; [done|lia].
Qed.
Lemma wait_ready_never filename fuel : ∀ w,
  (∀ i, IsFileExists filename (sleeps (S i) w) = false) → wait_ready fuel filename w = None.
Proof.
  induction fuel as [|fuel IH]; intros w Hw; [done|]. cbn [wait_ready]; cbv zeta.
  rewrite (Hw 0%nat : IsFileExists filename (sleep 1 w) = false). apply IH. intros i.
  rewrite <- sleeps_S. apply Hw.
Qed.

(** A background mount returns with success in the second in which the statistics file is
    found, however the process it started fares. *)
Theorem mount_ready n fuel name args mountpoint w w' :
  proc_Start name args w = (w', None) →
  first_at (IsFileExists (path_Join [mountpoint; ".stats"])) n w' → (n < fuel)%nat →
  runMount fuel name args mountpoint true w = Some (sleeps (S n) w', Ok ()).
Proof. unfold runMount. intros -> Hn Hf. by rewrite (wait_ready_first n). Qed.

(** A background mount whose file never appears does not end: there is no time-out, and the
    end of the process is not looked at. *)
Theorem mount_never fuel name args mountpoint w w' :
  proc_Start name args w = (w', None) →
  (∀ i, IsFileExists (path_Join [mountpoint; ".stats"]) (sleeps (S i) w') = false) →
  runMount fuel name args mountpoint true w = None.
Proof. unfold runMount. intros -> Hn. by rewrite wait_ready_never. Qed.

(** Unmounting succeeds exactly when at most one of the options is given, the mount point is
    not missing, and the system call succeeds or, being refused, [fusermount3] does. *)
Theorem umount_succeeds o w :
  snd (runUmuont o w) = Ok () ↔
  um_lazy o && um_force o = false ∧ IsFileExists (um_mountpoint o) w = true ∧
  (snd (sys_Unmount (um_mountpoint o) (umount_flags o) w) = None ∨
   snd (sys_Unmount (um_mountpoint o) (umount_flags o) w) = Some EPERM ∧
   snd (runFuseumount (um_mountpoint o) (fst (sys_Unmount (um_mountpoint o) (umount_flags o) w))) = None).
Proof.
  unfold runUmuont. cbv zeta.
  destruct (um_lazy o && um_force o); [naive_solver|].
  destruct (IsFileExists (um_mountpoint o) w); [|naive_solver]. cbn [negb].
  destruct (sys_Unmount _ _ w) as [w1 [[]|]]; cbn [fst snd]; try naive_solver.
  destruct (runFuseumount _ w1) as [w2 [e|]]; cbn [fst snd]; naive_solver.
Qed.

(** The binary that a command goes on to start is there and executable, given that a change
    of mode which succeeds can be read back. *)
Theorem ready_binary_executable path w w' :
  (∀ m v v', os_Chmod path m v = (v', None) → ∃ i, os_Stat path v' = inl i ∧ fi_mode i = m) →
  ready_binary path w = (w', Ok ()) → HasExecutePermission path w' = true.
Proof.
  intros Hmode. unfold ready_binary, AddExecutePermission.
  destruct (IsFileExists path w); [|done]. cbn [negb].
  destruct (HasExecutePermission path w) eqn:Hx; [by intros [= <-]|].
  destruct (os_Stat path w) as [i|e]; [|done].
  destruct (os_Chmod path _ w) as [v [e|]] eqn:Hc; [done|]. intros [= <-].
  apply Hmode in Hc as (j & Hj & Hm). unfold HasExecutePermission. rewrite Hj, Hm.
  apply negb_true_iff, Z.eqb_neq. intros Hz.
  pose proof (f_equal (λ z, Z.testbit z 0) Hz) as Hb. cbv beta in Hb.
  by rewrite Z.land_spec, Z.lor_spec, orb_true_r in Hb.
Qed.

(** ** The progress of a warm-up *)

Definition ends_query (path : string) (w : W) : bool :=
  match sys_Getxattr path DINGOFS_WARMUP_OP_XATTR w with
  | inr _ => true
  | inl s => match warmup_poll s with Progress _ _ => false | _ => true end
  end.
Definition query_answer (path : string) (w : W) : res error () :=
  match sys_Getxattr path DINGOFS_WARMUP_OP_XATTR w with
  | inr e => Err (EText e)
  | inl s => match warmup_poll s with
             | Malformed => Err (EText "response data format error, should be [finished/total/errors]")
             | _ => Ok () end
  end.

(** The query polls once a second and answers for the first answer that is not progress. *)
Theorem warmup_query_first n : ∀ fuel path w,
  ends_query path (sleeps n w) = true → (∀ i, (i < n)%nat → ends_query path (sleeps i w) = false) →
  (n < fuel)%nat → warmup_query fuel path w = Some (sleeps n w, query_answer path (sleeps n w)).
Proof.
  induction n as [|n IH]; intros [|fuel] path w Hn Hlt Hf; try lia; cbn [warmup_query].
  - revert Hn. change (sleeps 0 w) with w. unfold ends_query, query_answer.
    destruct (sys_Getxattr _ _ w) as [s|e]; [|done]. by destruct (warmup_poll s).
  - pose proof (Hlt 0%nat ltac:(lia)) as Hp. revert Hp. change (sleeps 0 w) with w. unfold ends_query at 1.
    destruct (sys_Getxattr _ _ w) as [s|e]; [|done]. destruct (warmup_poll s); try done. intros _.
    rewrite sleeps_S. rewrite sleeps_S in Hn. apply IH; [done| |lia].
    intros i Hi. rewrite <- sleeps_S. apply Hlt. lia.
Qed.

(** A warm-up in the foreground ends well whatever the query answers. *)
Theorem warmup_add_ignores_query fuel o w path inodes w1 w2 r :
  warmup_target o w = Ok (path, inodes) →
  sys_Setxattr path DINGOFS_WARMUP_OP_XATTR inodes w = (w1, None) → wa_daemon o = false →
  warmup_query fuel path (sleep 1 w1) = Some (w2, r) → warmup_runAdd fuel o w = Some (w2, Ok ()).
Proof. unfold warmup_runAdd. by intros -> -> -> ->. Qed.

(** An inode is only ever asked for a path below, in the sense of the text, a mount point. *)
Theorem warmup_target_below o w path inodes :
  warmup_target o w = Ok (path, inodes) →
  ∃ l m, mountinfo w = Some l ∧ m ∈ l ∧ (FilesystemType m = "fuse.dingofs" ∨ FilesystemType m = "fuse") ∧
         HasPrefix path (MountPoint m) = true.
Proof.
  unfold warmup_target, GetDingoFSMountPoints. destruct (mountinfo w) as [l|]; [|done].
  cbn [mbind res_bind]. case_decide; [done|]. cbv zeta.
  destruct (os_Stat _ w) as [i|[]]; try done. destruct (negb _ && _); [done|].
  destruct (existsb _ _) eqn:Hp; [|done]. cbn [negb]. intros Hr.
  apply existsb_exists in Hp as (m & Hm & Hpre). apply list_elem_of_In, list_elem_of_filter in Hm as [Hty Hm].
  exists l, m. split; [done|]. split; [done|]. split; [done|].
  destruct (if wa_single o then _ else _) as [s| |]; [|done..]. by injection Hr as <- _.
Qed.
End facts.

(** A machine for the examples: the statistics file of a mount appears after three seconds. *)
Definition sample_os : LocalOS nat := {|
  os_Stat := λ p n, if HasPrefix p "/mnt/dingofs2" then inl (mkFileInfo 420 false 77)
                    else if decide (p = "/mnt/a/.stats" ∧ (3 ≤ n)%nat) then inl (mkFileInfo 256 false 1)
                    else inr NotExist;
  os_Chmod := λ _ _ n, (n, None); os_ReadFile := λ _ _, inr "none"; os_cwd := λ _, "/";
  proc_Start := λ _ _ n, (n, None); proc_Wait := λ _ _ n, (n, None); proc_Output := λ _ _ n, (n, ("", None));
  sys_Unmount := λ _ _ n, (n, Some EPERM);
  sys_Setxattr := λ _ _ _ n, (n, None);
  sys_Getxattr := λ _ _ n, inl (if decide (n < 5)%nat then "1/3/0" else "2/3/x");
  mountinfo := λ _, Some [mkMountInfo "/mnt/dingofs" "/" "fuse.dingofs"];
  sleep := λ s n, (Z.to_nat s + n)%nat
|}.
#[local] Existing Instance sample_os.

Example mount_after_three : runMount 10 "dingo-client" [] "/mnt/a" true 0%nat = Some (3%nat, Ok ()).
Proof. reflexivity. Qed.
(** [/mnt/dingofs2] passes for a path of the file system mounted at [/mnt/dingofs]; an answer
    whose count is no number ends the query with success. *)
Example warmup_outside `{MapOrder} : warmup_runAdd 10 (mkWarmupOptions "/mnt/dingofs2/x" false true) 0%nat = Some (5%nat, Ok ()).
Proof. reflexivity. Qed.
Example umount_refused : snd (runUmuont (mkUmountOptions "/mnt/dingofs2" false true) 0%nat) = Ok ().
Proof. reflexivity. Qed.
