(* ===== verification/Download.v ===== *)
(** Fetching a file or a text over HTTP (src/internal/utils/file.go: DownloadFileWithProgress,
    GetRemoteFileContent) and the other helpers of that file that write files.

    The HTTP client and the file system are parameters, the class [Net]; certificates are
    not checked and the times allowed for a request are the client's.  The progress bar
    has no model. *)

From S2P Require Import Prelude GoLib DirCmd.
From Stdlib Require Import Ascii.

(** The body of a response: all of it, or what was read before the error. *)
Record HttpResponse : Type := mkHttpResponse {
  StatusCode : Z; Status : string; body_read : string; body_error : option string }.

Class Net (W : Type) := {
  http_Get : string → W → W * (HttpResponse + string);
  fs_MkdirAll : string → W → W * option string;
  fs_Create : string → W → W * option string;
  fs_Write : string → string → W → W * option string;
  fs_Remove : string → W → W * option string;
  fs_Rename : string → string → W → W * option string;
}.

Section download.
Context `{Net W}.

Definition StatusOK : Z := 200.

(** [utils.WriteFile]: a short write is an error of [fs_Write] here. *)
Definition WriteFile (filename data : string) (w : W) : W * option string :=
  match fs_Create filename w with
  | (w, Some e) => (w, Some e)
  | (w, None) => fs_Write filename data w
  end.

(** [io.Copy] of the body into the file: what was read is written. *)
Definition copy_body (filePath : string) (resp : HttpResponse) (w : W) : W * option string :=
  match fs_Write filePath (body_read resp) w with
  | (w, Some e) => (w, Some e)
  | (w, None) => (w, body_error resp)
  end.

Definition tmp_name (url filename : string) : string :=
  (if decide (filename = "") then path_Base url else filename) +:+ ".tmp".

Definition or_else {A} (r : W * option string) (k : W → W * (A + string)) : W * (A + string) :=
  match r with (w, Some e) => (w, inr e) | (w, None) => k w end.

Definition DownloadFileWithProgress (url destination filename : string) (w : W) : W * (string + string) :=
  let '(w, resp) := http_Get url w in
  match resp with
  | inr e => (w, inr e)
  | inl resp =>
      or_else (fs_MkdirAll destination w) (λ w,
      let filePath := path_Join [destination; tmp_name url filename] in
      or_else (fs_Create filePath w) (λ w,
      match copy_body filePath resp w with
      | (w, Some e) => (fst (fs_Remove filePath w), inr e)
      | (w, None) => or_else (fs_Rename filePath (path_Join [destination; filename]) w) (λ w, (w, inl filePath))
      end))
  end.

Definition url_note (url : string) : string := ", url: " +:+ url.
Definition GetRemoteFileContent (url : string) (w : W) : W * (string + string) :=
  let '(w, resp) := http_Get url w in
  match resp with
  | inr e => (w, inr ("HTTP request failed: " +:+ e +:+ url_note url))
  | inl resp =>
      if negb (StatusCode resp =? StatusOK)%Z
      then (w, inr ("HTTP request failed with status: " +:+ Status resp +:+ url_note url))
      else match body_error resp with
           | Some e => (w, inr ("failed to read response body: " +:+ e +:+ url_note url))
           | None => (w, inl (body_read resp))
           end
  end.

(** A text is answered only from a response of status 200 that was read whole. *)
Theorem GetRemoteFileContent_ok url w w' s :
  GetRemoteFileContent url w = (w', inl s) ↔
  ∃ r, http_Get url w = (w', inl r) ∧ StatusCode r = StatusOK ∧ body_error r = None ∧ body_read r = s.
Proof.
  unfold GetRemoteFileContent. destruct (http_Get url w) as [w1 [r|e]]; [|naive_solver].
  destruct (Z.eqb_spec (StatusCode r) StatusOK) as [Hs|Hs]; cbn [negb]; [|naive_solver].
  destruct (body_error r) eqn:Hb; naive_solver.
Qed.

(** The laws of a file system with contents [content] that a download relies on. *)
Class FileLaws (content : string → W → option string) : Prop := {
  write_content p s w w' : fs_Write p s w = (w', None) → content p w' = Some s;
  rename_content p q w w' : p ≠ q → fs_Rename p q w = (w', None) →
    content q w' = content p w ∧ content p w' = None;
}.

(** A download that ends well has stored the body under the name asked for, whatever the
    status of the response, and the path it answers is that of the temporary file, which
    no longer exists. *)
Theorem download_stores `{!FileLaws content} url destination filename w w' p :
  path_Join [destination; tmp_name url filename] ≠ path_Join [destination; filename] →
  DownloadFileWithProgress url destination filename w = (w', inl p) →
  ∃ w1 r, http_Get url w = (w1, inl r) ∧ body_error r = None ∧
    content (path_Join [destination; filename]) w' = Some (body_read r) ∧
    p = path_Join [destination; tmp_name url filename] ∧ content p w' = None.
Proof.
  intros Hne. unfold DownloadFileWithProgress, copy_body, or_else.
  destruct (http_Get url w) as [w1 [r|e]]; [|done].
  destruct (fs_MkdirAll _ w1) as [w2 [?|]]; [done|].
  destruct (fs_Create _ w2) as [w3 [?|]]; [done|].
  destruct (fs_Write _ _ w3) as [w4 [?|]] eqn:Hw; [done|].
  destruct (body_error r) eqn:Hb; [done|].
  destruct (fs_Rename _ _ w4) as [w5 [?|]] eqn:Hr; [done|]. intros [= <- <-].
  apply write_content in Hw. destruct (rename_content _ _ _ _ Hne Hr) as [Hq Hp].
  exists w1, r. by rewrite Hq, Hw.
Qed.
End download.

(** ** A file system of contents *)

Definition sample_net (answer : HttpResponse) : Net (gmap string string) := {|
  http_Get := λ _ m, (m, inl answer); fs_MkdirAll := λ _ m, (m, None); fs_Create := λ p m, (<[p := ""]> m, None);
  fs_Write := λ p s m, (<[p := s]> m, None); fs_Remove := λ p m, (delete p m, None);
  fs_Rename := λ p q m, match m !! p with None => (m, Some "no such file") | Some s => (<[q := s]> (delete p m), None) end;
|}.
Lemma sample_net_laws answer : @FileLaws _ (sample_net answer) (λ p m, m !! p).
Proof.
  split.
  - intros p s m m' [= <-]. by simplify_map_eq.
  - intros p q m m' Hne. cbn. destruct (m !! p) eqn:Hp; [|done]. intros [= <-].
    by rewrite lookup_insert_eq, lookup_insert_ne, lookup_delete_eq.
Qed.

(** The page of an error is installed as the binary. *)
Example download_not_found :
  let answer := mkHttpResponse 404 "404 Not Found" "<html>" None in
  @DownloadFileWithProgress _ (sample_net answer) "http://m/dingo-client" "/bin" "dingo-client" ∅ =
  ({["/bin/dingo-client" := "<html>"]}, inl "/bin/dingo-client.tmp").
Proof. vm_compute. reflexivity. Qed.
