(* ===== verification/Upgrade.v ===== *)
(** Upgrading the tool (src/internal/tools/upgrade/upgrade.go) and the root command
    (src/cli/command/cmd.go).

    The HTTP client is that of Download.v; running a shell with additions to the
    environment is a parameter, as is the user's answer.  A response whose body cannot be
    read is an error of the client. *)

From S2P Require Import Prelude Errno GoLib Utils Shell TextTable Download.
From Stdlib Require Import Ascii.

Definition URL_LATEST_VERSION : string := "https://github.com/dingodb/dingocli/releases/download/latest/commit_id".
Definition URL_INSTALL_SCRIPT : string := "https://raw.githubusercontent.com/dingodb/dingocli/master/scripts/install_dingocli.sh".
Definition ENV_DINGOADM_UPGRADE : string := "DINGOADM_UPGRADE".
Definition ENV_DINGOADM_VERSION : string := "DINGOADM_VERSION".

Section upgrade.
Context `{Net W}.
(** [bash -c command] with variables added to the environment. *)
Context (bash : string → list (string * string) → W → W * option string).

Definition fetched (r : HttpResponse + string) : HttpResponse + string :=
  match r with
  | inl resp => match body_error resp with Some e => inr e | None => inl resp end
  | inr e => inr e
  end.
(** Empty when the tool is up to date. *)
Definition GetLatestCommitId (currentCommit : string) : eff error W string := λ w,
  let '(w, r) := http_Get URL_LATEST_VERSION w in
  (w, match fetched r with
      | inr e => Err (EText e)
      | inl resp =>
          if negb (StatusCode resp =? 200)%Z
          then Err (EText ("failed to get latest commit, status code: " +:+ Itoa (StatusCode resp)))
          else let latestCommitId := TrimSuffix (body_read resp) (bytes [10]) in
               if decide (latestCommitId = "") then Err (EText "failed to get latest commit, response is empty")
               else Ok (if decide (currentCommit = latestCommitId) then "" else latestCommitId)
      end).
Definition Upgrade_ (version : string) : eff error W () := λ w,
  let '(w, e) := bash ("curl -fsSL " +:+ URL_INSTALL_SCRIPT +:+ " | bash")
                   [(ENV_DINGOADM_UPGRADE, "true"); (ENV_DINGOADM_VERSION, version)] w in
  (w, match e with Some t => Err (EText t) | None => Ok () end).
Definition Upgrade2Latest (currentCommit : string) (input : option string) : eff error W () := λ w,
  match GetLatestCommitId currentCommit w with
  | (w, Err e) => (w, Err (EText ("failed to check for updates: " +:+ match e with EText t => t | ECode _ => "" end)))
  | (w, Panic) => (w, Panic)
  | (w, Ok version) =>
      if decide (version = "") then (w, Ok ())
      else if ConfirmYes input then Upgrade_ version w else (w, Ok ())
  end.

(** What the root command does without a sub-command. *)
Inductive RootAction := ListCodes | UpgradeTool | ShowHelp | NotACommand (name : string).
Definition NewDingoCliCommand (debug upgrade : bool) (args : list string) : RootAction :=
  if debug then ListCodes else if upgrade then UpgradeTool
  else match args with [] => ShowHelp | a :: _ => NotACommand a end.

(** The install script is run exactly when the commit that is published is another one and
    the user confirms; it is told that commit. *)
Theorem upgrade_runs currentCommit input w w1 resp :
  http_Get URL_LATEST_VERSION w = (w1, inl resp) → body_error resp = None → StatusCode resp = 200%Z →
  let latest := TrimSuffix (body_read resp) (bytes [10]) in
  latest ≠ "" →
  Upgrade2Latest currentCommit input w =
    if decide (currentCommit ≠ latest) then (if ConfirmYes input then Upgrade_ latest w1 else (w1, Ok ())) else (w1, Ok ()).
Proof.
  intros Hg Hb Hs. cbv zeta. intros Hne. unfold Upgrade2Latest, GetLatestCommitId. rewrite Hg. unfold fetched.
  rewrite Hb, Hs. change (negb (200 =? 200)%Z) with false. cbv iota beta.
  rewrite (decide_False (P := TrimSuffix _ _ = "")) by done.
  destruct (decide (currentCommit = TrimSuffix (body_read resp) (bytes [10]))) as [He|Hn].
  - rewrite (decide_False (P := currentCommit ≠ _)) by tauto. done.
  - rewrite (decide_True (P := currentCommit ≠ _)) by done. by rewrite decide_False.
Qed.
End upgrade.
