(* ===== verification/Float64.v ===== *)
(** [float64] as the statistics of a mount point use it (src/cli/command/fs/stats): its
    operations, reading a number ([strconv.ParseFloat]), rounding down and up, and the verbs
    [%.nf] and [%.e] of fmt.

    The values are the binary64 numbers of the Standard Library's SpecFloat.  Hexadecimal
    literals, which [ParseFloat] accepts too, are read by a parameter. *)

From S2P Require Import Prelude GoLib Utils.
From Stdlib Require Import Ascii SpecFloat.

Notation f64 := spec_float.
Definition f64_prec : Z := 53.
Definition f64_emax : Z := 1024.
Definition f64_0 : f64 := S754_zero false.
Definition f64_add : f64 → f64 → f64 := SFadd f64_prec f64_emax.
Definition f64_sub : f64 → f64 → f64 := SFsub f64_prec f64_emax.
Definition f64_mul : f64 → f64 → f64 := SFmul f64_prec f64_emax.
Definition f64_div : f64 → f64 → f64 := SFdiv f64_prec f64_emax.
Definition f64_of_Z (z : Z) : f64 := binary_normalize f64_prec f64_emax z 0 false.
(** The number nearest to a quotient of positive integers. *)
Definition f64_of_ratio (s : bool) (n d : positive) : f64 :=
  let '(q, e, l) := SFdiv_core_binary f64_prec f64_emax (Zpos n) 0 (Zpos d) 0 in
  binary_round_aux f64_prec f64_emax s q e l.

(** ** Reading *)

(** The digits a text begins with: their value, their number and the rest. *)
Fixpoint take_digits (acc : Z) (n : nat) (s : string) : Z * nat * string :=
  match s with
  | "" => (acc, n, "")
  | String a s' => match digit_of a with
                   | Some d => take_digits (acc * 10 + d)%Z (S n) s'
                   | None => (acc, n, s)
                   end
  end.
(** The digits of an exponent count only while it is below ten thousand. *)
Fixpoint exponent_digits (e : Z) (s : string) : option Z :=
  match s with
  | "" => Some e
  | String a s => d ← digit_of a; exponent_digits (if e <? 10000 then e * 10 + d else e)%Z s
  end.
Definition read_exponent (s : string) : option Z :=
  let '(neg, s) := match s with
                   | String "-" s => (true, s) | String "+" s => (false, s) | _ => (false, s) end in
  if decide (s = "") then None else e ← exponent_digits 0 s; Some (if neg : bool then - e else e)%Z.
(** Digits with at most one point and an exponent: the digits and the power of ten. *)
Definition read_decimal (s : string) : option (Z * Z) :=
  let '(m, n, s) := take_digits 0 0 s in
  let '(m, k, s) := match s with String "." s => take_digits m 0 s | _ => (m, 0, s) end in
  if decide (n + k = 0) then None else
  match s with
  | "" => Some (m, - Z.of_nat k)%Z
  | String a s => if decide (a = "e"%char ∨ a = "E"%char)
                  then e ← read_exponent s; Some (m, e - Z.of_nat k)%Z else None
  end.
Definition decimal_value (s : bool) (m e : Z) : f64 :=
  match m with
  | Zpos m =>
      match e with
      | Zneg d => f64_of_ratio s m (10 ^ d)
      | _ => binary_round f64_prec f64_emax s (m * Z.to_pos (10 ^ e)) 0
      end
  | _ => S754_zero s
  end.

(** [ParseFloat(s, 64)], [None] for its error: a number too large is one. *)
Section parse.
Context (hexadecimal : string → option f64).
Definition ParseFloat (s : string) : option f64 :=
  let '(neg, t) := match s with
                   | String "-" t => (true, t) | String "+" t => (false, t) | _ => (false, s) end in
  let l := ToLower t in
  if decide (l = "inf" ∨ l = "infinity") then Some (S754_infinity neg)
  else if decide (ToLower s = "nan") then Some S754_nan
  else if HasPrefix l "0x" then hexadecimal s
  else '(m, e) ← read_decimal t;
       match decimal_value neg m e with S754_infinity _ => None | v => Some v end.
End parse.

(** ** Integers *)

(** The integer part of the size of a number, and the next integer when there is a rest. *)
Definition trunc (m : positive) (e : Z) : Z := if (0 <=? e)%Z then (Zpos m * 2 ^ e)%Z else (Zpos m / 2 ^ (- e))%Z.
Definition ceil_abs (m : positive) (e : Z) : Z :=
  if (0 <=? e)%Z then (Zpos m * 2 ^ e)%Z else (- (- Zpos m / 2 ^ (- e)))%Z.
(** [math.Ceil], as an integer; [None] for no number. *)
Definition Ceil (v : f64) : option Z :=
  match v with
  | S754_zero _ => Some 0%Z
  | S754_finite false m e => Some (ceil_abs m e)
  | S754_finite true m e => Some (- trunc m e)%Z
  | _ => None
  end.
(** The conversion to [uint64]; what it gives out of range the language leaves open. *)
Section convert.
Context (out_of_range : f64 → Z).
Definition uint64_of (v : f64) : Z :=
  match v with
  | S754_zero _ => 0%Z
  | S754_finite false m e => if (trunc m e <? 2 ^ 64)%Z then trunc m e else out_of_range v
  | S754_finite true m e => if (trunc m e =? 0)%Z then 0%Z else out_of_range v
  | _ => out_of_range v
  end.
End convert.

(** ** Formatting *)

(** The integer nearest to [n / d], the even one of two. *)
Definition round_half_even (n d : Z) : Z :=
  let q := (n / d)%Z in let r := (n mod d)%Z in
  if (2 * r <? d)%Z then q else if (d <? 2 * r)%Z then (q + 1)%Z else if Z.even q then q else (q + 1)%Z.
(** [m * 2^e * k] as a quotient. *)
Definition scaled (m : positive) (e k : Z) : Z * Z :=
  if (0 <=? e)%Z then (Zpos m * 2 ^ e * k, 1)%Z else (Zpos m * k, 2 ^ (- e))%Z.
Definition sign_text (s : bool) : string := if s then "-" else "".
Definition zeros (n : nat) : string := repeat_string n "0".
(** An integer with [n] of its digits behind the point. *)
Definition with_point (n : nat) (q : Z) : string :=
  let p := (10 ^ Z.of_nat n)%Z in
  match n with
  | O => Itoa q
  | _ => let f := Itoa (q mod p) in Itoa (q / p) +:+ "." +:+ zeros (n - String.length f) +:+ f
  end.
Definition special (v : f64) : string :=
  match v with S754_infinity true => "-Inf" | S754_infinity false => "+Inf" | _ => "NaN" end.
(** [%.nf] *)
Definition format_f (n : nat) (v : f64) : string :=
  match v with
  | S754_zero s => sign_text s +:+ with_point n 0
  | S754_finite s m e =>
      let '(a, b) := scaled m e (10 ^ Z.of_nat n) in sign_text s +:+ with_point n (round_half_even a b)
  | _ => special v
  end.
(** [%.e]: one digit and an exponent of at least two. *)
Definition exponent_text (k : Z) : string :=
  let t := Itoa (Z.abs k) in
  "e" +:+ (if (k <? 0)%Z then "-" else "+") +:+ zeros (2 - String.length t) +:+ t.
(** For a number of at least one, which has as many digits as its integer part. *)
Definition format_e (v : f64) : string :=
  match v with
  | S754_zero s => sign_text s +:+ "0" +:+ exponent_text 0
  | S754_finite s m e =>
      let k := Z.of_nat (String.length (Itoa (trunc m e)) - 1) in
      let '(a, b) := scaled m e 1 in
      let d := round_half_even a (b * 10 ^ k) in
      sign_text s +:+ (if (d =? 10)%Z then "1" +:+ exponent_text (k + 1) else Itoa d +:+ exponent_text k)
  | _ => special v
  end.
(** The width of a verb: blanks on the left. *)
Definition pad_left (width : nat) (s : string) : string := repeat_string (width - String.length s) " " +:+ s.

(** ** Examples *)

Definition no_hex : string → option f64 := λ _, None.
Example parse_tenth : ParseFloat no_hex "0.1" = Some (S754_finite false 7205759403792794 (-56)).
Proof. vm_compute. reflexivity. Qed.
Example parse_texts : ParseFloat no_hex "-INF" = Some (S754_infinity true) ∧ ParseFloat no_hex "1e400" = None ∧
  ParseFloat no_hex "+nan" = None ∧ ParseFloat no_hex "1.5e3" = Some (f64_of_Z 1500) ∧ ParseFloat no_hex "." = None.
Proof. vm_compute. done. Qed.
Example format_texts :
  (format_f 2 <$> ParseFloat no_hex "9.996") = Some "10.00" ∧ (format_f 1 <$> ParseFloat no_hex "0.25") = Some "0.2" ∧
  (format_e <$> ParseFloat no_hex "95001") = Some "1e+05" ∧ (format_e <$> ParseFloat no_hex "12345") = Some "1e+04".
Proof. vm_compute. done. Qed.
