(* ===== verification/Stats.v ===== *)
(** The live statistics of a mount point (src/cli/command/fs/stats/mountpoint.go): the
    sections of a schema, the header, the values of a line, reading the statistics file and
    the loop.

    The file is a function of the seconds that have passed.  What is printed is a list of
    texts.  [log.Fatalf] ends the process and so does a panic: [process] tells both from a
    function that goes on; the message of a file that cannot be read is left without its
    details. *)

From stdpp Require Import pretty.
From S2P Require Import Prelude Errno GoLib Utils Storage Session Float64.
From Stdlib Require Import Ascii SpecFloat.

(** ** Ending the process *)

(** What a function without a result comes to that may end the process. *)
Inductive process (A : Type) : Type :=
| Goes_on (a : A)
| Fatal (message : string)
| Panicked.
Arguments Goes_on {A}.
Arguments Fatal {A}.
Arguments Panicked {A}.
#[export] Instance process_ret : MRet process := λ A a, Goes_on a.
#[export] Instance process_bind : MBind process := λ A B f m,
  match m with Goes_on a => f a | Fatal e => Fatal e | Panicked => Panicked end.

(** ** Colours *)

Definition BLACK : Z := 30.
Definition RED : Z := 31.
Definition GREEN : Z := 32.
Definition YELLOW : Z := 33.
Definition BLUE : Z := 34.
Definition MAGENTA : Z := 35.
Definition CYAN : Z := 36.
Definition WHITE : Z := 37.
Definition escape : string := bytes [27].
Definition RESET_SEQ : string := escape +:+ "[0m".
Definition COLOR_SEQ : string := escape +:+ "[1;".
Definition COLOR_DARK_SEQ : string := escape +:+ "[0;".
Definition UNDERLINE_SEQ : string := escape +:+ "[4m".

Definition colorize (colorful : bool) (msg : string) (color : Z) (dark underline : bool) : string :=
  if negb colorful || bool_decide (msg = "") || bool_decide (msg = " ") then msg
  else (if underline then UNDERLINE_SEQ else "") +:+ (if dark then COLOR_DARK_SEQ else COLOR_SEQ) +:+
       Itoa color +:+ "m" +:+ msg +:+ RESET_SEQ.

(** ** Sections *)

Definition metricByte : Z := 1.
Definition metricCount : Z := 2.
Definition metricTime : Z := 4.
Definition metricCPU : Z := 8.
Definition metricGauge : Z := 16.
Definition metricCounter : Z := 32.
Definition metricHist : Z := 64.
Definition metricHit : Z := 128.
Definition MaxItemSize : nat := 5.

Record item : Type := mkItem { nick : string; it_name : string; typ : Z }.
Record section : Type := mkSection { sec_name : string; sec_items : list item }.
Definition has_metric (t m : Z) : bool := negb (Z.land t m =? 0)%Z.

Definition byte_counter (nick name : string) : item := mkItem nick name (Z.lor metricByte metricCounter).
Definition latency (nick name : string) : item := mkItem nick name (Z.lor metricTime metricHist).
Definition schema_section (verbose : bool) (r : ascii) : option section :=
  if decide (r = "u"%char) then Some (mkSection "usage"
    ([mkItem "cpu" "process_cpu_usage" (Z.lor metricCPU metricCounter);
      mkItem "mem" "process_memory_resident" metricGauge; mkItem "used" "dingofs_memory_used_bytes" metricGauge] ++
     (if verbose then [mkItem "total" "dingofs_memory_total_bytes" metricGauge] else [])))
  else if decide (r = "f"%char) then Some (mkSection "fuse"
    [latency "ops" "dingofs_fuse_op_all"; byte_counter "read" "dingofs_vfs_read_bps_total_count";
     byte_counter "write" "dingofs_vfs_write_bps_total_count"])
  else if decide (r = "b"%char) then Some (mkSection "blockcache"
    [byte_counter "load" "dingofs_disk_cache_group_load_total_bytes";
     byte_counter "stage" "dingofs_disk_cache_group_stage_total_bytes";
     byte_counter "cache" "dingofs_disk_cache_group_cache_total_bytes"])
  else if decide (r = "o"%char) then Some (mkSection "object"
    ([byte_counter "get" "dingofs_block_read_block_bps_total_count"] ++
     (if verbose then [latency "ops" "dingofs_block_read_block"] else []) ++
     [byte_counter "put" "dingofs_block_write_block_bps_total_count"] ++
     (if verbose then [latency "ops" "dingofs_block_write_block"] else [])))
  else if decide (r = "r"%char) then Some (mkSection "remotecache"
    [byte_counter "load" "dingofs_remote_node_group_range_total_bytes";
     byte_counter "stage" "dingofs_remote_node_group_put_total_bytes";
     byte_counter "cache" "dingofs_remote_node_group_cache_total_bytes";
     mkItem "hit" "dingofs_remote_cache" metricHit])
  else None.
(** A letter without a section is warned of; a schema without a section ends the program. *)
Definition buildSchema (schema : string) (verbose : bool) : process (list section) :=
  match omap (schema_section verbose) (String.list_ascii_of_string schema) with
  | [] => Fatal "no section to watch, please check the schema string"
  | l => Goes_on l
  end.

(** ** The header *)

(** [padding]: a text in the middle of [width] characters, or its beginning. *)
Definition stats_padding (name : string) (width : nat) (char : string) : string :=
  let pad := width - String.length name in
  let name := if decide (width < String.length name) then String.substring 0 width name else name in
  let prefix := (pad + 1) / 2 in
  repeat_string prefix char +:+ name +:+ repeat_string (width - (prefix + String.length name)) char.

Section watcher.
Context (colorful : bool) (out_of_range : f64 → Z).
Notation paint := (colorize colorful).

Definition item_headers (it : item) : list string :=
  paint (stats_padding (nick it) MaxItemSize " ") BLUE false true ::
  (if has_metric (typ it) metricHist then
     [paint (if has_metric (typ it) metricTime then " lat " else " avg ") BLUE false true] else []).
Definition section_headers (s : section) : list string := flat_map item_headers (sec_items s).
Definition separator : string := paint "|" BLUE true false.
Definition formatHeader (sections : list section) : string :=
  Join ((λ s, paint (stats_padding (sec_name s) (6 * length (section_headers s) - 1) "-") BLUE true false) <$> sections) " "
  +:+ bytes [10] +:+
  Join ((λ s, Join (section_headers s) " ") <$> sections) separator.

(** ** Values *)

(** The number that is shown, its unit and its colour. *)
Definition scale_u64 (vi : Z) (isByte : bool) : Z * string * Z :=
  if (vi <? 10000)%Z then (vi, if isByte then "B" else " ", RED)
  else if (Z.shiftr vi 10 <? 10000)%Z then (Z.shiftr vi 10, "K", YELLOW)
  else if (Z.shiftr vi 20 <? 10000)%Z then (Z.shiftr vi 20, "M", GREEN)
  else if (Z.shiftr vi 30 <? 10000)%Z then (Z.shiftr vi 30, "G", BLUE)
  else if (Z.shiftr vi 40 <? 10000)%Z then (Z.shiftr vi 40, "T", MAGENTA)
  else (Z.shiftr vi 50, "P", CYAN).
Definition formatU64 (v : f64) (dark isByte : bool) : string :=
  if SFleb v f64_0 then paint "   0 " BLACK false false
  else let '(vi, unit, color) := scale_u64 (uint64_of out_of_range v) isByte in
       paint (pad_left 4 (Itoa vi)) color dark false +:+ paint unit BLACK false false.

Definition formatTime (v : f64) (dark : bool) : string :=
  if SFleb v f64_0 then paint "   0 " BLACK false false
  else if SFltb v (f64_of_Z 10) then paint (pad_left 4 (format_f 2 v) +:+ " ") GREEN dark false
  else if SFltb v (f64_of_Z 100) then paint (pad_left 4 (format_f 1 v) +:+ " ") YELLOW dark false
  else if SFltb v (f64_of_Z 10000) then paint (pad_left 4 (format_f 0 v) +:+ " ") RED dark false
  else paint (pad_left 1 (format_e v)) MAGENTA dark false.

Definition percent : string := paint "%" BLACK false false.
Definition formatCPU (v : f64) (dark : bool) : string :=
  let v := f64_mul v (f64_of_Z 100) in
  (if SFleb v f64_0 then paint " 0.0" WHITE dark false
   else if SFltb v (f64_of_Z 30) then paint (pad_left 4 (format_f 1 v)) GREEN dark false
   else if SFltb v (f64_of_Z 100) then paint (pad_left 4 (format_f 1 v)) YELLOW dark false
   else paint (pad_left 4 (format_f 0 v)) RED dark false) +:+ percent.
Definition formatHits (v : f64) (dark : bool) : string :=
  paint (pad_left 4 (format_f 1 (f64_mul v (f64_of_Z 100)))) GREEN dark false +:+ percent.

(** ** The statistics file *)

Section reading.
Context (hexadecimal : string → option f64).
Definition stats_line (m : gmap string f64) (line : string) : gmap string f64 :=
  match Split line ":" with
  | [k; v] => match ParseFloat hexadecimal v with Some v => <[k := v]> m | None => m end
  | _ => m
  end.
Definition remove_char (c : ascii) (s : string) : string :=
  String.string_of_list_ascii (filter (λ a, a ≠ c) (String.list_ascii_of_string s)).
Definition parse_stats (data : string) : gmap string f64 :=
  foldl stats_line ∅ (Split (remove_char " " (remove_char (byte 13) data)) (byte 10)).
End reading.
Definition metric (m : gmap string f64) (name : string) : f64 := default f64_0 (m !! name).

(** ** A line *)

(** The values of an item between two readings, and the sum of the processor times, which a
    full line resets. *)
Definition item_values (interval : Z) (left right : gmap string f64) (dark : bool) (cpuUsage : f64)
    (it : item) : list string * f64 :=
  let rate v := if dark then v else f64_div v (f64_of_Z interval) in
  let change name := f64_sub (metric right name) (metric left name) in
  let kind := Z.land (typ it) 240 in
  if (kind =? metricGauge)%Z then ([formatU64 (metric right (it_name it)) dark true], cpuUsage)
  else if (kind =? metricCounter)%Z then
    let v := rate (change (it_name it)) in
    if has_metric (typ it) metricByte then ([formatU64 v dark true], cpuUsage)
    else if has_metric (typ it) metricCPU then
      let v := metric right (it_name it) in
      let cpuUsage := f64_add cpuUsage v in
      if dark then ([formatCPU v dark], cpuUsage)
      else ([formatCPU (f64_div cpuUsage (f64_of_Z interval)) dark], f64_0)
    else if has_metric (typ it) metricTime then ([formatTime v dark], cpuUsage)
    else ([formatU64 v dark false], cpuUsage)
  else if (kind =? metricHist)%Z then
    let count := change (it_name it +:+ "_qps_total_count") in
    let avg := if SFltb f64_0 count then
                 let latency := change (it_name it +:+ "_lat_total_value") in
                 f64_div (if has_metric (typ it) metricTime then f64_div latency (f64_of_Z 1000) else latency) count
               else f64_0 in
    ([formatU64 (rate count) dark false; formatTime avg dark], cpuUsage)
  else if (kind =? metricHit)%Z then
    let hitCount := change (it_name it +:+ "_hit_count") in
    let missCount := change (it_name it +:+ "_miss_count") in
    let totalCount := f64_add hitCount missCount in
    ([formatHits (if SFltb f64_0 totalCount then f64_div hitCount totalCount else f64_0) dark], cpuUsage)
  else ([], cpuUsage).
Definition section_values (interval : Z) (left right : gmap string f64) (dark : bool) (cpuUsage : f64)
    (s : section) : list string * f64 :=
  foldl (λ '(vals, cpu) it, let '(l, cpu) := item_values interval left right dark cpu it in (vals ++ l, cpu))
    ([], cpuUsage) (sec_items s).
Definition line_values (interval : Z) (left right : gmap string f64) (dark : bool) (cpuUsage : f64)
    (sections : list section) : list (list string) * f64 :=
  foldl (λ '(values, cpu) s, let '(vals, cpu) := section_values interval left right dark cpu s in (values ++ [vals], cpu))
    ([], cpuUsage) sections.
(** Without colours the lines in between are left out, with their sum of processor times. *)
Definition printDiff (interval : Z) (sections : list section) (left right : gmap string f64) (dark : bool)
    (cpuUsage : f64) : list string * f64 :=
  if negb colorful && dark then ([], cpuUsage) else
  let '(values, cpuUsage) := line_values interval left right dark cpuUsage sections in
  ([Join ((λ vals, Join vals " ") <$> values) separator +:+ (if dark then bytes [13] else bytes [10])], cpuUsage).

(** ** The loop *)

Record watch : Type := mkWatch {
  tick : Z; w_start : gmap string f64; w_last : gmap string f64; w_current : gmap string f64;
  w_cpuUsage : f64; printed : list string }.

Section loop.
Context (hexadecimal : string → option f64) (interval : Z) (count : Z) (header : string) (sections : list section).
(** The file at each second, [None] when it cannot be read. *)
Context (read : nat → option string).

Definition readStats (n : nat) : process (gmap string f64) :=
  match read n with Some data => Goes_on (parse_stats hexadecimal data) | None => Fatal "open stats file" end.
(** [uint(i)], and the rest of a division of machine words, which panics for zero. *)
Definition uint_mod (a b : Z) : process Z := if (b =? 0)%Z then Panicked else Goes_on (a mod b)%Z.
(** One round up to the wait: the header every thirty lines, then a line. *)
Definition show_tick (w : watch) : process watch :=
  h ← uint_mod (tick w) (wrapu64 (wrapu64 interval * 30));
  t ← uint_mod (tick w) (wrapu64 interval);
  let out := printed w ++ (if (h =? 0)%Z then [header +:+ bytes [10]] else []) in
  let full := (t =? 0)%Z in
  let '(l, cpu) := printDiff interval sections (if full then w_start w else w_last w) (w_current w) (negb full) (w_cpuUsage w) in
  Goes_on (mkWatch (wrapu64 (tick w + 1)) (if full then w_current w else w_start w) (w_current w) (w_current w) cpu (out ++ l)).
(** [uint(math.Ceil(f64(tick)/f64(interval))) == uint(count)] *)
Definition enough (tick : Z) : bool :=
  let q := f64_div (f64_of_Z tick) (f64_of_Z interval) in
  let n := match Ceil q with
           | Some z => if (0 <=? z)%Z && (z <? 2 ^ 64)%Z then z else out_of_range q
           | None => out_of_range q
           end in
  (n =? count)%Z.
(** [None]: still running. *)
Fixpoint stats_loop (fuel : nat) (seconds : nat) (w : watch) : option (list string * process ()) :=
  match fuel with
  | O => None
  | S fuel =>
      match show_tick w with
      | Fatal e => Some (printed w, Fatal e)
      | Panicked => Some (printed w, Panicked)
      | Goes_on w =>
          match readStats (S seconds) with
          | Fatal e => Some (printed w, Fatal e)
          | Panicked => Some (printed w, Panicked)
          | Goes_on current =>
              let w := mkWatch (tick w) (w_start w) (w_last w) current (w_cpuUsage w) (printed w) in
              if enough (tick w) then Some (printed w, Goes_on ()) else stats_loop fuel (S seconds) w
          end
      end
  end.
End loop.

(** [inode] is that of the path, [duration] in nanoseconds. *)
Definition realTimeStats (hexadecimal : string → option f64) (inode : Z + string) (mountPoint schema : string)
    (verbose : bool) (duration count : Z) (read : nat → option string) (fuel : nat) : option (list string * process ()) :=
  match inode with
  | inr e => Some ([], Fatal ("run stats failed, " +:+ e))
  | inl i =>
      if negb (i =? 1)%Z then Some ([], Fatal ("path " +:+ mountPoint +:+ " is not a mount point")) else
      match buildSchema schema verbose with
      | Fatal e => Some ([], Fatal e)
      | Panicked => Some ([], Panicked)
      | Goes_on sections =>
          match readStats hexadecimal read 0 with
          | Fatal e => Some ([], Fatal e)
          | Panicked => Some ([], Panicked)
          | Goes_on m => stats_loop hexadecimal (Z.quot duration 1000000000) count (formatHeader sections) sections read fuel 0
                           (mkWatch 0 m m m f64_0 [])
          end
      end
  end.

(** [runMountpoint], the command, once [realTimeStats] is over: it never returns an error,
    and leaves the database alone. *)
Definition runMountpoint (r : process ()) : M command_end := λ d,
  match r with
  | Goes_on _ => (Ok Finished, d)
  | Fatal _ => (Ok ProcessExit, d)
  | Panicked => (Panic, d)
  end.
End watcher.
