(* ===== verification/StatsFacts.v ===== *)
(** What the statistics of Stats.v show: columns below their headers, numbers that are
    within a unit of what was measured, and the end of the loop. *)

From S2P Require Import Prelude GoLib Utils Storage StorageFacts Cli CliConfig Session TextTable Float64 Stats.
From Stdlib Require Import Ascii SpecFloat.

(** ** Widths *)

Lemma length_substring n s : (n ≤ String.length s)%nat → String.length (String.substring 0 n s) = n.
Proof. revert s; induction n as [|n IH]; intros [|a s] Hn; simpl in *; try lia. by rewrite IH by lia. Qed.

(** A padded text has the width asked for. *)
Theorem stats_padding_length name width char :
  String.length char = 1 → String.length (stats_padding name width char) = width.
Proof.
  intros Hc. unfold stats_padding. rewrite !length_app_string, !length_repeat_string, Hc. case_decide as Hw.
  - rewrite length_substring by lia. replace (width - String.length name) with 0 by lia. cbn. lia.
  - pose proof (Nat.div_mod_eq (width - String.length name + 1) 2).
    assert ((width - String.length name + 1) `div` 2 ≤ width - String.length name)%nat; [|lia].
    destruct (width - String.length name) as [|k]; [done|]. lia.
Qed.

Definition total_length (l : list string) : nat := sum_list (String.length <$> l).
Lemma length_Join l sep :
  l ≠ [] → String.length (Join l sep) = total_length l + (length l - 1) * String.length sep.
Proof.
  unfold total_length. induction l as [|x l IH]; [done|]. intros _. destruct l as [|y l].
  - cbn. lia.
  - change (Join (x :: y :: l) sep) with (x +:+ sep +:+ Join (y :: l) sep).
    rewrite !length_app_string, IH by done. cbn. lia.
Qed.
Lemma total_length_all n l : Forall (λ s, String.length s = n) l → total_length l = length l * n.
Proof. unfold total_length. induction 1 as [|x l Hx _ IH]; [done|]. cbn. rewrite IH, Hx. lia. Qed.

Lemma section_headers_five s : Forall (λ h, String.length h = MaxItemSize) (section_headers false s).
Proof.
  unfold section_headers. apply Forall_forall. intros h (it & _ & Hh)%list_elem_of_In%in_flat_map.
  apply list_elem_of_In in Hh. unfold item_headers, colorize in Hh. cbn [negb orb] in Hh.
  apply elem_of_cons in Hh as [->|Hh]; [by apply stats_padding_length|].
  destruct (has_metric (typ it) metricHist); [|by apply elem_of_nil in Hh].
  apply list_elem_of_singleton in Hh as ->. by destruct (has_metric _ _).
Qed.
(** The width of a section: five characters for each column and one between two. *)
Definition section_width (s : section) : nat := 6 * length (section_headers false s) - 1.
Lemma section_headers_width s :
  section_headers false s ≠ [] → String.length (Join (section_headers false s) " ") = section_width s.
Proof.
  intros Hne. rewrite length_Join by done. rewrite (total_length_all MaxItemSize) by apply section_headers_five.
  unfold section_width, MaxItemSize. cbn [String.length]. destruct (section_headers false s); [done|]. cbn [length]. lia.
Qed.

Definition title_line (sections : list section) : string :=
  Join ((λ s, stats_padding (sec_name s) (6 * length (section_headers false s) - 1) "-") <$> sections) " ".
Definition header_line (sections : list section) : string :=
  Join ((λ s, Join (section_headers false s) " ") <$> sections) "|".
Lemma formatHeader_lines sections : formatHeader false sections = title_line sections +:+ bytes [10] +:+ header_line sections.
Proof. reflexivity. Qed.

Lemma total_length_same {A} (f g : A → string) l :
  (∀ x, x ∈ l → String.length (f x) = String.length (g x)) → total_length (f <$> l) = total_length (g <$> l).
Proof.
  unfold total_length. induction l as [|x l IH]; intros Hl; [done|]. cbn. rewrite (Hl x), IH; [done| |by left].
  intros y Hy. apply Hl. by right.
Qed.

(** The two lines of the header are equally long. *)
Theorem header_aligned sections :
  sections ≠ [] → (∀ s, s ∈ sections → section_headers false s ≠ []) →
  String.length (title_line sections) = String.length (header_line sections).
Proof.
  intros Hne Hs. unfold title_line, header_line. rewrite !length_Join by (by destruct sections).
  rewrite !length_fmap. f_equal. apply total_length_same. intros s Hin.
  rewrite section_headers_width by by apply Hs. by apply stats_padding_length.
Qed.

(** ** Values below their columns *)

(** The items of the schemas are of one of the four kinds. *)
Definition known_kind (it : item) : Prop :=
  Z.land (typ it) 240 = metricGauge ∨ Z.land (typ it) 240 = metricCounter ∨ Z.land (typ it) 240 = metricHist ∨
  Z.land (typ it) 240 = metricHit.
Definition known_kindb (it : item) : bool :=
  existsb (λ m, Z.land (typ it) 240 =? m)%Z [metricGauge; metricCounter; metricHist; metricHit] &&
  Bool.eqb (has_metric (typ it) metricHist) (Z.land (typ it) 240 =? metricHist)%Z.
Lemma schema_kinds verbose r s : schema_section verbose r = Some s → forallb known_kindb (sec_items s) = true ∧ sec_items s ≠ [].
Proof.
  unfold schema_section. intros Hs. repeat (case_decide; [injection Hs as <-; destruct verbose; by vm_compute|]). done.
Qed.

Section values.
Context (oor : f64 → Z) (interval : Z) (left right : gmap string f64) (dark : bool).
Notation ivals := (Stats.item_values false oor interval left right dark).
Notation svals := (Stats.section_values false oor interval left right dark).

Lemma item_values_count cpu it : known_kindb it = true → length (ivals cpu it).1 = length (item_headers false it).
Proof.
  unfold known_kindb, item_headers, Stats.item_values. cbv zeta. intros [Hk Hh]%andb_prop. apply Bool.eqb_prop in Hh.
  rewrite Hh. clear Hh. destruct (Z.eqb_spec (Z.land (typ it) 240) metricGauge) as [He|]; [by rewrite He|].
  destruct (Z.eqb_spec (Z.land (typ it) 240) metricCounter) as [He|].
  { rewrite He. change (metricCounter =? metricHist)%Z with false.
    destruct (has_metric (typ it) metricByte); [done|]. destruct (has_metric (typ it) metricCPU); [by destruct dark|].
    by destruct (has_metric (typ it) metricTime). }
  destruct (Z.eqb_spec (Z.land (typ it) 240) metricHist); [done|].
  destruct (Z.eqb_spec (Z.land (typ it) 240) metricHit); [done|]. exfalso.
  apply existsb_exists in Hk as (m & Hm & Hk%Z.eqb_eq). cbn in Hm. intuition congruence.
Qed.

Lemma section_values_go items vals cpu :
  forallb known_kindb items = true →
  length (foldl (λ '(vals, cpu) it, let '(l, cpu) := ivals cpu it in (vals ++ l, cpu)) (vals, cpu) items).1 =
  length vals + length (flat_map (item_headers false) items).
Proof.
  revert vals cpu. induction items as [|it items IH]; intros vals cpu; cbn [forallb foldl flat_map]; [cbn; lia|].
  intros [Hi Hr]%andb_prop. pose proof (item_values_count cpu it Hi) as Hc.
  destruct (ivals cpu it) as [l cpu'] eqn:E. cbn [fst] in Hc. rewrite IH by done.
  rewrite !length_app, Hc. lia.
Qed.

(** A section of a schema has a value for each of its columns. *)
Theorem columns_match verbose r s cpu :
  schema_section verbose r = Some s → length (svals cpu s).1 = length (section_headers false s).
Proof.
  intros [Hk _]%schema_kinds. unfold Stats.section_values, section_headers. by rewrite section_values_go.
Qed.

Definition values_line (values : list (list string)) : string := Join ((λ vals, Join vals " ") <$> values) "|".
Lemma line_values_go sections values cpu :
  ∃ cpus, length cpus = length sections ∧
  (foldl (λ '(values, cpu) s, let '(vals, cpu) := svals cpu s in (values ++ [vals], cpu)) (values, cpu) sections).1 =
  values ++ zip_with (λ s c, (svals c s).1) sections cpus.
Proof.
  revert values cpu. induction sections as [|s sections IH]; intros values cpu.
  { exists []. by rewrite app_nil_r. }
  cbn [foldl]. destruct (svals cpu s) as [vals cpu'] eqn:E.
  destruct (IH (values ++ [vals]) cpu') as (cpus & Hl & ->). exists (cpu :: cpus). cbn. rewrite Hl, E.
  split; [done|]. by rewrite <- app_assoc.
Qed.

(** When all values of a line are five characters wide, the line is as long as the header
    above it. *)
Theorem line_aligned sections verbose schema cpu :
  buildSchema schema verbose = Goes_on sections →
  let values := (line_values false oor interval left right dark cpu sections).1 in
  Forall (Forall (λ v, String.length v = MaxItemSize)) values →
  String.length (values_line values) = String.length (header_line sections).
Proof.
  intros Hb. cbv zeta. unfold line_values.
  assert (sections ≠ [] ∧ ∀ s, s ∈ sections → ∃ r, schema_section verbose r = Some s) as [Hne Hs].
  { unfold buildSchema in Hb. destruct (omap _ _) as [|s0 l] eqn:E; [done|]. injection Hb as <-. split; [done|].
    intros s Hin. rewrite <- E in Hin. apply list_elem_of_omap in Hin as (r & _ & Hr). by exists r. }
  destruct (line_values_go sections [] cpu) as (cpus & Hl & ->). cbn [app]. clear Hb. unfold values_line, header_line.
  intros Hfive.
  assert (∀ sections cpus, length cpus = length sections → (∀ s, s ∈ sections → ∃ r, schema_section verbose r = Some s) →
    Forall (Forall (λ v, String.length v = MaxItemSize)) (zip_with (λ s c, (svals c s).1) sections cpus) →
    total_length ((λ vals, Join vals " ") <$> zip_with (λ s c, (svals c s).1) sections cpus) =
    total_length ((λ s, Join (section_headers false s) " ") <$> sections)) as Htot.
  { clear. unfold total_length. induction sections as [|s sections IH]; intros [|c cpus] Hl Hs Hf; try done.
    cbn. cbn in Hf. apply Forall_cons in Hf as [Hv Hf]. rewrite (IH cpus); [|by injection Hl|set_solver|done].
    f_equal. destruct (Hs s) as [r Hr]; [by left|]. pose proof (columns_match verbose r s c Hr) as Hc.
    destruct (schema_kinds verbose r s Hr) as [_ Hi].
    assert (section_headers false s ≠ []) as Hh by (unfold section_headers; by destruct (sec_items s)).
    rewrite section_headers_width by done. rewrite length_Join by (intros E; rewrite E in Hc; by destruct (section_headers false s)).
    rewrite (total_length_all MaxItemSize) by done. rewrite Hc. unfold section_width, MaxItemSize. cbn [String.length].
    destruct (section_headers false s); [done|]. cbn [length]. lia. }
  pose proof (Htot sections cpus Hl Hs Hfive) as Ht.
  rewrite !length_Join; [|by destruct sections, cpus..]. by rewrite Ht, !length_fmap, length_zip_with_l by lia.
Qed.
End values.

(** ** Numbers *)

Definition unit_power (isByte : bool) (k : Z) : string :=
  if (k =? 0)%Z then (if isByte then "B" else " ")
  else if (k =? 1)%Z then "K" else if (k =? 2)%Z then "M" else if (k =? 3)%Z then "G" else if (k =? 4)%Z then "T" else "P".
Lemma shiftr_bounds vi k : (0 ≤ vi)%Z → (0 ≤ k)%Z →
  (Z.shiftr vi (10 * k) * 1024 ^ k ≤ vi < (Z.shiftr vi (10 * k) + 1) * 1024 ^ k)%Z.
Proof.
  intros Hv Hk. rewrite Z.shiftr_div_pow2 by lia.
  replace (2 ^ (10 * k))%Z with (1024 ^ k)%Z by (by rewrite Z.pow_mul_r).
  pose proof (Z.pow_pos_nonneg 1024 k ltac:(lia) Hk). pose proof (Z.div_mod vi (1024 ^ k) ltac:(lia)).
  pose proof (Z.mod_pos_bound vi (1024 ^ k) ltac:(lia)). nia.
Qed.

(** The number that is shown is the measured one, cut to its unit; it has at most four digits
    below ten thousand exabytes of 2^50. *)
Theorem scale_u64_spec vi isByte :
  (0 ≤ vi)%Z →
  ∃ k, let '(m, unit, _) := scale_u64 vi isByte in
    (0 ≤ k ≤ 5)%Z ∧ unit = unit_power isByte k ∧ (m * 1024 ^ k ≤ vi < (m + 1) * 1024 ^ k)%Z ∧
    (vi < 10000 * 2 ^ 50 → 0 ≤ m < 10000)%Z.
Proof.
  intros Hv. unfold scale_u64.
  pose proof (λ k, proj2 (Z.shiftr_nonneg vi k) Hv) as Hn.
  destruct (Z.ltb_spec vi 10000). { exists 0%Z. split; [lia|]. split; [done|]. split; lia. }
  destruct (Z.ltb_spec (Z.shiftr vi 10) 10000).
  { exists 1%Z. split; [lia|]. split; [done|]. split; [apply (shiftr_bounds vi 1); lia|]. intros _. split; [apply Hn|done]. }
  destruct (Z.ltb_spec (Z.shiftr vi 20) 10000).
  { exists 2%Z. split; [lia|]. split; [done|]. split; [apply (shiftr_bounds vi 2); lia|]. intros _. split; [apply Hn|done]. }
  destruct (Z.ltb_spec (Z.shiftr vi 30) 10000).
  { exists 3%Z. split; [lia|]. split; [done|]. split; [apply (shiftr_bounds vi 3); lia|]. intros _. split; [apply Hn|done]. }
  destruct (Z.ltb_spec (Z.shiftr vi 40) 10000).
  { exists 4%Z. split; [lia|]. split; [done|]. split; [apply (shiftr_bounds vi 4); lia|]. intros _. split; [apply Hn|done]. }
  exists 5%Z. split; [lia|]. split; [done|]. split; [apply (shiftr_bounds vi 5); lia|]. intros Hlt. split; [apply Hn|].
  pose proof (shiftr_bounds vi 5 Hv ltac:(lia)) as Hb. change (1024 ^ 5)%Z with 1125899906842624%Z in Hb.
  change (2 ^ 50)%Z with 1125899906842624%Z in Hlt. change (10 * 5)%Z with 50%Z in Hb. lia.
Qed.

Lemma short_number m : (0 ≤ m < 10000)%Z → (String.length (Itoa m) ≤ 4)%nat.
Proof.
  intros Hm. assert (forallb (λ z, String.length (Itoa z) <=? 4) (seqZ 0 10000) = true) as Hall by by vm_compute.
  apply Nat.leb_le. apply (proj1 (forallb_forall _ _) Hall m). apply list_elem_of_In, elem_of_seqZ. lia.
Qed.
Lemma pad_left_length n s : (String.length s ≤ n)%nat → String.length (pad_left n s) = n.
Proof. intros Hs. unfold pad_left. rewrite length_app_string, length_repeat_string. cbn. lia. Qed.

(** A size is five characters wide, up to ten thousand times 2^50. *)
Theorem formatU64_width oor v dark isByte :
  (0 ≤ uint64_of oor v < 10000 * 2 ^ 50)%Z → String.length (formatU64 false oor v dark isByte) = MaxItemSize.
Proof.
  intros Hv. unfold formatU64. destruct (SFleb v f64_0); [done|].
  destruct (scale_u64_spec (uint64_of oor v) isByte ltac:(lia)) as [k Hk].
  destruct (scale_u64 _ _) as [[m u] c]. destruct Hk as (Hk & -> & _ & Hm). unfold colorize. cbn [negb orb].
  rewrite length_app_string, pad_left_length by (apply short_number, Hm, Hv).
  unfold unit_power. repeat case_match; done.
Qed.

(** The other formats leave the columns of their headers: at ten milliseconds less a little,
    and at every hit rate of a hundred percent. *)
Example wide_values :
  (String.length ∘ λ v, formatTime false v false) <$> ParseFloat no_hex "9.996" = Some 6 ∧
  formatHits false (f64_of_Z 1) false = "100.0%" ∧ formatCPU false (f64_of_Z 1) false = " 100%".
Proof. vm_compute. done. Qed.

(** ** The loop *)

(** An interval of less than a second ends the command with a division by zero. *)
Theorem short_interval_panics colorful oor hexadecimal mountPoint schema verbose duration count read fuel sections data :
  (0 ≤ duration < 1000000000)%Z → buildSchema schema verbose = Goes_on sections → read 0 = Some data →
  realTimeStats colorful oor hexadecimal (inl 1%Z) mountPoint schema verbose duration count read (S fuel) = Some ([], Panicked).
Proof.
  intros Hd Hs Hr. unfold realTimeStats. change (negb (1 =? 1)%Z) with false. cbv iota. rewrite Hs.
  unfold readStats at 1. rewrite Hr. rewrite Z.quot_small by done. reflexivity.
Qed.

(** The quotient of the loop is exact, for the intervals and times that are computed here. *)
Definition ceil_div (a b : Z) : Z := ((a + b - 1) / b)%Z.
Definition max_interval : Z := 10.
Definition max_tick : Z := 600.
Lemma quotient_exact t i : (1 ≤ i ≤ max_interval)%Z → (1 ≤ t ≤ max_tick)%Z →
  Ceil (f64_div (f64_of_Z t) (f64_of_Z i)) = Some (ceil_div t i).
Proof.
  intros Hi Ht.
  assert (forallb (λ i, forallb (λ t, bool_decide (Ceil (f64_div (f64_of_Z t) (f64_of_Z i)) = Some (ceil_div t i)))
    (seqZ 1 max_tick)) (seqZ 1 max_interval) = true) as Hall by by vm_compute.
  assert (i ∈ seqZ 1 max_interval) as Hi'%list_elem_of_In by (apply elem_of_seqZ; lia).
  assert (t ∈ seqZ 1 max_tick) as Ht'%list_elem_of_In by (apply elem_of_seqZ; lia).
  pose proof (proj1 (forallb_forall _ _) Hall i Hi') as Hrow. cbv beta in Hrow.
  apply (proj1 (forallb_forall _ _) Hrow t) in Ht'. by apply bool_decide_eq_true in Ht'.
Qed.

Lemma ceil_div_step k b : (0 ≤ k)%Z → (0 < b)%Z →
  ceil_div (k + 1) b = (ceil_div k b + if (k mod b =? 0)%Z then 1 else 0)%Z.
Proof.
  intros Hk Hb. unfold ceil_div. pose proof (Z.div_mod k b ltac:(lia)) as Hd.
  pose proof (Z.mod_pos_bound k b Hb) as Hm. set (q := (k / b)%Z) in *. set (r := (k mod b)%Z) in *.
  replace (k + 1 + b - 1)%Z with (q * b + (r + b))%Z by lia. replace (k + b - 1)%Z with (q * b + (r + b - 1))%Z by lia.
  rewrite !Z.div_add_l by lia. replace ((r + b) / b)%Z with 1%Z.
  2: { apply (Z.div_unique_pos _ _ _ r); lia. }
  destruct (Z.eqb_spec r 0) as [Hr|Hr].
  - rewrite Hr. rewrite (Z.div_small (0 + b - 1)) by lia. lia.
  - replace ((r + b - 1) / b)%Z with 1%Z; [lia|]. apply (Z.div_unique_pos _ _ _ (r - 1)); lia.
Qed.

Section loop_ends.
Context (oor : f64 → Z) (hexadecimal : string → option f64) (interval count : Z) (header : string).
Context (sections : list section) (read : nat → option string).
Hypothesis (Hi : (1 ≤ interval ≤ max_interval)%Z) (Hc : (1 ≤ count)%Z).
Hypothesis (Ht : ((count - 1) * interval + 1 ≤ max_tick)%Z).
Hypothesis (Hread : ∀ n, is_Some (read n)).

(** The texts printed before a tick: the full lines and the headers. *)
Definition texts_before (k : Z) : Z := (ceil_div k interval + ceil_div k (interval * 30))%Z.
Lemma wrapped k : (0 ≤ k ≤ max_tick)%Z → wrapu64 k = k.
Proof. unfold wrapu64, max_tick. intros Hk. apply Z.mod_small. lia. Qed.

Lemma show_tick_texts w :
  (0 ≤ tick w < max_tick)%Z → Z.of_nat (length (printed w)) = texts_before (tick w) →
  ∃ w', show_tick false oor interval header sections w = Goes_on w' ∧ tick w' = (tick w + 1)%Z ∧
    Z.of_nat (length (printed w')) = texts_before (tick w + 1).
Proof.
  intros Hk Hl. unfold show_tick, uint_mod. unfold max_interval, max_tick in *.
  rewrite (wrapped interval) by (unfold max_tick; lia). rewrite (wrapped (interval * 30)) by (unfold max_tick; lia).
  destruct (Z.eqb_spec (interval * 30) 0); [lia|]. destruct (Z.eqb_spec interval 0); [lia|].
  cbn [mbind process_bind]. unfold texts_before in *. rewrite !ceil_div_step by lia.
  destruct (tick w mod interval =? 0)%Z eqn:Hf; cbn [negb].
  - unfold printDiff. cbn [negb andb]. destruct (line_values _ _ _ _ _ _ _ _) as [values cpu].
    eexists. split; [done|]. cbn [tick printed]. rewrite wrapped by (unfold max_tick; lia). split; [done|].
    rewrite !length_app. destruct (tick w mod (interval * 30) =? 0)%Z; cbn [length]; lia.
  - unfold printDiff. cbn [negb andb]. eexists. split; [done|]. cbn [tick printed].
    rewrite wrapped by (unfold max_tick; lia). split; [done|].
    rewrite !length_app. destruct (tick w mod (interval * 30) =? 0)%Z; cbn [length]; lia.
Qed.

Lemma enough_spec k : (1 ≤ k ≤ max_tick)%Z → enough oor interval count k = (ceil_div k interval =? count)%Z.
Proof.
  intros Hk. unfold enough. rewrite quotient_exact by done.
  assert (0 ≤ ceil_div k interval)%Z by (unfold ceil_div; apply Z.div_pos; lia).
  assert (ceil_div k interval < 2 ^ 64)%Z.
  { unfold ceil_div. apply Z.div_lt_upper_bound; [lia|]. unfold max_tick, max_interval in *. lia. }
  by rewrite (proj2 (Z.leb_le _ _)), (proj2 (Z.ltb_lt _ _)) by done.
Qed.
Lemma ceil_before k : (1 ≤ k)%Z → (ceil_div k interval = count ↔ (count - 1) * interval + 1 ≤ k ≤ count * interval)%Z.
Proof.
  intros Hk. unfold ceil_div. pose proof (Z.div_mod (k + interval - 1) interval ltac:(lia)).
  pose proof (Z.mod_pos_bound (k + interval - 1) interval ltac:(lia)). split; [nia|]. intros Hb.
  symmetry. apply (Z.div_unique_pos _ _ _ (k + interval - 1 - interval * count)); lia.
Qed.

Lemma stats_loop_runs fuel : ∀ seconds w,
  (0 ≤ tick w ≤ (count - 1) * interval)%Z → Z.of_nat (length (printed w)) = texts_before (tick w) →
  ((count - 1) * interval + 1 - tick w ≤ Z.of_nat fuel)%Z →
  ∃ out, stats_loop false oor hexadecimal interval count header sections read fuel seconds w = Some (out, Goes_on ()) ∧
    Z.of_nat (length out) = texts_before ((count - 1) * interval + 1).
Proof.
  induction fuel as [|fuel IH]; intros seconds w Hk Hl Hf; [lia|]. cbn [stats_loop].
  destruct (show_tick_texts w) as (w' & -> & Htick & Hp); [lia|done|].
  unfold readStats. destruct (Hread (S seconds)) as [data ->]. cbn [tick printed].
  rewrite enough_spec by lia. destruct (Z.eqb_spec (ceil_div (tick w') interval) count) as [He|He].
  - eexists. split; [done|]. apply ceil_before in He; [|lia]. rewrite Hp. f_equal. lia.
  - apply IH; cbn [tick printed]; [|by rewrite Hp, Htick|lia].
    assert (¬ ((count - 1) * interval + 1 ≤ tick w' ≤ count * interval)%Z) by (rewrite <- ceil_before; [done|lia]). nia.
Qed.
End loop_ends.

(** With a count the command ends, having printed as many full lines and a header before
    every thirtieth of them, when each second's file can be read.  Without colours nothing
    else is printed. *)
Theorem stats_end oor hexadecimal mountPoint schema verbose duration count read sections fuel :
  let interval := Z.quot duration 1000000000 in
  buildSchema schema verbose = Goes_on sections → (∀ n, is_Some (read n)) →
  (1 ≤ interval ≤ max_interval)%Z → (1 ≤ count)%Z → ((count - 1) * interval + 1 ≤ max_tick)%Z →
  ((count - 1) * interval + 1 ≤ Z.of_nat fuel)%Z →
  ∃ out, realTimeStats false oor hexadecimal (inl 1%Z) mountPoint schema verbose duration count read fuel = Some (out, Goes_on ()) ∧
    Z.of_nat (length out) = (count + ceil_div count 30)%Z.
Proof.
  cbv zeta. intros Hs Hread Hi Hc Ht Hf. unfold realTimeStats. change (negb (1 =? 1)%Z) with false. cbv iota. rewrite Hs.
  unfold readStats at 1. destruct (Hread 0) as [data Hr]. rewrite Hr.
  set (interval := Z.quot duration 1000000000) in *.
  destruct (stats_loop_runs oor hexadecimal interval count (formatHeader false sections) sections read Hi Hc Ht Hread
    fuel 0 (mkWatch 0 (parse_stats hexadecimal data) (parse_stats hexadecimal data) (parse_stats hexadecimal data) f64_0 []))
    as (out & Ho & Hl); cbn [tick printed]; [nia| |lia|].
  { unfold texts_before, ceil_div. rewrite !Z.div_small by lia. done. }
  exists out. split; [exact Ho|]. rewrite Hl. unfold texts_before.
  assert (ceil_div ((count - 1) * interval + 1) interval = count) as -> by (apply ceil_before; nia). f_equal.
  unfold ceil_div. replace ((count - 1) * interval + 1 + interval * 30 - 1)%Z with ((count + 29) * interval)%Z by lia.
  replace (interval * 30)%Z with (30 * interval)%Z by lia. rewrite Z.div_mul_cancel_r by lia. f_equal. lia.
Qed.

(** With colours the lines in between are drawn too; without, the processor times of the
    seconds in between are lost: three seconds at full use are shown as a third of it. *)
Example cpu_without_colours :
  let stats := "process_cpu_usage : 1.0" +:+ bytes [10] in
  let run colorful := realTimeStats colorful (λ _, 0%Z) no_hex (inl 1%Z) "/m" "u" false 3000000000 2 (λ _, Some stats) 5 in
  let cpu_line (n : nat) := (λ '(l, _), String.substring 0 5 (default "" (l !! n))) <$> run false in
  cpu_line 1%nat = cpu_line 2%nat ∧ cpu_line 2%nat = Some "33.3%" ∧
  (λ '(l, _), String.substring 7 4 (default "" (l !! 4))) <$> run true = Some " 100".
Proof. vm_compute. split_and!; reflexivity. Qed.

(** What stops the command with [log.Fatal]: a path without an inode, one that is no mount
    point, a schema without a section, a statistics file that cannot be read - at the start
    or in a later second. *)
Theorem stats_fatal colorful oor hexadecimal inode mountPoint schema verbose duration count read fuel out e :
  realTimeStats colorful oor hexadecimal inode mountPoint schema verbose duration count read fuel = Some (out, Fatal e) →
  (∃ m, inode = inr m) ∨ (∃ i, inode = inl i ∧ i ≠ 1%Z) ∨ omap (schema_section verbose) (String.list_ascii_of_string schema) = [] ∨
  ∃ n, n ≤ fuel ∧ read n = None.
Proof.
  unfold realTimeStats. destruct inode as [i|m]; [|intros _; left; by exists m].
  destruct (Z.eqb_spec i 1) as [->|Hi]; cbn [negb]; [|intros _; right; left; by exists i].
  unfold buildSchema. destruct (omap _ _) as [|s l]; [intros _; tauto|]. intros Hr. do 3 right. revert Hr.
  unfold readStats at 1. destruct (read 0) as [data|] eqn:E0; [|intros _; exists 0; split; [lia|done]].
  assert (∀ fuel seconds w, stats_loop colorful oor hexadecimal (Z.quot duration 1000000000) count
    (formatHeader colorful (s :: l)) (s :: l) read fuel seconds w = Some (out, Fatal e) → ∃ n, n ≤ seconds + fuel ∧ read n = None) as Hloop.
  { clear. induction fuel as [|fuel IH]; intros seconds w; cbn [stats_loop]; [done|].
    destruct (show_tick _ _ _ _ _ w) as [w'|e'|] eqn:Hshow; [|exfalso|done].
    - unfold readStats. destruct (read (S seconds)) eqn:E; [|intros _; exists (S seconds); split; [lia|done]].
      case_match; [done|]. intros (n & Hn & ?)%IH. exists n. split; [lia|done].
    - revert Hshow. unfold show_tick, uint_mod. unfold mbind, process_bind.
      destruct (wrapu64 (_ * 30) =? 0)%Z; [done|]. destruct (wrapu64 _ =? 0)%Z; [done|].
      by destruct (printDiff _ _ _ _ _ _ _ _). }
  intros (n & Hn & Hr)%Hloop. by exists n.
Qed.

(** Such a command, recorded: the audit row is there and keeps the status that says that it
    did not finish. *)
Example fatal_not_finished :
  let r := realTimeStats false (λ _, 0%Z) no_hex (inl 7%Z) "/m" "u" false 1000000000 1 (λ _, Some "") 5 in
  r = Some ([], Fatal "path /m is not a mount point") ∧
  let out := @Execute sample_driver "now" "/root" ["fs"; "stats"; "mountpoint"; "/m"]
               (runMountpoint (Fatal "path /m is not a mount point")) sample_db in
  out.1 = Ok false ∧ (λ l, (a_Command l, a_Status l)) <$> last (rows (t_audit out.2)) =
    Some ("dingocli fs stats mountpoint /m", AUDIT_STATUS_ABORT).
Proof. vm_compute. split_and!; reflexivity. Qed.
